(* ===== verification/_CoqProject ===== *)
-Q . S2P
Prelude.v
CMem.v
LiumlibStr.v
LiumlibNum.v
Syscalls.v
Tokenize.v
Parse.v
Rendering.v
HttpServer.v
Browser.v
KernelBase.v
KernelText.v
KernelInput.v
PhysPages.v
Paging.v
PagingProofs.v
Scheduler.v
Network.v
NetApps.v
Sheet.v
Console.v
Shell.v
Mouse.v
Pci.v
Persist.v
Elf.v
ElfProofs.v
Xhci.v
Virtio.v
VirtioProofs.v
SyscallKernel.v
SyscallProofs.v
XhciController.v
XhciProofs.v
XhciEnum.v
UsbManager.v
UsbProofs.v
Interrupts.v
Preempt.v
