(* ===== verification/Prelude.v ===== *)
(** * liumOS: a verification library

    liumOS is a small operating system: a kernel in C++ ([src/src]), user programs
    in C ([src/app]) and a C library for them ([src/app/liumlib]).  This library
    models the parts that carry its logic, as executable definitions translated
    from the source, and proves what makes them correct.

    ** Parts and files

    User land.  Programs run on a byte-addressed memory with a malloc arena and a
    trace of system calls whose answers come from an environment ([CMem]: the
    monad [M], loops with fuel, C strings as assertions on memory).
    - [LiumlibStr]: the string and memory functions and malloc of
      [app/liumlib/liumlib.c];
    - [LiumlibNum]: byte order, number printing and parsing, IPv4 text of the same;
    - [Syscalls]: sockets and files as system calls, and the frame reasoning that
      the programs share;
    - [Tokenize], [Parse], [Rendering]: the HTML tokenizer, tree construction and
      text rendering of [app/browser];
    - [HttpServer], [Browser]: [app/httpserver/httpserver.c] and
      [app/browser/browser.c], whole programs;
    - [NetApps]: httpclient, ping, dig, udpclient, udpserver.
    The typed models ([Tokenize], [Parse], [Rendering] and the kernel) return
    [res]: a result, or the reason why the program stopped.

    Kernel.
    - [KernelBase]: page arithmetic, bit fields, ring buffer, rectangles;
    - [KernelText]: string buffer, command line splitting, libfunc;
    - [KernelInput]: key codes, keyboard state machine, line editing;
    - [PhysPages]: the free list of physical pages, generic in how a physical
      address is reached, as the template is;
    - [Paging], [PagingProofs]: page table entries, walks, CreatePageMapping and
      FlushDirtyPages, generic in the page allocator; the proofs are in the second
      file;
    - [Scheduler]: process states, lock, table operations;
    - [Network]: addresses, checksums, packets, DHCP, ARP table, sockets;
    - [Sheet]: the compositor; [Console]: text output on a sheet and the serial
      port; [Shell]: reading a command line from keyboards and the serial port;
    - [Mouse]: the PS/2 mouse and the mouse manager that moves cursor and windows;
    - [Pci]: configuration space, device detection, base address registers;
    - [Virtio], [VirtioProofs]: the virtio network driver with its virtqueues as
      bytes and the protocol handlers (ARP, ICMP, DHCP, UDP) on received frames;
    - [SyscallKernel], [SyscallProofs]: the system call dispatcher and its calls,
      on the driver, the socket table, the page tables and the compositor;
    - [Persist]: persistent memory pool, execution contexts, kernel heap, on a
      memory with a volatile and a persistent view;
    - [Elf], [ElfProofs]: the ELF loader on the page tables and the allocator, which
      lines the kernel's own commands answer, and the start of a program with its
      arguments for the others;
    - [Xhci]: transfer request blocks and rings; [XhciController]: the driver of
      the USB host controller on them ([xhci.h], [xhci.cc]), with registers, event
      ring and the controller's memory as an environment; [XhciProofs]: its
      invariant under every behaviour of the hardware; [XhciEnum]: what becomes of
      a device, a port that does not answer, a keyboard report;
    - [UsbManager], [UsbProofs]: the manager of [usb_manager.cc] with the common
      driver and the driver of network adapters, and the walk over descriptors;
    - [Interrupts], [Preempt]: descriptor tables, interrupt entries and handlers,
      the I/O APIC, the context switch of the timer and new tasks of the kernel
      ([interrupt.cc], [inthandler.S], [gdt.cc], [apic.cc], [kernel.cc]), and the
      machine with one processor that runs the processes on them.

    The programs meet the kernel and each other: the request the browser builds is
    answered by a turn of the server's loop ([Browser.BuildRequest_served]), the
    checksum of ping is the kernel's ([NetApps]), a context switch flushes what
    [Paging.FlushDirtyPages] finds dirty ([Persist]); a datagram goes from the
    sending process through [sendto], driver, wire, driver and [recvfrom] to the
    receiving one ([SyscallProofs]); the console draws on the compositor, the shell
    types on the console, and the mouse moves what the compositor shows; a command
    line becomes a process whose memory is the program file ([ElfProofs], on
    [KernelText], [Paging], [PhysPages] and [Scheduler]); the USB drivers talk to
    devices through the transfer rings, whose entries a controller reads as a
    queue ([Xhci.trb_ring_is_queue]); the timer asks the scheduler whom to run and
    switches the contexts ([Preempt], on [Scheduler]).

    ** What the theorems show

    - Functional behaviour: page mappings cover exactly their range; URLs, command
      lines, names and numbers are taken apart and put together as meant; checksums
      verify; pings, ARP and DHCP messages are answered; datagrams are delivered;
      programs are loaded and started; the bus scan finds what is there; a USB
      device that is plugged in becomes available, its configurations are collected
      and a network adapter is recognised; a line typed on the keyboards or the
      serial port is edited and handed over; interrupts reach their handlers, and an
      ephemeral process finds its general registers after the timer interrupted it.
    - Invariants: the DOM is a tree, and small documents stay inside its arrays; the
      scheduler has one running process, the socket table one socket per descriptor;
      an unpadded screen shows the topmost sheet, also under the mouse, which takes
      the topmost window under it; the state of the USB driver stays well formed
      whatever the hardware does, unless it reports an address for a slot that was
      never set up, and one port is initialised at a time.
    - Liveness: the server answers until its memory is used up; a USB port that does
      not answer in time gives way to the next; a process that is ready gets its turn.
    - Safety: blocks of malloc and of the page allocator never overlap; persistent
      memory is consistent after a power failure at every point.
    - Refinement and equivalence: the tokenizer implements a one-pass list
      tokenizer, the console an ideal terminal, preemption of ephemeral processes
      a machine on which every process has general registers and an address space of
      its own and all share the floating-point unit; ring buffer and transfer ring are queues,
      two IPv4 parsers and two checksums agree.
    - Round trips: printing and parsing of numbers, addresses, tokens, DNS names.
    - Termination and errors: tree construction terminates except on the start tags
      it never consumes; exhausted allocators, unmatched end tags, overlong input
      (stores behind an array end the run with [Overflow], as the C store is
      undefined there) and USB descriptors of length zero are followed to what the code does.
    Where the code is wrong, the theorem says what it does, and the statement's
    hypotheses say when it is right.

    ** Bounds and fuel

    Integers are [Z] with the wrap-around of their C type written out ([u8] to
    [u64], [i8] to [i64]).  Loops that are not structural take fuel: in [CMem] every
    loop may iterate as often as the fuel says, and the theorems ask for fuel above
    the length of the data, so that they are about completed runs; tree
    construction has the proved bound 7 * (tokens + 1); page table loops iterate at
    most 512 times per level; walks over the children of a sheet have the number of
    sheets; a walk over descriptors has more fuel than there are descriptors; a wait
    for a device register reads it at most as often as the fuel says, and a device
    that never answers is the outcome [FuelOut].  Rectangles are below 2^27 or 2^29 so that no sum leaves [int].

    ** Not modelled

    The set-up of the remaining devices (RTL81xx, AdLib, serial port, local APIC,
    HPET): sequences of register accesses.  The preemption theorems are about
    processes with an ephemeral context, the switch of a persistent one is in
    [Persist].  Firmware tables (ACPI, EFI), start-up code and
    its assembly, which depend on what the machine provides.  The printers, and what
    the built-in commands of the command interpreter do, which print or call other
    parts.
    The variant of the loader that restores persistent processes.  The Rust
    programs, and the GUI test, which calls the FreeType library. *)

From stdpp Require Export base list list_numbers gmap numbers.
From Stdlib Require Export ZArith Lia Bool.

#[global] Open Scope Z_scope.

(** ** Machine integers

    A [w]-bit integer is a [Z]; the functions below are the conversions the C
    compiler inserts.  [u8], [u16], [u32], [u64] wrap to the unsigned type,
    [i8], [i32], [i64] to the two's complement one. *)

Definition u8 (x : Z) : Z := x mod 2 ^ 8.
Definition u16 (x : Z) : Z := x mod 2 ^ 16.
Definition u32 (x : Z) : Z := x mod 2 ^ 32.
Definition u64 (x : Z) : Z := x mod 2 ^ 64.
Definition swrap (w x : Z) : Z := (x + 2 ^ (w - 1)) mod 2 ^ w - 2 ^ (w - 1).
Definition i8 (x : Z) : Z := swrap 8 x.
Definition i32 (x : Z) : Z := swrap 32 x.
Definition i64 (x : Z) : Z := swrap 64 x.

Definition is_byte (b : Z) : Prop := 0 <= b < 256.
#[global] Instance is_byte_dec b : Decision (is_byte b).
Proof. unfold is_byte. apply _. Defined.

Create HintDb lium.
Create Rewrite HintDb lium.

(** ** Computations that can stop

    The typed models (everything but the byte-level code of [liumlib]) are
    functions into [res]: [Done] is normal completion, [Stop] says why the
    program did not get there.  [Exit] is a call of [exit], [Panic] a failed
    [assert] or a call of [Panic] in the kernel, [Overflow] a write outside the
    buffer it is meant for, [BadPointer] a null pointer or an index outside its
    array that is dereferenced, [FuelOut] the fuel of a loop running out. *)
Inductive stop :=
| Exit (code : Z)
| Panic
| Overflow
| BadPointer
| FuelOut.
#[global] Instance stop_eq_dec : EqDecision stop.
Proof. solve_decision. Defined.

Inductive res (A : Type) := Done (a : A) | Stop (s : stop).
Arguments Done {A} a.
Arguments Stop {A} s.

Definition rbind {A B} (x : res A) (k : A -> res B) : res B :=
  match x with Done a => k a | Stop s => Stop s end.
Definition rmap {A B} (f : A -> B) (x : res A) : res B := rbind x (fun a => Done (f a)).
(** A pointer that may be null, dereferenced. *)
Definition deref {A} (o : option A) : res A :=
  match o with Some a => Done a | None => Stop BadPointer end.
(** [assert(b)] of the kernel. *)
Definition kassert (b : bool) : res unit := if b then Done tt else Stop Panic.

Declare Scope res_scope.
Delimit Scope res_scope with res.
Notation "'do' x <- c ; k" := (rbind c (fun x => k))
  (at level 10, x name, c at level 100, k at level 200) : res_scope.
Notation "'do' ' p <- c ; k" := (rbind c (fun p => k))
  (at level 10, p pattern, c at level 100, k at level 200) : res_scope.
Notation "'run' c ; k" := (rbind c (fun _ => k))
  (at level 10, c at level 100, k at level 200) : res_scope.
#[global] Open Scope res_scope.

Lemma rbind_Done {A B} (x : res A) (k : A -> res B) b :
  rbind x k = Done b <-> exists a, x = Done a /\ k a = Done b.
Proof.
  destruct x as [a|s]; simpl; split; [eauto|..]; try done.
  - intros (? & [= ->] & ?). done.
  - by intros (? & ? & ?).
Qed.

(** ** Tactics *)

(** Invert hypotheses [rbind _ _ = Done _]. *)
Ltac rinv :=
  repeat match goal with
  | H : rbind _ _ = Done _ |- _ => apply rbind_Done in H as (? & ? & ?)
  | H : Done _ = Done _ |- _ => injection H as H; subst
  | H : Stop _ = Done _ |- _ => discriminate H
  end.

(** Case analysis on the boolean comparisons of [Z] that occur in the goal. *)
Ltac zcmp :=
  match goal with
  | |- context [?a =? ?b] => destruct (Z.eqb_spec a b)
  | |- context [?a <=? ?b] => destruct (Z.leb_spec a b)
  | |- context [?a <? ?b] => destruct (Z.ltb_spec a b)
  end; cbn [andb orb negb]; try (exfalso; lia).
Ltac zcmps := repeat zcmp.

(** The same on the hypotheses. *)
Ltac zcmp_in H :=
  match type of H with
  | context [?a =? ?b] => destruct (Z.eqb_spec a b)
  | context [?a <=? ?b] => destruct (Z.leb_spec a b)
  | context [?a <? ?b] => destruct (Z.ltb_spec a b)
  end; cbn [andb orb negb] in H; try (exfalso; lia).

(** Linear arithmetic with division and modulus by constants. *)
Ltac zdiv := Z.div_mod_to_equations; lia.

(** Evaluate a comparison whose truth [lia] knows. *)
Ltac ztrue b := replace b with true by (symmetry; lia).
Ltac zfalse b := replace b with false by (symmetry; lia).

(** ** Wrapping lemmas *)

Lemma u8_range x : 0 <= u8 x < 256.
Proof. apply Z.mod_pos_bound. lia. Qed.
Lemma u16_range x : 0 <= u16 x < 65536.
Proof. apply Z.mod_pos_bound. lia. Qed.
Lemma u32_range x : 0 <= u32 x < 4294967296.
Proof. apply Z.mod_pos_bound. lia. Qed.
Lemma u64_range x : 0 <= u64 x < 18446744073709551616.
Proof. apply Z.mod_pos_bound. lia. Qed.

Lemma u8_small x : 0 <= x < 256 -> u8 x = x.
Proof. apply Z.mod_small. Qed.
Lemma u16_small x : 0 <= x < 65536 -> u16 x = x.
Proof. apply Z.mod_small. Qed.
Lemma u32_small x : 0 <= x < 4294967296 -> u32 x = x.
Proof. apply Z.mod_small. Qed.
Lemma u64_small x : 0 <= x < 18446744073709551616 -> u64 x = x.
Proof. apply Z.mod_small. Qed.

Lemma swrap_small w x : 0 < w -> - 2 ^ (w - 1) <= x < 2 ^ (w - 1) -> swrap w x = x.
Proof.
  intros Hw Hx. unfold swrap.
  assert (2 ^ w = 2 * 2 ^ (w - 1)) as E.
  { rewrite <- Z.pow_succ_r by lia. f_equal. lia. }
  rewrite Z.mod_small; lia.
Qed.
Lemma i32_small x : -2147483648 <= x < 2147483648 -> i32 x = x.
Proof. intros. apply swrap_small; lia. Qed.
Lemma i64_small x : -9223372036854775808 <= x < 9223372036854775808 -> i64 x = x.
Proof. intros. apply swrap_small; lia. Qed.
Lemma i8_small x : -128 <= x < 128 -> i8 x = x.
Proof. intros. apply swrap_small; lia. Qed.

#[export] Hint Resolve u8_range u16_range u32_range u64_range : lium.
#[export] Hint Rewrite u8_small u16_small u32_small u64_small
  i8_small i32_small i64_small using lia : lium.

Lemma is_byte_u8 x : is_byte (u8 x).
Proof. apply u8_range. Qed.
Lemma u8_byte b : is_byte b -> u8 b = b.
Proof. apply u8_small. Qed.
#[export] Hint Resolve is_byte_u8 : lium.

(** ** Bit fields *)

Lemma land_ones_mod x n : 0 <= n -> Z.land x (2 ^ n - 1) = x mod 2 ^ n.
Proof. intros. rewrite <- Z.land_ones by lia. f_equal. rewrite Z.ones_equiv. lia. Qed.

Lemma land_255 x : Z.land x 255 = x mod 256.
Proof. apply (land_ones_mod x 8). lia. Qed.
Lemma land_65535 x : Z.land x 65535 = x mod 65536.
Proof. apply (land_ones_mod x 16). lia. Qed.
Lemma land_15 x : Z.land x 15 = x mod 16.
Proof. apply (land_ones_mod x 4). lia. Qed.

Lemma shiftr_div x n : 0 <= n -> Z.shiftr x n = x / 2 ^ n.
Proof. apply Z.shiftr_div_pow2. Qed.
Lemma shiftl_mul x n : 0 <= n -> Z.shiftl x n = x * 2 ^ n.
Proof. apply Z.shiftl_mul_pow2. Qed.

(** Disjoint bit fields: [or] is addition when the low field fits. *)
Lemma lor_shiftl_add hi lo n :
  0 <= n -> 0 <= lo < 2 ^ n -> Z.lor (Z.shiftl hi n) lo = hi * 2 ^ n + lo.
Proof.
  intros Hn Hlo. rewrite <- Z.shiftl_mul_pow2 by lia.
  assert (Z.land (Z.shiftl hi n) lo = 0) as H0.
  { apply Z.bits_inj'. intros i Hi. rewrite Z.land_spec, Z.bits_0.
    destruct (Z.lt_ge_cases i n).
    - rewrite Z.shiftl_spec_low by lia. done.
    - destruct (Z.eq_dec lo 0) as [->|]; [by rewrite Z.bits_0, andb_false_r|].
      rewrite (Z.bits_above_log2 lo i), andb_false_r; [done|lia|].
      apply Z.log2_lt_pow2; [lia|].
      eapply Z.lt_le_trans; [apply Hlo|]. apply Z.pow_le_mono_r; lia. }
  rewrite <- Z.lxor_lor by done. symmetry. by apply Z.add_nocarry_lxor.
Qed.

(** ** Lists *)

Lemma lookup_nth_lt (l : list Z) (i : nat) :
  (i < length l)%nat -> l !! i = Some (nth i l 0).
Proof. intros H. rewrite nth_lookup. by destruct (lookup_lt_is_Some_2 l i H) as [x ->]. Qed.

Lemma filter_ext_in {A} (P Q : A -> Prop) `{!forall x, Decision (P x), !forall x, Decision (Q x)} (l : list A) :
  (forall x, x ∈ l -> P x <-> Q x) -> filter P l = filter Q l.
Proof.
  induction l as [|x l IH]; intros HPQ; [done|].
  rewrite !filter_cons, IH by (intros; apply HPQ; by right).
  destruct (HPQ x) as [H1 H2]; [by left|]. by repeat case_decide; try tauto.
Qed.

Lemma last_elem {A} (l : list A) x : list.last l = Some x -> x ∈ l.
Proof. intros H. apply last_Some in H as [l' ->]. apply elem_of_app. right. by left. Qed.

(** ** Byte order *)

(** The bytes of a [n]-byte integer as x86-64 stores it. *)
Fixpoint le_bytes (n : nat) (x : Z) : list Z :=
  match n with O => [] | S n' => u8 x :: le_bytes n' (Z.shiftr x 8) end.
Fixpoint le_value (bs : list Z) : Z :=
  match bs with [] => 0 | b :: bs' => b + 256 * le_value bs' end.

Lemma le_value_bytes n x : le_value (le_bytes n x) = x mod 2 ^ (8 * Z.of_nat n).
Proof.
  revert x. induction n as [|n IH]; intros x; cbn [le_bytes le_value].
  { by rewrite Z.mod_1_r. }
  rewrite IH, Z.shiftr_div_pow2 by lia. unfold u8.
  replace (8 * Z.of_nat (S n)) with (8 + 8 * Z.of_nat n) by lia.
  rewrite Z.pow_add_r by lia. change (2 ^ 8) with 256.
  rewrite Z.rem_mul_r by lia. done.
Qed.
Lemma le_bytes_value bs : Forall is_byte bs -> le_bytes (length bs) (le_value bs) = bs.
Proof.
  induction 1 as [|b bs Hb Hbs IH]; cbn [length le_bytes le_value]; [done|].
  unfold is_byte in Hb. rewrite Z.shiftr_div_pow2 by lia. change (2 ^ 8) with 256.
  f_equal.
  - unfold u8. change (2 ^ 8) with 256. rewrite Z.mul_comm, Z_mod_plus_full. by apply Z.mod_small.
  - rewrite Z.mul_comm, Z.div_add, Z.div_small by lia. done.
Qed.
Lemma length_le_bytes n x : length (le_bytes n x) = n.
Proof. revert x. induction n; intros; simpl; auto. Qed.
Lemma le_bytes_is_byte n x : Forall is_byte (le_bytes n x).
Proof. revert x. induction n; intros; constructor; auto with lium. Qed.
