(* ===== verification/CMem.v ===== *)
(** * The machine the C programs of [app/] run on

    The programs under [app/] are freestanding C linked with [liumlib]; what
    they can do is read and write bytes of their address space, issue system
    calls and stop.  This file gives the state of such a program, the monad in
    which the functions of the other files are written, the loop combinator
    that stands for [while]/[for], and the rules by which the byte predicates
    ([bytes_at], [cstr]) are read and updated. *)

From stdpp Require Import strings.
From S2P Require Import Prelude.

(** ** Byte-addressed memory

    [m_ranges] are the mapped ranges [lo <= a < hi] (static data, the malloc
    arena, stack buffers, the argument block); [m_bytes] the bytes written so
    far.  A mapped byte that was never written reads as 0, as static storage
    does.  An access outside the mapped ranges is a fault. *)
Record mem := Mem { m_ranges : list (Z * Z); m_bytes : gmap Z Z }.

Definition in_range (a : Z) (r : Z * Z) : bool := (r.1 <=? a) && (a <? r.2).
Definition mapped (m : mem) (a : Z) : bool := existsb (in_range a) (m_ranges m).

Definition mread (m : mem) (a : Z) : option Z :=
  if mapped m a then Some (default 0 (m_bytes m !! a)) else None.
Definition mwrite (m : mem) (a v : Z) : option mem :=
  if mapped m a then Some (Mem (m_ranges m) (<[a := u8 v]> (m_bytes m))) else None.

(** ** System calls

    The program's side of the system call interface of [liumlib/syscall.S]:
    what it asks for, in order, and the answers it gets.  [write] never blocks
    and its result is not used by any program here; the answers to the other
    calls come from [w_env], the script of the environment. *)
Inductive sys_event :=
| SysWrite (fd : Z) (bytes : list Z)
| SysSocket (domain type protocol : Z)
| SysBind (fd : Z) (port addr : Z)
| SysListen (fd backlog : Z)
| SysAccept (fd : Z)
| SysConnect (fd : Z) (port addr : Z)
| SysSendto (fd : Z) (bytes : list Z) (port addr : Z)
| SysRecvfrom (fd count : Z)
| SysRead (fd count : Z)
| SysOpen (path : list Z) (flags mode : Z)
| SysClose (fd : Z).

(** An answer: the return value, the bytes the call stores in the caller's
    buffer, and the peer's port and address it stores in the caller's [sockaddr_in]. *)
Record sys_answer := Answer { ans_ret : Z; ans_bytes : list Z; ans_port : Z; ans_addr : Z }.

(** ** The state of a program

    [w_malloc_array] is the address of [malloc_array] of liumlib.c,
    [w_malloc_size] its [malloc_size], [w_save_ptr] the static [save_ptr] of
    [strtok]. *)
Record world := World {
  w_mem : mem;
  w_trace : list sys_event;      (* oldest first *)
  w_env : list sys_answer;
  w_malloc_array : Z;
  w_malloc_size : Z;
  w_save_ptr : Z;
}.

Definition set_mem (w : world) (m : mem) : world :=
  World m (w_trace w) (w_env w) (w_malloc_array w) (w_malloc_size w) (w_save_ptr w).
Definition set_save_ptr (w : world) (p : Z) : world :=
  World (w_mem w) (w_trace w) (w_env w) (w_malloc_array w) (w_malloc_size w) p.
Definition set_malloc_size (w : world) (n : Z) : world :=
  World (w_mem w) (w_trace w) (w_env w) (w_malloc_array w) n (w_save_ptr w).
Definition add_trace (w : world) (e : sys_event) : world :=
  World (w_mem w) (w_trace w ++ [e]) (w_env w) (w_malloc_array w) (w_malloc_size w)
    (w_save_ptr w).
Definition set_env (w : world) (env : list sys_answer) : world :=
  World (w_mem w) (w_trace w) env (w_malloc_array w) (w_malloc_size w) (w_save_ptr w).

(** ** The monad

    A program of type [M A] takes the fuel of its loops and a state.  [Ok] is
    normal completion, [Exited] a call of [exit], [Fault] an access outside
    the mapped memory, [Blocked] a system call the script has no answer for,
    [NoFuel] a loop that did not end within the fuel. *)
Inductive outcome (A : Type) :=
| Ok (a : A) (w : world)
| Exited (code : Z) (w : world)
| Fault
| Blocked (w : world)
| NoFuel.
Arguments Ok {A} a w.
Arguments Exited {A} code w.
Arguments Fault {A}.
Arguments Blocked {A} w.
Arguments NoFuel {A}.

Definition M (A : Type) : Type := nat -> world -> outcome A.

Definition ret {A} (a : A) : M A := fun _ w => Ok a w.
Definition bind {A B} (x : M A) (k : A -> M B) : M B := fun fuel w =>
  match x fuel w with
  | Ok a w' => k a fuel w'
  | Exited c w' => Exited c w'
  | Fault => Fault
  | Blocked w' => Blocked w'
  | NoFuel => NoFuel
  end.

Declare Scope cmonad_scope.
Delimit Scope cmonad_scope with cm.
Notation "'let!' x ':=' c 'in' k" := (bind c (fun x => k))
  (at level 10, x name, c at level 100, k at level 200) : cmonad_scope.
Notation "c ;; k" := (bind c (fun _ => k))
  (at level 100, k at level 200, right associativity) : cmonad_scope.
#[global] Open Scope cmonad_scope.

(** A loop: [body] runs on the loop's locals and either gives the next locals
    or leaves the loop with a result.  Each loop may iterate as often as the
    fuel says. *)
Fixpoint iterM {L R} (body : L -> M (L + R)) (k : nat) (l : L) (fuel : nat) (w : world)
  : outcome R :=
  match k with
  | O => NoFuel
  | S k' =>
    match body l fuel w with
    | Ok (inl l') w' => iterM body k' l' fuel w'
    | Ok (inr r) w' => Ok r w'
    | Exited c w' => Exited c w'
    | Fault => Fault
    | Blocked w' => Blocked w'
    | NoFuel => NoFuel
    end
  end.
Definition loop {L R} (body : L -> M (L + R)) (l : L) : M R :=
  fun fuel w => iterM body fuel l fuel w.
Definition continue_ {L R} (l : L) : M (L + R) := ret (inl l).
Definition break_ {L R} (r : R) : M (L + R) := ret (inr r).

(** [*(uint8_t* )p], [*(uint8_t* )p = v], [exit(code)]. *)
Definition load (p : Z) : M Z := fun _ w =>
  match mread (w_mem w) p with Some b => Ok b w | None => Fault end.
Definition store (p v : Z) : M unit := fun _ w =>
  match mwrite (w_mem w) p v with Some m => Ok tt (set_mem w m) | None => Fault end.
Definition exit_ {A} (code : Z) : M A := fun _ w => Exited code w.

Fixpoint load_bytes (p : Z) (n : nat) : M (list Z) :=
  match n with
  | O => ret []
  | S n' => let! b := load p in let! bs := load_bytes (p + 1) n' in ret (b :: bs)
  end.
Fixpoint store_bytes (p : Z) (bs : list Z) : M unit :=
  match bs with
  | [] => ret tt
  | b :: bs' => store p b ;; store_bytes (p + 1) bs'
  end.

(** Issue a call; [sys] also takes the next answer of the environment. *)
Definition emit (e : sys_event) : M unit := fun _ w => Ok tt (add_trace w e).
Definition answer : M sys_answer := fun _ w =>
  match w_env w with
  | a :: env => Ok a (set_env w env)
  | [] => Blocked w
  end.
Definition sys (e : sys_event) : M sys_answer := emit e ;; answer.

(** [write(fd, p, n)]: the kernel reads [n] bytes at [p]. *)
Definition write (fd p n : Z) : M unit :=
  let! bs := load_bytes p (Z.to_nat n) in emit (SysWrite fd bs).
(** [write(fd, s, n)] of a string literal or of a local array with contents [bs]:
    these are not in the shared memory. *)
Definition write_buf (fd : Z) (bs : list Z) : M unit := emit (SysWrite fd bs).

(** ** String literals *)

Definition ascii_Z (a : Ascii.ascii) : Z := Z.of_N (Ascii.N_of_ascii a).
Fixpoint lit (s : string) : list Z :=
  match s with
  | EmptyString => []
  | String a s' => ascii_Z a :: lit s'
  end.

(** ** Reading and updating bytes *)

Definition bytes_at (w : world) (p : Z) (bs : list Z) : Prop :=
  forall (i : nat) b, bs !! i = Some b -> mread (w_mem w) (p + Z.of_nat i) = Some b.
Definition nonzero (s : list Z) : Prop := Forall (fun b => 0 < b < 256) s.
(** A NUL-terminated C string with contents [s] at [p]. *)
Definition cstr (w : world) (p : Z) (s : list Z) : Prop :=
  nonzero s /\ bytes_at w p (s ++ [0]).
Definition writable (w : world) (p n : Z) : Prop :=
  forall i, 0 <= i < n -> mapped (w_mem w) (p + i) = true.
Definition disjoint_from (p n q m : Z) : Prop := p + n <= q \/ q + m <= p.

Fixpoint put_bytes (p : Z) (bs : list Z) (m : gmap Z Z) : gmap Z Z :=
  match bs with
  | [] => m
  | b :: bs' => put_bytes (p + 1) bs' (<[p := u8 b]> m)
  end.
(** [w] with the bytes [bs] stored at [p]. *)
Definition put (w : world) (p : Z) (bs : list Z) : world :=
  set_mem w (Mem (m_ranges (w_mem w)) (put_bytes p bs (m_bytes (w_mem w)))).

Lemma put_nil w p : put w p [] = w.
Proof. by destruct w as [[] ? ? ? ? ?]. Qed.

Lemma put_bytes_app p l1 l2 m :
  put_bytes p (l1 ++ l2) m = put_bytes (p + Z.of_nat (length l1)) l2 (put_bytes p l1 m).
Proof.
  revert p m. induction l1 as [|b l1 IH]; intros p m; simpl.
  - f_equal. lia.
  - rewrite IH. f_equal. lia.
Qed.
Lemma put_app w p l1 l2 :
  put w p (l1 ++ l2) = put (put w p l1) (p + Z.of_nat (length l1)) l2.
Proof. unfold put. simpl. by rewrite put_bytes_app. Qed.

Lemma put_cons w p b bs : put w p (b :: bs) = put (put w p [b]) (p + 1) bs.
Proof. apply (put_app w p [b] bs). Qed.

Lemma lookup_put_bytes_out p bs m a :
  a < p \/ p + Z.of_nat (length bs) <= a -> put_bytes p bs m !! a = m !! a.
Proof.
  revert p m. induction bs as [|b bs IH]; intros p m H; simpl in *; [done|].
  rewrite IH by lia. rewrite lookup_insert_ne; [done|lia].
Qed.
Lemma lookup_put_bytes_in p bs m (i : nat) b :
  bs !! i = Some b -> put_bytes p bs m !! (p + Z.of_nat i) = Some (u8 b).
Proof.
  revert p m i. induction bs as [|c bs IH]; intros p m i H; [done|].
  destruct i as [|i]; simpl in *.
  - rewrite lookup_put_bytes_out by lia. simplify_eq.
    rewrite Z.add_0_r. by rewrite lookup_insert_eq.
  - replace (p + Z.of_nat (S i)) with (p + 1 + Z.of_nat i) by lia. by apply IH.
Qed.

Lemma insert_put_bytes p bs m a v :
  a < p \/ p + Z.of_nat (length bs) <= a ->
  put_bytes p bs (<[a := v]> m) = <[a := v]> (put_bytes p bs m).
Proof.
  revert p m. induction bs as [|b bs IH]; intros p m H; simpl in *; [done|].
  rewrite <- IH by lia. f_equal. apply insert_insert_ne. lia.
Qed.

Lemma mapped_put w p bs a : mapped (w_mem (put w p bs)) a = mapped (w_mem w) a.
Proof. done. Qed.
Lemma writable_put w p bs q n : writable w q n -> writable (put w p bs) q n.
Proof. done. Qed.
Lemma writable_head w p n : writable w p n -> 0 < n -> mapped (w_mem w) p = true.
Proof. intros H ?. rewrite <- (Z.add_0_r p). apply H. lia. Qed.
Lemma writable_tail w p n : writable w p n -> writable w (p + 1) (n - 1).
Proof. intros H i ?. rewrite <- Z.add_assoc. apply H. lia. Qed.
Lemma writable_sub w p n q m :
  writable w p n -> p <= q -> q + m <= p + n -> writable w q m.
Proof. intros H ?? i ?. replace (q + i) with (p + (q - p + i)) by lia. apply H. lia. Qed.

Lemma mread_put_out w p bs a :
  a < p \/ p + Z.of_nat (length bs) <= a ->
  mread (w_mem (put w p bs)) a = mread (w_mem w) a.
Proof.
  intros H. unfold mread. rewrite mapped_put. destruct (mapped _ _); [|done].
  simpl. by rewrite lookup_put_bytes_out.
Qed.
Lemma mread_put_in w p bs (i : nat) b :
  mapped (w_mem w) (p + Z.of_nat i) = true -> bs !! i = Some b ->
  mread (w_mem (put w p bs)) (p + Z.of_nat i) = Some (u8 b).
Proof.
  intros Hm Hb. unfold mread. rewrite mapped_put, Hm. simpl.
  by rewrite (lookup_put_bytes_in _ _ _ _ _ Hb).
Qed.

Lemma bytes_at_app w p l1 l2 :
  bytes_at w p (l1 ++ l2) <->
  bytes_at w p l1 /\ bytes_at w (p + Z.of_nat (length l1)) l2.
Proof.
  split.
  - intros H. split.
    + intros i b Hi. apply H. by apply lookup_app_l_Some.
    + intros i b Hi. rewrite <- Z.add_assoc, <- Nat2Z.inj_add. apply H.
      rewrite lookup_app_r by lia. by replace (length l1 + i - length l1)%nat with i by lia.
  - intros [H1 H2] i b Hi. apply lookup_app_Some in Hi as [Hi|[Hle Hi]]; [by apply H1|].
    specialize (H2 _ _ Hi).
    by replace (p + Z.of_nat i)
      with (p + Z.of_nat (length l1) + Z.of_nat (i - length l1)) by lia.
Qed.
Lemma bytes_at_cons w p b bs :
  bytes_at w p (b :: bs) <-> mread (w_mem w) p = Some b /\ bytes_at w (p + 1) bs.
Proof.
  rewrite (bytes_at_app w p [b] bs). simpl.
  split; intros [H1 H2]; (split; [|done]).
  - specialize (H1 0%nat b eq_refl). by rewrite Z.add_0_r in H1.
  - intros [|i] c Hc; simpl in Hc; simplify_eq. by rewrite Z.add_0_r.
Qed.
Lemma bytes_at_nil w p : bytes_at w p [].
Proof. intros i b. by rewrite lookup_nil. Qed.

Lemma bytes_at_put w p bs :
  writable w p (Z.of_nat (length bs)) -> Forall is_byte bs -> bytes_at (put w p bs) p bs.
Proof.
  intros Hw Hb i b Hi. erewrite mread_put_in; [|apply Hw|done].
  - f_equal. apply u8_byte. by eapply Forall_lookup_1 in Hb.
  - apply lookup_lt_Some in Hi. lia.
Qed.
Lemma bytes_at_put_ne w p bs q cs :
  disjoint_from p (Z.of_nat (length bs)) q (Z.of_nat (length cs)) ->
  bytes_at w q cs -> bytes_at (put w p bs) q cs.
Proof.
  intros Hd H i b Hi. rewrite mread_put_out; [by apply H|].
  apply lookup_lt_Some in Hi. unfold disjoint_from in Hd. lia.
Qed.
Lemma cstr_put_ne w p bs q s :
  disjoint_from p (Z.of_nat (length bs)) q (Z.of_nat (length s) + 1) ->
  cstr w q s -> cstr (put w p bs) q s.
Proof.
  intros Hd [Hs H]. split; [done|]. apply bytes_at_put_ne; [|done].
  rewrite length_app. simpl. unfold disjoint_from in *. lia.
Qed.

Lemma cstr_cons w p b s : cstr w p (b :: s) <-> mread (w_mem w) p = Some b /\ 0 < b < 256 /\ cstr w (p + 1) s.
Proof.
  unfold cstr, nonzero. simpl. rewrite bytes_at_cons, List.Forall_cons_iff. tauto.
Qed.
Lemma cstr_nil w p : cstr w p [] <-> mread (w_mem w) p = Some 0.
Proof.
  unfold cstr, nonzero. simpl. rewrite bytes_at_cons. split; [tauto|].
  intros ?. split_and!; [constructor|done|apply bytes_at_nil].
Qed.
Lemma cstr_nonzero w p s : cstr w p s -> nonzero s.
Proof. by intros []. Qed.
Lemma nonzero_bytes s : nonzero s -> Forall is_byte s.
Proof. apply Forall_impl. unfold is_byte. lia. Qed.
Lemma cstr_bytes w p s : cstr w p s -> Forall is_byte s.
Proof. intros [H _]. by apply nonzero_bytes. Qed.
Lemma cstr_bytes0 w p s : cstr w p s -> Forall is_byte (s ++ [0]).
Proof.
  intros H. apply Forall_app. split; [by eapply cstr_bytes|]. by repeat constructor.
Qed.
#[export] Hint Resolve nonzero_bytes cstr_bytes cstr_bytes0 cstr_nonzero : lium.
Lemma cstr_end w p s : cstr w p s -> mread (w_mem w) (p + Z.of_nat (length s)) = Some 0.
Proof.
  intros [_ H]. apply H. rewrite lookup_app_r by lia. by rewrite Nat.sub_diag.
Qed.
Lemma cstr_lookup w p s (i : nat) b :
  cstr w p s -> s !! i = Some b -> mread (w_mem w) (p + Z.of_nat i) = Some b /\ 0 < b < 256.
Proof.
  intros [Hn H] Hi. split; [apply H; by apply lookup_app_l_Some|].
  by eapply Forall_lookup_1 in Hn.
Qed.

(** ** Executing the primitives *)

Lemma load_ok p b fuel w : mread (w_mem w) p = Some b -> load p fuel w = Ok b w.
Proof. intros H. unfold load. by rewrite H. Qed.
Lemma store_ok p v fuel w :
  mapped (w_mem w) p = true -> store p v fuel w = Ok tt (put w p [v]).
Proof. intros H. unfold store, mwrite. by rewrite H. Qed.

Lemma store_bytes_ok p bs fuel w :
  writable w p (Z.of_nat (length bs)) -> store_bytes p bs fuel w = Ok tt (put w p bs).
Proof.
  revert p w. induction bs as [|b bs IH]; intros p w H; cbn [store_bytes].
  - by rewrite put_nil.
  - unfold bind. rewrite store_ok.
    + rewrite IH; [by rewrite (put_cons w p b bs)|].
      apply writable_put. eapply writable_sub; [apply H|..]; simpl length; lia.
    + eapply writable_head; [apply H|]. simpl length. lia.
Qed.
Lemma load_bytes_ok p bs fuel w :
  bytes_at w p bs -> load_bytes p (length bs) fuel w = Ok bs w.
Proof.
  revert p. induction bs as [|b bs IH]; intros p H; simpl; [done|].
  apply bytes_at_cons in H as [H1 H2]. unfold bind.
  by rewrite (load_ok _ b), IH.
Qed.

Lemma bind_ok {A B} (x : M A) (k : A -> M B) fuel w a w' :
  x fuel w = Ok a w' -> bind x k fuel w = k a fuel w'.
Proof. intros H. unfold bind. by rewrite H. Qed.

(** One step of a loop whose body continues, or breaks. *)
Lemma iterM_continue {L R} (body : L -> M (L + R)) k l l' fuel w w' :
  body l fuel w = Ok (inl l') w' -> iterM body (S k) l fuel w = iterM body k l' fuel w'.
Proof. intros H. simpl. by rewrite H. Qed.
Lemma iterM_break {L R} (body : L -> M (L + R)) k l r fuel w w' :
  body l fuel w = Ok (inr r) w' -> iterM body (S k) l fuel w = Ok r w'.
Proof. intros H. simpl. by rewrite H. Qed.

#[global] Arguments iterM : simpl never.

(** Running straight-line code: rewrite the next primitive to its result. *)
Ltac mstep :=
  first
    [ erewrite bind_ok by (apply load_ok; eassumption)
    | erewrite bind_ok by (apply store_ok; eassumption) ].

(** Name the body of the loop at the head of the goal. *)
Ltac name_loop b :=
  unfold loop;
  match goal with |- context [iterM ?f _ _ _ _] => set (b := f) end.
(** Take one iteration of a named loop that continues or breaks, after running
    its body with [tac]. *)
Ltac iter_continue b tac :=
  erewrite (iterM_continue b) by (unfold b; cbn beta iota; tac; reflexivity).
Ltac iter_break b tac :=
  erewrite (iterM_break b) by (unfold b; cbn beta iota; tac; reflexivity).

(** ** Deciding the byte predicates on a concrete state *)

Fixpoint bytes_atb (w : world) (p : Z) (bs : list Z) : bool :=
  match bs with
  | [] => true
  | b :: bs' => bool_decide (mread (w_mem w) p = Some b) && bytes_atb w (p + 1) bs'
  end.
Definition cstrb (w : world) (p : Z) (s : list Z) : bool :=
  forallb (fun b => (0 <? b) && (b <? 256)) s && bytes_atb w p (s ++ [0]).
Definition writableb (w : world) (p n : Z) : bool :=
  forallb (fun i => mapped (w_mem w) (p + i)) (seqZ 0 n).

Lemma bytes_atb_sound w p bs : bytes_atb w p bs = true -> bytes_at w p bs.
Proof.
  revert p. induction bs as [|b bs IH]; intros p H; [apply bytes_at_nil|].
  simpl in H. apply andb_true_iff in H as [H1 H2]. apply bytes_at_cons.
  split; [by apply bool_decide_eq_true in H1|by apply IH].
Qed.
Lemma nonzerob_sound s : forallb (fun b => (0 <? b) && (b <? 256)) s = true -> nonzero s.
Proof.
  intros H. apply List.Forall_forall. intros b Hb. rewrite forallb_forall in H.
  specialize (H b Hb). simpl in H. lia.
Qed.
Lemma cstrb_sound w p s : cstrb w p s = true -> cstr w p s.
Proof.
  unfold cstrb. intros [H1 H2]%andb_true_iff.
  split; [by apply nonzerob_sound|by apply bytes_atb_sound].
Qed.
Lemma writableb_sound w p n : writableb w p n = true -> writable w p n.
Proof.
  unfold writableb. intros H i Hi. rewrite forallb_forall in H.
  apply H. apply list_elem_of_In. apply elem_of_seqZ. lia.
Qed.

(** A state whose memory has one mapped range, and given bytes in it. *)
Definition demo_world (lo hi : Z) (init : list (Z * list Z)) : world :=
  foldl (fun w '(p, bs) => put w p bs)
    (World (Mem [(lo, hi)] ∅) [] [] 1000 0 0) init.

(** Discharge the side conditions of a theorem at a concrete state. *)
Ltac demo :=
  first
    [ apply cstrb_sound; vm_compute; reflexivity
    | apply bytes_atb_sound; vm_compute; reflexivity
    | apply writableb_sound; vm_compute; reflexivity
    | unfold disjoint_from; vm_compute; intuition congruence
    | apply (bool_decide_unpack _); vm_compute; exact I
    | vm_compute; intuition (congruence || lia) ].
