(* ===== verification/LiumlibStr.v ===== *)
(** * String and memory functions of liumlib ([app/liumlib/liumlib.c])

    Every program under [app/] is linked with these.  They are modelled on the
    byte memory of {!CMem}: a pointer is an address, [*p] is a [load] that can
    fault, and each [while] or [for] is a [loop].  The theorems give the whole
    effect of each function on the memory: the result, the bytes written and,
    because the final state is an equation, that nothing else changes. *)

From stdpp Require Import strings.
From S2P Require Import Prelude CMem.

(** ** String functions *)

Definition strlen (s : Z) : M Z :=
  loop (fun '(s, len) =>
    let! c := load s in
    if c =? 0 then break_ len else continue_ (s + 1, u64 (len + 1))) (s, 0).

(** [while ( *src ) *dest++ = *src++;], the loop of [strcpy] and of [strcat];
    its result is the final [dest]. *)
Definition copy_loop (dest src : Z) : M Z :=
  loop (fun '(dest, src) =>
    let! c := load src in
    if c =? 0 then break_ dest
    else store dest c ;; continue_ (dest + 1, src + 1)) (dest, src).

(** The terminating NUL is not copied. *)
Definition strcpy (dest src : Z) : M Z :=
  let start := dest in
  copy_loop dest src ;;
  ret start.

Definition strcat (dest src : Z) : M Z :=
  let! n := strlen dest in
  let! ptr := copy_loop (dest + n) src in
  store ptr 0 ;; ret dest.

Definition strncat (dest src n : Z) : M Z :=
  let! len := strlen dest in
  let! ptr := loop (fun '(ptr, src, n) =>
    let! c := load src in
    if c =? 0 then break_ ptr
    else if n =? 0 then break_ ptr
    else store ptr c ;; continue_ (ptr + 1, src + 1, u64 (n - 1))) (dest + len, src, n) in
  store ptr 0 ;; ret dest.

Definition strcmp (s1 s2 : Z) : M Z :=
  let! p := loop (fun '(s1, s2) =>
    let! c1 := load s1 in
    if c1 =? 0 then break_ (s1, s2)
    else let! c2 := load s2 in
         if negb (c1 =? c2) then break_ (s1, s2) else continue_ (s1 + 1, s2 + 1)) (s1, s2) in
  let! a := load p.1 in
  let! b := load p.2 in
  ret (a - b).

Definition strncmp (s1 s2 n : Z) : M Z :=
  loop (fun i =>
    if negb (u64 i <? n) then break_ 0
    else
      let! a := load (s1 + i) in
      if a =? 0 then break_ 0
      else
        let! b := load (s2 + i) in
        if b =? 0 then break_ 0
        else if negb (a =? b) then break_ 1
        else continue_ (i32 (i + 1))) 0.

Definition strstr (haystack needle : Z) : M Z :=
  let! l := strlen needle in
  let needle_len := i32 l in
  loop (fun haystack =>
    let! c := load haystack in
    if c =? 0 then break_ 0
    else
      let! r := strncmp haystack needle (u64 needle_len) in
      if r =? 0 then break_ haystack else continue_ (haystack + 1)) haystack.

Definition get_save_ptr : M Z := fun _ w => Ok (w_save_ptr w) w.
Definition put_save_ptr (p : Z) : M unit := fun _ w => Ok tt (set_save_ptr w p).

(** The [for] loop of [strtok]: whether [*str] is one of the delimiters. *)
Definition strtok_is_delim (str delim : Z) : M bool :=
  loop (fun i =>
    let! n := strlen delim in
    if negb (u64 i <? n) then break_ false
    else
      let! c := load str in
      let! d := load (delim + i) in
      if c =? d then break_ true else continue_ (i32 (i + 1))) 0.

Definition strtok (str delim : Z) : M Z :=
  let! str := (if str =? 0 then get_save_ptr else ret str) in
  let start := str in
  loop (fun str =>
    let! c := load str in
    if c =? 0 then put_save_ptr str ;; break_ start
    else
      let! hit := strtok_is_delim str delim in
      if hit then
        store str 0 ;; put_save_ptr (str + 1) ;; break_ start
      else continue_ (str + 1)) str.

(** ** Memory functions *)

Definition bzero (s n : Z) : M unit :=
  loop (fun i => if negb (i <? n) then break_ tt
                 else store (s + i) 0 ;; continue_ (u64 (i + 1))) 0.

Definition memset (s c n : Z) : M Z :=
  loop (fun '(dest, n) => if negb (0 <? n) then break_ tt
                          else store dest c ;; continue_ (dest + 1, u64 (n - 1))) (s, n) ;;
  ret s.

Definition memcpy (dest src n : Z) : M Z :=
  loop (fun i => if negb (u64 i <? n) then break_ tt
                 else let! c := load (src + i) in
                      store (dest + i) c ;; continue_ (i32 (i + 1))) 0 ;;
  ret dest.

(** The backward copy is followed by the forward one: there is no [return]
    after the first loop. *)
Definition memmove (dest src n : Z) : M Z :=
  let diff := i64 (i64 dest - i64 src) in
  let diff := if diff <? 0 then i64 (- diff) else diff in
  (if (u64 diff <? n) && (u64 src <=? u64 dest) then
     loop (fun i => if negb (0 <=? i) then break_ tt
                    else let! c := load (src + i) in
                         store (dest + i) c ;; continue_ (i32 (i - 1))) (i32 (u64 (n - 1)))
   else ret tt) ;;
  memcpy dest src n ;;
  ret dest.

(** ** Output and termination *)

Definition Print (s : Z) : M unit := let! n := strlen s in write 1 s n.
Definition Println (s : Z) : M unit :=
  let! n := strlen s in write 1 s n ;; write_buf 1 [10].
(** [Print] and [Println] of a string literal. *)
Definition Print_lit (s : string) : M unit := write_buf 1 (lit s).
Definition Println_lit (s : string) : M unit := write_buf 1 (lit s) ;; write_buf 1 [10].

Definition NotImplemented {A} (s : string) : M A :=
  Print_lit "Not Implemented: " ;; Println_lit s ;; exit_ 1.

Definition panic {A} (s : string) : M A := write_buf 1 (lit s) ;; exit_ 1.

(** ** The allocator *)

Definition MALLOC_MAX_SIZE : Z := 1000000.

Definition get_malloc : M (Z * Z) := fun _ w => Ok (w_malloc_array w, w_malloc_size w) w.
Definition put_malloc_size (n : Z) : M unit := fun _ w => Ok tt (set_malloc_size w n).

Definition malloc (n : Z) : M Z :=
  let! g := get_malloc in
  let malloc_array := g.1 in
  let malloc_size := g.2 in
  if MALLOC_MAX_SIZE <? u64 (u64 malloc_size + n) then
    write_buf 1 (lit "fail: malloc" ++ [10]) ;; exit_ 1
  else
    let ptr := malloc_array + malloc_size in
    put_malloc_size (i32 (u64 (u64 malloc_size + n))) ;;
    memset ptr 0 n ;;
    ret ptr.

Definition realloc (ptr size : Z) : M Z :=
  if (ptr =? 0) || (size =? 0) then NotImplemented "realloc"
  else
    let! g := get_malloc in
    let malloc_array := g.1 in
    let malloc_size := g.2 in
    if (u64 ptr <? u64 malloc_array) || (malloc_array + malloc_size <=? malloc_array) then ret 0
    else
      let room := u64 (u64 (u64 malloc_array + u64 malloc_size) - u64 ptr) in
      let copy_size := if room <? size then room else size in
      let! new_ptr := malloc size in
      memcpy new_ptr ptr copy_size ;;
      ret new_ptr.

(** ** Correctness of the string functions *)

Lemma nonzero_neq b : 0 < b < 256 -> (b =? 0) = false.
Proof. lia. Qed.

Lemma strlen_ok s p fuel w :
  cstr w p s -> (length s < fuel)%nat -> Z.of_nat (length s) < 2 ^ 64 ->
  strlen p fuel w = Ok (Z.of_nat (length s)) w.
Proof.
  intros Hs Hf Hb. unfold strlen. name_loop body.
  assert (forall s p len k, cstr w p s -> (length s < k)%nat -> 0 <= len ->
    len + Z.of_nat (length s) < 2 ^ 64 ->
    iterM body k (p, len) fuel w = Ok (len + Z.of_nat (length s)) w) as H.
  { clear. induction s as [|c s IH]; intros p len [|k] Hs Hk Hl Hb; simpl length in *; try lia.
    - apply cstr_nil in Hs. iter_break body ltac:(mstep). f_equal. lia.
    - apply cstr_cons in Hs as (Hc & Hr & Hs).
      iter_continue body ltac:(mstep; rewrite nonzero_neq by done).
      rewrite u64_small by lia. rewrite IH by (done || lia). f_equal. lia. }
  rewrite (H s) by (done || lia). done.
Qed.

Lemma copy_loop_ok s dest src fuel w :
  cstr w src s -> writable w dest (Z.of_nat (length s)) ->
  disjoint_from dest (Z.of_nat (length s)) src (Z.of_nat (length s) + 1) ->
  (length s < fuel)%nat ->
  copy_loop dest src fuel w = Ok (dest + Z.of_nat (length s)) (put w dest s).
Proof.
  intros Hs Hw Hd Hf. unfold copy_loop. name_loop body.
  assert (forall s dest src k w, cstr w src s -> writable w dest (Z.of_nat (length s)) ->
    disjoint_from dest (Z.of_nat (length s)) src (Z.of_nat (length s) + 1) ->
    (length s < k)%nat ->
    iterM body k (dest, src) fuel w = Ok (dest + Z.of_nat (length s)) (put w dest s)) as H.
  { clear. induction s as [|c s IH]; intros dest src [|k] w Hs Hw Hd Hk; simpl length in *; try lia.
    - apply cstr_nil in Hs. iter_break body ltac:(mstep). rewrite put_nil. f_equal. lia.
    - apply cstr_cons in Hs as (Hc & Hr & Hs).
      assert (mapped (w_mem w) dest = true) by (eapply writable_head; [done|lia]).
      iter_continue body ltac:(mstep; rewrite nonzero_neq by done; mstep).
      rewrite (put_cons w dest c s), IH; [f_equal; lia|..]; try lia.
      + apply cstr_put_ne; [|done]. unfold disjoint_from in *. simpl length. lia.
      + apply writable_put. eapply writable_sub; [done|lia..].
      + unfold disjoint_from in *. lia. }
  by apply H.
Qed.

Lemma strcpy_ok s dest src fuel w :
  cstr w src s -> writable w dest (Z.of_nat (length s)) ->
  disjoint_from dest (Z.of_nat (length s)) src (Z.of_nat (length s) + 1) ->
  (length s < fuel)%nat ->
  strcpy dest src fuel w = Ok dest (put w dest s).
Proof. intros Hs Hw Hd Hf. unfold strcpy. by erewrite bind_ok by (by apply copy_loop_ok). Qed.

(** [strcpy] writes exactly the characters of the source string: the byte after
    them keeps its old value, so the copy is terminated only if the destination
    was already zero there. *)
Lemma strcpy_no_terminator s dest src fuel w :
  cstr w src s -> writable w dest (Z.of_nat (length s)) ->
  disjoint_from dest (Z.of_nat (length s)) src (Z.of_nat (length s) + 1) ->
  (length s < fuel)%nat ->
  exists w', strcpy dest src fuel w = Ok dest w' /\ w' = put w dest s /\
    bytes_at w' dest s /\
    mread (w_mem w') (dest + Z.of_nat (length s)) = mread (w_mem w) (dest + Z.of_nat (length s)).
Proof.
  intros Hs Hw Hd Hf. exists (put w dest s). split_and!; [by apply strcpy_ok|done| |].
  - apply bytes_at_put; eauto with lium.
  - apply mread_put_out. lia.
Qed.

Lemma strcat_ok d s dest src fuel w :
  cstr w dest d -> cstr w src s ->
  writable w dest (Z.of_nat (length d + length s) + 1) ->
  disjoint_from (dest + Z.of_nat (length d)) (Z.of_nat (length s) + 1)
    src (Z.of_nat (length s) + 1) ->
  (length d < fuel)%nat -> (length s < fuel)%nat -> Z.of_nat (length d) < 2 ^ 64 ->
  exists w', strcat dest src fuel w = Ok dest w' /\
    w' = put w (dest + Z.of_nat (length d)) (s ++ [0]) /\ cstr w' dest (d ++ s).
Proof.
  intros Hd Hs Hw Hdj Hf1 Hf2 Hb.
  exists (put w (dest + Z.of_nat (length d)) (s ++ [0])). unfold strcat.
  erewrite bind_ok by (by apply strlen_ok).
  erewrite bind_ok; [|apply copy_loop_ok; [done| |unfold disjoint_from in *; lia|done]].
  2:{ eapply writable_sub; [done|lia..]. }
  erewrite bind_ok.
  2:{ apply store_ok. rewrite mapped_put.
      rewrite <- Z.add_assoc, <- Nat2Z.inj_add. apply Hw. lia. }
  split_and!; [by rewrite put_app|done|].
  split; [by apply Forall_app; split; eapply cstr_nonzero|].
  rewrite <- app_assoc. apply bytes_at_app. split.
  - apply bytes_at_put_ne; [unfold disjoint_from; lia|]. destruct Hd as [_ Hd]. by apply bytes_at_app in Hd as [??].
  - apply bytes_at_put.
    + eapply writable_sub; [done|..]; rewrite ?length_app; simpl; lia.
    + eauto with lium.
Qed.

(** [strcat] appends the source string, with its NUL, to the string in the
    destination buffer, and changes nothing else. *)
Theorem strcat_appends d s dest src fuel w :
  cstr w dest d -> cstr w src s ->
  writable w dest (Z.of_nat (length d + length s) + 1) ->
  disjoint_from (dest + Z.of_nat (length d)) (Z.of_nat (length s) + 1)
    src (Z.of_nat (length s) + 1) ->
  (length d < fuel)%nat -> (length s < fuel)%nat -> Z.of_nat (length d) < 2 ^ 64 ->
  exists w', strcat dest src fuel w = Ok dest w' /\
    w' = put w (dest + Z.of_nat (length d)) (s ++ [0]) /\ cstr w' dest (d ++ s).
Proof. apply strcat_ok. Qed.

(** *** strcmp *)

(** The value [strcmp] computes, on the contents of the two strings. *)
Fixpoint cmp_ref (s1 s2 : list Z) : Z :=
  match s1, s2 with
  | [], [] => 0
  | [], b :: _ => 0 - b
  | a :: _, [] => a
  | a :: s1', b :: s2' => if a =? b then cmp_ref s1' s2' else a - b
  end.

(** Lexicographic order on byte strings. *)
Fixpoint lex_lt (s1 s2 : list Z) : bool :=
  match s1, s2 with
  | [], [] => false
  | [], _ :: _ => true
  | _ :: _, [] => false
  | a :: s1', b :: s2' => (a <? b) || ((a =? b) && lex_lt s1' s2')
  end.

Lemma strcmp_ref s1 s2 p q fuel w :
  cstr w p s1 -> cstr w q s2 -> (length s1 < fuel)%nat ->
  strcmp p q fuel w = Ok (cmp_ref s1 s2) w.
Proof.
  intros H1 H2 Hf. unfold strcmp. name_loop body.
  assert (forall s1 s2 p q k, cstr w p s1 -> cstr w q s2 -> (length s1 < k)%nat ->
    exists p' q' a b, iterM body k (p, q) fuel w = Ok (p', q') w /\
      mread (w_mem w) p' = Some a /\ mread (w_mem w) q' = Some b /\ a - b = cmp_ref s1 s2) as H.
  { clear. induction s1 as [|a s1 IH]; intros s2 p q [|k] H1 H2 Hk; simpl length in *; try lia.
    - apply cstr_nil in H1. iter_break body ltac:(mstep). destruct s2 as [|b s2].
      + apply cstr_nil in H2. by eauto 8.
      + apply cstr_cons in H2 as (?&?&?). by eauto 8.
    - apply cstr_cons in H1 as (Ha & Hra & H1). destruct s2 as [|b s2].
      + apply cstr_nil in H2.
        iter_break body ltac:(mstep; rewrite nonzero_neq by done; mstep; rewrite nonzero_neq by done).
        do 4 eexists. split_and!; try done. simpl. lia.
      + apply cstr_cons in H2 as (Hb & Hrb & H2). simpl cmp_ref. destruct (a =? b) eqn:E.
        * iter_continue body ltac:(mstep; rewrite nonzero_neq by done; mstep; rewrite E).
          apply IH; (done || lia).
        * iter_break body ltac:(mstep; rewrite nonzero_neq by done; mstep; rewrite E).
          by eauto 8. }
  destruct (H _ _ _ _ fuel H1 H2 Hf) as (p' & q' & a & b & Hi & Ha & Hb & <-).
  erewrite bind_ok by done. simpl. by repeat mstep.
Qed.

Lemma cmp_ref_spec s1 s2 :
  nonzero s1 -> nonzero s2 ->
  (cmp_ref s1 s2 = 0 <-> s1 = s2) /\ (cmp_ref s1 s2 < 0 <-> lex_lt s1 s2 = true) /\
  -256 < cmp_ref s1 s2 < 256.
Proof.
  unfold nonzero. revert s2.
  induction s1 as [|a s1 IH]; intros [|b s2] H1 H2; simpl; try done.
  - inversion_clear H2. split_and!; try split; (done || lia).
  - inversion_clear H1. split_and!; try split; (done || lia).
  - inversion_clear H1; inversion_clear H2. destruct (IH s2) as (E & L & B); [done..|].
    destruct (Z.eqb_spec a b) as [->|]; simpl.
    + rewrite Z.ltb_irrefl. simpl. split_and!; try lia; [|done].
      rewrite E. split; congruence.
    + destruct (Z.ltb_spec a b); simpl; split_and!; try split; try congruence; try lia.
Qed.

(** [strcmp] decides equality and the byte-wise lexicographic order. *)
Theorem strcmp_correct s1 s2 p q fuel w :
  cstr w p s1 -> cstr w q s2 -> (length s1 < fuel)%nat ->
  exists r, strcmp p q fuel w = Ok r w /\
    (r = 0 <-> s1 = s2) /\ (r < 0 <-> lex_lt s1 s2 = true).
Proof.
  intros H1 H2 Hf. exists (cmp_ref s1 s2). split; [by apply strcmp_ref|].
  destruct (cmp_ref_spec s1 s2) as (E & L & _); eauto with lium.
Qed.

(** *** strncmp and strstr *)

(** The strings agree on their first [n] characters, as far as both go. *)
Fixpoint agree (n : nat) (s1 s2 : list Z) : bool :=
  match n, s1, s2 with
  | S n', a :: s1', b :: s2' => (a =? b) && agree n' s1' s2'
  | _, _, _ => true
  end.

Lemma agree_prefix n s1 s2 :
  agree n s1 s2 = true <-> take n s1 `prefix_of` s2 \/ take n s2 `prefix_of` s1.
Proof.
  revert s1 s2. induction n as [|n IH]; intros s1 s2; simpl.
  { split; [left; apply prefix_nil|done]. }
  destruct s1 as [|a s1], s2 as [|b s2]; simpl.
  1-3: split; [intros _|done]; first [left; apply prefix_nil|right; apply prefix_nil].
  rewrite andb_true_iff, Z.eqb_eq, IH. split.
  - intros [-> [?|?]]; [left|right]; by apply prefix_cons.
  - intros [H|H]; (split; [by apply prefix_cons_inv_1 in H|]);
      apply prefix_cons_inv_2 in H; tauto.
Qed.

Lemma strncmp_agree n s1 s2 p q fuel w :
  cstr w p s1 -> cstr w q s2 -> (length s1 < fuel)%nat ->
  Z.of_nat (length s1) < 2 ^ 31 - 1 -> Z.of_nat n < 2 ^ 64 ->
  strncmp p q (Z.of_nat n) fuel w = Ok (if agree n s1 s2 then 0 else 1) w.
Proof.
  intros H1 H2 Hf Hb Hn. unfold strncmp. name_loop body.
  assert (forall k i, (i <= length s1)%nat -> (i <= length s2)%nat -> (length s1 - i < k)%nat ->
    (i <= n)%nat ->
    iterM body k (Z.of_nat i) fuel w =
      Ok (if agree (n - i) (drop i s1) (drop i s2) then 0 else 1) w) as H.
  { clear Hf. induction k as [|k IH]; intros i Hi1 Hi2 Hk Hin; [lia|].
    destruct (decide (i = n)) as [->|].
    { iter_break body ltac:(rewrite u64_small by lia; zfalse (Z.of_nat n <? Z.of_nat n)).
      by rewrite Nat.sub_diag. }
    assert ((u64 (Z.of_nat i) <? Z.of_nat n) = true) as Hlt by (rewrite u64_small; lia).
    replace (n - i)%nat with (S (n - S i)) by lia.
    destruct (s1 !! i) as [a|] eqn:Ea.
    2:{ apply lookup_ge_None in Ea. assert (i = length s1) by lia. subst i.
        pose proof (cstr_end _ _ _ H1).
        iter_break body ltac:(rewrite Hlt; cbn [negb]; mstep).
        by rewrite drop_ge by lia. }
    destruct (cstr_lookup _ _ _ _ _ H1 Ea) as [Hra Ha0].
    destruct (s2 !! i) as [b|] eqn:Eb.
    2:{ apply lookup_ge_None in Eb. assert (i = length s2) by lia. subst i.
        pose proof (cstr_end _ _ _ H2).
        iter_break body ltac:(rewrite Hlt; cbn [negb]; mstep; rewrite nonzero_neq by done; mstep).
        rewrite (drop_ge s2) by lia. by destruct (drop _ s1). }
    destruct (cstr_lookup _ _ _ _ _ H2 Eb) as [Hrb Hb0].
    rewrite (drop_S s1 a i), (drop_S s2 b i) by done. simpl agree.
    destruct (a =? b) eqn:E; simpl.
    - iter_continue body ltac:(rewrite Hlt; cbn [negb]; mstep; rewrite nonzero_neq by done; mstep;
        rewrite nonzero_neq by done; rewrite E; cbn [negb]).
      apply lookup_lt_Some in Ea. apply lookup_lt_Some in Eb.
      rewrite i32_small by lia. replace (Z.of_nat i + 1) with (Z.of_nat (S i)) by lia.
      apply IH; lia.
    - iter_break body ltac:(rewrite Hlt; cbn [negb]; mstep; rewrite nonzero_neq by done; mstep;
        rewrite nonzero_neq by done; rewrite E; cbn [negb]). done. }
  specialize (H fuel 0%nat). rewrite !drop_0, !Nat.sub_0_r in H. apply H; lia.
Qed.

(** [strncmp] of liumlib returns 0 exactly when one of the two strings,
    cut at [n] characters, is a prefix of the other: it does not distinguish a
    string from its own beginnings. *)
Theorem strncmp_prefix n s1 s2 p q fuel w :
  cstr w p s1 -> cstr w q s2 -> (length s1 < fuel)%nat ->
  Z.of_nat (length s1) < 2 ^ 31 - 1 -> Z.of_nat n < 2 ^ 64 ->
  exists r, strncmp p q (Z.of_nat n) fuel w = Ok r w /\ (r = 0 \/ r = 1) /\
    (r = 0 <-> take n s1 `prefix_of` s2 \/ take n s2 `prefix_of` s1).
Proof.
  intros. eexists. split; [by apply strncmp_agree|].
  rewrite <- agree_prefix. destruct (agree n s1 s2); split; (auto || split; (done || lia)).
Qed.

(** Index of the first position of [s] that agrees with [needle]. *)
Fixpoint find_agree (needle s : list Z) : option nat :=
  match s with
  | [] => None
  | _ :: s' => if agree (length needle) s needle then Some 0%nat
               else S <$> find_agree needle s'
  end.

Lemma strstr_find s needle p q fuel w :
  cstr w p s -> cstr w q needle ->
  (length s < fuel)%nat -> (length needle < fuel)%nat ->
  Z.of_nat (length s) < 2 ^ 31 - 1 -> Z.of_nat (length needle) < 2 ^ 31 ->
  strstr p q fuel w =
    Ok (match find_agree needle s with Some i => p + Z.of_nat i | None => 0 end) w.
Proof.
  intros Hs Hn Hf1 Hf2 Hb1 Hb2. unfold strstr.
  erewrite bind_ok by (apply strlen_ok; [done..|lia]).
  rewrite i32_small, u64_small by lia. name_loop body.
  assert (forall s p k, cstr w p s -> (length s < k)%nat -> (k <= fuel)%nat ->
    Z.of_nat (length s) < 2 ^ 31 - 1 ->
    iterM body k p fuel w =
      Ok (match find_agree needle s with Some i => p + Z.of_nat i | None => 0 end) w) as H.
  { clear s p Hs Hf1 Hb1. induction s as [|c s IH]; intros p [|k] Hs Hk Hkf Hb; simpl length in *; try lia.
    - apply cstr_nil in Hs. by iter_break body ltac:(mstep).
    - pose proof Hs as Hs'. apply cstr_cons in Hs' as (Hc & Hr & Hs').
      assert (strncmp p q (Z.of_nat (length needle)) fuel w =
        Ok (if agree (length needle) (c :: s) needle then 0 else 1) w) as E.
      { apply strncmp_agree; try done; simpl length; lia. }
      simpl find_agree. destruct (agree _ _ _).
      + iter_break body ltac:(mstep; rewrite nonzero_neq by done; erewrite bind_ok by done; cbn [Z.eqb]).
        f_equal. lia.
      + iter_continue body ltac:(mstep; rewrite nonzero_neq by done; erewrite bind_ok by done; cbn [Z.eqb]).
        rewrite IH by (done || lia). destruct (find_agree needle s); simpl; [|done]. f_equal. lia. }
  apply H; (done || lia).
Qed.

Lemma find_agree_complete needle s i :
  needle `prefix_of` drop i s -> needle <> [] ->
  exists j, find_agree needle s = Some j /\ (j <= i)%nat.
Proof.
  revert i. induction s as [|c s IH]; intros i Hp Hne.
  { rewrite drop_nil in Hp. by apply prefix_nil_inv in Hp. }
  simpl. destruct (agree _ _ _) eqn:E; [by exists 0%nat; split; [done|lia]|].
  destruct i as [|i].
  - exfalso. rewrite drop_0 in Hp. apply not_true_iff_false in E. apply E.
    apply agree_prefix. right. by rewrite take_ge by lia.
  - destruct (IH i Hp Hne) as (j & -> & ?). exists (S j). split; [done|lia].
Qed.

(** [strstr] finds every occurrence of a non-empty needle: if the needle
    occurs at index [i], the result points into the haystack at or before [i]
    (and a null result means that there is no occurrence). *)
Lemma strstr_complete s needle p q i fuel w :
  cstr w p s -> cstr w q needle ->
  (length s < fuel)%nat -> (length needle < fuel)%nat ->
  Z.of_nat (length s) < 2 ^ 31 - 1 -> Z.of_nat (length needle) < 2 ^ 31 ->
  needle <> [] -> needle `prefix_of` drop i s ->
  exists j, strstr p q fuel w = Ok (p + Z.of_nat j) w /\ (j <= i)%nat.
Proof.
  intros Hs Hn Hf1 Hf2 Hb1 Hb2 Hne Hp.
  destruct (find_agree_complete needle s i Hp Hne) as (j & E & Hj).
  exists j. split; [|done]. rewrite (strstr_find s needle) by done. by rewrite E.
Qed.

(** *** strtok *)

Lemma strtok_is_delim_ok ds p delim c fuel w :
  cstr w delim ds -> mread (w_mem w) p = Some c -> (length ds < fuel)%nat ->
  Z.of_nat (length ds) < 2 ^ 31 - 1 ->
  strtok_is_delim p delim fuel w = Ok (bool_decide (c ∈ ds)) w.
Proof.
  intros Hd Hc Hf Hb. unfold strtok_is_delim. name_loop body.
  assert (strlen delim fuel w = Ok (Z.of_nat (length ds)) w) as Hlen by (apply strlen_ok; (done || lia)).
  assert (forall k i, (i <= length ds)%nat -> (length ds - i < k)%nat ->
    iterM body k (Z.of_nat i) fuel w = Ok (bool_decide (c ∈ drop i ds)) w) as H.
  { induction k as [|k IH]; intros i Hi Hk; [lia|].
    destruct (ds !! i) as [d|] eqn:Ed.
    - pose proof (lookup_lt_Some _ _ _ Ed).
      destruct (cstr_lookup _ _ _ _ _ Hd Ed) as [Hrd _].
      rewrite (drop_S ds d i) by done. destruct (Z.eqb_spec c d) as [->|Hne].
      + iter_break body ltac:(erewrite bind_ok by done; rewrite u64_small by lia;
          ztrue (Z.of_nat i <? Z.of_nat (length ds)); cbn [negb]; do 2 mstep; rewrite Z.eqb_refl).
        rewrite bool_decide_true; [done|]. set_solver.
      + iter_continue body ltac:(erewrite bind_ok by done; rewrite u64_small by lia;
          ztrue (Z.of_nat i <? Z.of_nat (length ds)); cbn [negb]; do 2 mstep;
          zfalse (c =? d)).
        rewrite i32_small by lia. replace (Z.of_nat i + 1) with (Z.of_nat (S i)) by lia.
        rewrite IH by lia. f_equal. apply bool_decide_ext.
        rewrite elem_of_cons. tauto.
    - apply lookup_ge_None in Ed. assert (i = length ds) by lia. subst i.
      iter_break body ltac:(erewrite bind_ok by done; rewrite u64_small by lia;
        zfalse (Z.of_nat (length ds) <? Z.of_nat (length ds)); cbn [negb]).
      rewrite drop_ge by lia. rewrite bool_decide_false; [done|]. set_solver. }
  specialize (H fuel 0%nat). rewrite drop_0, Nat.sub_0_r in H. apply H; lia.
Qed.

(** The scan of [strtok] over characters that are not delimiters. *)
Lemma strtok_scan ds t delim start fuel w (body := fun str =>
    let! c := load str in
    if c =? 0 then put_save_ptr str ;; break_ start
    else
      let! hit := strtok_is_delim str delim in
      if hit then
        store str 0 ;; put_save_ptr (str + 1) ;; break_ start
      else continue_ (str + 1)) :
  cstr w delim ds -> (length ds < fuel)%nat -> Z.of_nat (length ds) < 2 ^ 31 - 1 ->
  forall p k, nonzero t -> bytes_at w p t -> Forall (.∉ ds) t ->
  iterM (R := Z) body (length t + k) p fuel w = iterM body k (p + Z.of_nat (length t)) fuel w.
Proof.
  intros Hd Hf Hb. induction t as [|c t IH]; intros p k Hn Ht Hds; simpl length.
  { by rewrite Z.add_0_r. }
  inversion_clear Hn. inversion_clear Hds. apply bytes_at_cons in Ht as [Hc Ht].
  assert (strtok_is_delim p delim fuel w = Ok false w) as E.
  { erewrite strtok_is_delim_ok by done. by rewrite bool_decide_false. }
  change (S (length t) + k)%nat with (S (length t + k)).
  iter_continue body ltac:(mstep; rewrite nonzero_neq by done; erewrite bind_ok by done).
  rewrite IH by done. f_equal. lia.
Qed.

Lemma strtok_ok t d rest ds p delim fuel w :
  p <> 0 -> cstr w p (t ++ d :: rest) -> cstr w delim ds ->
  d ∈ ds -> Forall (.∉ ds) t ->
  writable w p (Z.of_nat (length t) + 1) ->
  disjoint_from (p + Z.of_nat (length t)) 1 delim (Z.of_nat (length ds) + 1) ->
  (length (t ++ d :: rest) < fuel)%nat -> (length ds < fuel)%nat ->
  Z.of_nat (length ds) < 2 ^ 31 - 1 ->
  exists w', strtok p delim fuel w = Ok p w' /\
    w' = set_save_ptr (put w (p + Z.of_nat (length t)) [0]) (p + Z.of_nat (length t) + 1) /\
    cstr w' p t /\ cstr w' delim ds /\
    w_save_ptr w' = p + Z.of_nat (length t) + 1 /\ cstr w' (w_save_ptr w') rest.
Proof.
  intros Hp Hs Hd Hin Hno Hw Hdj Hf1 Hf2 Hb.
  set (q := p + Z.of_nat (length t)).
  exists (set_save_ptr (put w q [0]) (q + 1)).
  pose proof Hs as [Hn Hby]. apply Forall_app in Hn as [Hnt Hnr].
  rewrite <- app_assoc in Hby. apply bytes_at_app in Hby as [Ht Hr]. fold q in Hr.
  change ((d :: rest) ++ [0]) with (d :: rest ++ [0]) in Hr.
  apply bytes_at_cons in Hr as [Hdd Hr]. inversion_clear Hnr.
  assert (cstr (put w q [0]) p t) as Ct.
  { split; [done|]. apply bytes_at_app. split.
    - apply bytes_at_put_ne; [unfold disjoint_from; simpl; lia|done].
    - apply (bytes_at_put w q [0]); [|by repeat constructor]. simpl.
      eapply writable_sub; [done|lia..]. }
  assert (cstr (put w q [0]) delim ds) as Cd by by apply cstr_put_ne.
  assert (cstr (put w q [0]) (q + 1) rest) as Cr.
  { apply cstr_put_ne; [unfold disjoint_from; simpl; lia|]. by split. }
  split; [|by split_and!].
  unfold strtok. zfalse (p =? 0). unfold bind at 1, ret at 1.
  unfold loop. rewrite length_app in Hf1. simpl in Hf1.
  replace fuel with (length t + S (fuel - length t - 1))%nat at 1 by lia.
  rewrite (strtok_scan ds t) by done. fold q.
  assert (strtok_is_delim q delim fuel w = Ok true w) as E.
  { erewrite strtok_is_delim_ok by done. by rewrite bool_decide_true. }
  erewrite iterM_break; [done|]. cbn beta.
  mstep. rewrite nonzero_neq by done. erewrite bind_ok by done. cbn iota.
  erewrite bind_ok; [reflexivity|]. apply store_ok. apply Hw. lia.
Qed.

Lemma strtok_null delim fuel w :
  w_save_ptr w <> 0 -> strtok 0 delim fuel w = strtok (w_save_ptr w) delim fuel w.
Proof. intros H. unfold strtok. by rewrite (proj2 (Z.eqb_neq _ _) H). Qed.

(** On a string [t ++ d :: rest] where [t] holds no delimiter and [d] is one,
    [strtok] returns the start of [t], cuts the string there and saves the
    position behind the delimiter; a following [strtok(NULL, _)] therefore
    continues with [rest]. *)
Theorem strtok_splits t d rest ds p delim fuel w :
  p <> 0 -> cstr w p (t ++ d :: rest) -> cstr w delim ds ->
  d ∈ ds -> Forall (.∉ ds) t ->
  writable w p (Z.of_nat (length t) + 1) ->
  disjoint_from (p + Z.of_nat (length t)) 1 delim (Z.of_nat (length ds) + 1) ->
  (length (t ++ d :: rest) < fuel)%nat -> (length ds < fuel)%nat ->
  Z.of_nat (length ds) < 2 ^ 31 - 1 ->
  exists w', strtok p delim fuel w = Ok p w' /\
    cstr w' p t /\ cstr w' delim ds /\
    w_save_ptr w' = p + Z.of_nat (length t) + 1 /\ cstr w' (w_save_ptr w') rest.
Proof.
  intros Hp Hs Hd Hin Hno Hw Hdj Hf1 Hf2 Hb.
  destruct (strtok_ok t d rest ds p delim fuel w) as (w' & E & _ & R); eauto.
Qed.

(** ** Correctness of the memory functions *)

Lemma memset_ok p c (n : nat) fuel w :
  writable w p (Z.of_nat n) -> (n < fuel)%nat -> Z.of_nat n < 2 ^ 64 ->
  memset p c (Z.of_nat n) fuel w = Ok p (put w p (replicate n c)).
Proof.
  intros Hw Hf Hb. unfold memset.
  assert (forall body, body = (fun '(dest, n) => if negb (0 <? n) then break_ tt
       else store dest c ;; continue_ (dest + 1, u64 (n - 1))) ->
    forall n p k w, writable w p (Z.of_nat n) -> (n < k)%nat -> Z.of_nat n < 2 ^ 64 ->
    iterM (R := unit) body k (p, Z.of_nat n) fuel w = Ok tt (put w p (replicate n c))) as H.
  { clear. intros body ->. induction n as [|n IH]; intros p [|k] w Hw Hk Hb; try lia.
    - erewrite iterM_break by reflexivity. by rewrite put_nil.
    - erewrite iterM_continue.
      2:{ zcmp. erewrite bind_ok; [reflexivity|]. apply store_ok.
          eapply writable_head; [done|lia]. }
      cbn [replicate]. rewrite put_cons. rewrite u64_small by lia.
      replace (Z.of_nat (S n) - 1) with (Z.of_nat n) by lia.
      apply IH; try lia. apply writable_put. eapply writable_sub; [done|lia..]. }
  unfold loop. erewrite bind_ok; [reflexivity|]. by apply (H _ eq_refl).
Qed.

(** [memcpy] in general: [bs] is what the loop reads, one byte at a time, while
    it writes. *)
Lemma memcpy_general bs dest src fuel w :
  (forall i b, bs !! i = Some b ->
     mread (w_mem (put w dest (take i bs))) (src + Z.of_nat i) = Some b) ->
  writable w dest (Z.of_nat (length bs)) ->
  (length bs < fuel)%nat -> Z.of_nat (length bs) < 2 ^ 31 ->
  memcpy dest src (Z.of_nat (length bs)) fuel w = Ok dest (put w dest bs).
Proof.
  intros Hr Hw Hf Hb. unfold memcpy. name_loop body.
  assert (forall k i, (i <= length bs)%nat -> (length bs - i < k)%nat ->
    iterM body k (Z.of_nat i) fuel (put w dest (take i bs)) = Ok tt (put w dest bs)) as H.
  { induction k as [|k IH]; intros i Hi Hk; [lia|].
    destruct (bs !! i) as [b|] eqn:Eb.
    - pose proof (lookup_lt_Some _ _ _ Eb). specialize (Hr _ _ Eb).
      assert (mapped (w_mem (put w dest (take i bs))) (dest + Z.of_nat i) = true)
        by (rewrite mapped_put; apply Hw; lia).
      iter_continue body ltac:(rewrite u64_small by lia;
        ztrue (Z.of_nat i <? Z.of_nat (length bs)); cbn [negb]; do 2 mstep).
      rewrite i32_small by lia. replace (Z.of_nat i + 1) with (Z.of_nat (S i)) by lia.
      rewrite <- (IH (S i)) by lia. f_equal. rewrite (take_S_r bs i b) by done.
      rewrite put_app. f_equal. rewrite length_take. lia.
    - apply lookup_ge_None in Eb. assert (i = length bs) as -> by lia.
      iter_break body ltac:(rewrite u64_small by lia;
        zfalse (Z.of_nat (length bs) <? Z.of_nat (length bs)); cbn [negb]).
      by rewrite take_ge by lia. }
  specialize (H fuel 0%nat). rewrite take_0, put_nil in H.
  erewrite bind_ok; [reflexivity|]. apply H; lia.
Qed.

(** [memcpy] copies when the regions are disjoint, and also when they overlap
    with the destination below the source. *)
Lemma memcpy_copies bs dest src fuel w :
  bytes_at w src bs -> writable w dest (Z.of_nat (length bs)) ->
  dest <= src \/ src + Z.of_nat (length bs) <= dest ->
  (length bs < fuel)%nat -> Z.of_nat (length bs) < 2 ^ 31 ->
  memcpy dest src (Z.of_nat (length bs)) fuel w = Ok dest (put w dest bs).
Proof.
  intros Hs Hw Hd Hf Hb. apply memcpy_general; try done.
  intros i b Hi. rewrite mread_put_out; [by apply Hs|].
  rewrite length_take. apply lookup_lt_Some in Hi. lia.
Qed.

(** [n] bytes that repeat the list [ps]. *)
Definition periodic (ps : list Z) (n : nat) : list Z :=
  map (fun i => nth (i mod length ps) ps 0) (seq 0 n).

Lemma periodic_lookup ps n i b :
  periodic ps n !! i = Some b -> (i < n)%nat /\ b = nth (i mod length ps) ps 0.
Proof.
  unfold periodic. intros H. apply list_lookup_fmap_Some in H as (j & -> & Hj).
  apply lookup_seq in Hj as [-> ?]. done.
Qed.
Lemma length_periodic ps n : length (periodic ps n) = n.
Proof. unfold periodic. by rewrite length_map, length_seq. Qed.

Lemma mod_sub_period (i d : nat) : (d <> 0)%nat -> (d <= i)%nat -> ((i - d) mod d = i mod d)%nat.
Proof.
  intros. replace i with (i - d + 1 * d)%nat at 2 by lia. by rewrite Nat.Div0.mod_add.
Qed.

(** A forward copy onto a destination [length ps] bytes above the source
    repeats the first [length ps] bytes. *)
Lemma memcpy_overlap ps n dest src fuel w :
  dest = src + Z.of_nat (length ps) -> ps <> [] -> Forall is_byte ps -> bytes_at w src ps ->
  writable w dest (Z.of_nat n) -> (n < fuel)%nat -> Z.of_nat n < 2 ^ 31 ->
  memcpy dest src (Z.of_nat n) fuel w = Ok dest (put w dest (periodic ps n)).
Proof.
  intros Hd Hne Hby Hs Hw Hf Hb. pose proof (length_periodic ps n) as L.
  assert (length ps <> 0)%nat as Hl by (by destruct ps).
  rewrite <- L in Hw, Hf, Hb |- * at 1. apply memcpy_general; try done.
  intros i b Hi. apply periodic_lookup in Hi as [Hin ->].
  destruct (decide (i < length ps)%nat) as [Hlt|].
  - rewrite mread_put_out by lia. rewrite Nat.mod_small by lia.
    apply Hs. by apply lookup_nth_lt.
  - replace (src + Z.of_nat i) with (dest + Z.of_nat (i - length ps)) by lia.
    erewrite mread_put_in; [rewrite u8_byte; [done|]|..].
    + eapply Forall_lookup_1; [done|]. apply lookup_nth_lt. by apply Nat.mod_upper_bound.
    + apply Hw. rewrite L. lia.
    + rewrite lookup_take_lt by lia. unfold periodic. rewrite list_lookup_fmap.
      rewrite lookup_seq_lt by lia.
      transitivity (Some (nth ((0 + (i - length ps)) mod length ps) ps 0)); [done|].
      by rewrite Nat.add_0_l, mod_sub_period by lia.
Qed.

Lemma put_overwrite w p bs cs :
  length bs = length cs -> put (put w p bs) p cs = put w p cs.
Proof.
  intros L. unfold put. simpl. do 2 f_equal. apply map_eq. intros a.
  destruct (decide (p <= a < p + Z.of_nat (length cs))) as [H|H].
  - assert (Z.to_nat (a - p) < length cs)%nat as Hl by lia.
    destruct (lookup_lt_is_Some_2 _ _ Hl) as [c Hc].
    replace a with (p + Z.of_nat (Z.to_nat (a - p))) by lia.
    by rewrite !(lookup_put_bytes_in _ _ _ _ _ Hc).
  - rewrite !lookup_put_bytes_out by lia. done.
Qed.

(** The backward loop of [memmove], for a destination above the source. *)
Lemma memmove_backward bs dest src fuel w (body := fun i =>
    if negb (0 <=? i) then break_ tt
    else let! c := load (src + i) in store (dest + i) c ;; continue_ (i32 (i - 1))) :
  bytes_at w src bs -> writable w dest (Z.of_nat (length bs)) -> src <= dest ->
  Z.of_nat (length bs) < 2 ^ 31 ->
  forall j k, (j <= length bs)%nat -> (j < k)%nat ->
  iterM (R := unit) body k (Z.of_nat j - 1) fuel
    (put w (dest + Z.of_nat j) (drop j bs)) = Ok tt (put w dest bs).
Proof.
  intros Hs Hw Hd Hb. induction j as [|j IH]; intros [|k] Hj Hk; try lia.
  - erewrite iterM_break by reflexivity. rewrite drop_0, Z.add_0_r. done.
  - destruct (lookup_lt_is_Some_2 bs j) as [b Eb]; [lia|].
    assert (mread (w_mem (put w (dest + Z.of_nat (S j)) (drop (S j) bs))) (src + Z.of_nat j) = Some b).
    { rewrite mread_put_out by lia. by apply Hs. }
    replace (Z.of_nat (S j) - 1) with (Z.of_nat j) by lia.
    assert (mapped (w_mem (put w (dest + Z.of_nat (S j)) (drop (S j) bs))) (dest + Z.of_nat j) = true)
      by (rewrite mapped_put; apply Hw; lia).
    iter_continue body ltac:(ztrue (0 <=? Z.of_nat j); cbn [negb]; do 2 mstep).
    rewrite i32_small by lia. rewrite <- (IH k) by lia. f_equal.
    rewrite (drop_S bs b j) by done.
    rewrite (put_cons w (dest + Z.of_nat j) b). unfold put. cbn [w_mem set_mem m_ranges m_bytes put_bytes].
    rewrite insert_put_bytes by lia. do 4 f_equal. lia.
Qed.

(** [memmove] is right unless the regions overlap with the destination above
    the source. *)
Lemma memmove_copies bs dest src fuel w :
  bytes_at w src bs -> Forall is_byte bs -> writable w dest (Z.of_nat (length bs)) ->
  dest <= src \/ src + Z.of_nat (length bs) <= dest ->
  0 <= src < 2 ^ 63 -> 0 <= dest < 2 ^ 63 ->
  (length bs < fuel)%nat -> 0 < Z.of_nat (length bs) < 2 ^ 31 ->
  memmove dest src (Z.of_nat (length bs)) fuel w = Ok dest (put w dest bs).
Proof.
  intros Hs Hby Hw Hd Hsr Hdr Hf Hb. unfold memmove.
  rewrite !(i64_small _) by (rewrite ?i64_small; zcmps; lia).
  rewrite (u64_small src), (u64_small dest) by lia.
  destruct (decide (dest = src)) as [->|].
  - rewrite Z.sub_diag. cbn [Z.ltb Z.compare]. rewrite u64_small by lia.
    ztrue (0 <? Z.of_nat (length bs)). ztrue (src <=? src). cbn [andb].
    rewrite u64_small, i32_small by lia.
    erewrite bind_ok.
    2:{ unfold loop. rewrite <- (put_nil w (src + Z.of_nat (length bs))) at 1.
        rewrite <- (drop_all bs). apply memmove_backward; (done || lia). }
    erewrite bind_ok; [reflexivity|].
    rewrite <- (put_overwrite w src bs bs) at 2 by done.
    apply memcpy_copies; try (done || lia).
    by apply bytes_at_put.
  - assert ((u64 (if dest - src <? 0 then - (dest - src) else dest - src) <?
      Z.of_nat (length bs)) && (src <=? dest) = false) as E.
    { destruct (Z.ltb_spec (dest - src) 0); rewrite u64_small by lia; zcmps; (done || lia). }
    rewrite E. unfold bind at 1, ret at 1.
    erewrite bind_ok; [reflexivity|]. by apply memcpy_copies; try lia.
Qed.

(** on overlapping regions with the destination [d] bytes above the source,
    [memmove] fills the destination with the first [d] source bytes repeated:
    the forward copy that follows the backward one destroys its result. *)
Lemma memmove_overlap_repeats ps qs dest src fuel w :
  bytes_at w src (ps ++ qs) -> Forall is_byte (ps ++ qs) ->
  writable w dest (Z.of_nat (length (ps ++ qs))) ->
  dest = src + Z.of_nat (length ps) -> ps <> [] -> qs <> [] ->
  0 <= src < 2 ^ 63 -> 0 <= dest < 2 ^ 63 ->
  (length (ps ++ qs) < fuel)%nat -> Z.of_nat (length (ps ++ qs)) < 2 ^ 31 ->
  memmove dest src (Z.of_nat (length (ps ++ qs))) fuel w =
    Ok dest (put w dest (periodic ps (length (ps ++ qs)))).
Proof.
  intros Hs Hby Hw Hd Hp Hq Hsr Hdr Hf Hb. set (bs := ps ++ qs) in *.
  assert (0 < length ps)%nat by (destruct ps; [done|simpl; lia]).
  assert (length ps < length bs)%nat.
  { unfold bs. rewrite length_app. destruct qs; [done|simpl; lia]. }
  unfold memmove. rewrite !(i64_small _) by (rewrite ?i64_small; zcmps; lia).
  zfalse (dest - src <? 0). rewrite (u64_small src), (u64_small dest), !u64_small by lia.
  ztrue (dest - src <? Z.of_nat (length bs)). ztrue (src <=? dest). cbn [andb].
  rewrite i32_small by lia.
  erewrite bind_ok.
  2:{ unfold loop. rewrite <- (put_nil w (dest + Z.of_nat (length bs))) at 1.
      rewrite <- (drop_all bs). apply memmove_backward; (done || lia). }
  erewrite bind_ok; [reflexivity|].
  rewrite <- (put_overwrite w dest bs (periodic ps (length bs))) by (by rewrite length_periodic).
  apply memcpy_overlap; try done.
  - by apply Forall_app in Hby as [??].
  - apply bytes_at_put_ne; [unfold disjoint_from; lia|]. by apply bytes_at_app in Hs as [??].
Qed.

(** *** The allocator *)

Lemma malloc_ok (n : nat) fuel w :
  writable w (w_malloc_array w) MALLOC_MAX_SIZE ->
  0 <= w_malloc_size w -> w_malloc_size w + Z.of_nat n <= MALLOC_MAX_SIZE -> (n < fuel)%nat ->
  malloc (Z.of_nat n) fuel w =
    Ok (w_malloc_array w + w_malloc_size w)
       (put (set_malloc_size w (w_malloc_size w + Z.of_nat n))
          (w_malloc_array w + w_malloc_size w) (replicate n 0)).
Proof.
  unfold MALLOC_MAX_SIZE. intros Hw H0 Hn Hf. unfold malloc, get_malloc, bind at 1. cbn [fst snd].
  rewrite (u64_small (w_malloc_size w)), u64_small by lia.
  unfold MALLOC_MAX_SIZE. zfalse (1000000 <? w_malloc_size w + Z.of_nat n).
  rewrite i32_small by lia. unfold put_malloc_size, bind at 1.
  erewrite bind_ok; [reflexivity|]. apply memset_ok; try lia.
  eapply writable_sub; [apply Hw|lia..].
Qed.

(** when the request does not fit, [malloc] reports it on standard output
    and exits with status 1; the state is otherwise unchanged. *)
Lemma malloc_exhausted n fuel w :
  0 <= w_malloc_size w <= MALLOC_MAX_SIZE -> 0 <= n < 2 ^ 64 - MALLOC_MAX_SIZE ->
  MALLOC_MAX_SIZE < w_malloc_size w + n ->
  malloc n fuel w = Exited 1 (add_trace w (SysWrite 1 (lit "fail: malloc" ++ [10]))).
Proof.
  unfold MALLOC_MAX_SIZE. intros H0 Hn H. unfold malloc, get_malloc, bind at 1. cbn [fst snd].
  rewrite (u64_small (w_malloc_size w)), u64_small by lia.
  unfold MALLOC_MAX_SIZE. by ztrue (1000000 <? w_malloc_size w + n).
Qed.

(** A sequence of requests. *)
Fixpoint malloc_all (ns : list nat) : M (list Z) :=
  match ns with
  | [] => ret []
  | n :: ns' => let! p := malloc (Z.of_nat n) in let! ps := malloc_all ns' in ret (p :: ps)
  end.

(** Blocks [(p, n)] inside [lo, hi) that follow each other without overlap. *)
Fixpoint blocks_in (lo hi : Z) (ps : list Z) (ns : list nat) : Prop :=
  match ps, ns with
  | [], [] => lo <= hi
  | p :: ps', n :: ns' => lo <= p /\ blocks_in (p + Z.of_nat n) hi ps' ns'
  | _, _ => False
  end.

Lemma blocks_in_mono lo lo' hi ps ns : blocks_in lo hi ps ns -> lo' <= lo -> blocks_in lo' hi ps ns.
Proof. destruct ps, ns; simpl; intuition lia. Qed.

Lemma blocks_in_lookup lo hi ps ns j q m :
  blocks_in lo hi ps ns -> ps !! j = Some q -> ns !! j = Some m ->
  lo <= q /\ q + Z.of_nat m <= hi.
Proof.
  revert lo ns j. induction ps as [|p ps IH]; intros lo [|n ns] j H Hq Hm; try done.
  destruct H as [Hlo H]. assert (p + Z.of_nat n <= hi).
  { clear -H. revert p n ns H. induction ps; intros p n [|n' ns] H; simpl in H; try done.
    destruct H as [? H]. apply IHps in H. lia. }
  destruct j as [|j]; simpl in *; simplify_eq; [done|].
  destruct (IH _ _ _ H Hq Hm). lia.
Qed.

Lemma blocks_in_disjoint lo hi ps ns i j p q n m :
  blocks_in lo hi ps ns -> (i < j)%nat ->
  ps !! i = Some p -> ps !! j = Some q -> ns !! i = Some n -> ns !! j = Some m ->
  p + Z.of_nat n <= q.
Proof.
  revert lo ns i j. induction ps as [|p' ps IH]; intros lo [|n' ns] i j H Hij Hp Hq Hn Hm; try done.
  destruct H as [Hlo H]. destruct j as [|j]; [lia|]. destruct i as [|i]; simpl in *; simplify_eq.
  - by eapply blocks_in_lookup in H as [? _].
  - eapply (IH _ ns i j); eauto. lia.
Qed.

(** As long as the requests fit together into the arena, [malloc] serves all of
    them with blocks inside the arena that do not overlap, and leaves the rest
    of the memory alone. *)
Theorem malloc_sequence_disjoint ns fuel w :
  writable w (w_malloc_array w) MALLOC_MAX_SIZE -> 0 <= w_malloc_size w ->
  w_malloc_size w + Z.of_nat (sum_list ns) <= MALLOC_MAX_SIZE ->
  Forall (fun n => (n < fuel)%nat) ns ->
  exists ps w', malloc_all ns fuel w = Ok ps w' /\
    blocks_in (w_malloc_array w + w_malloc_size w) (w_malloc_array w + MALLOC_MAX_SIZE) ps ns /\
    w_malloc_size w' = w_malloc_size w + Z.of_nat (sum_list ns) /\
    (forall i j p q n m, i <> j -> ps !! i = Some p -> ps !! j = Some q ->
       ns !! i = Some n -> ns !! j = Some m ->
       disjoint_from p (Z.of_nat n) q (Z.of_nat m)) /\
    (forall a, a < w_malloc_array w \/ w_malloc_array w + MALLOC_MAX_SIZE <= a ->
       mread (w_mem w') a = mread (w_mem w) a).
Proof.
  intros Hw H0 Hs Hf.
  assert (exists ps w', malloc_all ns fuel w = Ok ps w' /\
    blocks_in (w_malloc_array w + w_malloc_size w) (w_malloc_array w + MALLOC_MAX_SIZE) ps ns /\
    w_malloc_size w' = w_malloc_size w + Z.of_nat (sum_list ns) /\
    (forall a, a < w_malloc_array w \/ w_malloc_array w + MALLOC_MAX_SIZE <= a ->
       mread (w_mem w') a = mread (w_mem w) a)) as (ps & w' & E & B & S & F).
  { revert w Hw H0 Hs. induction Hf as [|n ns Hn Hf IH]; intros w Hw H0 Hs.
    - exists [], w. simpl in *. split_and!; try done; lia.
    - simpl sum_list in *. pose proof (malloc_ok n fuel w Hw H0 ltac:(lia) Hn) as E.
      match type of E with _ = Ok _ ?w1 => specialize (IH w1) end.
      destruct IH as (ps & w' & E' & B & S & F); [apply writable_put; exact Hw|simpl; lia..|].
      simpl in B, S, F.
      exists ((w_malloc_array w + w_malloc_size w) :: ps), w'. split_and!.
      + cbn [malloc_all]. erewrite bind_ok by exact E. by erewrite bind_ok by exact E'.
      + simpl. split; [lia|]. eapply blocks_in_mono; [done|lia].
      + lia.
      + intros a Ha. rewrite F by lia. apply (mread_put_out (set_malloc_size w 0)).
        rewrite length_replicate. lia. }
  exists ps, w'. split_and!; try done.
  intros i j p q n m Hne Hp Hq Hn Hm. unfold disjoint_from.
  destruct (decide (i < j)%nat);
    [left; eapply (blocks_in_disjoint _ _ _ _ i j)|right; eapply (blocks_in_disjoint _ _ _ _ j i)];
    eauto; lia.
Qed.

(** ** Instances at concrete states *)

(** "GET / x" at 100, " " at 200, an arena of zeros elsewhere. *)
Definition demo_request : world :=
  demo_world 100 300 [(100, lit "GET / x" ++ [0]); (200, lit " " ++ [0])].
Definition demo_strings : world :=
  demo_world 100 300 [(100, lit "ab" ++ [0]); (200, lit "abc" ++ [0])].
Definition demo_arena : world := demo_world 1000 (1000 + 1000000) [].

Lemma strcpy_no_terminator_witness :
  exists w', strcpy 150 200 10%nat demo_strings = Ok 150 w' /\ bytes_at w' 150 (lit "abc").
Proof.
  destruct (strcpy_no_terminator (lit "abc") 150 200 10%nat demo_strings) as (w' & E & _ & B & _);
    [demo..|]. by exists w'.
Defined.
Lemma strcat_appends_witness :
  exists w', strcat 100 200 10%nat demo_strings = Ok 100 w' /\ cstr w' 100 (lit "ababc").
Proof.
  destruct (strcat_appends (lit "ab") (lit "abc") 100 200 10%nat demo_strings) as (w' & E & _ & C);
    [demo..|]. by exists w'.
Defined.
Lemma strcmp_correct_witness :
  exists r, strcmp 100 200 10%nat demo_strings = Ok r demo_strings /\ r < 0.
Proof.
  destruct (strcmp_correct (lit "ab") (lit "abc") 100 200 10%nat demo_strings) as (r & E & _ & L);
    [demo..|]. exists r. split; [done|]. by apply L.
Defined.
Lemma strncmp_prefix_witness :
  exists r, strncmp 100 200 3 10%nat demo_strings = Ok r demo_strings /\ r = 0.
Proof.
  destruct (strncmp_prefix 3 (lit "ab") (lit "abc") 100 200 10%nat demo_strings) as (r & E & _ & P);
    [demo..|]. exists r. split; [done|]. apply P. left. by exists [99].
Defined.
Lemma strstr_complete_witness :
  exists j, strstr 200 100 10%nat demo_strings = Ok (200 + Z.of_nat j) demo_strings /\ (j <= 0)%nat.
Proof. apply (strstr_complete (lit "abc") (lit "ab") 200 100 0 10%nat demo_strings); demo. Defined.
Lemma strtok_splits_witness :
  exists w', strtok 100 200 20%nat demo_request = Ok 100 w' /\ cstr w' 100 (lit "GET") /\
    cstr w' (w_save_ptr w') (lit "/ x").
Proof.
  destruct (strtok_splits (lit "GET") 32 (lit "/ x") (lit " ") 100 200 20%nat demo_request)
    as (w' & E & C & _ & _ & R); [demo..|]. by exists w'.
Defined.
Lemma memmove_copies_witness :
  memmove 150 200 3 10%nat demo_strings = Ok 150 (put demo_strings 150 (lit "abc")).
Proof. apply (memmove_copies (lit "abc") 150 200 10%nat demo_strings); demo. Defined.
Lemma memmove_overlap_repeats_witness :
  memmove 201 200 3 10%nat demo_strings = Ok 201 (put demo_strings 201 [97; 97; 97]).
Proof.
  apply (memmove_overlap_repeats [97] [98; 99] 201 200 10%nat demo_strings); demo.
Defined.
Lemma malloc_exhausted_witness :
  malloc 1000001 10%nat demo_arena = Exited 1 (add_trace demo_arena (SysWrite 1 (lit "fail: malloc" ++ [10]))).
Proof. apply malloc_exhausted; vm_compute; intuition congruence. Defined.
Lemma demo_arena_writable : writable demo_arena (w_malloc_array demo_arena) MALLOC_MAX_SIZE.
Proof.
  intros i Hi. unfold MALLOC_MAX_SIZE in Hi. cbn. unfold mapped, in_range. simpl.
  zcmps; (done || lia).
Qed.
Lemma malloc_sequence_disjoint_witness :
  exists ps w', malloc_all [20; 64; 100]%nat 200%nat demo_arena = Ok ps w' /\
    blocks_in 1000 1001000 ps [20; 64; 100]%nat.
Proof.
  destruct (malloc_sequence_disjoint [20; 64; 100]%nat 200%nat demo_arena) as (ps & w' & E & B & _).
  - apply demo_arena_writable.
  - done.
  - done.
  - demo.
  - exists ps, w'. split; [exact E|exact B].
Defined.
