(* ===== verification/LiumlibNum.v ===== *)
(** * Numbers and addresses of liumlib ([app/liumlib/liumlib.c], [liumlib.h])

    Byte order, decimal and hexadecimal conversion, IPv4 addresses.  The
    theorems are the round trips between printing and parsing and the
    agreement of the two parsers of dotted addresses. *)

From stdpp Require Import strings.
From S2P Require Import Prelude CMem LiumlibStr.

(** ** Byte order *)

Definition is_big_endian : bool := nth 0 (le_bytes 4 0x01020304) 0 =? 1.

Definition bswap_16 (x : Z) : Z :=
  u16 (Z.lor (Z.land (Z.shiftr x 8) 0xff) (Z.shiftl (Z.land x 0xff) 8)).
Definition bswap_32 (x : Z) : Z :=
  Z.lor (Z.lor (Z.lor (Z.shiftr (Z.land x 0xff000000) 24) (Z.shiftr (Z.land x 0x00ff0000) 8))
    (u32 (Z.shiftl (Z.land x 0x0000ff00) 8))) (u32 (Z.shiftl (Z.land x 0x000000ff) 24)).

Definition htons (hostshort : Z) : Z :=
  if is_big_endian then hostshort else bswap_16 hostshort.
Definition htonl (hostlong : Z) : Z :=
  if is_big_endian then hostlong else bswap_32 hostlong.

(** ** Parsing decimal numbers *)

(** The loop of [StrToByte] and [StrToNum16]: the value and the final [s]. *)
Definition digits_loop (s : Z) : M (Z * Z) :=
  loop (fun '(s, v) =>
    let! b := load s in
    let c := i8 b in
    if (48 <=? c) && (c <=? 57) then continue_ (s + 1, u32 (v * 10 + c - 48))
    else break_ (v, s)) (s, 0).

(** Both return the value and what is stored in [*next]. *)
Definition StrToByte (s : Z) : M (Z * Z) :=
  let! r := digits_loop s in ret (u8 r.1, r.2).
Definition StrToNum16 (s : Z) : M (Z * Z) :=
  let! r := digits_loop s in ret (u16 r.1, r.2).

(** ** Printing numbers *)

(** The [for] loop of [PrintNum]: [acc] is [s[i+1..15]]; the result is
    [s[i..15]] when the loop is left by [break], [None] when [i] reaches 0. *)
Fixpoint PrintNum_loop (i : nat) (v : Z) (acc : list Z) : option (list Z) :=
  match i with
  | O => None
  | S i' =>
    let acc := u8 (Z.rem v 10 + 48) :: acc in
    let v := Z.quot v 10 in
    if v =? 0 then Some acc else PrintNum_loop i' v acc
  end.

(** Leaving the loop with [i = 0] would write the uninitialised [s[0]]; an
    [int] never has that many digits. *)
Definition PrintNum (v : Z) : M unit :=
  let! v := (if v <? 0 then write_buf 1 [45] ;; ret (i32 (- v)) else ret v) in
  match PrintNum_loop 15 v [] with
  | Some s => write_buf 1 s
  | None => fun _ _ => Fault
  end.

(** [v] and the result are [char]s. *)
Definition NumToHexChar (v : Z) : Z :=
  if v <? 10 then i8 (v + 48)
  else if v <? 16 then i8 (v - 10 + 65)
  else 63.

Definition PrintHex8ZeroFilled (v : Z) : M unit :=
  write_buf 1 [u8 (NumToHexChar (Z.land (Z.shiftr v 4) 0xF)); u8 (NumToHexChar (Z.land v 0xF))].

Definition __assert {A} (expr_str file : string) (line : Z) : M A :=
  write_buf 1 (10 :: lit "Assertion failed: ") ;; Print_lit expr_str ;; Print_lit " at " ;;
  Print_lit file ;; Print_lit ":" ;; PrintNum line ;; write_buf 1 [10] ;; exit_ 1.

(** ** IPv4 addresses *)

(** The [uint32_t] stored in [buf[4]]. *)
Definition MakeIPv4Addr (a b c d : Z) : Z := le_value [a; b; c; d].

Definition MakeIPv4AddrFromString (s : Z) : M Z :=
  let! buf := loop (fun '(i, s, buf) =>
    let! r := StrToByte s in
    let s := r.2 in
    let buf := buf ++ [r.1] in
    if i =? 3 then break_ buf
    else
      let! c := load s in
      if negb (c =? 46) then __assert "*s == '.'" "liumlib.c" 342
      else continue_ (i32 (i + 1), s + 1, buf)) (0, s, []) in
  ret (le_value buf).

Definition PrintIPv4Addr (addr : Z) : M unit :=
  let buf := le_bytes 4 addr in
  loop (fun i =>
    PrintNum (nth (Z.to_nat i) buf 0) ;;
    if i =? 3 then break_ tt
    else Print_lit "." ;; continue_ (i32 (i + 1))) 0.

(** The [case '\0'] of the source cannot be reached inside [while ( *cp )]. *)
Definition inet_addr (cp : Z) : M Z :=
  let! r := loop (fun '(cp, dots, acc, addrs) =>
    let! c := load cp in
    if c =? 0 then break_ (Some (dots, addrs ++ [acc]))
    else if (48 <=? c) && (c <=? 57) then
      continue_ (cp + 1, dots, u32 (u32 (acc * 10) + (c - 48)), addrs)
    else if c =? 46 then
      if 3 <? dots + 1 then break_ None
      else continue_ (cp + 1, dots + 1, 0, addrs ++ [acc])
    else break_ None) (cp, 0, 0, []) in
  match r with
  | None => ret 0
  | Some (dots, addrs) =>
    let a i := nth i addrs 0 in
    ret (if dots =? 3 then
           Z.lor (Z.lor (Z.lor (u32 (Z.shiftl (a 3%nat) 24)) (u32 (Z.shiftl (a 2%nat) 16)))
             (u32 (Z.shiftl (a 1%nat) 8))) (a 0%nat)
         else if dots =? 2 then
           Z.lor (Z.lor (u32 (Z.shiftl (a 2%nat) 24)) (u32 (Z.shiftl (a 1%nat) 8))) (a 0%nat)
         else if dots =? 1 then
           Z.lor (u32 (Z.shiftl (a 1%nat) 24)) (a 0%nat)
         else u32 (Z.shiftl (a 0%nat) 24))
  end.

(** ** Byte order *)

(** [htons] and [htonl] as reversals of the bytes in memory. *)
Lemma htons_bytes x : 0 <= x < 2 ^ 16 -> le_bytes 2 (htons x) = reverse (le_bytes 2 x).
Proof.
  intros Hx. change (htons x) with (bswap_16 x). unfold bswap_16.
  rewrite !land_255, !shiftr_div, !shiftl_mul by lia.
  rewrite Z.lor_comm, <- (shiftl_mul (x mod 256)), lor_shiftl_add by zdiv.
  rewrite u16_small by zdiv. cbn [le_bytes]. unfold u8. rewrite !shiftr_div by lia.
  change (reverse [?a; ?b]) with [b; a]. f_equal; [zdiv|]. f_equal. zdiv.
Qed.
Lemma htons_range x : 0 <= htons x < 2 ^ 16.
Proof. change (htons x) with (bswap_16 x). apply u16_range. Qed.

Lemma land_byte_shift x k :
  0 <= k -> Z.land x (Z.shiftl 255 k) = Z.shiftl (Z.land (Z.shiftr x k) 255) k.
Proof.
  intros Hk. apply Z.bits_inj'. intros i Hi.
  rewrite Z.land_spec, !Z.shiftl_spec by lia. destruct (Z.lt_ge_cases i k).
  - rewrite !(Z.testbit_neg_r _ (i - k)) by lia. apply andb_false_r.
  - rewrite Z.land_spec, Z.shiftr_spec by lia. by replace (i - k + k) with i by lia.
Qed.

Lemma bswap_32_value x :
  0 <= x < 2 ^ 32 ->
  bswap_32 x = le_value (reverse (le_bytes 4 x)).
Proof.
  intros Hx. unfold bswap_32.
  change 0xff000000 with (Z.shiftl 255 24). change 0x00ff0000 with (Z.shiftl 255 16).
  change 0x0000ff00 with (Z.shiftl 255 8). change 0x000000ff with 255.
  rewrite !land_byte_shift by lia.
  rewrite (Z.shiftr_shiftl_l _ 24 24), (Z.shiftr_shiftl_l _ 16 8), Z.shiftl_shiftl by lia.
  rewrite !land_255, Z.sub_diag, Z.shiftl_0_r.
  rewrite (shiftr_div x 24), (shiftr_div x 16), (shiftr_div x 8) by lia.
  cbn [le_bytes]. change (reverse [?a; ?b; ?c; ?d]) with [d; c; b; a]. cbn [le_value].
  unfold u8. rewrite !shiftr_div by lia. change (2 ^ 8) with 256.
  rewrite !shiftl_mul by lia. rewrite !u32_small by zdiv.
  replace (x / 256 / 256 / 256) with (x / 2 ^ 24) by (rewrite !Z.div_div by lia; done).
  replace (x / 256 / 256) with (x / 2 ^ 16) by (rewrite !Z.div_div by lia; done).
  set (a := x / 2 ^ 24 mod 256). set (b := x / 2 ^ 16 mod 256).
  change (x / 2 ^ 8) with (x / 256). set (c := x / 256 mod 256). set (d := x mod 256).
  assert (0 <= a < 256 /\ 0 <= b < 256 /\ 0 <= c < 256 /\ 0 <= d < 256) as (?&?&?&?)
    by (unfold a, b, c, d; split_and!; apply Z.mod_pos_bound; lia).
  rewrite (Z.lor_comm a), <- (shiftl_mul b), (lor_shiftl_add b a) by lia.
  rewrite (Z.lor_comm (b * _ + a)).
  change (16 - 8) with 8. change (8 + 8) with 16. rewrite <- (shiftl_mul c), (lor_shiftl_add c) by lia.
  rewrite Z.lor_comm, <- (shiftl_mul d), (lor_shiftl_add d) by lia. lia.
Qed.

(** [htons] and [htonl] reverse the bytes of the value and undo themselves. *)
Theorem byteswap_involutive x y :
  0 <= x < 2 ^ 16 -> 0 <= y < 2 ^ 32 ->
  htons (htons x) = x /\ htonl (htonl y) = y /\
  le_bytes 2 (htons x) = reverse (le_bytes 2 x) /\
  le_bytes 4 (htonl y) = reverse (le_bytes 4 y).
Proof.
  intros Hx Hy. change htonl with bswap_32.
  assert (forall z, 0 <= z < 2 ^ 32 -> le_bytes 4 (bswap_32 z) = reverse (le_bytes 4 z)) as H4.
  { intros z Hz. rewrite bswap_32_value by done.
    apply (le_bytes_value (reverse (le_bytes 4 z))). apply Forall_reverse, le_bytes_is_byte. }
  assert (0 <= bswap_32 y < 2 ^ 32) as Hb.
  { rewrite bswap_32_value by done.
    pose proof (le_bytes_is_byte 4 y) as F. cbn [le_bytes] in *.
    change (reverse [?a; ?b; ?c; ?d]) with [d; c; b; a]. cbn [le_value].
    pose proof (u8_range y). pose proof (u8_range (Z.shiftr y 8)).
    pose proof (u8_range (Z.shiftr (Z.shiftr y 8) 8)).
    pose proof (u8_range (Z.shiftr (Z.shiftr (Z.shiftr y 8) 8) 8)). lia. }
  split_and!.
  - rewrite <- (Z.mod_small (htons (htons x)) (2 ^ (8 * Z.of_nat 2))) by apply htons_range.
    rewrite <- le_value_bytes, !htons_bytes, reverse_involutive by (done || apply htons_range).
    rewrite le_value_bytes. by apply Z.mod_small.
  - rewrite (bswap_32_value (bswap_32 y)) by done. rewrite H4, reverse_involutive by done.
    rewrite le_value_bytes. by apply Z.mod_small.
  - by apply htons_bytes.
  - by apply H4.
Qed.
Lemma byteswap_involutive_witness :
  htons (htons 0x1234) = 0x1234 /\ htonl (htonl 0x12345678) = 0x12345678.
Proof. destruct (byteswap_involutive 0x1234 0x12345678) as (?&?&_); [lia..|]. done. Defined.

(** ** Decimal numbers *)

(** The decimal digits of [v], most significant first: the reference for both
    the printer and the parsers.  [n] bounds the number of digits. *)
Fixpoint dec_digits (n : nat) (v : Z) : list Z :=
  match n with
  | O => []
  | S n' => if v <? 10 then [48 + v] else dec_digits n' (v / 10) ++ [48 + v mod 10]
  end.
(** Ten digits are enough for 32 bits. *)
Definition decimal (v : Z) : list Z := dec_digits 10 v.
Definition is_digit (c : Z) : Prop := 48 <= c <= 57.
Definition dec_fold (ds : list Z) (v : Z) : Z := fold_left (fun v c => v * 10 + (c - 48)) ds v.
Definition dec_val (ds : list Z) : Z := dec_fold ds 0.

Lemma dec_digits_spec n v :
  0 <= v < 10 ^ Z.of_nat n -> (0 < n)%nat ->
  Forall is_digit (dec_digits n v) /\ dec_val (dec_digits n v) = v /\ dec_digits n v <> [].
Proof.
  revert v. induction n as [|n IH]; intros v Hv Hn; [lia|]. cbn [dec_digits].
  destruct (Z.ltb_spec v 10).
  - split_and!; [|unfold dec_val; simpl; lia|done]. constructor; [|constructor].
    unfold is_digit. lia.
  - rewrite Nat2Z.inj_succ, Z.pow_succ_r in Hv by lia.
    destruct (Nat.eq_dec n 0) as [->|]; [simpl in Hv; lia|].
    destruct (IH (v / 10)) as (F & V & N); [zdiv|lia|]. split_and!.
    + apply Forall_app. split; [done|]. constructor; [|constructor]. unfold is_digit. zdiv.
    + unfold dec_val, dec_fold in *. rewrite fold_left_app, V. simpl. zdiv.
    + by destruct (dec_digits n (v / 10)).
Qed.

Lemma PrintNum_loop_ok n i v acc :
  0 <= v < 10 ^ Z.of_nat n -> (0 < n)%nat -> (n <= i)%nat ->
  PrintNum_loop i v acc = Some (dec_digits n v ++ acc).
Proof.
  revert i v acc. induction n as [|n IH]; intros [|i] v acc Hv Hn Hi; try lia.
  cbn [PrintNum_loop dec_digits].
  rewrite Z.rem_mod_nonneg, Z.quot_div_nonneg by lia.
  rewrite u8_small by zdiv. destruct (Z.ltb_spec v 10).
  - rewrite Z.div_small, Z.mod_small by lia. cbn [Z.eqb]. simpl. do 2 f_equal. lia.
  - rewrite Nat2Z.inj_succ, Z.pow_succ_r in Hv by lia.
    destruct (Nat.eq_dec n 0) as [->|]; [simpl in Hv; lia|].
    replace (v / 10 =? 0) with false by (symmetry; apply Z.eqb_neq; zdiv).
    rewrite IH by (zdiv || lia). rewrite <- app_assoc. do 2 f_equal. simpl. f_equal. lia.
Qed.

Lemma PrintNum_ok v fuel w :
  0 <= v < 2 ^ 31 -> PrintNum v fuel w = Ok tt (add_trace w (SysWrite 1 (decimal v))).
Proof.
  intros Hv. unfold PrintNum. zfalse (v <? 0). unfold bind, ret.
  rewrite (PrintNum_loop_ok 10) by (simpl; lia). by rewrite app_nil_r.
Qed.

Lemma is_digit_i8 c : is_digit c -> i8 c = c.
Proof. unfold is_digit. intros. apply i8_small. lia. Qed.
Lemma not_digit_i8 c : is_byte c -> ~ is_digit c -> (48 <=? i8 c) && (i8 c <=? 57) = false.
Proof.
  unfold is_byte, is_digit. intros Hb Hn.
  assert (i8 c = c \/ i8 c = c - 256) as [->| ->].
  { unfold i8, swrap. change (2 ^ (8 - 1)) with 128. change (2 ^ 8) with 256. zdiv. }
  all: zcmps; (done || lia).
Qed.

Lemma dec_fold_ge ds v : Forall is_digit ds -> 0 <= v -> v <= dec_fold ds v.
Proof.
  intros H. revert v. unfold dec_fold, is_digit in *.
  induction H as [|d ds Hd _ IH]; intros v Hv; simpl; [lia|].
  specialize (IH (v * 10 + (d - 48)) ltac:(lia)). lia.
Qed.

(** The parsing loop reads the longest run of digits and stops behind it. *)
Lemma digits_loop_ok ds c p fuel w :
  Forall is_digit ds -> is_byte c -> ~ is_digit c -> bytes_at w p (ds ++ [c]) ->
  dec_val ds < 2 ^ 32 -> (length ds < fuel)%nat ->
  digits_loop p fuel w = Ok (dec_val ds, p + Z.of_nat (length ds)) w.
Proof.
  intros Hd Hc Hnc Hb Hv Hf. unfold digits_loop. name_loop body.
  assert (forall ds v p k, Forall is_digit ds -> bytes_at w p (ds ++ [c]) ->
    0 <= v -> dec_fold ds v < 2 ^ 32 -> (length ds < k)%nat ->
    iterM body k (p, v) fuel w = Ok (dec_fold ds v, p + Z.of_nat (length ds)) w) as H.
  { clear ds p Hd Hb Hv Hf.
    induction ds as [|d ds IH]; intros v p [|k] Hd Hb H0 Hv Hk; simpl length in *; try lia.
    - apply bytes_at_cons in Hb as [Hb _].
      iter_break body ltac:(mstep; rewrite not_digit_i8 by done). by rewrite Z.add_0_r.
    - apply bytes_at_cons in Hb as [Hb Hb']. inversion_clear Hd as [|? ? Hdd Hds].
      cbn [dec_fold fold_left] in *. change (fold_left _ ds ?x) with (dec_fold ds x) in *.
      assert (48 <= d <= 57) as Hr by exact Hdd.
      assert (0 <= v * 10 + (d - 48)) by lia.
      pose proof (dec_fold_ge ds (v * 10 + (d - 48)) Hds ltac:(done)).
      iter_continue body ltac:(mstep; rewrite is_digit_i8 by done;
        ztrue (48 <=? d); ztrue (d <=? 57); cbn [andb]).
      rewrite u32_small by (unfold is_digit in *; lia).
      replace (v * 10 + d - 48) with (v * 10 + (d - 48)) by lia.
      rewrite IH by (done || lia). do 2 f_equal. lia. }
  by apply H.
Qed.

(** The decimal form of a 32-bit number. *)
Lemma decimal_spec v :
  0 <= v < 2 ^ 32 ->
  Forall is_digit (decimal v) /\ dec_val (decimal v) = v /\ decimal v <> [] /\
  (length (decimal v) <= 10)%nat.
Proof.
  intros Hv. destruct (dec_digits_spec 10 v) as (F & V & N); [simpl; lia|lia|].
  split_and!; try done. unfold decimal. clear. revert v.
  assert (forall n v, (length (dec_digits n v) <= n)%nat) as H; [|intros v; apply H].
  induction n as [|n IH]; intros v; simpl; [lia|]. destruct (v <? 10); simpl; [lia|].
  rewrite length_app. simpl. specialize (IH (v / 10)). lia.
Qed.

(** [StrToNum16] and [StrToByte] read back what [PrintNum] prints: on the bytes
    written for [v], followed by anything but a digit, they return [v] cut to
    their width and the position behind the digits. *)
Theorem print_parse_roundtrip v c p fuel w :
  0 <= v < 2 ^ 31 -> is_byte c -> ~ is_digit c -> bytes_at w p (decimal v ++ [c]) ->
  (10 < fuel)%nat ->
  PrintNum v fuel w = Ok tt (add_trace w (SysWrite 1 (decimal v))) /\
  StrToNum16 p fuel w = Ok (u16 v, p + Z.of_nat (length (decimal v))) w /\
  StrToByte p fuel w = Ok (u8 v, p + Z.of_nat (length (decimal v))) w.
Proof.
  intros Hv Hc Hnc Hb Hf. destruct (decimal_spec v) as (F & V & N & L); [lia|].
  assert (digits_loop p fuel w = Ok (v, p + Z.of_nat (length (decimal v))) w) as E.
  { rewrite (digits_loop_ok (decimal v) c) by (done || lia). by rewrite V. }
  split_and!.
  - by apply PrintNum_ok.
  - unfold StrToNum16. by erewrite bind_ok by exact E.
  - unfold StrToByte. by erewrite bind_ok by exact E.
Qed.
Definition demo_world8888 : world := demo_world 100 300 [(100, lit "8888" ++ [0])].
Lemma print_parse_roundtrip_witness :
  PrintNum 8888 20%nat demo_world8888 = Ok tt (add_trace demo_world8888 (SysWrite 1 (lit "8888"))) /\
  StrToNum16 100 20%nat demo_world8888 = Ok (8888, 104) demo_world8888.
Proof.
  destruct (print_parse_roundtrip 8888 0 100 20 demo_world8888) as (P & S & _);
    [lia|demo|unfold is_digit; lia|demo|lia|]. split; [exact P|exact S].
Defined.

(** ** Dotted addresses *)

(** The text of the address whose bytes in memory are [a b c d]. *)
Definition dotted (a b c d : Z) : list Z :=
  decimal a ++ 46 :: decimal b ++ 46 :: decimal c ++ 46 :: decimal d.

(** One field of an address: its digits, then the separator [c]. *)
Lemma StrToByte_field v c p fuel w :
  is_byte v -> is_byte c -> ~ is_digit c -> bytes_at w p (decimal v ++ [c]) -> (10 < fuel)%nat ->
  StrToByte p fuel w = Ok (v, p + Z.of_nat (length (decimal v))) w /\
  mread (w_mem w) (p + Z.of_nat (length (decimal v))) = Some c.
Proof.
  intros Hv Hc Hnc Hb Hf. unfold is_byte in Hv.
  destruct (decimal_spec v) as (F & V & N & L); [lia|]. split.
  - unfold StrToByte. erewrite bind_ok by (apply (digits_loop_ok (decimal v) c); (done || lia)).
    unfold ret. cbn [fst snd]. rewrite V, u8_small by lia. done.
  - apply bytes_at_app in Hb as [_ Hb]. by apply bytes_at_cons in Hb as [Hb _].
Qed.

Lemma bytes_at_fields w p a b c d e :
  bytes_at w p (dotted a b c d ++ [e]) ->
  let p1 := p + Z.of_nat (length (decimal a)) + 1 in
  let p2 := p1 + Z.of_nat (length (decimal b)) + 1 in
  let p3 := p2 + Z.of_nat (length (decimal c)) + 1 in
  bytes_at w p (decimal a ++ [46]) /\ bytes_at w p1 (decimal b ++ [46]) /\
  bytes_at w p2 (decimal c ++ [46]) /\ bytes_at w p3 (decimal d ++ [e]).
Proof.
  unfold dotted. intros H. cbv zeta.
  assert (forall p l1 x l2, bytes_at w p (l1 ++ x :: l2) ->
    bytes_at w p (l1 ++ [x]) /\ bytes_at w (p + Z.of_nat (length l1) + 1) l2) as S.
  { clear. intros p l1 x l2 H. apply bytes_at_app in H as [H1 H2].
    apply bytes_at_cons in H2 as [H2 H3]. split; [|done].
    apply bytes_at_app. split; [done|]. apply bytes_at_cons. split; [done|apply bytes_at_nil]. }
  repeat (rewrite <- app_assoc in H || rewrite <- app_comm_cons in H).
  apply S in H as [H1 H]. apply S in H as [H2 H]. by apply S in H as [H3 H].
Qed.

Lemma sep_not_digit : is_byte 46 /\ ~ is_digit 46 /\ is_byte 0 /\ ~ is_digit 0.
Proof. unfold is_byte, is_digit. lia. Qed.

Lemma MakeIPv4AddrFromString_ok a b c d e p fuel w :
  is_byte a -> is_byte b -> is_byte c -> is_byte d -> is_byte e -> ~ is_digit e ->
  bytes_at w p (dotted a b c d ++ [e]) -> (10 < fuel)%nat ->
  MakeIPv4AddrFromString p fuel w = Ok (MakeIPv4Addr a b c d) w.
Proof.
  intros Ha Hb Hc Hd He Hne Hs Hf. destruct sep_not_digit as (B46 & D46 & _).
  apply bytes_at_fields in Hs as (H1 & H2 & H3 & H4). cbv zeta in *.
  destruct (StrToByte_field a 46 _ fuel w Ha B46 D46 H1 Hf) as [E1 R1].
  destruct (StrToByte_field b 46 _ fuel w Hb B46 D46 H2 Hf) as [E2 R2].
  destruct (StrToByte_field c 46 _ fuel w Hc B46 D46 H3 Hf) as [E3 R3].
  destruct (StrToByte_field d e _ fuel w Hd He Hne H4 Hf) as [E4 _].
  unfold MakeIPv4AddrFromString. name_loop body.
  destruct fuel as [|[|[|[|k]]]]; try lia.
  erewrite bind_ok; [reflexivity|].
  iter_continue body ltac:(erewrite bind_ok by exact E1; cbn [fst snd Z.eqb Pos.eqb]; mstep).
  change (i32 (0 + 1)) with 1.
  iter_continue body ltac:(erewrite bind_ok by exact E2; cbn [fst snd Z.eqb Pos.eqb]; mstep).
  change (i32 (1 + 1)) with 2.
  iter_continue body ltac:(erewrite bind_ok by exact E3; cbn [fst snd Z.eqb Pos.eqb]; mstep).
  change (i32 (2 + 1)) with 3.
  iter_break body ltac:(erewrite bind_ok by exact E4; cbn [fst snd Z.eqb Pos.eqb]).
  done.
Qed.

(** The digits of one field, in the loop of [inet_addr]. *)
Definition inet_body : Z * Z * Z * list Z -> M (Z * Z * Z * list Z + option (Z * list Z)) :=
  fun '(cp, dots, acc, addrs) =>
    let! c := load cp in
    if c =? 0 then break_ (Some (dots, addrs ++ [acc]))
    else if (48 <=? c) && (c <=? 57) then
      continue_ (cp + 1, dots, u32 (u32 (acc * 10) + (c - 48)), addrs)
    else if c =? 46 then
      if 3 <? dots + 1 then break_ None
      else continue_ (cp + 1, dots + 1, 0, addrs ++ [acc])
    else break_ None.

Lemma inet_digits ds p dots acc addrs k fuel w :
  Forall is_digit ds -> bytes_at w p ds -> 0 <= acc -> dec_fold ds acc < 2 ^ 32 ->
  iterM inet_body (length ds + k) (p, dots, acc, addrs) fuel w =
  iterM inet_body k (p + Z.of_nat (length ds), dots, dec_fold ds acc, addrs) fuel w.
Proof.
  revert p acc. induction ds as [|d ds IH]; intros p acc Hd Hb H0 Hv; simpl length.
  { by rewrite Z.add_0_r. }
  apply bytes_at_cons in Hb as [Hb Hb']. inversion_clear Hd as [|? ? Hdd Hds].
  assert (48 <= d <= 57) by exact Hdd. cbn [dec_fold fold_left] in *.
  change (fold_left _ ds ?x) with (dec_fold ds x) in *.
  pose proof (dec_fold_ge ds (acc * 10 + (d - 48)) Hds ltac:(lia)).
  change (S (length ds) + k)%nat with (S (length ds + k)).
  erewrite iterM_continue.
  2:{ unfold inet_body. mstep. zfalse (d =? 0). ztrue (48 <=? d). ztrue (d <=? 57). reflexivity. }
  rewrite !u32_small by (rewrite ?u32_small; lia). rewrite IH by (done || lia). do 4 f_equal. lia.
Qed.

Lemma inet_field v p dots addrs k fuel w :
  is_byte v -> bytes_at w p (decimal v ++ [46]) -> dots < 3 ->
  iterM inet_body (length (decimal v) + S k) (p, dots, 0, addrs) fuel w =
  iterM inet_body k (p + Z.of_nat (length (decimal v)) + 1, dots + 1, 0, addrs ++ [v]) fuel w.
Proof.
  intros Hv Hb Hdots. unfold is_byte in Hv. destruct (decimal_spec v) as (F & V & N & L); [lia|].
  apply bytes_at_app in Hb as [Hb Hd]. apply bytes_at_cons in Hd as [Hd _].
  unfold dec_val in V. rewrite inet_digits by (done || lia). rewrite V.
  erewrite iterM_continue; [reflexivity|]. unfold inet_body. mstep. cbn [Z.eqb Z.leb Z.compare andb].
  by zfalse (3 <? dots + 1).
Qed.

Lemma inet_addr_ok a b c d p fuel w :
  is_byte a -> is_byte b -> is_byte c -> is_byte d ->
  bytes_at w p (dotted a b c d ++ [0]) -> (44 < fuel)%nat ->
  inet_addr p fuel w = Ok (MakeIPv4Addr a b c d) w.
Proof.
  intros Ha Hb Hc Hd Hs Hf.
  apply bytes_at_fields in Hs as (H1 & H2 & H3 & H4). cbv zeta in *.
  unfold is_byte in *.
  destruct (decimal_spec a) as (_ & _ & _ & La); [lia|].
  destruct (decimal_spec b) as (_ & _ & _ & Lb); [lia|].
  destruct (decimal_spec c) as (_ & _ & _ & Lc); [lia|].
  destruct (decimal_spec d) as (F & V & _ & Ld); [lia|].
  unfold inet_addr, loop. fold inet_body. erewrite bind_ok.
  2:{ replace fuel with (length (decimal a) + S (length (decimal b) + S (length (decimal c) +
        S (length (decimal d) + S (fuel - length (decimal a) - length (decimal b) -
        length (decimal c) - length (decimal d) - 4)))))%nat at 1 by lia.
      rewrite inet_field by (done || lia). rewrite inet_field by (done || lia).
      rewrite inet_field by (done || lia).
      apply bytes_at_app in H4 as [H4 He]. apply bytes_at_cons in He as [He _].
      unfold dec_val in V. rewrite inet_digits by (done || lia). rewrite V.
      erewrite iterM_break; [reflexivity|]. unfold inet_body. mstep. reflexivity. }
  cbn [app nth]. change (0 + 1 + 1 + 1 =? 3) with true. cbn iota. unfold ret. f_equal.
  rewrite !shiftl_mul, !u32_small by lia. unfold MakeIPv4Addr. cbn [le_value].
  rewrite <- (shiftl_mul d), <- (shiftl_mul c), <- (shiftl_mul b) by lia.
  rewrite <- !Z.lor_assoc.
  rewrite (lor_shiftl_add b a), (lor_shiftl_add c), (lor_shiftl_add d) by lia. lia.
Qed.

(** On the text "a.b.c.d" of four octets the two parsers agree: [inet_addr] and
    [MakeIPv4AddrFromString] both return the address [MakeIPv4Addr] builds. *)
Theorem ipv4_parsers_agree a b c d p fuel w :
  is_byte a -> is_byte b -> is_byte c -> is_byte d ->
  bytes_at w p (dotted a b c d ++ [0]) -> (44 < fuel)%nat ->
  inet_addr p fuel w = Ok (MakeIPv4Addr a b c d) w /\
  MakeIPv4AddrFromString p fuel w = Ok (MakeIPv4Addr a b c d) w.
Proof.
  intros. split; [by apply inet_addr_ok|].
  destruct sep_not_digit as (_ & _ & ? & ?). eapply MakeIPv4AddrFromString_ok; (done || lia).
Qed.

(** [PrintIPv4Addr] prints the dotted text of the address, field by field. *)
Lemma PrintIPv4Addr_dotted a b c d fuel w :
  is_byte a -> is_byte b -> is_byte c -> is_byte d -> (3 < fuel)%nat ->
  exists w', PrintIPv4Addr (MakeIPv4Addr a b c d) fuel w = Ok tt w' /\
    exists evs, w_trace w' = w_trace w ++ evs /\
      concat (map (fun e => match e with SysWrite 1 bs => bs | _ => [] end) evs) = dotted a b c d.
Proof.
  intros Ha Hb Hc Hd Hf. unfold PrintIPv4Addr, MakeIPv4Addr.
  assert (le_bytes 4 (le_value [a; b; c; d]) = [a; b; c; d]) as ->
    by (apply (le_bytes_value [a; b; c; d]); eauto using List.Forall_nil, List.Forall_cons).
  unfold is_byte in *. name_loop body. destruct fuel as [|[|[|[|k]]]]; try lia.
  assert (forall i x rest w, 0 <= i < 3 -> nth (Z.to_nat i) [a; b; c; d] 0 = x -> 0 <= x < 256 ->
    iterM body (S rest) i (S (S (S (S k)))) w =
    iterM body rest (i + 1) (S (S (S (S k))))
      (add_trace (add_trace w (SysWrite 1 (decimal x))) (SysWrite 1 [46]))) as H.
  { intros i x rest w' Hi Hx Hr. erewrite iterM_continue; [reflexivity|].
    unfold body. rewrite Hx. erewrite bind_ok by (apply PrintNum_ok; lia).
    zfalse (i =? 3). rewrite i32_small by lia. reflexivity. }
  rewrite (H 0 a), (H 1 b), (H 2 c) by (done || lia). cbn [Z.add Pos.add Pos.succ].
  erewrite iterM_break.
  2:{ unfold body. erewrite bind_ok by (apply PrintNum_ok; simpl; lia). reflexivity. }
  eexists. split; [reflexivity|]. eexists. split.
  { cbn [w_trace add_trace]. rewrite <- !app_assoc. reflexivity. }
  cbn. unfold dotted. by rewrite app_nil_r.
Qed.

Definition demo_ip : world := demo_world 100 300 [(100, lit "192.168.0.17" ++ [0])].
Lemma ipv4_parsers_agree_witness :
  inet_addr 100 50%nat demo_ip = Ok 0x1100A8C0 demo_ip /\
  MakeIPv4AddrFromString 100 50%nat demo_ip = Ok 0x1100A8C0 demo_ip.
Proof.
  apply (ipv4_parsers_agree 192 168 0 17 100 50 demo_ip); try demo; lia.
Defined.
Lemma PrintIPv4Addr_dotted_witness :
  exists w', PrintIPv4Addr 0x1100A8C0 50%nat demo_ip = Ok tt w'.
Proof.
  destruct (PrintIPv4Addr_dotted 192 168 0 17 50 demo_ip) as (w' & E & _); try demo; try lia.
  exists w'. exact E.
Defined.
