(* ===== verification/Syscalls.v ===== *)
(** * System calls and string literals of the programs under [app/]

    The wrappers of [liumlib/syscall.S] as the programs call them, the command
    line, string literals, and the framing lemmas the programs share: which
    bytes a call may change, and that a string elsewhere survives it. *)

From stdpp Require Import strings.
From S2P Require Import Prelude CMem LiumlibStr LiumlibNum.

Definition EXIT_FAILURE : Z := 1.
Definition AF_INET : Z := 2.
Definition SOCK_STREAM : Z := 1.
Definition SOCK_DGRAM : Z := 2.
Definition PROT_ICMP : Z := 1.
Definition IPPROTO_UDP : Z := 17.
Definition INADDR_ANY : Z := 0.
Definition SIZE_REQUEST : Z := 1000.
Definition SIZE_RESPONSE : Z := 2000.

(** Of a [sockaddr_in] the port, in network order, and the address. *)
Record sockaddr_in := SockAddr { sin_port : Z; s_addr : Z }.

Definition socket (domain type protocol : Z) : M Z :=
  let! a := sys (SysSocket domain type protocol) in ret (ans_ret a).
Definition bind_ (fd : Z) (address : sockaddr_in) : M Z :=
  let! a := sys (SysBind fd (sin_port address) (s_addr address)) in ret (ans_ret a).
Definition listen (fd backlog : Z) : M Z :=
  let! a := sys (SysListen fd backlog) in ret (ans_ret a).
Definition connect (fd : Z) (address : sockaddr_in) : M Z :=
  let! a := sys (SysConnect fd (sin_port address) (s_addr address)) in ret (ans_ret a).
Definition close (fd : Z) : M Z :=
  let! a := sys (SysClose fd) in ret (ans_ret a).
Definition sendto (fd buf len : Z) (address : sockaddr_in) : M Z :=
  let! bs := load_bytes buf (Z.to_nat len) in
  let! a := sys (SysSendto fd bs (sin_port address) (s_addr address)) in ret (ans_ret a).

(** [accept] and [recvfrom] also return what they leave in [address]; a failed
    call stores nothing. *)
Definition accept (fd : Z) (address : sockaddr_in) : M (Z * sockaddr_in) :=
  let! a := sys (SysAccept fd) in
  ret (ans_ret a, if ans_ret a <? 0 then address else SockAddr (ans_port a) (ans_addr a)).
Definition read (fd buf len : Z) : M Z :=
  let! a := sys (SysRead fd len) in
  (if ans_ret a <? 0 then ret tt else store_bytes buf (take (Z.to_nat len) (ans_bytes a))) ;;
  ret (ans_ret a).
Definition recvfrom (fd buf len : Z) (address : sockaddr_in) : M (Z * sockaddr_in) :=
  let! a := sys (SysRecvfrom fd len) in
  (if ans_ret a <? 0 then ret tt else store_bytes buf (take (Z.to_nat len) (ans_bytes a))) ;;
  ret (ans_ret a, if ans_ret a <? 0 then address else SockAddr (ans_port a) (ans_addr a)).

(** ** The command line

    [argv] as the list of its pointers; [argv[argc]] is the null pointer. *)
Definition arg (argv : list Z) (i : nat) : Z := nth i argv 0.

(** ** Writes to disjoint places commute *)

Lemma put_bytes_comm p1 l1 p2 l2 m :
  disjoint_from p1 (Z.of_nat (length l1)) p2 (Z.of_nat (length l2)) ->
  put_bytes p2 l2 (put_bytes p1 l1 m) = put_bytes p1 l1 (put_bytes p2 l2 m).
Proof.
  revert p2 m. induction l2 as [|b l2 IH]; intros p2 m Hd; [done|]. cbn [put_bytes].
  unfold disjoint_from in *. cbn [length] in Hd. rewrite <- insert_put_bytes by lia. apply IH. lia.
Qed.
Lemma put_comm w p1 l1 p2 l2 :
  disjoint_from p1 (Z.of_nat (length l1)) p2 (Z.of_nat (length l2)) ->
  put (put w p1 l1) p2 l2 = put (put w p2 l2) p1 l1.
Proof. intros H. unfold put. simpl. by rewrite put_bytes_comm. Qed.
(** Filling in the head behind the tail. *)
Lemma put_head w p b l : put (put w (p + 1) l) p [b] = put w p (b :: l).
Proof. rewrite (put_cons w p b l). apply put_comm. unfold disjoint_from. simpl. lia. Qed.
(** Overwriting a field inside a block. *)
Lemma put_field w p a b b' c :
  length b = length b' ->
  put (put w p (a ++ b ++ c)) (p + Z.of_nat (length a)) b' = put w p (a ++ b' ++ c).
Proof.
  intros Hl. rewrite (put_app w p a (b ++ c)), (put_app _ _ b c).
  rewrite put_comm by (unfold disjoint_from; lia). rewrite put_overwrite by done.
  by rewrite (put_app w p a (b' ++ c)), (put_app _ _ b' c), Hl.
Qed.

(** ** Framing *)

(** Every byte that can be read is a byte. *)
Definition mem_ok (w : world) : Prop := forall a b, mread (w_mem w) a = Some b -> is_byte b.
Lemma mem_ok_put w p bs : mem_ok w -> mem_ok (put w p bs).
Proof.
  intros H a b Hr. destruct (decide (p <= a < p + Z.of_nat (length bs))) as [Hin|Hout].
  - destruct (lookup_lt_is_Some_2 bs (Z.to_nat (a - p))) as [c Hc]; [lia|].
    unfold mread in Hr. rewrite mapped_put in Hr. destruct (mapped (w_mem w) a) eqn:E; [|done].
    assert (mread (w_mem (put w p bs)) (p + Z.of_nat (Z.to_nat (a - p))) = Some (u8 c)) as H'.
    { apply mread_put_in; [|done]. by replace (p + Z.of_nat (Z.to_nat (a - p))) with a by lia. }
    replace (p + Z.of_nat (Z.to_nat (a - p))) with a in H' by lia.
    unfold mread in H'. rewrite mapped_put, E in H'. rewrite H' in Hr. injection Hr as <-. apply is_byte_u8.
  - rewrite mread_put_out in Hr by lia. by eapply H.
Qed.
(** A region that ends in a zero byte holds a string. *)
Lemma cstr_exists (n : nat) p w :
  mem_ok w -> writable w p (Z.of_nat n + 1) -> mread (w_mem w) (p + Z.of_nat n) = Some 0 ->
  exists s, cstr w p s /\ (length s <= n)%nat.
Proof.
  intros Hok. revert p. induction n as [|n IH]; intros p Hw Hz.
  - exists []. split; [|done]. apply cstr_nil. by rewrite Z.add_0_r in Hz.
  - assert (exists b, mread (w_mem w) p = Some b) as [b Hb].
    { unfold mread. rewrite (writable_head _ _ _ Hw) by lia. eauto. }
    destruct (Z.eq_dec b 0) as [->|Hb0]; [exists []; split; [by apply cstr_nil|simpl; lia]|].
    destruct (IH (p + 1)) as (s & Hs & Hl).
    + eapply writable_sub; [done|lia..].
    + rewrite <- Hz. f_equal. lia.
    + exists (b :: s). split; [|simpl; lia]. apply cstr_cons. split; [done|]. split; [|done].
      specialize (Hok _ _ Hb). unfold is_byte in Hok. lia.
Qed.

(** [frame p n w w']: from [w] to [w'] only bytes of [p, p + n) changed. *)
Record frame (p n : Z) (w w' : world) : Prop := Frame {
  fr_trace : w_trace w' = w_trace w;
  fr_env : w_env w' = w_env w;
  fr_arena : w_malloc_array w' = w_malloc_array w;
  fr_size : w_malloc_size w' = w_malloc_size w;
  fr_save : w_save_ptr w' = w_save_ptr w;
  fr_mapped : forall a, mapped (w_mem w') a = mapped (w_mem w) a;
  fr_out : forall a, a < p \/ p + n <= a -> mread (w_mem w') a = mread (w_mem w) a;
  fr_ok : mem_ok w -> mem_ok w';
}.

#[global] Instance frame_refl p n : Reflexive (frame p n).
Proof. by split. Qed.
#[global] Instance frame_trans p n : Transitive (frame p n).
Proof.
  intros w1 w2 w3 [T1 E1 A1 S1 V1 M1 O1 K1] [T2 E2 A2 S2 V2 M2 O2 K2]. split; [congruence..| | |auto].
  - intros a. by rewrite M2, M1.
  - intros a H. by rewrite O2, O1.
Qed.
Lemma frame_put p n w q bs :
  p <= q -> q + Z.of_nat (length bs) <= p + n -> frame p n w (put w q bs).
Proof. intros H1 H2. split; try done; [intros a H; apply mread_put_out; lia|apply mem_ok_put]. Qed.
Lemma frame_weaken p n q m w w' : frame p n w w' -> q <= p -> p + n <= q + m -> frame q m w w'.
Proof. intros [] H1 H2. split; try done. intros a H. apply fr_out0. lia. Qed.

Lemma frame_bytes p n w w' q bs :
  frame p n w w' -> disjoint_from p n q (Z.of_nat (length bs)) -> bytes_at w q bs -> bytes_at w' q bs.
Proof.
  intros F Hd H i b Hi. rewrite (fr_out _ _ _ _ F); [by apply H|]. apply lookup_lt_Some in Hi.
  unfold disjoint_from in Hd. lia.
Qed.
Lemma frame_cstr p n w w' q s :
  frame p n w w' -> disjoint_from p n q (Z.of_nat (length s) + 1) -> cstr w q s -> cstr w' q s.
Proof.
  intros F Hd [Hn H]. split; [done|]. eapply frame_bytes; [done| |done]. rewrite length_app. simpl.
  unfold disjoint_from in *. lia.
Qed.
Lemma frame_writable p n w w' q m : frame p n w w' -> writable w q m -> writable w' q m.
Proof. intros F H i Hi. rewrite (fr_mapped _ _ _ _ F). by apply H. Qed.

(** ** Building a text in a buffer

    [buffer w p n s]: [p] points to [n] writable bytes that hold the string
    [s].  [zeroed]: all of them are zero, as [malloc] returns them. *)
Definition buffer (w : world) (p n : Z) (s : list Z) : Prop := writable w p n /\ cstr w p s.
Definition zeroed (w : world) (p : Z) (n : nat) : Prop :=
  writable w p (Z.of_nat n) /\ bytes_at w p (replicate n 0).

Lemma strcpy_zeroed s p (n : nat) src fuel w :
  zeroed w p n -> cstr w src s -> disjoint_from p (Z.of_nat n) src (Z.of_nat (length s) + 1) ->
  (length s < n)%nat -> (length s < fuel)%nat ->
  exists w', strcpy p src fuel w = Ok p w' /\ buffer w' p (Z.of_nat n) s /\ frame p (Z.of_nat n) w w'.
Proof.
  intros [Hw Hz] Hs Hd Hn Hf. exists (put w p s). split; [|split].
  - apply strcpy_ok; try done; [eapply writable_sub; [done|lia..]|unfold disjoint_from in *; lia].
  - split; [done|]. split; [by eapply cstr_nonzero|]. apply bytes_at_app. split.
    + apply bytes_at_put; [eapply writable_sub; [done|lia..]|eauto with lium].
    + apply bytes_at_cons. split; [|apply bytes_at_nil]. rewrite mread_put_out by lia.
      apply Hz. apply lookup_replicate. split; [done|lia].
  - apply frame_put; lia.
Qed.
Lemma strcat_buffer d s p n src fuel w :
  buffer w p n d -> cstr w src s -> disjoint_from p n src (Z.of_nat (length s) + 1) ->
  Z.of_nat (length d + length s) < n -> (length d < fuel)%nat -> (length s < fuel)%nat -> n < 2 ^ 63 ->
  exists w', strcat p src fuel w = Ok p w' /\ buffer w' p n (d ++ s) /\ frame p n w w'.
Proof.
  intros [Hw Hd] Hs Hdj Hn Hf1 Hf2 Hb.
  destruct (strcat_ok d s p src fuel w) as (w' & E & -> & C); try done.
  - eapply writable_sub; [done|lia..].
  - unfold disjoint_from in *. lia.
  - lia.
  - eexists. split; [done|]. split; [by split|]. apply frame_put; rewrite ?length_app; simpl; lia.
Qed.

(** ** String literals

    [L] gives the address of a literal; [lits w ss] says that the literals [ss]
    are in memory there, [apart p n ss] that the bytes [p, p + n) hold none of
    them. *)
Section Literals.
Context (L : string -> Z).
Definition lits (w : world) (ss : list string) : Prop := Forall (fun s => cstr w (L s) (lit s)) ss.
Definition apart (p n : Z) (ss : list string) : Prop :=
  Forall (fun s => disjoint_from p n (L s) (Z.of_nat (length (lit s)) + 1)) ss.

Lemma lits_frame p n ss w w' : frame p n w w' -> apart p n ss -> lits w ss -> lits w' ss.
Proof.
  intros F Ha Hl. unfold lits, apart in *. rewrite List.Forall_forall in *. intros s Hs.
  eapply frame_cstr; eauto.
Qed.
Lemma lits_In ss s w : lits w ss -> In s ss -> cstr w (L s) (lit s).
Proof. unfold lits. rewrite List.Forall_forall. auto. Qed.
Lemma apart_In p n ss s : apart p n ss -> In s ss -> disjoint_from p n (L s) (Z.of_nat (length (lit s)) + 1).
Proof. unfold apart. rewrite List.Forall_forall. auto. Qed.
Lemma apart_sub p n q m ss : apart p n ss -> p <= q -> q + m <= p + n -> apart q m ss.
Proof.
  unfold apart. rewrite !List.Forall_forall. intros H H1 H2 s Hs. specialize (H s Hs). unfold disjoint_from in *. lia.
Qed.
Definition litsb (w : world) (ss : list string) : bool := forallb (fun s => cstrb w (L s) (lit s)) ss.
Lemma litsb_sound w ss : litsb w ss = true -> lits w ss.
Proof.
  unfold litsb, lits. rewrite forallb_forall, List.Forall_forall. intros H s Hs. by apply cstrb_sound, H.
Qed.
Definition apartb (p n : Z) (ss : list string) : bool :=
  forallb (fun s => (p + n <=? L s) || (L s + (Z.of_nat (length (lit s)) + 1) <=? p)) ss.
Lemma apartb_sound p n ss : apartb p n ss = true -> apart p n ss.
Proof.
  unfold apartb, apart. rewrite forallb_forall, List.Forall_forall. intros H s Hs. specialize (H s Hs).
  cbn beta in H. unfold disjoint_from. apply orb_prop in H as [H|H]; apply Z.leb_le in H; [by left|by right].
Qed.
End Literals.

(** ** A concrete memory

    The literals one after the other from [base] on, and one mapped range. *)
Fixpoint place (base : Z) (ss : list string) : list (Z * string) :=
  match ss with
  | [] => []
  | s :: ss' => (base, s) :: place (base + Z.of_nat (length (lit s)) + 1) ss'
  end.
Definition lit_addr (base : Z) (ss : list string) (s : string) : Z :=
  match List.find (fun e => String.eqb s e.2) (place base ss) with Some e => e.1 | None => 0 end.
Definition lit_world (base hi arena : Z) (ss : list string) (env : list sys_answer) : world :=
  foldl (fun w e => put w e.1 (lit e.2 ++ [0]))
    (World (Mem [(base, hi)] ∅) [] env arena 0 0) (place base ss).

Lemma lit_world_writable base hi arena ss env p n :
  base <= p -> p + n <= hi -> writable (lit_world base hi arena ss env) p n.
Proof.
  intros H1 H2 i Hi. unfold lit_world. generalize (place base ss). intros l.
  assert (mapped (w_mem (World (Mem [(base, hi)] ∅) [] env arena 0 0)) (p + i) = true) as H.
  { unfold mapped, in_range. simpl. ztrue (base <=? p + i). ztrue (p + i <? hi). done. }
  revert H. generalize (World (Mem [(base, hi)] ∅) [] env arena 0 0).
  induction l as [|e l IH]; intros w H; [done|]. simpl. by apply IH.
Qed.
Lemma lit_world_ok base hi arena ss env : mem_ok (lit_world base hi arena ss env).
Proof.
  unfold lit_world. generalize (place base ss). intros l.
  assert (mem_ok (World (Mem [(base, hi)] ∅) [] env arena 0 0)) as H.
  { intros a b. unfold mread. destruct (mapped _ a); [|done]. intros [= <-]. cbn [m_bytes w_mem]. rewrite lookup_empty. unfold is_byte. simpl. lia. }
  revert H. generalize (World (Mem [(base, hi)] ∅) [] env arena 0 0).
  induction l as [|e l IH]; intros w H; [done|]. simpl. apply IH. by apply mem_ok_put.
Qed.

(** ** The arena of malloc

    [ext w w']: from [w] to [w'] only the part of the arena that was still free
    in [w] changed.  What is not in that part ([settled]) survives. *)
Record ext (w w' : world) : Prop := Ext {
  ext_trace : w_trace w' = w_trace w;
  ext_env : w_env w' = w_env w;
  ext_arena : w_malloc_array w' = w_malloc_array w;
  ext_size : w_malloc_size w <= w_malloc_size w';
  ext_mapped : forall a, mapped (w_mem w') a = mapped (w_mem w) a;
  ext_out : forall a, a < w_malloc_array w + w_malloc_size w \/ w_malloc_array w + MALLOC_MAX_SIZE <= a ->
    mread (w_mem w') a = mread (w_mem w) a;
}.
Definition settled (w : world) (q n : Z) : Prop :=
  q + n <= w_malloc_array w + w_malloc_size w \/ w_malloc_array w + MALLOC_MAX_SIZE <= q.
(** [n] more bytes can be allocated. *)
Definition room (w : world) (n : Z) : Prop :=
  writable w (w_malloc_array w) MALLOC_MAX_SIZE /\ 0 <= w_malloc_size w /\
  w_malloc_size w + n <= MALLOC_MAX_SIZE.

#[global] Instance ext_refl : Reflexive ext.
Proof. intros w. by split. Qed.
#[global] Instance ext_trans : Transitive ext.
Proof.
  intros w1 w2 w3 [T1 E1 A1 S1 M1 O1] [T2 E2 A2 S2 M2 O2]. split; [congruence..|lia| |].
  - intros a. by rewrite M2, M1.
  - intros a H. rewrite O2; [apply O1; done|]. rewrite A1. lia.
Qed.
Lemma ext_settled w w' q n : ext w w' -> settled w q n -> settled w' q n.
Proof. intros [] H. unfold settled in *. rewrite ext_arena0. lia. Qed.
Lemma ext_bytes w w' q bs :
  ext w w' -> settled w q (Z.of_nat (length bs)) -> bytes_at w q bs -> bytes_at w' q bs.
Proof.
  intros E Hs H i b Hi. rewrite (ext_out _ _ E); [by apply H|]. apply lookup_lt_Some in Hi.
  unfold settled in Hs. lia.
Qed.
Lemma ext_cstr w w' q s :
  ext w w' -> settled w q (Z.of_nat (length s) + 1) -> cstr w q s -> cstr w' q s.
Proof.
  intros E Hs [Hn H]. split; [done|]. apply (ext_bytes w); [done| |done].
  rewrite length_app. simpl. unfold settled in *. lia.
Qed.
Lemma ext_writable w w' q n : ext w w' -> writable w q n -> writable w' q n.
Proof. intros E H i Hi. rewrite (ext_mapped _ _ E). by apply H. Qed.
Lemma frame_ext p n w w1 w2 :
  ext w w1 -> frame p n w1 w2 -> w_malloc_array w + w_malloc_size w <= p ->
  p + n <= w_malloc_array w + MALLOC_MAX_SIZE -> ext w w2.
Proof.
  intros [] [] H1 H2. split; [congruence..|lia| |].
  - intros a. by rewrite fr_mapped0.
  - intros a H. rewrite fr_out0 by lia. by apply ext_out0.
Qed.
Lemma settled_outside w q n p m :
  settled w q n -> w_malloc_array w + w_malloc_size w <= p -> p + m <= w_malloc_array w + MALLOC_MAX_SIZE ->
  disjoint_from p m q n.
Proof. unfold settled, disjoint_from. lia. Qed.

(** Allocation: a zeroed block above everything settled. *)
Lemma malloc_ext (n : nat) fuel w :
  room w (Z.of_nat n) -> (n < fuel)%nat ->
  exists w', malloc (Z.of_nat n) fuel w = Ok (w_malloc_array w + w_malloc_size w) w' /\
    ext w w' /\ zeroed w' (w_malloc_array w + w_malloc_size w) n /\
    w_malloc_size w' = w_malloc_size w + Z.of_nat n /\ w_malloc_array w' = w_malloc_array w.
Proof.
  intros (Hw & H0 & Hm) Hf. eexists. split; [by apply malloc_ok|].
  assert (writable w (w_malloc_array w + w_malloc_size w) (Z.of_nat n)) as Hb.
  { eapply writable_sub; [done|lia..]. }
  split; [|split; [|done]].
  - split; try done; [simpl; lia|]. intros a Ha. change (w_mem w) with (w_mem (set_malloc_size w (w_malloc_size w + Z.of_nat n))).
    apply mread_put_out. rewrite length_replicate. lia.
  - split; [done|]. apply bytes_at_put; [by rewrite length_replicate|]. apply Forall_replicate. unfold is_byte. lia.
Qed.
Lemma room_ext w w' n m :
  room w (n + m) -> ext w w' -> w_malloc_size w' = w_malloc_size w + n -> 0 <= n -> room w' m.
Proof.
  intros (Hw & H0 & Hm) E Hs Hn. split; [|lia]. rewrite (ext_arena _ _ E). by eapply ext_writable.
Qed.

Section LiteralsExt.
Context (L : string -> Z).
Definition lits_settled (w : world) (ss : list string) : Prop :=
  Forall (fun s => settled w (L s) (Z.of_nat (length (lit s)) + 1)) ss.
Lemma lits_ext ss w w' : ext w w' -> lits_settled w ss -> lits L w ss -> lits L w' ss /\ lits_settled w' ss.
Proof.
  intros E Hs Hl. unfold lits, lits_settled in *. rewrite !List.Forall_forall in *. split; intros s Hin.
  - eapply ext_cstr; eauto.
  - eapply ext_settled; eauto.
Qed.
Lemma lits_settled_In w ss s : lits_settled w ss -> In s ss -> settled w (L s) (Z.of_nat (length (lit s)) + 1).
Proof. unfold lits_settled. rewrite List.Forall_forall. auto. Qed.
Definition lits_settledb (w : world) (ss : list string) : bool :=
  forallb (fun s => (L s + (Z.of_nat (length (lit s)) + 1) <=? w_malloc_array w + w_malloc_size w) ||
                    (w_malloc_array w + MALLOC_MAX_SIZE <=? L s)) ss.
Lemma lits_settledb_sound w ss : lits_settledb w ss = true -> lits_settled w ss.
Proof.
  unfold lits_settledb, lits_settled. rewrite forallb_forall, List.Forall_forall. intros H s Hs. specialize (H s Hs).
  cbn beta in H. unfold settled. apply orb_prop in H as [H|H]; apply Z.leb_le in H; [by left|by right].
Qed.
End LiteralsExt.
