(* ===== verification/Tokenize.v ===== *)
(** * The HTML tokenizer of the C browser ([app/browser/tokenize.c])

    [Tokenize] walks a NUL-terminated buffer with a five-state machine, writes
    the buffer in place (CR to LF, upper case to lower case in tag names) and
    builds a singly linked list of tokens with the bump allocator of liumlib.
    Tokens live in a store; a [Token*] is an index of it, [None] is [NULL]. *)

From stdpp Require Import strings.
From S2P Require Import Prelude CMem.

(** ** Data *)

Inductive State := DATA | TAG_OPEN | END_TAG_OPEN | TAG_NAME | SELF_CLOSING_START_TAG.
Inductive TokenType := DOCTYPE | START_TAG | END_TAG | CHAR | EOF.
#[global] Instance State_eq_dec : EqDecision State.
Proof. solve_decision. Defined.
#[global] Instance TokenType_eq_dec : EqDecision TokenType.
Proof. solve_decision. Defined.

(** The integer values of the enumerators. *)
Definition State_val (s : State) : Z :=
  match s with DATA => 0 | TAG_OPEN => 1 | END_TAG_OPEN => 2 | TAG_NAME => 3
  | SELF_CLOSING_START_TAG => 4 end.
Definition TokenType_val (t : TokenType) : Z :=
  match t with DOCTYPE => 0 | START_TAG => 1 | END_TAG => 2 | CHAR => 3 | EOF => 4 end.

(** [tag_name] is the string in the 20-byte buffer, [None] for [NULL]. *)
Record Token := MkToken {
  type : TokenType;
  tag_name : option (list Z);
  self_closing : bool;
  data : Z;
  next : option nat;
}.

(** The tokens allocated so far, the two globals and [malloc_size]. *)
Record store := Store {
  tokens : list Token;
  first_token : option nat;
  current_token : option nat;
  malloc_size : Z;
}.

Definition sizeof_Token : Z := 32.
Definition TAG_NAME_SIZE : Z := 20.

(** ** Operations *)

(** [malloc] of liumlib, as far as these programs see it. *)
Definition malloc_ (n : Z) (s : store) : res store :=
  if 1000000 <? malloc_size s + n then Stop (Exit 1)
  else Done (Store (tokens s) (first_token s) (current_token s) (malloc_size s + n)).

Definition alloc_token (t : Token) (s : store) : res (nat * store) :=
  do s <- malloc_ sizeof_Token s;
  Done (length (tokens s),
        Store (tokens s ++ [t]) (first_token s) (current_token s) (malloc_size s)).

(** For a tag the name buffer is a second [malloc], which zeroes it. *)
Definition CreateToken (t : TokenType) (s : store) : res (nat * store) :=
  let is_tag := bool_decide (t = START_TAG) || bool_decide (t = END_TAG) in
  do '(p, s) <- alloc_token (MkToken t (if is_tag then Some [] else None) false 0 None) s;
  do s <- (if is_tag then malloc_ TAG_NAME_SIZE s else Done s);
  Done (p, s).

Definition CreateCharToken (c : Z) (s : store) : res (nat * store) :=
  alloc_token (MkToken CHAR None false c None) s.

Definition set_next (t : Token) (n : option nat) : Token :=
  MkToken (type t) (tag_name t) (self_closing t) (data t) n.
Definition set_tag_name (t : Token) (n : option (list Z)) : Token :=
  MkToken (type t) n (self_closing t) (data t) (next t).
Definition set_self_closing (t : Token) (b : bool) : Token :=
  MkToken (type t) (tag_name t) b (data t) (next t).

(** [p->field = ...] through a pointer that may be null. *)
Definition update_token (p : option nat) (f : Token -> res Token) (s : store) : res store :=
  do i <- deref p;
  do t <- deref (tokens s !! i);
  do t <- f t;
  Done (Store (<[i := t]> (tokens s)) (first_token s) (current_token s) (malloc_size s)).

Definition AppendToken (token : nat) (s : store) : res store :=
  do s <- (match first_token s with
           | None => Done (Store (tokens s) (Some token) (current_token s) (malloc_size s))
           | Some _ => update_token (current_token s) (fun t => Done (set_next t (Some token))) s
           end);
  Done (Store (tokens s) (first_token s) (Some token) (malloc_size s)).

(** [strncat(t->tag_name, html, 1)]: one character and a NUL are written behind
    the string already there. *)
Definition append_tag_char (c : Z) (t : Token) : res Token :=
  do n <- deref (tag_name t);
  if TAG_NAME_SIZE <? Z.of_nat (length n) + 2 then Stop Overflow
  else Done (set_tag_name t (Some (n ++ [c]))).

(** ** The state machine *)

(** The locals of [Tokenize]: [state], the buffer as already rewritten (last
    character first), and the rest of it from [html] on. *)
Record tz := Tz { z_state : State; z_done : list Z; z_rest : list Z; z_store : store }.

Definition is_alpha (c : Z) : bool :=
  ((97 <=? c) && (c <=? 122)) || ((65 <=? c) && (c <=? 90)).
Definition is_upper (c : Z) : bool := (65 <=? c) && (c <=? 90).

(** One iteration of the [while] loop, on the current character [c0]; [case
    END_TAG:] of the source selects the state [END_TAG_OPEN], whose value is
    the same. *)
Definition Tokenize_step (state : State) (d : list Z) (c0 : Z) (rest : list Z) (s : store)
  : res tz :=
  let c := if c0 =? 13 then 10 else c0 in
  match state with
  | DATA =>
    if c =? 60 then Done (Tz TAG_OPEN (c :: d) rest s)
    else
      do '(p, s) <- CreateCharToken c s;
      do s <- AppendToken p s;
      Done (Tz DATA (c :: d) rest s)
  | TAG_OPEN =>
    if c =? 47 then Done (Tz END_TAG_OPEN (c :: d) rest s)
    else if is_alpha c then
      do '(p, s) <- CreateToken START_TAG s;
      do s <- AppendToken p s;
      Done (Tz TAG_NAME d (c :: rest) s)
    else
      do '(p, s) <- CreateCharToken 60 s;
      do s <- AppendToken p s;
      Done (Tz DATA d (c :: rest) s)
  | END_TAG_OPEN =>
    if is_alpha c then
      do '(p, s) <- CreateToken END_TAG s;
      do s <- AppendToken p s;
      Done (Tz TAG_NAME d (c :: rest) s)
    else Done (Tz END_TAG_OPEN (c :: d) rest s)
  | TAG_NAME =>
    if c =? 47 then Done (Tz SELF_CLOSING_START_TAG (c :: d) rest s)
    else if c =? 62 then Done (Tz DATA (c :: d) rest s)
    else
      let c := if is_upper c then c + 32 else c in
      do s <- update_token (current_token s) (append_tag_char c) s;
      Done (Tz TAG_NAME (c :: d) rest s)
  | SELF_CLOSING_START_TAG =>
    if c =? 62 then
      do s <- update_token (current_token s) (fun t => Done (set_self_closing t true)) s;
      Done (Tz DATA (c :: d) rest s)
    else Done (Tz SELF_CLOSING_START_TAG (c :: d) rest s)
  end.

Fixpoint Tokenize_loop (fuel : nat) (z : tz) : res tz :=
  match z_rest z with
  | [] => Done z
  | c :: rest =>
    match fuel with
    | O => Stop FuelOut
    | S fuel' =>
      do z' <- Tokenize_step (z_state z) (z_done z) c rest (z_store z);
      Tokenize_loop fuel' z'
    end
  end.

(** Enough iterations for every buffer: a character is looked at twice at most. *)
Definition Tokenize_fuel (html : list Z) : nat := 2 * length html + 2.

(** [html] is the contents of the buffer before its NUL. *)
Definition Tokenize (html : list Z) (s : store) : res tz :=
  Tokenize_loop (Tokenize_fuel html)
    (Tz DATA [] html (Store (tokens s) None None (malloc_size s))).

(** *** Debug output *)

(** The bytes [PrintToken] writes; [Println(&token->data)] stops at the padding
    byte behind [data], which is zero. *)
Definition PrintToken (t : Token) : list Z :=
  match type t with
  | START_TAG => lit "start: " ++ default [] (tag_name t) ++ [10]
  | END_TAG => lit "end: " ++ default [] (tag_name t) ++ [10]
  | CHAR => lit "char: " ++ (if data t =? 0 then [] else [data t]) ++ [10]
  | EOF => lit "EOF: End of file" ++ [10]
  | DOCTYPE => []
  end.

(** Following [next] from [p]. *)
Fixpoint PrintTokens_from (fuel : nat) (s : store) (p : option nat) : res (list Z) :=
  match p with
  | None => Done []
  | Some i =>
    match fuel with
    | O => Stop FuelOut
    | S fuel' =>
      do t <- deref (tokens s !! i);
      do r <- PrintTokens_from fuel' s (next t);
      Done (PrintToken t ++ r)
    end
  end.
Definition PrintTokens (s : store) : res (list Z) :=
  do r <- PrintTokens_from (S (length (tokens s))) s (first_token s);
  Done (lit "==============" ++ [10] ++ r ++ lit "==============" ++ [10]).

(** ** Specification: a one-pass list tokenizer

    The specification keeps the emitted tokens as a list, latest first, reads
    every character exactly once and has no store, no fuel and no failure. *)
Inductive tok :=
| TChar (c : Z)
| TTag (is_end : bool) (name : list Z) (closed : bool).

Definition norm_nl (c : Z) : Z := if c =? 13 then 10 else c.
Definition lower (c : Z) : Z := if is_upper c then c + 32 else c.

Definition spec_data (c : Z) (acc : list tok) : State * list tok :=
  if c =? 60 then (TAG_OPEN, acc) else (DATA, TChar c :: acc).
Definition spec_name (c : Z) (acc : list tok) : list tok :=
  match acc with TTag e n b :: l => TTag e (n ++ [c]) b :: l | _ => acc end.
Definition spec_close (acc : list tok) : list tok :=
  match acc with TTag e n _ :: l => TTag e n true :: l | _ => acc end.

Definition spec_step (st : State * list tok) (c0 : Z) : State * list tok :=
  let c := norm_nl c0 in
  let acc := st.2 in
  match st.1 with
  | DATA => spec_data c acc
  | TAG_OPEN =>
    if c =? 47 then (END_TAG_OPEN, acc)
    else if is_alpha c then (TAG_NAME, TTag false [lower c] false :: acc)
    else spec_data c (TChar 60 :: acc)
  | END_TAG_OPEN =>
    if is_alpha c then (TAG_NAME, TTag true [lower c] false :: acc) else (END_TAG_OPEN, acc)
  | TAG_NAME =>
    if c =? 47 then (SELF_CLOSING_START_TAG, acc)
    else if c =? 62 then (DATA, acc)
    else (TAG_NAME, spec_name (lower c) acc)
  | SELF_CLOSING_START_TAG =>
    if c =? 62 then (DATA, spec_close acc) else (SELF_CLOSING_START_TAG, acc)
  end.
Definition spec_run (st : State * list tok) (html : list Z) : State * list tok :=
  foldl spec_step st html.
(** The tokens of a document, in order. *)
Definition spec_tokens (html : list Z) : list tok := reverse (spec_run (DATA, []) html).2.

(** ** How the store represents the list *)

Definition mk_token (t : tok) (n : option nat) : Token :=
  match t with
  | TChar c => MkToken CHAR None false c n
  | TTag e name b => MkToken (if e then END_TAG else START_TAG) (Some name) b 0 n
  end.
(** Tokens at [i, i+1, ...], each pointing to the following one. *)
Definition links (i : nat) (l : list tok) : list Token :=
  imap (fun j t => mk_token t (Some (S (i + j)))) l.

Definition repr_tokens (pre : list Token) (acc : list tok) : list Token :=
  match acc with
  | [] => pre
  | t :: l => pre ++ links (length pre) (reverse l) ++ [mk_token t None]
  end.
(** [s] holds the list [reverse acc] behind the older tokens [pre]. *)
Definition repr (pre : list Token) (acc : list tok) (s : store) : Prop :=
  tokens s = repr_tokens pre acc /\
  first_token s = (if acc is [] then None else Some (length pre)) /\
  current_token s = (if acc is [] then None else Some (length pre + (length acc - 1))%nat).

Lemma length_links i l : length (links i l) = length l.
Proof. apply length_imap. Qed.
Lemma links_snoc i l t : links i (l ++ [t]) = links i l ++ [mk_token t (Some (S (i + length l)))].
Proof.
  unfold links. rewrite imap_app. simpl. by rewrite Nat.add_0_r.
Qed.
Lemma length_repr_tokens pre acc : length (repr_tokens pre acc) = (length pre + length acc)%nat.
Proof.
  destruct acc as [|t l]; simpl; [lia|].
  rewrite !length_app, length_links, length_reverse. simpl. lia.
Qed.
Lemma repr_last pre t l : repr_tokens pre (t :: l) !! (length pre + length l)%nat = Some (mk_token t None).
Proof.
  cbn [repr_tokens]. rewrite app_assoc.
  assert (length (pre ++ links (length pre) (reverse l)) = length pre + length l)%nat as E
    by (by rewrite length_app, length_links, length_reverse).
  rewrite lookup_app_r by lia. by rewrite E, Nat.sub_diag.
Qed.
Lemma repr_update_last pre t l x :
  <[(length pre + length l)%nat := x]> (repr_tokens pre (t :: l)) =
  pre ++ links (length pre) (reverse l) ++ [x].
Proof.
  cbn [repr_tokens]. rewrite app_assoc.
  assert (length (pre ++ links (length pre) (reverse l)) = length pre + length l)%nat as E
    by (by rewrite length_app, length_links, length_reverse).
  rewrite insert_app_r_alt by lia. rewrite E, Nat.sub_diag. cbn. by rewrite <- app_assoc.
Qed.

(** ** The operations on represented stores *)

(** The condition under which [malloc] gives up. *)
Definition oom (s : store) (n : Z) : Prop := 1000000 < malloc_size s + n.

Lemma AppendToken_alloc pre acc s t m :
  repr pre acc s ->
  exists s', AppendToken (length (tokens s))
      (Store (tokens s ++ [mk_token t None]) (first_token s) (current_token s) m) = Done s' /\
    repr pre (t :: acc) s' /\ malloc_size s' = m.
Proof.
  intros (Ht & Hf & Hc). unfold AppendToken. rewrite Hf, Hc. destruct acc as [|u l].
  - eexists. split; [reflexivity|]. repeat split; simpl in *; rewrite Ht; try done.
    f_equal. lia.
  - replace (length (u :: l) - 1)%nat with (length l) by (simpl; lia).
    unfold update_token, deref.
    cbn [rbind tokens first_token current_token malloc_size]. rewrite Ht.
    rewrite lookup_app_l by (rewrite length_repr_tokens; simpl; lia).
    rewrite repr_last. cbn [rbind]. eexists. split; [reflexivity|].
    rewrite length_repr_tokens. repeat split.
    + cbn [tokens]. rewrite insert_app_l by (rewrite length_repr_tokens; simpl; lia).
      rewrite repr_update_last. cbn [repr_tokens]. rewrite reverse_cons, links_snoc, length_reverse.
      rewrite <- !app_assoc. do 3 f_equal. simpl.
      destruct u; unfold set_next, mk_token; simpl; do 3 f_equal; lia.
Qed.

Lemma CreateCharToken_Append pre acc s c :
  repr pre acc s ->
  match (do '(p, s) <- CreateCharToken c s; AppendToken p s) with
  | Done s' => repr pre (TChar c :: acc) s' /\ malloc_size s' = malloc_size s + 32
  | Stop e => e = Exit 1 /\ oom s 32
  end.
Proof.
  intros Hr. unfold CreateCharToken, alloc_token, malloc_, sizeof_Token, oom.
  destruct (Z.ltb_spec 1000000 (malloc_size s + 32)); cbn [rbind]; [done|].
  cbn [tokens first_token current_token malloc_size].
  destruct (AppendToken_alloc pre acc s (TChar c) (malloc_size s + 32) Hr) as (s' & E & ? & ?).
  cbn [mk_token] in E. by rewrite E.
Qed.
Lemma CreateToken_Append pre acc s (e : bool) :
  repr pre acc s ->
  match (do '(p, s) <- CreateToken (if e then END_TAG else START_TAG) s; AppendToken p s) with
  | Done s' => repr pre (TTag e [] false :: acc) s' /\ malloc_size s' = malloc_size s + 52
  | Stop x => x = Exit 1 /\ oom s 52
  end.
Proof.
  intros Hr. unfold CreateToken, alloc_token, malloc_, sizeof_Token, TAG_NAME_SIZE, oom.
  destruct (Z.ltb_spec 1000000 (malloc_size s + 32)); cbn [rbind]; [split; [done|lia]|].
  cbn [tokens first_token current_token malloc_size].
  assert ((bool_decide ((if e then END_TAG else START_TAG) = START_TAG)
    || bool_decide ((if e then END_TAG else START_TAG) = END_TAG)) = true) as -> by by destruct e.
  cbn [rbind malloc_size]. destruct (Z.ltb_spec 1000000 (malloc_size s + 32 + 20)); cbn [rbind].
  { split; [done|lia]. }
  destruct (AppendToken_alloc pre acc s (TTag e [] false) (malloc_size s + 32 + 20) Hr)
    as (s' & E & ? & ?). cbn [mk_token] in E. rewrite E. split; [done|lia].
Qed.

(** The length of the name in the latest token. *)
Definition name_len (acc : list tok) : nat :=
  match acc with TTag _ n _ :: _ => length n | _ => 0%nat end.
Definition tag_first (acc : list tok) : Prop :=
  match acc with TTag _ _ _ :: _ => True | _ => False end.

Lemma update_name pre acc s c :
  repr pre acc s -> tag_first acc ->
  match update_token (current_token s) (append_tag_char c) s with
  | Done s' => repr pre (spec_name c acc) s' /\ malloc_size s' = malloc_size s
  | Stop x => x = Overflow /\ (19 <= name_len acc)%nat
  end.
Proof.
  intros (Ht & Hf & Hc) Htag. destruct acc as [|[|e n b] l]; try done.
  unfold update_token, deref. rewrite Hc. cbn [rbind].
  replace (length (TTag e n b :: l) - 1)%nat with (length l) by (simpl; lia).
  rewrite Ht, repr_last. cbn [rbind mk_token]. unfold append_tag_char, TAG_NAME_SIZE. cbn [tag_name deref rbind].
  destruct (Z.ltb_spec 20 (Z.of_nat (length n) + 2)); cbn [rbind].
  - split; [done|]. simpl. lia.
  - rewrite repr_update_last. repeat split; try done. cbn. f_equal. lia.
Qed.
Lemma update_close pre acc s :
  repr pre acc s -> tag_first acc ->
  exists s', update_token (current_token s) (fun t => Done (set_self_closing t true)) s = Done s' /\
    repr pre (spec_close acc) s' /\ malloc_size s' = malloc_size s.
Proof.
  intros (Ht & Hf & Hc) Htag. destruct acc as [|[|e n b] l]; try done.
  unfold update_token, deref. rewrite Hc. cbn [rbind].
  replace (length (TTag e n b :: l) - 1)%nat with (length l) by (simpl; lia).
  rewrite Ht, repr_last. cbn [rbind]. rewrite repr_update_last.
  eexists. split; [reflexivity|]. repeat split; try done. cbn. f_equal. lia.
Qed.

(** ** The loop implements the specification *)

Lemma rbind_pair_assoc {A B C D} (x : res (A * B)) (f : A -> B -> res C) (k : C -> res D) :
  (do '(a, b) <- x; do c <- f a b; k c) = (do c <- (do '(a, b) <- x; f a b); k c).
Proof. by destruct x as [[]|]. Qed.

Lemma Tokenize_loop_step f st d c rest s :
  Tokenize_loop (S f) (Tz st d (c :: rest) s) =
  rbind (Tokenize_step st d c rest s) (Tokenize_loop f).
Proof. done. Qed.

Definition st_ok (st : State) (acc : list tok) : Prop :=
  match st with TAG_NAME | SELF_CLOSING_START_TAG => tag_first acc | _ => True end.
(** Characters read whose token is still to be allocated. *)
Definition pend (st : State) : Z :=
  match st with TAG_OPEN | END_TAG_OPEN => 1 | _ => 0 end.

(** The outcome of reading one character: the loop goes on behind it with the
    specification's next state, or stops for want of memory or room. *)
Definition char_outcome (pre : list Token) (f : nat) (st : State) (d rest : list Z) (s : store)
    (st' : State * list tok) (r : res tz) : Prop :=
  (exists f' s' c', r = Tokenize_loop f' (Tz st'.1 (c' :: d) rest s') /\ (f <= f')%nat /\
     repr pre st'.2 s' /\ st_ok st'.1 st'.2 /\
     malloc_size s' + 52 * pend st'.1 <= malloc_size s + 52 * (pend st + 1)) \/
  (r = Stop (Exit 1) /\ 1000000 < malloc_size s + 52 * (pend st + 1)) \/
  (r = Stop Overflow /\ (20 <= name_len st'.2)%nat).

Lemma is_alpha_plain c : is_alpha c = true -> (c =? 47) = false /\ (c =? 62) = false.
Proof. unfold is_alpha. intros. zcmps; lia. Qed.

(** Reading a character in the data state. *)
Lemma data_char pre f d c rest s acc :
  repr pre acc s ->
  (exists f' s', rbind (Tokenize_step DATA d c rest s) (Tokenize_loop f) =
      Tokenize_loop f' (Tz (spec_data (norm_nl c) acc).1 (norm_nl c :: d) rest s') /\ (f <= f')%nat /\
     repr pre (spec_data (norm_nl c) acc).2 s' /\
     malloc_size s' + 52 * pend (spec_data (norm_nl c) acc).1 <= malloc_size s + 52) \/
  (rbind (Tokenize_step DATA d c rest s) (Tokenize_loop f) = Stop (Exit 1) /\
   1000000 < malloc_size s + 52).
Proof.
  intros Hr. unfold Tokenize_step. fold (norm_nl c). unfold spec_data.
  destruct (norm_nl c =? 60).
  - left. exists f, s. split_and!; try done; simpl; lia.
  - rewrite rbind_pair_assoc. pose proof (CreateCharToken_Append pre acc s (norm_nl c) Hr) as H.
    destruct (rbind _ _) as [s'|e].
    + left. exists f, s'. destruct H as [H1 H2]. split_and!; try done. simpl. lia.
    + right. destruct H as [-> H]. unfold oom in H. split; [done|lia].
Qed.

Lemma norm_nl_idem c : norm_nl (norm_nl c) = norm_nl c.
Proof. unfold norm_nl. by zcmps. Qed.

(** Reading a character of a tag name. *)
Lemma name_char pre f d c rest s acc :
  repr pre acc s -> tag_first acc -> (norm_nl c =? 47) = false -> (norm_nl c =? 62) = false ->
  (exists s', rbind (Tokenize_step TAG_NAME d c rest s) (Tokenize_loop f) =
      Tokenize_loop f (Tz TAG_NAME (lower (norm_nl c) :: d) rest s') /\
     repr pre (spec_name (lower (norm_nl c)) acc) s' /\ malloc_size s' = malloc_size s) \/
  (rbind (Tokenize_step TAG_NAME d c rest s) (Tokenize_loop f) = Stop Overflow /\
   (19 <= name_len acc)%nat).
Proof.
  intros Hr Ht H1 H2. unfold Tokenize_step. fold (norm_nl c). rewrite H1, H2.
  fold (lower (norm_nl c)). pose proof (update_name pre acc s (lower (norm_nl c)) Hr Ht) as H.
  destruct (update_token _ _ _) as [s'|e]; simpl.
  - left. by exists s'.
  - right. by destruct H as [-> ?].
Qed.

(** Creating a tag token and reading the first character of its name. *)
Lemma tag_first_char pre f (e : bool) d c rest s acc :
  repr pre acc s -> is_alpha (norm_nl c) = true ->
  let r := rbind (do '(p, s) <- CreateToken (if e then END_TAG else START_TAG) s;
                  do s <- AppendToken p s;
                  Done (Tz TAG_NAME d (norm_nl c :: rest) s)) (Tokenize_loop (S f)) in
  (exists s', r = Tokenize_loop f (Tz TAG_NAME (lower (norm_nl c) :: d) rest s') /\
     repr pre (TTag e [lower (norm_nl c)] false :: acc) s' /\
     malloc_size s' = malloc_size s + 52) \/
  (r = Stop (Exit 1) /\ 1000000 < malloc_size s + 52).
Proof.
  intros Hr Ha r. subst r. pose proof (CreateToken_Append pre acc s e Hr) as H.
  rewrite rbind_pair_assoc. destruct (rbind _ _) as [s1|x].
  - destruct H as [Hr1 Hm]. cbn [rbind]. rewrite Tokenize_loop_step.
    destruct (is_alpha_plain _ Ha) as [H1 H2].
    edestruct (name_char pre f d (norm_nl c) rest s1) as [(s' & -> & Hr' & Hm')|[_ L]];
      [exact Hr1|done|by rewrite norm_nl_idem|by rewrite norm_nl_idem| |].
    + left. exists s'. rewrite norm_nl_idem in *. split_and!; try done. lia.
    + simpl in L. lia.
  - right. destruct H as [-> H]. unfold oom in H. done.
Qed.

Lemma char_step pre f st d c rest s acc :
  repr pre acc s -> st_ok st acc ->
  char_outcome pre f st d rest s (spec_step (st, acc) c)
    (Tokenize_loop (S (S f)) (Tz st d (c :: rest) s)).
Proof.
  intros Hr Hst. rewrite Tokenize_loop_step. unfold char_outcome, spec_step. cbn [fst snd].
  destruct st; cbn [pend].
  - destruct (data_char pre (S f) d c rest s acc Hr) as [(f' & s' & -> & ? & ? & ?)|[-> ?]].
    + left. exists f', s', (norm_nl c). unfold spec_data in *.
      destruct (_ =? 60); simpl in *; split_and!; try done; lia.
    + right. left. split; [done|lia].
  - unfold Tokenize_step. fold (norm_nl c). destruct (norm_nl c =? 47) eqn:E.
    { left. exists (S f), s, (norm_nl c). simpl. split_and!; (done || lia). }
    destruct (is_alpha (norm_nl c)) eqn:Ea.
    + destruct (tag_first_char pre f false d c rest s acc Hr Ea) as [(s' & -> & ? & ?)|[-> ?]].
      * left. exists f, s', (lower (norm_nl c)). simpl. split_and!; (done || lia).
      * right. left. split; [done|lia].
    + rewrite rbind_pair_assoc. pose proof (CreateCharToken_Append pre acc s 60 Hr) as H.
      destruct (rbind _ _) as [s1|x]; cbn [rbind].
      2:{ right. left. destruct H as [-> H]. unfold oom in H. split; [done|lia]. }
      destruct H as [Hr1 Hm1]. rewrite Tokenize_loop_step.
      destruct (data_char pre f d (norm_nl c) rest s1 (TChar 60 :: acc) Hr1)
        as [(f' & s' & -> & ? & ? & ?)|[-> ?]].
      * rewrite norm_nl_idem in *. left. exists f', s', (norm_nl c). unfold spec_data in *.
        destruct (_ =? 60); simpl in *; split_and!; try done; lia.
      * right. left. split; [done|lia].
  - unfold Tokenize_step. fold (norm_nl c). destruct (is_alpha (norm_nl c)) eqn:Ea.
    + destruct (tag_first_char pre f true d c rest s acc Hr Ea) as [(s' & -> & ? & ?)|[-> ?]].
      * left. exists f, s', (lower (norm_nl c)). simpl. split_and!; (done || lia).
      * right. left. split; [done|lia].
    + left. exists (S f), s, (norm_nl c). simpl. split_and!; (done || lia).
  - destruct (norm_nl c =? 47) eqn:E1.
    { left. exists (S f), s, (norm_nl c). unfold Tokenize_step. fold (norm_nl c). rewrite E1.
      split_and!; (done || simpl; lia). }
    destruct (norm_nl c =? 62) eqn:E2.
    { left. exists (S f), s, (norm_nl c). unfold Tokenize_step. fold (norm_nl c). rewrite E1, E2.
      split_and!; (done || simpl; lia). }
    destruct (name_char pre (S f) d c rest s acc) as [(s' & -> & ? & ?)|[-> ?]]; try done.
    + left. exists (S f), s', (lower (norm_nl c)). split_and!; try done; [lia| |simpl; lia].
      simpl in *. by destruct acc as [|[]].
    + right. right. split; [done|]. simpl in *. destruct acc as [|[|e n b] l]; try done.
      simpl in *. rewrite length_app. simpl. lia.
  - unfold Tokenize_step. fold (norm_nl c). destruct (norm_nl c =? 62) eqn:E.
    + destruct (update_close pre acc s Hr Hst) as (s' & -> & ? & ?).
      left. exists (S f), s', (norm_nl c). simpl. split_and!; (done || lia).
    + left. exists (S f), s, (norm_nl c). simpl. split_and!; (done || lia).
Qed.

(** A token whose name does not fit the 20-byte buffer. *)
Definition long_name (t : tok) : bool :=
  match t with TTag _ n _ => 20 <=? Z.of_nat (length n) | TChar _ => false end.

Lemma spec_step_long st c :
  existsb long_name st.2 = true -> existsb long_name (spec_step st c).2 = true.
Proof.
  destruct st as [st acc]. cbn [snd]. intros H. unfold spec_step, spec_data. cbn [fst snd].
  destruct st; repeat case_match; cbn [snd existsb long_name]; try done;
    rewrite ?H, ?orb_true_r; try done.
  all: destruct acc as [|[|e n b] l]; try done; cbn [existsb long_name spec_name] in *.
  apply orb_true_iff in H as [H|H]; [|by rewrite H, orb_true_r].
  apply orb_true_iff. left. rewrite length_app. apply Z.leb_le. apply Z.leb_le in H. lia.
Qed.
Lemma spec_run_long html st :
  existsb long_name st.2 = true -> existsb long_name (spec_run st html).2 = true.
Proof.
  revert st. induction html as [|c html IH]; intros st H; simpl; [done|].
  apply IH. by apply spec_step_long.
Qed.

Lemma existsb_reverse {A} (p : A -> bool) l : existsb p (reverse l) = existsb p l.
Proof.
  induction l as [|x l IH]; [done|]. rewrite reverse_cons, existsb_app, IH. simpl.
  rewrite orb_false_r. apply orb_comm.
Qed.

Lemma Tokenize_loop_spec pre html f st d s acc :
  repr pre acc s -> st_ok st acc -> (2 * length html <= f)%nat ->
  let fin := spec_run (st, acc) html in
  match Tokenize_loop f (Tz st d html s) with
  | Done z => z_state z = fin.1 /\ repr pre fin.2 (z_store z) /\ z_rest z = [] /\
      length (z_done z) = (length d + length html)%nat
  | Stop (Exit code) => code = 1 /\
      1000000 < malloc_size s + 52 * (pend st + Z.of_nat (length html))
  | Stop Overflow => existsb long_name fin.2 = true
  | Stop _ => False
  end.
Proof.
  revert f st d s acc. induction html as [|c html IH]; intros f st d s acc Hr Hst Hf; cbv zeta.
  { destruct f; simpl; split_and!; (done || lia). }
  destruct f as [|[|f]]; [simpl in Hf; lia..|].
  destruct (char_step pre f st d c html s acc Hr Hst)
    as [(f' & s' & c' & -> & Hf' & Hr' & Hst' & Hm)|[[-> Hm]|[-> Hl]]].
  - change (spec_run (st, acc) (c :: html)) with (spec_run (spec_step (st, acc) c) html).
    destruct (spec_step (st, acc) c) as [st' acc']. cbn [fst snd] in *.
    specialize (IH f' st' (c' :: d) s' acc' Hr' Hst'). simpl length in *.
    specialize (IH ltac:(lia)). cbv zeta in IH.
    destruct (Tokenize_loop _ _) as [z|[]]; try done.
    + destruct IH as (? & ? & ? & ?). split_and!; try done. lia.
    + destruct IH as [-> ?]. split; [done|]. lia.
  - split; [done|]. simpl length. lia.
  - change (spec_run (st, acc) (c :: html)) with (spec_run (spec_step (st, acc) c) html).
    apply spec_run_long. destruct (spec_step (st, acc) c) as [st' [|[|e n b] l]]; simpl in Hl; try lia.
    cbn [snd existsb long_name]. apply orb_true_iff. left. lia.
Qed.

Lemma Tokenize_refines_ html s :
  match Tokenize html s with
  | Done z => repr (tokens s) (reverse (spec_tokens html)) (z_store z) /\ z_rest z = [] /\
      length (z_done z) = length html
  | Stop (Exit code) => code = 1 /\ 1000000 < malloc_size s + 52 * Z.of_nat (length html)
  | Stop Overflow => existsb long_name (spec_tokens html) = true
  | Stop _ => False
  end.
Proof.
  unfold Tokenize, spec_tokens, Tokenize_fuel.
  pose proof (Tokenize_loop_spec (tokens s) html (2 * length html + 2) DATA []
    (Store (tokens s) None None (malloc_size s)) []) as H.
  cbv zeta in H. rewrite reverse_involutive.
  specialize (H ltac:(by repeat split) ltac:(done) ltac:(lia)).
  destruct (Tokenize_loop _ _) as [z|[]]; try done.
  - destruct H as (? & ? & ? & ?). by split_and!.
  - by rewrite existsb_reverse.
Qed.

(** C20: the tokenizer refines the one-pass list tokenizer.  For every buffer
    [Tokenize] returns: it stops by [exit(1)] only when the document is too big
    for the arena, overruns a name buffer only when the document has a tag name of
    20 characters or more, and otherwise leaves exactly the tokens of the
    specification, linked in order behind the older ones. *)
Theorem Tokenize_refines html s :
  match Tokenize html s with
  | Done z => repr (tokens s) (reverse (spec_tokens html)) (z_store z) /\ z_rest z = [] /\
      length (z_done z) = length html
  | Stop (Exit code) => code = 1 /\ 1000000 < malloc_size s + 52 * Z.of_nat (length html)
  | Stop Overflow => existsb long_name (spec_tokens html) = true
  | Stop _ => False
  end.
Proof. apply Tokenize_refines_. Qed.

(** ** Printing and reading back *)

(** The text of a token. *)
Definition show_tok (t : tok) : list Z :=
  match t with
  | TChar c => [c]
  | TTag e n b => [60] ++ (if e then [47] else []) ++ n ++ (if b then [47] else []) ++ [62]
  end.
Definition show (l : list tok) : list Z := concat (map show_tok l).

Definition name_char_ok (c : Z) : bool :=
  negb (c =? 13) && negb (c =? 47) && negb (c =? 62) && negb (is_upper c).
(** The tokens the tokenizer can produce from their text: characters other than
    CR and [<], names that start with a lower-case letter. *)
Definition tok_ok (t : tok) : bool :=
  match t with
  | TChar c => negb (c =? 13) && negb (c =? 60)
  | TTag _ n _ =>
    match n with
    | [] => false
    | c :: _ => (97 <=? c) && (c <=? 122) && forallb name_char_ok n
    end
  end.

Lemma spec_run_app st l1 l2 : spec_run st (l1 ++ l2) = spec_run (spec_run st l1) l2.
Proof. unfold spec_run. apply foldl_app. Qed.

Lemma spec_run_name n e m b l :
  forallb name_char_ok n = true ->
  spec_run (TAG_NAME, TTag e m b :: l) n = (TAG_NAME, TTag e (m ++ n) b :: l).
Proof.
  revert m. induction n as [|c n IH]; intros m H; simpl; [by rewrite app_nil_r|].
  simpl in H. apply andb_true_iff in H as [Hc H]. unfold name_char_ok in Hc.
  assert (spec_step (TAG_NAME, TTag e m b :: l) c = (TAG_NAME, TTag e (m ++ [c]) b :: l)) as ->.
  { unfold spec_step, norm_nl, lower. cbn [fst snd].
    destruct (c =? 13); [done|]. destruct (c =? 47); [by rewrite ?andb_false_r in Hc|].
    destruct (c =? 62); [by rewrite ?andb_false_r in Hc|].
    destruct (is_upper c); [by rewrite andb_false_r in Hc|done]. }
  change (foldl spec_step ?x n) with (spec_run x n).
  rewrite IH by done. by rewrite <- app_assoc.
Qed.

Lemma spec_run_tok t acc :
  tok_ok t = true -> spec_run (DATA, acc) (show_tok t) = (DATA, t :: acc).
Proof.
  destruct t as [c|e [|c n] b]; intros H; [|done|].
  - simpl in H. unfold spec_run. simpl. unfold spec_step, norm_nl, spec_data. cbn [fst snd].
    destruct (c =? 13); [done|]. by destruct (c =? 60).
  - cbn [tok_ok] in H. apply andb_true_iff in H as [Hc H]. cbn [forallb] in H.
    apply andb_true_iff in H as [_ H].
    assert (norm_nl c = c /\ (c =? 47) = false /\ is_alpha c = true /\ lower c = c) as (N & N47 & A & L).
    { unfold norm_nl, is_alpha, lower, is_upper. zcmps; (done || lia). }
    cbn [show_tok]. rewrite spec_run_app.
    change (spec_run (DATA, acc) [60]) with (TAG_OPEN, acc). rewrite spec_run_app.
    assert (forall st, (st = if e then END_TAG_OPEN else TAG_OPEN) ->
      spec_run (st, acc) ((c :: n) ++ (if b then [47] else []) ++ [62]) = (DATA, TTag e (c :: n) b :: acc))
      as E.
    { intros st ->. change ((c :: n) ++ ?x) with ([c] ++ n ++ x).
      rewrite spec_run_app.
      assert (spec_run (if e then END_TAG_OPEN else TAG_OPEN, acc) [c]
        = (TAG_NAME, TTag e [c] false :: acc)) as ->.
      { unfold spec_run. simpl. unfold spec_step. destruct e; cbn [fst snd]; rewrite N, ?N47, A, L; done. }
      rewrite spec_run_app, spec_run_name by done. by destruct b. }
    destruct e; [change (spec_run (TAG_OPEN, acc) [47]) with (END_TAG_OPEN, acc)|simpl spec_run at 1];
      by apply E.
Qed.

Lemma spec_run_show l acc :
  forallb tok_ok l = true -> spec_run (DATA, acc) (show l) = (DATA, reverse l ++ acc).
Proof.
  unfold show. revert acc. induction l as [|t l IH]; intros acc H; [done|].
  cbn [forallb] in H. apply andb_true_iff in H as [Ht H]. cbn [map concat].
  rewrite spec_run_app, spec_run_tok, IH by done. by rewrite reverse_cons, <- app_assoc.
Qed.

(** C35: tokenizing the text of a list of tokens gives back these tokens. *)
Theorem Tokenize_show_roundtrip l s :
  forallb tok_ok l = true -> existsb long_name l = false ->
  malloc_size s + 52 * Z.of_nat (length (show l)) <= 1000000 ->
  exists z, Tokenize (show l) s = Done z /\ repr (tokens s) (reverse l) (z_store z).
Proof.
  intros Hok Hlong Hm. pose proof (Tokenize_refines_ (show l) s) as H.
  unfold spec_tokens in H. rewrite spec_run_show, app_nil_r in H by done. cbn [snd] in H.
  rewrite !reverse_involutive in H.
  destruct (Tokenize (show l) s) as [z|[]]; try done.
  - by exists z; destruct H.
  - destruct H. lia.
  - congruence.
Qed.

Definition demo_store : store := Store [] None None 0.
Definition demo_tokens : list tok :=
  [TTag false (lit "p") false; TChar 72; TChar 105; TTag false (lit "br") true; TTag true (lit "p") false].
Lemma Tokenize_show_roundtrip_witness :
  exists z, Tokenize (lit "<p>Hi<br/></p>") demo_store = Done z /\
    repr [] (reverse demo_tokens) (z_store z).
Proof. apply (Tokenize_show_roundtrip demo_tokens demo_store); [reflexivity..|]. vm_compute. congruence. Defined.
