(* ===== verification/Parse.v ===== *)
(** * Tree construction of the C browser ([app/browser/parse.c], [parse.h])

    [ConstructTree] consumes the token list and builds a DOM of linked nodes
    with the help of a fixed array, the stack of open elements.  Nodes live in
    a store, a [Node*] is an index of it. *)

From stdpp Require Import strings.
From S2P Require Import Prelude CMem Tokenize.

(** ** Data *)

Inductive Mode :=
| INITIAL | BEFORE_HTML | BEFORE_HEAD | IN_HEAD | AFTER_HEAD | IN_BODY | AFTER_BODY
| AFTER_AFTER_BODY.
Inductive NodeType := DOCUMENT | ELEMENT | TEXT.
Inductive ElementType :=
| HTML | HEAD | BODY | HEADING | DIV | PARAGRAPH | UL | LI | NONE.
#[global] Instance Mode_eq_dec : EqDecision Mode.
Proof. solve_decision. Defined.
#[global] Instance NodeType_eq_dec : EqDecision NodeType.
Proof. solve_decision. Defined.
#[global] Instance ElementType_eq_dec : EqDecision ElementType.
Proof. solve_decision. Defined.

(** [n_data] is the string in the 100-byte buffer of a text node. *)
Record Node := MkNode {
  node_type : NodeType;
  element_type : ElementType;
  n_tag_name : option (list Z);
  n_data : option (list Z);
  parent : option nat;
  first_child : option nat;
  last_child : option nat;
  previous_sibling : option nat;
  next_sibling : option nat;
}.

(** The nodes allocated so far, the globals of parse.c and [malloc_size]. *)
Record dom := Dom {
  nodes : list Node;
  root_node : option nat;
  stack_of_open_elements : list (option nat);
  stack_index : nat;
  d_malloc_size : Z;
}.

Definition STACK_SIZE : nat := 100.
Definition sizeof_Node : Z := 64.
Definition TEXT_SIZE : Z := 100.

Definition set_nodes (d : dom) (ns : list Node) : dom :=
  Dom ns (root_node d) (stack_of_open_elements d) (stack_index d) (d_malloc_size d).
Definition set_stack (d : dom) (st : list (option nat)) (i : nat) : dom :=
  Dom (nodes d) (root_node d) st i (d_malloc_size d).

(** ** The stack of open elements *)

(** The C stores that this file models.  parse.c tests no bound before them: a
    store outside the object is undefined, and the run of the model ends there
    with [Overflow].  [array_store] is [a[i] = x], [buffer_store] a string and
    its terminator written into a buffer of [size] bytes. *)
Definition array_store {A} (a : list A) (i : nat) (x : A) : res (list A) :=
  match a !! i with
  | Some _ => Done (<[i := x]> a)
  | None => Stop Overflow
  end.
Definition buffer_store (size : Z) (s : list Z) : res (list Z) :=
  if size <? Z.of_nat (length s) + 1 then Stop Overflow else Done s.
Definition strcat_text (size : Z) (dest src : list Z) : res (list Z) := buffer_store size (dest ++ src).

Definition PushStack (node : nat) (d : dom) : res dom :=
  do st <- array_store (stack_of_open_elements d) (stack_index d) (Some node);
  Done (set_stack d st (S (stack_index d))).

Definition PopStack (d : dom) : dom :=
  if (0 <? stack_index d)%nat
  then set_stack d (stack_of_open_elements d) (stack_index d - 1)
  else d.

(** The entry [i] of the array, dereferenced. *)
Definition stack_node (d : dom) (i : nat) : res (nat * Node) :=
  do p <- deref (stack_of_open_elements d !! i);
  do n <- deref p;
  do node <- deref (nodes d !! n);
  Done (n, node).

Fixpoint PopStackUntil_from (i : nat) (t : ElementType) (d : dom) : res dom :=
  match i with
  | O => Done (set_stack d (stack_of_open_elements d) 0)
  | S i' =>
    do '(_, node) <- stack_node d i';
    if decide (t = element_type node)
    then Done (set_stack d (stack_of_open_elements d) i')
    else PopStackUntil_from i' t d
  end.
Definition PopStackUntil (t : ElementType) (d : dom) : res dom :=
  PopStackUntil_from (stack_index d) t d.

(** [stack_of_open_elements[stack_index - 1]]: with an empty stack that is the
    element before the array. *)
Definition CurrentNode (d : dom) : res (nat * Node) :=
  match stack_index d with
  | O => Stop BadPointer
  | S i => stack_node d i
  end.

(** ** Nodes *)

Definition set_parent (n : Node) (p : option nat) : Node :=
  MkNode (node_type n) (element_type n) (n_tag_name n) (n_data n) p (first_child n)
    (last_child n) (previous_sibling n) (next_sibling n).
Definition set_children (n : Node) (f l : option nat) : Node :=
  MkNode (node_type n) (element_type n) (n_tag_name n) (n_data n) (parent n) f l
    (previous_sibling n) (next_sibling n).
Definition set_prev (n : Node) (p : option nat) : Node :=
  MkNode (node_type n) (element_type n) (n_tag_name n) (n_data n) (parent n) (first_child n)
    (last_child n) p (next_sibling n).
Definition set_next_sibling (n : Node) (p : option nat) : Node :=
  MkNode (node_type n) (element_type n) (n_tag_name n) (n_data n) (parent n) (first_child n)
    (last_child n) (previous_sibling n) p.
Definition set_data (n : Node) (s : option (list Z)) : Node :=
  MkNode (node_type n) (element_type n) (n_tag_name n) s (parent n) (first_child n)
    (last_child n) (previous_sibling n) (next_sibling n).

Definition update_node (i : nat) (f : Node -> Node) (d : dom) : res dom :=
  do n <- deref (nodes d !! i);
  Done (set_nodes d (<[i := f n]> (nodes d))).

Definition d_malloc (n : Z) (d : dom) : res dom :=
  if 1000000 <? d_malloc_size d + n then Stop (Exit 1)
  else Done (Dom (nodes d) (root_node d) (stack_of_open_elements d) (stack_index d)
              (d_malloc_size d + n)).
Definition alloc_node (n : Node) (d : dom) : res (nat * dom) :=
  do d <- d_malloc sizeof_Node d;
  Done (length (nodes d), set_nodes d (nodes d ++ [n])).

(** [malloc] zeroes the node, so [parent], which these functions do not set,
    is null. *)
Definition fresh_node (nt : NodeType) (et : ElementType) (name txt : option (list Z)) : Node :=
  MkNode nt et name txt None None None None None.
Definition CreateDocument (d : dom) : res (nat * dom) :=
  alloc_node (fresh_node DOCUMENT NONE None None) d.
Definition CreateElement (et : ElementType) (name : string) (d : dom) : res (nat * dom) :=
  alloc_node (fresh_node ELEMENT et (Some (lit name)) None) d.
Definition CreateElementFromToken (et : ElementType) (t : Token) (d : dom) : res (nat * dom) :=
  alloc_node (fresh_node ELEMENT et (tag_name t) None) d.
Definition char_string (c : Z) : list Z := if c =? 0 then [] else [c].
Definition CreateText (t : Token) (d : dom) : res (nat * dom) :=
  do '(p, d) <- alloc_node (fresh_node TEXT NONE None (Some (char_string (data t)))) d;
  do d <- d_malloc TEXT_SIZE d;
  Done (p, d).

Definition InsertElement (element : nat) (d : dom) : res dom :=
  do '(target, tn) <- CurrentNode d;
  do d <- update_node element (fun n => set_parent n (Some target)) d;
  do tn <- deref (nodes d !! target);
  do d <- (match last_child tn with
           | None => update_node target (fun n => set_children n (Some element) (Some element)) d
           | Some ex_last_child =>
             do d <- update_node target (fun n => set_children n (first_child n) (Some element)) d;
             do d <- update_node ex_last_child (fun n => set_next_sibling n (Some element)) d;
             update_node element (fun n => set_prev n (Some ex_last_child)) d
           end);
  PushStack element d.

Definition InsertCharFromToken (t : Token) (d : dom) : res dom :=
  do '(target, tn) <- CurrentNode d;
  if decide (node_type tn = DOCUMENT) then Done d
  else if decide (node_type tn = TEXT) then
    do s <- deref (n_data tn);
    do s <- strcat_text TEXT_SIZE s (char_string (data t));
    update_node target (fun n => set_data n (Some s)) d
  else
    do '(p, d) <- CreateText t d;
    InsertElement p d.

(** ** The insertion modes *)

Section ConstructTree.
(** The tokens, as [Tokenize] left them. *)
Variable toks : list Token.

Definition is_type (t : Token) (ty : TokenType) : bool := bool_decide (type t = ty).
(** [strcmp(t->tag_name, s) == 0]; the pointer is null for tokens without a name. *)
Definition name_is (t : Token) (s : string) : res bool :=
  do n <- deref (tag_name t); Done (bool_decide (n = lit s)).
Fixpoint name_in (t : Token) (l : list string) : res bool :=
  match l with
  | [] => Done false
  | s :: l' => do b <- name_is t s; if b then Done true else name_in t l'
  end.
(** [strcmp(..., s1) != 0 || strcmp(..., s2) != 0 || ...] *)
Fixpoint name_differs (t : Token) (l : list string) : res bool :=
  match l with
  | [] => Done false
  | s :: l' => do b <- name_is t s; if b then name_differs t l' else Done true
  end.
(** [token->type == ty && (strcmp(...) == 0 || ...)] *)
Definition tag_in (ty : TokenType) (t : Token) (l : list string) : res bool :=
  if is_type t ty then name_in t l else Done false.
Definition tag_differs (ty : TokenType) (t : Token) (l : list string) : res bool :=
  if is_type t ty then name_differs t l else Done false.
Definition is_space (t : Token) : bool :=
  is_type t CHAR &&
  ((data t =? 9) || (data t =? 10) || (data t =? 12) || (data t =? 13) || (data t =? 32)).

(** What one iteration of the loop leaves: the next [mode] and [token], or [return]. *)
Inductive step_result :=
| Continue (m : Mode) (token : option nat) (d : dom)
| Return (d : dom).

Definition insert_token (et : ElementType) (t : Token) (d : dom) : res dom :=
  do '(p, d) <- CreateElementFromToken et t d; InsertElement p d.
Definition insert_named (et : ElementType) (s : string) (d : dom) : res dom :=
  do '(p, d) <- CreateElement et s d; InsertElement p d.

Definition before_html (i : nat) (t : Token) (d : dom) : res step_result :=
  if is_type t DOCTYPE then Done (Continue BEFORE_HTML (next t) d)
  else if is_space t then Done (Continue BEFORE_HTML (next t) d)
  else
    do b <- tag_in START_TAG t ["html"%string];
    if b then do d <- insert_token HTML t d; Done (Continue BEFORE_HEAD (next t) d)
    else
      do b <- tag_differs END_TAG t ["head"; "body"; "html"; "br"]%string;
      if b then Done (Continue BEFORE_HTML (next t) d)
      else do d <- insert_named HTML "html" d; Done (Continue BEFORE_HEAD (Some i) d).

Definition before_head (i : nat) (t : Token) (d : dom) : res step_result :=
  if is_space t then Done (Continue BEFORE_HEAD (next t) d)
  else if is_type t DOCTYPE then Done (Continue BEFORE_HEAD (next t) d)
  else
    do b <- tag_in START_TAG t ["head"%string];
    if b then do d <- insert_token HEAD t d; Done (Continue IN_HEAD (next t) d)
    else
      do b <- tag_differs END_TAG t ["head"; "body"; "html"; "br"]%string;
      if b then Done (Continue BEFORE_HEAD (next t) d)
      else do d <- insert_named HEAD "head" d; Done (Continue IN_HEAD (Some i) d).

Definition in_head (i : nat) (t : Token) (d : dom) : res step_result :=
  if is_type t DOCTYPE then Done (Continue IN_HEAD (next t) d)
  else
    do b <- tag_in START_TAG t ["html"%string];
    if b then Done (Continue IN_BODY (next t) d)
    else
      do b <- tag_in START_TAG t ["head"%string];
      if b then Done (Continue IN_HEAD (next t) d)
      else
        do b <- tag_in END_TAG t ["head"%string];
        if b then do d <- PopStackUntil HEAD d; Done (Continue AFTER_HEAD (next t) d)
        else
          do b <- tag_differs END_TAG t ["body"; "html"; "br"]%string;
          if b then Done (Continue IN_HEAD (next t) d)
          else do d <- PopStackUntil HEAD d; Done (Continue AFTER_HEAD (Some i) d).

Definition after_head (i : nat) (t : Token) (d : dom) : res step_result :=
  if is_type t DOCTYPE then Done (Continue AFTER_HEAD (next t) d)
  else
    do b <- tag_in START_TAG t ["html"%string];
    if b then Done (Continue IN_BODY (next t) d)
    else
      do b <- tag_in START_TAG t ["body"%string];
      if b then do d <- insert_token BODY t d; Done (Continue IN_BODY (next t) d)
      else
        do b <- tag_in START_TAG t ["head"%string];
        if b then Done (Continue AFTER_HEAD (next t) d)
        else
          do b <- tag_differs END_TAG t ["body"; "html"; "br"]%string;
          if b then Done (Continue AFTER_HEAD (next t) d)
          else do d <- insert_named BODY "body" d; Done (Continue IN_BODY (Some i) d).

Definition headings : list string := ["h1"; "h2"; "h3"; "h4"; "h5"; "h6"]%string.

(** The end-tag part of [IN_BODY], from the test for [div] on. *)
Definition in_body_end (i : nat) (t : Token) (d : dom) : res step_result :=
  do b <- tag_in END_TAG t ["div"%string];
  if b then do d <- PopStackUntil DIV d; Done (Continue IN_BODY (next t) d) else
  do b <- tag_in END_TAG t ["ul"%string];
  if b then do d <- PopStackUntil UL d; Done (Continue IN_BODY (next t) d) else
  do b <- tag_in END_TAG t ["p"%string];
  if b then do d <- PopStackUntil PARAGRAPH d; Done (Continue IN_BODY (next t) d) else
  do b <- tag_in END_TAG t ["li"%string];
  if b then do d <- PopStackUntil LI d; Done (Continue IN_BODY (next t) d) else
  do b <- tag_in END_TAG t headings;
  if b then do d <- PopStackUntil HEADING d; Done (Continue IN_BODY (next t) d) else
  if is_type t END_TAG then Done (Continue IN_BODY (next t) (PopStack d))
  else Done (Continue IN_BODY (Some i) d).

(** There is no [break] behind the case [li]: the tests that follow look at
    the next token. *)
Definition in_body (i : nat) (t : Token) (d : dom) : res step_result :=
  if is_type t CHAR then do d <- InsertCharFromToken t d; Done (Continue IN_BODY (next t) d) else
  if is_type t DOCTYPE then Done (Continue IN_BODY (next t) d) else
  do b <- tag_in START_TAG t ["body"; "html"]%string;
  if b then Done (Continue IN_BODY (next t) d) else
  if is_type t EOF then Done (Return d) else
  do b <- tag_in END_TAG t ["body"%string];
  if b then do d <- PopStackUntil BODY d; Done (Continue AFTER_BODY (next t) d) else
  do b <- tag_in END_TAG t ["html"%string];
  if b then do d <- PopStackUntil HTML d; Done (Continue AFTER_BODY (Some i) d) else
  do b <- tag_in START_TAG t ["ul"%string];
  if b then do d <- insert_token UL t d; Done (Continue IN_BODY (next t) d) else
  do b <- tag_in START_TAG t ["p"%string];
  if b then do d <- insert_token PARAGRAPH t d; Done (Continue IN_BODY (next t) d) else
  do b <- tag_in START_TAG t ["div"%string];
  if b then do d <- insert_token DIV t d; Done (Continue IN_BODY (next t) d) else
  do b <- tag_in START_TAG t headings;
  if b then do d <- insert_token HEADING t d; Done (Continue IN_BODY (next t) d) else
  do b <- tag_in START_TAG t ["li"%string];
  if b then
    do d <- insert_token LI t d;
    do i <- deref (next t);
    do t <- deref (toks !! i);
    in_body_end i t d
  else in_body_end i t d.

Definition after_body (i : nat) (t : Token) (d : dom) : res step_result :=
  if is_type t DOCTYPE then Done (Continue AFTER_BODY (next t) d) else
  do b <- tag_in END_TAG t ["html"%string];
  if b then Done (Continue AFTER_AFTER_BODY (next t) d) else
  if is_type t EOF then Done (Return d)
  else Done (Continue IN_BODY (Some i) d).

Definition after_after_body (i : nat) (t : Token) (d : dom) : res step_result :=
  if is_type t EOF then Done (Return d) else Done (Continue IN_BODY (Some i) d).

Definition ConstructTree_step (m : Mode) (i : nat) (d : dom) : res step_result :=
  do t <- deref (toks !! i);
  match m with
  | INITIAL => Done (Continue BEFORE_HTML (Some i) d)
  | BEFORE_HTML => before_html i t d
  | BEFORE_HEAD => before_head i t d
  | IN_HEAD => in_head i t d
  | AFTER_HEAD => after_head i t d
  | IN_BODY => in_body i t d
  | AFTER_BODY => after_body i t d
  | AFTER_AFTER_BODY => after_after_body i t d
  end.

Fixpoint ConstructTree_loop (fuel : nat) (m : Mode) (token : option nat) (d : dom) : res dom :=
  match token with
  | None => Done d
  | Some i =>
    match fuel with
    | O => Stop FuelOut
    | S fuel' =>
      do r <- ConstructTree_step m i d;
      match r with
      | Return d => Done d
      | Continue m token d => ConstructTree_loop fuel' m token d
      end
    end
  end.

Definition ConstructTree (fuel : nat) (first : option nat) (d : dom) : res dom :=
  do '(document, d) <- CreateDocument d;
  do d <- PushStack document
    (Dom (nodes d) (Some document) (stack_of_open_elements d) 0 (d_malloc_size d));
  ConstructTree_loop fuel INITIAL first d.
End ConstructTree.

(** The state of a program that has just started, after [Tokenize] used [m]
    bytes of the arena. *)
Definition dom0 (m : Z) : dom := Dom [] None (replicate STACK_SIZE None) 0 m.

(** ** The tree invariant

    [kids ns p] are the nodes whose [parent] is [p], in the order they were
    created; the child and sibling pointers of a well-formed DOM are exactly
    that list, linked in both directions. *)

Definition parent_of (ns : list Node) (c : nat) : option nat := n ← ns !! c; parent n.
Definition kids (ns : list Node) (p : nat) : list nat :=
  filter (fun c => parent_of ns c = Some p) (seq 0 (length ns)).

Fixpoint sib_chain (ns : list Node) (o before : option nat) (l : list nat) : Prop :=
  match l with
  | [] => o = None
  | c :: l' =>
    o = Some c /\ exists m, ns !! c = Some m /\ previous_sibling m = before /\
      sib_chain ns (next_sibling m) (Some c) l'
  end.

Definition wf_node (ns : list Node) (i : nat) (n : Node) : Prop :=
  (forall p, parent n = Some p -> (p < i)%nat) /\
  sib_chain ns (first_child n) None (kids ns i) /\
  last_child n = list.last (kids ns i).
Definition wf_nodes (ns : list Node) : Prop :=
  forall i n, ns !! i = Some n -> wf_node ns i n.

(** The open elements are nodes of the tree, and fit the array. *)
Record wf_dom (d : dom) : Prop := WfDom {
  wf_tree : wf_nodes (nodes d);
  wf_array : length (stack_of_open_elements d) = STACK_SIZE;
  wf_index : (stack_index d <= STACK_SIZE)%nat;
  wf_open : forall k, (k < stack_index d)%nat ->
    exists n, stack_of_open_elements d !! k = Some (Some n) /\ (n < length (nodes d))%nat;
}.

Lemma elem_of_kids ns p c : c ∈ kids ns p <-> parent_of ns c = Some p.
Proof.
  unfold kids. rewrite list_elem_of_filter, elem_of_seq. split; [tauto|].
  intros H. split; [done|]. split; [lia|]. unfold parent_of in H.
  destruct (ns !! c) eqn:E; [|done]. apply lookup_lt_Some in E. lia.
Qed.

Lemma kids_ext ns ns' p :
  length ns = length ns' -> (forall c, parent_of ns c = parent_of ns' c) -> kids ns p = kids ns' p.
Proof.
  intros Hl He. unfold kids. rewrite Hl. apply list_filter_iff. intros c. by rewrite He.
Qed.

Lemma kids_snoc ns n p :
  kids (ns ++ [n]) p = kids ns p ++ (if decide (parent n = Some p) then [length ns] else []).
Proof.
  unfold kids. rewrite length_app. simpl. rewrite Nat.add_1_r, seq_S, list.filter_app. f_equal.
  - apply filter_ext_in. intros x Hx%elem_of_seq. unfold parent_of.
    by rewrite lookup_app_l by lia.
  - assert (parent_of (ns ++ [n]) (length ns) = parent n) as E.
    { unfold parent_of. by rewrite list_lookup_middle. }
    rewrite list.filter_cons, list.filter_nil, Nat.add_0_l, E. by repeat case_decide.
Qed.

Lemma sib_chain_frame ns ns' o before l :
  (forall c m, c ∈ l -> ns !! c = Some m -> exists m', ns' !! c = Some m' /\
     previous_sibling m' = previous_sibling m /\ next_sibling m' = next_sibling m) ->
  sib_chain ns o before l -> sib_chain ns' o before l.
Proof.
  revert o before. induction l as [|c l IH]; simpl; intros o before Hf; [done|].
  intros (-> & m & Hm & Hp & Hc). split; [done|].
  destruct (Hf c m) as (m' & E & Ep & En); [by left|done|].
  exists m'. split; [done|]. split; [congruence|]. rewrite En. apply IH; [|done].
  intros. apply Hf; [by right|done].
Qed.

(** Extending a sibling list at its end. *)
Lemma sib_chain_snoc ns ns' o before l e ne :
  NoDup l -> sib_chain ns o before l ->
  ns' !! e = Some ne -> next_sibling ne = None ->
  previous_sibling ne = (match list.last l with Some c => Some c | None => before end) ->
  (forall c m, c ∈ l -> ns !! c = Some m -> exists m', ns' !! c = Some m' /\
     previous_sibling m' = previous_sibling m /\
     next_sibling m' = (if decide (list.last l = Some c) then Some e else next_sibling m)) ->
  sib_chain ns' (match l with [] => Some e | _ => o end) before (l ++ [e]).
Proof.
  intros Hnd Hc He Hn Hp Hf. revert o before Hnd Hc Hp Hf.
  induction l as [|c l IH]; intros o before Hnd Hc Hp Hf; simpl in *.
  - split; [done|]. exists ne. by rewrite Hn.
  - destruct Hc as (-> & m & Hm & Hpm & Hc). split; [done|].
    apply list.NoDup_cons in Hnd as [Hnin Hnd].
    destruct (Hf c m) as (m' & E & Ep & En); [by left|done|].
    exists m'. split; [done|]. split; [congruence|].
    assert (next_sibling m' = match l with [] => Some e | _ => next_sibling m end) as ->.
    { rewrite En. destruct l as [|c2 l]; simpl; [by rewrite decide_True|].
      rewrite decide_False; [done|]. intros Hl. by apply Hnin, last_elem. }
    apply IH; [done|done| |].
    + rewrite Hp. destruct l as [|c2 l]; [done|]. simpl. destruct (list.last (c2 :: l)) eqn:El; [done|].
      by apply last_None in El.
    + intros c' m0 Hin Hm0. destruct (Hf c' m0) as (m1 & ? & ? & E1); [by right|done|].
      exists m1. split_and!; [done|done|]. rewrite E1.
      destruct l as [|c2 l]; [by apply elem_of_nil in Hin|]. simpl. done.
Qed.

(** What appending the node [e] to the children of [target] does to the nodes. *)
Definition or_else (o : option nat) (x : nat) : option nat :=
  match o with Some y => Some y | None => Some x end.
Record inserted (ns : list Node) (target : nat) (ns' : list Node) : Prop := Inserted {
  ins_length : length ns' = S (length ns);
  ins_new : exists ne, ns' !! length ns = Some ne /\ parent ne = Some target /\
    first_child ne = None /\ last_child ne = None /\ next_sibling ne = None /\
    previous_sibling ne = list.last (kids ns target);
  ins_old : forall i m, ns !! i = Some m -> exists m', ns' !! i = Some m' /\
    parent m' = parent m /\ previous_sibling m' = previous_sibling m /\
    next_sibling m' = (if decide (list.last (kids ns target) = Some i)
                       then Some (length ns) else next_sibling m) /\
    first_child m' = (if decide (i = target) then or_else (first_child m) (length ns)
                      else first_child m) /\
    last_child m' = (if decide (i = target) then Some (length ns) else last_child m);
}.

Lemma inserted_kids ns target ns' p :
  inserted ns target ns' ->
  kids ns' p = kids ns p ++ (if decide (target = p) then [length ns] else []).
Proof.
  intros [Hl (ne & Hne & Hp & _) Hold].
  set (ns1 := ns ++ [ne]). replace (kids ns' p) with (kids ns1 p).
  - unfold ns1. rewrite kids_snoc, Hp. f_equal. by repeat case_decide; simplify_eq.
  - apply kids_ext; [unfold ns1; rewrite length_app; simpl; lia|].
    intros c. unfold parent_of, ns1. destruct (ns !! c) as [m|] eqn:E.
    + rewrite (lookup_app_l_Some _ _ _ _ E). destruct (Hold _ _ E) as (m' & -> & Ep & _). simpl. by rewrite Ep.
    + apply lookup_ge_None in E. destruct (decide (c = length ns)) as [->|].
      * by rewrite list_lookup_middle, Hne.
      * rewrite !lookup_ge_None_2; [done| |]; rewrite ?length_app; simpl; lia.
Qed.

Lemma kids_NoDup ns p : NoDup (kids ns p).
Proof. apply list.NoDup_filter, NoDup_seq. Qed.

Lemma kids_fresh ns p : wf_nodes ns -> (length ns <= p)%nat -> kids ns p = [].
Proof.
  intros Hwf Hp. destruct (kids ns p) as [|c l] eqn:E; [done|exfalso].
  assert (c ∈ kids ns p) as H by (rewrite E; by left).
  apply elem_of_kids in H. unfold parent_of in H.
  destruct (ns !! c) as [m|] eqn:Em; [|done]. simpl in H.
  destruct (Hwf _ _ Em) as [Hlt _]. apply Hlt in H. apply lookup_lt_Some in Em. lia.
Qed.

Lemma inserted_wf ns target ns' :
  wf_nodes ns -> (target < length ns)%nat -> inserted ns target ns' -> wf_nodes ns'.
Proof.
  intros Hwf Ht Hins. pose proof (fun p => inserted_kids _ _ _ p Hins) as Hk.
  destruct Hins as [Hl (ne & Hne & Hp & Hf & Hla & Hn & Hpr) Hold].
  intros i n' Hi. destruct (decide (i = length ns)) as [->|Hi'].
  - rewrite Hne in Hi. simplify_eq. unfold wf_node. rewrite Hk, kids_fresh by (done || lia).
    rewrite decide_False by lia. rewrite Hf, Hla. split; [|done].
    intros p. rewrite Hp. intros [= <-]. done.
  - destruct (ns !! i) as [m|] eqn:Em.
    2:{ apply lookup_ge_None in Em. apply lookup_lt_Some in Hi. lia. }
    destruct (Hold _ _ Em) as (m' & E & Epa & Epr & En & Ef & El). rewrite Hi in E. simplify_eq.
    destruct (Hwf _ _ Em) as (Hpar & Hch & Hlast). split; [by rewrite Epa|].
    rewrite Hk, Ef, El. case_decide as Hit.
    + subst i. rewrite decide_True by done. split; [|by rewrite last_snoc].
      replace (or_else _ _) with
        (match kids ns target with [] => Some (length ns) | _ => first_child m end).
      2:{ destruct (kids ns target); simpl in Hch; [by rewrite Hch|].
          destruct Hch as [-> _]. done. }
      eapply sib_chain_snoc; [apply kids_NoDup|exact Hch|exact Hne|done| |].
      * rewrite Hpr. by destruct (list.last _).
      * intros c m0 _ Hm0. destruct (Hold _ _ Hm0) as (m1 & ? & _ & ? & ? & _). eauto.
    + rewrite decide_False by done. rewrite app_nil_r. split; [|done].
      eapply sib_chain_frame; [|exact Hch]. intros c m0 Hc Hm0.
      destruct (Hold _ _ Hm0) as (m1 & ? & _ & ? & E1 & _). exists m1. split_and!; [done|done|].
      rewrite E1, decide_False; [done|]. intros Hc'%last_elem.
      apply elem_of_kids in Hc, Hc'. congruence.
Qed.

(** [InsertElement] of a node that was just allocated. *)
Definition unlinked (n : Node) : Prop :=
  parent n = None /\ first_child n = None /\ last_child n = None /\
  previous_sibling n = None /\ next_sibling n = None.

Lemma update_node_Done i f d d' :
  update_node i f d = Done d' ->
  exists n, nodes d !! i = Some n /\ d' = set_nodes d (<[i := f n]> (nodes d)).
Proof.
  unfold update_node. intros H. rinv. destruct (nodes d !! i) as [n|]; [|done].
  simpl in *. rinv. eauto.
Qed.

Lemma inserted_first ns target tn nd :
  ns !! target = Some tn -> unlinked nd -> kids ns target = [] -> first_child tn = None ->
  inserted ns target
    (<[target := set_children tn (Some (length ns)) (Some (length ns))]>
       (ns ++ [set_parent nd (Some target)])).
Proof.
  intros Ht (Hp & Hf & Hl & Hpr & Hn) Hk Htf. pose proof (lookup_lt_Some _ _ _ Ht).
  split.
  - rewrite length_insert, length_app. simpl. lia.
  - eexists. rewrite list_lookup_insert_ne by lia. rewrite list_lookup_middle by done.
    split; [done|]. rewrite Hk. simpl. done.
  - intros i m Hm. rewrite Hk. destruct (decide (i = target)) as [->|].
    + rewrite list_lookup_insert_eq by (rewrite length_app; simpl; lia).
      simplify_eq. eexists. split; [done|]. simpl. by rewrite Htf.
    + rewrite list_lookup_insert_ne by done. rewrite (lookup_app_l_Some _ _ _ _ Hm).
      eexists. split; [done|]. done.
Qed.

Lemma inserted_next ns target tn nd l ln :
  ns !! target = Some tn -> ns !! l = Some ln -> unlinked nd -> l <> target ->
  list.last (kids ns target) = Some l -> first_child tn <> None ->
  inserted ns target
    (<[length ns := set_prev (set_parent nd (Some target)) (Some l)]>
       (<[l := set_next_sibling ln (Some (length ns))]>
          (<[target := set_children tn (first_child tn) (Some (length ns))]>
             (ns ++ [set_parent nd (Some target)])))).
Proof.
  intros Ht Hl (Hp & Hf & Hla & Hpr & Hn) Hne Hk Htf.
  pose proof (lookup_lt_Some _ _ _ Ht). pose proof (lookup_lt_Some _ _ _ Hl).
  split.
  - rewrite !length_insert, length_app. simpl. lia.
  - eexists. rewrite list_lookup_insert_eq by (rewrite !length_insert, length_app; simpl; lia).
    split; [done|]. rewrite Hk. simpl. done.
  - intros i m Hm. rewrite Hk. pose proof (lookup_lt_Some _ _ _ Hm).
    rewrite list_lookup_insert_ne by lia. destruct (decide (i = l)) as [->|].
    + rewrite list_lookup_insert_eq by (rewrite !length_insert, length_app; simpl; lia).
      simplify_eq. eexists. split; [done|]. simpl. by repeat case_decide.
    + rewrite list_lookup_insert_ne by done. rewrite decide_False by congruence.
      destruct (decide (i = target)) as [->|].
      * rewrite list_lookup_insert_eq by (rewrite length_app; simpl; lia).
        simplify_eq. eexists. split; [done|]. simpl. by destruct (first_child tn).
      * rewrite list_lookup_insert_ne by done. rewrite (lookup_app_l_Some _ _ _ _ Hm).
        eexists. split; [done|]. done.
Qed.

Lemma chain_first_None ns o before l : sib_chain ns o before l -> o = None <-> l = [].
Proof. destruct l; simpl; [by intros ->|]. by intros [-> _]. Qed.

Lemma kids_lt ns p c : wf_nodes ns -> c ∈ kids ns p -> (p < c)%nat /\ exists m, ns !! c = Some m.
Proof.
  intros Hwf Hc%elem_of_kids. unfold parent_of in Hc.
  destruct (ns !! c) as [m|] eqn:E; [|done]. destruct (Hwf _ _ E) as [Hlt _].
  split; [by apply Hlt|eauto].
Qed.

Lemma link_inserted ns target tn nd d d' :
  nodes d = ns ++ [set_parent nd (Some target)] -> wf_nodes ns -> unlinked nd ->
  ns !! target = Some tn ->
  match last_child tn with
  | None => update_node target
              (fun n => set_children n (Some (length ns)) (Some (length ns))) d
  | Some ex_last_child =>
    do d <- update_node target (fun n => set_children n (first_child n) (Some (length ns))) d;
    do d <- update_node ex_last_child (fun n => set_next_sibling n (Some (length ns))) d;
    update_node (length ns) (fun n => set_prev n (Some ex_last_child)) d
  end = Done d' ->
  inserted ns target (nodes d') /\ d' = set_nodes d (nodes d').
Proof.
  intros Hd Hwf Hnd Ht. destruct (Hwf _ _ Ht) as (_ & Hch & Hlast).
  pose proof (chain_first_None _ _ _ _ Hch) as Hfst.
  pose proof (lookup_lt_Some _ _ _ Ht) as Hlt.
  assert (nodes d !! target = Some tn) as Ht' by (rewrite Hd; by apply lookup_app_l_Some).
  destruct (last_child tn) as [l|].
  - intros H. rinv. repeat match goal with
    | H : update_node _ _ _ = Done _ |- _ => apply update_node_Done in H as (? & ? & ->)
    end. simpl in *. simplify_eq.
    destruct (kids_lt ns target l Hwf) as (Hl & ln & Eln); [by apply last_elem|].
    pose proof (lookup_lt_Some _ _ _ Eln) as Hll.
    repeat match goal with
    | H : <[_ := _]> _ !! _ = Some _ |- _ =>
      rewrite list_lookup_insert_ne in H by lia
    end.
    rewrite Hd in *. rewrite lookup_app_l in * by lia.
    match goal with H : (_ ++ [_]) !! length ns = _ |- _ =>
      rewrite list_lookup_middle in H by done end.
    simplify_eq. split; [|done]. apply inserted_next; [done|done|done|lia|done|].
    intros E%Hfst. rewrite E in Hlast. done.
  - intros H. apply update_node_Done in H as (n & Hn & ->). simplify_eq. simpl. split; [|done].
    rewrite Hd. symmetry in Hlast. apply last_None in Hlast.
    apply inserted_first; [done|done|done|]. by apply Hfst.
Qed.

(** [d1] is [d] with one unlinked node more, as the [Create] functions leave it. *)
Definition created (d : dom) (e : nat) (d1 : dom) : Prop :=
  e = length (nodes d) /\ (exists nd, unlinked nd /\ nodes d1 = nodes d ++ [nd]) /\
  stack_of_open_elements d1 = stack_of_open_elements d /\ stack_index d1 = stack_index d /\
  root_node d1 = root_node d.

Lemma d_malloc_Done n d d' :
  d_malloc n d = Done d' ->
  d' = Dom (nodes d) (root_node d) (stack_of_open_elements d) (stack_index d)
         (d_malloc_size d + n).
Proof. unfold d_malloc. case_match; by intros [=]. Qed.

Lemma alloc_node_created nd d e d1 :
  unlinked nd -> alloc_node nd d = Done (e, d1) -> created d e d1.
Proof.
  intros Hu H. unfold alloc_node in H. rinv.
  match goal with H : d_malloc _ _ = _ |- _ => apply d_malloc_Done in H as -> end.
  unfold created. simpl in *. naive_solver.
Qed.
Lemma fresh_unlinked nt et a b : unlinked (fresh_node nt et a b).
Proof. repeat split. Qed.
Lemma CreateDocument_created d e d1 : CreateDocument d = Done (e, d1) -> created d e d1.
Proof. apply alloc_node_created, fresh_unlinked. Qed.
Lemma CreateElement_created et s d e d1 : CreateElement et s d = Done (e, d1) -> created d e d1.
Proof. apply alloc_node_created, fresh_unlinked. Qed.
Lemma CreateElementFromToken_created et t d e d1 :
  CreateElementFromToken et t d = Done (e, d1) -> created d e d1.
Proof. apply alloc_node_created, fresh_unlinked. Qed.
Lemma CreateText_created t d e d1 : CreateText t d = Done (e, d1) -> created d e d1.
Proof.
  unfold CreateText. intros H. apply rbind_Done in H as ([p d0] & H0 & H). rinv.
  apply alloc_node_created in H0 as (-> & (nd & ? & ?) & ? & ? & ?); [|apply fresh_unlinked].
  match goal with H : d_malloc _ _ = _ |- _ => apply d_malloc_Done in H end. subst.
  simplify_eq. unfold created. simpl. naive_solver.
Qed.

Lemma wf_open_app d d' :
  wf_dom d -> stack_of_open_elements d' = stack_of_open_elements d ->
  (stack_index d' <= stack_index d)%nat -> (length (nodes d) <= length (nodes d'))%nat ->
  wf_nodes (nodes d') -> wf_dom d'.
Proof.
  intros [Ht Ha Hi Ho] Es Ei El Hn. split; [done|congruence|lia|]. rewrite Es.
  intros k Hk. destruct (Ho k) as (n & ? & ?); [lia|]. exists n. split; [done|lia].
Qed.

Lemma CurrentNode_Done d t tn :
  wf_dom d -> CurrentNode d = Done (t, tn) -> nodes d !! t = Some tn.
Proof.
  intros [_ _ _ Ho] H. unfold CurrentNode in H. destruct (stack_index d) as [|i]; [done|].
  unfold stack_node in H. destruct (Ho i) as (n & E & _); [lia|]. rewrite E in H. simpl in H. clear E.
  destruct (nodes d !! n) eqn:E; [|done]. simpl in H. by injection H as <- <-.
Qed.

Lemma PushStack_Done e d d' :
  PushStack e d = Done d' ->
  (stack_index d < length (stack_of_open_elements d))%nat /\
  d' = set_stack d (<[stack_index d := Some e]> (stack_of_open_elements d)) (S (stack_index d)).
Proof.
  unfold PushStack, array_store. destruct (_ !! _) eqn:E; [|done]. intros [= <-].
  split; [by eapply lookup_lt_Some|done].
Qed.

Lemma PushStack_wf e d d' :
  wf_dom d -> (e < length (nodes d))%nat -> PushStack e d = Done d' -> wf_dom d'.
Proof.
  intros [Ht Ha Hi Ho] He (Hlt & ->)%PushStack_Done. rewrite Ha in Hlt. split; simpl; [done|by rewrite length_insert|lia|].
  intros k Hk. destruct (decide (k = stack_index d)) as [->|].
  - rewrite list_lookup_insert_eq by lia. eauto.
  - rewrite list_lookup_insert_ne by done. apply Ho. lia.
Qed.

Lemma InsertElement_wf d e d1 d' :
  wf_dom d -> created d e d1 -> InsertElement e d1 = Done d' -> wf_dom d'.
Proof.
  intros Hwf (-> & (nd & Hu & Hn) & Hs & Hi & Hr) H. unfold InsertElement in H.
  apply rbind_Done in H as ([target tn0] & Hcur & H). rinv.
  assert (nodes d !! target = Some tn0) as Ht.
  { apply CurrentNode_Done; [done|]. revert Hcur. unfold CurrentNode, stack_node. rewrite Hi, Hs, Hn.
    destruct (stack_index d) as [|i] eqn:Ei; [done|].
    destruct (wf_open _ Hwf i) as (n & -> & Hlt); [lia|]. simpl. by rewrite lookup_app_l. }
  match goal with H : update_node _ (fun n => set_parent n _) _ = Done _ |- _ =>
    apply update_node_Done in H as (nd0 & Hnd & ->) end.
  rewrite Hn, list_lookup_middle in Hnd by done. injection Hnd as <-.
  assert (<[length (nodes d):=set_parent nd (Some target)]> (nodes d1) =
    nodes d ++ [set_parent nd (Some target)]) as E.
  { rewrite Hn. rewrite <- (Nat.add_0_r (length _)), insert_app_r. done. }
  simpl in *. rewrite E in *.
  match goal with H : deref (_ !! target) = Done _ |- _ =>
    rewrite (lookup_app_l_Some _ _ _ _ Ht) in H; injection H as <- end.
  match goal with H : match last_child _ with _ => _ end = Done ?d2 |- _ =>
    eapply (link_inserted (nodes d) target tn0 nd) in H as [Hins Hd2];
      [|reflexivity|apply Hwf|done|done] end.
  match goal with H : PushStack _ ?d2 = Done _ |- _ =>
    revert H; apply (PushStack_wf _ d2); [|rewrite (ins_length _ _ _ Hins); lia] end.
  eapply (wf_open_app d); [done|by rewrite Hd2|by rewrite Hd2; simpl; rewrite Hi|
    rewrite (ins_length _ _ _ Hins); lia|].
  eapply inserted_wf; [apply Hwf|by eapply lookup_lt_Some|done].
Qed.

Lemma PopStack_wf d : wf_dom d -> wf_dom (PopStack d).
Proof.
  intros H. unfold PopStack. case_match; [|done].
  eapply wf_open_app; [exact H|done|simpl; lia|simpl; lia|apply H].
Qed.

Lemma PopStackUntil_from_wf i t d d' :
  wf_dom d -> (i <= stack_index d)%nat -> PopStackUntil_from i t d = Done d' -> wf_dom d'.
Proof.
  intros Hwf. induction i as [|i IH]; intros Hi H; simpl in H.
  - injection H as <-. eapply wf_open_app; [exact Hwf|done|simpl; lia|simpl; lia|apply Hwf].
  - apply rbind_Done in H as ([n node] & _ & H). case_decide.
    + injection H as <-. eapply wf_open_app; [exact Hwf|done|simpl; lia|simpl; lia|apply Hwf].
    + apply IH; [lia|done].
Qed.
Lemma PopStackUntil_wf t d d' : wf_dom d -> PopStackUntil t d = Done d' -> wf_dom d'.
Proof. intros Hwf. by apply PopStackUntil_from_wf. Qed.

Lemma set_data_wf target s d d' :
  wf_dom d -> update_node target (fun n => set_data n s) d = Done d' -> wf_dom d'.
Proof.
  intros Hwf (n & Hn & ->)%update_node_Done.
  set (ns' := <[target := set_data n s]> (nodes d)).
  assert (forall i m', ns' !! i = Some m' -> exists m, nodes d !! i = Some m /\
     parent m' = parent m /\ first_child m' = first_child m /\ last_child m' = last_child m /\
     previous_sibling m' = previous_sibling m /\ next_sibling m' = next_sibling m) as Hsame.
  { intros i m' H. unfold ns' in H. destruct (decide (i = target)) as [->|].
    - rewrite list_lookup_insert_eq in H by (by eapply lookup_lt_Some). simplify_eq. eauto 10.
    - rewrite list_lookup_insert_ne in H by done. eauto 10. }
  assert (length ns' = length (nodes d)) as Hl by apply length_insert.
  eapply wf_open_app; [exact Hwf|done|simpl; lia|simpl; fold ns'; lia|]. simpl. fold ns'.
  assert (forall p, kids ns' p = kids (nodes d) p) as Hk.
  { intros p. apply kids_ext; [done|]. intros c. unfold parent_of.
    destruct (ns' !! c) as [m'|] eqn:E.
    - destruct (Hsame _ _ E) as (m & -> & Hp & _). simpl. done.
    - apply lookup_ge_None in E. rewrite lookup_ge_None_2; [done|lia]. }
  intros i m' Hi. destruct (Hsame _ _ Hi) as (m & Hm & Ep & Ef & El & _).
  destruct (wf_tree _ Hwf _ _ Hm) as (Hp & Hc & Hla). split; [by rewrite Ep|].
  rewrite Hk, Ef, El. split; [|done]. eapply sib_chain_frame; [|exact Hc].
  intros c m0 _ Hm0. destruct (ns' !! c) as [m1|] eqn:E1.
  - destruct (Hsame _ _ E1) as (m2 & ? & _ & _ & _ & ? & ?). simplify_eq. eauto.
  - apply lookup_ge_None in E1. apply lookup_lt_Some in Hm0. lia.
Qed.

Lemma InsertCharFromToken_wf t d d' :
  wf_dom d -> InsertCharFromToken t d = Done d' -> wf_dom d'.
Proof.
  intros Hwf H. unfold InsertCharFromToken in H. apply rbind_Done in H as ([target tn] & _ & H).
  case_decide; [by simplify_eq|]. case_decide.
  - rinv. by eapply set_data_wf.
  - apply rbind_Done in H as ([p d1] & Hc & H). eapply InsertElement_wf; [done| |done].
    by eapply CreateText_created.
Qed.
Lemma insert_token_wf et t d d' : wf_dom d -> insert_token et t d = Done d' -> wf_dom d'.
Proof.
  intros Hwf H. unfold insert_token in H. apply rbind_Done in H as ([p d1] & Hc & H).
  eapply InsertElement_wf; [done| |done]. by eapply CreateElementFromToken_created.
Qed.
Lemma insert_named_wf et s d d' : wf_dom d -> insert_named et s d = Done d' -> wf_dom d'.
Proof.
  intros Hwf H. unfold insert_named in H. apply rbind_Done in H as ([p d1] & Hc & H).
  eapply InsertElement_wf; [done| |done]. by eapply CreateElement_created.
Qed.
#[export] Hint Resolve PopStack_wf PopStackUntil_wf InsertCharFromToken_wf insert_token_wf
  insert_named_wf : lium.

(** ** The insertion modes keep the invariant *)

Definition result_dom (r : step_result) : dom :=
  match r with Continue _ _ d => d | Return d => d end.

Lemma in_body_end_wf i t d r : wf_dom d -> in_body_end i t d = Done r -> wf_dom (result_dom r).
Proof.
  intros Hwf H. unfold in_body_end in H.
  repeat (rinv; case_match); rinv; simpl; eauto with lium.
Qed.
#[export] Hint Resolve in_body_end_wf : lium.

Lemma step_wf toks m i d r :
  wf_dom d -> ConstructTree_step toks m i d = Done r -> wf_dom (result_dom r).
Proof.
  intros Hwf H. unfold ConstructTree_step in H. rinv.
  destruct m;
    unfold before_html, before_head, in_head, after_head, in_body, after_body, after_after_body in *;
    repeat (rinv; case_match); rinv; simpl; eauto with lium.
Qed.

Lemma loop_wf toks fuel m token d d' :
  wf_dom d -> ConstructTree_loop toks fuel m token d = Done d' -> wf_dom d'.
Proof.
  revert m token d. induction fuel as [|fuel IH]; intros m [i|] d Hwf H; simpl in H;
    try (by simplify_eq).
  rinv. match goal with H : ConstructTree_step _ _ _ _ = Done _ |- _ =>
    apply step_wf in H; [|done] end.
  case_match; simpl in *; [by eapply IH|by simplify_eq].
Qed.

Lemma dom0_wf m : wf_dom (dom0 m).
Proof.
  split; [|done|simpl; lia|simpl; lia]. intros i n H. by destruct i.
Qed.

Lemma start_wf m p d1 d2 :
  CreateDocument (dom0 m) = Done (p, d1) ->
  PushStack p (Dom (nodes d1) (Some p) (stack_of_open_elements d1) 0 (d_malloc_size d1)) = Done d2 ->
  wf_dom d2.
Proof.
  intros (-> & (nd & (Hp & Hf & Hl & _) & Hn) & Hs & Hi & _)%CreateDocument_created H.
  eapply PushStack_wf; [| |exact H]; simpl in *; rewrite Hn; simpl; [|lia].
  split; simpl; [|by rewrite Hs|lia|lia].
  intros [|i] n Hn'; simpl in Hn'; [|by destruct i]. injection Hn' as <-.
  split; [by rewrite Hp|]. unfold kids. simpl. rewrite list.filter_cons, list.filter_nil.
  unfold parent_of. simpl. rewrite decide_False by congruence. by rewrite Hf, Hl.
Qed.

Lemma ConstructTree_wf_ toks fuel first m d :
  ConstructTree toks fuel first (dom0 m) = Done d -> wf_dom d.
Proof.
  intros H. unfold ConstructTree in H. apply rbind_Done in H as ([p d1] & Hc & H). rinv.
  eapply loop_wf; [|eassumption]. by eapply start_wf.
Qed.

Definition demo_page : string := "<html><head></head><body><h1>A</h1><ul><li>b</li></ul></body></html>".
Definition demo_toks : list Token :=
  match Tokenize (lit demo_page) demo_store with Done z => tokens (z_store z) | Stop _ => [] end.
Definition demo_dom : dom :=
  match ConstructTree demo_toks 60 (Some 0%nat) (dom0 2000) with Done d => d | Stop _ => dom0 0 end.

(** ** When tree construction terminates *)

(** The start tags [IN_BODY] knows; on any other one no test applies, and the
    iteration leaves mode, token and tree as they are. *)
Definition in_body_tags : list string := ["body"; "html"; "ul"; "p"; "div"]%string ++ headings ++ ["li"%string].
Definition stuck (t : Token) : Prop :=
  type t = START_TAG /\ exists n, tag_name t = Some n /\ n ∉ lit <$> in_body_tags.

Lemma name_in_Done t l b :
  name_in t l = Done b -> l <> [] ->
  exists n, tag_name t = Some n /\ (if b then n ∈ lit <$> l else n ∉ lit <$> l).
Proof.
  induction l as [|s l IH]; intros H Hl; [done|]. simpl in H. unfold name_is in H.
  destruct (tag_name t) as [n|] eqn:En; [|done]. simpl in H. case_bool_decide as E.
  - injection H as <-. exists n. split; [done|]. rewrite E. left.
  - destruct l as [|s' l]; [simpl in H; injection H as <-|].
    + exists n. split; [done|]. simpl. intros [->|[]%elem_of_nil]%elem_of_cons. done.
    + apply IH in H as (n' & [= <-] & H); [|done]. exists n. split; [done|].
      rewrite fmap_cons. destruct b; [by right|]. by intros [?|?]%elem_of_cons.
Qed.

Lemma tag_in_true ty t l :
  tag_in ty t l = Done true -> type t = ty /\ exists n, tag_name t = Some n /\ n ∈ lit <$> l.
Proof.
  unfold tag_in, is_type. case_bool_decide as E0; [|done]. intros H. split; [done|].
  destruct l; [done|]. by apply name_in_Done in H.
Qed.
Lemma tag_in_false ty t l :
  tag_in ty t l = Done false -> type t = ty -> l <> [] ->
  exists n, tag_name t = Some n /\ n ∉ lit <$> l.
Proof. unfold tag_in, is_type. case_bool_decide as E0; [|done]. intros H _ Hl. by apply name_in_Done in H. Qed.

Lemma name_in_notin t n l :
  tag_name t = Some n -> n ∉ lit <$> l -> name_in t l = Done false.
Proof.
  intros Ht. induction l as [|s l IH]; intros H; [done|]. simpl. unfold name_is. rewrite Ht. simpl.
  rewrite fmap_cons, not_elem_of_cons in H. destruct H as [H1 H2].
  rewrite bool_decide_eq_false_2 by done. by apply IH.
Qed.

Lemma stuck_step toks i t d :
  toks !! i = Some t -> stuck t ->
  ConstructTree_step toks IN_BODY i d = Done (Continue IN_BODY (Some i) d).
Proof.
  intros Hi (Hty & n & Hn & Hnin). unfold ConstructTree_step. rewrite Hi. cbn [deref rbind].
  assert (forall l, forallb (fun s => bool_decide (s ∈ in_body_tags)) l = true ->
    tag_in START_TAG t l = Done false) as HS.
  { intros l Hl. unfold tag_in, is_type. rewrite bool_decide_eq_true_2 by done.
    eapply name_in_notin; [done|]. intros Hin. apply Hnin.
    apply list_elem_of_fmap in Hin as (s & -> & Hs). apply list_elem_of_fmap.
    exists s. split; [done|]. rewrite forallb_forall in Hl.
    by apply (bool_decide_eq_true _), Hl, list_elem_of_In. }
  assert (forall l, tag_in END_TAG t l = Done false) as HE.
  { intros l. unfold tag_in, is_type. by rewrite bool_decide_eq_false_2 by (rewrite Hty; done). }
  unfold in_body, in_body_end, is_type.
  rewrite !bool_decide_eq_false_2 by (rewrite Hty; done).
  rewrite !HE, !HS by reflexivity. done.
Qed.

Lemma stuck_diverges toks i t d fuel :
  toks !! i = Some t -> stuck t ->
  ConstructTree_loop toks fuel IN_BODY (Some i) d = Stop FuelOut.
Proof.
  intros Hi Hs. induction fuel as [|fuel IH]; [done|].
  cbn [ConstructTree_loop]. rewrite (stuck_step _ _ _ _ Hi Hs). exact IH.
Qed.

#[global] Instance stuck_dec t : Decision (stuck t).
Proof.
  destruct (tag_name t) as [n|] eqn:E.
  - destruct (decide (type t = START_TAG /\ n ∉ lit <$> in_body_tags)) as [[H1 H2]|H].
    + left. split; eauto.
    + right. intros [Hty (n' & Hn & ?)]. apply H. split; [done|]. congruence.
  - right. intros [_ (n & Hn & _)]. congruence.
Defined.

(** One or more iterations of the loop. *)
Inductive reach (toks : list Token) : Mode * option nat * dom -> Mode * option nat * dom -> Prop :=
| reach_refl c : reach toks c c
| reach_step m i d m' o d' c :
  ConstructTree_step toks m i d = Done (Continue m' o d') -> reach toks (m', o, d') c ->
  reach toks (m, Some i, d) c.

(** [next] leads forward, as it does in the list [Tokenize] builds. *)
Definition linked (toks : list Token) : Prop :=
  forall i t j, toks !! i = Some t -> next t = Some j -> (i < j)%nat.

Definition html_end (t : Token) : bool :=
  bool_decide (type t = END_TAG /\ tag_name t = Some (lit "html")).
Definition rank (m : Mode) (t : Token) : nat :=
  match m with
  | INITIAL => 6 | BEFORE_HTML => 5 | BEFORE_HEAD => 4 | IN_HEAD => 3 | AFTER_HEAD => 2
  | AFTER_AFTER_BODY => 2
  | IN_BODY => if html_end t then 1 else 0
  | AFTER_BODY => if html_end t then 0 else 1
  end.

(** An iteration goes on with a later token, or with the same token and a mode
    of lower rank, unless it is stuck. *)
Definition advances (m : Mode) (i : nat) (t : Token) (m' : Mode) (o : option nat) : Prop :=
  match o with
  | None => True
  | Some j => (i < j)%nat \/ j = i /\ (rank m' t < rank m t)%nat \/ m = IN_BODY /\ stuck t
  end.

Lemma in_body_end_advances i t d m' o d' :
  (forall j, next t = Some j -> (i < j)%nat) ->
  in_body_end i t d = Done (Continue m' o d') ->
  match o with None => True | Some j => (i <= j)%nat /\ (j = i -> type t <> END_TAG) end.
Proof.
  intros Hn H. destruct o as [j|]; [|done]. unfold in_body_end in H.
  repeat (rinv; case_match); rinv; simplify_eq/=; try (specialize (Hn j ltac:(congruence)); lia).
  split; [lia|]. intros _ Hty. unfold is_type in *. rewrite bool_decide_eq_true_2 in * by done. done.
Qed.

Lemma html_end_tag t b : tag_in END_TAG t ["html"%string] = Done b -> html_end t = b.
Proof.
  unfold html_end. destruct b; intros H.
  - apply tag_in_true in H as (Hty & n & Hn & Hin). apply bool_decide_eq_true_2. split; [done|].
    rewrite Hn. f_equal. by apply list_elem_of_singleton in Hin.
  - apply bool_decide_eq_false_2. intros [Hty Hn].
    destruct (tag_in_false _ _ _ H Hty) as (n & Hn' & Hin); [done|]. apply Hin.
    rewrite Hn in Hn'. injection Hn' as <-. by left.
Qed.

Lemma not_in_cat n l1 l2 : n ∉ lit <$> l1 -> n ∉ lit <$> l2 -> n ∉ lit <$> (l1 ++ l2).
Proof. rewrite fmap_app, elem_of_app. tauto. Qed.

(** A start tag none of whose tests succeeded is stuck. *)
Definition body_tests : list (list string) :=
  [["body"; "html"]; ["ul"]; ["p"]; ["div"]; headings; ["li"]]%string.
Lemma untested_stuck t :
  type t = START_TAG -> Forall (fun l => tag_in START_TAG t l = Done false) body_tests -> stuck t.
Proof.
  intros Hty H. split; [done|]. rewrite List.Forall_forall in H.
  assert (forall l, In l body_tests -> exists n, tag_name t = Some n /\ n ∉ lit <$> l) as H'.
  { intros l Hl. apply (tag_in_false _ _ l (H _ Hl) Hty). intros ->. by repeat destruct Hl as [Hl|Hl]. }
  destruct (H' ["li"%string]) as (n & Hn & _); [simpl; tauto|].
  exists n. split; [done|]. change in_body_tags with (concat body_tests).
  intros (s & -> & Hs)%list_elem_of_fmap. apply list_elem_of_In, in_concat in Hs as (l & Hl & Hs).
  destruct (H' l Hl) as (n & Hn' & Hnin). apply Hnin. rewrite Hn in Hn'. injection Hn' as <-.
  apply list_elem_of_fmap. exists s. split; [done|]. by apply list_elem_of_In.
Qed.

Lemma in_body_advances toks i t d m' j d' :
  linked toks -> toks !! i = Some t ->
  in_body toks i t d = Done (Continue m' (Some j) d') -> advances IN_BODY i t m' (Some j).
Proof.
  intros Hl Ht H. assert (forall j, next t = Some j -> (i < j)%nat) as Hn by eauto.
  unfold in_body in H. unfold advances. repeat (rinv; case_match); rinv; simplify_eq/=; eauto.
  - match goal with H : tag_in _ _ ["html"%string] = Done true |- _ =>
      apply html_end_tag in H as -> end. eauto.
  - destruct (next t) as [i'|] eqn:En; simplify_eq/=.
    match goal with H : deref (toks !! ?k) = _ |- _ => destruct (toks !! k) eqn:Et end; simplify_eq/=.
    match goal with H : in_body_end _ _ _ = _ |- _ => apply in_body_end_advances in H as [? _]; [|eauto] end.
    pose proof (Hn _ eq_refl). lia.
  - match goal with H : in_body_end _ _ _ = _ |- _ => apply in_body_end_advances in H as [Hle Hne]; [|eauto] end.
    destruct (decide (j = i)) as [->|]; [|lia]. right. right. split; [done|]. specialize (Hne eq_refl).
    apply untested_stuck; [|by repeat constructor].
    unfold is_type in *. repeat case_bool_decide; try done. by destruct (type t).
Qed.

Lemma step_advances toks m i t d m' o d' :
  linked toks -> toks !! i = Some t ->
  ConstructTree_step toks m i d = Done (Continue m' o d') -> advances m i t m' o.
Proof.
  intros Hl Ht H. destruct o as [j|]; [|done]. unfold ConstructTree_step in H. rewrite Ht in H.
  cbn [deref rbind] in H.
  assert (forall j, next t = Some j -> (i < j)%nat) as Hn by eauto.
  destruct m;
    unfold before_html, before_head, in_head, after_head, after_body, after_after_body, advances in *;
    try (repeat (rinv; case_match); rinv; simplify_eq/=; try case_match; eauto 6 with lia; fail).
  - eapply in_body_advances; eauto.
  - repeat (rinv; case_match); rinv; simplify_eq/=; eauto.
    match goal with H : tag_in _ _ _ = _ |- _ => apply html_end_tag in H as -> end. eauto.
Qed.

Definition loop_fuel (toks : list Token) : nat := 7 * length toks + 7.

Lemma reach_diverges toks c c' :
  reach toks c c' ->
  (forall fuel, ConstructTree_loop toks fuel c'.1.1 c'.1.2 c'.2 = Stop FuelOut) ->
  forall fuel, ConstructTree_loop toks fuel c.1.1 c.1.2 c.2 = Stop FuelOut.
Proof.
  induction 1 as [|m i d m' o d' c Hs _ IH]; [done|]. intros Hd [|fuel]; [done|]. simpl.
  rewrite Hs. simpl. by apply IH.
Qed.

(** A single iteration has no loop that can run out of fuel. *)
Definition fuel_free {A} (x : res A) : Prop := x <> Stop FuelOut.
Lemma fuel_free_bind {A B} (x : res A) (k : A -> res B) :
  fuel_free x -> (forall a, fuel_free (k a)) -> fuel_free (rbind x k).
Proof. unfold fuel_free. destruct x; simpl; [auto|congruence]. Qed.
Lemma fuel_free_deref {A} (o : option A) : fuel_free (deref o).
Proof. by destruct o. Qed.
Ltac fuel_free :=
  repeat first
    [ match goal with |- fuel_free (rbind _ _) => apply fuel_free_bind; [|intros ?] end
    | apply fuel_free_deref
    | progress case_match
    | done ].
Lemma fuel_free_InsertElement e d : fuel_free (InsertElement e d).
Proof. unfold InsertElement, CurrentNode, stack_node, update_node, PushStack, array_store. fuel_free. Qed.
Lemma fuel_free_insert_token et t d : fuel_free (insert_token et t d).
Proof.
  unfold insert_token, CreateElementFromToken, alloc_node, d_malloc. fuel_free.
  apply fuel_free_InsertElement.
Qed.
Lemma fuel_free_insert_named et s d : fuel_free (insert_named et s d).
Proof.
  unfold insert_named, CreateElement, alloc_node, d_malloc. fuel_free.
  apply fuel_free_InsertElement.
Qed.
Lemma fuel_free_InsertChar t d : fuel_free (InsertCharFromToken t d).
Proof.
  unfold InsertCharFromToken, CurrentNode, stack_node, update_node, CreateText, alloc_node, d_malloc,
    strcat_text, buffer_store.
  fuel_free. apply fuel_free_InsertElement.
Qed.
Lemma fuel_free_PopStackUntil t d : fuel_free (PopStackUntil t d).
Proof.
  unfold PopStackUntil. generalize (stack_index d). intros i. induction i as [|i IH]; [done|]. simpl.
  unfold stack_node. fuel_free.
Qed.
Lemma fuel_free_name_in t l : fuel_free (name_in t l).
Proof. induction l as [|s l IH]; [done|]. simpl. unfold name_is. fuel_free. Qed.
Lemma fuel_free_name_differs t l : fuel_free (name_differs t l).
Proof. induction l as [|s l IH]; [done|]. simpl. unfold name_is. fuel_free. Qed.
Lemma fuel_free_tag_in ty t l : fuel_free (tag_in ty t l).
Proof. unfold tag_in. case_match; [apply fuel_free_name_in|done]. Qed.
Lemma fuel_free_tag_differs ty t l : fuel_free (tag_differs ty t l).
Proof. unfold tag_differs. case_match; [apply fuel_free_name_differs|done]. Qed.
#[export] Hint Resolve fuel_free_bind fuel_free_deref fuel_free_InsertElement fuel_free_insert_token
  fuel_free_insert_named fuel_free_InsertChar fuel_free_PopStackUntil fuel_free_tag_in
  fuel_free_tag_differs : lium.
Lemma fuel_free_if {A} (b : bool) (x y : res A) : fuel_free x -> fuel_free y -> fuel_free (if b then x else y).
Proof. by destruct b. Qed.

Lemma fuel_free_step toks m i d : fuel_free (ConstructTree_step toks m i d).
Proof.
  unfold ConstructTree_step. apply fuel_free_bind; [auto with lium|]. intros t.
  destruct m;
    unfold before_html, before_head, in_head, after_head, in_body, in_body_end, after_body,
      after_after_body;
    repeat first [ apply fuel_free_bind; [auto with lium|intros ?] | apply fuel_free_if | done ].
Qed.

Lemma rank_le m o : (default 0 (rank m <$> o) <= 6)%nat.
Proof. destruct o as [t|]; simpl; [|lia]. destruct m; simpl; try destruct (html_end t); lia. Qed.

Lemma loop_stuck toks fuel m i d :
  linked toks -> (7 * (length toks - i) + 7 <= fuel)%nat ->
  ConstructTree_loop toks fuel m (Some i) d = Stop FuelOut ->
  exists j t d', reach toks (m, Some i, d) (IN_BODY, Some j, d') /\ toks !! j = Some t /\ stuck t.
Proof.
  intros Hl Hf H.
  assert (7 * (length toks - i) + default 0 (rank m <$> toks !! i) < fuel)%nat as Hf'.
  { pose proof (rank_le m (toks !! i)). lia. }
  clear Hf. revert m i d Hf' H. induction fuel as [|fuel IH]; intros m i d Hf H; [lia|].
  simpl in H. destruct (ConstructTree_step toks m i d) as [r|s] eqn:Es; simpl in H.
  2:{ simplify_eq. by apply fuel_free_step in Es. }
  destruct r as [m' [k|] d'|d']; [|by destruct fuel|done].
  destruct (toks !! i) as [t|] eqn:Et.
  2:{ unfold ConstructTree_step in Es. by rewrite Et in Es. }
  pose proof (step_advances _ _ _ _ _ _ _ _ Hl Et Es) as Ha. simpl in Hf, Ha.
  destruct (decide (m = IN_BODY /\ stuck t)) as [[-> Hs]|Hns].
  { exists i, t, d. split; [constructor|done]. }
  destruct (IH m' k d') as (j & t' & d2 & Hr & Hst); [|done|].
  2:{ exists j, t', d2. split; [|done]. by econstructor. }
  apply lookup_lt_Some in Et as Hlt.
  destruct Ha as [Ha|[[-> Ha]|Ha]]; [|rewrite Et; simpl; lia|done].
  pose proof (rank_le m' (toks !! k)). lia.
Qed.

(** C34: tree construction terminates, within [7 * (tokens + 1)] iterations, unless
    it comes to a start tag unknown to the mode [IN_BODY] (such as [<a>] or a
    second [<head>]); on such a tag it loops for ever, however much fuel it is
    given. *)
Theorem ConstructTree_loop_diverges_iff toks m i d :
  linked toks ->
  (ConstructTree_loop toks (loop_fuel toks) m (Some i) d = Stop FuelOut <->
   forall fuel, ConstructTree_loop toks fuel m (Some i) d = Stop FuelOut) /\
  (ConstructTree_loop toks (loop_fuel toks) m (Some i) d = Stop FuelOut <->
   exists j t d', reach toks (m, Some i, d) (IN_BODY, Some j, d') /\ toks !! j = Some t /\ stuck t).
Proof.
  intros Hl.
  assert (ConstructTree_loop toks (loop_fuel toks) m (Some i) d = Stop FuelOut ->
    exists j t d', reach toks (m, Some i, d) (IN_BODY, Some j, d') /\ toks !! j = Some t /\ stuck t) as H1.
  { apply loop_stuck; [done|]. unfold loop_fuel. lia. }
  assert ((exists j t d', reach toks (m, Some i, d) (IN_BODY, Some j, d') /\ toks !! j = Some t /\ stuck t) ->
    forall fuel, ConstructTree_loop toks fuel m (Some i) d = Stop FuelOut) as H2.
  { intros (j & t & d' & Hr & Ht & Hs). apply (reach_diverges _ _ _ Hr). intros fuel.
    by eapply stuck_diverges. }
  split; (split; [intros H; auto|auto]).
Qed.

Lemma linked_bool toks :
  forallb (fun '(i, t) => match next t with Some j => (i <? j)%nat | None => true end)
    (imap pair toks) = true -> linked toks.
Proof.
  rewrite forallb_forall. intros H i t j Ht Hn. specialize (H (i, t)). simpl in H. rewrite Hn in H.
  apply Nat.ltb_lt, H, list_elem_of_In, elem_of_lookup_imap. eauto.
Qed.

(** The document [<a>]. *)
Definition link_toks : list Token :=
  match Tokenize (lit "<a>") demo_store with Done z => tokens (z_store z) | Stop _ => [] end.
Lemma ConstructTree_loop_diverges_iff_witness :
  linked demo_toks /\ ConstructTree demo_toks (loop_fuel demo_toks) (Some 0%nat) (dom0 2000) = Done demo_dom /\
  forall fuel, ConstructTree_loop link_toks fuel IN_BODY (Some 0%nat) demo_dom = Stop FuelOut.
Proof.
  assert (forall l, l = demo_toks \/ l = link_toks -> linked l) as Hl.
  { intros l [-> | ->]; apply linked_bool; vm_compute; reflexivity. }
  split; [auto|]. split; [vm_compute; reflexivity|].
  apply (ConstructTree_loop_diverges_iff link_toks IN_BODY 0 demo_dom); [auto|].
  vm_compute. reflexivity.
Defined.

(** An end tag with no matching open element pops everything, the document
    included; the next character then reads the array entry before the first. *)
Theorem unmatched_end_tag_reads_below et t d :
  wf_dom d ->
  (forall k n node, (k < stack_index d)%nat -> stack_of_open_elements d !! k = Some (Some n) ->
     nodes d !! n = Some node -> element_type node <> et) ->
  exists d', PopStackUntil et d = Done d' /\ stack_index d' = 0%nat /\ nodes d' = nodes d /\
    InsertCharFromToken t d' = Stop BadPointer.
Proof.
  intros Hwf Hno. exists (set_stack d (stack_of_open_elements d) 0).
  split; [|done]. unfold PopStackUntil.
  assert (stack_index d <= stack_index d)%nat as Hi by lia. revert Hi.
  generalize (stack_index d) at 1 3. intros i. induction i as [|i IH]; intros Hi; [done|]. simpl.
  destruct (wf_open _ Hwf i) as (n & Hn & Hlt); [lia|]. unfold stack_node. rewrite Hn. simpl.
  destruct (lookup_lt_is_Some_2 _ _ Hlt) as [node Hnode]. rewrite Hnode. simpl.
  rewrite decide_False; [apply IH; lia|]. intros ->. eapply (Hno i); [lia|done..].
Qed.

Lemma unmatched_end_tag_reads_below_witness :
  exists d', PopStackUntil PARAGRAPH demo_dom = Done d' /\ stack_index d' = 0%nat /\
    nodes d' = nodes demo_dom /\
    InsertCharFromToken (MkToken CHAR None false 65 None) d' = Stop BadPointer.
Proof.
  apply (unmatched_end_tag_reads_below PARAGRAPH).
  - apply (ConstructTree_wf_ demo_toks 60 (Some 0%nat) 2000). vm_compute. reflexivity.
  - intros k n node Hk Hs Hn. vm_compute in Hk. destruct k as [|[|k]]; [| |lia];
    vm_compute in Hs; injection Hs as <-; vm_compute in Hn; injection Hn as <-; discriminate.
Defined.

Create HintDb fits.

(** ** Documents that fit the fixed arrays

    [within P x]: the run [x] makes no store outside an object, and what it
    returns has [P]. *)

Definition within {A} (P : A -> Prop) (x : res A) : Prop :=
  match x with Done a => P a | Stop Overflow => False | Stop _ => True end.

Lemma within_bind {A B} (Q : A -> Prop) (P : B -> Prop) (x : res A) (k : A -> res B) :
  within Q x -> (forall a, Q a -> within P (k a)) -> within P (rbind x k).
Proof. destruct x as [a|s]; simpl; [auto|]. by destruct s. Qed.
Lemma within_if {A} (P : A -> Prop) (b : bool) (x y : res A) :
  (b = true -> within P x) -> (b = false -> within P y) -> within P (if b then x else y).
Proof. destruct b; auto. Qed.
Lemma within_deref {A} (o : option A) : within (fun a => o = Some a) (deref o).
Proof. by destruct o. Qed.
Lemma within_tag_in ty t l : within (fun b => b = true -> type t = ty) (tag_in ty t l).
Proof.
  unfold tag_in, is_type. case_bool_decide; [|done].
  induction l as [|s l IH]; [done|]. simpl. unfold name_is. destruct (tag_name t); [|done]. simpl.
  apply within_if; simpl; auto.
Qed.
Lemma within_tag_differs ty t l : within (fun _ => True) (tag_differs ty t l).
Proof.
  unfold tag_differs. case_match; [|done].
  induction l as [|s l IH]; [done|]. simpl. unfold name_is. destruct (tag_name t); [|done]. simpl.
  apply within_if; simpl; auto.
Qed.
#[export] Hint Resolve within_deref within_tag_in within_tag_differs : fits.

(** What the links between nodes leave alone. *)
Definition content (n : Node) : NodeType * option (list Z) := (node_type n, n_data n).
Definition same_content (d d' : dom) : Prop :=
  content <$> nodes d' = content <$> nodes d /\
  stack_of_open_elements d' = stack_of_open_elements d /\ stack_index d' = stack_index d.

Lemma within_update_node i f d d0 :
  (forall n, content (f n) = content n) -> same_content d0 d ->
  within (same_content d0) (update_node i f d).
Proof.
  intros Hf (Hc & Hs & Hi). unfold update_node. destruct (nodes d !! i) as [n|] eqn:E; [|done]. simpl.
  split; [|done]. simpl. rewrite list_fmap_insert, Hf, <- Hc, list_insert_id; [done|].
  by rewrite list_lookup_fmap, E.
Qed.

Lemma within_InsertElement e d :
  (stack_index d < length (stack_of_open_elements d))%nat ->
  within (fun d' => content <$> nodes d' = content <$> nodes d /\
      stack_index d' = S (stack_index d) /\
      stack_of_open_elements d' = <[stack_index d := Some e]> (stack_of_open_elements d))
    (InsertElement e d).
Proof.
  intros Hlt. unfold InsertElement.
  eapply (within_bind (fun _ => True)).
  { unfold CurrentNode, stack_node. destruct (stack_index d); [done|].
    destruct (_ !! _) as [[p|]|]; simpl; try done. by destruct (nodes d !! p). }
  intros [target tn] _.
  eapply within_bind; [apply within_update_node; [done|by split]|]. intros d1 H1.
  eapply within_bind; [apply within_deref|]. intros tn1 _.
  eapply (within_bind (same_content d)).
  { case_match.
    - eapply within_bind; [by apply within_update_node|]. intros d2 H2.
      eapply within_bind; [by apply within_update_node|]. intros d3 H3. by apply within_update_node.
    - by apply within_update_node. }
  intros d2 (Hc & Hs & Hi). unfold PushStack, array_store. rewrite Hs, Hi.
  destruct (lookup_lt_is_Some_2 _ _ Hlt) as [x ->]. simpl. by rewrite Hc.
Qed.

(** A text node at the top of the stack takes the characters that follow;
    under any other node the next character opens one. *)
Definition opens_text (d : dom) : nat :=
  match CurrentNode d with
  | Done (_, n) => if decide (node_type n = TEXT) then 0%nat else 1%nat
  | Stop _ => 1%nat
  end.
Lemma opens_text_le d : (opens_text d <= 1)%nat.
Proof. unfold opens_text. repeat case_match; lia. Qed.

(** Room for [s] more entries of the stack and [c] more characters in any text. *)
Definition spare (s c : nat) (d : dom) : Prop :=
  (stack_index d + opens_text d + s <= STACK_SIZE)%nat /\
  forall i n txt, nodes d !! i = Some n -> n_data n = Some txt -> (length txt + c < Z.to_nat TEXT_SIZE)%nat.

Lemma spare_mono s c s' c' d : spare s c d -> (s' <= s)%nat -> (c' <= c)%nat -> spare s' c' d.
Proof. intros [H1 H2] Hs Hc. split; [lia|]. intros i n txt H E. specialize (H2 i n txt H E). lia. Qed.

Lemma content_texts (d d' : dom) (P : list Z -> Prop) :
  content <$> nodes d' = content <$> nodes d ->
  (forall i n txt, nodes d !! i = Some n -> n_data n = Some txt -> P txt) ->
  forall i n txt, nodes d' !! i = Some n -> n_data n = Some txt -> P txt.
Proof.
  intros Hc H i n txt Hi Ht. assert ((content <$> nodes d') !! i = Some (content n)) as E.
  { by rewrite list_lookup_fmap, Hi. }
  rewrite Hc, list_lookup_fmap in E. destruct (nodes d !! i) as [n'|] eqn:En; [|done].
  simpl in E. injection E as _ E. rewrite Ht in E. eauto.
Qed.

Lemma within_alloc nd d :
  within (fun '(e, d1) => e = length (nodes d) /\ nodes d1 = nodes d ++ [nd] /\
      stack_of_open_elements d1 = stack_of_open_elements d /\ stack_index d1 = stack_index d)
    (alloc_node nd d).
Proof. unfold alloc_node, d_malloc. case_match; simpl; auto. Qed.

(** An inserted element takes two entries: its own, and one for its text. *)
Lemma within_insert nd d s c :
  wf_dom d -> n_data nd = None -> spare (S (S s)) c d ->
  within (spare s c) (do '(p, d) <- alloc_node nd d; InsertElement p d).
Proof.
  intros Hwf Hnd [H1 H2]. eapply within_bind; [apply within_alloc|]. intros [p d1] (-> & Hn & Hs & Hi).
  assert (within (fun d' => content <$> nodes d' = content <$> nodes d1 /\
      stack_index d' = S (stack_index d1) /\
      stack_of_open_elements d' = <[stack_index d1 := Some (length (nodes d))]> (stack_of_open_elements d1))
    (InsertElement (length (nodes d)) d1)) as H.
  { apply within_InsertElement. rewrite Hs, Hi, (wf_array _ Hwf). lia. }
  destruct (InsertElement _ _) as [d'|e]; [|done]. simpl in *. destruct H as (Hc & Hi' & _).
  pose proof (opens_text_le d'). split; [lia|]. eapply content_texts; [exact Hc|].
  intros i n txt E Et. rewrite Hn in E. apply lookup_app_Some in E as [E|[_ E]]; [eauto|].
  apply list_lookup_singleton_Some in E as [_ <-]. congruence.
Qed.
Lemma within_insert_token et t d s c :
  wf_dom d -> spare (S (S s)) c d -> within (spare s c) (insert_token et t d).
Proof. intros. by apply within_insert. Qed.
Lemma within_insert_named et name d s c :
  wf_dom d -> spare (S (S s)) c d -> within (spare s c) (insert_named et name d).
Proof. intros. by apply within_insert. Qed.

Lemma spare_popped s c d i :
  spare s c d -> (i < stack_index d)%nat -> spare s c (set_stack d (stack_of_open_elements d) i).
Proof.
  intros [H1 H2] Hi. pose proof (opens_text_le (set_stack d (stack_of_open_elements d) i)).
  split; [simpl; lia|done].
Qed.
Lemma spare_PopStack s c d : spare s c d -> spare s c (PopStack d).
Proof.
  intros H. unfold PopStack. destruct (Nat.ltb_spec 0 (stack_index d)); [|done].
  apply spare_popped; [done|lia].
Qed.
Lemma set_stack_id d : set_stack d (stack_of_open_elements d) (stack_index d) = d.
Proof. by destruct d. Qed.
Lemma within_PopStackUntil et s c d : spare s c d -> within (spare s c) (PopStackUntil et d).
Proof.
  intros H. unfold PopStackUntil.
  destruct (stack_index d) as [|k] eqn:E; [simpl; by rewrite <- E, set_stack_id|].
  assert (S k <= stack_index d)%nat as Hk by lia. clear E. revert Hk. generalize (S k). clear k.
  intros i. induction i as [|i IH]; intros Hi; simpl.
  - destruct (stack_index d) eqn:E; [by rewrite <- E, set_stack_id|]. apply spare_popped; [done|lia].
  - eapply within_bind with (Q := fun _ => True).
    { unfold stack_node. destruct (_ !! _) as [[p|]|]; simpl; try done. by destruct (nodes d !! p). }
    intros [p n] _. case_decide; [simpl; apply spare_popped; [done|lia]|apply IH; lia].
Qed.

Lemma char_string_le z : (length (char_string z) <= 1)%nat.
Proof. unfold char_string. case_match; simpl; lia. Qed.

Lemma within_strcat_text target n txt z s c d :
  nodes d !! target = Some n -> n_data n = Some txt -> node_type n = TEXT ->
  CurrentNode d = Done (target, n) -> spare s (S c) d ->
  within (spare s c)
    (do x <- strcat_text TEXT_SIZE txt (char_string z);
     update_node target (fun n => set_data n (Some x)) d).
Proof.
  intros Hn Hd Ht Hcur [H1 H2]. pose proof (H2 _ _ _ Hn Hd) as Hl. pose proof (char_string_le z) as Hz.
  unfold strcat_text, buffer_store. rewrite length_app.
  rewrite (proj2 (Z.ltb_ge _ _)) by (unfold TEXT_SIZE in *; lia).
  cbn [rbind]. unfold update_node. rewrite Hn. simpl. split.
  - replace (opens_text _) with (opens_text d); [simpl; lia|]. unfold opens_text. rewrite Hcur.
    unfold CurrentNode, stack_node in *. simpl. destruct (stack_index d) as [|k]; [done|].
    destruct (_ !! k) as [[p|]|]; simpl in *; try done.
    destruct (nodes d !! p) as [np|] eqn:Ep; [|done]. simpl in Hcur. injection Hcur as -> ->.
    rewrite list_lookup_insert_eq by (by eapply lookup_lt_Some). done.
  - simpl. intros i m x Hi Hx. destruct (decide (i = target)) as [->|].
    + rewrite list_lookup_insert_eq in Hi by (by eapply lookup_lt_Some). injection Hi as <-.
      simpl in Hx. injection Hx as <-. rewrite length_app. lia.
    + rewrite list_lookup_insert_ne in Hi by done. specialize (H2 _ _ _ Hi Hx). lia.
Qed.

(** A text node opened by a character takes the entry set aside for it. *)
Lemma within_new_text t s c d :
  wf_dom d -> spare s (S c) d -> opens_text d = 1%nat -> (S c < Z.to_nat TEXT_SIZE)%nat ->
  within (spare s c) (do '(p, d) <- CreateText t d; InsertElement p d).
Proof.
  intros Hwf [H1 H2] Ho Hc. unfold CreateText.
  set (nd := fresh_node _ _ _ _).
  eapply (within_bind (fun '(e, d1) => e = length (nodes d) /\ nodes d1 = nodes d ++ [nd] /\
      stack_of_open_elements d1 = stack_of_open_elements d /\ stack_index d1 = stack_index d)).
  { eapply within_bind; [apply within_alloc|]. intros [e d1] H. unfold d_malloc. by case_match. }
  intros [p d1] (-> & Hn & Hs & Hi).
  assert (stack_index d1 < length (stack_of_open_elements d1))%nat as Hlt.
  { rewrite Hs, Hi, (wf_array _ Hwf). lia. }
  pose proof (within_InsertElement (length (nodes d)) d1 Hlt) as H.
  destruct (InsertElement _ _) as [d'|e]; [|done]. simpl in *. destruct H as (Hc' & Hi' & Hs').
  split.
  - replace (opens_text d') with 0%nat; [lia|]. unfold opens_text, CurrentNode, stack_node.
    rewrite Hi', Hs', list_lookup_insert_eq by done. simpl.
    assert ((content <$> nodes d') !! length (nodes d) = Some (content nd)) as E.
    { rewrite Hc', Hn, list_lookup_fmap, list_lookup_middle by done. done. }
    rewrite list_lookup_fmap in E. destruct (nodes d' !! _) as [n'|]; [|done]. simpl in *.
    injection E as E _. by rewrite E.
  - eapply content_texts; [exact Hc'|]. intros i n txt E Et. rewrite Hn in E.
    apply lookup_app_Some in E as [E|[_ E]]; [specialize (H2 _ _ _ E Et); lia|].
    apply list_lookup_singleton_Some in E as [_ <-]. simpl in Et. injection Et as <-.
    pose proof (char_string_le (data t)). lia.
Qed.

Lemma within_InsertChar t s c d :
  wf_dom d -> spare s (S c) d -> (S c < Z.to_nat TEXT_SIZE)%nat ->
  within (spare s c) (InsertCharFromToken t d).
Proof.
  intros Hwf H Hc. unfold InsertCharFromToken.
  destruct (CurrentNode d) as [[target n]|e] eqn:Hcur.
  2:{ unfold CurrentNode, stack_node in Hcur. destruct (stack_index d); [by simplify_eq|].
      destruct (_ !! _) as [[p|]|]; simpl in Hcur; try by simplify_eq.
      destruct (nodes d !! p); by simplify_eq/=. }
  cbn [rbind]. case_decide; [by apply (spare_mono s (S c)); [|lia..]|].
  pose proof (CurrentNode_Done _ _ _ Hwf Hcur) as Hn. case_decide.
  - destruct (n_data n) as [txt|] eqn:Et; [|done]. cbn [deref rbind]. by eapply within_strcat_text.
  - apply within_new_text; [done..| |done]. unfold opens_text. rewrite Hcur. by rewrite decide_False.
Qed.

(** The tokens of a type from index [i] on. *)
Definition tokens_of (ty : TokenType) (toks : list Token) (i : nat) : nat :=
  length (filter (fun t => type t = ty) (drop i toks)).
(** The entries of the stack that html, head and body may still take when the
    document leaves their tags out. *)
Definition implied (m : Mode) : nat :=
  match m with
  | INITIAL | BEFORE_HTML => 6 | BEFORE_HEAD => 4 | IN_HEAD | AFTER_HEAD => 2 | _ => 0
  end.
Definition tree_room (toks : list Token) (m : Mode) (o : option nat) (d : dom) : Prop :=
  match o with
  | Some i => spare (implied m + 2 * tokens_of START_TAG toks i) (tokens_of CHAR toks i) d
  | None => True
  end.
Definition room_after (toks : list Token) (r : step_result) : Prop :=
  match r with Continue m o d => tree_room toks m o d | Return _ => True end.

Lemma tokens_of_le ty toks i j : (i <= j)%nat -> (tokens_of ty toks j <= tokens_of ty toks i)%nat.
Proof.
  intros H. unfold tokens_of. replace j with (i + (j - i))%nat by lia. rewrite <- drop_drop.
  rewrite <- (take_drop (j - i) (drop i toks)) at 2. rewrite list.filter_app, length_app. lia.
Qed.
Lemma tokens_of_here ty toks i t :
  toks !! i = Some t ->
  tokens_of ty toks i = ((if decide (type t = ty) then 1 else 0) + tokens_of ty toks (S i))%nat.
Proof.
  intros H. unfold tokens_of. rewrite (drop_S _ _ _ H), list.filter_cons. by case_decide.
Qed.

Ltac fits_step :=
  repeat first
    [ eapply within_bind; [apply within_tag_in|intros ? ?]
    | eapply within_bind; [apply within_tag_differs|intros ? _]
    | apply within_if; intros ?
    | eapply within_bind; [by apply within_PopStackUntil|intros ? ?] ];
  cbv beta in *.

Section fits.
Context (toks : list Token) (Hlinked : linked toks) (i : nat) (t : Token) (Ht : toks !! i = Some t).

Lemma room_next m s c d :
  spare s c d -> (implied m + 2 * tokens_of START_TAG toks (S i) <= s)%nat ->
  (tokens_of CHAR toks (S i) <= c)%nat -> tree_room toks m (next t) d.
Proof using Hlinked Ht.
  intros H Hs Hc. destruct (next t) as [j|] eqn:E; [|done]. specialize (Hlinked i t j Ht E).
  pose proof (tokens_of_le START_TAG toks (S i) j Hlinked).
  pose proof (tokens_of_le CHAR toks (S i) j Hlinked). simpl. eapply spare_mono; [exact H|lia..].
Qed.

Lemma room_insert_token et m m' d :
  type t = START_TAG -> (implied m' <= implied m)%nat -> wf_dom d -> tree_room toks m (Some i) d ->
  within (room_after toks) (do d <- insert_token et t d; Done (Continue m' (next t) d)).
Proof using Hlinked Ht.
  intros Hty Hm Hwf H. simpl in H. rewrite (tokens_of_here START_TAG _ _ _ Ht), decide_True in H by done.
  pose proof (tokens_of_le CHAR toks i (S i) ltac:(lia)).
  eapply (within_bind (spare (implied m + 2 * tokens_of START_TAG toks (S i)) (tokens_of CHAR toks i))).
  - apply within_insert_token; [done|]. eapply spare_mono; [exact H|lia..].
  - intros d' H'. simpl. eapply room_next; [exact H'|lia..].
Qed.
Lemma room_insert_named et name m m' d :
  (implied m' + 2 <= implied m)%nat -> wf_dom d -> tree_room toks m (Some i) d ->
  within (room_after toks) (do d <- insert_named et name d; Done (Continue m' (Some i) d)).
Proof using.
  intros Hm Hwf H. simpl in H.
  eapply (within_bind (spare (implied m' + 2 * tokens_of START_TAG toks i) (tokens_of CHAR toks i))).
  - apply within_insert_named; [done|]. eapply spare_mono; [exact H|lia..].
  - intros d' H'. exact H'.
Qed.

Lemma room_in_body_end d :
  spare (2 * tokens_of START_TAG toks i) (tokens_of CHAR toks i) d ->
  within (room_after toks) (in_body_end i t d).
Proof using Hlinked Ht.
  intros H. unfold in_body_end.
  pose proof (tokens_of_le START_TAG toks i (S i) ltac:(lia)).
  pose proof (tokens_of_le CHAR toks i (S i) ltac:(lia)).
  fits_step; simpl; try done; eapply room_next; try (by apply spare_PopStack); try done; simpl; lia.
Qed.
End fits.

Section fits_loop.
Context (toks : list Token) (Hlinked : linked toks).
Context (Hchars : (tokens_of CHAR toks 0 < Z.to_nat TEXT_SIZE)%nat).

(** The modes before the body: an element is inserted for a start tag, or for
    one the document leaves out, which [implied] has set the room aside for. *)
Lemma room_before_body m i t d :
  m <> IN_BODY -> toks !! i = Some t -> wf_dom d -> tree_room toks m (Some i) d ->
  within (room_after toks) (ConstructTree_step toks m i d).
Proof using Hlinked Hchars.
  intros Hm Ht Hwf H. unfold ConstructTree_step. rewrite Ht. cbn [deref rbind].
  pose proof (tokens_of_here START_TAG _ _ _ Ht) as Es.
  pose proof (tokens_of_here CHAR _ _ _ Ht) as Ec.
  destruct m; try done;
    unfold before_html, before_head, in_head, after_head, after_body, after_after_body; fits_step;
    try (exact I); try (eapply room_next; [done|done|eassumption|simpl; lia|lia]); try eassumption.
  all: first [eapply room_insert_token; [done|done|by auto| |done|exact H]
             |eapply room_insert_named; [|done|exact H]]; simpl; lia.
Qed.

Lemma room_in_body i t d :
  toks !! i = Some t -> wf_dom d -> tree_room toks IN_BODY (Some i) d ->
  within (room_after toks) (in_body toks i t d).
Proof using Hlinked Hchars.
  intros Ht Hwf H. unfold in_body.
  pose proof (tokens_of_le START_TAG toks i (S i) ltac:(lia)).
  pose proof (tokens_of_le CHAR toks i (S i) ltac:(lia)).
  apply within_if; intros E0.
  { unfold is_type in E0. apply bool_decide_eq_true in E0.
    pose proof (tokens_of_here CHAR _ _ _ Ht) as Ec. rewrite decide_True in Ec by done.
    pose proof (tokens_of_le CHAR toks 0 i ltac:(lia)).
    eapply (within_bind (spare (2 * tokens_of START_TAG toks i) (tokens_of CHAR toks (S i)))).
    - apply within_InsertChar; [done| |lia]. simpl in H. by rewrite Ec in H.
    - intros d' H'. eapply room_next; [done|done|exact H'|simpl; lia..]. }
  fits_step; try (exact I); try (eapply room_next; [done|done|eassumption|simpl; lia|lia]);
    try eassumption;
    try (by eapply (room_insert_token _ Hlinked i t Ht _ IN_BODY); auto).
  - pose proof (room_insert_token _ Hlinked i t Ht LI IN_BODY IN_BODY d
      ltac:(auto) ltac:(done) Hwf H) as Hr.
    destruct (insert_token LI t d) as [d'|e]; [|done]. simpl in Hr. cbn [rbind].
    destruct (next t) as [j|] eqn:En; [|done]. cbn [deref rbind].
    destruct (toks !! j) as [tj|] eqn:Ej; [|done]. by apply room_in_body_end.
  - eapply room_next; [done|done|apply spare_PopStack, H|simpl; lia|lia].
Qed.

Lemma room_loop fuel m o d :
  wf_dom d -> tree_room toks m o d -> within (fun _ => True) (ConstructTree_loop toks fuel m o d).
Proof using Hlinked Hchars.
  revert m o d. induction fuel as [|fuel IH]; intros m [i|] d Hwf H; try done. simpl.
  destruct (toks !! i) as [t|] eqn:Ht.
  2:{ unfold ConstructTree_step. by rewrite Ht. }
  assert (within (room_after toks) (ConstructTree_step toks m i d)) as Hs.
  { destruct (decide (m = IN_BODY)) as [->|]; [|by eapply room_before_body].
    unfold ConstructTree_step. rewrite Ht. by apply room_in_body. }
  destruct (ConstructTree_step toks m i d) as [r|e] eqn:E; [|simpl in *; by destruct e].
  apply step_wf in E; [|done]. cbn [rbind]. destruct r as [m' o' d'|d']; [|done]. by apply IH.
Qed.
End fits_loop.

(** The limits of a document: html, head and body may be implied, every start
    tag takes an entry of the stack for itself and one for its text, and every
    character may come to be appended to the same text. *)
Definition fits_arrays (toks : list Token) : Prop :=
  (tokens_of START_TAG toks 0 <= 46 /\ tokens_of CHAR toks 0 <= 99)%nat.

Lemma ConstructTree_within toks fuel first m :
  linked toks -> fits_arrays toks -> within wf_dom (ConstructTree toks fuel first (dom0 m)).
Proof.
  intros Hl [Hs Hc].
  assert (within (fun _ => True) (ConstructTree toks fuel first (dom0 m))) as H.
  2:{ pose proof (ConstructTree_wf_ toks fuel first m) as Hw.
      destruct (ConstructTree toks fuel first (dom0 m)) as [d|e]; [|done]. by apply Hw. }
  unfold ConstructTree. destruct (CreateDocument (dom0 m)) as [[p d1]|e] eqn:E.
  2:{ unfold CreateDocument, alloc_node, d_malloc in E. case_match; by simplify_eq/=. }
  cbn [rbind]. destruct (PushStack _ _) as [d2|e] eqn:Ep.
  2:{ exfalso. apply CreateDocument_created in E as (_ & _ & Hst & _). unfold PushStack, array_store in Ep.
      simpl in Ep. rewrite Hst in Ep. done. }
  pose proof (start_wf _ _ _ _ E Ep) as Hwf. cbn [rbind]. apply room_loop; [done| |done|].
  { change (Z.to_nat TEXT_SIZE) with 100%nat. lia. }
  destruct first as [i|]; [|done].
  pose proof (tokens_of_le START_TAG toks 0 i ltac:(lia)).
  pose proof (tokens_of_le CHAR toks 0 i ltac:(lia)). pose proof (opens_text_le d2).
  apply PushStack_Done in Ep as [_ ->]. split.
  { simpl in *. unfold STACK_SIZE in *. lia. }
  intros k n txt Hk Ht. exfalso. unfold CreateDocument, alloc_node in E. rinv. simplify_eq/=.
  match goal with H : d_malloc _ _ = _ |- _ => apply d_malloc_Done in H as -> end.
  simpl in Hk. destruct k as [|k]; [|by destruct k]. simpl in Hk. by simplify_eq/=.
Qed.

(** C19: whatever the tokens were, a DOM that [ConstructTree] returns is a
    well-formed tree: parents come before their children, the child list of
    every node (first child, next siblings, previous siblings, last child) is
    exactly the list of the nodes whose parent it is, in document order, and
    every open element is a node of the tree.  [PushStack] and the [strcat] into
    a text test no bound, and the run ends at a store outside the stack of 100
    entries or the 100 bytes of a text; a document of at most 46 start tags and
    99 characters never comes to such a store. *)
Theorem ConstructTree_wf toks fuel first m :
  (forall d, ConstructTree toks fuel first (dom0 m) = Done d -> wf_dom d) /\
  (linked toks -> fits_arrays toks -> ConstructTree toks fuel first (dom0 m) <> Stop Overflow).
Proof.
  split; [intros d; apply ConstructTree_wf_|]. intros Hl Hf E.
  pose proof (ConstructTree_within toks fuel first m Hl Hf) as H. by rewrite E in H.
Qed.

Lemma ConstructTree_wf_witness :
  length (nodes demo_dom) = 9%nat /\ wf_dom demo_dom /\
  linked demo_toks /\ fits_arrays demo_toks /\
  ConstructTree demo_toks 60 (Some 0%nat) (dom0 2000) <> Stop Overflow.
Proof.
  assert (linked demo_toks) as Hl by (apply linked_bool; vm_compute; reflexivity).
  assert (fits_arrays demo_toks) as Hf by (split; apply Nat.leb_le; vm_compute; reflexivity).
  split; [vm_compute; reflexivity|]. split; [|split; [done|split; [done|]]].
  - apply (ConstructTree_wf demo_toks 60 (Some 0%nat) 2000). vm_compute. reflexivity.
  - by apply (ConstructTree_wf demo_toks 60 (Some 0%nat) 2000).
Defined.

(** Beyond the limits the store does leave the array: 98 nested [div]s in the
    body, or a text of 100 characters. *)
Definition page_toks (page : list Z) : list Token :=
  match Tokenize page demo_store with Done z => tokens (z_store z) | Stop _ => [] end.
Definition body_of (page : list Z) : res dom :=
  ConstructTree (page_toks page) 1000 (Some 0%nat) (dom0 2000).
Example deep_page_overflows :
  body_of (lit "<body>" ++ mjoin (replicate 97 (lit "<div>"))) <> Stop Overflow /\
  body_of (lit "<body>" ++ mjoin (replicate 98 (lit "<div>"))) = Stop Overflow.
Proof. split; [vm_compute; discriminate|vm_compute; reflexivity]. Qed.
Example long_text_overflows :
  body_of (lit "<body>" ++ replicate 99 97) <> Stop Overflow /\
  body_of (lit "<body>" ++ replicate 100 97) = Stop Overflow.
Proof. split; [vm_compute; discriminate|vm_compute; reflexivity]. Qed.
