(* ===== verification/Rendering.v ===== *)
(** * Rendering in the C browser ([app/browser/rendering.c]) and the debug
    printer of the DOM (end of [parse.c])

    [Generate] walks the tree depth first along the child and sibling pointers
    and prints Markdown; [Render] is the whole pipeline from HTML to output. *)

From stdpp Require Import strings relations.
From Stdlib Require Import Sorted.
From S2P Require Import Prelude CMem Tokenize Parse.

(** ** Operations *)

(** The output so far and the global [first_line]. *)
Record rstate := Rs { r_out : list Z; first_line : bool }.
Definition print (s : list Z) (st : rstate) : rstate := Rs (r_out st ++ s) (first_line st).
Definition clear_first_line (st : rstate) : rstate := Rs (r_out st) false.
Definition newline_unless_first (st : rstate) : rstate :=
  if first_line st then st else print [10] st.

Fixpoint Printable (s : list Z) : bool :=
  match s with
  | [] => false
  | c :: s' =>
    if negb (c =? 9) && negb (c =? 10) && negb (c =? 12) && negb (c =? 13) && negb (c =? 32)
    then true else Printable s'
  end.

(** The [strcmp] chain over [h1] ... [h6]. *)
Definition heading_prefix (name : list Z) : list Z :=
  if decide (name = lit "h1") then lit "# " else
  if decide (name = lit "h2") then lit "## " else
  if decide (name = lit "h3") then lit "### " else
  if decide (name = lit "h4") then lit "#### " else
  if decide (name = lit "h5") then lit "##### " else
  if decide (name = lit "h6") then lit "###### " else [].

Definition Markdown (node : Node) (st : rstate) : res rstate :=
  if decide (node_type node = TEXT) then
    do s <- deref (n_data node);
    Done (if Printable s then clear_first_line (print s st) else st)
  else
    match element_type node with
    | HEADING =>
      do name <- deref (n_tag_name node);
      Done (clear_first_line (print (heading_prefix name) st))
    | UL | DIV | PARAGRAPH => Done (newline_unless_first st)
    | LI => Done (clear_first_line (print (lit "- ") (newline_unless_first st)))
    | _ => Done st
    end.

(** [Dfs] and its [for] loop over the siblings. *)
Fixpoint Dfs (fuel : nat) (ns : list Node) (i : nat) (st : rstate) : res rstate :=
  match fuel with
  | O => Stop FuelOut
  | S fuel' =>
    do node <- deref (ns !! i);
    do st <- Markdown node st;
    Dfs_siblings fuel' ns (first_child node) st
  end
with Dfs_siblings (fuel : nat) (ns : list Node) (cur : option nat) (st : rstate) : res rstate :=
  match cur with
  | None => Done st
  | Some c =>
    match fuel with
    | O => Stop FuelOut
    | S fuel' =>
      do st <- Dfs fuel' ns c st;
      do node <- deref (ns !! c);
      Dfs_siblings fuel' ns (next_sibling node) st
    end
  end.

Definition Dfs_fuel (ns : list Node) : nat := 2 * length ns.

Definition Generate (d : dom) (out : list Z) : res (list Z) :=
  do root <- deref (root_node d);
  do st <- Dfs (Dfs_fuel (nodes d)) (nodes d) root (Rs out true);
  Done (r_out st ++ [10]).

(** [Tokenize], [ConstructTree], [Generate] in one program, sharing the arena. *)
Definition Render (html : list Z) (s : store) (out : list Z) : res (list Z) :=
  do z <- Tokenize html s;
  let s := z_store z in
  do d <- ConstructTree (tokens s) (loop_fuel (tokens s)) (first_token s) (dom0 (malloc_size s));
  Generate d out.

(** *** Debug printer *)

Section PrintNodes.
(** [PrintNum] of liumlib, as the text it prints. *)
Variable num_text : Z -> list Z.

Definition PrintNode (node : Node) (depth : nat) : res (list Z) :=
  let pre := num_text (Z.of_nat depth) ++ lit ":" ++ replicate depth 32 ++ lit ":" in
  match node_type node with
  | DOCUMENT => Done (pre ++ lit "DOCUMENT" ++ [10])
  | TEXT => do s <- deref (n_data node); Done (pre ++ lit "TEXT: " ++ s ++ [10])
  | ELEMENT => do s <- deref (n_tag_name node); Done (pre ++ lit "ELEMENT: " ++ s ++ [10])
  end.

Fixpoint DfsWithDepth (fuel : nat) (ns : list Node) (i depth : nat) : res (list Z) :=
  match fuel with
  | O => Stop FuelOut
  | S fuel' =>
    do node <- deref (ns !! i);
    do a <- PrintNode node depth;
    do b <- DfsWithDepth_siblings fuel' ns (first_child node) depth;
    Done (a ++ b)
  end
with DfsWithDepth_siblings (fuel : nat) (ns : list Node) (cur : option nat) (depth : nat) : res (list Z) :=
  match cur with
  | None => Done []
  | Some c =>
    match fuel with
    | O => Stop FuelOut
    | S fuel' =>
      do a <- DfsWithDepth fuel' ns c (S depth);
      do node <- deref (ns !! c);
      do b <- DfsWithDepth_siblings fuel' ns (next_sibling node) depth;
      Done (a ++ b)
    end
  end.

Definition PrintNodes (d : dom) : res (list Z) :=
  do root <- deref (root_node d);
  do a <- DfsWithDepth (Dfs_fuel (nodes d)) (nodes d) root 0;
  Done (lit "--------------" ++ [10] ++ a ++ lit "--------------" ++ [10]).
End PrintNodes.

Example Render_demo :
  Render (lit demo_page) demo_store [] =
  Done (lit "# A" ++ [10] ++ [10] ++ lit "- b" ++ [10]).
Proof. vm_compute. reflexivity. Qed.

(** ** Document order

    [preorder fuel ns i] lists [i] and what is below it by the [parent] fields
    alone, without the child and sibling pointers. *)

Fixpoint preorder (fuel : nat) (ns : list Node) (i : nat) : list nat :=
  match fuel with
  | O => []
  | S fuel' => i :: flat_map (preorder fuel' ns) (kids ns i)
  end.
Definition document_order (ns : list Node) (i : nat) : list nat := preorder (length ns - i) ns i.

Definition child_of (ns : list Node) (c p : nat) : Prop := parent_of ns c = Some p.
(** [x] is [i] or below it. *)
Definition below (ns : list Node) (x i : nat) : Prop := rtc (child_of ns) x i.

(** Rendering a list of nodes one after the other. *)
Fixpoint render_list (ns : list Node) (l : list nat) (st : rstate) : res rstate :=
  match l with
  | [] => Done st
  | i :: l' => do node <- deref (ns !! i); do st <- Markdown node st; render_list ns l' st
  end.

Lemma render_list_app ns l1 l2 st :
  render_list ns (l1 ++ l2) st = (do st <- render_list ns l1 st; render_list ns l2 st).
Proof.
  revert st. induction l1 as [|i l1 IH]; intros st; [done|]. simpl.
  destruct (ns !! i) as [node|]; [|done]. simpl. destruct (Markdown node st); simpl; [apply IH|done].
Qed.

Lemma flat_map_ext_in' {A B} (f g : A -> list B) (l : list A) :
  (forall x, x ∈ l -> f x = g x) -> flat_map f l = flat_map g l.
Proof.
  induction l as [|x l IH]; intros H; [done|]. simpl. rewrite H by (by left).
  f_equal. apply IH. intros. apply H. by right.
Qed.

Lemma seq_sorted i n : StronglySorted lt (seq i n).
Proof.
  revert i. induction n as [|n IH]; intros i; simpl; constructor; [apply IH|].
  apply List.Forall_forall. intros x Hx%in_seq. lia.
Qed.
Lemma kids_sorted ns p : StronglySorted lt (kids ns p).
Proof.
  unfold kids. pose proof (seq_sorted 0 (length ns)) as H. induction H as [|x l Hs IH Hx]; [constructor|].
  rewrite list.filter_cons. case_decide; [|done]. constructor; [done|].
  apply List.Forall_forall. intros y Hy%list_elem_of_In. apply list_elem_of_filter in Hy as [_ Hy].
  rewrite List.Forall_forall in Hx. by apply Hx, list_elem_of_In.
Qed.

Section Wf.
Context (ns : list Node) (Hwf : wf_nodes ns).

Lemma kids_bounds p c : c ∈ kids ns p -> (p < c < length ns)%nat.
Proof.
  intros Hc. destruct (kids_lt _ _ _ Hwf Hc) as (? & m & Hm). apply lookup_lt_Some in Hm. lia.
Qed.

Lemma preorder_fuel f i :
  (length ns - i <= f)%nat -> (i < length ns)%nat -> preorder f ns i = document_order ns i.
Proof.
  unfold document_order. revert i. induction f as [f IH] using lt_wf_ind. intros i Hf Hi.
  destruct f as [|f]; [lia|]. destruct (length ns - i)%nat as [|k] eqn:Ek; [lia|]. simpl. f_equal.
  apply flat_map_ext_in'. intros c Hc%kids_bounds.
  rewrite (IH f) by lia. symmetry. apply (IH k); lia.
Qed.

Lemma document_order_unfold i :
  (i < length ns)%nat ->
  document_order ns i = i :: flat_map (document_order ns) (kids ns i).
Proof.
  intros Hi. rewrite <- (preorder_fuel (S (length ns - i)) i) by lia. cbn [preorder]. f_equal.
  apply flat_map_ext_in'. intros c Hc%kids_bounds. apply preorder_fuel; lia.
Qed.

(** [Dfs] is rendering in document order. *)
Lemma Dfs_spec f :
  (forall i st, (i < length ns)%nat -> (2 * (length ns - i) <= f)%nat ->
     Dfs f ns i st = render_list ns (document_order ns i) st) /\
  (forall l o before st, sib_chain ns o before l -> (forall c, c ∈ l -> (c < length ns)%nat) ->
     StronglySorted lt l ->
     (forall c, c ∈ l -> 2 * (length ns - c) + 1 <= f)%nat ->
     Dfs_siblings f ns o st = render_list ns (flat_map (document_order ns) l) st).
Proof.
  induction f as [|f [IHd IHs]]; (split; [intros i st Hi Hf|intros l o before st Hc Hb Hs Hf]).
  - lia.
  - destruct l as [|c l]; [by simpl in *; subst|]. specialize (Hf c ltac:(by left)). lia.
  - cbn [Dfs]. rewrite document_order_unfold by done. simpl.
    destruct (lookup_lt_is_Some_2 _ _ Hi) as [node Hn]. rewrite Hn. simpl.
    destruct (Markdown node st) as [st'|]; [|done]. simpl.
    destruct (Hwf _ _ Hn) as (_ & Hc & _).
    apply (IHs _ _ _ _ Hc).
    + intros c Hk%kids_bounds. lia.
    + apply kids_sorted.
    + intros c Hk%kids_bounds. lia.
  - destruct l as [|c l]; simpl in Hc; [by subst|].
    destruct Hc as (-> & m & Hm & _ & Hc). cbn [Dfs_siblings flat_map].
    rewrite render_list_app. rewrite IHd by (by (apply Hb; left) || (specialize (Hf c ltac:(by left)); lia)).
    destruct (render_list ns (document_order ns c) st) as [st'|]; [|done]. simpl.
    rewrite Hm. simpl. apply StronglySorted_inv in Hs as [Hs Hlt].
    apply (IHs _ _ _ _ Hc); [intros; apply Hb; by right|done|].
    intros c' Hc'. rewrite List.Forall_forall in Hlt.
    specialize (Hlt c' ltac:(by apply list_elem_of_In)).
    specialize (Hf c ltac:(by left)). specialize (Hb c' ltac:(by right)). lia.
Qed.

(** *** What document order contains *)

Lemma below_le x i : below ns x i -> (i <= x)%nat.
Proof.
  induction 1 as [|x y z Hxy _ IH]; [done|]. apply elem_of_kids, kids_bounds in Hxy. lia.
Qed.

Lemma elem_of_document_order i x :
  (i < length ns)%nat -> x ∈ document_order ns i <-> below ns x i.
Proof.
  intros Hi. remember (length ns - i)%nat as k eqn:Hk. revert i Hi Hk.
  induction k as [k IH] using lt_wf_ind. intros i Hi ->.
  rewrite document_order_unfold, elem_of_cons by done. split.
  - intros [->|Hx]; [apply rtc_refl|]. apply list_elem_of_In, in_flat_map in Hx as (c & Hc & Hx).
    apply list_elem_of_In in Hc, Hx. pose proof (kids_bounds _ _ Hc).
    eapply rtc_r; [|by apply elem_of_kids]. eapply (IH (length ns - c)%nat); [lia|lia|done|done].
  - intros H. apply rtc_inv_r in H as [->|(c & Hxc & Hc)]; [by left|right].
    apply elem_of_kids in Hc. pose proof (kids_bounds _ _ Hc).
    apply list_elem_of_In, in_flat_map. exists c. split; [by apply list_elem_of_In|].
    apply list_elem_of_In. eapply (IH (length ns - c)%nat); [lia|lia|done|done].
Qed.

(** The chain of ancestors is linear. *)
Lemma below_linear x i j : below ns x i -> below ns x j -> below ns i j \/ below ns j i.
Proof.
  intros Hi. revert j. induction Hi as [|x y i Hxy Hyi IH]; intros j Hj; [by left|].
  apply rtc_inv in Hj as [->|(y' & Hxy' & Hj)].
  - right. by eapply rtc_l.
  - unfold child_of in *. assert (y' = y) as -> by congruence. by apply IH.
Qed.

Lemma siblings_disjoint i c c' x :
  c ∈ kids ns i -> c' ∈ kids ns i -> below ns x c -> below ns x c' -> c = c'.
Proof.
  intros Hc Hc' Hx Hx'.
  assert (forall a b, a ∈ kids ns i -> b ∈ kids ns i -> below ns a b -> a = b) as G.
  { intros a b Ha Hb Hab. apply rtc_inv in Hab as [->|(p & Hp & Hpb)]; [done|].
    apply elem_of_kids in Ha. unfold child_of in Hp. assert (p = i) as -> by congruence.
    apply below_le in Hpb. apply kids_bounds in Hb. lia. }
  destruct (below_linear _ _ _ Hx Hx'); [by apply G|symmetry; by apply G].
Qed.

Lemma NoDup_flat_map {A B} (f : A -> list B) l :
  NoDup l -> (forall x, x ∈ l -> NoDup (f x)) ->
  (forall x y b, x ∈ l -> y ∈ l -> b ∈ f x -> b ∈ f y -> x = y) -> NoDup (flat_map f l).
Proof.
  induction 1 as [|x l Hx Hl IH]; intros Hf Hd; simpl; [constructor|].
  apply list.NoDup_app. split_and!; [apply Hf; by left| |].
  - intros b Hb Hin. apply list_elem_of_In, in_flat_map in Hin as (y & Hy & Hb').
    apply list_elem_of_In in Hy, Hb'. apply Hx. by rewrite (Hd x y b); [|left|right|..].
  - apply IH; [intros; apply Hf; by right|]. intros y z b ? ?. apply Hd; by right.
Qed.

Lemma document_order_NoDup i : (i < length ns)%nat -> NoDup (document_order ns i).
Proof.
  intros Hi. remember (length ns - i)%nat as k eqn:Hk. revert i Hi Hk.
  induction k as [k IH] using lt_wf_ind. intros i Hi ->.
  rewrite document_order_unfold by done. constructor.
  - intros Hx. apply list_elem_of_In, in_flat_map in Hx as (c & Hc & Hx).
    apply list_elem_of_In in Hc, Hx. apply kids_bounds in Hc.
    apply elem_of_document_order, below_le in Hx; lia.
  - apply NoDup_flat_map; [apply kids_NoDup| |].
    + intros c Hc%kids_bounds. eapply (IH (length ns - c)%nat); [lia|lia|done].
    + intros c c' x Hc Hc' Hx Hx'. pose proof (kids_bounds _ _ Hc). pose proof (kids_bounds _ _ Hc').
      apply elem_of_document_order in Hx, Hx'; try lia. by eapply siblings_disjoint.
Qed.
End Wf.

(** On the tree of any document, the depth-first walk of the renderer
    terminates, visits exactly the nodes below its start, each once, a parent
    before its children and children in document order, and its output is that
    of rendering these nodes one after the other. *)
Theorem Dfs_document_order d i st :
  wf_dom d -> (i < length (nodes d))%nat ->
  Dfs (Dfs_fuel (nodes d)) (nodes d) i st = render_list (nodes d) (document_order (nodes d) i) st /\
  NoDup (document_order (nodes d) i) /\
  (forall x, x ∈ document_order (nodes d) i <-> below (nodes d) x i) /\
  document_order (nodes d) i = i :: flat_map (document_order (nodes d)) (kids (nodes d) i).
Proof.
  intros [Hwf _ _ _] Hi. split_and!.
  - apply (Dfs_spec _ Hwf); [done|unfold Dfs_fuel; lia].
  - by apply document_order_NoDup.
  - intros x. by apply elem_of_document_order.
  - by apply document_order_unfold.
Qed.

Lemma Dfs_document_order_witness :
  document_order (nodes demo_dom) 0 = seq 0 9 /\
  Dfs 18 (nodes demo_dom) 0 (Rs [] true) = render_list (nodes demo_dom) (seq 0 9) (Rs [] true).
Proof.
  split; [vm_compute; reflexivity|].
  apply (Dfs_document_order demo_dom 0 (Rs [] true)); [|vm_compute; lia].
  apply (ConstructTree_wf_ demo_toks 60 (Some 0%nat) 2000). vm_compute. reflexivity.
Defined.
