(* ===== verification/HttpServer.v ===== *)
(** * The HTTP server ([app/httpserver/httpserver.c])

    The server on the byte memory: it receives a request in a stack buffer,
    cuts it with [strtok], builds the response in memory from [malloc] with
    [strcpy] and [strcat], and sends it.  The [while (1)] of [StartServer] is a
    [loop] that no [break] leaves: a run ends in [exit], or blocked in a system
    call.  The theorems give the page for every path, and the answers to a
    whole sequence of requests, up to the one at which the arena of [malloc],
    from which nothing is ever freed, is used up. *)

From stdpp Require Import strings.
From S2P Require Import Prelude CMem LiumlibStr LiumlibNum Syscalls.

Definition status_200 : string := "HTTP/1.1 200 OK
".
Definition status_404 : string := "HTTP/1.1 404 Not Found
".
Definition status_500 : string := "HTTP/1.1 500 Internal Server Error
".
Definition content_type : string := "Content-Type: text/html; charset=UTF-8
".
Definition newline : string := "
".
Definition index_body : string := "<html>
  <body>
    <h1>Hello World</h1>
    <div>
      <p>This is a sample paragraph.</p>
      <ul>
        <li>List 1</li>
        <li>List 2</li>
        <li>List 3</li>
      </ul>
    </div>
  </body>
</html>
".
Definition page1_body : string := "<html>
  <body>
    <h1>Example Page 1</h1>
    <div>
      <p>This is a sample paragraph.</p>
      <ul>
        <li>List 1</li>
        <li>List 2</li>
      </ul>
      <ul>
        <li>List 3</li>
        <li>List 4</li>
      </ul>
    </div>
  </body>
</html>
".
Definition page2_body : string := "<html>
  <body>
    <h1>Example Page 2</h1>
    <div>
      <p>This is the first paragraph.</p>
    </div>
    <ul>
      <li>List 1</li>
      <li>List 2</li>
    </ul>
    <div>
      <p>This is the second paragraph.</p>
    </div>
  </body>
</html>
".
Definition error_body : string := "<html>
  <body>
    <h1>Error!</h1>
    <p>Page is not found.</p>
 </body>
</html>
".
Definition only_get : string := "Only GET method is supported.".

Section HttpServer.
(** The addresses of the string literals and of the stack buffer [request]. *)
Context (L : string -> Z) (request : Z).

Definition StatusLine (response status : Z) : M unit :=
  if status =? 200 then strcpy response (L status_200) ;; ret tt
  else if status =? 404 then strcpy response (L status_404) ;; ret tt
  else strcpy response (L status_500) ;; ret tt.
Definition Headers (response : Z) : M unit := strcat response (L content_type) ;; ret tt.
Definition Crlf (response : Z) : M unit := strcat response (L newline) ;; ret tt.
Definition Body (response message : Z) : M unit := strcat response message ;; ret tt.
Definition BuildResponse (response status message : Z) : M unit :=
  StatusLine response status ;;
  Headers response ;;
  Crlf response ;;
  Body response message.

(** [strcmp(p, q) == 0] *)
Definition equal (p q : Z) : M bool := let! r := strcmp p q in ret (r =? 0).
(** [strcmp(p, q) == 0 || strcmp(p, r) == 0] *)
Definition equal_either (p q r : Z) : M bool :=
  let! b := equal p q in if b then ret true else equal p r.

Definition Route (response path : Z) : M unit :=
  let! is_index := equal_either path (L "/") (L "/index.html") in
  if is_index then BuildResponse response 200 (L index_body)
  else
    let! is_page1 := equal path (L "/page1.html") in
    if is_page1 then BuildResponse response 200 (L page1_body)
    else
      let! is_page2 := equal path (L "/page2.html") in
      if is_page2 then BuildResponse response 200 (L page2_body)
      else BuildResponse response 404 (L error_body).

(** The second half of an iteration: the response is built and sent. *)
Definition respond (tcp : bool) (answer_fd : Z) (address : sockaddr_in) (method path : Z)
  : M (sockaddr_in + unit) :=
  let! response := malloc SIZE_RESPONSE in
  let! is_get := equal method (L "GET") in
  (if is_get then Route response path else BuildResponse response 500 (L only_get)) ;;
  let! n := strlen response in
  let! size := sendto answer_fd response n address in
  if size <? 0 then Println_lit "Error: Failed to send a response." ;; exit_ EXIT_FAILURE
  else
    (if tcp then let! r := close answer_fd in ret tt else ret tt) ;;
    continue_ address.

(** One iteration of [while (1)]; [address] is the only variable that lives on,
    beside the memory. *)
Definition serve (tcp : bool) (socket_fd : Z) (address : sockaddr_in) : M (sockaddr_in + unit) :=
  Println_lit "Log: Waiting for a request...
" ;;
  let! received :=
    (if tcp then
       let! r := accept socket_fd address in
       if r.1 <? 0 then Println_lit "Error: Failed to accept a socket." ;; exit_ 1
       else
         let! size := read r.1 request SIZE_REQUEST in
         ret (size, r.1, r.2)
     else
       let! r := recvfrom socket_fd request SIZE_REQUEST address in
       ret (r.1, socket_fd, r.2)) in
  let '(size, answer_fd, address) := received in
  if size <? 0 then Println_lit "Error: Failed to receive a request." ;; exit_ EXIT_FAILURE
  else
    Println_lit "----- request -----" ;;
    Println request ;;
    let! method := strtok request (L " ") in
    let! path := strtok 0 (L " ") in
    respond tcp answer_fd address method path.

Definition StartServer (port : Z) (tcp : bool) : M unit :=
  let! socket_fd := socket AF_INET (if tcp then SOCK_STREAM else SOCK_DGRAM) 0 in
  if socket_fd <? 0 then Println_lit "Error: Failed to create a socket" ;; exit_ 1
  else
    let address := SockAddr (htons port) INADDR_ANY in
    let! r := bind_ socket_fd address in
    if r <? 0 then Println_lit "Error: Failed to bind a socket" ;; exit_ EXIT_FAILURE
    else
      (if tcp then
         let! r := listen socket_fd 3 in
         if r <? 0 then Println_lit "Error: Failed to listen a socket" ;; exit_ 1 else ret tt
       else ret tt) ;;
      loop (serve tcp socket_fd) address ;;
      let! r := close socket_fd in ret tt.

(** The parsed [port] and [tcp], or [None] for a parse error. *)
Definition ParseArgs (argc : Z) (argv : list Z) : M (option (Z * bool)) :=
  loop (fun '(argc, argv, port, tcp) =>
    if negb (0 <? argc) then break_ (Some (port, tcp))
    else
      let! is_port := (let! b := equal (L "--port") (arg argv 0) in
                       if b then ret true else equal (L "-p") (arg argv 0)) in
      if is_port then
        let! n := StrToNum16 (arg argv 1) in
        continue_ (argc - 2, drop 2 argv, n.1, tcp)
      else
        let! is_tcp := equal (L "--tcp") (arg argv 0) in
        if is_tcp then continue_ (argc - 1, drop 1 argv, port, true)
        else break_ None) (argc, argv, 8888, false).

Definition main (argc : Z) (argv : list Z) : M unit :=
  let! r := ParseArgs (argc - 1) (drop 1 argv) in
  match r with
  | None =>
    Println_lit "Usage: httpserver.bin [ OPTION ]" ;;
    Println_lit "       -p, --port    Port number. Default: 8888" ;;
    Println_lit "           --tcp     Flag to use TCP. Use UDP when it doesn't exist." ;;
    exit_ EXIT_FAILURE
  | Some (port, tcp) =>
    (if tcp then Println_lit "Log: Using protocol: TCP"
     else Println_lit "Log: Using protocol: UDP") ;;
    Print_lit "Log: Listening port: " ;;
    PrintNum port ;;
    Print_lit newline ;;
    StartServer port tcp ;;
    exit_ 0
  end.

(** ** The page of a path *)

Definition literals : list string :=
  [status_200; status_404; status_500; content_type; newline; index_body; page1_body; page2_body; error_body;
   only_get; "/"; "/index.html"; "/page1.html"; "/page2.html"; " "; "GET"]%string.
Definition status_text (status : Z) : string :=
  if status =? 200 then status_200 else if status =? 404 then status_404 else status_500.
Definition response_text (status : Z) (body : string) : list Z :=
  lit (status_text status) ++ lit content_type ++ lit newline ++ lit body.
Definition page (path : list Z) : list Z :=
  if decide (path = lit "/" \/ path = lit "/index.html") then response_text 200 index_body
  else if decide (path = lit "/page1.html") then response_text 200 page1_body
  else if decide (path = lit "/page2.html") then response_text 200 page2_body
  else response_text 404 error_body.

Lemma lit_lengths :
  Forall (fun s => (length (lit s) < 500)%nat /\ nonzero (lit s)) literals /\
  Forall (fun s => (length (lit s) < 50)%nat) [status_200; status_404; status_500; content_type; newline].
Proof.
  split.
  - assert (forallb (fun s => (length (lit s) <? 500)%nat && forallb (fun b => (0 <? b) && (b <? 256)) (lit s)) literals = true)
      as H by (vm_compute; reflexivity).
    rewrite forallb_forall in H. apply List.Forall_forall. intros s Hs. specialize (H s Hs).
    apply andb_prop in H as [H1 H2]. split; [by apply Nat.ltb_lt|by apply nonzerob_sound].
  - repeat constructor; apply Nat.ltb_lt; vm_compute; reflexivity.
Qed.
Lemma lit_short s : In s literals -> (length (lit s) < 500)%nat.
Proof. destruct lit_lengths as [H _]. rewrite List.Forall_forall in H. apply H. Qed.
Lemma status_short status : (length (lit (status_text status)) < 50)%nat /\ In (status_text status) literals.
Proof.
  unfold status_text. destruct (status =? 200); [|destruct (status =? 404)];
    (split; [apply Nat.ltb_lt; vm_compute; reflexivity|simpl; tauto]).
Qed.
Lemma response_length status body : In body literals -> (length (response_text status body) < 700)%nat.
Proof.
  intros Hb%lit_short. destruct (status_short status) as [Hs _]. unfold response_text. rewrite !length_app.
  replace (length (lit content_type)) with 39%nat by (vm_compute; reflexivity).
  replace (length (lit newline)) with 1%nat by (vm_compute; reflexivity). lia.
Qed.

Lemma BuildResponse_ok response status body fuel w :
  zeroed w response 2000 -> lits L w literals -> apart L response 2000 literals -> In body literals ->
  (2000 < fuel)%nat ->
  exists w', BuildResponse response status (L body) fuel w = Ok tt w' /\
    buffer w' response 2000 (response_text status body) /\ frame response 2000 w w'.
Proof.
  intros Hz Hl Ha Hb Hf. destruct (status_short status) as [Hss Hsi]. pose proof (lit_short _ Hb) as Hbs.
  assert (In content_type literals /\ In newline literals) as [Hc Hn] by (simpl; tauto).
  assert (length (lit content_type) = 39%nat /\ length (lit newline) = 1%nat) as [Lc Ln] by (split; vm_compute; reflexivity).
  destruct (strcpy_zeroed (lit (status_text status)) response 2000 (L (status_text status)) fuel w)
    as (w1 & E1 & B1 & F1); [done|by eapply lits_In|by eapply apart_In|lia..|].
  change (Z.of_nat 2000) with 2000 in B1, F1.
  assert (lits L w1 literals) as Hl1 by (by eapply lits_frame).
  destruct (strcat_buffer (lit (status_text status)) (lit content_type) response 2000 (L content_type) fuel w1)
    as (w2 & E2 & B2 & F2); [done|by eapply lits_In|by eapply apart_In|lia..|].
  assert (lits L w2 literals) as Hl2 by (by eapply lits_frame).
  destruct (strcat_buffer (lit (status_text status) ++ lit content_type) (lit newline) response 2000 (L newline) fuel w2)
    as (w3 & E3 & B3 & F3); [done|by eapply lits_In|by eapply apart_In|rewrite ?length_app; lia..|].
  assert (lits L w3 literals) as Hl3 by (by eapply lits_frame).
  destruct (strcat_buffer ((lit (status_text status) ++ lit content_type) ++ lit newline) (lit body) response 2000 (L body) fuel w3)
    as (w4 & E4 & B4 & F4); [done|by eapply lits_In|by eapply apart_In|rewrite ?length_app; lia..|].
  exists w4. split; [|split].
  - assert (StatusLine response status fuel w = Ok tt w1) as E0.
    { unfold StatusLine, status_text in *. destruct (status =? 200); [|destruct (status =? 404)];
        by erewrite bind_ok by done. }
    unfold BuildResponse, Headers, Crlf, Body.
    erewrite bind_ok by done. erewrite bind_ok by (by erewrite bind_ok by done).
    erewrite bind_ok by (by erewrite bind_ok by done). by erewrite bind_ok by done.
  - unfold response_text. by rewrite !app_assoc.
  - by repeat (etransitivity; [|done]).
Qed.

Lemma equal_ok s1 s2 p q fuel w :
  cstr w p s1 -> cstr w q s2 -> (length s1 < fuel)%nat ->
  equal p q fuel w = Ok (bool_decide (s1 = s2)) w.
Proof.
  intros H1 H2 Hf. unfold equal. erewrite bind_ok by (by apply strcmp_ref). unfold ret. f_equal.
  destruct (cmp_ref_spec s1 s2) as (E & _); [by eapply cstr_nonzero..|].
  case_bool_decide; [by apply Z.eqb_eq, E|]. apply Z.eqb_neq. by rewrite E.
Qed.
Lemma equal_lit s1 s p fuel w :
  cstr w p s1 -> lits L w literals -> In s literals -> (length s1 < fuel)%nat ->
  equal p (L s) fuel w = Ok (bool_decide (s1 = lit s)) w.
Proof. intros. apply equal_ok; try done. by eapply lits_In. Qed.

Lemma Route_ok response path p fuel w :
  zeroed w response 2000 -> lits L w literals -> apart L response 2000 literals ->
  cstr w path p -> (length p < fuel)%nat -> (2000 < fuel)%nat ->
  exists w', Route response path fuel w = Ok tt w' /\
    buffer w' response 2000 (page p) /\ frame response 2000 w w'.
Proof.
  intros Hz Hl Ha Hp Hf1 Hf2. unfold Route, page, equal_either.
  erewrite bind_ok.
  2:{ erewrite bind_ok by (eapply equal_lit; [done..|simpl; tauto|done]).
      instantiate (1 := w). instantiate (1 := bool_decide (p = lit "/" \/ p = lit "/index.html")).
      case_bool_decide as H1; [by rewrite bool_decide_true by auto|].
      erewrite equal_lit by (try done; simpl; tauto). f_equal. apply bool_decide_ext. tauto. }
  case_bool_decide; [rewrite decide_True by done; apply BuildResponse_ok; (done || simpl; tauto)|].
  rewrite decide_False by done. erewrite bind_ok by (eapply equal_lit; [done..|simpl; tauto|done]).
  case_bool_decide; [rewrite decide_True by done; apply BuildResponse_ok; (done || simpl; tauto)|].
  rewrite decide_False by done. erewrite bind_ok by (eapply equal_lit; [done..|simpl; tauto|done]).
  case_bool_decide; [rewrite decide_True by done|rewrite decide_False by done];
    apply BuildResponse_ok; (done || simpl; tauto).
Qed.


(** ** A request *)

(** What holds of the memory when [k] requests were served. *)
Record ready (k : nat) (w : world) : Prop := Ready {
  rd_ok : mem_ok w;
  rd_request : writable w request SIZE_REQUEST;
  rd_last : mread (w_mem w) (request + 999) = Some 0;
  rd_arena : writable w (w_malloc_array w) MALLOC_MAX_SIZE;
  rd_size : w_malloc_size w = SIZE_RESPONSE * Z.of_nat k;
  rd_lits : lits L w literals;
  rd_apart_request : apart L request SIZE_REQUEST literals;
  rd_apart_arena : apart L (w_malloc_array w) MALLOC_MAX_SIZE literals;
  rd_sep : disjoint_from request SIZE_REQUEST (w_malloc_array w) MALLOC_MAX_SIZE;
  rd_pos : 0 < request;
}.

Lemma ready_same k w w' :
  w_mem w' = w_mem w -> w_malloc_array w' = w_malloc_array w -> w_malloc_size w' = w_malloc_size w ->
  ready k w -> ready k w'.
Proof.
  intros Em Ea Es []. unfold mem_ok, writable, lits, cstr, bytes_at in *. split; unfold mem_ok, writable, lits, cstr, bytes_at;
    rewrite ?Em, ?Ea, ?Es; done.
Qed.
Lemma ready_frame p n k w w' :
  frame p n w w' ->
  (request <= p /\ p + n <= request + 999) \/
  (w_malloc_array w <= p /\ p + n <= w_malloc_array w + MALLOC_MAX_SIZE) ->
  ready k w -> ready k w'.
Proof.
  intros F Hr []. assert (apart L p n literals) as Ha.
  { destruct Hr; [eapply (apart_sub L request)|eapply (apart_sub L (w_malloc_array w))]; try done; unfold SIZE_REQUEST in *; lia. }
  destruct F as [Ft Fe Fa Fs Fv Fm Fo Fk] eqn:EF. split; rewrite ?Fa, ?Fs; try done.
  - by apply Fk.
  - by eapply frame_writable.
  - rewrite Fo; [done|]. unfold disjoint_from, SIZE_REQUEST in *. lia.
  - by eapply frame_writable.
  - by eapply lits_frame.
Qed.

(** A request: its bytes, with the peer that sent it. *)
Record req := Req { rq_method : list Z; rq_path : list Z; rq_rest : list Z; rq_port : Z; rq_addr : Z }.
Definition rq_bytes (r : req) : list Z := rq_method r ++ 32 :: rq_path r ++ 32 :: rq_rest r.
Definition rq_ok (r : req) : Prop :=
  nonzero (rq_bytes r) /\ (32 ∉ rq_method r) /\ (32 ∉ rq_path r) /\ (length (rq_bytes r) <= 999)%nat.
Definition answer_text (r : req) : list Z :=
  if decide (rq_method r = lit "GET") then page (rq_path r) else response_text 500 only_get.
Definition reply (fd : Z) (r : req) : sys_event := SysSendto fd (answer_text r) (rq_port r) (rq_addr r).
Definition is_send (e : sys_event) : bool := match e with SysSendto _ _ _ _ => true | _ => false end.
Definition sends (w : world) : list sys_event := List.filter is_send (w_trace w).
Lemma sends_add w e : sends (add_trace w e) = sends w ++ (if is_send e then [e] else []).
Proof. unfold sends. simpl. rewrite List.filter_app. simpl. by destruct (is_send e). Qed.

(** The reception: the bytes are in the buffer, followed by what was there. *)
Lemma receive_ok k r w :
  ready k w -> rq_ok r ->
  ready k (put w request (rq_bytes r)) /\
  exists stale, cstr (put w request (rq_bytes r)) request (rq_bytes r ++ stale) /\
    (length (rq_bytes r ++ stale) <= 999)%nat.
Proof.
  intros Hr (Hn & _ & _ & Hl). assert (frame request 999 w (put w request (rq_bytes r))) as F by (apply frame_put; lia).
  assert (ready k (put w request (rq_bytes r))) as Hr' by (eapply ready_frame; [done|lia|done]).
  split; [done|]. destruct (cstr_exists (999 - length (rq_bytes r)) (request + Z.of_nat (length (rq_bytes r)))
    (put w request (rq_bytes r))) as (s & Hs & Hsl).
  - by destruct Hr'.
  - destruct Hr'. eapply writable_sub; [apply rd_request0|unfold SIZE_REQUEST; lia..].
  - destruct Hr'. rewrite <- rd_last0. f_equal. lia.
  - exists s. rewrite length_app. split; [|lia]. destruct Hs as [Hs1 Hs2]. split; [by apply Forall_app|].
    rewrite <- app_assoc. apply bytes_at_app. split; [|done]. apply bytes_at_put; [|by apply nonzero_bytes].
    destruct Hr. eapply writable_sub; [apply rd_request0|unfold SIZE_REQUEST; lia..].
Qed.


Lemma ready_token k w q : ready k w -> request <= q < request + 999 ->
  ready k (set_save_ptr (put w q [0]) (q + 1)).
Proof.
  intros Hr Hq. apply (ready_same k (put w q [0])); [done..|].
  eapply ready_frame; [apply (frame_put q 1); simpl; lia|lia|done].
Qed.
Lemma strtok_space k t rest p w fuel :
  ready k w -> (32 ∉ t) -> cstr w p (t ++ 32 :: rest) -> request <= p ->
  p + Z.of_nat (length (t ++ 32 :: rest)) <= request + 999 -> (2000 < fuel)%nat ->
  let q := p + Z.of_nat (length t) in
  let w' := set_save_ptr (put w q [0]) (q + 1) in
  strtok p (L " ") fuel w = Ok p w' /\ ready k w' /\ cstr w' p t /\ cstr w' (q + 1) rest.
Proof.
  intros Hr Ht Hc Hp Hl Hf q w'. rewrite length_app in Hl. simpl in Hl. pose proof Hr as Hr0. destruct Hr0.
  assert (cstr w (L " ") [32]) as Hsp by (apply (lits_In L literals " " w); [done|simpl; tauto]).
  assert (disjoint_from request SIZE_REQUEST (L " ") 2) as Hd.
  { apply (apart_In L _ _ literals " "); [done|simpl; tauto]. }
  destruct (strtok_ok t 32 rest [32] p (L " ") fuel w) as (w1 & E & -> & C1 & _ & Hs & C2); try done.
  - lia.
  - by left.
  - apply List.Forall_forall. intros x Hx%list_elem_of_In ->%list_elem_of_singleton. done.
  - eapply writable_sub; [apply rd_request0|unfold SIZE_REQUEST; lia..].
  - unfold disjoint_from, SIZE_REQUEST in *. simpl. lia.
  - rewrite length_app. simpl. lia.
  - simpl. lia.
  - split_and!; [done| |done|done]. apply ready_token; [done|]. unfold q. lia.
Qed.

Lemma tokens_ok k r stale w fuel :
  ready k w -> rq_ok r -> cstr w request (rq_bytes r ++ stale) ->
  (length (rq_bytes r ++ stale) <= 999)%nat -> (2000 < fuel)%nat ->
  exists w1 w2 path, strtok request (L " ") fuel w = Ok request w1 /\ strtok 0 (L " ") fuel w1 = Ok path w2 /\
    ready k w2 /\ cstr w2 request (rq_method r) /\ cstr w2 path (rq_path r) /\
    w_env w2 = w_env w /\ w_trace w2 = w_trace w /\
    request <= path /\ path + Z.of_nat (length (rq_path r)) + 1 <= request + SIZE_REQUEST.
Proof.
  intros Hr (_ & Hm & Hp & _) Hc Hl Hf. unfold rq_bytes in *. rewrite <- app_assoc in Hc, Hl.
  change ((32 :: rq_path r ++ 32 :: rq_rest r) ++ stale) with (32 :: (rq_path r ++ 32 :: rq_rest r) ++ stale) in Hc, Hl.
  rewrite <- app_assoc in Hc, Hl. simpl in Hc, Hl.
  destruct (strtok_space k (rq_method r) _ request w fuel Hr Hm Hc) as (E1 & R1 & M1 & C1); [lia..|].
  set (w1 := set_save_ptr _ _) in *. set (p := request + Z.of_nat (length (rq_method r)) + 1) in *.
  rewrite length_app in Hl. simpl in Hl.
  destruct (strtok_space k (rq_path r) _ p w1 fuel R1 Hp C1) as (E2 & R2 & M2 & C2); [lia..|].
  exists w1, (set_save_ptr (put w1 (p + Z.of_nat (length (rq_path r))) [0]) (p + Z.of_nat (length (rq_path r)) + 1)), p.
  rewrite length_app in Hl. simpl in Hl. destruct Hr. unfold SIZE_REQUEST.
  split_and!; [done| |done| |done|done|done|lia|lia].
  - rewrite strtok_null; [done|]. change (w_save_ptr w1) with p. lia.
  - change (cstr (put w1 (p + Z.of_nat (length (rq_path r))) [0]) request (rq_method r)).
    apply cstr_put_ne; [unfold disjoint_from; simpl; lia|done].
Qed.

(** The response of one request, in fresh memory. *)
Lemma respond_ok k r w path fuel :
  ready k w -> (k < 500)%nat -> cstr w request (rq_method r) -> cstr w path (rq_path r) ->
  request <= path -> path + Z.of_nat (length (rq_path r)) + 1 <= request + SIZE_REQUEST ->
  (length (rq_method r) < 1000)%nat -> (2000 < fuel)%nat ->
  exists w1 w' response is_get,
    malloc SIZE_RESPONSE fuel w = Ok response w1 /\
    equal request (L "GET") fuel w1 = Ok is_get w1 /\
    (if is_get then Route response path else BuildResponse response 500 (L only_get)) fuel w1 = Ok tt w' /\
    ready (S k) w' /\ cstr w' response (answer_text r) /\ (length (answer_text r) < 700)%nat /\
    w_env w' = w_env w /\ w_trace w' = w_trace w.
Proof.
  intros Hr Hk Hm Hp Hp1 Hp2 Hml Hf. pose proof Hr as Hr0. destruct Hr0.
  set (arr := w_malloc_array w) in *. set (w1 := put (set_malloc_size w (w_malloc_size w + Z.of_nat 2000))
    (arr + w_malloc_size w) (replicate 2000 0)). set (response := arr + w_malloc_size w) in *.
  unfold SIZE_RESPONSE, SIZE_REQUEST, MALLOC_MAX_SIZE in *.
  assert (malloc 2000 fuel w = Ok response w1) as E1.
  { apply (malloc_ok 2000); [done|lia|unfold MALLOC_MAX_SIZE; lia|lia]. }
  assert (length (replicate 2000 0) = 2000%nat) as Hrep by apply length_replicate.
  assert (frame response 2000 w (put w response (replicate 2000 0))) as F0 by (apply frame_put; rewrite ?Hrep; lia).
  assert (ready k (put w response (replicate 2000 0))) as R0.
  { eapply ready_frame; [done| |done]. fold arr. unfold MALLOC_MAX_SIZE. lia. }
  assert (ready (S k) w1) as R1.
  { destruct R0. split; try done. cbn [w_malloc_size w1 put set_mem set_malloc_size]. unfold SIZE_RESPONSE. lia. }
  assert (zeroed w1 response 2000) as Hz.
  { split; [eapply writable_sub; [apply rd_arena0|lia..]|]. apply bytes_at_put; [|by apply Forall_replicate].
    rewrite Hrep. eapply writable_sub; [apply rd_arena0|lia..]. }
  assert (apart L response 2000 literals) as Ha.
  { eapply apart_sub; [apply rd_apart_arena0|lia..]. }
  assert (cstr w1 request (rq_method r)) as Hm1.
  { apply (frame_cstr response 2000 w (put w response (replicate 2000 0))); [done| |done]. unfold disjoint_from in *. lia. }
  assert (cstr w1 path (rq_path r)) as Hp3.
  { apply (frame_cstr response 2000 w (put w response (replicate 2000 0))); [done| |done]. unfold disjoint_from in *. lia. }
  assert (exists w', (if bool_decide (rq_method r = lit "GET") then Route response path
      else BuildResponse response 500 (L only_get)) fuel w1 = Ok tt w' /\
      buffer w' response 2000 (answer_text r) /\ frame response 2000 w1 w') as (w2 & E2 & B2 & F2).
  { unfold answer_text. destruct R1. case_bool_decide as Hd.
    - rewrite decide_True by done. apply Route_ok; try done. lia.
    - rewrite decide_False by done. apply BuildResponse_ok; try done. simpl. tauto. }
  exists w1, w2, response, (bool_decide (rq_method r = lit "GET")).
  split; [exact E1|]. split; [apply equal_lit; [done|by destruct R1|simpl; tauto|lia]|].
  split; [exact E2|]. split; [|split; [apply B2|split; [|split; [exact (fr_env _ _ _ _ F2)|exact (fr_trace _ _ _ _ F2)]]]].
  - eapply ready_frame; [done| |done]. unfold w1. cbn. fold arr. unfold MALLOC_MAX_SIZE. lia.
  - unfold answer_text, page. repeat case_decide; apply response_length; simpl; tauto.
Qed.

Lemma Println_lit_ok s fuel w :
  Println_lit s fuel w = Ok tt (add_trace (add_trace w (SysWrite 1 (lit s))) (SysWrite 1 [10])).
Proof. done. Qed.
Lemma Println_ok s p fuel w :
  cstr w p s -> (length s < fuel)%nat -> Z.of_nat (length s) < 2 ^ 63 ->
  Println p fuel w = Ok tt (add_trace (add_trace w (SysWrite 1 s)) (SysWrite 1 [10])).
Proof.
  intros Hs Hf Hb. unfold Println, write. erewrite bind_ok by (apply strlen_ok; [done..|lia]).
  erewrite bind_ok; [done|]. rewrite Nat2Z.id. destruct Hs as [_ Hs]. apply bytes_at_app in Hs as [Hs _].
  by erewrite bind_ok by (by apply load_bytes_ok).
Qed.
Lemma sys_ok e a env fuel w :
  w_env w = a :: env -> sys e fuel w = Ok a (set_env (add_trace w e) env).
Proof. intros H. unfold sys, bind, emit, answer. cbn [w_env add_trace]. by rewrite H. Qed.

(** The first half of an iteration: the request is received and cut. *)
Lemma serve_receives k r fd address w env n fuel :
  ready k w -> rq_ok r -> (2000 < fuel)%nat -> 0 <= n ->
  w_env w = Answer n (rq_bytes r) (rq_port r) (rq_addr r) :: env ->
  exists w6 path,
    serve false fd address fuel w = respond false fd (SockAddr (rq_port r) (rq_addr r)) request path fuel w6 /\
    ready k w6 /\ cstr w6 request (rq_method r) /\ cstr w6 path (rq_path r) /\
    w_env w6 = env /\ sends w6 = sends w /\
    request <= path /\ path + Z.of_nat (length (rq_path r)) + 1 <= request + SIZE_REQUEST.
Proof.
  intros Hr Hq Hf Hn Henv. unfold serve. rewrite (bind_ok _ _ _ _ _ _ (Println_lit_ok _ _ _)).
  set (w0 := add_trace (add_trace w _) _).
  set (w1 := set_env (add_trace w0 (SysRecvfrom fd SIZE_REQUEST)) env).
  assert (ready k w1) as R1 by (by apply (ready_same k w)).
  pose proof Hq as (Hnz & Hm32 & _ & Hlen).
  assert (take (Z.to_nat SIZE_REQUEST) (rq_bytes r) = rq_bytes r) as Htake.
  { apply take_ge. change (Z.to_nat SIZE_REQUEST) with 1000%nat. lia. }
  assert (recvfrom fd request SIZE_REQUEST address fuel w0 =
    Ok (n, SockAddr (rq_port r) (rq_addr r)) (put w1 request (rq_bytes r))) as E1.
  { unfold recvfrom. rewrite (bind_ok _ _ _ _ _ _ (sys_ok _ _ _ _ w0 Henv)). cbn [ans_ret ans_bytes ans_port ans_addr].
    zfalse (n <? 0). rewrite Htake. erewrite bind_ok; [done|apply store_bytes_ok].
    destruct R1. eapply writable_sub; [apply rd_request0|unfold SIZE_REQUEST; lia..]. }
  destruct (receive_ok k r w1 R1 Hq) as (R2 & stale & C2 & L2). set (w2 := put w1 request (rq_bytes r)) in *.
  erewrite bind_ok by (by erewrite bind_ok by exact E1). cbn [fst snd]. zfalse (n <? 0). cbn iota.
  rewrite (bind_ok _ _ _ _ _ _ (Println_lit_ok _ _ _)). set (w3 := add_trace (add_trace w2 _) _).
  erewrite bind_ok by (apply Println_ok; [exact C2|lia..]). set (w4 := add_trace (add_trace w3 _) _).
  assert (ready k w4) as R4 by (by apply (ready_same k w2)).
  destruct (tokens_ok k r stale w4 fuel R4 Hq C2 L2 Hf) as (w5 & w6 & path & E5 & E6 & R6 & M6 & P6 & V6 & T6 & Hp1 & Hp2).
  erewrite bind_ok by exact E5. erewrite bind_ok by exact E6.
  exists w6, path. split_and!; try done. unfold sends. rewrite T6.
  cbn [w4 w3 w2 w1 w0 w_trace put set_mem set_env add_trace]. rewrite !List.filter_app. simpl. by rewrite !app_nil_r.
Qed.

Lemma serve_ok k r fd address w env n m b2 p2 a2 fuel :
  ready k w -> (k < 500)%nat -> rq_ok r -> (2000 < fuel)%nat -> 0 <= n -> 0 <= m ->
  w_env w = Answer n (rq_bytes r) (rq_port r) (rq_addr r) :: Answer m b2 p2 a2 :: env ->
  exists w', serve false fd address fuel w = Ok (inl (SockAddr (rq_port r) (rq_addr r))) w' /\
    ready (S k) w' /\ w_env w' = env /\ sends w' = sends w ++ [reply fd r].
Proof.
  intros Hr Hk Hq Hf Hn Hm Henv.
  destruct (serve_receives k r fd address w _ n fuel Hr Hq Hf Hn Henv) as
    (w6 & path & -> & R6 & M6 & P6 & V6 & T6 & Hp1 & Hp2).
  destruct (respond_ok k r w6 path fuel R6 Hk M6 P6 Hp1 Hp2) as
    (w7 & w8 & response & is_get & E7 & Eg & E8 & R8 & C8 & L8 & V8 & T8); [|done|].
  { destruct Hq as (_ & _ & _ & Hlen). unfold rq_bytes in Hlen. rewrite length_app in Hlen. lia. }
  unfold respond. erewrite bind_ok by exact E7. erewrite bind_ok by exact Eg. erewrite bind_ok by exact E8.
  erewrite bind_ok by (apply strlen_ok; [exact C8|lia..]).
  assert (w_env w8 = Answer m b2 p2 a2 :: env) as Hv by (by rewrite V8, V6).
  assert (sendto fd response (Z.of_nat (length (answer_text r))) (SockAddr (rq_port r) (rq_addr r)) fuel w8 =
    Ok m (set_env (add_trace w8 (reply fd r)) env)) as E9.
  { unfold sendto. rewrite Nat2Z.id. destruct C8 as [_ C8]. apply bytes_at_app in C8 as [C8 _].
    erewrite bind_ok by (by apply load_bytes_ok). by erewrite bind_ok by (by apply sys_ok). }
  erewrite bind_ok by exact E9. zfalse (m <? 0). eexists. split; [done|]. split; [by apply (ready_same (S k) w8)|].
  split; [done|]. rewrite <- T6. unfold sends. cbn [w_trace set_env add_trace]. rewrite T8, List.filter_app. done.
Qed.

(** The answers of the environment to a whole session over UDP: the socket, the
    binding, and for each request its reception and a sending that succeeds. *)
Definition script (reqs : list req) : list sys_answer :=
  flat_map (fun r => [Answer (Z.of_nat (length (rq_bytes r))) (rq_bytes r) (rq_port r) (rq_addr r);
                      Answer 0 [] 0 0]) reqs.

(** With no answer left the server waits; with the arena full it gives up. *)
Lemma serve_blocked fd address w fuel :
  w_env w = [] -> exists w', serve false fd address fuel w = Blocked w' /\ sends w' = sends w.
Proof.
  intros He. unfold serve. rewrite (bind_ok _ _ _ _ _ _ (Println_lit_ok _ _ _)).
  eexists. split.
  - unfold recvfrom, sys, bind, emit, answer. cbn [w_env add_trace]. rewrite He. done.
  - unfold sends. cbn [w_trace add_trace]. rewrite !List.filter_app. simpl. by rewrite !app_nil_r.
Qed.

Lemma bind_exited {A B} (x : M A) (k : A -> M B) fuel w c w' :
  x fuel w = Exited c w' -> bind x k fuel w = Exited c w'.
Proof. intros H. unfold bind. by rewrite H. Qed.

Lemma serve_full k r fd address w env n fuel :
  ready k w -> (k = 500)%nat -> rq_ok r -> (2000 < fuel)%nat -> 0 <= n ->
  w_env w = Answer n (rq_bytes r) (rq_port r) (rq_addr r) :: env ->
  exists w', serve false fd address fuel w = Exited 1 w' /\ sends w' = sends w.
Proof.
  intros Hr Hk Hq Hf Hn Henv.
  destruct (serve_receives k r fd address w _ n fuel Hr Hq Hf Hn Henv) as
    (w6 & path & -> & R6 & _ & _ & _ & T6 & _).
  exists (add_trace w6 (SysWrite 1 (lit "fail: malloc" ++ [10]))). split.
  - unfold respond. apply bind_exited, malloc_exhausted; destruct R6; rewrite ?rd_size0; subst k; unfold SIZE_RESPONSE, MALLOC_MAX_SIZE; lia.
  - rewrite sends_add, T6. by rewrite app_nil_r.
Qed.

Lemma serve_loop reqs k fd address w n fuel :
  ready k w -> (k <= 500)%nat -> Forall rq_ok reqs -> (2000 < fuel)%nat -> (length reqs < n)%nat ->
  w_env w = script reqs ->
  exists w', iterM (serve false fd) n address fuel w =
      (if (length reqs <=? 500 - k)%nat then Blocked w' else Exited 1 w') /\
    sends w' = sends w ++ map (reply fd) (take (500 - k) reqs).
Proof.
  revert k address w n. induction reqs as [|r reqs IH]; intros k address w n Hr Hk Hq Hf Hn He;
    (destruct n as [|n]; [simpl in Hn; lia|]); unfold iterM; fold (iterM (serve false fd) n).
  - destruct (serve_blocked fd address w fuel He) as (w' & -> & Hs). exists w'. rewrite take_nil, app_nil_r.
    split; [done|done].
  - apply List.Forall_cons_iff in Hq as [Hq Hqs]. destruct (decide (k = 500)%nat) as [->|Hk'].
    + destruct (serve_full 500 r fd address w _ _ fuel Hr eq_refl Hq Hf (Nat2Z.is_nonneg _) He) as (w' & -> & Hs).
      exists w'. simpl. by rewrite app_nil_r.
    + edestruct (serve_ok k r fd address w (script reqs)) as (w1 & -> & R1 & V1 & S1);
        [done|lia|done|done|apply Nat2Z.is_nonneg|reflexivity|exact He|].
      destruct (IH (S k) (SockAddr (rq_port r) (rq_addr r)) w1 n) as (w' & -> & S2); [done|lia|done|done|simpl in Hn; lia|done|].
      exists w'. replace (500 - k)%nat with (S (500 - S k)) by lia. cbn [length take map Nat.leb]. split; [done|].
      rewrite S2, S1, <- app_assoc. done.
Qed.

(** C2: a session of the server over UDP. Whatever requests arrive (a method and
    a path without spaces, at most 999 bytes), the server answers them in order,
    each to the peer that sent it: for GET the page of the path, for another
    method the 500 page. It keeps waiting after the last one; but nothing is
    ever freed, so it answers 500 requests and exits with "fail: malloc" on the
    next. *)
Theorem server_session port fd reqs w fuel :
  ready 0 w -> 0 <= fd -> Forall rq_ok reqs -> (2000 < fuel)%nat -> (length reqs < fuel)%nat ->
  w_env w = Answer fd [] 0 0 :: Answer 0 [] 0 0 :: script reqs ->
  exists w', StartServer port false fuel w =
      (if (length reqs <=? 500)%nat then Blocked w' else Exited 1 w') /\
    sends w' = sends w ++ map (reply fd) (take 500 reqs).
Proof.
  intros Hr Hfd Hq Hf Hn He. unfold StartServer.
  erewrite bind_ok by (unfold socket; by erewrite bind_ok by (by apply sys_ok)). cbn [ans_ret]. zfalse (fd <? 0).
  erewrite bind_ok by (unfold bind_; by erewrite bind_ok by (by apply sys_ok)). cbn [ans_ret Z.ltb Z.compare].
  set (w1 := set_env _ (script reqs)). assert (ready 0 w1) as R1 by (by apply (ready_same 0 w)).
  destruct (serve_loop reqs 0 fd (SockAddr (htons port) INADDR_ANY) w1 fuel fuel) as (w' & E & S1); try done; try lia.
  exists w'. split.
  - erewrite bind_ok by done. unfold bind, loop. rewrite E. by destruct (length reqs <=? _)%nat.
  - rewrite S1. unfold w1, sends. cbn [w_trace set_env add_trace]. rewrite !List.filter_app. simpl. by rewrite !app_nil_r.
Qed.

(** The page of every path. In 2000 zeroed bytes [Route] builds the status
    line, the header, the empty line and the body: of the index page for "/" and
    "/index.html", of the two example pages for theirs, of the 404 page for
    every other path; nothing outside the response changes. *)
Theorem Route_page response path p fuel w :
  zeroed w response 2000 -> lits L w literals -> apart L response 2000 literals ->
  cstr w path p -> (length p < fuel)%nat -> (2000 < fuel)%nat ->
  exists w', Route response path fuel w = Ok tt w' /\
    cstr w' response (page p) /\ frame response 2000 w w'.
Proof.
  intros. destruct (Route_ok response path p fuel w) as (w' & E & [_ C] & F); try done. by exists w'.
Qed.
End HttpServer.

(** ** Concrete sessions *)

Definition demo_L : string -> Z := lit_addr 100 literals.
Definition demo_req : req := Req (lit "GET") (lit "/page1.html") (lit "HTTP/1.1") 9999 16777343.
Definition demo_server : world :=
  lit_world 100 2000000 20000 literals (Answer 3 [] 0 0 :: Answer 0 [] 0 0 :: script [demo_req]).
Lemma demo_ready : ready demo_L 10000 0 demo_server.
Proof.
  split.
  - apply lit_world_ok.
  - apply lit_world_writable; unfold SIZE_REQUEST; lia.
  - vm_compute. reflexivity.
  - apply lit_world_writable; vm_compute; discriminate.
  - reflexivity.
  - apply litsb_sound. vm_compute. reflexivity.
  - apply apartb_sound. vm_compute. reflexivity.
  - apply apartb_sound. vm_compute. reflexivity.
  - left. vm_compute. discriminate.
  - lia.
Qed.
Lemma server_session_witness :
  exists w', StartServer demo_L 10000 8888 false 2001%nat demo_server = Blocked w' /\
    sends w' = [SysSendto 3 (page (lit "/page1.html")) 9999 16777343].
Proof.
  destruct (server_session demo_L 10000 8888 3 [demo_req] demo_server 2001%nat) as (w' & E & S1).
  - exact demo_ready.
  - lia.
  - constructor; [|constructor]. split; [apply nonzerob_sound; vm_compute; reflexivity|].
    apply (bool_decide_unpack _). vm_compute. exact I.
  - lia.
  - simpl. lia.
  - reflexivity.
  - exists w'. split; [exact E|]. rewrite S1. vm_compute. reflexivity.
Defined.
Definition demo_path : world := put demo_server 10000 (lit "/index.html" ++ [0]).
Lemma Route_page_witness :
  exists w', Route demo_L 20000 10000 2001%nat demo_path = Ok tt w' /\
    cstr w' 20000 (response_text 200 index_body).
Proof.
  destruct (Route_page demo_L 20000 10000 (lit "/index.html") 2001%nat demo_path) as (w' & E & C & _).
  - split; [apply writable_put, lit_world_writable; lia|apply bytes_atb_sound; vm_compute; reflexivity].
  - apply litsb_sound. vm_compute. reflexivity.
  - apply apartb_sound. vm_compute. reflexivity.
  - apply cstrb_sound. vm_compute. reflexivity.
  - simpl. lia.
  - lia.
  - exists w'. split; [exact E|exact C].
Defined.
