(* ===== verification/Browser.v ===== *)
(** * The C browser ([app/browser/browser.c])

    Parsing the URL, building the request, fetching the response and finding
    the HTML in it, on the byte memory; the rendering of the HTML is the typed
    model of {!Rendering}.  The globals [ip], [url], [html] and [parsed_url] are
    arguments and results.  The theorems: [ParseUrl] takes a URL apart into its
    scheme, host, address, port and path; the request is the one the HTTP server
    answers with the page of that path. *)

From stdpp Require Import strings.
From S2P Require Import Prelude CMem LiumlibStr LiumlibNum Syscalls Tokenize Parse Rendering HttpServer.

Record ParsedUrl := MkUrl { scheme : Z; host : Z; url_port : Z; url_path : Z }.
Definition sizeof_ParsedUrl : Z := 32.

Section Browser.
Context (L : string -> Z).

(** ** The request *)

Definition RequestLine (parsed_url : ParsedUrl) (request : Z) : M unit :=
  strcpy request (L "GET ") ;;
  strcat request (url_path parsed_url) ;;
  strcat request (L " HTTP/1.1
") ;;
  ret tt.
Definition Headers (parsed_url : ParsedUrl) (request : Z) : M unit :=
  strcat request (L "Host: ") ;;
  strcat request (host parsed_url) ;;
  strcat request (L newline) ;;
  ret tt.
Definition Crlf (request : Z) : M unit := strcat request (L newline) ;; ret tt.
Definition Body (request : Z) : M unit := ret tt.
Definition BuildRequest (parsed_url : ParsedUrl) (request : Z) : M unit :=
  RequestLine parsed_url request ;;
  Headers parsed_url request ;;
  Crlf request ;;
  Body request.

Definition GetResponse (parsed_url : ParsedUrl) (ip request response : Z) : M unit :=
  let! socket_fd := socket AF_INET SOCK_DGRAM 0 in
  if socket_fd <? 0 then Println_lit "Error: Fail to create a socket" ;; exit_ EXIT_FAILURE
  else
    let! s_addr := inet_addr ip in
    let address := SockAddr (htons (if url_port parsed_url =? 0 then 8888 else url_port parsed_url)) s_addr in
    let! n := strlen request in
    let! r := sendto socket_fd request n address in
    if r <? 0 then Println_lit "Error: Failed to send a request." ;; exit_ EXIT_FAILURE
    else
      let! r := recvfrom socket_fd response SIZE_RESPONSE address in
      if r.1 <? 0 then Println_lit "Error: Failed to receiver a response." ;; exit_ EXIT_FAILURE
      else let! r := close socket_fd in ret tt.

Definition GetHtmlFromResponse (response html : Z) : M unit :=
  loop (fun response =>
    let! c := load response in
    if c =? 0 then break_ tt
    else if c =? 60 then strcpy html response ;; break_ tt
    else continue_ (response + 1)) response.

(** ** The URL *)

(** [while ( *url && !stop( *url ) ) dst[i++] = *url++;], the loops that copy the
    host and the path; the results are the final [url] and [i]. *)
Definition copy_until (stop : Z -> bool) (dst url : Z) : M (Z * Z) :=
  loop (fun '(url, i) =>
    let! c := load url in
    if (c =? 0) || stop c then break_ (url, i)
    else CMem.store (dst + i) c ;; continue_ (url + 1, i32 (i + 1))) (url, 0).
(** The [for] loop that looks for the colon. *)
Definition find_port (host host_length : Z) : M Z :=
  loop (fun port_start =>
    if negb (port_start <? host_length) then break_ port_start
    else
      let! c := load (host + port_start) in
      if c =? 58 then break_ port_start else continue_ (i32 (port_start + 1))) 0.

(** The part on the host: the new [url], the host, the new [ip], the port. *)
Definition parse_host (url : Z) : M (Z * Z * Z * Z) :=
  let! n := strlen url in
  let! tmp_host := malloc n in
  let! r := copy_until (fun c => c =? 47) tmp_host url in
  let '(url, host_length) := r in
  let! host := malloc (u64 (host_length + 1)) in
  memcpy host tmp_host (u64 host_length) ;;
  CMem.store (host + host_length) 0 ;;
  let! port_start := find_port host host_length in
  let! ip := malloc (u64 (port_start + 1)) in
  memcpy ip host (u64 port_start) ;;
  CMem.store (ip + port_start) 0 ;;
  let! port :=
    (if port_start =? host_length then ret 80
     else let! r := StrToNum16 (host + port_start + 1) in ret r.1) in
  ret (url, host, ip, port).
(** The part on the path. *)
Definition parse_path (url : Z) : M Z :=
  let! c := load url in
  if c =? 0 then
    let! path := malloc 2 in
    strcpy path (L "/") ;;
    CMem.store (path + 1) 0 ;;
    ret path
  else
    let! n := strlen url in
    let! path := malloc (u64 (n + 1)) in
    let! r := copy_until (fun _ => false) path url in
    CMem.store (path + r.2) 0 ;;
    ret path.
(** The result, and the new [ip]. *)
Definition ParseUrl (url : Z) : M (ParsedUrl * Z) :=
  malloc sizeof_ParsedUrl ;;
  let! r := strncmp (L "http://") url 7 in
  if negb (r =? 0) then Println_lit "Error: Only support 'http' scheme." ;; exit_ EXIT_FAILURE
  else
    let! scheme := malloc 5 in
    strcpy scheme (L "http") ;;
    CMem.store (scheme + 4) 0 ;;
    let! h := parse_host (url + 7) in
    let '(url, host, ip, port) := h in
    let! path := parse_path url in
    ret (MkUrl scheme host port path, ip).

(** ** The program *)

(** [strcmp(a, p) == 0 || strcmp(b, p) == 0] *)
Definition equal_any (a b p : Z) : M bool :=
  let! r := equal a p in if r then ret true else equal b p.
(** The result, [url] and [html]. *)
Definition ParseArgs (argc : Z) (argv : list Z) (html : Z) : M (Z * Z * Z) :=
  loop (fun '(argc, argv, parse_result, url, html) =>
    if negb (0 <? argc) then break_ (parse_result, url, html)
    else
      let! is_url := equal_any (L "--url") (L "-u") (arg argv 0) in
      if is_url then continue_ (argc - 2, drop 2 argv, parse_result, arg argv 1, html)
      else
        let! is_raw := equal (L "--rawtext") (arg argv 0) in
        if is_raw then continue_ (argc - 2, drop 2 argv, 2, url, arg argv 1)
        else
          let! is_test := equal (L "--url_test") (arg argv 0) in
          if is_test then continue_ (argc - 2, drop 2 argv, 3, arg argv 1, html)
          else break_ (0, url, html))
    (argc, argv, 1, L "http://127.0.0.1:8888/index.html", html).

(** [Render(html)]: the document is read as a string and rendered with what is
    left of the arena; what it prints is gathered in one [write]. *)
Definition Render_ (html : Z) : M unit :=
  let! n := strlen html in
  let! bs := load_bytes html (Z.to_nat n) in
  let! g := get_malloc in
  match Render bs (Store [] None None g.2) [] with
  | Done out => write_buf 1 out
  | Stop (Exit code) => exit_ code
  | Stop FuelOut => fun _ _ => NoFuel
  | Stop _ => fun _ _ => Fault
  end.

Definition main (argc : Z) (argv : list Z) : M unit :=
  let! r := ParseArgs (argc - 1) (drop 1 argv) 0 in
  let '(parse_result, url, html) := r in
  if parse_result =? 0 then
    Println_lit "Usage: browser.bin [ OPTIONS ]" ;;
    Println_lit "       -u, --url      URL. Default: http://127.0.0.1:8888/index.html" ;;
    Println_lit "           --rawtext  Raw HTML text for debug." ;;
    Println_lit "           --url_test URL. It's used for debug." ;;
    exit_ EXIT_FAILURE
  else if parse_result =? 2 then
    malloc SIZE_RESPONSE ;;
    Render_ (arg argv 2) ;;
    exit_ 0
  else if parse_result =? 3 then
    let! u := ParseUrl url in
    Print_lit "scheme: " ;;
    Println (scheme u.1) ;;
    Print_lit "host: " ;;
    Println (host u.1) ;;
    Print_lit "port: " ;;
    PrintNum (url_port u.1) ;;
    write_buf 1 [] ;; write_buf 1 [10] ;;
    Print_lit "path: " ;;
    Println (url_path u.1) ;;
    exit_ 0
  else
    let! u := ParseUrl url in
    let! request := malloc SIZE_REQUEST in
    let! response := malloc SIZE_RESPONSE in
    BuildRequest u.1 request ;;
    let! html := malloc SIZE_RESPONSE in
    GetResponse u.1 u.2 request response ;;
    GetHtmlFromResponse response html ;;
    Render_ html ;;
    exit_ 0.

(** ** The request text *)

Definition request_text (path host : list Z) : list Z :=
  lit "GET " ++ path ++ lit " HTTP/1.1
" ++ lit "Host: " ++ host ++ lit newline ++ lit newline.
Definition literals : list string :=
  ["GET "; " HTTP/1.1
"; "Host: "; newline; "http://"; "http"; "/"]%string.

(** Appending a literal to a buffer. *)
Lemma strcat_lit d s request n fuel w :
  buffer w request n d -> lits L w literals -> apart L request n literals -> In s literals ->
  Z.of_nat (length d + length (lit s)) < n -> n < 2 ^ 63 -> (Z.to_nat n < fuel)%nat ->
  exists w', strcat request (L s) fuel w = Ok request w' /\ buffer w' request n (d ++ lit s) /\
    frame request n w w' /\ lits L w' literals.
Proof.
  intros Hb Hl Ha Hs Hn H63 Hf.
  destruct (strcat_buffer d (lit s) request n (L s) fuel w) as (w' & E & B & F); try done; try lia.
  - by eapply lits_In.
  - by eapply apart_In.
  - exists w'. split_and!; try done. by eapply lits_frame.
Qed.

Lemma request_length path host :
  length (request_text path host) = (22 + length path + length host)%nat.
Proof. unfold request_text. rewrite !length_app. simpl. lia. Qed.

Lemma BuildRequest_ok path host0 pu request (n : nat) fuel w :
  zeroed w request n -> lits L w literals -> apart L request (Z.of_nat n) literals ->
  cstr w (url_path pu) path -> disjoint_from request (Z.of_nat n) (url_path pu) (Z.of_nat (length path) + 1) ->
  cstr w (host pu) host0 -> disjoint_from request (Z.of_nat n) (host pu) (Z.of_nat (length host0) + 1) ->
  (length (request_text path host0) < n)%nat -> (n < fuel)%nat -> Z.of_nat n < 2 ^ 63 ->
  exists w', BuildRequest pu request fuel w = Ok tt w' /\
    buffer w' request (Z.of_nat n) (request_text path host0) /\ frame request (Z.of_nat n) w w'.
Proof.
  intros Hz Hl Ha Hp Hpd Hh Hhd Hn Hf H63. rewrite request_length in Hn.
  assert (forall s, In s literals -> (length (lit s) <= 10)%nat) as Hshort.
  { intros s Hs. assert (forallb (fun s => (length (lit s) <=? 10)%nat) literals = true) as H by (vm_compute; reflexivity).
    rewrite forallb_forall in H. by apply Nat.leb_le, H. }
  assert (length (lit "GET ") = 4%nat /\ length (lit " HTTP/1.1
") = 10%nat /\ length (lit "Host: ") = 6%nat /\ length (lit newline) = 1%nat) as (N1 & N2 & N3 & N4) by done.
  destruct (strcpy_zeroed (lit "GET ") request n (L "GET ") fuel w) as (w1 & E1 & B1 & F1);
    [done|eapply lits_In; [done|simpl; tauto]|eapply apart_In; [done|simpl; tauto]|lia..|].
  assert (lits L w1 literals) as Hl1 by (by eapply lits_frame).
  destruct (strcat_buffer (lit "GET ") path request (Z.of_nat n) (url_path pu) fuel w1) as (w2 & E2 & B2 & F2);
    [done|by eapply frame_cstr|done|lia..|].
  assert (lits L w2 literals) as Hl2 by (by eapply lits_frame).
  edestruct (strcat_lit (lit "GET " ++ path) " HTTP/1.1
" request (Z.of_nat n) fuel w2) as (w3 & E3 & B3 & F3 & Hl3); [exact B2|exact Hl2|exact Ha|simpl; tauto|rewrite ?length_app; lia|done|lia|].
  edestruct (strcat_lit ((lit "GET " ++ path) ++ lit " HTTP/1.1
") "Host: " request (Z.of_nat n) fuel w3) as (w4 & E4 & B4 & F4 & Hl4); [exact B3|exact Hl3|exact Ha|simpl; tauto|rewrite ?length_app; lia|done|lia|].
  assert (frame request (Z.of_nat n) w w4) as F04 by (by repeat (etransitivity; [|done])).
  edestruct (strcat_buffer (((lit "GET " ++ path) ++ lit " HTTP/1.1
") ++ lit "Host: ") host0 request (Z.of_nat n) (host pu) fuel w4) as (w5 & E5 & B5 & F5);
    [exact B4|by eapply frame_cstr|done|rewrite ?length_app; lia..|].
  assert (lits L w5 literals) as Hl5 by (by eapply lits_frame).
  edestruct (strcat_lit ((((lit "GET " ++ path) ++ lit " HTTP/1.1
") ++ lit "Host: ") ++ host0) newline request (Z.of_nat n) fuel w5) as (w6 & E6 & B6 & F6 & Hl6); [exact B5|exact Hl5|exact Ha|simpl; tauto|rewrite ?length_app; lia|done|lia|].
  edestruct (strcat_lit (((((lit "GET " ++ path) ++ lit " HTTP/1.1
") ++ lit "Host: ") ++ host0) ++ lit newline) newline request (Z.of_nat n) fuel w6) as (w7 & E7 & B7 & F7 & Hl7); [exact B6|exact Hl6|exact Ha|simpl; tauto|rewrite ?length_app; lia|done|lia|].
  exists w7. split; [|split].
  - unfold BuildRequest, RequestLine, Headers, Crlf, Body.
    erewrite bind_ok by (erewrite bind_ok by exact E1; erewrite bind_ok by exact E2; by erewrite bind_ok by exact E3).
    erewrite bind_ok by (erewrite bind_ok by exact E4; erewrite bind_ok by exact E5; by erewrite bind_ok by exact E6).
    by erewrite bind_ok by (by erewrite bind_ok by exact E7).
  - unfold request_text. rewrite !app_assoc in *. exact B7.
  - by repeat (etransitivity; [|done]).
Qed.


(** ** Taking the URL apart *)

Lemma copy_until_ok stop t c dst url fuel w :
  bytes_at w url (t ++ [c]) -> Forall (fun b => b <> 0 /\ stop b = false) t -> (c = 0 \/ stop c = true) ->
  writable w dst (Z.of_nat (length t)) -> disjoint_from dst (Z.of_nat (length t)) url (Z.of_nat (length t) + 1) ->
  (length t < fuel)%nat -> Z.of_nat (length t) < 2 ^ 31 - 1 ->
  copy_until stop dst url fuel w = Ok (url + Z.of_nat (length t), Z.of_nat (length t)) (put w dst t).
Proof.
  intros Hb Ht Hc Hw Hd Hf Hl. unfold copy_until. name_loop body.
  assert (forall rest pre k, t = pre ++ rest -> (length rest < k)%nat ->
    iterM body k (url + Z.of_nat (length pre), Z.of_nat (length pre)) fuel (put w dst pre) =
    Ok (url + Z.of_nat (length t), Z.of_nat (length t)) (put w dst t)) as H.
  { induction rest as [|b rest IH]; intros pre k Et Hk; (destruct k as [|k]; [simpl in Hk; lia|]).
    - rewrite app_nil_r in Et. subst pre.
      assert (mread (w_mem (put w dst t)) (url + Z.of_nat (length t)) = Some c) as Hr.
      { rewrite mread_put_out by (unfold disjoint_from in Hd; lia). apply Hb. by rewrite lookup_app_r, Nat.sub_diag. }
      assert ((c =? 0) || stop c = true) as Hs by (destruct Hc as [->|Hc]; [done|by rewrite Hc, orb_true_r]).
      iter_break body ltac:(mstep; rewrite Hs). done.
    - assert (length t = length pre + S (length rest))%nat as El by (by rewrite Et, length_app).
      assert (mread (w_mem (put w dst pre)) (url + Z.of_nat (length pre)) = Some b) as Hr.
      { rewrite mread_put_out by (unfold disjoint_from in Hd; lia). apply Hb. rewrite Et, <- app_assoc.
        rewrite lookup_app_r, Nat.sub_diag by done. done. }
      assert (b <> 0 /\ stop b = false) as [Hb0 Hs].
      { rewrite Et in Ht. apply List.Forall_app in Ht as [_ Ht]. by apply List.Forall_cons_iff in Ht as [? _]. }
      assert (mapped (w_mem (put w dst pre)) (dst + Z.of_nat (length pre)) = true) as Hm by (apply Hw; lia).
      erewrite (iterM_continue body).
      2:{ unfold body. cbn beta iota. mstep. rewrite Hs, (proj2 (Z.eqb_neq b 0)) by done. cbn [orb].
          erewrite bind_ok by (by apply store_ok). reflexivity. }
      rewrite i32_small by lia. specialize (IH (pre ++ [b]) k). rewrite length_app, put_app in IH. simpl in IH.
      replace (url + Z.of_nat (length pre) + 1) with (url + Z.of_nat (length pre + 1)) by lia.
      replace (Z.of_nat (length pre) + 1) with (Z.of_nat (length pre + 1)) by lia.
      apply IH; [by rewrite <- app_assoc|simpl in Hk; lia]. }
  specialize (H t [] fuel eq_refl Hf). rewrite put_nil in H. simpl in H. by rewrite Z.add_0_r in H.
Qed.

Lemma find_port_ok a b p fuel w :
  bytes_at w p (a ++ b) -> Forall (fun c => c <> 58) a -> (b = [] \/ exists b', b = 58 :: b') ->
  (length a < fuel)%nat -> Z.of_nat (length (a ++ b)) < 2 ^ 31 - 1 ->
  find_port p (Z.of_nat (length (a ++ b))) fuel w = Ok (Z.of_nat (length a)) w.
Proof.
  intros Hb Ha Hbb Hf Hl. unfold find_port. name_loop body.
  assert (forall rest pre k, a = pre ++ rest -> (length rest < k)%nat ->
    iterM body k (Z.of_nat (length pre)) fuel w = Ok (Z.of_nat (length a)) w) as H.
  { induction rest as [|c rest IH]; intros pre k Ea Hk; (destruct k as [|k]; [simpl in Hk; lia|]).
    - rewrite app_nil_r in Ea. subst pre. destruct Hbb as [->|[b' ->]].
      + iter_break body ltac:(rewrite length_app; simpl length; rewrite Nat.add_0_r, Z.ltb_irrefl). done.
      + assert (mread (w_mem w) (p + Z.of_nat (length a)) = Some 58) as Hr.
        { apply Hb. rewrite lookup_app_r, Nat.sub_diag by done. done. }
        assert ((Z.of_nat (length a) <? Z.of_nat (length (a ++ 58 :: b'))) = true) as Hlt.
        { apply Z.ltb_lt. rewrite length_app. simpl. lia. }
        iter_break body ltac:(rewrite Hlt; cbn [negb]; mstep). done.
    - assert (length a = length pre + S (length rest))%nat as El by (by rewrite Ea, length_app).
      assert (c <> 58) as Hc.
      { rewrite Ea in Ha. apply List.Forall_app in Ha as [_ Ha]. by apply List.Forall_cons_iff in Ha as [? _]. }
      assert ((Z.of_nat (length pre) <? Z.of_nat (length (a ++ b))) = true) as Hlt.
      { apply Z.ltb_lt. rewrite length_app. lia. }
      rewrite length_app in Hl.
      erewrite (iterM_continue body).
      2:{ unfold body. cbn beta iota. rewrite Hlt. cbn [negb].
          erewrite bind_ok; [|apply load_ok, Hb].
          2:{ rewrite Ea, <- app_assoc, lookup_app_r, Nat.sub_diag by done. reflexivity. }
          rewrite (proj2 (Z.eqb_neq c 58)) by done. reflexivity. }
      rewrite i32_small by lia. specialize (IH (pre ++ [c]) k). rewrite length_app in IH. simpl in IH.
      replace (Z.of_nat (length pre) + 1) with (Z.of_nat (length pre + 1)) by lia.
      apply IH; [by rewrite <- app_assoc|simpl in Hk; lia]. }
  apply (H a []); done.
Qed.


(** Terminating a text written at the start of a zeroed block. *)
Lemma terminate_ok t p fuel w :
  zeroed w p (length t + 1) -> nonzero t ->
  exists w', CMem.store (p + Z.of_nat (length t)) 0 fuel (put w p t) = Ok tt w' /\
    cstr w' p t /\ frame p (Z.of_nat (length t) + 1) w w' /\ w_malloc_size w' = w_malloc_size w.
Proof.
  intros [Hw _] Hn. exists (put (put w p t) (p + Z.of_nat (length t)) [0]). split_and!.
  - apply store_ok. apply Hw. lia.
  - split; [done|]. rewrite <- put_app. apply bytes_at_put.
    + rewrite length_app. done.
    + apply list.Forall_app_2; [by apply nonzero_bytes|]. repeat constructor; unfold is_byte; lia.
  - rewrite <- put_app. apply frame_put; [lia|]. rewrite length_app. simpl. lia.
  - done.
Qed.

(** A fresh copy of [t]: allocation, copy and terminator, for the host and the address. *)
Lemma dup_ok t src fuel w :
  room w (Z.of_nat (length t) + 1) -> bytes_at w src t -> nonzero t -> settled w src (Z.of_nat (length t)) ->
  (length t + 1 < fuel)%nat -> Z.of_nat (length t) < 2 ^ 31 - 1 ->
  let p := w_malloc_array w + w_malloc_size w in
  exists w1 w2 w3, malloc (u64 (Z.of_nat (length t) + 1)) fuel w = Ok p w1 /\
    memcpy p src (u64 (Z.of_nat (length t))) fuel w1 = Ok p w2 /\
    CMem.store (p + Z.of_nat (length t)) 0 fuel w2 = Ok tt w3 /\
    ext w w3 /\ cstr w3 p t /\ w_malloc_size w3 = w_malloc_size w + (Z.of_nat (length t) + 1) /\
    settled w3 p (Z.of_nat (length t) + 1).
Proof.
  intros Hr Hb Hn Hs Hf Hl p.
  destruct (malloc_ext (length t + 1) fuel w) as (w1 & E1 & X1 & Z1 & S1 & A1); [by rewrite Nat2Z.inj_add|done|].
  assert (zeroed w1 p (length t + 1)) as Zp by exact Z1.
  destruct (terminate_ok t p fuel w1 Zp Hn) as (w3 & E3 & C3 & F3 & S3).
  exists w1, (put w1 p t), w3. destruct Hr as (Hw & H0 & Hm). rewrite u64_small, u64_small by lia.
  assert (w_malloc_array w3 = w_malloc_array w) as A3 by (rewrite (fr_arena _ _ _ _ F3); done).
  split_and!; [|..].
  - rewrite <- (Nat2Z.inj_add _ 1). exact E1.
  - apply memcpy_copies; [|destruct Zp as [Zw _]; eapply writable_sub; [apply Zw|lia..]| |lia|lia].
    + apply (ext_bytes w); done.
    + unfold settled in Hs. unfold p. lia.
  - done.
  - eapply (frame_ext p); [exact X1|exact F3|unfold p; lia|unfold p; lia].
  - done.
  - lia.
  - left. rewrite A3. unfold p. lia.
Qed.

(** The pieces of a URL: an address, an optional port and an optional path. *)
Record pieces := Pieces { u_ip : list Z; u_port : option Z; u_path : list Z }.
Definition u_host (u : pieces) : list Z :=
  u_ip u ++ match u_port u with Some v => 58 :: decimal v | None => [] end.
Definition url_text (u : pieces) : list Z := lit "http://" ++ u_host u ++ u_path u.
Record url_ok (u : pieces) : Prop := UrlOk {
  uo_ip : Forall (fun c => 0 < c < 256 /\ c <> 47 /\ c <> 58) (u_ip u);
  uo_port : match u_port u with Some v => 0 <= v < 65536 | None => True end;
  uo_path : nonzero (u_path u) /\ match u_path u with [] => True | c :: _ => c = 47 end;
}.
Definition url_room (u : pieces) : Z :=
  45 + 3 * Z.of_nat (length (u_host u)) + 2 * Z.of_nat (length (u_path u)).

Lemma host_ok u : url_ok u -> nonzero (u_host u) /\ Forall (fun c => c <> 0 /\ (c =? 47) = false) (u_host u).
Proof.
  intros [Hi Hp _]. unfold u_host.
  assert (Forall (fun c => 0 < c < 256 /\ c <> 47) (match u_port u with Some v => 58 :: decimal v | None => [] end)) as Ht.
  { destruct (u_port u) as [v|]; [|constructor]. constructor; [lia|].
    destruct (decimal_spec v) as (Hd & _); [lia|]. eapply List.Forall_impl; [|exact Hd]. unfold is_digit. intros. simpl in *. lia. }
  assert (Forall (fun c => 0 < c < 256 /\ c <> 47)
    (u_ip u ++ match u_port u with Some v => 58 :: decimal v | None => [] end)) as Hall.
  { apply list.Forall_app_2; [|done]. eapply List.Forall_impl; [|exact Hi]. simpl. tauto. }
  split; (eapply List.Forall_impl; [|exact Hall]); simpl; [tauto|]. intros c [H1 H2]. split; [lia|]. by apply Z.eqb_neq.
Qed.


Lemma parse_path_ok pth p fuel w :
  cstr w p pth -> settled w p (Z.of_nat (length pth) + 1) ->
  lits L w literals -> lits_settled L w literals -> room w (Z.of_nat (length pth) + 2) ->
  (length pth + 2 < fuel)%nat -> Z.of_nat (length pth) < 2 ^ 31 - 1 ->
  exists q w', parse_path p fuel w = Ok q w' /\ ext w w' /\
    cstr w' q (match pth with [] => lit "/" | _ => pth end).
Proof.
  intros Hc Hs Hl Hls Hr Hf Hn. unfold parse_path. set (q := w_malloc_array w + w_malloc_size w).
  pose proof Hr as (_ & Hr0 & Hr1). destruct pth as [|c pth].
  - apply cstr_nil in Hc as Hc0. erewrite bind_ok by (by apply load_ok). cbn [Z.eqb].
    destruct (malloc_ext 2 fuel w) as (w1 & E1 & X1 & Z1 & S1 & A1); [done|simpl in Hf; lia|].
    erewrite bind_ok by exact E1. fold q in Z1 |- *.
    destruct (lits_ext L _ _ _ X1 Hls Hl) as [Hl1 _].
    assert (cstr w1 (L "/") (lit "/")) as Cs by (apply (lits_In L literals); [done|simpl; tauto]).
    assert (settled w (L "/") 2) as Ss by (apply (lits_settled_In L w literals "/"); [done|simpl; tauto]).
    erewrite bind_ok.
    2:{ apply (strcpy_ok (lit "/")); [done|destruct Z1 as [Zw _]; eapply writable_sub; [apply Zw|simpl; lia..]| |simpl; lia].
        simpl. unfold settled, disjoint_from in *. unfold q. lia. }
    destruct (terminate_ok (lit "/") q fuel w1 Z1) as (w3 & E3 & C3 & F3 & S3); [by apply nonzerob_sound|].
    erewrite bind_ok by exact E3. exists q, w3. split_and!; [done| |done].
    eapply (frame_ext q); [exact X1|exact F3|unfold q; lia|unfold q; simpl; lia].
  - apply cstr_cons in Hc as Hc0. destruct Hc0 as (Hc0 & Hcb & _). erewrite bind_ok by (by apply load_ok).
    rewrite (proj2 (Z.eqb_neq c 0)) by lia. erewrite bind_ok by (apply strlen_ok; [done|lia..]).
    set (t := c :: pth) in *. change (match t with [] => lit "/" | _ => t end) with t. clearbody t.
    destruct (malloc_ext (length t + 1) fuel w) as (w1 & E1 & X1 & Z1 & S1 & A1);
      [|lia|]. { destruct Hr as (? & ? & ?). split; [done|]. lia. }
    fold q in E1, Z1. rewrite u64_small by lia.
    replace (Z.of_nat (length t) + 1) with (Z.of_nat (length t + 1)) by lia.
    erewrite bind_ok by exact E1.
    assert (bytes_at w1 p (t ++ [0])) as Bt.
    { apply (ext_bytes w); [done| |by destruct Hc]. rewrite length_app. simpl. unfold settled in *. lia. }
    assert (nonzero t) as Nt by (by destruct Hc). destruct Z1 as [Zw Zz].
    erewrite bind_ok.
    2:{ apply (copy_until_ok (fun _ => false) t 0); [done| |by left|eapply writable_sub; [apply Zw|lia..]| |lia|lia].
        - eapply List.Forall_impl; [|exact Nt]. simpl. intros. split; [lia|done].
        - unfold settled, disjoint_from in *. unfold q. lia. }
    cbn [snd]. destruct (terminate_ok t q fuel w1) as (w3 & E3 & C3 & F3 & S3); [by split|done|].
    erewrite bind_ok by exact E3. exists q, w3. split_and!; [done| |done].
    eapply (frame_ext q); [exact X1|exact F3|unfold q; lia|unfold q; lia].
Qed.

(** The port in the host text. *)
Lemma host_port u host fuel w :
  url_ok u -> cstr w host (u_host u) -> (11 < fuel)%nat ->
  (if Z.of_nat (length (u_ip u)) =? Z.of_nat (length (u_host u)) then ret 80
   else let! r := StrToNum16 (host + Z.of_nat (length (u_ip u)) + 1) in ret r.1) fuel w =
  Ok (default 80 (u_port u)) w.
Proof.
  intros [_ Hp _] [_ Hb] Hf. unfold u_host in *. destruct (u_port u) as [v|].
  - destruct (decimal_spec v) as (Hd & Hv & _ & Hl); [lia|].
    assert ((Z.of_nat (length (u_ip u)) =? Z.of_nat (length (u_ip u ++ 58 :: decimal v))) = false) as ->.
    { apply Z.eqb_neq. rewrite length_app. cbn [length]. lia. }
    destruct sep_not_digit as (_ & _ & B0 & D0).
    rewrite <- app_assoc in Hb. apply bytes_at_app in Hb as [_ Hb]. change ((58 :: decimal v) ++ [0]) with (58 :: decimal v ++ [0]) in Hb. apply bytes_at_cons in Hb as [_ Hb].
    unfold StrToNum16. erewrite bind_ok; [|erewrite bind_ok; [reflexivity|apply (digits_loop_ok (decimal v) 0); try done; lia]].
    unfold ret. cbn [fst default]. rewrite Hv. by rewrite u16_small by lia.
  - rewrite app_nil_r, Z.eqb_refl. done.
Qed.


Lemma parse_host_ok u p fuel w :
  url_ok u -> cstr w p (u_host u ++ u_path u) ->
  settled w p (Z.of_nat (length (u_host u ++ u_path u)) + 1) ->
  room w (3 * Z.of_nat (length (u_host u)) + Z.of_nat (length (u_path u)) + 2) ->
  (length (u_host u ++ u_path u) + 12 < fuel)%nat -> Z.of_nat (length (u_host u ++ u_path u)) < 2 ^ 31 - 1 ->
  exists h ip w', parse_host p fuel w =
      Ok (p + Z.of_nat (length (u_host u)), h, ip, default 80 (u_port u)) w' /\ ext w w' /\
    cstr w' h (u_host u) /\ cstr w' ip (u_ip u) /\
    settled w' h (Z.of_nat (length (u_host u)) + 1) /\ settled w' ip (Z.of_nat (length (u_ip u)) + 1) /\
    w_malloc_size w' <= w_malloc_size w + (3 * Z.of_nat (length (u_host u)) + Z.of_nat (length (u_path u)) + 2).
Proof.
  intros Hu Hc Hs Hr Hf Hn. destruct (host_ok u Hu) as [Hnz Hns]. pose proof (uo_path u Hu) as [Hpn Hp1].
  pose proof Hr as (Hrw & Hr0 & Hr1). pose proof (length_app (u_host u) (u_path u)) as El.
  assert (length (u_ip u) <= length (u_host u))%nat as Hil by (unfold u_host; rewrite length_app; lia).
  unfold parse_host. set (arr := w_malloc_array w) in *. set (tmp := arr + w_malloc_size w).
  erewrite bind_ok by (apply strlen_ok; [done|lia..]).
  destruct (malloc_ext (length (u_host u ++ u_path u)) fuel w) as (w1 & E1 & X1 & Z1 & S1 & A1);
    [split; [done|unfold arr in *; lia]|lia|].
  fold arr tmp in E1, Z1. erewrite bind_ok by exact E1. destruct Z1 as [Zw _].
  assert (exists c, bytes_at w p (u_host u ++ [c]) /\ (c = 0 \/ (c =? 47) = true)) as (c & Bc & Hc').
  { destruct Hc as [_ Hb]. destruct (u_path u) as [|c pth]; [exists 0; rewrite app_nil_r in Hb; auto|].
    exists c. split; [|right; by apply Z.eqb_eq]. replace ((u_host u ++ c :: pth) ++ [0])
      with ((u_host u ++ [c]) ++ pth ++ [0]) in Hb by (by rewrite <- !app_assoc). by apply bytes_at_app in Hb as [? _]. }
  assert (bytes_at w1 p (u_host u ++ [c])) as B1.
  { apply (ext_bytes w); [done| |done]. rewrite length_app. cbn [length]. unfold settled in *. fold arr in Hs |- *. lia. }
  erewrite bind_ok.
  2:{ apply (copy_until_ok (fun c => c =? 47) (u_host u) c); try done; [eapply writable_sub; [apply Zw|lia..]| |lia|lia].
      unfold settled, disjoint_from in *. fold arr in Hs. unfold tmp. lia. }
  cbv beta iota. set (w2 := put w1 tmp (u_host u)).
  assert (frame tmp (Z.of_nat (length (u_host u))) w1 w2) as F2 by (apply frame_put; lia).
  assert (ext w w2) as X2.
  { eapply (frame_ext tmp); [exact X1|exact F2|unfold tmp, arr; lia|fold arr; unfold tmp; lia]. }
  assert (bytes_at w2 tmp (u_host u)) as B2.
  { apply bytes_at_put; [eapply writable_sub; [apply Zw|lia..]|by apply nonzero_bytes]. }
  assert (w_malloc_size w2 = w_malloc_size w + Z.of_nat (length (u_host u ++ u_path u))) as S2 by done.
  assert (w_malloc_array w2 = arr) as A2 by (by rewrite (ext_arena _ _ X2)).
  destruct (dup_ok (u_host u) tmp fuel w2) as (w3 & w4 & w5 & E3 & E4 & E5 & X5 & C5 & S5 & T5); try done; try lia.
  { split; [rewrite A2; by eapply ext_writable|]. lia. }
  { left. rewrite A2. unfold tmp. lia. }
  rewrite A2 in E3, E4, E5, C5, T5. set (h := arr + w_malloc_size w2) in *.
  erewrite bind_ok by exact E3. erewrite bind_ok by exact E4. erewrite bind_ok by exact E5.
  assert (bytes_at w5 h (u_ip u)) as B5.
  { destruct C5 as [_ C5]. apply bytes_at_app in C5 as [C5 _]. unfold u_host in C5. by apply bytes_at_app in C5 as [C5 _]. }
  erewrite bind_ok.
  2:{ unfold u_host. apply find_port_ok.
      - destruct C5 as [_ C5]. by apply bytes_at_app in C5 as [C5 _].
      - eapply List.Forall_impl; [|exact (uo_ip u Hu)]. simpl. tauto.
      - destruct (u_port u); [right; eauto|by left].
      - lia.
      - fold (u_host u). lia. }
  assert (ext w w5) as X05 by (by etransitivity).
  assert (w_malloc_array w5 = arr) as A5 by (by rewrite (ext_arena _ _ X05)).
  destruct (dup_ok (u_ip u) h fuel w5) as (w6 & w7 & w8 & E6 & E7 & E8 & X8 & C8 & S8 & T8); try done; try lia.
  { split; [rewrite A5; by eapply ext_writable|]. lia. }
  { eapply List.Forall_impl; [|exact (uo_ip u Hu)]. simpl. tauto. }
  { unfold settled in T5 |- *. lia. }
  rewrite A5 in E6, E7, E8, C8, T8. set (ip := arr + w_malloc_size w5) in *.
  erewrite bind_ok by exact E6. erewrite bind_ok by exact E7. erewrite bind_ok by exact E8.
  assert (cstr w8 h (u_host u)) as C8h by (by apply (ext_cstr w5)).
  erewrite bind_ok by (apply host_port; [done|done|lia]).
  exists h, ip, w8. split_and!; [done|by etransitivity|done|done|by apply (ext_settled w5)|done|lia].
Qed.


Lemma scheme_matches u p fuel w :
  cstr w p (url_text u) -> lits L w literals -> (7 < fuel)%nat ->
  strncmp (L "http://") p 7 fuel w = Ok 0 w.
Proof.
  intros Hc Hl Hf. change 7 with (Z.of_nat 7).
  rewrite (strncmp_agree 7 (lit "http://") (url_text u) (L "http://") p fuel w);
    [|apply (lits_In L literals); [done|simpl; tauto]|done|simpl; lia|simpl; lia|lia].
  assert (agree 7 (lit "http://") (url_text u) = true) as ->; [|done].
  apply agree_prefix. left. by exists (u_host u ++ u_path u).
Qed.

(** The block of the scheme. *)
Lemma scheme_ok fuel w :
  lits L w literals -> lits_settled L w literals -> room w 5 -> (5 < fuel)%nat ->
  let p := w_malloc_array w + w_malloc_size w in
  exists w1 w2 w3, malloc 5 fuel w = Ok p w1 /\ strcpy p (L "http") fuel w1 = Ok p w2 /\
    CMem.store (p + 4) 0 fuel w2 = Ok tt w3 /\ ext w w3 /\ cstr w3 p (lit "http") /\
    w_malloc_size w3 = w_malloc_size w + 5 /\ settled w3 p 5.
Proof.
  intros Hl Hls Hr Hf p. pose proof Hr as (_ & Hr0 & Hr1).
  destruct (malloc_ext 5 fuel w) as (w1 & E1 & X1 & Z1 & S1 & A1); [done|done|]. fold p in E1, Z1.
  destruct (lits_ext L _ _ _ X1 Hls Hl) as [Hl1 _].
  assert (settled w (L "http") 5) as Ss by (apply (lits_settled_In L w literals "http"); [done|simpl; tauto]).
  destruct (terminate_ok (lit "http") p fuel w1 Z1) as (w3 & E3 & C3 & F3 & S3); [by apply nonzerob_sound|].
  assert (ext w w3) as X3 by (eapply (frame_ext p); [exact X1|exact F3|unfold p; lia|unfold p; simpl; lia]).
  exists w1, (put w1 p (lit "http")), w3. split_and!; [done| |done|done|done|lia|].
  - apply strcpy_ok; [apply (lits_In L literals); [done|simpl; tauto]|destruct Z1 as [Zw _]; eapply writable_sub; [apply Zw|simpl; lia..]| |simpl; lia].
    simpl. unfold settled, disjoint_from in *. unfold p. lia.
  - left. rewrite (ext_arena _ _ X3). unfold p. lia.
Qed.

Lemma ParseUrl_ok u p fuel w :
  url_ok u -> cstr w p (url_text u) -> settled w p (Z.of_nat (length (url_text u)) + 1) ->
  lits L w literals -> lits_settled L w literals -> room w (url_room u) ->
  (length (url_text u) + 40 < fuel)%nat -> Z.of_nat (length (url_text u)) < 2 ^ 31 - 1 ->
  exists pu ip w', ParseUrl p fuel w = Ok (pu, ip) w' /\ ext w w' /\
    cstr w' (scheme pu) (lit "http") /\ cstr w' (host pu) (u_host u) /\ cstr w' ip (u_ip u) /\
    url_port pu = default 80 (u_port u) /\
    cstr w' (url_path pu) (match u_path u with [] => lit "/" | _ => u_path u end).
Proof.
  intros Hu Hc Hs Hl Hls Hr Hf Hn. unfold ParseUrl. pose proof Hr as (Hrw & Hr0 & Hr1). unfold url_room in Hr1.
  assert (length (url_text u) = 7 + (length (u_host u) + length (u_path u)))%nat as El.
  { unfold url_text. by rewrite !length_app. }
  destruct (malloc_ext 32 fuel w) as (w1 & E1 & X1 & _ & S1 & A1); [split; [done|lia]|lia|].
  erewrite bind_ok by exact E1. destruct (lits_ext L _ _ _ X1 Hls Hl) as [Hl1 Hls1].
  assert (cstr w1 p (url_text u)) as C1 by (by apply (ext_cstr w)).
  erewrite bind_ok by (apply (scheme_matches u); [done|done|lia]). cbn [Z.eqb negb].
  assert (room w1 5) as R1 by (split; [rewrite A1; by eapply ext_writable|lia]).
  destruct (scheme_ok fuel w1 Hl1 Hls1 R1) as (w2 & w3 & w4 & E2 & E3 & E4 & X4 & C4 & S4 & T4); [lia|].
  erewrite bind_ok by exact E2. erewrite bind_ok by exact E3. erewrite bind_ok by exact E4.
  assert (ext w w4) as X04 by (by etransitivity).
  assert (cstr w4 (p + 7) (u_host u ++ u_path u)) as Ch.
  { assert (cstr w4 p (url_text u)) as [Hn4 Hb4] by (by apply (ext_cstr w)). unfold url_text in Hn4, Hb4.
    apply List.Forall_app in Hn4 as [_ Hn4]. rewrite <- app_assoc in Hb4. by apply bytes_at_app in Hb4 as [_ Hb4]. }
  destruct (parse_host_ok u (p + 7) fuel w4) as (h & ip & w5 & E5 & X5 & C5h & C5i & T5h & T5i & S5); try done.
  { apply (ext_settled w); [done|]. rewrite length_app. unfold settled in *. lia. }
  { split; [rewrite (ext_arena _ _ X04); by eapply ext_writable|lia]. }
  { rewrite length_app. lia. } { rewrite length_app. lia. }
  erewrite bind_ok by exact E5. cbv beta iota. assert (ext w w5) as X05 by (by etransitivity).
  destruct (lits_ext L _ _ _ X05 Hls Hl) as [Hl5 Hls5].
  destruct (parse_path_ok (u_path u) (p + 7 + Z.of_nat (length (u_host u))) fuel w5) as (q & w6 & E6 & X6 & C6); try done; try lia.
  { assert (cstr w5 p (url_text u)) as [Hn5 Hb5] by (by apply (ext_cstr w)). unfold url_text in Hn5, Hb5.
    rewrite app_assoc in Hn5, Hb5. split; [by apply List.Forall_app in Hn5 as [_ Hn5]|].
    rewrite <- app_assoc in Hb5. apply bytes_at_app in Hb5 as [_ Hb5]. rewrite length_app in Hb5.
    replace (p + 7 + Z.of_nat (length (u_host u))) with (p + Z.of_nat (length (lit "http://") + length (u_host u))); [done|simpl; lia]. }
  { apply (ext_settled w); [done|]. unfold settled in *. lia. }
  { pose proof (ext_size _ _ X05). split; [rewrite (ext_arena _ _ X05); by eapply ext_writable|lia]. }
  erewrite bind_ok by exact E6. exists (MkUrl (w_malloc_array w1 + w_malloc_size w1) h (default 80 (u_port u)) q), ip, w6.
  assert (ext w4 w6) as X46 by (by etransitivity).
  split_and!; [done|by etransitivity|by apply (ext_cstr w4)|by apply (ext_cstr w5)|by apply (ext_cstr w5)|done|done].
Qed.

(** [ParseUrl] takes a URL apart. For every address text without slash or
    colon, with or without a port number, with or without a path, it returns in
    fresh memory the scheme, the host with its port, and the path, "/" when there
    is none; the address goes to [ip], and the port is the number behind the
    colon, 80 when there is none. Nothing outside the free part of the arena
    changes. *)
Theorem ParseUrl_splits u p fuel w :
  url_ok u -> cstr w p (url_text u) -> settled w p (Z.of_nat (length (url_text u)) + 1) ->
  lits L w literals -> lits_settled L w literals -> room w (url_room u) ->
  (length (url_text u) + 40 < fuel)%nat -> Z.of_nat (length (url_text u)) < 2 ^ 31 - 1 ->
  exists pu ip w', ParseUrl p fuel w = Ok (pu, ip) w' /\ ext w w' /\
    cstr w' (scheme pu) (lit "http") /\ cstr w' (host pu) (u_host u) /\ cstr w' ip (u_ip u) /\
    url_port pu = default 80 (u_port u) /\
    cstr w' (url_path pu) (match u_path u with [] => lit "/" | _ => u_path u end).
Proof. apply ParseUrl_ok. Qed.

Lemma cstr_inj w p a b : cstr w p a -> cstr w p b -> a = b.
Proof.
  revert p b. induction a as [|x a IH]; intros p [|y b] Ha Hb; [done|..].
  - apply cstr_nil in Ha. apply cstr_cons in Hb as (Hb & Hy & _). rewrite Ha in Hb. injection Hb as <-. lia.
  - apply cstr_nil in Hb. apply cstr_cons in Ha as (Ha & Hx & _). rewrite Ha in Hb. injection Hb as ->. lia.
  - apply cstr_cons in Ha as (Ha & _ & Ha'), Hb as (Hb & _ & Hb'). rewrite Ha in Hb. injection Hb as ->. f_equal. by apply (IH (p + 1)).
Qed.

(** C38: the browser and the HTTP server fit together.  In a zeroed buffer
    [BuildRequest] writes the request line, the Host header and the empty line.
    When a server that has answered fewer than 500 requests receives the string
    in that buffer as a datagram, one turn of its loop (receiving, splitting the
    request with strtok, comparing the method, routing the path, building and
    sending the response) completes and sends exactly one datagram: the page of
    the path, to the sender. *)
Theorem BuildRequest_served path host0 pu request (n : nat) fuel w Ls rq k fd address sfuel ws text size port addr a2 env :
  zeroed w request n -> lits L w literals -> apart L request (Z.of_nat n) literals ->
  cstr w (url_path pu) path -> disjoint_from request (Z.of_nat n) (url_path pu) (Z.of_nat (length path) + 1) ->
  cstr w (host pu) host0 -> disjoint_from request (Z.of_nat n) (host pu) (Z.of_nat (length host0) + 1) ->
  (length path + length host0 + 22 < n)%nat -> (n < fuel)%nat -> (n <= 1000)%nat -> 32 ∉ path ->
  ready Ls rq k ws -> (k < 500)%nat -> (2000 < sfuel)%nat -> 0 <= size -> 0 <= ans_ret a2 -> w_env ws = Answer size text port addr :: a2 :: env ->
  exists w', BuildRequest pu request fuel w = Ok tt w' /\ frame request (Z.of_nat n) w w' /\ cstr w' request (request_text path host0) /\
    (cstr w' request text -> exists ws', serve Ls rq false fd address sfuel ws = Ok (inl (SockAddr port addr)) ws' /\
      ready Ls rq (S k) ws' /\ w_env ws' = env /\ sends ws' = sends ws ++ [SysSendto fd (page path) port addr]).
Proof.
  intros Hz Hl Ha Hp Hpd Hh Hhd Hn Hf H1000 Hsp Hr Hk Hsf Hsz Ha2 Henv.
  destruct (BuildRequest_ok path host0 pu request n fuel w) as (w' & E & [_ C] & F); try done; try lia.
  { rewrite request_length. lia. }
  exists w'. split; [exact E|]. split; [exact F|]. split; [exact C|]. intros Ht. rewrite (cstr_inj _ _ _ _ Ht C) in Henv.
  set (r := Req (lit "GET") path (lit "HTTP/1.1
" ++ lit "Host: " ++ host0 ++ lit newline ++ lit newline) port addr).
  assert (rq_bytes r = request_text path host0) as Er by (unfold rq_bytes, request_text; simpl; done).
  assert (rq_ok r) as Hq.
  { unfold rq_ok. rewrite Er, request_length. split_and!; [exact (proj1 C)| |done|lia]. apply (bool_decide_unpack _). vm_compute. exact I. }
  destruct a2 as [m b2 p2 q2]. destruct (serve_ok Ls rq k r fd address ws env size m b2 p2 q2 sfuel) as (ws' & E' & R' & V' & S'); [done..|by rewrite Er|].
  exists ws'. split; [exact E'|]. split; [exact R'|]. split; [exact V'|]. rewrite S'. unfold reply, answer_text. by rewrite decide_True.
Qed.
End Browser.

(** ** Concrete URLs *)

Definition demo_literals : string -> Z := lit_addr 100 literals.
Definition demo_url : pieces := Pieces (lit "127.0.0.1") (Some 8888) (lit "/index.html").
Definition demo_browser : world :=
  put (lit_world 100 2000000 20000 literals []) 1000 (url_text demo_url ++ [0]).
Lemma demo_room n : n <= 1000000 -> room demo_browser n.
Proof.
  intros Hn. split; [apply writable_put, lit_world_writable; unfold MALLOC_MAX_SIZE; vm_compute; discriminate|].
  unfold MALLOC_MAX_SIZE. change (w_malloc_size demo_browser) with 0. lia.
Qed.
Lemma ParseUrl_splits_witness :
  exists pu ip w', ParseUrl demo_literals 1000 100%nat demo_browser = Ok (pu, ip) w' /\
    cstr w' (host pu) (lit "127.0.0.1:8888") /\ cstr w' ip (lit "127.0.0.1") /\ url_port pu = 8888 /\
    cstr w' (url_path pu) (lit "/index.html").
Proof.
  destruct (ParseUrl_splits demo_literals demo_url 1000 100%nat demo_browser) as (pu & ip & w' & E & _ & _ & H1 & H2 & H3 & H4).
  - split; [|simpl; lia|split; [apply nonzerob_sound; vm_compute; reflexivity|reflexivity]].
    apply (bool_decide_unpack _). vm_compute. exact I.
  - apply cstrb_sound. vm_compute. reflexivity.
  - left. vm_compute. discriminate.
  - apply litsb_sound. vm_compute. reflexivity.
  - apply lits_settledb_sound. vm_compute. reflexivity.
  - apply demo_room. vm_compute. discriminate.
  - apply Nat.ltb_lt. vm_compute. reflexivity.
  - vm_compute. reflexivity.
  - exists pu, ip, w'. exact (conj E (conj H1 (conj H2 (conj H3 H4)))).
Defined.
Definition demo_parsed : world := put (put demo_browser 1100 (lit "/index.html" ++ [0])) 1200 (lit "127.0.0.1:8888" ++ [0]).
Definition demo_text : list Z := request_text (lit "/index.html") (lit "127.0.0.1:8888").
Definition demo_serving : world := lit_world 100 2000000 20000 HttpServer.literals [Answer 60 demo_text 9999 16777343; Answer 200 [] 0 0].
Lemma demo_serving_ready : ready demo_L 10000 0 demo_serving.
Proof. apply (ready_same demo_L 10000 0 demo_server); [reflexivity..|exact demo_ready]. Qed.
Lemma BuildRequest_served_witness :
  exists w' ws', BuildRequest demo_literals (MkUrl 0 1200 8888 1100) 30000 1001%nat demo_parsed = Ok tt w' /\
    serve demo_L 10000 false 3 (SockAddr 0 0) 2001%nat demo_serving = Ok (inl (SockAddr 9999 16777343)) ws' /\
    sends ws' = [SysSendto 3 (page (lit "/index.html")) 9999 16777343].
Proof.
  destruct (BuildRequest_served demo_literals (lit "/index.html") (lit "127.0.0.1:8888") (MkUrl 0 1200 8888 1100) 30000 1000 1001
    demo_parsed demo_L 10000 0 3 (SockAddr 0 0) 2001 demo_serving demo_text 60 9999 16777343 (Answer 200 [] 0 0) []) as (w' & E & _ & C & H).
  - split; [apply writable_put, writable_put, writable_put, lit_world_writable; lia|apply bytes_atb_sound; vm_compute; reflexivity].
  - apply litsb_sound. vm_compute. reflexivity.
  - apply apartb_sound. vm_compute. reflexivity.
  - apply cstrb_sound. vm_compute. reflexivity.
  - right. vm_compute. discriminate.
  - apply cstrb_sound. vm_compute. reflexivity.
  - right. vm_compute. discriminate.
  - apply Nat.ltb_lt. vm_compute. reflexivity.
  - lia.
  - lia.
  - apply (bool_decide_unpack _). vm_compute. exact I.
  - exact demo_serving_ready.
  - lia.
  - lia.
  - lia.
  - cbn. lia.
  - reflexivity.
  - exists w'. destruct H as (ws' & E' & _ & _ & S').
    + exact C.
    + exists ws'. split; [exact E|]. split; [exact E'|]. rewrite S'. vm_compute. reflexivity.
Defined.
