(* ===== verification/KernelBase.v ===== *)
(** * Small kernel headers: [src/generic.h], [generic.cc], [util.h],
    [ring_buffer.h], [rect.h]

    Page arithmetic and bit-field helpers, the ring buffer that carries key
    strokes and standard input, and the rectangles of the compositor. *)

From S2P Require Import Prelude.

(** ** generic.h, generic.cc *)

Module Generic.
Definition kPageSizeExponent : Z := 12.
Definition kPageSize : Z := Z.shiftl 1 kPageSizeExponent.
Definition kPageAddrMask : Z := kPageSize - 1.
Definition ByteSizeToPageSize (byte_size : Z) : Z :=
  Z.shiftr (u64 (u64 (byte_size + kPageSize) - 1)) kPageSizeExponent.

(** Strings are the bytes before the NUL. *)
Fixpoint IsEqualString (a b : list Z) : bool :=
  match a, b with
  | [], [] => true
  | x :: a', y :: b' => if x =? y then IsEqualString a' b' else false
  | _, _ => false
  end.

(** The value, wrapped to 32 bits while it is computed and to 8 bits at the
    end, and the rest of the string. *)
Fixpoint StrToByte_loop (v : Z) (s : list Z) : Z * list Z :=
  match s with
  | c :: s' =>
    if (48 <=? c) && (c <=? 57) then StrToByte_loop (u32 (v * 10 + c - 48)) s' else (v, s)
  | [] => (v, [])
  end.
Definition StrToByte (s : list Z) : Z * list Z :=
  let '(v, rest) := StrToByte_loop 0 s in (u8 v, rest).

Lemma IsEqualString_eq a b : IsEqualString a b = true <-> a = b.
Proof.
  revert b. induction a as [|x a IH]; intros [|y b]; simpl; try done.
  destruct (Z.eqb_spec x y) as [->|Hne]; [rewrite IH; split; congruence|].
  split; [done|congruence].
Qed.

(** Enough pages, and not one too many. *)
Lemma ByteSizeToPageSize_ceil n :
  0 <= n < 2 ^ 64 - 4096 ->
  n <= ByteSizeToPageSize n * kPageSize < n + kPageSize.
Proof.
  intros H. unfold ByteSizeToPageSize, kPageSize, kPageSizeExponent.
  change (Z.shiftl 1 12) with 4096.
  rewrite (u64_small (n + 4096)), u64_small, shiftr_div by lia. change (2 ^ 12) with 4096. zdiv.
Qed.
End Generic.

(** ** util.h: bit fields of hardware registers *)

Module Bits.
Definition GetBits (hi lo v : Z) : Z :=
  Z.land (Z.shiftr v lo) (Z.shiftl 1 (hi - lo + 1) - 1).
Definition GetBit (bit v : Z) : bool := Z.land (Z.shiftr v bit) 1 =? 1.
(** On 32-bit operands. *)
Definition CombineFieldBits (hi lo src value : Z) : Z :=
  let kBits := hi - lo + 1 in
  let kMask := u32 (Z.shiftl (Z.shiftl 1 kBits - 1) lo) in
  let src := Z.land src (u32 (Z.lnot kMask)) in
  Z.lor src (Z.land (u32 (Z.shiftl value lo)) kMask).

Lemma testbit_ones k i : 0 <= k -> Z.testbit (Z.shiftl 1 k - 1) i = (0 <=? i) && (i <? k).
Proof.
  intros Hk. rewrite Z.shiftl_1_l. replace (2 ^ k - 1) with (Z.ones k) by (rewrite Z.ones_equiv; lia).
  destruct (Z.leb_spec 0 i); cbn [andb].
  - rewrite Z.testbit_ones_nonneg by lia. done.
  - by rewrite Z.testbit_neg_r.
Qed.

Lemma GetBits_testbit hi lo v i :
  0 <= lo <= hi ->
  Z.testbit (GetBits hi lo v) i = (0 <=? i) && (i <=? hi - lo) && Z.testbit v (i + lo).
Proof.
  intros H. unfold GetBits. rewrite Z.land_spec, testbit_ones by lia.
  destruct (Z.leb_spec 0 i); cbn [andb]; [|by rewrite andb_false_r].
  rewrite Z.shiftr_spec by lia. rewrite andb_comm. f_equal. zcmps; lia.
Qed.

Lemma u32_testbit x i : 0 <= i -> Z.testbit (u32 x) i = (i <? 32) && Z.testbit x i.
Proof.
  intros Hi. unfold u32. destruct (Z.ltb_spec i 32); cbn [andb].
  - by rewrite Z.mod_pow2_bits_low.
  - rewrite Z.mod_pow2_bits_high by lia. done.
Qed.

Lemma CombineFieldBits_testbit hi lo src value i :
  0 <= lo <= hi -> hi < 32 -> 0 <= src < 2 ^ 32 -> 0 <= i ->
  Z.testbit (CombineFieldBits hi lo src value) i =
  if (lo <=? i) && (i <=? hi) then Z.testbit value (i - lo) else Z.testbit src i.
Proof.
  intros H Hhi Hsrc Hi. unfold CombineFieldBits.
  assert (forall j, 0 <= j -> Z.testbit (u32 (Z.shiftl (Z.shiftl 1 (hi - lo + 1) - 1) lo)) j =
    (lo <=? j) && (j <=? hi)) as Hmask.
  { intros j Hj. rewrite u32_testbit, Z.shiftl_spec, testbit_ones by lia. zcmps; (done || lia). }
  rewrite Z.lor_spec, !Z.land_spec, (u32_testbit (Z.lnot _)), Z.lnot_spec, Hmask by lia.
  rewrite (u32_testbit (Z.shiftl value lo)), Z.shiftl_spec by lia.
  destruct (Z.ltb_spec i 32).
  - destruct ((lo <=? i) && (i <=? hi)) eqn:E; cbn [andb negb]; rewrite ?andb_false_r, ?andb_true_r;
      cbn [orb]; [done|by rewrite orb_false_r].
  - cbn [andb]. rewrite andb_false_r. zfalse (i <=? hi). rewrite !andb_false_r. cbn [orb].
    symmetry. apply Z.bits_above_log2; [lia|]. destruct (Z.eq_dec src 0) as [->|]; [simpl; lia|].
    assert (Z.log2 src < 32) by (apply Z.log2_lt_pow2; lia). lia.
Qed.

(** Reading back a field that was just combined. *)
Lemma GetBits_CombineFieldBits hi lo src value :
  0 <= lo <= hi -> hi < 32 -> 0 <= src < 2 ^ 32 -> 0 <= value < 2 ^ (hi - lo + 1) ->
  GetBits hi lo (CombineFieldBits hi lo src value) = value.
Proof.
  intros H Hhi Hsrc Hv. apply Z.bits_inj'. intros i Hi.
  rewrite GetBits_testbit by lia. zcmps; rewrite ?andb_false_l, ?andb_true_l.
  - rewrite CombineFieldBits_testbit by lia. ztrue (lo <=? i + lo). ztrue (i + lo <=? hi).
    cbn [andb]. f_equal. lia.
  - symmetry. destruct (Z.eq_dec value 0) as [->|]; [apply Z.bits_0|].
    apply Z.bits_above_log2; [lia|].
    assert (Z.log2 value < hi - lo + 1) by (apply Z.log2_lt_pow2; lia). lia.
Qed.
End Bits.

(** ** ring_buffer.h *)

Module RingBuffer.
Section RingBuffer.
Context {T : Type} (zero : T) (n : nat).

(** [zero] is the value [{}] of [T]; [elements_] has [n] entries. *)
Record ring := Ring { elements_ : list T; readp_ : nat; writep_ : nat }.

Definition IsEmpty (r : ring) : bool := (readp_ r =? writep_ r)%nat.
Definition Pop (r : ring) : T * ring :=
  if IsEmpty r then (zero, r)
  else
    let v := default zero (elements_ r !! readp_ r) in
    (v, Ring (elements_ r) ((readp_ r + 1) mod n) (writep_ r)).
Definition Push (value : T) (r : ring) : ring :=
  let nextp := ((writep_ r + 1) mod n)%nat in
  if (nextp =? readp_ r)%nat then r
  else Ring (<[writep_ r := value]> (elements_ r)) (readp_ r) nextp.
(** The constructor; the array holds whatever was there. *)
Definition new (garbage : list T) : ring := Ring garbage 0 0.

(** *** Specification: a queue of at most [n - 1] elements *)

Inductive op := OpPush (v : T) | OpPop | OpIsEmpty.
Inductive out := OutNone | OutVal (v : T) | OutBool (b : bool).
Definition exec (o : op) (r : ring) : out * ring :=
  match o with
  | OpPush v => (OutNone, Push v r)
  | OpPop => let '(v, r) := Pop r in (OutVal v, r)
  | OpIsEmpty => (OutBool (IsEmpty r), r)
  end.
Definition spec_exec (o : op) (q : list T) : out * list T :=
  match o with
  | OpPush v => (OutNone, if (length q + 1 <? n)%nat then q ++ [v] else q)
  | OpPop => (OutVal (default zero (head q)), tail q)
  | OpIsEmpty => (OutBool (match q with [] => true | _ => false end), q)
  end.
Fixpoint exec_all {S} (f : op -> S -> out * S) (l : list op) (s : S) : list out :=
  match l with [] => [] | o :: l' => let '(x, s) := f o s in x :: exec_all f l' s end.

(** The [k]-th element counted from the read pointer. *)
Definition slot (r : ring) (k : nat) : nat := ((readp_ r + k) mod n)%nat.
Record abs (q : list T) (r : ring) : Prop := Abs {
  abs_len : length (elements_ r) = n;
  abs_read : (readp_ r < n)%nat;
  abs_fit : (length q < n)%nat;
  abs_write : writep_ r = slot r (length q);
  abs_elem : forall k, (k < length q)%nat -> elements_ r !! slot r k = q !! k;
}.

Lemma mod_add a b : (a < n)%nat -> (b < n)%nat ->
  ((a + b) mod n)%nat = (if (a + b <? n)%nat then a + b else a + b - n)%nat.
Proof.
  intros Ha Hb. destruct (Nat.ltb_spec (a + b) n); [by apply Nat.mod_small|].
  replace (a + b)%nat with ((a + b - n) + 1 * n)%nat at 1 by lia.
  rewrite Nat.Div0.mod_add. apply Nat.mod_small. lia.
Qed.

Ltac slots := unfold slot in *; rewrite ?mod_add in * by lia;
  repeat match goal with
  | |- context [(?a <? ?b)%nat] => destruct (Nat.ltb_spec a b)
  | H : context [(?a <? ?b)%nat] |- _ => destruct (Nat.ltb_spec a b)
  | |- context [(?a =? ?b)%nat] => destruct (Nat.eqb_spec a b)
  end; try (exfalso; lia).

Lemma slot_lt r k : (0 < n)%nat -> (slot r k < n)%nat.
Proof. intros. apply Nat.mod_upper_bound. lia. Qed.

Lemma slot_inj r k j :
  (readp_ r < n)%nat -> (k < n)%nat -> (j < n)%nat -> slot r k = slot r j -> k = j.
Proof. intros Hr Hk Hj H. revert H. slots; lia. Qed.

Lemma IsEmpty_abs q r : abs q r -> IsEmpty r = match q with [] => true | _ => false end.
Proof.
  intros [Hl Hr Hf Hw _]. unfold IsEmpty. rewrite Hw. destruct q as [|x q]; simpl in *; slots; (done || lia).
Qed.

Lemma Pop_abs q r v r' :
  abs q r -> Pop r = (v, r') -> v = default zero (head q) /\ abs (tail q) r'.
Proof.
  intros Ha. unfold Pop. rewrite (IsEmpty_abs _ _ Ha). destruct q as [|x q]; [by intros [= <- <-]|].
  destruct Ha as [Hl Hr Hf Hw He]. intros [= <- <-]. simpl in *.
  assert (slot r 0 = readp_ r) as E0 by (slots; lia). split.
  - rewrite <- E0, He by lia. done.
  - split; simpl; [done|apply Nat.mod_upper_bound; lia|lia| |].
    + rewrite Hw. unfold slot. simpl. rewrite Nat.Div0.add_mod_idemp_l. f_equal. lia.
    + intros k Hk. specialize (He (S k) ltac:(lia)). simpl in He. rewrite <- He. f_equal.
      unfold slot. simpl. rewrite Nat.Div0.add_mod_idemp_l. f_equal. lia.
Qed.

Lemma Push_abs q r v :
  abs q r -> abs (if (length q + 1 <? n)%nat then q ++ [v] else q) (Push v r).
Proof.
  intros Ha. destruct Ha as [Hl Hr Hf Hw He]. unfold Push.
  assert (((writep_ r + 1) mod n)%nat = slot r (length q + 1)) as Hnext.
  { rewrite Hw. unfold slot. rewrite Nat.Div0.add_mod_idemp_l. f_equal. lia. }
  rewrite Hnext. destruct (Nat.ltb_spec (length q + 1) n) as [Hlt|Hge].
  - destruct (Nat.eqb_spec (slot r (length q + 1)) (readp_ r)) as [E|_].
    { exfalso. revert E. slots; lia. }
    split; simpl; [by rewrite length_insert|done|rewrite length_app; simpl; lia| |].
    + unfold slot. simpl. rewrite length_app. done.
    + rewrite length_app. simpl. intros k Hk. change (slot _ k) with (slot r k).
      destruct (decide (k = length q)) as [->|Hne].
      * rewrite Hw, list_lookup_insert_eq by (rewrite Hl; apply slot_lt; lia).
        by rewrite list_lookup_middle.
      * rewrite list_lookup_insert_ne.
        -- rewrite He by lia. symmetry. apply lookup_app_l. lia.
        -- rewrite Hw. intros E. apply slot_inj in E; lia.
  - destruct (Nat.eqb_spec (slot r (length q + 1)) (readp_ r)) as [_|E]; [done|].
    exfalso. apply E. assert (length q + 1 = n)%nat as -> by lia. unfold slot.
    replace (readp_ r + n)%nat with (readp_ r + 1 * n)%nat by lia. rewrite Nat.Div0.mod_add.
    apply Nat.mod_small. lia.
Qed.

Lemma exec_all_abs l q r : abs q r -> exec_all exec l r = exec_all spec_exec l q.
Proof.
  revert q r. induction l as [|o l IH]; intros q r Ha; [done|]. destruct o; simpl.
  - f_equal. apply IH, Push_abs, Ha.
  - destruct (Pop r) as [v r'] eqn:E. destruct (Pop_abs _ _ _ _ Ha E) as [-> Ha'].
    f_equal. by apply IH.
  - rewrite (IsEmpty_abs _ _ Ha). f_equal. by apply IH.
Qed.

(** Whatever sequence of [Push], [Pop] and [IsEmpty] is made on a new ring
    buffer of [n] cells, the results are those of a first-in first-out queue
    that holds at most [n - 1] elements, drops what does not fit and gives the
    zero value when it is empty. *)
Theorem ring_buffer_is_queue garbage l :
  length garbage = n -> (0 < n)%nat -> exec_all exec l (new garbage) = exec_all spec_exec l [].
Proof.
  intros Hg Hn. apply exec_all_abs. split; simpl; try lia; try done.
  unfold slot. simpl. rewrite Nat.mod_small; lia.
Qed.
End RingBuffer.

Lemma ring_buffer_is_queue_witness :
  exec_all (exec 0 3) [OpPush 5; OpPush 6; OpPush 7; OpPop; OpPush 8; OpPop; OpPop; OpPop; OpIsEmpty]
    (new [9; 9; 9]) =
  [OutNone; OutNone; OutNone; OutVal 5; OutNone; OutVal 6; OutVal 8; OutVal 0; OutBool true].
Proof. rewrite (ring_buffer_is_queue 0 3 [9; 9; 9]); [reflexivity|reflexivity|lia]. Defined.
End RingBuffer.

(** ** rect.h *)

Module Rect.
Record rect := R { x : Z; y : Z; xsize : Z; ysize : Z }.
#[global] Instance rect_eq_dec : EqDecision rect.
Proof. solve_decision. Defined.

Definition GetRight (r : rect) : Z := i32 (x r + xsize r).
Definition GetBottom (r : rect) : Z := i32 (y r + ysize r).
Definition GetIntersectionWith (r t : rect) : rect :=
  if (xsize r <? 0) || (ysize r <? 0) || (xsize t <? 0) || (ysize t <? 0) then R 0 0 0 0
  else
    let bx := Z.max (x r) (x t) in
    let by_ := Z.max (y r) (y t) in
    let bxsize :=
      Z.max (Z.min (i32 (i32 (xsize r + x r) - bx)) (i32 (i32 (xsize t + x t) - bx))) 0 in
    let bysize :=
      Z.max (Z.min (i32 (i32 (ysize r + y r) - by_)) (i32 (i32 (ysize t + y t) - by_))) 0 in
    R bx by_ bxsize bysize.
Definition GetUnionWith (r s : rect) : rect :=
  let l1 := x r in
  let r1 := i32 (x r + xsize r) in
  let u1 := y r in
  let d1 := i32 (y r + ysize r) in
  let l2 := x s in
  let r2 := i32 (x s + xsize s) in
  let u2 := y s in
  let d2 := i32 (y s + ysize s) in
  let l := Z.min l1 l2 in
  let r := Z.max r1 r2 in
  let u := Z.min u1 u2 in
  let d := Z.max d1 d2 in
  R l u (i32 (r - l)) (i32 (d - u)).
Definition IsPointInRect (r : rect) (px py : Z) : bool :=
  (x r <=? px) && (px <? i32 (x r + xsize r)) && (y r <=? py) && (py <? i32 (y r + ysize r)).
Definition IsEmptyRect (r : rect) : bool :=
  (x r =? 0) && (y r =? 0) && (xsize r =? 0) && (ysize r =? 0).
Definition rect_eqb (r s : rect) : bool :=
  (x r =? x s) && (y r =? y s) && (xsize r =? xsize s) && (ysize r =? ysize s).

Lemma rect_eqb_eq r s : rect_eqb r s = true <-> r = s.
Proof.
  destruct r, s. unfold rect_eqb. simpl. rewrite !andb_true_iff, !Z.eqb_eq.
  split; [intros [[[-> ->] ->] ->]; done|by intros [= -> -> -> ->]].
Qed.

(** Coordinates below 2^29 in size: no sum or difference leaves [int]. *)
Definition moderate (r : rect) : Prop :=
  -2 ^ 29 <= x r < 2 ^ 29 /\ -2 ^ 29 <= y r < 2 ^ 29 /\
  -2 ^ 29 <= xsize r < 2 ^ 29 /\ -2 ^ 29 <= ysize r < 2 ^ 29.
#[global] Instance moderate_dec r : Decision (moderate r).
Proof. unfold moderate. apply _. Defined.

Ltac rects := unfold moderate in *; cbn [x y xsize ysize] in *;
  repeat match goal with |- context [i32 ?e] => rewrite (i32_small e) by lia end.

Lemma IsPointInRect_spec r px py :
  moderate r ->
  IsPointInRect r px py = true <-> x r <= px < x r + xsize r /\ y r <= py < y r + ysize r.
Proof.
  intros H. unfold IsPointInRect. rects. rewrite !andb_true_iff, !Z.leb_le, !Z.ltb_lt. tauto.
Qed.

Lemma intersection_moderate r t : moderate r -> moderate t -> moderate (GetIntersectionWith r t).
Proof.
  intros Hr Ht. unfold GetIntersectionWith. destruct (_ || _ || _ || _) eqn:E; [rects; lia|].
  rewrite !orb_false_iff, !Z.ltb_ge in E. rects. lia.
Qed.

Lemma intersection_point r t px py :
  moderate r -> moderate t -> 
  IsPointInRect (GetIntersectionWith r t) px py = IsPointInRect r px py && IsPointInRect t px py.
Proof.
  intros Hr Ht. apply eq_true_iff_eq. rewrite andb_true_iff, !IsPointInRect_spec by
    (done || by apply intersection_moderate).
  unfold GetIntersectionWith. destruct (_ || _ || _ || _) eqn:E; rects.
  - rewrite !orb_true_iff, !Z.ltb_lt in E. lia.
  - rewrite !orb_false_iff, !Z.ltb_ge in E. lia.
Qed.

(** Being absorbed by a union is having all edges inside. *)
Lemma union_absorbs r c :
  moderate r -> moderate c ->
  GetUnionWith r c = c <->
  x c <= x r /\ y c <= y r /\ x r + xsize r <= x c + xsize c /\ y r + ysize r <= y c + ysize c.
Proof.
  intros Hr Hc. destruct r as [x1 y1 w1 h1], c as [x2 y2 w2 h2]. unfold GetUnionWith. rects.
  split; [intros [= E1 E2 E3 E4]|intros (? & ? & ? & ?)].
  - rewrite E1 in E3. rewrite E2 in E4. clear Hr Hc. lia.
  - rewrite (Z.min_r x1), (Z.min_r y1), (Z.max_r (x1 + w1)), (Z.max_r (y1 + h1)) by lia.
    f_equal; lia.
Qed.

(** Intersecting two rectangles is exact: a pixel is in the intersection
    just when it is in both; the operation is commutative on the pixels, and
    its result is never larger than an operand.  The union covers both, and
    is the least rectangle that does. *)
Theorem rect_algebra r t :
  moderate r -> moderate t ->
  (forall px py, IsPointInRect (GetIntersectionWith r t) px py =
     IsPointInRect r px py && IsPointInRect t px py) /\
  GetIntersectionWith r t = GetIntersectionWith t r /\
  (forall px py, IsPointInRect r px py || IsPointInRect t px py = true ->
     IsPointInRect (GetUnionWith r t) px py = true) /\
  (forall c, moderate c ->
     GetUnionWith r c = c -> GetUnionWith t c = c -> GetUnionWith (GetUnionWith r t) c = c).
Proof.
  intros Hr Ht. split_and!.
  - intros px py. by apply intersection_point.
  - unfold GetIntersectionWith.
    replace ((xsize t <? 0) || (ysize t <? 0) || (xsize r <? 0) || (ysize r <? 0))
      with ((xsize r <? 0) || (ysize r <? 0) || (xsize t <? 0) || (ysize t <? 0))
      by (destruct (xsize r <? 0), (ysize r <? 0), (xsize t <? 0), (ysize t <? 0); done).
    case_match; [done|].
    rewrite (Z.max_comm (x t)), (Z.max_comm (y t)). f_equal; f_equal; apply Z.min_comm.
  - intros px py. rewrite orb_true_iff, !IsPointInRect_spec by done. unfold IsPointInRect, GetUnionWith.
    rects. rewrite !andb_true_iff, !Z.leb_le, !Z.ltb_lt. lia.
  - intros c Hc (? & ? & ? & ?)%union_absorbs (? & ? & ? & ?)%union_absorbs; [|done..].
    unfold GetUnionWith at 2. rects.
    set (l := Z.min (x r) (x t)). set (u := Z.min (y r) (y t)).
    set (e := Z.max (x r + xsize r) (x t + xsize t)). set (b := Z.max (y r + ysize r) (y t + ysize t)).
    assert (x c <= l /\ y c <= u /\ e <= x c + xsize c /\ b <= y c + ysize c) by (subst l u e b; lia).
    assert (-2 ^ 29 <= l < 2 ^ 29 /\ -2 ^ 29 <= u < 2 ^ 29 /\ -2 ^ 30 <= e /\ -2 ^ 30 <= b) by (subst l u e b; lia).
    clearbody l u e b. clear Hr Ht. destruct c as [x2 y2 w2 h2]. unfold GetUnionWith. rects.
    rewrite (Z.min_r l), (Z.min_r u), (Z.max_r (l + (e - l))), (Z.max_r (u + (b - u))) by lia. f_equal; lia.
Qed.

Lemma rect_algebra_witness :
  GetIntersectionWith (R 0 0 10 10) (R 5 (-5) 10 8) = R 5 0 5 3 /\
  IsPointInRect (GetIntersectionWith (R 0 0 10 10) (R 5 (-5) 10 8)) 6 2 =
  IsPointInRect (R 0 0 10 10) 6 2 && IsPointInRect (R 5 (-5) 10 8) 6 2.
Proof.
  split; [reflexivity|]. apply rect_algebra; apply (bool_decide_unpack _); vm_compute; exact I.
Defined.
End Rect.
