(* ===== verification/KernelText.v ===== *)
(** * Text handling in the kernel: [src/string_buffer.h],
    [src/command_line_args.h], [src/libfunc.cc] and [src/text_box.cc] *)

From S2P Require Import Prelude.

(** ** string_buffer.h *)

Module StringBuffer.
Section StringBuffer.
Context (N : nat).

(** [buf_] has [N + 1] bytes. *)
Record sbuf := Sb { write_index_ : nat; buf_ : list Z }.

Definition WriteChar (c : Z) (s : sbuf) : sbuf :=
  if (N <=? write_index_ s)%nat then s
  else Sb (S (write_index_ s)) (<[write_index_ s := c]> (buf_ s)).
Definition WriteString (t : list Z) (s : sbuf) : sbuf := foldl (fun s c => WriteChar c s) s t.
Definition nibble (v : Z) (i : nat) : Z := Z.land (Z.shiftr v (4 * Z.of_nat i)) 15.
Definition hex_char (c : Z) : Z := if c <? 10 then c + 48 else c + 55.
Definition WriteHex8ZeroFilled (v : Z) (s : sbuf) : sbuf :=
  WriteChar (hex_char (nibble v 0)) (WriteChar (hex_char (nibble v 1)) s).
(** [for (; i >= 0; i--)], with [k = i + 1]. *)
Fixpoint hex_loop (k : nat) (v : Z) (s : sbuf) : sbuf :=
  match k with
  | O => s
  | S i => hex_loop i v (WriteChar (hex_char (nibble v i)) s)
  end.
(** [for (i = 15; i >= min_digits; i--)], the value of [i + 1] behind it. *)
Fixpoint lead_loop (k : nat) (v min_digits : Z) : nat :=
  match k with
  | O => O
  | S i =>
    if min_digits <=? Z.of_nat i then if nibble v i =? 0 then lead_loop i v min_digits else k
    else k
  end.
Definition WriteHex64_min (v min_digits : Z) (s : sbuf) : sbuf :=
  hex_loop (lead_loop 16 v min_digits) v s.
Definition WriteHex64 (v : Z) (s : sbuf) : sbuf := WriteHex64_min v 1 s.
(** The array [s], read from its end: an index of 20 is outside of it. *)
Fixpoint decimal_digits (fuel : nat) (value : Z) (acc : list Z) : res (list Z) :=
  match fuel with
  | O => Stop BadPointer
  | S fuel' =>
    let acc := value mod 10 :: acc in
    if value / 10 =? 0 then Done acc else decimal_digits fuel' (value / 10) acc
  end.
Definition WriteDecimal64 (value : Z) (s : sbuf) : res sbuf :=
  do ds <- decimal_digits 20 value [];
  Done (foldl (fun s d => WriteChar (48 + d) s) s ds).
Fixpoint zero_filled_loop (k : nat) (v : Z) (s : sbuf) : sbuf :=
  match k with
  | O => s
  | S i =>
    let s := if (i =? 11)%nat || (i =? 7)%nat || (i =? 3)%nat then WriteChar 39 s else s in
    zero_filled_loop i v (WriteChar (hex_char (nibble v i)) s)
  end.
Definition WriteHex64ZeroFilled (v : Z) (s : sbuf) : sbuf := zero_filled_loop 16 v s.
(** The string at [buf_] after its terminator is written. *)
Definition GetString (s : sbuf) : list Z * sbuf :=
  let b := <[write_index_ s := 0]> (buf_ s) in
  (take (write_index_ s) b, Sb (write_index_ s) b).
Definition Clear (s : sbuf) : sbuf := Sb 0 (buf_ s).

(** *** What was written *)

Definition text (s : sbuf) : list Z := take (write_index_ s) (buf_ s).
Definition wf (s : sbuf) : Prop := length (buf_ s) = S N /\ (write_index_ s <= N)%nat.

Lemma WriteChar_spec c s : wf s -> wf (WriteChar c s) /\ text (WriteChar c s) = take N (text s ++ [c]).
Proof.
  intros [Hl Hi]. unfold WriteChar, text, wf. destruct (Nat.leb_spec N (write_index_ s)); simpl.
  - split; [done|]. assert (write_index_ s = N) as -> by lia.
    rewrite take_app_le by (rewrite length_take; lia). by rewrite take_take, Nat.min_id.
  - rewrite length_insert. split; [split; lia|].
    rewrite (take_S_r _ _ c) by (rewrite list_lookup_insert_eq; [done|lia]).
    rewrite take_insert_ge by lia. rewrite (take_ge (_ ++ _)); [done|].
    rewrite length_app, length_take. simpl. lia.
Qed.

Lemma WriteString_spec t s :
  wf s -> wf (WriteString t s) /\ text (WriteString t s) = take N (text s ++ t).
Proof.
  revert s. induction t as [|c t IH]; intros s Hs; simpl.
  - split; [done|]. rewrite app_nil_r, take_ge; [done|]. destruct Hs as [Hl Hi].
    unfold text. rewrite length_take. lia.
  - destruct (WriteChar_spec c s Hs) as [Hw Ht]. destruct (IH _ Hw) as [Hw' Ht'].
    split; [done|]. rewrite Ht', Ht.
    replace (text s ++ c :: t) with ((text s ++ [c]) ++ t) by (by rewrite <- app_assoc).
    generalize (text s ++ [c]). intros l. clear. rewrite !take_app.
    rewrite take_take, Nat.min_id, length_take. f_equal. f_equal. lia.
Qed.

Definition hex_text (k : nat) (v : Z) : list Z := map (fun i => hex_char (nibble v i)) (rev (seq 0 k)).
Lemma hex_loop_write k v s : hex_loop k v s = WriteString (hex_text k v) s.
Proof.
  revert s. induction k as [|i IH]; intros s; [done|]. cbn [hex_loop]. rewrite IH.
  unfold hex_text. rewrite seq_S, rev_app_distr. done.
Qed.

(** *** Reading the digits back *)

Definition dec_value (l : list Z) : Z := foldl (fun a c => 10 * a + (c - 48)) 0 l.
Definition hex_digit (c : Z) : Z := if c <? 58 then c - 48 else c - 55.
Definition hex_value (l : list Z) : Z := foldl (fun a c => 16 * a + hex_digit c) 0 l.

Lemma nibble_range v i : 0 <= nibble v i < 16.
Proof. unfold nibble. rewrite land_15. zdiv. Qed.
Lemma nibble_div v i : nibble v i = v / 16 ^ Z.of_nat i mod 16.
Proof.
  unfold nibble. rewrite land_15, shiftr_div by lia.
  by rewrite Z.pow_mul_r by lia.
Qed.
Lemma hex_digit_char d : 0 <= d < 16 -> hex_digit (hex_char d) = d.
Proof. unfold hex_digit, hex_char. intros. zcmps; lia. Qed.

Lemma hex_value_acc k v a :
  foldl (fun a c => 16 * a + hex_digit c) a (hex_text k v) =
  a * 16 ^ Z.of_nat k + v mod 16 ^ Z.of_nat k.
Proof.
  revert a. induction k as [|i IH]; intros a.
  - simpl. rewrite Z.mod_1_r. lia.
  - unfold hex_text. rewrite seq_S, rev_app_distr. simpl. fold (hex_text i v). rewrite IH.
    rewrite hex_digit_char, nibble_div by apply nibble_range.
    rewrite Nat2Z.inj_succ, Z.pow_succ_r by lia.
    rewrite (Z.mul_comm 16 (16 ^ Z.of_nat i)), Z.rem_mul_r by lia. ring.
Qed.
Lemma hex_value_text k v : hex_value (hex_text k v) = v mod 16 ^ Z.of_nat k.
Proof. unfold hex_value. rewrite hex_value_acc. lia. Qed.

(** Dropping leading zeros loses nothing. *)
Lemma lead_loop_value k v m :
  0 <= v < 16 ^ Z.of_nat k -> v mod 16 ^ Z.of_nat (lead_loop k v m) = v.
Proof.
  revert v. induction k as [|i IH]; intros v Hv; [simpl in *; rewrite Z.mod_1_r; lia|].
  cbn [lead_loop]. destruct (m <=? Z.of_nat i); [|by apply Z.mod_small].
  destruct (Z.eqb_spec (nibble v i) 0) as [E|_]; [|by apply Z.mod_small].
  apply IH. rewrite nibble_div in E. rewrite Nat2Z.inj_succ, Z.pow_succ_r in Hv by lia.
  assert (0 < 16 ^ Z.of_nat i) by (apply Z.pow_pos_nonneg; lia).
  split; [lia|]. rewrite Z.mod_small in E.
  - apply Z.div_small_iff in E; lia.
  - split; [apply Z.div_pos; lia|]. apply Z.div_lt_upper_bound; lia.
Qed.

Lemma decimal_digits_spec fuel v acc :
  0 <= v < 10 ^ Z.of_nat fuel -> fuel <> O ->
  exists ds, decimal_digits fuel v acc = Done (ds ++ acc) /\
    (forall a, foldl (fun a d => 10 * a + d) a ds = a * 10 ^ Z.of_nat (length ds) + v) /\
    (forall d, In d ds -> 0 <= d < 10).
Proof.
  revert v acc. induction fuel as [|fuel IH]; intros v acc Hv Hf; [done|]. cbn [decimal_digits].
  assert (v = 10 * (v / 10) + v mod 10 /\ 0 <= v mod 10 < 10) as [E Hm] by (split; zdiv).
  destruct (Z.eqb_spec (v / 10) 0) as [E0|Hne].
  - exists [v mod 10]. split_and!; [done|intros a; simpl; lia|intros d [<-|[]]; lia].
  - rewrite Nat2Z.inj_succ, Z.pow_succ_r in Hv by lia.
    assert (fuel <> O) by (intros ->; simpl in Hv; lia).
    destruct (IH (v / 10) (v mod 10 :: acc)) as (ds & -> & Hd & Hr); [split; [zdiv|]|done|].
    { apply Z.div_lt_upper_bound; lia. }
    exists (ds ++ [v mod 10]). split_and!.
    + by rewrite <- app_assoc.
    + intros a. rewrite foldl_app, Hd, length_app. simpl.
      rewrite Nat2Z.inj_add, Z.pow_add_r by lia. change (10 ^ Z.of_nat 1) with 10. lia.
    + intros d [Hin|[<-|[]]]%in_app_or; [by apply Hr|lia].
Qed.

Lemma write_digits ds s :
  foldl (fun s d => WriteChar (48 + d) s) s ds = WriteString (map (Z.add 48) ds) s.
Proof. revert s. induction ds as [|d ds IH]; intros s; [done|]. simpl. apply IH. Qed.

Lemma dec_value_digits ds a :
  foldl (fun a c => 10 * a + (c - 48)) a (map (Z.add 48) ds) = foldl (fun a d => 10 * a + d) a ds.
Proof.
  revert a. induction ds as [|d ds IH]; intros a; [done|]. simpl. rewrite IH. f_equal. lia.
Qed.

(** What the number writers append, within the [N] characters of the
    buffer, reads back as the number, for every 64-bit value: the array of 20
    digits of [WriteDecimal64] is large enough, and the zeros [WriteHex64]
    skips do not change the value; what exceeds the buffer is cut off, and
    the buffer stays well-formed. *)
Theorem string_buffer_numbers v m s :
  wf s -> 0 <= v < 2 ^ 64 ->
  (exists t s', WriteDecimal64 v s = Done s' /\ wf s' /\ text s' = take N (text s ++ t) /\
     dec_value t = v /\ Forall (fun c => 48 <= c < 58) t) /\
  (exists t, wf (WriteHex64_min v m s) /\ text (WriteHex64_min v m s) = take N (text s ++ t) /\
     hex_value t = v).
Proof.
  intros Hs Hv. split.
  - destruct (decimal_digits_spec 20 v []) as (ds & E & Hd & Hr); [simpl; lia|done|].
    exists (map (Z.add 48) ds). unfold WriteDecimal64. rewrite E. simpl. rewrite app_nil_r, write_digits.
    eexists. split; [done|]. destruct (WriteString_spec (map (Z.add 48) ds) s Hs) as [Hw Ht].
    split_and!; [done|done| |].
    + unfold dec_value. rewrite dec_value_digits, Hd. lia.
    + apply List.Forall_forall. intros c (d & <- & Hin%Hr)%in_map_iff. lia.
  - exists (hex_text (lead_loop 16 v m) v). unfold WriteHex64_min. rewrite hex_loop_write.
    destruct (WriteString_spec (hex_text (lead_loop 16 v m) v) s Hs) as [Hw Ht].
    split_and!; [done|done|]. rewrite hex_value_text. apply lead_loop_value. simpl. lia.
Qed.
End StringBuffer.

Definition demo : sbuf := Sb 0 (replicate 9 0).
Lemma string_buffer_numbers_witness :
  WriteDecimal64 8 1234567890 demo = Done (WriteString 8 [49; 50; 51; 52; 53; 54; 55; 56] demo) /\
  exists t, wf 8 (WriteHex64_min 8 48879 1 demo) /\
    text (WriteHex64_min 8 48879 1 demo) = take 8 (text demo ++ t) /\ hex_value t = 48879.
Proof.
  split; [reflexivity|]. apply (string_buffer_numbers 8 48879 1 demo); [|lia].
  split; simpl; lia.
Defined.
End StringBuffer.

(** ** command_line_args.h *)

Module CommandLineArgs.
Definition kMaxNumOfArgs : nat := 16.
Definition kBufSize : nat := 64.

(** [argv_] holds pointers into [buf_], as offsets. *)
Record args := Args { argc_ : nat; argv_ : list nat; buf_ : list Z }.

(** [while (s[i] == ' ') i++;] on the rest of the string. *)
Fixpoint skip_spaces (s : list Z) : list Z :=
  match s with c :: s' => if c =? 32 then skip_spaces s' else s | [] => [] end.

(** The loop that copies one word; [true] with the rest of the string when it
    came to the end of the word, [false] when it returned. *)
Fixpoint copy_word (s : list Z) (buf_used : nat) (buf : list Z)
  : res (bool * list Z * nat * list Z) :=
  match s with
  | [] => Done (true, [], buf_used, buf)
  | c :: s' =>
    if c =? 32 then Done (true, s, buf_used, buf)
    else if (kBufSize <=? buf_used)%nat then Stop Overflow
    else
      let buf := <[buf_used := c]> buf in
      if (kBufSize <=? S buf_used)%nat then Done (false, s', S buf_used, buf)
      else copy_word s' (S buf_used) buf
  end.

Fixpoint Parse_loop (fuel : nat) (s : list Z) (buf_used : nat) (a : args) : res (bool * args) :=
  match fuel with
  | O => Stop FuelOut
  | S fuel' =>
    let s := skip_spaces s in
    match s with
    | [] => Done (true, a)
    | _ =>
      if (kMaxNumOfArgs <=? argc_ a)%nat then Done (false, a)
      else
        let a := Args (S (argc_ a)) (<[argc_ a := buf_used]> (argv_ a)) (buf_ a) in
        do '(ok, s, buf_used, buf) <- copy_word s buf_used (buf_ a);
        let a := Args (argc_ a) (argv_ a) buf in
        if negb ok then Done (false, a)
        else if (kBufSize <=? buf_used)%nat then Stop Overflow
        else
          Parse_loop fuel' s (S buf_used)
            (Args (argc_ a) (argv_ a) (<[buf_used := 0]> (buf_ a)))
    end
  end.
(** [s] is the string before its NUL. *)
Definition Parse (s : list Z) (a : args) : res (bool * args) :=
  Parse_loop (S (length s)) s 0 (Args 0 (argv_ a) (buf_ a)).

Definition GetNumOfArgs (a : args) : nat := argc_ a.
(** The string at a pointer into [buf_]. *)
Fixpoint until_nul (l : list Z) : list Z :=
  match l with [] => [] | c :: l' => if c =? 0 then [] else c :: until_nul l' end.
Definition GetArg (index : Z) (a : args) : option (list Z) :=
  if (index <? 0) || (Z.of_nat (argc_ a) <=? index) then None
  else (fun off => until_nul (drop off (buf_ a))) <$> argv_ a !! Z.to_nat index.

(** *** Specification *)

(** The words of a line. *)
Fixpoint words_from (cur : list Z) (s : list Z) : list (list Z) :=
  match s with
  | [] => match cur with [] => [] | _ => [cur] end
  | c :: s' =>
    if c =? 32 then match cur with [] => words_from [] s' | _ => cur :: words_from [] s' end
    else words_from (cur ++ [c]) s'
  end.
Definition words (s : list Z) : list (list Z) := words_from [] s.

(** What becomes of the words, [k] of them already stored in [used] bytes. *)
Fixpoint verdict (ws : list (list Z)) (used k : nat) : res bool :=
  match ws with
  | [] => Done true
  | w :: ws' =>
    if (kMaxNumOfArgs <=? k)%nat then Done false
    else if (kBufSize <=? used)%nat then Stop Overflow
    else if (kBufSize <=? used + length w)%nat then Done false
    else verdict ws' (used + length w + 1) (S k)
  end.

Definition word_ok (w : list Z) : Prop := w <> [] /\ Forall (fun c => c <> 32 /\ c <> 0) w.

Lemma words_from_word cur w s :
  Forall (fun c => c <> 32 /\ c <> 0) w -> words_from cur (w ++ s) = words_from (cur ++ w) s.
Proof.
  revert cur. induction w as [|c w IH]; intros cur H; simpl; [by rewrite app_nil_r|].
  apply List.Forall_cons_iff in H as [[Hc _] H]. zfalse (c =? 32). rewrite IH by done.
  by rewrite <- app_assoc.
Qed.

(** After its leading spaces a line is empty, or a word and a shorter line. *)
Lemma skip_spaces_cases s :
  Forall (fun c => c <> 0) s ->
  (skip_spaces s = [] /\ words s = []) \/
  exists w rest, skip_spaces s = w ++ rest /\ word_ok w /\ words s = w :: words rest /\
    (rest = [] \/ exists r, rest = 32 :: r) /\ (length rest < length s)%nat /\
    Forall (fun c => c <> 0) rest.
Proof.
  intros Hnz. induction s as [|c s IH]; [by left|]. apply List.Forall_cons_iff in Hnz as [Hc Hnz].
  simpl. destruct (Z.eqb_spec c 32) as [->|Hne].
  - destruct (IH Hnz) as [[E1 E2]|(w & rest & E & Hw & Hws & Hr & Hl & Hf)].
    + left. split; [done|]. unfold words in *. simpl. done.
    + right. exists w, rest. split_and!; [done|done| |done|lia|done].
      unfold words in *. simpl. done.
  - right. assert (exists w rest, s = w ++ rest /\ Forall (fun c => c <> 32 /\ c <> 0) w /\
      (rest = [] \/ exists r, rest = 32 :: r) /\ Forall (fun c => c <> 0) rest) as (w & rest & -> & Hw & Hr & Hf).
    { clear IH. induction s as [|d s IH]; [exists [], []; eauto|].
      apply List.Forall_cons_iff in Hnz as [Hd Hnz]. destruct (Z.eqb_spec d 32) as [->|Hd2].
      - exists [], (32 :: s). split_and!; [done|done|eauto|by constructor].
      - destruct (IH Hnz) as (w & rest & -> & ? & ? & ?). exists (d :: w), rest.
        split_and!; [done|constructor; done|done|done]. }
    exists (c :: w), rest. split_and!; [done|split; [done|by constructor]| |done| |done].
    + unfold words. simpl. zfalse (c =? 32). rewrite words_from_word by done. simpl.
      destruct Hr as [->|[r ->]]; [done|]. simpl. done.
    + simpl. rewrite length_app. lia.
Qed.

(** The words stored so far: their bytes, their terminators and the pointers. *)
Definition stored (ws : list (list Z)) : list Z := concat (map (fun w => w ++ [0]) ws).
Record holds (ws : list (list Z)) (a : args) : Prop := Holds {
  h_argc : argc_ a = length ws;
  h_argv_len : length (argv_ a) = kMaxNumOfArgs;
  h_buf_len : length (buf_ a) = kBufSize;
  h_bytes : take (length (stored ws)) (buf_ a) = stored ws;
  h_argv : forall i, (i < length ws)%nat -> argv_ a !! i = Some (length (stored (take i ws)));
}.

Lemma copy_word_spec w rest used buf :
  Forall (fun c => c <> 32 /\ c <> 0) w -> (rest = [] \/ exists r, rest = 32 :: r) ->
  length buf = kBufSize -> (used < kBufSize)%nat -> w <> [] ->
  (used + length w < kBufSize ->
     exists buf', copy_word (w ++ rest) used buf = Done (true, rest, used + length w, buf') /\
       length buf' = kBufSize /\ take (used + length w) buf' = take used buf ++ w)%nat /\
  (kBufSize <= used + length w ->
     exists r u b, copy_word (w ++ rest) used buf = Done (false, r, u, b))%nat.
Proof.
  revert used buf. induction w as [|c w IH]; intros used buf Hw Hr Hb Hu Hne; [done|].
  apply List.Forall_cons_iff in Hw as [[Hc _] Hw]. cbn [copy_word app length]. zfalse (c =? 32).
  destruct (Nat.leb_spec kBufSize used) as [|_]; [lia|].
  destruct (Nat.leb_spec kBufSize (S used)) as [Hfull|Hroom].
  - split; [lia|]. intros _. repeat eexists.
  - set (buf1 := <[used:=c]> buf).
    assert (length buf1 = kBufSize) as Hb1 by (unfold buf1; by rewrite length_insert).
    assert (take (S used) buf1 = take used buf ++ [c]) as Ht.
    { unfold buf1. rewrite (take_S_r _ _ c) by (rewrite list_lookup_insert_eq; [done|lia]).
      by rewrite take_insert_ge by lia. }
    destruct w as [|c2 w].
    + simpl. split; [|lia]. intros _. exists buf1. split_and!; [|done|].
      * destruct Hr as [->|[r ->]]; simpl; by rewrite Nat.add_1_r.
      * by rewrite Nat.add_1_r.
    + destruct (IH (S used) buf1 Hw Hr Hb1 ltac:(lia) ltac:(done)) as [IH1 IH2]. split.
      * intros Hlt. destruct IH1 as (buf' & E & Hl & Hta); [simpl in *; lia|].
        exists buf'. rewrite E. replace (S used + length (c2 :: w))%nat with (used + S (length (c2 :: w)))%nat in * by lia.
        split_and!; [done|done|]. rewrite Hta, Ht, <- app_assoc. done.
      * intros Hge. apply IH2. simpl in *. lia.
Qed.

Lemma stored_app l1 l2 : stored (l1 ++ l2) = stored l1 ++ stored l2.
Proof. unfold stored. by rewrite map_app, concat_app. Qed.
Lemma length_stored_snoc ws w : length (stored (ws ++ [w])) = (length (stored ws) + length w + 1)%nat.
Proof. rewrite stored_app, length_app. unfold stored at 2. simpl. rewrite !length_app. simpl. lia. Qed.

(** One more word in the buffer. *)
Lemma holds_snoc ws w a buf :
  holds ws a -> (length ws < kMaxNumOfArgs)%nat -> length buf = kBufSize ->
  (length (stored ws) + length w < kBufSize)%nat ->
  take (length (stored ws) + length w) buf = stored ws ++ w ->
  holds (ws ++ [w])
    (Args (S (argc_ a)) (<[argc_ a := length (stored ws)]> (argv_ a))
       (<[(length (stored ws) + length w)%nat := 0]> buf)).
Proof.
  intros [Hc Hal Hbl Hb Hv] Hk Hl Hfit Ht. split; simpl.
  - rewrite length_app. simpl. lia.
  - by rewrite length_insert.
  - by rewrite length_insert.
  - rewrite length_stored_snoc, Nat.add_1_r.
    rewrite (take_S_r _ _ 0) by (rewrite list_lookup_insert_eq; [done|lia]).
    rewrite take_insert_ge, Ht, stored_app by lia. unfold stored at 3. simpl.
    by rewrite app_nil_r, <- app_assoc.
  - rewrite length_app. simpl. intros i Hi. destruct (decide (i = length ws)) as [->|Hne].
    + rewrite Hc, list_lookup_insert_eq by lia. by rewrite take_app_length.
    + rewrite list_lookup_insert_ne by lia. rewrite Hv by lia. by rewrite take_app_le by lia.
Qed.

Lemma Parse_loop_spec fuel s ws a :
  (length s < fuel)%nat -> Forall (fun c => c <> 0) s -> holds ws a ->
  match Parse_loop fuel s (length (stored ws)) a with
  | Done (b, a') =>
    verdict (words s) (length (stored ws)) (length ws) = Done b /\
    (b = true -> holds (ws ++ words s) a')
  | Stop e => verdict (words s) (length (stored ws)) (length ws) = Stop e
  end.
Proof.
  revert s ws a. induction fuel as [|fuel IH]; intros s ws a Hf Hnz Hh; [lia|].
  cbn [Parse_loop].
  destruct (skip_spaces_cases s Hnz) as [[-> ->]|(w & rest & -> & [Hne Hw] & -> & Hr & Hl & Hnz')].
  { simpl. by rewrite app_nil_r. }
  destruct (w ++ rest) as [|c0 l0] eqn:Ewr; [by destruct w|]. rewrite <- Ewr. clear c0 l0 Ewr.
  cbn [verdict]. rewrite (h_argc _ _ Hh). destruct (Nat.leb_spec kMaxNumOfArgs (length ws)); [done|].
  cbn [argc_ argv_ buf_].
  destruct (Nat.leb_spec kBufSize (length (stored ws))) as [Hov|Hok].
  { destruct w as [|c w]; [done|]. apply List.Forall_cons_iff in Hw as [[Hc _] _].
    cbn [copy_word app]. zfalse (c =? 32).
    by destruct (Nat.leb_spec kBufSize (length (stored ws))); [|lia]. }
  destruct (copy_word_spec w rest (length (stored ws)) (buf_ a)) as [H1 H2];
    [done|done|apply Hh|done|done|].
  destruct (Nat.leb_spec kBufSize (length (stored ws) + length w)) as [Hbig|Hfit].
  { destruct (H2 Hbig) as (r & u & b & ->). simpl. done. }
  destruct (H1 Hfit) as (buf' & -> & Hl' & Ht). cbn [rbind negb argc_ argv_ buf_].
  destruct (Nat.leb_spec kBufSize (length (stored ws) + length w)); [lia|].
  specialize (IH rest (ws ++ [w])
    (Args (S (length ws)) (<[length ws := length (stored ws)]> (argv_ a))
       (<[(length (stored ws) + length w)%nat := 0]> buf')) ltac:(lia) Hnz').
  rewrite length_stored_snoc, !Nat.add_1_r, length_app, Nat.add_1_r, <- app_assoc in IH.
  rewrite Nat.add_1_r. apply IH. rewrite <- (h_argc _ _ Hh).
  apply holds_snoc; [done|done|done|done|]. rewrite Ht. f_equal. apply Hh.
Qed.

Lemma until_nul_word w l : Forall (fun c => c <> 32 /\ c <> 0) w -> until_nul (w ++ 0 :: l) = w.
Proof.
  induction w as [|c w IH]; intros H; [done|]. apply List.Forall_cons_iff in H as [[_ Hc] H].
  simpl. zfalse (c =? 0). by rewrite IH.
Qed.

Lemma words_ok s : Forall (fun c => c <> 0) s -> Forall word_ok (words s).
Proof.
  remember (length s) as n eqn:E. revert s E. induction n as [n IH] using lt_wf_ind. intros s -> Hnz.
  destruct (skip_spaces_cases s Hnz) as [[_ ->]|(w & rest & _ & Hw & -> & _ & Hl & Hnz')]; [done|].
  constructor; [done|]. by eapply IH.
Qed.

Lemma holds_GetArg ws a i w :
  holds ws a -> Forall word_ok ws -> ws !! i = Some w -> GetArg (Z.of_nat i) a = Some w.
Proof.
  intros [Hc Hal Hbl Hb Hv] Hok Hw. pose proof (lookup_lt_Some _ _ _ Hw) as Hi.
  unfold GetArg. zfalse (Z.of_nat i <? 0). zfalse (Z.of_nat (argc_ a) <=? Z.of_nat i). cbn [orb].
  rewrite Nat2Z.id, Hv by done. simpl. f_equal.
  assert (ws = take i ws ++ w :: drop (S i) ws) as E by (symmetry; by apply take_drop_middle).
  assert (buf_ a = stored ws ++ drop (length (stored ws)) (buf_ a)) as ->.
  { rewrite <- Hb at 1. symmetry. apply take_drop. }
  rewrite E at 2. rewrite stored_app, <- app_assoc, drop_app_length. unfold stored at 1. simpl.
  rewrite <- !app_assoc. apply until_nul_word.
  rewrite List.Forall_forall in Hok. apply Hok. apply list_elem_of_In. by eapply list_elem_of_lookup_2.
Qed.

Definition wf (a : args) : Prop := length (argv_ a) = kMaxNumOfArgs /\ length (buf_ a) = kBufSize.

Lemma Parse_holds s a :
  wf a -> Forall (fun c => c <> 0) s ->
  rmap fst (Parse s a) = verdict (words s) 0 0 /\ (forall a', Parse s a = Done (true, a') -> holds (words s) a').
Proof.
  intros [Hv Hb] Hnz. unfold Parse.
  pose proof (Parse_loop_spec (S (length s)) s [] (Args 0 (argv_ a) (buf_ a)) ltac:(lia) Hnz) as H.
  specialize (H ltac:(split; simpl; (done || lia))). change (length (stored [])) with O in H.
  destruct (Parse_loop _ _ _ _) as [[b a']|e]; simpl in *; [|done].
  destruct H as [E H]. split; [done|]. intros a1 [= -> ->]. by apply H.
Qed.
Lemma holds_stored ws a : holds ws a -> (length (stored ws) <= kBufSize)%nat.
Proof. intros [_ _ Hl Hb _]. rewrite <- Hl, <- Hb, length_take. lia. Qed.

(** [Parse] splits a command line at its spaces.  Its outcome is that of
    storing the words one after the other: [true] with [GetArg] giving exactly
    the words when at most 16 of them fill at most 64 bytes with their
    terminators, [false] when the arguments do not fit, and, when the words so
    far end exactly at the end of the buffer and another one follows, a
    write one byte behind the buffer. *)
Theorem Parse_words s a :
  wf a -> Forall (fun c => c <> 0) s ->
  rmap fst (Parse s a) = verdict (words s) 0 0 /\
  (forall a', Parse s a = Done (true, a') ->
     GetNumOfArgs a' = length (words s) /\
     (forall i w, words s !! i = Some w -> GetArg (Z.of_nat i) a' = Some w) /\
     (forall i, Z.of_nat (length (words s)) <= i \/ i < 0 -> GetArg i a' = None)).
Proof.
  intros Ha Hnz. destruct (Parse_holds s a Ha Hnz) as [E H]. split; [done|]. intros a' Ep. specialize (H a' Ep).
  split_and!; [by apply H| |].
  - intros i w. apply holds_GetArg; [done|by apply words_ok].
  - intros i Hi. unfold GetArg. rewrite (h_argc _ _ H).
    by destruct (Z.ltb_spec i 0), (Z.leb_spec (Z.of_nat (length (words s))) i); try lia.
Qed.

Definition demo : args := Args 0 (replicate 16 O) (replicate 64 7).
(** A line with a word of 63 letters and one more word. *)
Definition long_line : list Z := replicate 63 97 ++ [32; 98].
Lemma Parse_words_witness :
  Parse long_line demo = Stop Overflow /\
  rmap fst (Parse [32; 97; 98; 32; 99] demo) = Done true /\
  words [32; 97; 98; 32; 99] = [[97; 98]; [99]].
Proof.
  split; [vm_compute; reflexivity|]. split; [|reflexivity].
  rewrite (proj1 (Parse_words [32; 97; 98; 32; 99] demo ltac:(split; reflexivity)
    ltac:(repeat constructor; discriminate))).
  reflexivity.
Defined.
End CommandLineArgs.

(** ** libfunc.cc: the C library functions of the kernel

    A pointer is the list of the bytes readable from it on (as [signed char]
    for the comparisons); reading behind the list is [BadPointer]. *)

Module Libfunc.
Definition s8 (b : Z) : Z := i8 b.

Fixpoint strncmp (n : nat) (s1 s2 : list Z) : res Z :=
  match n with
  | O => Done 0
  | S n' =>
    do a <- deref (head s1);
    do b <- deref (head s2);
    if negb (s8 a - s8 b =? 0) then Done (s8 a - s8 b)
    else if (a =? 0) || (b =? 0) then Done 0
    else strncmp n' (tail s1) (tail s2)
  end.
Fixpoint memcmp (n : nat) (s1 s2 : list Z) : res Z :=
  match n with
  | O => Done 0
  | S n' =>
    do a <- deref (head s1);
    do b <- deref (head s2);
    if negb (s8 a - s8 b =? 0) then Done (s8 a - s8 b)
    else memcmp n' (tail s1) (tail s2)
  end.
(** The loop has no test for the terminator. *)
Fixpoint strcmp (s1 s2 : list Z) : res Z :=
  match s1, s2 with
  | a :: s1', b :: s2' =>
    if negb (s8 a - s8 b =? 0) then Done (s8 a - s8 b) else strcmp s1' s2'
  | _, _ => Stop BadPointer
  end.
(** The destination afterwards. *)
Fixpoint memcpy (n : nat) (dst src : list Z) : res (list Z) :=
  match n with
  | O => Done dst
  | S n' =>
    do b <- deref (head src);
    do _d <- deref (head dst);
    do r <- memcpy n' (tail dst) (tail src);
    Done (b :: r)
  end.
Fixpoint bzero (n : nat) (s : list Z) : res (list Z) :=
  match n with
  | O => Done s
  | S n' =>
    do _d <- deref (head s);
    do r <- bzero n' (tail s);
    Done (0 :: r)
  end.
Fixpoint atoi_loop (v : Z) (str : list Z) : Z :=
  match str with
  | [] => v
  | c :: str' =>
    if c =? 0 then v
    else if c =? 32 then atoi_loop v str'
    else if (48 <=? c) && (c <=? 57) then atoi_loop (i32 (i32 (v * 10) + (c - 48))) str'
    else v
  end.
Definition atoi (str : list Z) : Z := atoi_loop 0 str.

Lemma s8_inj a b : is_byte a -> is_byte b -> s8 a - s8 b = 0 -> a = b.
Proof. unfold is_byte, s8, i8, swrap. change (2 ^ (8 - 1)) with 128. change (2 ^ 8) with 256. zdiv. Qed.

Lemma memcmp_zero n s1 s2 :
  (n <= length s1)%nat -> (n <= length s2)%nat -> Forall is_byte s1 -> Forall is_byte s2 ->
  exists r, memcmp n s1 s2 = Done r /\ (r = 0 <-> take n s1 = take n s2).
Proof.
  revert s1 s2. induction n as [|n IH]; intros s1 s2 H1 H2 B1 B2; [by exists 0|].
  destruct s1 as [|a s1], s2 as [|b s2]; simpl in *; try lia.
  apply List.Forall_cons_iff in B1 as [Ba B1], B2 as [Bb B2].
  destruct (Z.eqb_spec (s8 a - s8 b) 0) as [E|Hne]; simpl.
  - apply s8_inj in E as ->; [|done..]. destruct (IH s1 s2) as (r & -> & Hr); [lia|lia|done|done|].
    exists r. split; [done|]. rewrite Hr. split; [by intros ->|by intros [= ->]].
  - eexists. split; [done|]. split; [done|]. intros [= -> _]. lia.
Qed.

Lemma memcpy_spec n dst src :
  (n <= length dst)%nat -> (n <= length src)%nat -> memcpy n dst src = Done (take n src ++ drop n dst).
Proof.
  revert dst src. induction n as [|n IH]; intros dst src H1 H2; [done|].
  destruct dst as [|d dst], src as [|s src]; simpl in *; try lia. by rewrite IH by lia.
Qed.
Lemma bzero_spec n s : (n <= length s)%nat -> bzero n s = Done (replicate n 0 ++ drop n s).
Proof.
  revert s. induction n as [|n IH]; intros s H; [done|]. destruct s as [|d s]; simpl in *; [lia|].
  by rewrite IH by lia.
Qed.

Definition str_ok (s : list Z) : Prop := Forall (fun c => is_byte c /\ c <> 0) s.

Lemma strncmp_spec n s1 s2 m1 m2 :
  str_ok s1 -> str_ok s2 ->
  exists r, strncmp n (s1 ++ 0 :: m1) (s2 ++ 0 :: m2) = Done r /\ (r = 0 <-> take n s1 = take n s2).
Proof.
  revert s1 s2. induction n as [|n IH]; intros s1 s2 H1 H2; [by exists 0|].
  destruct s1 as [|a s1], s2 as [|b s2]; simpl.
  - by exists 0.
  - apply List.Forall_cons_iff in H2 as [[Hb Hb0] H2].
    destruct (Z.eqb_spec (s8 0 - s8 b) 0) as [E|Hne]; simpl.
    + exfalso. apply s8_inj in E; [|unfold is_byte; lia|done]. lia.
    + eexists. split; [done|]. split; [done|]. by intros [=].
  - apply List.Forall_cons_iff in H1 as [[Ha Ha0] H1].
    destruct (Z.eqb_spec (s8 a - s8 0) 0) as [E|Hne]; simpl.
    + exfalso. apply s8_inj in E; [|done|unfold is_byte; lia]. lia.
    + eexists. split; [done|]. split; [done|]. by intros [=].
  - apply List.Forall_cons_iff in H1 as [[Ha Ha0] H1], H2 as [[Hb Hb0] H2].
    destruct (Z.eqb_spec (s8 a - s8 b) 0) as [E|Hne]; simpl.
    + apply s8_inj in E as ->; [|done..]. zfalse (b =? 0). simpl.
      destruct (IH s1 s2) as (r & -> & Hr); [done|done|].
      exists r. split; [done|]. rewrite Hr. split; [by intros ->|by intros [= ->]].
    + eexists. split; [done|]. split; [done|]. intros [= -> _]. lia.
Qed.

Lemma strcmp_app s m1 m2 : strcmp (s ++ m1) (s ++ m2) = strcmp m1 m2.
Proof. induction s as [|a s IH]; [done|]. simpl. by rewrite Z.sub_diag. Qed.

(** The kernel's comparison functions.  [strncmp] is zero just when the
    first [n] characters agree, and reads nothing behind the terminators;
    [strcmp] has no test for the terminator: on equal strings it goes on into
    whatever lies behind them, so its result says nothing about them, and it
    runs off the end of equal memory. *)
Theorem kernel_string_compare n s1 s2 m1 m2 :
  str_ok s1 -> str_ok s2 ->
  (exists r, strncmp n (s1 ++ 0 :: m1) (s2 ++ 0 :: m2) = Done r /\ (r = 0 <-> take n s1 = take n s2)) /\
  strcmp (s1 ++ 0 :: m1) (s1 ++ 0 :: m2) = strcmp m1 m2 /\
  strcmp (s1 ++ 0 :: m1) (s1 ++ 0 :: m1) = Stop BadPointer.
Proof.
  intros H1 H2. split; [by apply strncmp_spec|].
  assert (forall m2, strcmp (s1 ++ 0 :: m1) (s1 ++ 0 :: m2) = strcmp m1 m2) as E by (intros; by rewrite strcmp_app).
  split; [apply E|]. rewrite E, <- (app_nil_r m1). apply strcmp_app.
Qed.

Lemma kernel_string_compare_witness :
  strncmp 5 [97; 98; 0; 1] [97; 98; 0; 2] = Done 0 /\
  strcmp [97; 98; 0; 1] [97; 98; 0; 2] = Done (-1).
Proof.
  split; [reflexivity|].
  apply (proj1 (proj2 (kernel_string_compare 5 [97; 98] [97; 98] [1] [2]
    ltac:(repeat constructor; unfold is_byte; lia) ltac:(repeat constructor; unfold is_byte; lia)))).
Defined.
End Libfunc.
