(* ===== verification/KernelInput.v ===== *)
(** * Keyboard input: [src/keyid.h], [src/keyboard.h], [src/keyboard.cc] and the
    line editor [src/text_box.h], [src/text_box.cc] *)

From S2P Require Import Prelude KernelBase.

(** ** keyid.h *)

Module KeyID.
Definition kMaskBreak : Z := 32768.
Definition kMaskExtended : Z := 16384.
Definition kMaskCode : Z := 255.
Definition kMaskAttr : Z := 768.
Definition kAttrShift : Z := 256.
Definition kAttrCtrl : Z := 512.
Definition kEsc : Z := Z.lor kMaskExtended 0.
Definition kF1 : Z := Z.lor kMaskExtended 1.
Definition kF2 : Z := Z.lor kMaskExtended 2.
Definition kF3 : Z := Z.lor kMaskExtended 3.
Definition kF4 : Z := Z.lor kMaskExtended 4.
Definition kF5 : Z := Z.lor kMaskExtended 5.
Definition kF6 : Z := Z.lor kMaskExtended 6.
Definition kF7 : Z := Z.lor kMaskExtended 7.
Definition kF8 : Z := Z.lor kMaskExtended 8.
Definition kF9 : Z := Z.lor kMaskExtended 9.
Definition kF10 : Z := Z.lor kMaskExtended 10.
Definition kF11 : Z := Z.lor kMaskExtended 11.
Definition kF12 : Z := Z.lor kMaskExtended 12.
Definition kNumLock : Z := Z.lor kMaskExtended 13.
Definition kScrollLock : Z := Z.lor kMaskExtended 14.
Definition kCapsLock : Z := Z.lor kMaskExtended 15.
Definition kShiftL : Z := Z.lor kMaskExtended 16.
Definition kShiftR : Z := Z.lor kMaskExtended 17.
Definition kCtrlL : Z := Z.lor kMaskExtended 18.
Definition kCtrlR : Z := Z.lor kMaskExtended 19.
Definition kAltL : Z := Z.lor kMaskExtended 20.
Definition kAltR : Z := Z.lor kMaskExtended 21.
Definition kDelete : Z := Z.lor kMaskExtended 22.
Definition kInsert : Z := Z.lor kMaskExtended 23.
Definition kPause : Z := Z.lor kMaskExtended 24.
Definition kBreak : Z := Z.lor kMaskExtended 25.
Definition kPrintScreen : Z := Z.lor kMaskExtended 26.
Definition kSysRq : Z := Z.lor kMaskExtended 27.
Definition kCursorUp : Z := Z.lor kMaskExtended 28.
Definition kCursorDown : Z := Z.lor kMaskExtended 29.
Definition kCursorLeft : Z := Z.lor kMaskExtended 30.
Definition kCursorRight : Z := Z.lor kMaskExtended 31.
Definition kPageUp : Z := Z.lor kMaskExtended 32.
Definition kPageDown : Z := Z.lor kMaskExtended 33.
Definition kHome : Z := Z.lor kMaskExtended 34.
Definition kEnd : Z := Z.lor kMaskExtended 35.
Definition kCmdL : Z := Z.lor kMaskExtended 36.
Definition kCmdR : Z := Z.lor kMaskExtended 37.
Definition kMenu : Z := Z.lor kMaskExtended 38.
Definition kKanji : Z := Z.lor kMaskExtended 39.
Definition kHiragana : Z := Z.lor kMaskExtended 40.
Definition kHenkan : Z := Z.lor kMaskExtended 41.
Definition kMuhenkan : Z := Z.lor kMaskExtended 42.
Definition kBackspace : Z := Z.lor kMaskExtended 64.
Definition kTab : Z := Z.lor kMaskExtended 65.
Definition kEnter : Z := Z.lor kMaskExtended 66.
Definition kError : Z := Z.lor kMaskExtended 126.
Definition kUnknown : Z := Z.lor kMaskExtended 127.
Definition kNoInput : Z := Z.lor kMaskExtended 255.

Definition IsWithShift (k : Z) : bool := negb (Z.land k kAttrShift =? 0).
Definition IsWithCtrl (k : Z) : bool := negb (Z.land k kAttrCtrl =? 0).
Definition IsChar (k c : Z) : bool := (Z.land k kMaskExtended =? 0) && (Z.land k kMaskCode =? c).
Definition IsBreak (k : Z) : bool := negb (Z.land k kMaskBreak =? 0).
Definition WithoutAttr (k : Z) : Z := Z.land k (Z.lnot kMaskAttr).
End KeyID.

(** ** keyboard.cc *)

Module Keyboard.
Import KeyID.
Definition KEYID_MASK_TENKEY : Z := 256.
Definition tenkey (c : Z) : Z := Z.lor KEYID_MASK_TENKEY c.

Definition kKeyCodeTable : list Z := [
  0; kEsc; 49; 50; 51; 52; 53; 54; 55; 56; 57; 48; 45; 94; kBackspace; kTab;
  81; 87; 69; 82; 84; 89; 85; 73; 79; 80; 64; 91; kEnter; kCtrlL; 65; 83;
  68; 70; 71; 72; 74; 75; 76; 59; 58; kKanji; kShiftL; 93; 90; 88; 67; 86;
  66; 78; 77; 44; 46; 47; kShiftR; tenkey 42; kAltL; 32; kCapsLock; kF1; kF2; kF3; kF4; kF5;
  kF6; kF7; kF8; kF9; kF10; kNumLock; kScrollLock; tenkey 55; tenkey 56; tenkey 57; tenkey 45; tenkey 52; tenkey 53; tenkey 54; tenkey 43; tenkey 49;
  tenkey 50; tenkey 51; tenkey 48; tenkey 46; kSysRq; 0; 0; kF11; kF12; 0; 0; 0; 0; 0; 0; 0;
  0; 0; 0; 0; 0; 0; 0; 0; 0; 0; 0; 0; 0; 0; 0; 0;
  kHiragana; 0; 0; 95; 0; 0; 0; 0; 0; kHenkan; 0; kMuhenkan; 0; 92; 0; 0].

Definition kKeyCodeTableWithShift : list Z := [
  0; 0; 33; 34; 35; 36; 37; 38; 39; 40; 41; 126; 61; 126; 0; 0;
  0; 0; 0; 0; 0; 0; 0; 0; 0; 0; 96; 123; 0; 0; 0; 0;
  0; 0; 0; 0; 0; 0; 0; 43; 42; 0; 0; 125; 0; 0; 0; 0;
  0; 0; 0; 60; 62; 63; 0; 0; 0; 0; 0; 0; 0; 0; 0; 0;
  0; 0; 0; 0; 0; 0; 0; 0; 0; 0; 0; 0; 0; 0; 0; 0;
  0; 0; 0; 0; 0; 0; 0; 0; 0; 0; 0; 0; 0; 0; 0; 0;
  0; 0; 0; 0; 0; 0; 0; 0; 0; 0; 0; 0; 0; 0; 0; 0;
  0; 0; 0; 95; 0; 0; 0; 0; 0; 0; 0; 0; 0; 124; 0; 0].

Definition kKeyScanCodeMaskBreak : Z := 128.
Definition kStateShiftL : Z := 1.
Definition kStateShiftR : Z := 2.
Definition kStateCtrlL : Z := 1.
Definition kStateCtrlR : Z := 2.

Record keyboard := Kb {
  state_shift_ : Z;
  state_ctrl_ : Z;
  keycode_buffer_ : RingBuffer.ring (T := Z);
}.

(** [Init]: the ring buffer is constructed in place, over what was there. *)
Definition Init (k : keyboard) : keyboard :=
  Kb 0 0 (RingBuffer.new (RingBuffer.elements_ (keycode_buffer_ k))).

(** The interrupt handler, given the byte read from the keyboard's port. *)
Definition IntHandlerSub (scancode : Z) (k : keyboard) : keyboard :=
  Kb (state_shift_ k) (state_ctrl_ k) (RingBuffer.Push 16 scancode (keycode_buffer_ k)).

(** Both modifiers are tracked by a switch of this shape. *)
Definition update_state (l r sl sr keyid state : Z) : Z :=
  let k := WithoutAttr keyid in
  if k =? l then Z.lor state sl
  else if k =? r then Z.lor state sr
  else if k =? Z.lor l kMaskBreak then Z.land state (u8 (Z.lnot sl))
  else if k =? Z.lor r kMaskBreak then Z.land state (u8 (Z.lnot sr))
  else state.

(** The key id, with the new [state_shift_] and [state_ctrl_]. *)
Definition ParseKeyCode (keycode shift ctrl : Z) : Z * Z * Z :=
  let is_break := negb (Z.land keycode kKeyScanCodeMaskBreak =? 0) in
  let keycode := Z.land keycode (u8 (Z.lnot kKeyScanCodeMaskBreak)) in
  let entry t := nth (Z.to_nat keycode) t 0 in
  let keyid :=
    if negb (shift =? 0) then
      if entry kKeyCodeTableWithShift =? 0 then entry kKeyCodeTable
      else entry kKeyCodeTableWithShift
    else entry kKeyCodeTable in
  if keyid =? 0 then (0, shift, ctrl)
  else
    let keyid :=
      if (65 <=? keyid) && (keyid <=? 90) && (shift =? 0) then keyid + 32 else keyid in
    let keyid := if is_break then Z.lor keyid kMaskBreak else keyid in
    let shift := update_state kShiftL kShiftR kStateShiftL kStateShiftR keyid shift in
    let keyid := if negb (shift =? 0) then Z.lor keyid kAttrShift else keyid in
    let ctrl := update_state kCtrlL kCtrlR kStateCtrlL kStateCtrlR keyid ctrl in
    let keyid := if negb (ctrl =? 0) then Z.lor keyid kAttrCtrl else keyid in
    (keyid, shift, ctrl).

Definition kb_parse (k : keyboard) (keycode : Z) : Z * keyboard :=
  let '(keyid, sh, ct) := ParseKeyCode keycode (state_shift_ k) (state_ctrl_ k) in
  (keyid, Kb sh ct (keycode_buffer_ k)).

Fixpoint ReadKeyID_loop (fuel : nat) (k : keyboard) : res (Z * keyboard) :=
  match fuel with
  | O => Stop FuelOut
  | S fuel' =>
    if RingBuffer.IsEmpty (keycode_buffer_ k) then Done (0, k)
    else
      let '(code, b) := RingBuffer.Pop 0 16 (keycode_buffer_ k) in
      let '(keyid, k) := kb_parse (Kb (state_shift_ k) (state_ctrl_ k) b) code in
      if keyid =? 0 then ReadKeyID_loop fuel' k else Done (keyid, k)
  end.
(** The buffer holds at most 15 codes. *)
Definition ReadKeyID (k : keyboard) : res (Z * keyboard) := ReadKeyID_loop 16 k.

(** *** The modifier state machine *)

(** The states after a sequence of scan codes. *)
Definition run_codes (codes : list Z) (st : Z * Z) : Z * Z :=
  foldl (fun '(sh, ct) c => let '(_, sh, ct) := ParseKeyCode c sh ct in (sh, ct)) st codes.

(** A key is held when its last event was its make code. *)
Definition held (make : Z) (codes : list Z) (b : bool) : bool :=
  foldl (fun b c => if c =? make then true else if c =? make + 128 then false else b) b codes.

(** Scan codes of the keys that change the state, and of the numeric pad. *)
Definition sc_shift_l : Z := 42.
Definition sc_shift_r : Z := 54.
Definition sc_ctrl_l : Z := 29.
Definition is_tenkey (code : Z) : bool :=
  existsb (Z.eqb (Z.land code 127)) [55; 71; 72; 73; 74; 75; 76; 77; 78; 79; 80; 81; 82; 83].

Definition held1 (make c : Z) (b : bool) : bool :=
  if c =? make then true else if c =? make + 128 then false else b.
Definition b2z (b : bool) : Z := if b then 1 else 0.
(** The states as two booleans for shift and one for control. *)
Definition enc (l r c : bool) : Z * Z := (b2z l + 2 * b2z r, b2z c).

(** What the table look-ups must satisfy on one code in one state. *)
Definition code_ok (code : Z) (l r c : bool) : bool :=
  let '(keyid, sh, ct) := ParseKeyCode code (enc l r c).1 (enc l r c).2 in
  bool_decide ((sh, ct) = enc (held1 sc_shift_l code l) (held1 sc_shift_r code r) (held1 sc_ctrl_l code c)) &&
  ((keyid =? 0) ||
   (Bool.eqb (KeyID.IsBreak keyid) (128 <=? code) &&
    Bool.eqb (KeyID.IsWithCtrl keyid) (negb (ct =? 0)) &&
    Bool.eqb (KeyID.IsWithShift keyid) (negb (sh =? 0) || is_tenkey code))) &&
  (0 <=? keyid) && (keyid <? 65536).

Lemma code_ok_all code l r c : is_byte code -> code_ok code l r c = true.
Proof.
  intros Hb. assert (forallb (fun code => forallb (fun l => forallb (fun r => forallb (fun c =>
    code_ok code l r c) [true; false]) [true; false]) [true; false]) (map Z.of_nat (seq 0 256)) = true) as H
    by (vm_compute; reflexivity).
  rewrite forallb_forall in H. specialize (H code). rewrite !forallb_forall in H.
  assert (In code (map Z.of_nat (seq 0 256))) as Hin.
  { apply in_map_iff. exists (Z.to_nat code). unfold is_byte in Hb. split; [lia|]. apply in_seq. lia. }
  specialize (H Hin l ltac:(destruct l; simpl; tauto)). rewrite !forallb_forall in H.
  specialize (H r ltac:(destruct r; simpl; tauto)). rewrite !forallb_forall in H.
  by specialize (H c ltac:(destruct c; simpl; tauto)).
Qed.

Lemma run_codes_held codes l r c :
  Forall is_byte codes ->
  run_codes codes (enc l r c) =
  enc (held sc_shift_l codes l) (held sc_shift_r codes r) (held sc_ctrl_l codes c).
Proof.
  revert l r c. induction codes as [|code codes IH]; intros l r c H; [done|].
  apply List.Forall_cons_iff in H as [Hc H]. unfold run_codes, held in *. cbn [foldl].
  pose proof (code_ok_all code l r c Hc) as Ho. unfold code_ok in Ho.
  destruct (enc l r c) as [sh0 ct0] eqn:E0. cbn [fst snd] in Ho.
  destruct (ParseKeyCode code sh0 ct0) as [[keyid sh] ct]. rewrite !andb_true_iff in Ho.
  destruct Ho as [[[Ho _] _] _]. apply bool_decide_eq_true in Ho. rewrite Ho. apply (IH _ _ _ H).
Qed.

(** After any sequence of scan codes the shift and control states say which
    of these keys are held (whose last event was a press, not a release), and a
    key id read then carries the release bit of its code, the control bit when
    control is held, and the shift bit when shift is held or, since
    [KEYID_MASK_TENKEY] is the same bit as [kAttrShift], for every key of the
    numeric pad. *)
Theorem keyboard_modifiers codes code :
  Forall is_byte codes -> is_byte code ->
  let '(sh, ct) := run_codes codes (0, 0) in
  let '(keyid, sh', ct') := ParseKeyCode code sh ct in
  (sh, ct) = enc (held sc_shift_l codes false) (held sc_shift_r codes false) (held sc_ctrl_l codes false) /\
  (keyid <> 0 ->
   KeyID.IsBreak keyid = (128 <=? code) /\
   KeyID.IsWithCtrl keyid = negb (ct' =? 0) /\
   KeyID.IsWithShift keyid = negb (sh' =? 0) || is_tenkey code) /\
  0 <= keyid < 65536.
Proof.
  intros Hcs Hc. pose proof (run_codes_held codes false false false Hcs) as E.
  change (enc false false false) with (0, 0) in E. rewrite E.
  set (l := held sc_shift_l codes false). set (r := held sc_shift_r codes false).
  set (c := held sc_ctrl_l codes false).
  pose proof (code_ok_all code l r c Hc) as H. unfold code_ok in H.
  destruct (enc l r c) as [sh ct] eqn:E1. cbn [fst snd] in H.
  destruct (ParseKeyCode code sh ct) as [[keyid sh'] ct'].
  rewrite !andb_true_iff, Z.leb_le, Z.ltb_lt in H. destruct H as [[[_ H] H1] H2].
  split; [done|]. split; [|lia]. intros Hk.
  rewrite orb_true_iff, Z.eqb_eq, !andb_true_iff, !eqb_true_iff in H. tauto.
Qed.

Lemma keyboard_modifiers_witness :
  run_codes [42; 30; 158] (0, 0) = (1, 0) /\ ParseKeyCode 71 0 0 = (311, 0, 0) /\
  KeyID.IsWithShift 311 = true.
Proof.
  split; [reflexivity|]. split; [reflexivity|].
  pose proof (keyboard_modifiers [] 71 ltac:(constructor) ltac:(unfold is_byte; lia)) as H.
  vm_compute run_codes in H. cbv beta iota in H.
  change (ParseKeyCode 71 0 0) with (311, 0, 0) in H. apply H. discriminate.
Defined.
End Keyboard.

(** ** text_box.h, text_box.cc *)

Module TextBox.
Definition kSizeOfBuffer : nat := 128.
(** [tb_out] is what [PutChar] received. *)
Record textbox := Tb { buf_ : list Z; buf_used_ : nat; is_recording_enabled_ : bool; tb_out : list Z }.

Definition PutChar (c : Z) (t : textbox) : textbox :=
  Tb (buf_ t) (buf_used_ t) (is_recording_enabled_ t) (tb_out t ++ [c]).
Definition StartRecording (t : textbox) : textbox := Tb (<[O := 0]> (buf_ t)) 0 true (tb_out t).
Definition StopRecording (t : textbox) : textbox := Tb (buf_ t) (buf_used_ t) false (tb_out t).
Fixpoint until_nul (l : list Z) : list Z :=
  match l with [] => [] | c :: l' => if c =? 0 then [] else c :: until_nul l' end.
Definition GetRecordedString (t : textbox) : list Z := until_nul (buf_ t).

Definition putc (keyid : Z) (t : textbox) : textbox :=
  if negb (Z.land keyid KeyID.kMaskBreak =? 0) then t
  else if keyid =? KeyID.kBackspace then
    if is_recording_enabled_ t then
      match buf_used_ t with
      | O => t
      | S u => PutChar 8 (Tb (<[u := 0]> (buf_ t)) u true (tb_out t))
      end
    else PutChar 8 t
  else if negb (Z.land keyid KeyID.kMaskExtended =? 0) then t
  else if is_recording_enabled_ t then
    if (kSizeOfBuffer <=? buf_used_ t)%nat then t
    else
      let u := buf_used_ t in
      PutChar keyid (Tb (<[S u := 0]> (<[u := u8 keyid]> (buf_ t))) (S u) true (tb_out t))
  else PutChar keyid t.

(** *** Specification: the line being edited *)
Definition is_backspace (k : Z) : bool := k =? KeyID.kBackspace.
Definition is_plain (k : Z) : bool :=
  (Z.land k KeyID.kMaskBreak =? 0) && (Z.land k KeyID.kMaskExtended =? 0).
Definition edit (line : list Z) (k : Z) : list Z :=
  if is_backspace k then take (length line - 1) line
  else if is_plain k then if (length line <? kSizeOfBuffer)%nat then line ++ [u8 k] else line
  else line.

Record recording (line : list Z) (t : textbox) : Prop := Recording {
  rec_on : is_recording_enabled_ t = true;
  rec_len : length (buf_ t) = S kSizeOfBuffer;
  rec_used : buf_used_ t = length line;
  rec_fit : (length line <= kSizeOfBuffer)%nat;
  rec_buf : take (S (length line)) (buf_ t) = line ++ [0];
}.

Lemma until_nul_line line l : Forall (fun c => c <> 0) line -> until_nul (line ++ 0 :: l) = line.
Proof.
  induction line as [|c line IH]; intros H; [done|]. apply List.Forall_cons_iff in H as [Hc H].
  simpl. zfalse (c =? 0). by rewrite IH.
Qed.

Lemma recording_string line t :
  recording line t -> Forall (fun c => c <> 0) line -> GetRecordedString t = line.
Proof.
  intros [_ Hl _ _ Hb] Hz. unfold GetRecordedString.
  rewrite <- (take_drop (S (length line)) (buf_ t)), Hb, <- app_assoc. by apply until_nul_line.
Qed.

Lemma putc_edit line t k : recording line t -> recording (edit line k) (putc k t).
Proof.
  intros Hr. destruct Hr as [Hon Hl Hu Hf Hb]. unfold putc, edit, is_plain, is_backspace.
  rewrite Hon, Hu. destruct (Z.eqb_spec k KeyID.kBackspace) as [->|_].
  - change (Z.land KeyID.kBackspace KeyID.kMaskBreak =? 0) with true. cbn [negb].
    destruct line as [|c line _] using rev_ind; [by split|].
    rewrite length_app, Nat.add_1_r in *. cbn [length Nat.sub]. rewrite Nat.sub_0_r, take_app_length.
    split; simpl; [done|by rewrite length_insert|done|lia|].
    rewrite (take_S_r _ _ 0) by (rewrite list_lookup_insert_eq; [done|unfold kSizeOfBuffer in *; lia]).
    f_equal. rewrite take_insert_ge by lia.
    apply (f_equal (take (length line))) in Hb. rewrite take_take, Nat.min_l in Hb by lia.
    rewrite Hb, <- app_assoc. apply take_app_length.
  - destruct (Z.land k KeyID.kMaskBreak =? 0); cbn [negb andb]; [|by split].
    destruct (Z.land k KeyID.kMaskExtended =? 0); cbn [negb]; [|by split].
    destruct (Nat.leb_spec kSizeOfBuffer (length line)); destruct (Nat.ltb_spec (length line) kSizeOfBuffer);
      try lia; [by split|].
    split; simpl; [done|by rewrite !length_insert|rewrite length_app; simpl; lia|rewrite length_app; simpl; lia|].
    rewrite length_app, Nat.add_1_r.
    rewrite (take_S_r _ _ 0) by (rewrite list_lookup_insert_eq; [done|rewrite length_insert; lia]).
    f_equal. rewrite take_insert_ge by lia.
    rewrite (take_S_r _ _ (u8 k)) by (rewrite list_lookup_insert_eq; [done|lia]).
    f_equal. rewrite take_insert_ge by lia.
    apply (f_equal (take (length line))) in Hb. rewrite take_take, Nat.min_l in Hb by lia.
    by rewrite Hb, take_app_length.
Qed.

Lemma putc_all keys line t :
  recording line t -> recording (foldl edit line keys) (foldl (fun t k => putc k t) t keys).
Proof. revert line t. induction keys as [|k keys IH]; intros line t H; [done|]. by apply IH, putc_edit. Qed.

Lemma StartRecording_ok t : length (buf_ t) = S kSizeOfBuffer -> recording [] (StartRecording t).
Proof. intros Hl. destruct t as [b u r o]. simpl in *. destruct b as [|c b]; [done|]. split; simpl in *; (done || lia). Qed.

(** Between [StartRecording] and the end of a line, whatever keys come, the
    recorded string is the line they edit: plain characters are appended until
    128 are there, a backspace removes the last one, key releases and other
    special keys change nothing, and the string is always terminated inside the
    buffer. *)
Theorem textbox_records keys t :
  length (buf_ t) = S kSizeOfBuffer ->
  let t' := foldl (fun t k => putc k t) (StartRecording t) keys in
  recording (foldl edit [] keys) t' /\
  (Forall (fun c => c <> 0) (foldl edit [] keys) -> GetRecordedString t' = foldl edit [] keys).
Proof.
  intros Hl t'. assert (recording (foldl edit [] keys) t') as H.
  { by apply putc_all, StartRecording_ok. }
  split; [done|]. by apply recording_string.
Qed.

Lemma textbox_records_witness :
  GetRecordedString (foldl (fun t k => putc k t) (StartRecording (Tb (replicate 129 7) 5 false []))
    [104; 105; 33; KeyID.kBackspace; 32768 + 105; KeyID.kF1]) = [104; 105].
Proof.
  apply (textbox_records [104; 105; 33; KeyID.kBackspace; 32768 + 105; KeyID.kF1]); [reflexivity|].
  vm_compute. repeat constructor; discriminate.
Defined.
End TextBox.
