(* ===== verification/PhysPages.v ===== *)
(** * The physical page allocator ([src/phys_page_allocator.h], [.cc])

    Free regions of physical memory form a linked list whose headers
    ([FreeInfo]) live in the first bytes of the regions themselves.  A region
    is handed out from its end; its first page, which holds the header, stays.
    The list stores physical addresses; a strategy says how a physical address
    is turned into a pointer: the loader uses physical addresses directly, the
    kernel adds the base of its straight mapping. *)

From S2P Require Import Prelude.
From Stdlib Require Import Permutation.

(** ** The strategies *)

Class TStrategy := {
  GetFreeInfoFromPhysAddr : Z -> Z;
  GetPhysAddrFromFreeInfo : Z -> Z;
}.
(** What the allocator needs of a strategy: on the addresses [valid] says,
    pointers lead back to the addresses they were made from. *)
Class StrategyLaws `{TStrategy} := {
  valid : Z -> Prop;
  valid_0 : valid 0;
  phys_of_info p : valid p -> GetPhysAddrFromFreeInfo (GetFreeInfoFromPhysAddr p) = p;
  info_nonzero p : valid p -> p <> 0 -> GetFreeInfoFromPhysAddr p <> 0;
}.

#[local] Instance UsePhysicalAddressInternallyStrategy : TStrategy := {
  GetFreeInfoFromPhysAddr paddr := paddr;
  GetPhysAddrFromFreeInfo free_info := free_info;
}.

Definition UseKernelStraightMappingInternallyStrategy (base : Z) : TStrategy := {|
  GetFreeInfoFromPhysAddr paddr := u64 (paddr + base);
  GetPhysAddrFromFreeInfo free_info := if free_info =? 0 then 0 else u64 (free_info - base);
|}.

#[local] Instance physical_laws : @StrategyLaws UsePhysicalAddressInternallyStrategy.
Proof. refine {| valid p := True |}; done. Defined.

Definition straight_laws base : 0 < base < 2 ^ 64 ->
  @StrategyLaws (UseKernelStraightMappingInternallyStrategy base).
Proof.
  intros Hb. refine {| valid p := 0 <= p < 2 ^ 64 - base |}; simpl.
  - lia.
  - intros p Hp. rewrite u64_small by lia. zfalse (p + base =? 0). rewrite u64_small by lia. lia.
  - intros p Hp _. rewrite u64_small by lia. lia.
Defined.

(** ** The allocator *)

Record FreeInfo := Info { num_of_pages_ : Z; next_phys_addr_ : Z; proximity_domain_ : Z }.

(** The headers in memory, by pointer, and [head_phys_addr_]. *)
Record allocator := Allocator { headers : gmap Z FreeInfo; head_phys_addr_ : Z }.

Section Allocator.
Context `{TStrategy}.

(** The constructor, over any memory. *)
Definition PhysicalPageAllocator (mem : gmap Z FreeInfo) : allocator := Allocator mem 0.

Definition new_FreeInfo (num_of_pages next proximity_domain : Z) : FreeInfo :=
  Info num_of_pages (GetPhysAddrFromFreeInfo next) proximity_domain.
Definition GetNext (i : FreeInfo) : Z := GetFreeInfoFromPhysAddr (next_phys_addr_ i).
Definition CanProvidePages (num_of_req_pages : Z) (i : FreeInfo) : bool :=
  num_of_req_pages <? num_of_pages_ i.
(** The address, or 0, and the header afterwards; [this] is the pointer. *)
Definition ProvidePages (this num_of_req_pages : Z) (i : FreeInfo) : Z * FreeInfo :=
  if negb (CanProvidePages num_of_req_pages i) then (0, i)
  else
    let n := u64 (num_of_pages_ i - num_of_req_pages) in
    (u64 (GetPhysAddrFromFreeInfo this + u64 (Z.shiftl n 12)),
     Info n (next_phys_addr_ i) (proximity_domain_ i)).

Definition FreePagesWithProximityDomain (phys_addr num_of_pages prox_domain : Z) (a : allocator)
  : res allocator :=
  run kassert (0 <? num_of_pages);
  run kassert (Z.land phys_addr 4095 =? 0);
  let info := GetFreeInfoFromPhysAddr phys_addr in
  let fi := new_FreeInfo num_of_pages (GetFreeInfoFromPhysAddr (head_phys_addr_ a)) prox_domain in
  Done (Allocator (<[info := fi]> (headers a)) (GetPhysAddrFromFreeInfo info)).

(** The [while] loop of both allocation functions; [ok] is the test the second
    one makes of the proximity domain. *)
Fixpoint alloc_loop (fuel : nat) (ok : FreeInfo -> bool) (num_of_pages info : Z)
  (hs : gmap Z FreeInfo) : res (Z * gmap Z FreeInfo) :=
  if info =? 0 then Stop Panic
  else
    match fuel with
    | O => Stop FuelOut
    | S fuel' =>
      do fi <- deref (hs !! info);
      if ok fi then
        let '(addr, fi') := ProvidePages info num_of_pages fi in
        let hs := <[info := fi']> hs in
        if negb (addr =? 0) then Done (addr, hs)
        else alloc_loop fuel' ok num_of_pages (GetNext fi') hs
      else alloc_loop fuel' ok num_of_pages (GetNext fi) hs
    end.
Definition AllocPages (fuel : nat) (num_of_pages : Z) (a : allocator) : res (Z * allocator) :=
  do '(addr, hs) <- alloc_loop fuel (fun _ => true) num_of_pages
                      (GetFreeInfoFromPhysAddr (head_phys_addr_ a)) (headers a);
  Done (addr, Allocator hs (head_phys_addr_ a)).
Definition AllocPagesInProximityDomain (fuel : nat) (num_of_pages proximity_domain : Z) (a : allocator)
  : res (Z * allocator) :=
  do '(addr, hs) <- alloc_loop fuel (fun fi => proximity_domain_ fi =? proximity_domain) num_of_pages
                      (GetFreeInfoFromPhysAddr (head_phys_addr_ a)) (headers a);
  Done (addr, Allocator hs (head_phys_addr_ a)).
End Allocator.

(** ** Regions *)

(** A block of memory: its address and its number of pages. *)
Definition block : Type := Z * Z.
Definition disj (x y : block) : Prop :=
  x.1 + 4096 * x.2 <= y.1 \/ y.1 + 4096 * y.2 <= x.1.
Fixpoint pairwise_disj (l : list block) : Prop :=
  match l with [] => True | x :: l' => Forall (disj x) l' /\ pairwise_disj l' end.

Lemma disj_sym x y : disj x y -> disj y x.
Proof. unfold disj. tauto. Qed.
#[global] Instance pairwise_disj_perm : Proper (Permutation ==> iff) pairwise_disj.
Proof.
  intros l1 l2 HP. induction HP as [|x l l' HP IH|x y l|l1 l2 l3 _ IH1 _ IH2]; simpl.
  - done.
  - rewrite IH. split; intros [Hf ?]; split; try done;
      (eapply Permutation_Forall; [|exact Hf]); [done|by apply Permutation_sym].
  - rewrite !List.Forall_cons_iff. split; intros [[? ?] [? ?]]; split_and!; auto using disj_sym.
  - by rewrite IH1.
Qed.

(** A region of the free list: address, pages, proximity domain. *)
Record region := Region { r_addr : Z; r_pages : Z; r_domain : Z }.
Definition block_of (r : region) : block := (r_addr r, r_pages r).
Definition region_ok (r : region) : Prop :=
  0 < r_addr r /\ r_addr r mod 4096 = 0 /\ 0 < r_pages r /\ r_addr r + 4096 * r_pages r < 2 ^ 64.

Section Laws.
Context {ST : TStrategy} {SL : StrategyLaws}.

(** The headers in memory, from the physical address [p] on, are the list. *)
Fixpoint chain (hs : gmap Z FreeInfo) (p : Z) (l : list region) : Prop :=
  match l with
  | [] => p = 0
  | r :: l' =>
    p = r_addr r /\ valid p /\ region_ok r /\
    exists nx, hs !! GetFreeInfoFromPhysAddr p = Some (Info (r_pages r) nx (r_domain r)) /\ chain hs nx l'
  end.

Lemma info_inj p q : valid p -> valid q ->
  GetFreeInfoFromPhysAddr p = GetFreeInfoFromPhysAddr q -> p = q.
Proof. intros Hp Hq E. rewrite <- (phys_of_info p Hp), E. by apply phys_of_info. Qed.

(** A header outside the list can change. *)
Lemma chain_frame hs p l q fi :
  chain hs p l -> valid q -> Forall (fun r => r_addr r <> q) l ->
  chain (<[GetFreeInfoFromPhysAddr q := fi]> hs) p l.
Proof.
  revert p. induction l as [|r l IH]; intros p Hc Hq Hf; [done|]. simpl in *.
  destruct Hc as (-> & Hv & Hok & nx & Hl & Hc). apply List.Forall_cons_iff in Hf as [Hne Hf].
  split_and!; [done|done|done|]. exists nx. split; [|by apply IH].
  rewrite lookup_insert_ne; [done|]. intros E. by apply info_inj in E.
Qed.

Definition provide (n : Z) (r : region) : region := Region (r_addr r) (r_pages r - n) (r_domain r).
Definition taken (n : Z) (r : region) : block := (r_addr r + 4096 * (r_pages r - n), n).

Lemma provide_ok n r : region_ok r -> 0 <= n < r_pages r -> region_ok (provide n r).
Proof. unfold region_ok. simpl. lia. Qed.

Lemma ProvidePages_spec n r nx :
  region_ok r -> valid (r_addr r) -> 0 <= n ->
  ProvidePages (GetFreeInfoFromPhysAddr (r_addr r)) n (Info (r_pages r) nx (r_domain r)) =
  if n <? r_pages r then ((taken n r).1, Info (r_pages (provide n r)) nx (r_domain r))
  else (0, Info (r_pages r) nx (r_domain r)).
Proof.
  intros (Ha & Hal & Hp & Htop) Hv Hn. unfold ProvidePages, CanProvidePages. simpl.
  destruct (Z.ltb_spec n (r_pages r)); simpl; [|done].
  rewrite phys_of_info, (u64_small (r_pages r - n)), shiftl_mul by (done || lia).
  change (2 ^ 12) with 4096. rewrite (u64_small ((r_pages r - n) * 4096)), u64_small by lia.
  f_equal. lia.
Qed.

(** The first region of the list that can serve the request. *)
Definition serves (ok : Z -> bool) (n : Z) (r : region) : bool := ok (r_domain r) && (n <? r_pages r).

(** The header after [n] pages were taken. *)
Definition shrink (n : Z) (r : region) (hs : gmap Z FreeInfo) : gmap Z FreeInfo :=
  alter (fun fi => Info (r_pages r - n) (next_phys_addr_ fi) (proximity_domain_ fi))
    (GetFreeInfoFromPhysAddr (r_addr r)) hs.

Lemma alter_insert_lookup (hs : gmap Z FreeInfo) k f fi fi' :
  hs !! k = Some fi -> f fi = fi' -> alter f k hs = <[k := fi']> hs.
Proof.
  intros Hl Hf. apply map_eq. intros j. destruct (decide (j = k)) as [->|Hne].
  - by rewrite lookup_alter_eq, lookup_insert_eq, Hl, <- Hf.
  - by rewrite lookup_alter_ne, lookup_insert_ne.
Qed.

Lemma NoDup_addr_ne r l : NoDup (map r_addr (r :: l)) -> Forall (fun r' => r_addr r' <> r_addr r) l.
Proof.
  intros [Hnin _]%list.NoDup_cons. apply List.Forall_forall. intros r' Hin E. apply Hnin.
  rewrite <- E. apply list_elem_of_In, in_map, Hin.
Qed.

Lemma chain_valid hs p l : chain hs p l -> Forall (fun r => valid (r_addr r)) l.
Proof.
  revert p. induction l as [|r l IH]; intros p Hc; [done|]. destruct Hc as (-> & ? & _ & nx & _ & ?).
  constructor; eauto.
Qed.

Lemma chain_frame_alter hs p l q f :
  chain hs p l -> valid q -> Forall (fun r => r_addr r <> q) l ->
  chain (alter f (GetFreeInfoFromPhysAddr q) hs) p l.
Proof.
  revert p. induction l as [|r l IH]; intros p Hc Hq Hf; [done|]. simpl in *.
  destruct Hc as (-> & Hv & Hok & nx & Hl & Hc). apply List.Forall_cons_iff in Hf as [Hne Hf].
  split_and!; [done|done|done|]. exists nx. split; [|by apply IH].
  rewrite lookup_alter_ne; [done|]. intros E. by apply info_inj in E.
Qed.

Lemma chain_shrink hs p l1 r l2 n :
  chain hs p (l1 ++ r :: l2) -> NoDup (map r_addr (l1 ++ r :: l2)) -> 0 <= n < r_pages r ->
  chain (shrink n r hs) p (l1 ++ provide n r :: l2).
Proof.
  intros Hc Hnd Hn. revert p Hc Hnd. induction l1 as [|r1 l1 IH]; intros p Hc Hnd.
  - destruct Hc as (-> & Hv & Hok & nx & Hl & Hc). split_and!; [done|done|by apply provide_ok|].
    exists nx. unfold shrink. rewrite lookup_alter_eq, Hl. split; [done|].
    apply chain_frame_alter; [done|done|by apply NoDup_addr_ne].
  - destruct Hc as (-> & Hv & Hok & nx & Hl & Hc). pose proof (NoDup_addr_ne _ _ Hnd) as Hne.
    apply list.NoDup_cons in Hnd as [_ Hnd]. split_and!; [done|done|done|].
    exists nx. split; [|by apply IH]. unfold shrink. rewrite lookup_alter_ne; [done|].
    apply List.Forall_app in Hne as [_ Hne]. apply List.Forall_cons_iff in Hne as [Hne _].
    apply chain_valid, List.Forall_app in Hc as [_ Hc]. apply List.Forall_cons_iff in Hc as [Hvr _].
    intros E. by apply info_inj in E.
Qed.

(** One iteration at a region of the list. *)
Lemma alloc_loop_region fuel ok n hs r nx :
  0 <= n -> valid (r_addr r) -> region_ok r ->
  hs !! GetFreeInfoFromPhysAddr (r_addr r) = Some (Info (r_pages r) nx (r_domain r)) ->
  alloc_loop (S fuel) (fun fi => ok (proximity_domain_ fi)) n (GetFreeInfoFromPhysAddr (r_addr r)) hs =
  if serves ok n r then Done ((taken n r).1, shrink n r hs)
  else alloc_loop fuel (fun fi => ok (proximity_domain_ fi)) n (GetFreeInfoFromPhysAddr nx) hs.
Proof.
  intros Hn Hv Hok Hl. cbn [alloc_loop].
  destruct (Z.eqb_spec (GetFreeInfoFromPhysAddr (r_addr r)) 0) as [E|_].
  { exfalso. apply (info_nonzero _ Hv); [destruct Hok; lia|done]. }
  rewrite Hl. cbn [deref rbind proximity_domain_ next_phys_addr_]. unfold serves.
  destruct (ok (r_domain r)); cbn [andb]; [|done]. rewrite ProvidePages_spec by done.
  destruct (Z.ltb_spec n (r_pages r)) as [Hlt|Hge].
  - assert (((taken n r).1 =? 0) = false) as ->.
    { destruct Hok as (? & ? & ? & ?). unfold taken. simpl. lia. }
    cbn [negb]. do 2 f_equal. unfold shrink. symmetry. by eapply alter_insert_lookup.
  - cbn [negb]. rewrite Z.eqb_refl. cbn [negb]. by rewrite insert_id.
Qed.

Lemma alloc_loop_spec fuel ok n hs p l :
  0 <= n -> chain hs p l -> (length l < fuel)%nat ->
  let loop f q := alloc_loop f (fun fi => ok (proximity_domain_ fi)) n (GetFreeInfoFromPhysAddr q) hs in
  (exists l1 r l2, l = l1 ++ r :: l2 /\ serves ok n r = true /\
     loop fuel p = Done ((taken n r).1, shrink n r hs)) \/
  (Forall (fun r => serves ok n r = false) l /\ exists fuel', loop fuel p = loop (S fuel') 0).
Proof.
  intros Hn Hc Hf loop. revert fuel p Hc Hf. induction l as [|r l IH]; intros fuel p Hc Hf.
  { right. simpl in Hc. subst p. split; [done|]. destruct fuel as [|fuel]; [simpl in Hf; lia|].
    by exists fuel. }
  destruct fuel as [|fuel]; [simpl in Hf; lia|]. destruct Hc as (-> & Hv & Hok & nx & Hl & Hc).
  assert (loop (S fuel) (r_addr r) =
    if serves ok n r then Done ((taken n r).1, shrink n r hs) else loop fuel nx) as ->
    by (by apply alloc_loop_region).
  destruct (serves ok n r) eqn:Es.
  - left. by exists [], r, l.
  - destruct (IH fuel nx Hc ltac:(simpl in Hf; lia)) as [(l1 & r' & l2 & -> & Hs & E)|(Hno & fuel' & E)].
    + left. by exists (r :: l1), r', l2.
    + right. split; [by constructor|]. by exists fuel'.
Qed.

(** ** The allocator and its clients

    [free] is the free list, [held] the blocks that were handed out; page 0 of
    physical memory is never given to the allocator. *)
Record state_ok (a : allocator) (free : list region) (held : list block) : Prop := StateOk {
  st_chain : chain (headers a) (head_phys_addr_ a) free;
  st_disj : pairwise_disj (map block_of free ++ held);
  st_zero : headers a !! GetFreeInfoFromPhysAddr 0 = None;
}.

Lemma disj_addr_ne r r' : region_ok r -> region_ok r' -> disj (block_of r) (block_of r') -> r_addr r' <> r_addr r.
Proof. unfold region_ok, disj. simpl. lia. Qed.

Lemma chain_ok hs p l : chain hs p l -> Forall region_ok l.
Proof.
  revert p. induction l as [|r l IH]; intros p Hc; [done|]. destruct Hc as (-> & _ & ? & nx & _ & ?).
  constructor; eauto.
Qed.

Lemma pairwise_disj_app_l l1 l2 : pairwise_disj (l1 ++ l2) -> pairwise_disj l1.
Proof.
  induction l1 as [|x l1 IH]; [done|]. simpl. intros [Hf Hp]. apply List.Forall_app in Hf as [Hf _].
  split; [done|by apply IH].
Qed.

Lemma disj_NoDup l : Forall region_ok l -> pairwise_disj (map block_of l) -> NoDup (map r_addr l).
Proof.
  induction l as [|r l IH]; intros Hok Hd; [constructor|]. apply List.Forall_cons_iff in Hok as [Hr Hok].
  destruct Hd as [Hf Hd]. constructor; [|by apply IH].
  intros (r' & E & Hin)%list_elem_of_In%in_map_iff. rewrite List.Forall_forall in Hf, Hok.
  apply (disj_addr_ne r r'); [done|by apply Hok|apply Hf, in_map, Hin|done].
Qed.

(** Cutting a block in two keeps everything disjoint. *)
Lemma pairwise_disj_split l1 r l2 held n :
  0 <= n <= r_pages r ->
  pairwise_disj (map block_of (l1 ++ r :: l2) ++ held) ->
  pairwise_disj (map block_of (l1 ++ provide n r :: l2) ++ taken n r :: held).
Proof.
  intros Hn H. set (rest := map block_of l1 ++ map block_of l2 ++ held).
  assert (forall r' h, map block_of (l1 ++ r' :: l2) ++ h ++ held ≡ₚ block_of r' :: h ++ rest) as HP.
  { intros r' h. unfold rest. rewrite map_app. simpl. rewrite <- app_assoc. simpl.
    rewrite <- Permutation_middle. constructor. rewrite !app_assoc. apply Permutation_app_tail.
    rewrite <- (app_assoc h). apply Permutation_app_comm. }
  assert (pairwise_disj (block_of r :: rest)) as [Hf Hp] by (by apply (pairwise_disj_perm _ _ (HP r []))).
  apply (pairwise_disj_perm _ _ (HP (provide n r) [taken n r])).
  simpl. split_and!; [|eapply List.Forall_impl; [|exact Hf]|done].
  - constructor; [unfold disj; simpl; lia|]. eapply List.Forall_impl; [|exact Hf].
    intros [b m]. unfold disj. simpl. lia.
  - intros [b m]. unfold disj. simpl. lia.
Qed.

(** *** Operations as steps *)

Inductive op := OpAlloc (n : Z) | OpAllocIn (n d : Z) | OpFree (b : block) (d : Z).
(** Which regions an operation may use. *)
Definition op_domain (o : op) : Z -> bool :=
  match o with OpAllocIn _ d => Z.eqb d | _ => fun _ => true end.

(** One operation of a client that frees only blocks it holds, each with at
    least one page and at an address the strategy can translate. *)
Inductive step (fuel : nat) : allocator * list block -> op -> allocator * list block -> Prop :=
| step_alloc a held n addr a' :
  0 <= n -> AllocPages fuel n a = Done (addr, a') ->
  step fuel (a, held) (OpAlloc n) (a', (addr, n) :: held)
| step_alloc_in a held n d addr a' :
  0 <= n -> AllocPagesInProximityDomain fuel n d a = Done (addr, a') ->
  step fuel (a, held) (OpAllocIn n d) (a', (addr, n) :: held)
| step_free a h1 h2 p n d a' :
  valid p -> region_ok (Region p n d) ->
  FreePagesWithProximityDomain p n d a = Done a' ->
  step fuel (a, h1 ++ (p, n) :: h2) (OpFree (p, n) d) (a', h1 ++ h2).

Lemma alloc_keeps fuel ok n a free held :
  state_ok a free held -> 0 <= n -> (length free < fuel)%nat ->
  let out := alloc_loop fuel (fun fi => ok (proximity_domain_ fi)) n
               (GetFreeInfoFromPhysAddr (head_phys_addr_ a)) (headers a) in
  (exists l1 r l2 hs, free = l1 ++ r :: l2 /\ serves ok n r = true /\ out = Done ((taken n r).1, hs) /\
     state_ok (Allocator hs (head_phys_addr_ a)) (l1 ++ provide n r :: l2) (taken n r :: held)) \/
  (Forall (fun r => serves ok n r = false) free /\
     out = Stop (if GetFreeInfoFromPhysAddr 0 =? 0 then Panic else BadPointer)).
Proof.
  intros [Hc Hd Hz] Hn Hf out.
  destruct (alloc_loop_spec fuel ok n _ _ _ Hn Hc Hf) as [(l1 & r & l2 & -> & Hs & E)|[Hno [fuel' E]]]; [left|right].
  2:{ split; [done|]. unfold out. rewrite E. cbn [alloc_loop]. rewrite Hz.
      by destruct (GetFreeInfoFromPhysAddr 0 =? 0). }
  exists l1, r, l2, (shrink n r (headers a)). split; [done|]. split; [done|]. split; [done|].
  apply andb_true_iff in Hs as [_ Hs%Z.ltb_lt]. split.
  - apply chain_shrink; [done| |lia]. apply disj_NoDup; [by eapply chain_ok|].
    by eapply pairwise_disj_app_l.
  - apply pairwise_disj_split; [lia|done].
  - simpl. unfold shrink. rewrite lookup_alter_ne; [done|]. intros E0.
    pose proof (chain_valid _ _ _ Hc) as Hv. pose proof (chain_ok _ _ _ Hc) as Ho.
    apply List.Forall_app in Hv as [_ Hv], Ho as [_ Ho].
    apply List.Forall_cons_iff in Hv as [Hv _], Ho as [[Ho _] _].
    apply info_inj in E0; [lia|done|apply valid_0].
Qed.

Lemma free_keeps a free h1 h2 p n d a' :
  valid p -> region_ok (Region p n d) -> valid (head_phys_addr_ a) ->
  FreePagesWithProximityDomain p n d a = Done a' ->
  state_ok a free (h1 ++ (p, n) :: h2) -> state_ok a' (Region p n d :: free) (h1 ++ h2).
Proof.
  intros Hv Hok Hvh H [Hc Hd Hz]. unfold FreePagesWithProximityDomain in H. rinv.
  assert (pairwise_disj ((p, n) :: map block_of free ++ h1 ++ h2)) as Hd'.
  { eapply (pairwise_disj_perm _ _); [|exact Hd]. rewrite <- Permutation_middle.
    by rewrite app_assoc, <- Permutation_middle, <- app_assoc. }
  split; simpl.
  - rewrite phys_of_info by done. split_and!; [done|done|done|]. eexists.
    rewrite lookup_insert_eq. unfold new_FreeInfo. rewrite phys_of_info by done. split; [done|].
    apply chain_frame; [done|done|]. apply List.Forall_forall. intros r Hin.
    apply (disj_addr_ne (Region p n d)); [done| |].
    + apply chain_ok in Hc. rewrite List.Forall_forall in Hc. by apply Hc.
    + destruct Hd' as [Hf _]. rewrite List.Forall_forall in Hf. apply Hf, in_or_app. left. by apply in_map.
  - done.
  - rewrite lookup_insert_ne; [done|]. intros E0. apply info_inj in E0; [|done|apply valid_0].
    destruct Hok as [Hok _]. simpl in Hok. lia.
Qed.

Inductive steps (fuel : nat) : allocator * list block -> list op -> allocator * list block -> Prop :=
| steps_nil c : steps fuel c [] c
| steps_cons c o c' os c'' : step fuel c o c' -> steps fuel c' os c'' -> steps fuel c (o :: os) c''.

Lemma chain_head_valid hs p l : chain hs p l -> valid p.
Proof. destruct l; simpl; [intros ->; apply valid_0|tauto]. Qed.

Lemma step_keeps fuel a held o a' held' free :
  step fuel (a, held) o (a', held') -> state_ok a free held -> (length free < fuel)%nat ->
  exists free', state_ok a' free' held' /\ (length free' <= S (length free))%nat.
Proof.
  intros Hs Hok Hf. inversion Hs as [x1 x2 n addr x3 Hn E|x1 x2 n d addr x3 Hn E|x1 h1 h2 q n d x2 Hv Hr E]; subst; clear Hs.
  - unfold AllocPages in E. apply rbind_Done in E as ([addr' hs] & E & Ed). injection Ed as <- <-.
    destruct (alloc_keeps fuel (fun _ => true) n a free held Hok Hn Hf)
      as [(l1 & r & l2 & hs' & -> & _ & E' & Hok')|[_ E']].
    + rewrite E in E'. injection E' as -> ->. eexists. split; [exact Hok'|]. rewrite !length_app. simpl. lia.
    + rewrite E in E'. discriminate E'.
  - unfold AllocPagesInProximityDomain in E. apply rbind_Done in E as ([addr' hs] & E & Ed).
    injection Ed as <- <-.
    destruct (alloc_keeps fuel (fun d' => d' =? d) n a free held Hok Hn Hf)
      as [(l1 & r & l2 & hs' & -> & _ & E' & Hok')|[_ E']].
    + rewrite E in E'. injection E' as -> ->. eexists. split; [exact Hok'|]. rewrite !length_app. simpl. lia.
    + rewrite E in E'. discriminate E'.
  - eexists. split; [eapply (free_keeps a free h1 h2); [done|done| |done|done]|done].
    eapply chain_head_valid, st_chain, Hok.
Qed.

Lemma steps_keep fuel c os c' free :
  steps fuel c os c' -> state_ok c.1 free c.2 -> (length free + length os < fuel)%nat ->
  exists free', state_ok c'.1 free' c'.2.
Proof.
  intros Hs. revert free. induction Hs as [c|[a held] o [a1 held1] os c2 H1 _ IH]; intros free Hok Hf; [eauto|].
  destruct (step_keeps _ _ _ _ _ _ _ H1 Hok) as (free' & Hok' & Hl); [simpl in Hf; lia|].
  apply (IH free'); [done|simpl in Hf; lia].
Qed.

Lemma alloc_outcome fuel n a free held :
  state_ok a free held -> 0 <= n -> (length free < fuel)%nat ->
  (exists r, In r free /\ n < r_pages r /\
     exists a', AllocPages fuel n a = Done (r_addr r + 4096 * (r_pages r - n), a')) \/
  (Forall (fun r => r_pages r <= n) free /\
   AllocPages fuel n a = Stop (if GetFreeInfoFromPhysAddr 0 =? 0 then Panic else BadPointer)).
Proof.
  intros Hok Hn Hf. unfold AllocPages.
  destruct (alloc_keeps fuel (fun _ => true) n a free held Hok Hn Hf)
    as [(l1 & r & l2 & hs & -> & Hs & E & _)|[Hno E]]; rewrite E; [left|right].
  - exists r. split; [apply in_or_app; right; by left|]. unfold serves in Hs. simpl in Hs.
    split; [lia|]. simpl. eauto.
  - split; [|done]. eapply List.Forall_impl; [|exact Hno]. unfold serves. simpl. lia.
Qed.
End Laws.

(** C21: no double allocation.  Whatever allocations (also by proximity domain)
    and releases of held blocks are made, the blocks that are held and the
    regions of the free list, header pages included, stay pairwise disjoint,
    under both address strategies. *)
Theorem page_allocator_disjoint base fuel a held os a' held' free :
  0 < base < 2 ^ 64 ->
  ((@steps UsePhysicalAddressInternallyStrategy physical_laws fuel (a, held) os (a', held') ->
    @state_ok _ physical_laws a free held -> (length free + length os < fuel)%nat ->
    exists free', @state_ok _ physical_laws a' free' held') /\
   (forall Hb, @steps (UseKernelStraightMappingInternallyStrategy base) (straight_laws base Hb)
      fuel (a, held) os (a', held') ->
    @state_ok _ (straight_laws base Hb) a free held -> (length free + length os < fuel)%nat ->
    exists free', @state_ok _ (straight_laws base Hb) a' free' held')).
Proof.
  intros Hb. split; [|intros Hb']; intros Hs Hok Hf;
    destruct (steps_keep fuel (a, held) os (a', held') free Hs Hok Hf) as [free' H]; eauto.
Qed.

(** An allocation takes the last pages of a region with more pages than
    asked for, so a header page is never handed out.  When there is none the
    loader's allocator panics; the kernel's does not: its null pointer test
    never fires, since address 0 is mapped at the base of the straight mapping,
    and it reads a header from there. *)
Theorem page_allocator_exhausted base (Hb : 0 < base < 2 ^ 64) fuel n a free held :
  0 <= n -> (length free < fuel)%nat ->
  (@state_ok _ physical_laws a free held ->
   (exists r, In r free /\ n < r_pages r /\
      exists a', @AllocPages UsePhysicalAddressInternallyStrategy fuel n a
                 = Done (r_addr r + 4096 * (r_pages r - n), a')) \/
   (Forall (fun r => r_pages r <= n) free /\
    @AllocPages UsePhysicalAddressInternallyStrategy fuel n a = Stop Panic)) /\
  (@state_ok _ (straight_laws base Hb) a free held -> Forall (fun r => r_pages r <= n) free ->
   @AllocPages (UseKernelStraightMappingInternallyStrategy base) fuel n a = Stop BadPointer).
Proof.
  intros Hn Hf. split.
  - intros Hok. exact (alloc_outcome fuel n a free held Hok Hn Hf).
  - intros Hok Hsmall. destruct (alloc_outcome fuel n a free held Hok Hn Hf) as [(r & Hin & Hlt & _)|[_ E]].
    + rewrite List.Forall_forall in Hsmall. specialize (Hsmall r Hin). lia.
    + rewrite E. simpl. rewrite u64_small by lia. by zfalse (0 + base =? 0).
Qed.

(** Two regions of the loader's memory. *)
Definition demo_alloc : allocator :=
  Allocator (<[4096 := Info 3 65536 0]> (<[65536 := Info 8 0 1]> ∅)) 4096.
Definition demo_free : list region := [Region 4096 3 0; Region 65536 8 1].
Lemma demo_state_ok : @state_ok _ physical_laws demo_alloc demo_free [].
Proof.
  split; [|repeat constructor; unfold disj; simpl; lia|reflexivity].
  do 2 (split; [done|split; [done|split; [repeat split; reflexivity|eexists; split; [reflexivity|]]]]).
  done.
Qed.

Definition demo_alloc2 : allocator :=
  Allocator (<[4096 := Info 3 65536 0]> (<[65536 := Info 3 0 1]> ∅)) 4096.
Lemma page_allocator_disjoint_witness :
  @AllocPages UsePhysicalAddressInternallyStrategy 9 5 demo_alloc = Done (77824, demo_alloc2) /\
  exists free', @state_ok _ physical_laws demo_alloc2 free' [(77824, 5)].
Proof.
  split; [vm_compute; reflexivity|].
  eapply (page_allocator_disjoint 1 9 demo_alloc [] [OpAlloc 5] demo_alloc2 [(77824, 5)] demo_free ltac:(lia));
    [|apply demo_state_ok|simpl; lia].
  econstructor; [|constructor]. apply step_alloc; [lia|]. vm_compute. reflexivity.
Defined.

Lemma page_allocator_exhausted_witness :
  @AllocPages UsePhysicalAddressInternallyStrategy 9 8 demo_alloc = Stop Panic.
Proof.
  destruct (proj1 (page_allocator_exhausted 1 ltac:(lia) 9 8 demo_alloc demo_free [] ltac:(lia) ltac:(simpl; lia))
    demo_state_ok) as [(r & Hin & Hlt & _)|[_ E]]; [|exact E].
  exfalso. destruct Hin as [<-|[<-|[]]]; simpl in Hlt; lia.
Defined.
