(* ===== verification/Paging.v ===== *)
(** * Four-level page tables ([src/paging.h], [src/paging.cc])

    A table is a page of 512 entries of 64 bits; the memory that holds tables
    is a map from the physical address of a table to its entries.  The tables
    of the four levels are one template in the source, instantiated with four
    strategies that say whether an entry may be a page, a table, or either. *)

From S2P Require Import Prelude KernelBase PhysPages.
Import Generic.

(** ** Constants and alignment *)

Definition kAddrCannotTranslate : Z := 0x8000000000000000.
Definition kPageAttrMask : Z := 31.
Definition kPageAttrPresent : Z := 1.
Definition kPageAttrWritable : Z := 2.
Definition kPageAttrUser : Z := 4.
Definition kPageAttrWriteThrough : Z := 8.
Definition kPageAttrCacheDisable : Z := 16.
Definition kPageAttrMemMappedIO : Z :=
  Z.lor (Z.lor kPageAttrCacheDisable kPageAttrPresent) kPageAttrWritable.

(** [~v] on [uint64_t]. *)
Definition not64 (v : Z) : Z := u64 (Z.lnot v).
Definition CeilToPageAlignment (v : Z) : Z := Z.land (u64 (u64 (v + kPageSize) - 1)) (not64 kPageAddrMask).
Definition FloorToPageAlignment (v : Z) : Z := Z.land v (not64 kPageAddrMask).
Definition IsAlignedToPageSize (v : Z) : bool := Z.land v kPageAddrMask =? 0.
(** [static_cast<int64_t>(addr) >= 0] *)
Definition AssertAddressIsInLowerHalf (addr : Z) : res unit := kassert (0 <=? i64 addr).

(** ** Entries *)

(** The four instances of [PageTableEntryStruct]. *)
Inductive EntryKind := PTE | PDE | PDPTE | PML4E.
Definition kIndexShift (k : EntryKind) : Z :=
  match k with PTE => 12 | PDE => 21 | PDPTE => 30 | PML4E => 39 end.
Definition is_page_allowed (k : EntryKind) : bool := match k with PML4E => false | _ => true end.
Definition is_table_allowed (k : EntryKind) : bool := match k with PTE => false | _ => true end.
Definition next_kind (k : EntryKind) : EntryKind :=
  match k with PML4E => PDPTE | PDPTE => PDE | _ => PTE end.
Definition kOffsetMask (k : EntryKind) : Z := Z.shiftl 1 (kIndexShift k) - 1.
Definition kNumOfEntries : nat := 512.
Definition kIndexMask : Z := 511.
Definition addr2index (k : EntryKind) (addr : Z) : Z :=
  Z.land (Z.shiftr addr (kIndexShift k)) kIndexMask.

(** The tables in memory, by physical address. *)
Abbreviation tables := (gmap Z (list Z)).

Section Paging.
(** [GetPhysAddrMask()]: the physical address bits of this processor. *)
Context (phys_addr_mask : Z).

Definition IsPresent (data : Z) : bool := negb (Z.land data kPageAttrPresent =? 0).
Definition IsPage (k : EntryKind) (data : Z) : bool :=
  if is_page_allowed k && is_table_allowed k then negb (Z.land data 128 =? 0) else is_page_allowed k.
(** 0 is the null pointer. *)
Definition GetTableAddr (k : EntryKind) (data : Z) : Z :=
  if IsPage k data then 0 else Z.land (Z.land data phys_addr_mask) (not64 kPageAddrMask).
Definition GetTableAddrWithOffset (k : EntryKind) (data offset : Z) : Z :=
  if GetTableAddr k data =? 0 then 0 else u64 (GetTableAddr k data + offset).
Definition SetAttrAsPage (k : EntryKind) (data : Z) : Z :=
  if is_page_allowed k && is_table_allowed k then Z.lor data 128 else data.
Definition SetAttrAsTable (k : EntryKind) (data : Z) : Z :=
  if is_page_allowed k && is_table_allowed k then Z.land data (not64 128) else data.
Definition SetTableAddr (k : EntryKind) (table attr : Z) : res Z :=
  let addr_mask := Z.land phys_addr_mask (not64 kPageAddrMask) in
  run kassert (Z.land table (not64 addr_mask) =? 0);
  Done (SetAttrAsTable k (Z.lor table attr)).
Definition GetPageBaseAddr (k : EntryKind) (data : Z) : Z :=
  Z.land data (Z.land phys_addr_mask (not64 (kOffsetMask k))).
Definition SetPageBaseAddr (k : EntryKind) (paddr attr data : Z) : res Z :=
  run kassert (Z.land paddr (kOffsetMask k) =? 0);
  let addr_mask := Z.land phys_addr_mask (not64 (kOffsetMask k)) in
  let data := Z.land data (not64 (Z.lor addr_mask kPageAttrMask)) in
  let data := Z.lor data (Z.lor (Z.land paddr addr_mask) attr) in
  Done (SetAttrAsPage k data).
Definition SetAttr (attr data : Z) : Z :=
  Z.lor (Z.land data (not64 kPageAttrMask)) (Z.land kPageAttrMask attr).
Definition IsDirty (data : Z) : bool := negb (Z.land data 64 =? 0).
Definition ClearDirtyBit (data : Z) : Z := Z.land data (not64 64).

(** ** Tables *)

Definition read_entry (m : tables) (t : Z) (k : EntryKind) (vaddr : Z) : res Z :=
  do es <- deref (m !! t); deref (es !! Z.to_nat (addr2index k vaddr)).
Definition write_entry (m : tables) (t : Z) (k : EntryKind) (vaddr data : Z) : res tables :=
  do es <- deref (m !! t);
  Done (<[t := <[Z.to_nat (addr2index k vaddr) := data]> es]> m).
(** [ClearMapping] on the page at [t]. *)
Definition ClearMapping (t : Z) (m : tables) : tables := <[t := replicate kNumOfEntries 0]> m.

Definition GetTableBaseForAddr (m : tables) (t : Z) (k : EntryKind) (vaddr : Z) : res Z :=
  do e <- read_entry m t k vaddr; Done (GetTableAddr k e).
(** The previous table, and the memory. *)
Definition SetTableBaseForAddr (m : tables) (t : Z) (k : EntryKind) (addr new_ent attr : Z)
  : res (Z * tables) :=
  do e <- read_entry m t k addr;
  let old_e := GetTableAddr k e in
  do e <- SetTableAddr k new_ent attr;
  do m <- write_entry m t k addr e;
  Done (old_e, m).
Definition SetPageBaseForAddr (m : tables) (t : Z) (k : EntryKind) (vaddr paddr attr : Z) : res tables :=
  do e <- read_entry m t k vaddr;
  do e <- SetPageBaseAddr k paddr attr e;
  write_entry m t k vaddr e.

(** The walk from a table of kind [k]; [depth] bounds the levels. *)
Fixpoint v2p_from (depth : nat) (m : tables) (t : Z) (k : EntryKind) (vaddr : Z) : res Z :=
  do e <- read_entry m t k vaddr;
  if negb (IsPresent e) then Done kAddrCannotTranslate
  else if IsPage k e then Done (Z.lor (GetPageBaseAddr k e) (Z.land vaddr (kOffsetMask k)))
  else
    match depth with
    | O => Done kAddrCannotTranslate
    | S depth' => v2p_from depth' m (GetTableAddr k e) (next_kind k) vaddr
    end.
Definition v2p (m : tables) (pml4 vaddr : Z) : res Z := v2p_from 3 m pml4 PML4E vaddr.
(** The same through the straight mapping: tables are read at [offset] behind
    their physical address. *)
Fixpoint v2pWithOffset_from (depth : nat) (m : tables) (t : Z) (k : EntryKind) (vaddr offset : Z) : res Z :=
  do e <- read_entry m t k vaddr;
  if negb (IsPresent e) then Done kAddrCannotTranslate
  else if IsPage k e then Done (Z.lor (GetPageBaseAddr k e) (Z.land vaddr (kOffsetMask k)))
  else
    match depth with
    | O => Done kAddrCannotTranslate
    | S depth' => v2pWithOffset_from depth' m (GetTableAddrWithOffset k e offset) (next_kind k) vaddr offset
    end.

Definition SetKernelPageEntries (m : tables) (kernel_pml4 pml4 : Z) : res tables :=
  do src <- deref (m !! kernel_pml4);
  do dst <- deref (m !! pml4);
  Done (<[pml4 := take 256 dst ++ drop 256 src]> m).

(** ** Creating mappings *)

Section Alloc.
(** [TAllocator], the operation [AllocPages<T*>(1)] of it. *)
Context {A : Type} (AllocPage : A -> res (Z * A)).

Record mapping := Mapping {
  m_tables : tables;
  m_alloc : A;
  m_vaddr : Z;
  m_paddr : Z;
  m_pages : Z;
}.
Definition with_tables (c : mapping) (m : tables) : mapping :=
  Mapping m (m_alloc c) (m_vaddr c) (m_paddr c) (m_pages c).

Definition AllocPageTable (m : tables) (a : A) : res (Z * tables * A) :=
  do '(t, a) <- AllocPage a;
  run kassert (negb (t =? 0));
  Done (t, ClearMapping t m, a).

(** [if (!e.IsPresent()) { allocate a table; e.SetTableAddr(...) }] *)
Definition ensure_table (t : Z) (k : EntryKind) (attr : Z) (c : mapping) : res mapping :=
  do e <- read_entry (m_tables c) t k (m_vaddr c);
  if IsPresent e then Done c
  else
    do '(nt, a) <- AllocPage (m_alloc c);
    let m := ClearMapping nt (m_tables c) in
    do e <- SetTableAddr k nt attr;
    do m <- write_entry m t k (m_vaddr c) e;
    Done (Mapping m a (m_vaddr c) (m_paddr c) (m_pages c)).
Definition set_attr (t : Z) (k : EntryKind) (attr : Z) (c : mapping) : res mapping :=
  do e <- read_entry (m_tables c) t k (m_vaddr c);
  do m <- write_entry (m_tables c) t k (m_vaddr c) (SetAttr attr e);
  Done (with_tables c m).
Definition set_page (t : Z) (k : EntryKind) (attr : Z) (c : mapping) : res mapping :=
  do m <- SetPageBaseForAddr (m_tables c) t k (m_vaddr c) (m_paddr c) attr;
  Done (with_tables c m).
(** [vaddr += size; paddr += size; num_of_4k_pages -= pages] *)
Definition advance (size pages : Z) (c : mapping) : mapping :=
  Mapping (m_tables c) (m_alloc c) (u64 (m_vaddr c + size)) (u64 (m_paddr c + size)) (m_pages c - pages).

(** [k] iterations are left before the index reaches 512. *)
Fixpoint pt_loop (k : nat) (pt attr : Z) (c : mapping) : res mapping :=
  match k with
  | O => Done c
  | S k' =>
    if m_pages c =? 0 then Done c
    else do c <- set_page pt PTE attr c; pt_loop k' pt attr (advance (Z.shiftl 1 12) 1 c)
  end.
(** [kNumOfEntries - addr2index(vaddr)] *)
Definition iterations (k : EntryKind) (vaddr : Z) : nat :=
  Z.to_nat (Z.of_nat kNumOfEntries - addr2index k vaddr).

Definition pdt_body (pdt attr : Z) (c : mapping) : res mapping :=
  do e <- read_entry (m_tables c) pdt PDE (m_vaddr c);
  if negb (IsPresent e) && (512 <=? m_pages c) && (Z.land (m_vaddr c) (kOffsetMask PDE) =? 0) &&
     (Z.land (m_paddr c) (kOffsetMask PDE) =? 0) then
    do c <- set_page pdt PDE attr c; Done (advance (Z.shiftl 1 21) 512 c)
  else
    do c <- ensure_table pdt PDE attr c;
    do c <- set_attr pdt PDE attr c;
    do e <- read_entry (m_tables c) pdt PDE (m_vaddr c);
    if IsPage PDE e then Stop Panic
    else pt_loop (iterations PTE (m_vaddr c)) (GetTableAddr PDE e) attr c.
Fixpoint pdt_loop (k : nat) (pdt attr : Z) (c : mapping) : res mapping :=
  match k with
  | O => Done c
  | S k' =>
    if m_pages c =? 0 then Done c
    else do c <- pdt_body pdt attr c; pdt_loop k' pdt attr c
  end.
Definition pdpt_body (pdpt attr : Z) (c : mapping) : res mapping :=
  do c <- ensure_table pdpt PDPTE attr c;
  do c <- set_attr pdpt PDPTE attr c;
  do e <- read_entry (m_tables c) pdpt PDPTE (m_vaddr c);
  if IsPage PDPTE e then Stop Panic
  else pdt_loop (iterations PDE (m_vaddr c)) (GetTableAddr PDPTE e) attr c.
Fixpoint pdpt_loop (k : nat) (pdpt attr : Z) (c : mapping) : res mapping :=
  match k with
  | O => Done c
  | S k' =>
    if m_pages c =? 0 then Done c
    else do c <- pdpt_body pdpt attr c; pdpt_loop k' pdpt attr c
  end.
Definition pml4_body (pml4 attr : Z) (c : mapping) : res mapping :=
  do c <- ensure_table pml4 PML4E attr c;
  do c <- set_attr pml4 PML4E attr c;
  do e <- read_entry (m_tables c) pml4 PML4E (m_vaddr c);
  pdpt_loop (iterations PDPTE (m_vaddr c)) (GetTableAddr PML4E e) attr c.
(** This loop does not look at the number of pages left. *)
Fixpoint pml4_loop (k : nat) (pml4 attr : Z) (c : mapping) : res mapping :=
  match k with
  | O => Done c
  | S k' => do c <- pml4_body pml4 attr c; pml4_loop k' pml4 attr c
  end.

Definition CreatePageMapping (m : tables) (a : A) (pml4 vaddr paddr byte_size attr : Z)
  : res (tables * A) :=
  run kassert (Z.land vaddr kPageAddrMask =? 0);
  run kassert (Z.land paddr kPageAddrMask =? 0);
  let num_of_4k_pages := ByteSizeToPageSize byte_size in
  do c <- pml4_loop (iterations PML4E vaddr) pml4 attr (Mapping m a vaddr paddr num_of_4k_pages);
  Done (m_tables c, m_alloc c).
End Alloc.

(** ** Flushing dirty pages *)

(** The physical addresses of the pages flushed, and the tables with their dirty
    bits cleared; [k] iterations are left. *)
Record flushing := Flushing { f_tables : tables; f_vaddr : Z; f_pages : Z; f_log : list Z }.

Fixpoint flush_pt (k : nat) (pt : Z) (c : flushing) : res flushing :=
  match k with
  | O => Done c
  | S k' =>
    if f_pages c =? 0 then Done c
    else
      do e <- read_entry (f_tables c) pt PTE (f_vaddr c);
      do '(m, log) <-
        (if IsDirty e then
           do m <- write_entry (f_tables c) pt PTE (f_vaddr c) (ClearDirtyBit e);
           Done (m, f_log c ++ [GetPageBaseAddr PTE e])
         else Done (f_tables c, f_log c));
      flush_pt k' pt (Flushing m (u64 (f_vaddr c + 4096)) (f_pages c - 1) log)
  end.
(** The test each level makes of its entry, and the table it leads to. *)
Definition flush_down (t : Z) (k : EntryKind) (c : flushing) : res Z :=
  do e <- read_entry (f_tables c) t k (f_vaddr c);
  if negb (IsPresent e) then Stop Panic
  else if IsPage k e then Stop Panic
  else Done (GetTableAddr k e).
Fixpoint flush_pdt (k : nat) (pdt : Z) (c : flushing) : res flushing :=
  match k with
  | O => Done c
  | S k' =>
    if f_pages c =? 0 then Done c
    else
      do pt <- flush_down pdt PDE c;
      do c <- flush_pt (iterations PTE (f_vaddr c)) pt c;
      flush_pdt k' pdt c
  end.
Fixpoint flush_pdpt (k : nat) (pdpt : Z) (c : flushing) : res flushing :=
  match k with
  | O => Done c
  | S k' =>
    if f_pages c =? 0 then Done c
    else
      do pdt <- flush_down pdpt PDPTE c;
      do c <- flush_pdt (iterations PDE (f_vaddr c)) pdt c;
      flush_pdpt k' pdpt c
  end.
Fixpoint flush_pml4 (k : nat) (pml4 : Z) (c : flushing) : res flushing :=
  match k with
  | O => Done c
  | S k' =>
    do pdpt <- flush_down pml4 PML4E c;
    do c <- flush_pdpt (iterations PDPTE (f_vaddr c)) pdpt c;
    flush_pml4 k' pml4 c
  end.
Definition FlushDirtyPages (m : tables) (pml4 vaddr byte_size : Z) : res (tables * list Z) :=
  run kassert (Z.land vaddr kPageAddrMask =? 0);
  do c <- flush_pml4 (iterations PML4E vaddr) pml4
            (Flushing m vaddr (ByteSizeToPageSize byte_size) []);
  Done (f_tables c, f_log c).
End Paging.
