(* ===== verification/PagingProofs.v ===== *)
(** * Page mappings are correct

    The proof that [CreatePageMapping] maps exactly the range it is asked to,
    and changes the translation of no other address. *)

From S2P Require Import Prelude KernelBase PhysPages Paging.
Import Generic.

(** ** Bits of entries *)

Lemma testbit_land_pow2 e i : 0 <= i -> negb (Z.land e (2 ^ i) =? 0) = Z.testbit e i.
Proof.
  intros Hi. destruct (Z.testbit e i) eqn:E.
  - destruct (Z.eqb_spec (Z.land e (2 ^ i)) 0) as [H|]; [|done]. exfalso.
    apply (f_equal (fun v => Z.testbit v i)) in H.
    rewrite Z.land_spec, E, Z.pow2_bits_true, Z.bits_0 in H by lia. done.
  - replace (Z.land e (2 ^ i)) with 0; [done|]. symmetry. apply Z.bits_inj'. intros j Hj.
    rewrite Z.land_spec, Z.bits_0, Z.pow2_bits_eqb by lia.
    destruct (Z.eqb_spec i j) as [<-|]; [by rewrite E|by rewrite andb_false_r].
Qed.
Lemma IsPresent_bit e : IsPresent e = Z.testbit e 0.
Proof. apply (testbit_land_pow2 e 0). lia. Qed.
Lemma testbit_128 e : negb (Z.land e 128 =? 0) = Z.testbit e 7.
Proof. apply (testbit_land_pow2 e 7). lia. Qed.

Lemma testbit_mask n i : 0 <= n -> 0 <= i -> Z.testbit (2 ^ n - 1) i = (i <? n).
Proof.
  intros Hn Hi. replace (2 ^ n - 1) with (Z.ones n) by (rewrite Z.ones_equiv; lia).
  by rewrite Z.testbit_ones_nonneg.
Qed.
Lemma testbit_not64 v i : 0 <= i -> Z.testbit (not64 v) i = (i <? 64) && negb (Z.testbit v i).
Proof.
  intros Hi. unfold not64, u64. destruct (Z.ltb_spec i 64); cbn [andb].
  - rewrite Z.mod_pow2_bits_low, Z.lnot_spec by lia. done.
  - rewrite Z.mod_pow2_bits_high by lia. done.
Qed.
Lemma kOffsetMask_pow k : kOffsetMask k = 2 ^ kIndexShift k - 1.
Proof. unfold kOffsetMask. by rewrite Z.shiftl_1_l. Qed.
Lemma testbit_bounded v n i : 0 <= v < 2 ^ n -> 0 <= n <= i -> Z.testbit v i = false.
Proof.
  intros Hv Hi. destruct (Z.eq_dec v 0) as [->|]; [apply Z.bits_0|].
  apply Z.bits_above_log2; [lia|]. assert (Z.log2 v < n) by (apply Z.log2_lt_pow2; lia). lia.
Qed.
Lemma testbit_aligned v n i : 0 <= n -> v mod 2 ^ n = 0 -> i < n -> Z.testbit v i = false.
Proof.
  intros Hn Hv Hi. destruct (Z.lt_ge_cases i 0); [by apply Z.testbit_neg_r|].
  rewrite <- (Z.mod_pow2_bits_low v n i) by lia. by rewrite Hv, Z.bits_0.
Qed.
Lemma land_mask_mod v n : 0 <= n -> (Z.land v (2 ^ n - 1) =? 0) = (v mod 2 ^ n =? 0).
Proof. intros. by rewrite land_ones_mod. Qed.

Lemma shift_range k : 12 <= kIndexShift k <= 39.
Proof. destruct k; simpl; lia. Qed.

Section Entries.
Context (w : Z) (Hw : 39 <= w <= 52).
Abbreviation mask := (2 ^ w - 1).

Lemma table_mask_bit i : 0 <= i ->
  Z.testbit (Z.land mask (not64 kPageAddrMask)) i = (12 <=? i) && (i <? w).
Proof.
  intros Hi. rewrite Z.land_spec, testbit_not64, testbit_mask by lia.
  change kPageAddrMask with (2 ^ 12 - 1). rewrite testbit_mask by lia. zcmps; (done || lia).
Qed.
Lemma page_mask_bit k i : 0 <= i ->
  Z.testbit (Z.land mask (not64 (kOffsetMask k))) i = (kIndexShift k <=? i) && (i <? w).
Proof.
  intros Hi. pose proof (shift_range k). rewrite Z.land_spec, testbit_not64, testbit_mask by lia.
  rewrite kOffsetMask_pow, testbit_mask by lia. zcmps; (done || lia).
Qed.

(** A table address an entry can hold. *)
Definition table_addr (t : Z) : Prop := 0 < t < 2 ^ w /\ t mod 4096 = 0.
Lemma table_addr_bit t i : table_addr t -> 0 <= i -> i < 12 \/ w <= i -> Z.testbit t i = false.
Proof.
  intros [Hr Ha] Hi [H|H]; [|apply (testbit_bounded t w); lia].
  apply (testbit_aligned t 12); [lia|done|lia].
Qed.

(** Attributes that make an entry present. *)
Definition attr_ok (attr : Z) : Prop := 0 <= attr < 32 /\ Z.testbit attr 0 = true.
Lemma attr_bit attr i : attr_ok attr -> 5 <= i -> Z.testbit attr i = false.
Proof. intros [Hr _] Hi. apply (testbit_bounded attr 5); lia. Qed.

Lemma SetTableAddr_spec k t attr :
  k <> PTE -> table_addr t -> attr_ok attr ->
  exists e, SetTableAddr mask k t attr = Done e /\
    IsPresent e = true /\ IsPage k e = false /\ GetTableAddr mask k e = t.
Proof.
  intros Hk Ht Ha. unfold SetTableAddr.
  assert (Z.land t (not64 (Z.land mask (not64 kPageAddrMask))) = 0) as ->.
  { apply Z.bits_inj'. intros i Hi. rewrite Z.land_spec, testbit_not64, table_mask_bit, Z.bits_0 by lia.
    destruct (Z.lt_ge_cases i 12); [rewrite (table_addr_bit t) by (done || lia); done|].
    destruct (Z.lt_ge_cases i w); [|rewrite (table_addr_bit t) by (done || lia); done].
    zcmps. by rewrite andb_false_r. }
  simpl. assert (SetAttrAsTable k (Z.lor t attr) = Z.lor t attr) as ->.
  { unfold SetAttrAsTable. destruct (_ && _); [|done]. apply Z.bits_inj'. intros i Hi.
    rewrite Z.land_spec, testbit_not64, Z.lor_spec by lia. change 128 with (2 ^ 7).
    rewrite Z.pow2_bits_eqb by lia. destruct (Z.eqb_spec 7 i) as [<-|].
    - rewrite (table_addr_bit t), (attr_bit attr) by (done || lia). done.
    - destruct (Z.ltb_spec i 64); cbn [andb negb]; [by rewrite andb_true_r|].
      rewrite (table_addr_bit t), (attr_bit attr) by (done || lia). done. }
  eexists. split; [done|]. rewrite IsPresent_bit, Z.lor_spec.
  assert (IsPage k (Z.lor t attr) = false) as Hp.
  { unfold IsPage. rewrite testbit_128, Z.lor_spec, (table_addr_bit t), (attr_bit attr) by (done || lia).
    by destruct k. }
  split_and!; [destruct Ha as [_ ->]; apply orb_true_r|done|].
  unfold GetTableAddr. rewrite Hp. rewrite <- Z.land_assoc. apply Z.bits_inj'. intros i Hi.
  rewrite Z.land_spec, Z.lor_spec, table_mask_bit by lia.
  destruct (Z.lt_ge_cases i 12); [rewrite (table_addr_bit t) by (done || lia); zcmps; by rewrite andb_false_r|].
  destruct (Z.lt_ge_cases i w); [|rewrite (table_addr_bit t) by (done || lia); zcmps; by rewrite andb_false_r].
  rewrite (attr_bit attr) by (done || lia). zcmps. by rewrite orb_false_r, andb_true_r.
Qed.

Lemma SetAttr_bit attr e i : 0 <= i < 64 ->
  Z.testbit (SetAttr attr e) i = if i <? 5 then Z.testbit attr i else Z.testbit e i.
Proof.
  intros Hi. unfold SetAttr. rewrite Z.lor_spec, !Z.land_spec, testbit_not64 by lia.
  change kPageAttrMask with (2 ^ 5 - 1). rewrite testbit_mask by lia.
  zcmps; rewrite ?andb_false_r, ?andb_true_r, ?orb_false_r; done.
Qed.
Lemma SetAttr_spec k attr e :
  attr_ok attr -> IsPresent e = true ->
  IsPresent (SetAttr attr e) = true /\ IsPage k (SetAttr attr e) = IsPage k e /\
  GetTableAddr mask k (SetAttr attr e) = GetTableAddr mask k e /\
  GetPageBaseAddr mask k (SetAttr attr e) = GetPageBaseAddr mask k e.
Proof.
  intros Ha _. rewrite IsPresent_bit, SetAttr_bit by lia. simpl.
  assert (IsPage k (SetAttr attr e) = IsPage k e) as Hp.
  { unfold IsPage. by rewrite !testbit_128, SetAttr_bit by lia. }
  split; [apply Ha|]. split; [done|]. pose proof (shift_range k). split.
  - unfold GetTableAddr. rewrite Hp. destruct (IsPage k e); [done|]. rewrite <- !Z.land_assoc.
    apply Z.bits_inj'. intros i Hi. rewrite !Z.land_spec, <- Z.land_spec, table_mask_bit by lia.
    destruct (Z.lt_ge_cases i 64); [|by zfalse (i <? w); rewrite !andb_false_r].
    rewrite SetAttr_bit by lia. zcmps; rewrite ?andb_false_r, ?andb_true_r; done.
  - unfold GetPageBaseAddr. apply Z.bits_inj'. intros i Hi.
    rewrite (Z.land_spec (SetAttr _ _)), (Z.land_spec e), page_mask_bit by lia.
    destruct (Z.lt_ge_cases i 64); [|by zfalse (i <? w); rewrite !andb_false_r].
    rewrite SetAttr_bit by lia. zcmps; rewrite ?andb_false_r, ?andb_true_r; done.
Qed.

(** A page address an entry of kind [k] can hold. *)
Lemma SetPageBaseAddr_spec k paddr attr e :
  is_page_allowed k = true -> attr_ok attr -> 0 <= paddr < 2 ^ w ->
  (paddr mod 2 ^ kIndexShift k = 0 -> exists e',
     SetPageBaseAddr mask k paddr attr e = Done e' /\ IsPresent e' = true /\ IsPage k e' = true /\
     GetPageBaseAddr mask k e' = paddr) /\
  (paddr mod 2 ^ kIndexShift k <> 0 -> SetPageBaseAddr mask k paddr attr e = Stop Panic).
Proof.
  intros Hk Ha Hp. pose proof (shift_range k) as Hs. unfold SetPageBaseAddr.
  rewrite kOffsetMask_pow, land_mask_mod by lia. split.
  2:{ intros Hne. by destruct (Z.eqb_spec (paddr mod 2 ^ kIndexShift k) 0). }
  intros Hal. rewrite Hal. cbn [Z.eqb kassert rbind]. rewrite <- kOffsetMask_pow.
  set (am := Z.land mask (not64 (kOffsetMask k))).
  set (d := Z.lor (Z.land e (not64 (Z.lor am kPageAttrMask))) (Z.lor (Z.land paddr am) attr)).
  assert (Z.testbit (SetAttrAsPage k d) 0 = true) as H0.
  { unfold SetAttrAsPage. destruct Ha as [_ Ha].
    destruct (_ && _); unfold d; rewrite ?Z.lor_spec, Ha, ?orb_true_r; done. }
  assert (IsPage k (SetAttrAsPage k d) = true) as H7.
  { unfold IsPage, SetAttrAsPage. destruct (is_page_allowed k && is_table_allowed k); [|done].
    rewrite testbit_128, Z.lor_spec. apply orb_true_r. }
  eexists. split; [done|]. rewrite IsPresent_bit. split_and!; [done|done|].
  unfold GetPageBaseAddr. apply Z.bits_inj'. intros i Hi. rewrite Z.land_spec, page_mask_bit by lia.
  destruct (Z.lt_ge_cases i (kIndexShift k)).
  { rewrite (testbit_aligned paddr (kIndexShift k)) by (done || lia). zcmps. by rewrite andb_false_r. }
  destruct (Z.lt_ge_cases i w).
  2:{ rewrite (testbit_bounded paddr w) by lia. zcmps. by rewrite andb_false_r. }
  assert (Z.testbit (SetAttrAsPage k d) i = Z.testbit d i) as ->.
  { unfold SetAttrAsPage. destruct (_ && _); [|done]. rewrite Z.lor_spec. change 128 with (2 ^ 7).
    rewrite Z.pow2_bits_eqb by lia. zfalse (7 =? i). by rewrite orb_false_r. }
  unfold d. rewrite !Z.lor_spec, !Z.land_spec, testbit_not64, Z.lor_spec by lia. unfold am.
  rewrite !page_mask_bit, (attr_bit attr) by (done || lia). zcmps.
  by rewrite !andb_false_r, !andb_true_r, orb_false_r.
Qed.
End Entries.

(** ** Indices and prefixes of addresses *)

Definition idx (k : EntryKind) (x : Z) : nat := Z.to_nat (addr2index k x).
(** The indices that lead to the table of kind [k] for [x]. *)
Definition pfx (k : EntryKind) (x : Z) : list nat :=
  match k with
  | PML4E => []
  | PDPTE => [idx PML4E x]
  | PDE => [idx PML4E x; idx PDPTE x]
  | PTE => [idx PML4E x; idx PDPTE x; idx PDE x]
  end.
(** The 48 bits that are translated. *)
Definition low (x : Z) : Z := x mod 2 ^ 48.

Lemma addr2index_eq k x : addr2index k x = x / 2 ^ kIndexShift k mod 512.
Proof.
  unfold addr2index. pose proof (shift_range k). rewrite shiftr_div by lia.
  apply (land_ones_mod _ 9). lia.
Qed.
Lemma idx_lt k x : (idx k x < 512)%nat.
Proof.
  unfold idx. rewrite addr2index_eq. pose proof (Z.mod_pos_bound (x / 2 ^ kIndexShift k) 512). lia.
Qed.
Lemma low_range x : 0 <= low x < 2 ^ 48.
Proof. apply Z.mod_pos_bound. lia. Qed.

Lemma idx_Z k x : Z.of_nat (idx k x) = x / 2 ^ kIndexShift k mod 512.
Proof.
  unfold idx. rewrite addr2index_eq. rewrite Z2Nat.id; [done|]. apply Z.mod_pos_bound. lia.
Qed.

(** The number of the chunk of kind [k] an address is in. *)
Definition chunk (k : EntryKind) (x : Z) : Z := low x / 2 ^ kIndexShift k.

Ltac pow_consts :=
  change (2 ^ 48) with 281474976710656 in *; change (2 ^ 12) with 4096 in *;
  change (2 ^ 21) with 2097152 in *; change (2 ^ 30) with 1073741824 in *;
  change (2 ^ 39) with 549755813888 in *.

(** The indices down to an entry determine its chunk. *)
Lemma same_chunk k x y : (pfx k x = pfx k y /\ idx k x = idx k y) <-> chunk k x = chunk k y.
Proof.
  assert (forall k, idx k x = idx k y <-> x / 2 ^ kIndexShift k mod 512 = y / 2 ^ kIndexShift k mod 512) as E.
  { intros k'. rewrite <- !idx_Z. lia. }
  unfold chunk, low. destruct k; simpl pfx; simpl kIndexShift.
  - transitivity (idx PML4E x = idx PML4E y /\ idx PDPTE x = idx PDPTE y /\ idx PDE x = idx PDE y /\ idx PTE x = idx PTE y).
    { split; [by intros [[= -> -> ->] ->]|by intros (-> & -> & -> & ->)]. }
    rewrite !E. simpl kIndexShift. pow_consts. split; zdiv.
  - transitivity (idx PML4E x = idx PML4E y /\ idx PDPTE x = idx PDPTE y /\ idx PDE x = idx PDE y).
    { split; [by intros [[= -> ->] ->]|by intros (-> & -> & ->)]. }
    rewrite !E. simpl kIndexShift. pow_consts. split; zdiv.
  - transitivity (idx PML4E x = idx PML4E y /\ idx PDPTE x = idx PDPTE y).
    { split; [by intros [[= ->] ->]|by intros (-> & ->)]. }
    rewrite !E. simpl kIndexShift. pow_consts. split; zdiv.
  - transitivity (idx PML4E x = idx PML4E y); [split; [by intros [_ ->]|by intros ->]|].
    rewrite !E. simpl kIndexShift. pow_consts. split; zdiv.
Qed.

(** The chunk behind that of [x], under the same table. *)
Lemma next_chunk k x y :
  (idx k x < 511)%nat -> low y = (chunk k x + 1) * 2 ^ kIndexShift k ->
  pfx k y = pfx k x /\ idx k y = S (idx k x).
Proof.
  intros Hi Hy. assert (Z.of_nat (idx k x) < 511) as Hi' by lia. clear Hi. rewrite idx_Z in Hi'.
  enough (pfx k y = pfx k x /\ Z.of_nat (idx k y) = Z.of_nat (idx k x) + 1) as [? ?] by (split; [done|lia]).
  assert (forall k, idx k y = idx k x <-> y / 2 ^ kIndexShift k mod 512 = x / 2 ^ kIndexShift k mod 512) as E.
  { intros k'. rewrite <- !idx_Z. lia. }
  unfold chunk, low in Hy. rewrite !idx_Z. destruct k; simpl pfx; simpl kIndexShift in *.
  - enough (idx PML4E y = idx PML4E x /\ idx PDPTE y = idx PDPTE x /\ idx PDE y = idx PDE x /\
      y / 2 ^ 12 mod 512 = x / 2 ^ 12 mod 512 + 1) as (-> & -> & -> & ?) by done.
    rewrite !E. simpl kIndexShift. pow_consts. split_and!; zdiv.
  - enough (idx PML4E y = idx PML4E x /\ idx PDPTE y = idx PDPTE x /\
      y / 2 ^ 21 mod 512 = x / 2 ^ 21 mod 512 + 1) as (-> & -> & ?) by done.
    rewrite !E. simpl kIndexShift. pow_consts. split_and!; zdiv.
  - enough (idx PML4E y = idx PML4E x /\ y / 2 ^ 30 mod 512 = x / 2 ^ 30 mod 512 + 1) as (-> & ?) by done.
    rewrite !E. simpl kIndexShift. pow_consts. split_and!; zdiv.
  - split; [done|]. pow_consts. zdiv.
Qed.

(** ** Trees of tables *)

Definition depth (k : EntryKind) : nat := match k with PML4E => 3 | PDPTE => 2 | PDE => 1 | PTE => 0 end.

Lemma pfx_next k x : k <> PTE -> pfx (next_kind k) x = pfx k x ++ [idx k x].
Proof. by destruct k. Qed.
Lemma depth_next k : k <> PTE -> depth k = S (depth (next_kind k)).
Proof. by destruct k. Qed.
Lemma IsPage_PTE e : IsPage PTE e = true.
Proof. done. Qed.

Section Walks.
Context (w : Z) (Hw : 39 <= w <= 52) (root : Z).
Abbreviation mask := (2 ^ w - 1).

(** [own] names, for each table of the tree, its kind and the indices that lead
    to it; no two addresses lead to the same table by different indices. *)
Definition owner : Type := Z -> option (EntryKind * list nat).
Definition entries_ok (own : owner) (k : EntryKind) (path : list nat) (es : list Z) : Prop :=
  length es = 512%nat /\
  forall i e, es !! i = Some e -> IsPresent e = true -> IsPage k e = false ->
    own (GetTableAddr mask k e) = Some (next_kind k, path ++ [i]).
Record wf_tree (own : owner) (m : tables) : Prop := WfTree {
  wt_root : own root = Some (PML4E, []);
  wt_table : forall t k path, own t = Some (k, path) ->
    exists es, m !! t = Some es /\ entries_ok own k path es;
}.

(** The walk for [x] comes to the table [t] of kind [k]. *)
Inductive reach (m : tables) (x : Z) : EntryKind -> Z -> Prop :=
| reach_root : reach m x PML4E root
| reach_down k t e :
  reach m x k t -> read_entry m t k x = Done e -> IsPresent e = true -> IsPage k e = false ->
  reach m x (next_kind k) (GetTableAddr mask k e).

Lemma not_PTE k e : IsPage k e = false -> k <> PTE.
Proof. intros H ->. done. Qed.

Lemma reach_own own m x k t : wf_tree own m -> reach m x k t -> own t = Some (k, pfx k x).
Proof.
  intros [Hroot Htab]. induction 1 as [|k t e Hr IH He Hp Hn]; [done|].
  destruct (Htab _ _ _ IH) as (es & Hes & _ & Hch). unfold read_entry in He. rewrite Hes in He.
  cbn [deref rbind] in He. change (Z.to_nat (addr2index k x)) with (idx k x) in He.
  destruct (es !! idx k x) as [e'|] eqn:E; simpl in He; [|done]. injection He as ->.
  rewrite (Hch _ _ E Hp Hn). by rewrite pfx_next by (by eapply not_PTE).
Qed.

Lemma own_read own m t k path x :
  wf_tree own m -> own t = Some (k, path) ->
  exists es e, m !! t = Some es /\ entries_ok own k path es /\ es !! idx k x = Some e /\
    read_entry m t k x = Done e.
Proof.
  intros Hwf Hown. destruct (wt_table _ _ Hwf _ _ _ Hown) as (es & Hes & [Hl Hch]).
  destruct (lookup_lt_is_Some_2 es (idx k x)) as [e He]; [rewrite Hl; apply idx_lt|].
  exists es, e. split; [done|]. split; [done|]. split; [done|]. unfold read_entry. rewrite Hes. cbn [deref rbind].
  change (Z.to_nat (addr2index k x)) with (idx k x). by rewrite He.
Qed.

Lemma v2p_from_unfold d m t k x e :
  read_entry m t k x = Done e ->
  v2p_from mask d m t k x =
  if negb (IsPresent e) then Done kAddrCannotTranslate
  else if IsPage k e then Done (Z.lor (GetPageBaseAddr mask k e) (Z.land x (kOffsetMask k)))
  else match d with
       | O => Done kAddrCannotTranslate
       | S d' => v2p_from mask d' m (GetTableAddr mask k e) (next_kind k) x
       end.
Proof. intros E. destruct d; cbn [v2p_from]; by rewrite E. Qed.

Lemma reach_v2p m x k t : reach m x k t -> v2p mask m root x = v2p_from mask (depth k) m t k x.
Proof.
  induction 1 as [|k t e Hr IH He Hp Hn]; [done|]. rewrite IH.
  rewrite (v2p_from_unfold _ _ _ _ _ _ He), Hp, Hn. cbn [negb].
  by rewrite (depth_next k) by (by eapply not_PTE).
Qed.

(** *** Writing one entry *)

Definition write (m : tables) (t : Z) (es : list Z) (i : nat) (e : Z) : tables := <[t := <[i := e]> es]> m.

Lemma write_entry_eq m t k x e es :
  m !! t = Some es -> write_entry m t k x e = Done (write m t es (idx k x) e).
Proof. intros H. unfold write_entry. by rewrite H. Qed.

Lemma read_write_eq m t es k x e :
  length es = 512%nat -> read_entry (write m t es (idx k x) e) t k x = Done e.
Proof.
  intros Hl. unfold read_entry, write. rewrite lookup_insert_eq. cbn [deref rbind].
  change (Z.to_nat (addr2index k x)) with (idx k x).
  by rewrite list_lookup_insert_eq by (rewrite Hl; apply idx_lt).
Qed.
Lemma read_write_ne m t es i e t' k x :
  m !! t = Some es -> t' <> t \/ idx k x <> i ->
  read_entry (write m t es i e) t' k x = read_entry m t' k x.
Proof.
  intros Hes Hne. unfold read_entry, write. destruct (decide (t' = t)) as [->|Ht].
  - destruct Hne as [|Hi]; [done|]. rewrite lookup_insert_eq, Hes. cbn [deref rbind].
    change (Z.to_nat (addr2index k x)) with (idx k x). by rewrite list_lookup_insert_ne.
  - by rewrite lookup_insert_ne.
Qed.

Lemma write_frame own m t k path es i e x d :
  wf_tree own m -> own t = Some (k, path) -> m !! t = Some es ->
  ~ (pfx k x = path /\ idx k x = i) ->
  forall k0 t0, own t0 = Some (k0, pfx k0 x) ->
  v2p_from mask d (write m t es i e) t0 k0 x = v2p_from mask d m t0 k0 x.
Proof.
  intros Hwf Ht Hes Hno. induction d as [|d IH]; intros k0 t0 Hown.
  all: destruct (own_read own m t0 k0 _ x Hwf Hown) as (es0 & e0 & Hes0 & [_ Hch] & He0 & Hrd).
  all: assert (read_entry (write m t es i e) t0 k0 x = Done e0) as Hrd'
    by (rewrite read_write_ne; [done|done|];
        destruct (decide (t0 = t)) as [->|]; [right|by left];
        rewrite Ht in Hown; injection Hown as -> ->; tauto).
  all: rewrite (v2p_from_unfold _ _ _ _ _ _ Hrd), (v2p_from_unfold _ _ _ _ _ _ Hrd').
  all: destruct (IsPresent e0) eqn:Ep; [|done]; destruct (IsPage k0 e0) eqn:Eg; [done|]; cbn [negb].
  - done.
  - apply IH. rewrite (Hch _ _ He0 Ep Eg). by rewrite pfx_next by (by eapply not_PTE).
Qed.

Lemma write_v2p_frame own m t k path es i e x :
  wf_tree own m -> own t = Some (k, path) -> m !! t = Some es ->
  ~ (pfx k x = path /\ idx k x = i) ->
  v2p mask (write m t es i e) root x = v2p mask m root x.
Proof. intros. eapply write_frame; [done..|]. by eapply wt_root. Qed.

Lemma write_wf own m t k path es i e :
  wf_tree own m -> own t = Some (k, path) -> m !! t = Some es ->
  (IsPresent e = true -> IsPage k e = false ->
   own (GetTableAddr mask k e) = Some (next_kind k, path ++ [i])) ->
  wf_tree own (write m t es i e).
Proof.
  intros [Hroot Htab] Ht Hes Hnew. split; [done|]. intros t' k' path' Ht'. unfold write.
  destruct (decide (t' = t)) as [->|Hne].
  - rewrite Ht in Ht'. injection Ht' as <- <-. rewrite lookup_insert_eq. eexists. split; [done|].
    destruct (Htab _ _ _ Ht) as (es' & Hes' & Hl & Hch). rewrite Hes in Hes'. injection Hes' as <-.
    split; [by rewrite length_insert|]. intros j e' Hj Hp Hg. destruct (decide (j = i)) as [->|Hji].
    + rewrite list_lookup_insert_eq in Hj by (apply lookup_lt_Some in Hj; by rewrite length_insert in Hj).
      injection Hj as <-. by apply Hnew.
    + rewrite list_lookup_insert_ne in Hj by done. by apply Hch.
  - rewrite lookup_insert_ne by done. by apply Htab.
Qed.

(** Tables of a higher kind keep their place. *)
Lemma write_reach own m t k path es i e x k0 t0 :
  wf_tree own m -> own t = Some (k, path) -> m !! t = Some es ->
  (depth k <= depth k0)%nat -> reach m x k0 t0 -> reach (write m t es i e) x k0 t0.
Proof.
  intros Hwf Ht Hes Hd Hr. induction Hr as [|k1 t1 e1 Hr IH He Hp Hn]; [constructor|].
  pose proof (depth_next k1 (not_PTE _ _ Hn)) as Hdn.
  eapply reach_down; [apply IH; lia| |done|done].
  rewrite read_write_ne; [done|done|]. left. intros ->. apply (reach_own own) in Hr; [|done].
  rewrite Ht in Hr. injection Hr as -> _. lia.
Qed.

Lemma reach_pfx own m x y k t :
  wf_tree own m -> reach m x k t -> pfx k y = pfx k x -> reach m y k t.
Proof.
  intros Hwf Hr. induction Hr as [|k t e Hr IH He Hp Hn]; intros Hpfx; [constructor|].
  rewrite !pfx_next in Hpfx by (by eapply not_PTE). apply app_inj_tail in Hpfx as [Hpfx Hi].
  eapply reach_down; [by apply IH| |done|done].
  unfold read_entry in *. change (Z.to_nat (addr2index k y)) with (idx k y).
  change (Z.to_nat (addr2index k x)) with (idx k x) in He. by rewrite Hi.
Qed.

(** *** A new, cleared table *)

Definition own_add (own : owner) (nt : Z) (o : EntryKind * list nat) : owner :=
  fun t => if t =? nt then Some o else own t.

Lemma clear_wf own m nt o :
  wf_tree own m -> own nt = None -> wf_tree (own_add own nt o) (ClearMapping nt m).
Proof.
  intros [Hroot Htab] Hnt. unfold own_add. split.
  - destruct (Z.eqb_spec root nt) as [<-|]; [congruence|done].
  - intros t k path Ht. unfold ClearMapping. destruct (Z.eqb_spec t nt) as [->|Hne].
    + rewrite lookup_insert_eq. injection Ht as ->. eexists. split; [done|].
      split; [by rewrite length_replicate|]. intros i e Hi. apply lookup_replicate in Hi as [-> _]. done.
    + rewrite lookup_insert_ne by done. destruct (Htab _ _ _ Ht) as (es & Hes & Hl & Hch).
      exists es. split; [done|]. split; [done|]. intros i e Hi Hp Hg. specialize (Hch _ _ Hi Hp Hg).
      destruct (Z.eqb_spec (GetTableAddr mask k e) nt) as [E|]; [|done]. congruence.
Qed.

(** What is written to a page outside the tree is not seen. *)
Lemma insert_frame own m nt es' x d :
  wf_tree own m -> own nt = None ->
  forall k t, own t = Some (k, pfx k x) ->
  v2p_from mask d (<[nt := es']> m) t k x = v2p_from mask d m t k x.
Proof.
  intros Hwf Hnt. induction d as [|d IH]; intros k t Hown.
  all: destruct (own_read own m t k _ x Hwf Hown) as (es & e & Hes & [_ Hch] & He & Hrd).
  all: assert (read_entry (<[nt := es']> m) t k x = Done e) as Hrd'
    by (unfold read_entry; rewrite lookup_insert_ne by congruence; exact Hrd).
  all: rewrite (v2p_from_unfold _ _ _ _ _ _ Hrd), (v2p_from_unfold _ _ _ _ _ _ Hrd').
  all: destruct (IsPresent e) eqn:Ep; [|done]; destruct (IsPage k e) eqn:Eg; [done|]; cbn [negb].
  - done.
  - apply IH. rewrite (Hch _ _ He Ep Eg). by rewrite pfx_next by (by eapply not_PTE).
Qed.

Lemma clear_reach own m nt x k t :
  wf_tree own m -> own nt = None -> reach m x k t -> reach (ClearMapping nt m) x k t.
Proof.
  intros Hwf Hnt Hr. induction Hr as [|k t e Hr IH He Hp Hn]; [constructor|].
  eapply reach_down; [done| |done|done]. apply (reach_own own) in Hr; [|done].
  unfold read_entry, ClearMapping in *. by rewrite lookup_insert_ne by congruence.
Qed.
End Walks.

(** ** The interface of the allocator

    What page tables need of the allocator they take their pages from: a page
    it hands out is one it had available, is not available afterwards, and can
    be the address of a table. *)
Class PageSource (w : Z) {A : Type} (AllocPage : A -> res (Z * A)) := {
  source_ok : A -> Prop;
  avail : A -> Z -> Prop;
  alloc_page_law a t a' :
    source_ok a -> AllocPage a = Done (t, a') ->
    source_ok a' /\ avail a t /\ table_addr w t /\ ~ avail a' t /\ (forall u, avail a' u -> avail a u);
}.

(** The same for blocks of several pages. *)
Class BlockSource (w : Z) {A : Type} (AllocBlock : Z -> A -> res (Z * A)) := {
  block_page :: PageSource w (AllocBlock 1);
  alloc_block_law n a t a' :
    0 <= n -> source_ok a -> AllocBlock n a = Done (t, a') ->
    source_ok a' /\ 0 < t /\ t mod 4096 = 0 /\ t + 4096 * n <= 2 ^ w /\
    (forall i, 0 <= i < n -> avail a (t + 4096 * i) /\ ~ avail a' (t + 4096 * i)) /\
    (forall u, avail a' u -> avail a u);
}.

Lemma u64_small_mod48 x : u64 x mod 2 ^ 48 = x mod 2 ^ 48.
Proof. unfold u64. change (2 ^ 64) with (2 ^ 48 * 65536). zdiv. Qed.

Section Create.
Context (w : Z) (Hw : 39 <= w <= 52) (root : Z).
Context {A : Type} (AllocPage : A -> res (Z * A)) {PS : PageSource w AllocPage}.
Context (attr : Z) (Hattr : attr_ok attr).
Abbreviation mask := (2 ^ w - 1).
Abbreviation state := (@mapping A).

(** The request: [n] pages from [v0] to [p0], over the tables [m0]. *)
Context (m0 : tables) (v0 p0 n : Z).
Context (Hv0 : v0 mod 4096 = 0) (Hp0 : p0 mod 4096 = 0).
Context (Hfit : 0 <= n /\ low v0 + 4096 * n <= 2 ^ 48) (Hphys : 0 <= p0 /\ p0 + 4096 * n <= 2 ^ w).

(** The position in the 48-bit address space, and the pages already mapped. *)
Definition pos (c : state) : Z := low v0 + 4096 * (n - m_pages c).
Definition mapped (c : state) (x : Z) : Prop := low v0 <= low x < pos c.

Record inv (own : owner) (c : state) : Prop := Inv {
  inv_wf : wf_tree w root own (m_tables c);
  inv_source : source_ok (m_alloc c);
  inv_avail : forall t, avail (m_alloc c) t -> own t = None;
  inv_pages : 0 <= m_pages c <= n;
  inv_low : low (m_vaddr c) = pos c mod 2 ^ 48;
  inv_paddr : m_paddr c = p0 + 4096 * (n - m_pages c);
  inv_done : forall x, mapped c x -> v2p mask (m_tables c) root x = Done (p0 + (low x - low v0));
  inv_rest : forall x, ~ mapped c x -> v2p mask (m_tables c) root x = v2p mask m0 root x;
}.

(** What a piece of the code does, besides [inv]: it leaves the tables of kinds
    at least [d] where they are. *)
Definition keeps_reach (d : nat) (m m' : tables) : Prop :=
  forall x k t, (d <= depth k)%nat -> reach w root m x k t -> reach w root m' x k t.
(** Why it can stop. *)
Definition stop_ok (e : stop) : Prop :=
  (exists a, source_ok a /\ AllocPage a = Stop e) \/
  (e = Panic /\ exists x, low v0 <= low x < low v0 + 4096 * n /\
     v2p mask m0 root x <> Done kAddrCannotTranslate).

Lemma keeps_reach_refl d m : keeps_reach d m m.
Proof. by intros ? ? ? ?. Qed.
Lemma keeps_reach_trans d m1 m2 m3 : keeps_reach d m1 m2 -> keeps_reach d m2 m3 -> keeps_reach d m1 m3.
Proof. intros H1 H2 x k t Hd Hr. by apply H2, H1. Qed.
Lemma keeps_reach_weaken d d' m m' : (d <= d')%nat -> keeps_reach d m m' -> keeps_reach d' m m'.
Proof. intros Hd H x k t Hk. apply H. lia. Qed.

(** A change of the tables that leaves every translation as it is. *)
Lemma inv_same own own' c m' a' :
  inv own c -> wf_tree w root own' m' -> source_ok a' -> (forall t, avail a' t -> own' t = None) ->
  (forall x, v2p mask m' root x = v2p mask (m_tables c) root x) ->
  inv own' (Mapping m' a' (m_vaddr c) (m_paddr c) (m_pages c)).
Proof.
  intros [H1 H2 H3 H4 H5 H6 H7 H8] Hwf Hs Ha Hsame. split; simpl; try done.
  - intros x Hx. rewrite Hsame. by apply H7.
  - intros x Hx. rewrite Hsame. by apply H8.
Qed.

(** The address the loops are at, while pages are left. *)
Lemma inv_cur own c : inv own c -> m_pages c <> 0 -> low (m_vaddr c) = pos c /\ 0 <= pos c < 2 ^ 48.
Proof.
  intros H Hp. pose proof (inv_pages _ _ H). pose proof (inv_low _ _ H) as E.
  assert (0 <= pos c < 2 ^ 48) by (unfold pos; pose proof (low_range v0); lia).
  rewrite Z.mod_small in E by done. done.
Qed.
Lemma inv_unmapped own c : inv own c -> m_pages c <> 0 ->
  v2p mask (m_tables c) root (m_vaddr c) = v2p mask m0 root (m_vaddr c).
Proof.
  intros H Hp. apply (inv_rest _ _ H). destruct (inv_cur _ _ H Hp) as [E _]. unfold mapped. lia.
Qed.

Lemma ensure_table_ok own t k c :
  k <> PTE -> inv own c -> reach w root (m_tables c) (m_vaddr c) k t ->
  match ensure_table mask AllocPage t k attr c with
  | Done c' => exists own', inv own' c' /\ keeps_reach (depth k) (m_tables c) (m_tables c') /\
      m_vaddr c' = m_vaddr c /\ m_pages c' = m_pages c /\
      exists e, read_entry (m_tables c') t k (m_vaddr c') = Done e /\ IsPresent e = true
  | Stop e => stop_ok e
  end.
Proof.
  intros Hk Hinv Hr. pose proof (inv_wf _ _ Hinv) as Hwf.
  pose proof (reach_own w root own _ _ _ _ Hwf Hr) as Hown.
  destruct (own_read w root own _ t k _ (m_vaddr c) Hwf Hown) as (es & e & Hes & Hes_ok & He & Hrd).
  unfold ensure_table. rewrite Hrd. cbn [rbind]. destruct (IsPresent e) eqn:Ep.
  { exists own. split; [done|]. split; [apply keeps_reach_refl|]. split; [done|]. split; [done|]. eauto. }
  destruct (AllocPage (m_alloc c)) as [[nt a']|s] eqn:Ea; cbn [rbind].
  2:{ left. exists (m_alloc c). split; [apply Hinv|done]. }
  destruct (alloc_page_law _ _ _ (inv_source _ _ Hinv) Ea) as (Hs' & Hav & Hta & Hnav & Hmono).
  pose proof (inv_avail _ _ Hinv _ Hav) as Hnt.
  destruct (SetTableAddr_spec w Hw k nt attr Hk Hta Hattr) as (e' & -> & Hp' & Hg' & Hta').
  cbn [rbind]. assert (t <> nt) as Hne by congruence.
  assert (ClearMapping nt (m_tables c) !! t = Some es) as Hes'
    by (unfold ClearMapping; by rewrite lookup_insert_ne).
  rewrite (write_entry_eq _ _ _ _ _ _ Hes'). cbn [rbind].
  set (o := (next_kind k, pfx k (m_vaddr c) ++ [idx k (m_vaddr c)])).
  set (own' := own_add own nt o). set (m1 := ClearMapping nt (m_tables c)).
  pose proof (clear_wf w root own (m_tables c) nt o Hwf Hnt) as Hwf1. fold own' m1 in Hwf1.
  assert (own' t = Some (k, pfx k (m_vaddr c))) as Hown'.
  { unfold own', own_add. by zfalse (t =? nt). }
  assert (wf_tree w root own' (write m1 t es (idx k (m_vaddr c)) e')) as Hwf2.
  { eapply write_wf; [done|done|done|]. intros _ _. rewrite Hta'. unfold own', own_add. by rewrite Z.eqb_refl. }
  assert (keeps_reach (depth k) (m_tables c) (write m1 t es (idx k (m_vaddr c)) e')) as Hkeep.
  { intros x k1 t1 Hd Hr1. eapply write_reach; [exact Hwf1|exact Hown'|done|done|]. by eapply clear_reach. }
  exists own'. split; [|split; [exact Hkeep|split; [done|split; [done|]]]].
  2:{ exists e'. simpl. split; [|done]. apply read_write_eq. apply Hes_ok. }
  apply (inv_same own); [done|done|done| |].
  - intros u Hu. unfold own', own_add. destruct (Z.eqb_spec u nt) as [->|]; [done|].
    by apply (inv_avail _ _ Hinv), Hmono.
  - intros x. destruct (decide (pfx k x = pfx k (m_vaddr c) /\ idx k x = idx k (m_vaddr c))) as [[Hx1 Hx2]|Hno].
    + pose proof (reach_pfx w root own _ _ _ _ _ Hwf Hr Hx1) as Hrx.
      pose proof (Hkeep x k t ltac:(lia) Hrx) as Hrx'.
      rewrite (reach_v2p _ _ _ _ _ _ Hrx), (reach_v2p _ _ _ _ _ _ Hrx').
      assert (read_entry (m_tables c) t k x = Done e) as E1.
      { unfold read_entry in *. change (Z.to_nat (addr2index k x)) with (idx k x). by rewrite Hx2. }
      assert (read_entry (write m1 t es (idx k (m_vaddr c)) e') t k x = Done e') as E2.
      { rewrite <- Hx2. apply read_write_eq, Hes_ok. }
      rewrite (v2p_from_unfold _ _ _ _ _ _ _ E1), (v2p_from_unfold _ _ _ _ _ _ _ E2), Ep, Hp', Hg'. cbn [negb].
      rewrite (depth_next k Hk), Hta'.
      assert (own' nt = Some (next_kind k, pfx (next_kind k) x)) as Hnt'.
      { unfold own', own_add, o. rewrite Z.eqb_refl, pfx_next, Hx1, Hx2 by done. done. }
      assert (read_entry (write m1 t es (idx k (m_vaddr c)) e') nt (next_kind k) x = Done 0) as E3.
      { rewrite read_write_ne; [|done|left; congruence]. unfold m1, ClearMapping, read_entry.
        rewrite lookup_insert_eq. cbn [deref rbind].
        change (Z.to_nat (addr2index (next_kind k) x)) with (idx (next_kind k) x).
        rewrite lookup_replicate_2; [done|apply idx_lt]. }
      by rewrite (v2p_from_unfold _ _ _ _ _ _ _ E3).
    + rewrite (write_v2p_frame w Hw root own' m1 t k (pfx k (m_vaddr c))) by done.
      apply (insert_frame w root own); [done|done|apply Hwf].
Qed.

(** Below the table that is written nothing changes. *)
Lemma write_frame_below own m t k path es i e x d :
  wf_tree w root own m -> own t = Some (k, path) -> m !! t = Some es ->
  forall k0 t0, own t0 = Some (k0, pfx k0 x) -> (depth k0 < depth k)%nat ->
  v2p_from mask d (write m t es i e) t0 k0 x = v2p_from mask d m t0 k0 x.
Proof.
  intros Hwf Ht Hes. induction d as [|d IH]; intros k0 t0 Hown Hlt.
  all: destruct (own_read w root own m t0 k0 _ x Hwf Hown) as (es0 & e0 & Hes0 & [_ Hch] & He0 & Hrd).
  all: assert (t0 <> t) as Hne by (intros ->; rewrite Ht in Hown; injection Hown as -> _; lia).
  all: assert (read_entry (write m t es i e) t0 k0 x = Done e0) as Hrd'
    by (rewrite read_write_ne; [done|done|by left]).
  all: rewrite (v2p_from_unfold _ _ _ _ _ _ _ Hrd), (v2p_from_unfold _ _ _ _ _ _ _ Hrd').
  all: destruct (IsPresent e0) eqn:Ep; [|done]; destruct (IsPage k0 e0) eqn:Eg; [done|]; cbn [negb].
  - done.
  - pose proof (not_PTE _ _ Eg) as Hk0. pose proof (depth_next k0 Hk0). apply IH; [|lia].
    rewrite (Hch _ _ He0 Ep Eg). by rewrite pfx_next.
Qed.

Lemma set_attr_ok own t k c e :
  inv own c -> reach w root (m_tables c) (m_vaddr c) k t ->
  read_entry (m_tables c) t k (m_vaddr c) = Done e -> IsPresent e = true ->
  exists c', set_attr t k attr c = Done c' /\ inv own c' /\
    keeps_reach (depth k) (m_tables c) (m_tables c') /\
    m_vaddr c' = m_vaddr c /\ m_pages c' = m_pages c /\
    read_entry (m_tables c') t k (m_vaddr c) = Done (SetAttr attr e).
Proof.
  intros Hinv Hr Hrd Hp. pose proof (inv_wf _ _ Hinv) as Hwf.
  pose proof (reach_own w root own _ _ _ _ Hwf Hr) as Hown.
  destruct (own_read w root own _ t k _ (m_vaddr c) Hwf Hown) as (es & e1 & Hes & Hok & He & Hrd1).
  rewrite Hrd in Hrd1. injection Hrd1 as <-.
  unfold set_attr. rewrite Hrd. cbn [rbind]. rewrite (write_entry_eq _ _ _ _ _ _ Hes). cbn [rbind].
  destruct (SetAttr_spec w Hw k attr e Hattr Hp) as (Hp' & Hg' & Ht' & Hb').
  set (m' := write (m_tables c) t es (idx k (m_vaddr c)) (SetAttr attr e)).
  assert (wf_tree w root own m') as Hwf'.
  { eapply write_wf; [done|done|done|]. intros _. rewrite Hg', Ht'. by apply Hok. }
  assert (keeps_reach (depth k) (m_tables c) m') as Hkeep.
  { intros x k1 t1 Hd Hr1. by eapply write_reach. }
  eexists. split; [done|]. split; [|split; [exact Hkeep|split; [done|split; [done|]]]].
  2:{ apply read_write_eq, Hok. }
  apply (inv_same own own c m' (m_alloc c)); [done|done|apply Hinv|apply Hinv|].
  intros x. destruct (decide (pfx k x = pfx k (m_vaddr c) /\ idx k x = idx k (m_vaddr c))) as [[Hx1 Hx2]|Hno].
  - pose proof (reach_pfx w root own _ _ _ _ _ Hwf Hr Hx1) as Hrx.
    pose proof (Hkeep x k t ltac:(lia) Hrx) as Hrx'.
    rewrite (reach_v2p _ _ _ _ _ _ Hrx), (reach_v2p _ _ _ _ _ _ Hrx').
    assert (read_entry (m_tables c) t k x = Done e) as E1.
    { unfold read_entry in *. change (Z.to_nat (addr2index k x)) with (idx k x). by rewrite Hx2. }
    assert (read_entry m' t k x = Done (SetAttr attr e)) as E2.
    { unfold m'. rewrite <- Hx2. apply read_write_eq, Hok. }
    rewrite (v2p_from_unfold _ _ _ _ _ _ _ E1), (v2p_from_unfold _ _ _ _ _ _ _ E2), Hp, Hp', Hg', Ht', Hb'.
    cbn [negb]. destruct (IsPage k e) eqn:Eg; [done|]. pose proof (not_PTE _ _ Eg) as Hk.
    rewrite (depth_next k Hk). eapply write_frame_below; [done|done|done| |pose proof (depth_next k Hk); lia].
    destruct Hok as [_ Hch]. rewrite (Hch _ _ He Hp Eg), pfx_next by done. by rewrite Hx1, Hx2.
  - by apply (write_v2p_frame w Hw root own _ t k (pfx k (m_vaddr c))).
Qed.

(** Adding an offset below the alignment is [or]-ing it. *)
Lemma lor_offset p x s : 0 <= s -> p mod 2 ^ s = 0 -> Z.lor p (x mod 2 ^ s) = p + x mod 2 ^ s.
Proof.
  intros Hs Hp. assert (p = p / 2 ^ s * 2 ^ s) as E.
  { rewrite (Z.div_mod p (2 ^ s)) at 1 by lia. lia. }
  rewrite E at 1. rewrite <- shiftl_mul, lor_shiftl_add by (lia || (apply Z.mod_pos_bound; lia)). lia.
Qed.
Lemma low_mod_shift k x : low x mod 2 ^ kIndexShift k = x mod 2 ^ kIndexShift k.
Proof. unfold low. destruct k; simpl kIndexShift; pow_consts; zdiv. Qed.
Lemma chunk_range k x b :
  b mod 2 ^ kIndexShift k = 0 -> chunk k x = b / 2 ^ kIndexShift k <-> b <= low x < b + 2 ^ kIndexShift k.
Proof. unfold chunk. destruct k; simpl kIndexShift; pow_consts; generalize (low x); intros; zdiv. Qed.

Definition page_count (k : EntryKind) : Z := 2 ^ (kIndexShift k - 12).

Lemma set_page_ok own t k c :
  is_page_allowed k = true -> inv own c -> reach w root (m_tables c) (m_vaddr c) k t ->
  page_count k <= m_pages c -> m_pages c <> 0 ->
  pos c mod 2 ^ kIndexShift k = 0 -> m_paddr c mod 2 ^ kIndexShift k = 0 ->
  exists c', set_page mask t k attr c = Done c' /\
    let c2 := advance (2 ^ kIndexShift k) (page_count k) c' in
    inv own c2 /\ keeps_reach (depth k) (m_tables c) (m_tables c2) /\
    pos c2 = (pos c / 2 ^ kIndexShift k + 1) * 2 ^ kIndexShift k.
Proof.
  intros Hpa Hinv Hr Hcnt Hnz Hal Hpal. pose proof (inv_wf _ _ Hinv) as Hwf.
  pose proof (reach_own w root own _ _ _ _ Hwf Hr) as Hown. pose proof (shift_range k) as Hs.
  assert (2 ^ kIndexShift k = 4096 * page_count k) as Esz.
  { unfold page_count. change 4096 with (2 ^ 12). rewrite <- Z.pow_add_r by lia. f_equal. lia. }
  assert (0 < page_count k) as Hpc by (unfold page_count; apply Z.pow_pos_nonneg; lia).
  destruct (inv_cur _ _ Hinv Hnz) as [Hlow Hpos].
  pose proof (inv_pages _ _ Hinv) as Hpg. pose proof (inv_paddr _ _ Hinv) as Hpd.
  assert (0 <= m_paddr c < 2 ^ w) as Hprange by lia.
  destruct (own_read w root own _ t k _ (m_vaddr c) Hwf Hown) as (es & e & Hes & Hok & He & Hrd).
  unfold set_page, SetPageBaseForAddr. rewrite Hrd. cbn [rbind].
  destruct (SetPageBaseAddr_spec w Hw k (m_paddr c) attr e Hpa Hattr Hprange) as [H _].
  destruct (H Hpal) as (e' & -> & Hp' & Hg' & Hb'). clear H. cbn [rbind].
  rewrite (write_entry_eq _ _ _ _ _ _ Hes). cbn [rbind]. eexists. split; [done|].
  set (m' := write (m_tables c) t es (idx k (m_vaddr c)) e'). unfold with_tables, advance. cbn [m_tables m_alloc m_vaddr m_paddr m_pages].
  assert (keeps_reach (depth k) (m_tables c) m') as Hkeep.
  { intros x k1 t1 Hd Hr1. by eapply write_reach. }
  split; [|split; [exact Hkeep|]].
  2:{ unfold pos in *. cbn [m_pages]. rewrite Z.mul_add_distr_r, Z.mul_1_l.
      rewrite <- (Z.div_exact (low v0 + 4096 * (n - m_pages c)) (2 ^ kIndexShift k)) in Hal by lia.
      rewrite (Z.mul_comm (_ / _)), <- Hal. lia. }
  assert (forall x, (pfx k x = pfx k (m_vaddr c) /\ idx k x = idx k (m_vaddr c)) <->
    pos c <= low x < pos c + 2 ^ kIndexShift k) as Hhit.
  { intros x. rewrite same_chunk. unfold chunk at 2. rewrite Hlow. by apply chunk_range. }
  assert (forall x, pos c <= low x < pos c + 2 ^ kIndexShift k ->
    v2p mask m' root x = Done (p0 + (low x - low v0))) as Hin.
  { intros x Hx. pose proof Hx as [Hx1 Hx2]%Hhit.
    pose proof (reach_pfx w root own _ _ _ _ _ Hwf Hr Hx1) as Hrx.
    pose proof (Hkeep x k t ltac:(lia) Hrx) as Hrx'. rewrite (reach_v2p _ _ _ _ _ _ Hrx').
    assert (read_entry m' t k x = Done e') as E2.
    { unfold m'. rewrite <- Hx2. apply read_write_eq, Hok. }
    rewrite (v2p_from_unfold _ _ _ _ _ _ _ E2), Hp', Hg', Hb'. cbn [negb]. f_equal.
    rewrite kOffsetMask_pow, land_ones_mod, lor_offset by (done || lia).
    rewrite Hpd. rewrite <- low_mod_shift.
    assert (low x mod 2 ^ kIndexShift k = low x - pos c) as ->.
    { symmetry. apply (Z.mod_unique_pos _ _ (pos c / 2 ^ kIndexShift k)); [lia|].
      apply Z.div_exact in Hal; [|lia]. lia. }
    unfold pos. lia. }
  assert (forall x, ~ (pos c <= low x < pos c + 2 ^ kIndexShift k) ->
    v2p mask m' root x = v2p mask (m_tables c) root x) as Hout.
  { intros x Hx. apply (write_v2p_frame w Hw root own _ t k (pfx k (m_vaddr c))); [done|done|done|].
    by rewrite Hhit. }
  split; cbn [m_tables m_alloc m_vaddr m_paddr m_pages].
  - eapply write_wf; [done|done|done|]. intros _. rewrite Hg'. done.
  - apply Hinv.
  - apply Hinv.
  - lia.
  - unfold low at 1. rewrite u64_small_mod48. unfold pos in *. cbn [m_pages].
    rewrite <- Zplus_mod_idemp_l. change (m_vaddr c mod 2 ^ 48) with (low (m_vaddr c)). rewrite Hlow. f_equal. lia.
  - rewrite u64_small by (split; [lia|]; pose proof (Z.pow_le_mono_r 2 w 52); lia). lia.
  - intros x Hx. destruct (decide (pos c <= low x < pos c + 2 ^ kIndexShift k)) as [H|H]; [by apply Hin|].
    rewrite Hout by done. apply (inv_done _ _ Hinv). unfold mapped, pos in *. cbn [m_pages] in Hx. lia.
  - intros x Hx. destruct (decide (pos c <= low x < pos c + 2 ^ kIndexShift k)) as [H|H].
    + exfalso. apply Hx. unfold mapped, pos in *. cbn [m_pages]. lia.
    + rewrite Hout by done. apply (inv_rest _ _ Hinv). unfold mapped, pos in *. cbn [m_pages] in Hx. lia.
Qed.

(** *** Loops over one table *)

Definition ok_step (d : nat) (size : Z) (c : state) (r : res state) : Prop :=
  match r with
  | Done c' => exists own', inv own' c' /\ keeps_reach d (m_tables c) (m_tables c') /\
      (m_pages c' = 0 \/ pos c' = (pos c / size + 1) * size)
  | Stop e => stop_ok e
  end.

Lemma idx_pos own k c : inv own c -> m_pages c <> 0 ->
  Z.of_nat (idx k (m_vaddr c)) = pos c / 2 ^ kIndexShift k mod 512.
Proof.
  intros Hinv Hnz. destruct (inv_cur _ _ Hinv Hnz) as [<- _]. rewrite idx_Z. unfold low.
  destruct k; simpl kIndexShift; pow_consts; zdiv.
Qed.

Lemma level_loop_ok k t (L : nat -> state -> res state) (B : state -> res state) :
  (forall c, L O c = Done c) ->
  (forall j c, L (S j) c = if m_pages c =? 0 then Done c else do c <- B c; L j c) ->
  (forall own c, inv own c -> m_pages c <> 0 -> reach w root (m_tables c) (m_vaddr c) k t ->
     ok_step (depth k) (2 ^ kIndexShift k) c (B c)) ->
  forall j own c, inv own c ->
    (m_pages c <> 0 -> reach w root (m_tables c) (m_vaddr c) k t /\ (idx k (m_vaddr c) + j = 512)%nat) ->
    ok_step (depth k) (2 ^ kIndexShift k * 512) c (L j c).
Proof.
  intros HL0 HLS HB. pose proof (shift_range k) as Hsh.
  assert (0 < 2 ^ kIndexShift k) as Hs by (apply Z.pow_pos_nonneg; lia).
  induction j as [|j IH]; intros own c Hinv Hpre.
  - rewrite HL0. exists own. split; [done|]. split; [apply keeps_reach_refl|].
    left. destruct (Z.eq_dec (m_pages c) 0) as [|Hnz]; [done|].
    destruct (Hpre Hnz) as [_ Hi]. pose proof (idx_lt k (m_vaddr c)). lia.
  - rewrite HLS. destruct (Z.eqb_spec (m_pages c) 0) as [Hz|Hnz].
    { exists own. split; [done|]. split; [apply keeps_reach_refl|by left]. }
    destruct (Hpre Hnz) as [Hr Hi]. specialize (HB own c Hinv Hnz Hr).
    pose proof (idx_pos own k c Hinv Hnz) as Hip.
    destruct (B c) as [c1|s]; [|done]. destruct HB as (own1 & Hinv1 & Hk1 & Hstep). cbn [rbind].
    destruct (Z.eq_dec (m_pages c1) 0) as [Hz1|Hnz1].
    { assert (L j c1 = Done c1) as -> by (destruct j; [apply HL0|rewrite HLS; by rewrite Hz1]).
      exists own1. split; [done|]. split; [done|by left]. }
    destruct Hstep as [|Hpos1]; [done|]. destruct (inv_cur _ _ Hinv1 Hnz1) as [Hlow1 Hrange1].
    destruct (inv_cur _ _ Hinv Hnz) as [Hlow Hrange].
    set (q := pos c / 2 ^ kIndexShift k) in *.
    assert (pos c / (2 ^ kIndexShift k * 512) = q / 512) as Hq by (unfold q; rewrite Z.div_div by lia; done).
    assert (pos c1 / (2 ^ kIndexShift k * 512) = (q + 1) / 512) as Hq1.
    { rewrite <- Z.div_div, Hpos1, Z.div_mul by lia. done. }
    destruct (decide (idx k (m_vaddr c) = 511%nat)) as [H511|H511].
    + assert (j = O) as -> by lia. rewrite HL0. exists own1. split; [done|]. split; [done|]. right.
      rewrite Hq, Hpos1. assert (q + 1 = (q / 512 + 1) * 512) as -> by zdiv. ring.
    + pose proof (idx_lt k (m_vaddr c)).
      destruct (next_chunk k (m_vaddr c) (m_vaddr c1)) as [Hpf Hix]; [lia| |].
      { rewrite Hlow1, Hpos1. unfold chunk. by rewrite Hlow. }
      assert (reach w root (m_tables c1) (m_vaddr c1) k t) as Hr1.
      { eapply reach_pfx; [by eapply inv_wf|by apply Hk1|done]. }
      specialize (IH own1 c1 Hinv1 ltac:(intros _; split; [done|lia])).
      destruct (L j c1) as [c2|s]; [|done]. destruct IH as (own2 & Hinv2 & Hk2 & Hstep2).
      exists own2. split; [done|]. split; [by eapply keeps_reach_trans|].
      destruct Hstep2 as [|Hpos2]; [by left|right]. rewrite Hpos2, Hq1, Hq.
      assert ((q + 1) / 512 = q / 512) as -> by zdiv. done.
Qed.

Lemma iterations_idx k v : (idx k v + iterations k v = 512)%nat.
Proof.
  unfold iterations, idx, kNumOfEntries. rewrite addr2index_eq. change (Z.of_nat 512) with 512.
  pose proof (Z.mod_pos_bound (v / 2 ^ kIndexShift k) 512). lia.
Qed.

Lemma pos_aligned c : pos c mod 4096 = 0.
Proof. unfold pos, low. pow_consts. zdiv. Qed.
Lemma paddr_aligned own c : inv own c -> m_paddr c mod 4096 = 0.
Proof. intros H. rewrite (inv_paddr _ _ H). zdiv. Qed.

Lemma pt_body_ok own pt c :
  inv own c -> m_pages c <> 0 -> reach w root (m_tables c) (m_vaddr c) PTE pt ->
  ok_step 0 (2 ^ 12) c (do c <- set_page mask pt PTE attr c; Done (advance (Z.shiftl 1 12) 1 c)).
Proof.
  intros Hinv Hnz Hr. pose proof (inv_pages _ _ Hinv).
  destruct (set_page_ok own pt PTE c) as (c' & -> & Hinv' & Hk & Hp);
    [done|done|done|change (page_count PTE) with 1; lia|done|apply pos_aligned|by eapply paddr_aligned|].
  cbn [rbind]. exists own. split; [exact Hinv'|]. split; [exact Hk|by right].
Qed.

Lemma pt_loop_ok own pt c :
  inv own c -> reach w root (m_tables c) (m_vaddr c) PTE pt ->
  ok_step 0 (2 ^ 21) c (pt_loop mask (iterations PTE (m_vaddr c)) pt attr c).
Proof.
  intros Hinv Hr.
  apply (level_loop_ok PTE pt (fun j c => pt_loop mask j pt attr c)
    (fun c => do c <- set_page mask pt PTE attr c; Done (advance (Z.shiftl 1 12) 1 c))) with (own := own).
  - done.
  - intros j c0. cbn [pt_loop]. destruct (m_pages c0 =? 0); [done|].
    by destruct (set_page mask pt PTE attr c0).
  - intros own' c' ? ? ?. by eapply pt_body_ok.
  - done.
  - intros _. split; [done|apply iterations_idx].
Qed.

(** *** Going down one level *)

Lemma page_translates k t x m e :
  reach w root m x k t -> read_entry m t k x = Done e -> IsPresent e = true -> IsPage k e = true ->
  v2p mask m root x <> Done kAddrCannotTranslate.
Proof.
  intros Hr Hrd Hp Hg. rewrite (reach_v2p _ _ _ _ _ _ Hr), (v2p_from_unfold _ _ _ _ _ _ _ Hrd), Hp, Hg.
  cbn [negb]. intros [= E]. apply (f_equal (fun v => Z.testbit v 63)) in E. pose proof (shift_range k).
  unfold GetPageBaseAddr in E.
  rewrite Z.lor_spec, (Z.land_spec e), (page_mask_bit w Hw), (Z.land_spec x), kOffsetMask_pow, testbit_mask in E by lia.
  zcmp_in E. zcmp_in E. zcmp_in E. by rewrite !andb_false_r in E.
Qed.

Lemma descend_ok own t k c :
  k <> PTE -> inv own c -> reach w root (m_tables c) (m_vaddr c) k t ->
  match ensure_table mask AllocPage t k attr c with
  | Stop s => stop_ok s
  | Done c1 => exists c2 e own', set_attr t k attr c1 = Done c2 /\
      read_entry (m_tables c2) t k (m_vaddr c2) = Done e /\ inv own' c2 /\
      keeps_reach (depth k) (m_tables c) (m_tables c2) /\ m_pages c2 = m_pages c /\
      (IsPage k e = true -> m_pages c2 <> 0 -> stop_ok Panic) /\
      (IsPage k e = false -> reach w root (m_tables c2) (m_vaddr c2) (next_kind k) (GetTableAddr mask k e))
  end.
Proof.
  intros Hk Hinv Hr. pose proof (ensure_table_ok own t k c Hk Hinv Hr) as H1.
  destruct (ensure_table mask AllocPage t k attr c) as [c1|s]; [|done].
  destruct H1 as (own1 & Hinv1 & Hk1 & Hv1 & Hp1 & e & Hrd1 & Hpr1).
  assert (reach w root (m_tables c1) (m_vaddr c1) k t) as Hr1 by (rewrite Hv1; by apply Hk1).
  destruct (set_attr_ok own1 t k c1 e Hinv1 Hr1 Hrd1 Hpr1) as (c2 & Hs & Hinv2 & Hk2 & Hv2 & Hp2 & Hrd2).
  destruct (SetAttr_spec w Hw k attr e Hattr Hpr1) as (Hpr2 & _).
  assert (reach w root (m_tables c2) (m_vaddr c2) k t) as Hr2 by (rewrite Hv2; by apply Hk2).
  exists c2, (SetAttr attr e), own1. rewrite Hv2. split_and!; try done; [by eapply keeps_reach_trans|congruence| |].
  - intros Hg Hnz. right. split; [done|]. exists (m_vaddr c2).
    destruct (inv_cur _ _ Hinv2 Hnz) as [Hl _]. pose proof (inv_pages _ _ Hinv2).
    split; [unfold pos in Hl; lia|]. rewrite <- (inv_unmapped _ _ Hinv2 Hnz).
    eapply page_translates; [exact Hr2|by rewrite Hv2|done|done].
  - intros Hg. rewrite <- Hv2. eapply reach_down; [done|by rewrite Hv2|done|done].
Qed.

Lemma ok_step_lift d d' size c c1 r :
  (d <= d')%nat -> keeps_reach d' (m_tables c) (m_tables c1) -> m_pages c1 = m_pages c ->
  ok_step d size c1 r -> ok_step d' size c r.
Proof.
  intros Hd Hk Hp H. destruct r as [c2|s]; [|done]. destruct H as (own & Hinv & Hk2 & Hs).
  exists own. split; [done|]. split; [by eapply keeps_reach_trans, keeps_reach_weaken|].
  unfold pos in *. by rewrite <- Hp.
Qed.

Lemma pdt_body_ok own pdt c :
  inv own c -> m_pages c <> 0 -> reach w root (m_tables c) (m_vaddr c) PDE pdt ->
  ok_step 1 (2 ^ 21) c (pdt_body mask AllocPage pdt attr c).
Proof.
  intros Hinv Hnz Hr. unfold pdt_body.
  destruct (own_read w root own _ pdt PDE _ (m_vaddr c) (inv_wf _ _ Hinv) (reach_own w root own _ _ _ _ (inv_wf _ _ Hinv) Hr))
    as (es & e & Hes & Hok & He & ->). cbn [rbind].
  destruct (_ && _ && _ && _) eqn:E2m.
  - rewrite !andb_true_iff, Z.leb_le, !kOffsetMask_pow, !land_mask_mod, !Z.eqb_eq in E2m by (simpl; lia).
    destruct E2m as [[[_ Hn] Hva] Hpa]. destruct (inv_cur _ _ Hinv Hnz) as [Hlow _].
    destruct (set_page_ok own pdt PDE c) as (c' & -> & Hinv' & Hk & Hp); [done|done|done|exact Hn|done| |done|].
    { rewrite <- Hlow, low_mod_shift. done. }
    cbn [rbind]. exists own. split; [exact Hinv'|]. split; [exact Hk|by right].
  - pose proof (descend_ok own pdt PDE c ltac:(done) Hinv Hr) as Hd.
    destruct (ensure_table mask AllocPage pdt PDE attr c) as [c1|s]; [|done]. cbn [rbind].
    destruct Hd as (c2 & e2 & own2 & -> & Hrd & Hinv2 & Hk2 & Hp2 & Hpanic & Hdown). cbn [rbind].
    rewrite Hrd. cbn [rbind]. destruct (IsPage PDE e2); [apply Hpanic; congruence|].
    apply (ok_step_lift 0 1 _ c c2); [lia|done|done|]. by eapply pt_loop_ok, Hdown.
Qed.

Lemma pdt_loop_ok own pdt c :
  inv own c -> reach w root (m_tables c) (m_vaddr c) PDE pdt ->
  ok_step 1 (2 ^ 30) c (pdt_loop mask AllocPage (iterations PDE (m_vaddr c)) pdt attr c).
Proof.
  intros Hinv Hr.
  apply (level_loop_ok PDE pdt (fun j c => pdt_loop mask AllocPage j pdt attr c)
    (fun c => pdt_body mask AllocPage pdt attr c)) with (own := own); [done|done| |done|].
  - intros own' c' ? ? ?. by eapply pdt_body_ok.
  - intros _. split; [done|apply iterations_idx].
Qed.

Lemma pdpt_body_ok own pdpt c :
  inv own c -> m_pages c <> 0 -> reach w root (m_tables c) (m_vaddr c) PDPTE pdpt ->
  ok_step 2 (2 ^ 30) c (pdpt_body mask AllocPage pdpt attr c).
Proof.
  intros Hinv Hnz Hr. unfold pdpt_body. pose proof (descend_ok own pdpt PDPTE c ltac:(done) Hinv Hr) as Hd.
  destruct (ensure_table mask AllocPage pdpt PDPTE attr c) as [c1|s]; [|done]. cbn [rbind].
  destruct Hd as (c2 & e2 & own2 & -> & Hrd & Hinv2 & Hk2 & Hp2 & Hpanic & Hdown). cbn [rbind].
  rewrite Hrd. cbn [rbind]. destruct (IsPage PDPTE e2); [apply Hpanic; congruence|].
  apply (ok_step_lift 1 2 _ c c2); [lia|done|done|]. by eapply pdt_loop_ok, Hdown.
Qed.

Lemma pdpt_loop_ok own pdpt c :
  inv own c -> reach w root (m_tables c) (m_vaddr c) PDPTE pdpt ->
  ok_step 2 (2 ^ 39) c (pdpt_loop mask AllocPage (iterations PDPTE (m_vaddr c)) pdpt attr c).
Proof.
  intros Hinv Hr.
  apply (level_loop_ok PDPTE pdpt (fun j c => pdpt_loop mask AllocPage j pdpt attr c)
    (fun c => pdpt_body mask AllocPage pdpt attr c)) with (own := own); [done|done| |done|].
  - intros own' c' ? ? ?. by eapply pdpt_body_ok.
  - intros _. split; [done|apply iterations_idx].
Qed.

Lemma pml4_body_ok own c :
  inv own c -> ok_step 3 (2 ^ 39) c (pml4_body mask AllocPage root attr c).
Proof.
  intros Hinv. unfold pml4_body.
  pose proof (descend_ok own root PML4E c ltac:(done) Hinv ltac:(constructor)) as Hd.
  destruct (ensure_table mask AllocPage root PML4E attr c) as [c1|s]; [|done]. cbn [rbind].
  destruct Hd as (c2 & e2 & own2 & -> & Hrd & Hinv2 & Hk2 & Hp2 & _ & Hdown). cbn [rbind].
  rewrite Hrd. cbn [rbind]. apply (ok_step_lift 2 3 _ c c2); [lia|done|done|].
  by eapply pdpt_loop_ok, Hdown.
Qed.

(** The outer loop does not stop when the pages are mapped; what it still does
    changes no translation. *)
Lemma pml4_loop_ok j own c :
  inv own c -> (m_pages c <> 0 -> (idx PML4E (m_vaddr c) + j = 512)%nat) ->
  match pml4_loop mask AllocPage j root attr c with
  | Done c' => exists own', inv own' c' /\ m_pages c' = 0
  | Stop e => stop_ok e
  end.
Proof.
  revert own c. induction j as [|j IH]; intros own c Hinv Hpre.
  - exists own. split; [done|]. destruct (Z.eq_dec (m_pages c) 0) as [|Hnz]; [done|].
    pose proof (idx_lt PML4E (m_vaddr c)). specialize (Hpre Hnz). lia.
  - cbn [pml4_loop]. pose proof (pml4_body_ok own c Hinv) as Hb.
    destruct (pml4_body mask AllocPage root attr c) as [c1|s]; [|done]. cbn [rbind].
    destruct Hb as (own1 & Hinv1 & _ & Hstep). apply (IH own1 c1 Hinv1). intros Hnz1.
    destruct Hstep as [|Hpos]; [done|].
    assert (m_pages c <> 0) as Hnz by (intros Hz; unfold pos in Hpos; pose proof (inv_pages _ _ Hinv1);
      pose proof (low_range v0); rewrite Hz in Hpos; zdiv).
    specialize (Hpre Hnz). pose proof (idx_pos own PML4E c Hinv Hnz) as E.
    pose proof (idx_pos own1 PML4E c1 Hinv1 Hnz1) as E1.
    destruct (inv_cur _ _ Hinv1 Hnz1) as [_ Hr1]. destruct (inv_cur _ _ Hinv Hnz) as [_ Hr].
    simpl kIndexShift in *. pow_consts. zdiv.
Qed.
End Create.

(** ** The physical page allocator is such a source *)

Section PhysSource.
Context (w : Z) (Hw : 39 <= w <= 52) (fuel : nat).
#[local] Existing Instance UsePhysicalAddressInternallyStrategy.
#[local] Existing Instance physical_laws.

Definition AllocOne (a : allocator) : res (Z * allocator) := AllocPages fuel 1 a.
Definition below_mask (l : list region) : Prop := Forall (fun r => r_addr r + 4096 * r_pages r <= 2 ^ w) l.
Definition phys_ok (a : allocator) (free : list region) (held : list block) : Prop :=
  state_ok a free held /\ (length free < fuel)%nat /\ below_mask free.
(** A page of a free region that is not its header page. *)
Definition phys_avail (a : allocator) (t : Z) : Prop :=
  exists free held, phys_ok a free held /\
    exists r i, In r free /\ 1 <= i < r_pages r /\ t = r_addr r + 4096 * i.

Lemma chain_functional hs p l1 l2 : chain hs p l1 -> chain hs p l2 -> l1 = l2.
Proof.
  revert p l2. induction l1 as [|r l1 IH]; intros p [|r2 l2] H1 H2; simpl in *; try done.
  - destruct H2 as (E & _ & [? _] & _). lia.
  - destruct H1 as (E & _ & [? _] & _). lia.
  - destruct H1 as (-> & _ & _ & nx1 & Hl1 & Hc1), H2 as (E & _ & _ & nx2 & Hl2 & Hc2).
    rewrite Hl1 in Hl2. injection Hl2 as Ep En Ed. destruct r, r2. simpl in *. subst. f_equal. by eapply IH.
Qed.

Lemma phys_block_law n a t a' :
  0 <= n -> (exists free held, phys_ok a free held) -> AllocPages fuel n a = Done (t, a') ->
  (exists free held, phys_ok a' free held) /\ 0 < t /\ t mod 4096 = 0 /\ t + 4096 * n <= 2 ^ w /\
  (forall i, 0 <= i < n -> phys_avail a (t + 4096 * i) /\ ~ phys_avail a' (t + 4096 * i)) /\
  (forall u, phys_avail a' u -> phys_avail a u).
Proof.
  intros Hn (free & held & Hok & Hf & Hb) E. unfold AllocPages in E.
  apply rbind_Done in E as ([addr hs] & E & Ed). injection Ed as <- <-.
  destruct (alloc_keeps fuel (fun _ => true) n a free held Hok Hn Hf)
    as [(l1 & r & l2 & hs' & -> & Hs & E' & Hok')|[_ E']].
  2:{ rewrite E in E'. discriminate E'. }
  rewrite E in E'. injection E' as -> ->. unfold serves in Hs. simpl in Hs. apply Z.ltb_lt in Hs.
  assert (In r (l1 ++ r :: l2)) as Hin by (apply in_or_app; right; by left).
  assert (region_ok r) as (Ha & Hal & Hp & Htop).
  { pose proof (chain_ok _ _ _ (st_chain _ _ _ Hok)) as H. rewrite List.Forall_forall in H. by apply H. }
  unfold below_mask in Hb. pose proof Hb as Hb'. rewrite List.Forall_forall in Hb'. specialize (Hb' r Hin).
  assert (phys_ok (Allocator hs' (head_phys_addr_ a)) (l1 ++ provide n r :: l2) (taken n r :: held)) as Hphys'.
  { split; [done|]. rewrite length_app in *. simpl in *. split; [lia|].
    apply List.Forall_app in Hb as [Hb1 Hb2]. apply List.Forall_cons_iff in Hb2 as [Hb2 Hb3].
    apply List.Forall_app. split; [done|]. constructor; [simpl; lia|done]. }
  simpl. split; [eauto|]. split; [lia|]. split; [zdiv|]. split; [lia|]. split.
  - intros i Hi. split.
    + exists (l1 ++ r :: l2), held. split; [done|]. exists r, (r_pages r - n + i). split_and!; [done|lia|lia|lia].
    + intros (free2 & held2 & (Hok2 & _ & _) & r2 & j & Hin2 & Hj & Et).
      rewrite (chain_functional _ _ _ _ (st_chain _ _ _ Hok2) (st_chain _ _ _ Hok')) in Hin2.
      pose proof (st_disj _ _ _ Hok') as Hd.
      assert (pairwise_disj (taken n r :: map block_of (l1 ++ provide n r :: l2) ++ held)) as [Hd' _].
      { eapply (pairwise_disj_perm _ _); [|exact Hd]. apply Permutation.Permutation_middle. }
      rewrite List.Forall_forall in Hd'. specialize (Hd' (block_of r2)).
      unfold disj, block_of, taken in Hd'. simpl in Hd', Et.
      destruct Hd'; [apply in_or_app; left; by apply (in_map block_of)|lia|lia].
  - intros u (free2 & held2 & (Hok2 & _ & _) & r2 & i & Hin2 & Hi & Et).
    rewrite (chain_functional _ _ _ _ (st_chain _ _ _ Hok2) (st_chain _ _ _ Hok')) in Hin2.
    exists (l1 ++ r :: l2), held. split; [done|].
    apply in_app_or in Hin2 as [Hin2|[<-|Hin2]].
    + exists r2, i. split_and!; [apply in_or_app; by left|lia|lia|done].
    + exists r, i. simpl in *. split_and!; [done|lia|lia|done].
    + exists r2, i. split_and!; [apply in_or_app; right; by right|lia|lia|done].
Qed.

Lemma phys_alloc_law a t a' :
  (exists free held, phys_ok a free held) -> AllocOne a = Done (t, a') ->
  (exists free held, phys_ok a' free held) /\ phys_avail a t /\ table_addr w t /\
  ~ phys_avail a' t /\ (forall u, phys_avail a' u -> phys_avail a u).
Proof.
  intros Ha E. destruct (phys_block_law 1 a t a' ltac:(lia) Ha E) as (Ha' & Ht & Hal & Htop & Hp & Hu).
  destruct (Hp 0 ltac:(lia)) as [H0 H1]. replace (t + 4096 * 0) with t in H0, H1 by lia.
  split_and!; [done|done|split; [lia|done]|done|done].
Qed.

#[export] Instance phys_source : PageSource w AllocOne := {
  source_ok a := exists free held, phys_ok a free held;
  avail := phys_avail;
  alloc_page_law := phys_alloc_law;
}.
#[export] Instance phys_blocks : BlockSource w (AllocPages fuel) := {
  block_page := phys_source;
  alloc_block_law := phys_block_law;
}.
End PhysSource.

(** ** Correctness *)

Section Correct.
Context (w : Z) (Hw : 39 <= w <= 52) (root : Z).
Context {A : Type} (AllocPage : A -> res (Z * A)) {PS : PageSource w AllocPage}.
Abbreviation mask := (2 ^ w - 1).

(** The tables at [m] form a tree that the allocator [a] knows nothing of. *)
Definition tables_ok (m : tables) (a : A) : Prop :=
  exists own, wf_tree w root own m /\ source_ok a /\ (forall t, avail a t -> own t = None).

Lemma CreatePageMapping_ok m a vaddr paddr byte_size attr :
  attr_ok attr -> tables_ok m a ->
  vaddr mod 4096 = 0 -> paddr mod 4096 = 0 -> 0 <= paddr ->
  let n := ByteSizeToPageSize byte_size in
  low vaddr + 4096 * n <= 2 ^ 48 -> paddr + 4096 * n <= 2 ^ w -> 0 <= n ->
  match CreatePageMapping mask AllocPage m a root vaddr paddr byte_size attr with
  | Done (m', a') =>
    tables_ok m' a' /\
    (forall x, low vaddr <= low x < low vaddr + 4096 * n ->
       v2p mask m' root x = Done (paddr + (low x - low vaddr))) /\
    (forall x, ~ (low vaddr <= low x < low vaddr + 4096 * n) ->
       v2p mask m' root x = v2p mask m root x)
  | Stop e =>
    (exists a, source_ok a /\ AllocPage a = Stop e) \/
    (e = Panic /\ exists x, low vaddr <= low x < low vaddr + 4096 * n /\
       v2p mask m root x <> Done kAddrCannotTranslate)
  end.
Proof.
  intros Hattr (own & Hwf & Hs & Hav) Hva Hpa Hp n Hfit Hphys Hn. unfold CreatePageMapping.
  change kPageAddrMask with (2 ^ 12 - 1). rewrite !land_mask_mod by lia. change (2 ^ 12) with 4096.
  rewrite Hva, Hpa. cbn [Z.eqb kassert rbind]. fold n.
  set (c0 := Mapping m a vaddr paddr n).
  assert (inv w root AllocPage m vaddr paddr n own c0) as Hinv.
  { pose proof (low_range vaddr). split; cbn [c0 m_tables m_alloc m_vaddr m_paddr m_pages]; try done.
    - unfold pos. cbn [c0 m_pages]. rewrite Z.sub_diag, Z.mul_0_r, Z.add_0_r, Z.mod_small; [done|lia].
    - lia.
    - intros x Hx. unfold mapped, pos in Hx. cbn [c0 m_pages] in Hx. lia. }
  pose proof (pml4_loop_ok w Hw root AllocPage attr Hattr m vaddr paddr n Hva Hpa ltac:(lia) ltac:(lia)
    (iterations PML4E vaddr) own c0 Hinv ltac:(intros _; exact (iterations_idx w Hw PML4E vaddr))) as H.
  destruct (pml4_loop _ _ _ _ _ _) as [c'|e]; [|exact H]. cbn [rbind].
  destruct H as (own' & Hinv' & Hz).
  split; [exists own'; split_and!; apply Hinv'|].
  assert (forall x, mapped vaddr n c' x <-> low vaddr <= low x < low vaddr + 4096 * n) as Hm.
  { intros x. unfold mapped, pos. rewrite Hz. replace (n - 0) with n by lia. done. }
  split; intros x Hx; [apply (inv_done _ _ _ _ _ _ _ _ _ Hinv')|apply (inv_rest _ _ _ _ _ _ _ _ _ Hinv')]; by rewrite Hm.
Qed.

(** C1: [CreatePageMapping] maps the range it is given and nothing else.  When
    it returns, every address of the range translates to its place in the
    physical range, every other address translates as before, and the tables
    are again a tree apart from the allocator's memory; it stops only when the
    allocator does, or, with a panic, when an address of the range was already
    mapped (by a large page). *)
Theorem CreatePageMapping_correct m a vaddr paddr byte_size attr :
  attr_ok attr -> tables_ok m a ->
  vaddr mod 4096 = 0 -> paddr mod 4096 = 0 -> 0 <= paddr ->
  let n := ByteSizeToPageSize byte_size in
  low vaddr + 4096 * n <= 2 ^ 48 -> paddr + 4096 * n <= 2 ^ w -> 0 <= n ->
  match CreatePageMapping mask AllocPage m a root vaddr paddr byte_size attr with
  | Done (m', a') =>
    tables_ok m' a' /\
    (forall x, low vaddr <= low x < low vaddr + 4096 * n ->
       v2p mask m' root x = Done (paddr + (low x - low vaddr))) /\
    (forall x, ~ (low vaddr <= low x < low vaddr + 4096 * n) ->
       v2p mask m' root x = v2p mask m root x)
  | Stop e =>
    (exists a, source_ok a /\ AllocPage a = Stop e) \/
    (e = Panic /\ exists x, low vaddr <= low x < low vaddr + 4096 * n /\
       v2p mask m root x <> Done kAddrCannotTranslate)
  end.
Proof. intros. by apply CreatePageMapping_ok. Qed.
End Correct.

(** ** The tables of a new process

    A cleared root table that takes over the upper half of the kernel's. *)
Section UserTables.
Context (w : Z) (Hw : 39 <= w <= 52) (kroot : Z).
Context {A : Type} (AllocPage : A -> res (Z * A)) {PS : PageSource w AllocPage}.
Abbreviation mask := (2 ^ w - 1).

Definition user_owner (own : owner) (t : Z) : owner := fun t' =>
  if t' =? t then Some (PML4E, [])
  else match own t' with Some (k, i :: p) => if (256 <=? i)%nat then Some (k, i :: p) else None | _ => None end.

Lemma idx_half x : (256 <= idx PML4E x)%nat <-> 2 ^ 47 <= low x.
Proof. unfold idx. rewrite addr2index_eq. unfold low. simpl kIndexShift. pow_consts. zdiv. Qed.

Definition user_entries (es : list Z) : list Z := replicate 256 0 ++ drop 256 es.
Lemma user_entries_lookup es i :
  length es = 512%nat -> (i < 512)%nat -> user_entries es !! i = if (256 <=? i)%nat then es !! i else Some 0.
Proof.
  intros Hl Hi. unfold user_entries. destruct (Nat.leb_spec 256 i).
  - rewrite lookup_app_r by (by rewrite length_replicate). rewrite length_replicate, lookup_drop. f_equal. lia.
  - rewrite lookup_app_l by (by rewrite length_replicate). by apply lookup_replicate_2.
Qed.

Lemma user_tree own m t es :
  wf_tree w kroot own m -> own t = None -> m !! kroot = Some es -> length es = 512%nat ->
  wf_tree w t (user_owner own t) (<[t := user_entries es]> m).
Proof.
  intros [Hroot Htab] Ht Hes Hl. unfold user_owner. split; [by rewrite Z.eqb_refl|].
  assert (forall t' k i p, own t' = Some (k, i :: p) -> (256 <= i)%nat -> user_owner own t t' = Some (k, i :: p)) as Hup.
  { intros t' k i p E Hi. unfold user_owner. destruct (Z.eqb_spec t' t) as [->|]; [congruence|]. rewrite E. by destruct (Nat.leb_spec 256 i); [|lia]. }
  intros t' k path. destruct (Z.eqb_spec t' t) as [->|Hne].
  - intros [= <- <-]. rewrite lookup_insert_eq. eexists. split; [done|]. split.
    { unfold user_entries. rewrite length_app, length_replicate, length_drop. lia. }
    intros i e Hi Hp Hg. assert (i < 512)%nat by (apply lookup_lt_Some in Hi; unfold user_entries in Hi;
      rewrite length_app, length_replicate, length_drop in Hi; lia).
    rewrite user_entries_lookup in Hi by done. destruct (Nat.leb_spec 256 i); [|by injection Hi as <-].
    destruct (Htab _ _ _ Hroot) as (es' & E & _ & Hch). rewrite Hes in E. injection E as <-. apply Hup; [by apply Hch|done].
  - destruct (own t') as [[k' [|i p]]|] eqn:E; try done. destruct (Nat.leb_spec 256 i); [|done]. intros [= <- <-].
    destruct (Htab _ _ _ E) as (es' & E' & Hl' & Hch). rewrite lookup_insert_ne by done. exists es'. split; [done|]. split; [done|].
    intros j e Hj Hp Hg. apply (Hup _ _ i (p ++ [j])); [by apply Hch|done].
Qed.

Lemma new_user_tables m a t a' :
  tables_ok w kroot AllocPage m a -> AllocPage a = Done (t, a') ->
  exists m', SetKernelPageEntries (ClearMapping t m) kroot t = Done m' /\ tables_ok w t AllocPage m' a' /\
    (forall x, low x < 2 ^ 47 -> v2p mask m' t x = Done kAddrCannotTranslate) /\
    (forall x, 2 ^ 47 <= low x -> v2p mask m' t x = v2p mask m kroot x).
Proof.
  intros (own & Hwf & Hs & Hav) E. destruct (alloc_page_law _ _ _ Hs E) as (Hs' & Ht & _ & Hnt & Hu). pose proof (Hav _ Ht) as Hown.
  destruct (wt_table _ _ _ _ Hwf _ _ _ (wt_root _ _ _ _ Hwf)) as (es & Hes & Hl & Hch).
  assert (kroot <> t) by (intros ->; rewrite (wt_root _ _ _ _ Hwf) in Hown; done).
  exists (<[t := user_entries es]> m). split.
  { unfold SetKernelPageEntries, ClearMapping. rewrite lookup_insert_ne, Hes, lookup_insert_eq by done. cbn [deref rbind].
    rewrite insert_insert_eq. done. }
  pose proof (user_tree own m t es Hwf Hown Hes Hl) as Hwf'.
  split. { exists (user_owner own t). split; [done|]. split; [done|]. intros u Hu'. unfold user_owner.
    destruct (Z.eqb_spec u t) as [->|]; [done|]. by rewrite (Hav _ (Hu _ Hu')). }
  assert (forall x, read_entry (<[t := user_entries es]> m) t PML4E x = deref (user_entries es !! idx PML4E x)) as Hrd.
  { intros x. unfold read_entry. by rewrite lookup_insert_eq. }
  split; intros x Hx; unfold v2p.
  - pose proof (idx_half x). pose proof (idx_lt PML4E x).
    rewrite (v2p_from_unfold _ _ _ _ _ _ 0); [done|]. rewrite Hrd, user_entries_lookup by done. by destruct (Nat.leb_spec 256 (idx PML4E x)); [lia|].
  - apply idx_half in Hx. pose proof (idx_lt PML4E x).
    destruct (own_read w kroot own m kroot PML4E _ x Hwf (wt_root _ _ _ _ Hwf)) as (es' & e & E' & _ & He & Hk).
    rewrite Hes in E'. injection E' as <-.
    assert (read_entry (<[t := user_entries es]> m) t PML4E x = Done e) as Hk'.
    { rewrite Hrd, user_entries_lookup by done. destruct (Nat.leb_spec 256 (idx PML4E x)); [|lia]. by rewrite He. }
    rewrite (v2p_from_unfold _ _ _ _ _ _ _ Hk), (v2p_from_unfold _ _ _ _ _ _ _ Hk').
    destruct (IsPresent e) eqn:Ep; [|done]. destruct (IsPage PML4E e) eqn:Eg; [done|]. cbn [negb].
    apply (insert_frame w kroot own); [done|done|]. apply (Hch _ _ He Ep Eg).
Qed.
End UserTables.

(** An empty page table at 4096, 300 free pages at 1 MiB. *)
Definition demo_pages : allocator := Allocator {[1048576 := Info 300 0 0]} 1048576.
Definition demo_tables : tables := {[4096 := replicate 512 0]}.
Lemma demo_pages_ok : exists free held, phys_ok 40 9 demo_pages free held.
Proof.
  exists [Region 1048576 300 0], []. split; [|split; [simpl; lia|by repeat constructor]].
  split; [|repeat constructor|reflexivity].
  split; [done|split; [done|split; [repeat split; reflexivity|eexists; split; [reflexivity|done]]]].
Qed.
Lemma demo_tables_ok : tables_ok 40 4096 (AllocOne 9) (PS := phys_source 40 ltac:(lia) 9) demo_tables demo_pages.
Proof.
  exists (fun t => if t =? 4096 then Some (PML4E, []) else None). split; [|split; [apply demo_pages_ok|]].
  - split; [done|]. intros t k path. destruct (Z.eqb_spec t 4096) as [->|]; [|done]. intros [= <- <-].
    exists (replicate 512 0). split; [reflexivity|]. split; [by rewrite length_replicate|].
    intros i e Hi. apply lookup_replicate in Hi as [-> _]. done.
  - intros t (free & held & (Hok & _ & _) & r & i & Hin & Hi & ->).
    assert (@chain _ physical_laws (headers demo_pages) (head_phys_addr_ demo_pages) [Region 1048576 300 0]) as Hc.
    { split; [done|split; [done|split; [repeat split; reflexivity|eexists; split; [reflexivity|done]]]]. }
    rewrite (chain_functional _ _ _ _ (st_chain _ _ _ Hok) Hc) in Hin. destruct Hin as [<-|[]].
    simpl in *. destruct (Z.eqb_spec (1048576 + 4096 * i) 4096); [lia|done].
Qed.

(** Two 4 KiB pages at 1 GiB + 2 MiB - 4 KiB, over the end of a table. *)
Lemma CreatePageMapping_correct_witness :
  match CreatePageMapping (2 ^ 40 - 1) (AllocOne 9) demo_tables demo_pages 4096
          1075834880 8192 8192 3 with
  | Done (m', _) =>
    v2p (2 ^ 40 - 1) m' 4096 (1075834880 + 5000) = Done (8192 + 5000) /\
    v2p (2 ^ 40 - 1) m' 4096 0 = v2p (2 ^ 40 - 1) demo_tables 4096 0
  | Stop _ => False
  end.
Proof.
  pose proof (CreatePageMapping_correct 40 ltac:(lia) 4096 (AllocOne 9) (PS := phys_source 40 ltac:(lia) 9)
    demo_tables demo_pages 1075834880 8192 8192 3 ltac:(split; [lia|reflexivity]) demo_tables_ok
    ltac:(reflexivity) ltac:(reflexivity) ltac:(lia) ltac:(vm_compute; congruence) ltac:(vm_compute; congruence)
    ltac:(vm_compute; congruence)) as H.
  destruct (CreatePageMapping (2 ^ 40 - 1) (AllocOne 9) demo_tables demo_pages 4096 1075834880 8192 8192 3)
    as [[m' a']|e] eqn:E.
  - destruct H as (_ & H1 & H2). split; [apply (H1 (1075834880 + 5000))|apply (H2 0)];
      vm_compute; intuition congruence.
  - exfalso. assert (exists r, CreatePageMapping (2 ^ 40 - 1) (AllocOne 9) demo_tables demo_pages 4096
      1075834880 8192 8192 3 = Done r) as [r Hr] by (eexists; vm_compute; reflexivity).
    rewrite E in Hr. discriminate Hr.
Defined.
