(* ===== verification/Scheduler.v ===== *)
(** * Processes and the scheduler: [src/process.h], [src/process.cc],
    [src/process_lock.h], [src/process_lock.cc], [src/scheduler.h],
    [src/scheduler.cc]

    Processes live in a store; a [Process*] is a key of it.  The scheduler keeps
    an array of pointers, the number of entries in use and the current process. *)

From S2P Require Import Prelude KernelBase.

(** ** Processes *)

Inductive Status := kNotInitialized | kNotScheduled | kSleeping | kRunning | kStopping | kStopped.
#[global] Instance Status_eq_dec : EqDecision Status.
Proof. solve_decision. Defined.

(** [ctx_] and [pp_info_] are pointers; [None] is null. *)
Record Process := MkProcess {
  id_ : Z;
  name_ : Z;
  status_ : Status;
  scheduler_index_ : Z;
  ctx_ : option Z;
  pp_info_ : option Z;
  number_of_ctx_switch_ : Z;
  proc_time_femto_sec_ : Z;
  sys_time_femto_sec_ : Z;
  copied_bytes_in_ctx_sw_ : Z;
  num_of_clflush_issued_in_ctx_sw_ : Z;
  time_consumed_in_ctx_save_femto_sec_ : Z;
  stdin_buffer_ : RingBuffer.ring (T := Z);
}.

(** The constructor; [scheduler_index_] is left as it was. *)
Definition new_Process (id name garbage : Z) (stdin : list Z) : Process :=
  MkProcess id name kNotInitialized garbage None None 0 0 0 0 0 0 (RingBuffer.new stdin).

Definition SetStatus (s : Status) (p : Process) : Process :=
  MkProcess (id_ p) (name_ p) s (scheduler_index_ p) (ctx_ p) (pp_info_ p)
    (number_of_ctx_switch_ p) (proc_time_femto_sec_ p) (sys_time_femto_sec_ p)
    (copied_bytes_in_ctx_sw_ p) (num_of_clflush_issued_in_ctx_sw_ p)
    (time_consumed_in_ctx_save_femto_sec_ p) (stdin_buffer_ p).
Definition SetSchedulerIndex (i : Z) (p : Process) : Process :=
  MkProcess (id_ p) (name_ p) (status_ p) i (ctx_ p) (pp_info_ p)
    (number_of_ctx_switch_ p) (proc_time_femto_sec_ p) (sys_time_femto_sec_ p)
    (copied_bytes_in_ctx_sw_ p) (num_of_clflush_issued_in_ctx_sw_ p)
    (time_consumed_in_ctx_save_femto_sec_ p) (stdin_buffer_ p).
Definition set_contexts (ctx pp : option Z) (p : Process) : Process :=
  MkProcess (id_ p) (name_ p) kNotScheduled (scheduler_index_ p) ctx pp
    (number_of_ctx_switch_ p) (proc_time_femto_sec_ p) (sys_time_femto_sec_ p)
    (copied_bytes_in_ctx_sw_ p) (num_of_clflush_issued_in_ctx_sw_ p)
    (time_consumed_in_ctx_save_femto_sec_ p) (stdin_buffer_ p).

Definition IsPersistent (p : Process) : res bool :=
  match ctx_ p with
  | Some _ => run kassert (bool_decide (pp_info_ p = None)); Done false
  | None => run kassert (bool_decide (pp_info_ p <> None)); Done true
  end.
Definition InitAsEphemeralProcess (ctx : Z) (p : Process) : res Process :=
  run kassert (bool_decide (status_ p = kNotInitialized));
  run kassert (bool_decide (ctx_ p = None));
  run kassert (bool_decide (pp_info_ p = None));
  Done (set_contexts (Some ctx) None p).
Definition InitAsPersistentProcess (pp_info : Z) (p : Process) : res Process :=
  run kassert (bool_decide (status_ p = kNotInitialized));
  run kassert (bool_decide (ctx_ p = None));
  run kassert (bool_decide (pp_info_ p = None));
  Done (set_contexts None (Some pp_info) p).

(** The message for processes that are not scheduled is not modelled. *)
Definition Process_Kill (p : Process) : Process :=
  match status_ p with
  | kNotInitialized | kNotScheduled => p
  | kSleeping => SetStatus kStopped p
  | kRunning => SetStatus kStopping p
  | kStopping | kStopped => p
  end.

(** ** The lock *)

Record lock := Lock_ { locked_by_pid_ : Z }.

(** [CompareAndExchange64(&locked_by_pid_, 0, pid)]: 0 on success; otherwise it
    times out, and so do the three attempts, and the kernel panics. *)
Definition Lock (is_multi_task_enabled : bool) (pid : Z) (l : lock) : res lock :=
  if negb is_multi_task_enabled then Done l
  else if locked_by_pid_ l =? 0 then Done (Lock_ pid) else Stop Panic.
Definition Unlock (is_multi_task_enabled : bool) (l : lock) : lock :=
  if negb is_multi_task_enabled then l else Lock_ 0.

(** ** The scheduler *)

Definition kNumberOfProcess : nat := 256.

(** [process_] is the array, [None] a null pointer. *)
Record sched := Sched {
  procs : gmap nat Process;
  process_ : list (option nat);
  number_of_process_ : nat;
  current_ : nat;
  lock_ : lock;
  multi_task : bool;
}.

Definition set_procs (s : sched) (m : gmap nat Process) : sched :=
  Sched m (process_ s) (number_of_process_ s) (current_ s) (lock_ s) (multi_task s).
Definition set_lock (s : sched) (l : lock) : sched :=
  Sched (procs s) (process_ s) (number_of_process_ s) (current_ s) l (multi_task s).
Definition get (s : sched) (p : nat) : res Process := deref (procs s !! p).
Definition update (p : nat) (f : Process -> Process) (s : sched) : res sched :=
  do pr <- get s p; Done (set_procs s (<[p := f pr]> (procs s))).
(** A pointer in the array, dereferenced. *)
Definition slot (s : sched) (i : nat) : res nat :=
  do o <- deref (process_ s !! i); deref o.

Definition GetCurrentProcess (s : sched) : nat := current_ s.
Definition acquire (s : sched) : res sched :=
  do cur <- get s (current_ s);
  do l <- Lock (multi_task s) (id_ cur) (lock_ s);
  Done (set_lock s l).
Definition release (s : sched) : sched := set_lock s (Unlock (multi_task s) (lock_ s)).

(** The index of the first stopped process among the first [k] entries from [i] on. *)
Fixpoint find_stopped (k i : nat) (s : sched) : res (option nat) :=
  match k with
  | O => Done None
  | S k' =>
    do p <- slot s i;
    do pr <- get s p;
    if bool_decide (status_ pr = kStopped) then Done (Some i) else find_stopped k' (S i) s
  end.
Definition put_slot (i : nat) (p : nat) (s : sched) : sched :=
  Sched (procs s) (<[i := Some p]> (process_ s)) (number_of_process_ s) (current_ s) (lock_ s)
    (multi_task s).

Definition RegisterProcess (proc : nat) (s : sched) : res sched :=
  do s <- acquire s;
  run kassert (number_of_process_ s <? kNumberOfProcess)%nat;
  do pr <- get s proc;
  run kassert (bool_decide (status_ pr = kNotScheduled));
  do o <- find_stopped (number_of_process_ s) 0 s;
  match o with
  | Some i =>
    let s := put_slot i proc s in
    do s <- update proc (SetSchedulerIndex (Z.of_nat i)) s;
    do s <- update proc (SetStatus kSleeping) s;
    Done (release s)
  | None =>
    let n := number_of_process_ s in
    let s := put_slot n proc s in
    do s <- update proc (SetSchedulerIndex (Z.of_nat n)) s;
    let s := Sched (procs s) (process_ s) (S n) (current_ s) (lock_ s) (multi_task s) in
    do s <- update proc (SetStatus kSleeping) s;
    Done (release s)
  end.

(** The constructor: [root_process] is registered and runs. *)
Definition new_Scheduler (m : gmap nat Process) (array : list (option nat)) (l : lock) (mt : bool)
  (root : nat) : res sched :=
  do s <- RegisterProcess root (Sched m array 0 root l mt);
  update root (SetStatus kRunning) s.

(** The loop of [SwitchProcess] from [i] on, [k] iterations. *)
Fixpoint switch_loop (k i : nat) (base_index : Z) (s : sched) : res (option nat * sched) :=
  match k with
  | O => Done (None, s)
  | S k' =>
    do o <- deref (process_ s !! Z.to_nat (Z.rem (base_index + Z.of_nat i) (Z.of_nat (number_of_process_ s))));
    match o with
    | None => switch_loop k' (S i) base_index s
    | Some p =>
      do pr <- get s p;
      if bool_decide (status_ pr = kSleeping) then
        do cur <- get s (current_ s);
        do s <- (if bool_decide (status_ cur = kRunning) then update (current_ s) (SetStatus kSleeping) s
                 else if bool_decide (status_ cur = kStopping)
                 then update (current_ s) (SetStatus kStopped) s
                 else Done s);
        do s <- update p (SetStatus kRunning) s;
        Done (Some p, Sched (procs s) (process_ s) (number_of_process_ s) p (lock_ s) (multi_task s))
      else switch_loop k' (S i) base_index s
    end
  end.
Definition SwitchProcess (s : sched) : res (option nat * sched) :=
  do s <- acquire s;
  do cur <- get s (current_ s);
  do '(r, s) <- switch_loop (number_of_process_ s - 1) 1 (scheduler_index_ cur) s;
  Done (r, release s).

Definition KillCurrentProcess (s : sched) : res sched := update (current_ s) Process_Kill s.
(** A negative [id] is an index outside of the array. *)
Definition GetProcess (id : Z) (s : sched) : res (option nat) :=
  if Z.of_nat (number_of_process_ s) <=? id then Done None
  else if id <? 0 then Stop BadPointer
  else deref (process_ s !! Z.to_nat id).
Definition GetNumOfProcess (s : sched) : nat := number_of_process_ s.

Fixpoint kill_loop (k i : nat) (pid : Z) (s : sched) : res sched :=
  match k with
  | O => Done s
  | S k' =>
    do p <- slot s i;
    do pr <- get s p;
    if id_ pr =? pid then update p Process_Kill s else kill_loop k' (S i) pid s
  end.
Definition Kill (pid : Z) (s : sched) : res sched :=
  do s <- acquire s;
  do s <- kill_loop (number_of_process_ s) 0 pid s;
  Done (release s).

(** ** The process controller *)

(** [last_id_] and the store; [AllocPages] of the kernel heap gives the key. *)
Record proc_ctrl := ProcCtrl { last_id_ : Z; pc_procs : gmap nat Process }.
Definition Create (fresh : nat) (name garbage : Z) (stdin : list Z) (c : proc_ctrl) : nat * proc_ctrl :=
  let id := u64 (last_id_ c + 1) in
  (fresh, ProcCtrl id (<[fresh := new_Process id name garbage stdin]> (pc_procs c))).

(** ** Invariant *)

Definition active (st : Status) : bool :=
  match st with kRunning | kStopping => true | _ => false end.
Definition registered (st : Status) : bool :=
  match st with kNotInitialized | kNotScheduled => false | _ => true end.

(** The entry [i] of the array. *)
Definition entry (s : sched) (i p : nat) (pr : Process) : Prop :=
  (i < number_of_process_ s)%nat /\ process_ s !! i = Some (Some p) /\ procs s !! p = Some pr.

Record sched_ok (s : sched) : Prop := SchedOk {
  so_len : length (process_ s) = kNumberOfProcess;
  so_num : (number_of_process_ s <= kNumberOfProcess)%nat;
  so_slots : forall i, (i < number_of_process_ s)%nat -> exists p pr, entry s i p pr;
  so_index : forall i p pr, entry s i p pr -> scheduler_index_ pr = Z.of_nat i;
  so_status : forall i p pr, entry s i p pr -> registered (status_ pr) = true;
  so_active : forall i p pr, entry s i p pr -> active (status_ pr) = true <-> p = current_ s;
  so_current : exists i pr, entry s i (current_ s) pr;
}.

Lemma entry_inj s i j p pr qr : sched_ok s -> entry s i p pr -> entry s j p qr -> i = j /\ pr = qr.
Proof.
  intros Hok Hi Hj. pose proof (so_index _ Hok _ _ _ Hi). pose proof (so_index _ Hok _ _ _ Hj).
  destruct Hi as (_ & _ & Hi), Hj as (_ & _ & Hj). rewrite Hi in Hj. injection Hj as <-. split; [lia|done].
Qed.

Lemma acquire_ok s s' : acquire s = Done s' -> sched_ok s -> sched_ok s' /\ exists l, s' = set_lock s l.
Proof.
  unfold acquire. intros H Hok. rinv. split; [|eauto]. destruct Hok. by split.
Qed.
Lemma release_ok s : sched_ok s -> sched_ok (release s).
Proof. intros []. by split. Qed.

Lemma update_Done p f s s' :
  update p f s = Done s' -> exists pr, procs s !! p = Some pr /\ s' = set_procs s (<[p := f pr]> (procs s)).
Proof.
  unfold update, get. destruct (procs s !! p) as [pr|]; simpl; [|done]. intros [= <-]. eauto.
Qed.

(** A change that keeps index and activity. *)
Definition keeps (f : Process -> Process) : Prop :=
  forall pr, scheduler_index_ (f pr) = scheduler_index_ pr /\
    (registered (status_ pr) = true -> registered (status_ (f pr)) = true) /\
    active (status_ (f pr)) = active (status_ pr).

Lemma entry_update s p f pr i q qr :
  procs s !! p = Some pr ->
  entry (set_procs s (<[p := f pr]> (procs s))) i q qr ->
  exists qr0, entry s i q qr0 /\ qr = (if decide (q = p) then f qr0 else qr0).
Proof.
  intros Hp (Hi & Hs & Hq). simpl in *. destruct (decide (q = p)) as [->|].
  - rewrite lookup_insert_eq in Hq. injection Hq as <-. exists pr. by split.
  - rewrite lookup_insert_ne in Hq by done. exists qr. by split.
Qed.
Lemma entry_update_2 s p f pr i q qr :
  procs s !! p = Some pr -> entry s i q qr ->
  entry (set_procs s (<[p := f pr]> (procs s))) i q (if decide (q = p) then f qr else qr).
Proof.
  intros Hp (Hi & Hs & Hq). split; [done|]. split; [done|]. simpl. destruct (decide (q = p)) as [->|].
  - rewrite lookup_insert_eq. congruence.
  - by rewrite lookup_insert_ne.
Qed.

Lemma update_keeps_ok p f s s' : keeps f -> update p f s = Done s' -> sched_ok s -> sched_ok s'.
Proof.
  intros Hf H Hok. apply update_Done in H as (pr & Hp & ->). destruct Hok as [H1 H2 H3 H4 H5 H6 H7].
  split; [done|done| | | | |].
  - intros i Hi. destruct (H3 i Hi) as (q & qr & He). eauto using entry_update_2.
  - intros i q qr He. destruct (entry_update _ _ _ _ _ _ _ Hp He) as (qr0 & He0 & ->).
    destruct (Hf qr0) as (E & _). case_decide; [rewrite E|]; by eapply H4.
  - intros i q qr He. destruct (entry_update _ _ _ _ _ _ _ Hp He) as (qr0 & He0 & ->).
    destruct (Hf qr0) as (_ & E & _). case_decide; [apply E|]; by eapply H5.
  - intros i q qr He. destruct (entry_update _ _ _ _ _ _ _ Hp He) as (qr0 & He0 & ->).
    destruct (Hf qr0) as (_ & _ & E). case_decide; [rewrite E|]; by eapply H6.
  - destruct H7 as (i & qr & He). eauto using entry_update_2.
Qed.

Lemma Process_Kill_keeps : keeps Process_Kill.
Proof. intros pr. unfold Process_Kill. by destruct (status_ pr) eqn:E; simpl; rewrite ?E. Qed.

Lemma kill_loop_ok k i pid s s' : kill_loop k i pid s = Done s' -> sched_ok s -> sched_ok s'.
Proof.
  revert i. induction k as [|k IH]; intros i H Hok; simpl in H; [by injection H as <-|].
  rinv. case_match; [|by eapply IH]. by eapply update_keeps_ok; [apply Process_Kill_keeps|..].
Qed.

(** *** Switching *)

Lemma switch_ok s p i pr cur s1 s2 :
  sched_ok s -> entry s i p pr -> status_ pr = kSleeping -> procs s !! current_ s = Some cur ->
  (if bool_decide (status_ cur = kRunning) then update (current_ s) (SetStatus kSleeping) s
   else if bool_decide (status_ cur = kStopping) then update (current_ s) (SetStatus kStopped) s
   else Done s) = Done s1 ->
  update p (SetStatus kRunning) s1 = Done s2 ->
  sched_ok (Sched (procs s2) (process_ s2) (number_of_process_ s2) p (lock_ s2) (multi_task s2)).
Proof.
  intros Hok Hp Hst Hcur H1 H2. pose proof Hok as [S1 S2 S3 S4 S5 S6 S7].
  destruct S7 as (ic & cur' & Hec). assert (cur' = cur) as -> by (destruct Hec as (_ & _ & E); congruence).
  assert (active (status_ cur) = true) as Hact by (by apply (S6 ic _ _ Hec)).
  assert (p <> current_ s) as Hne.
  { intros ->. destruct (entry_inj s i ic _ _ _ Hok Hp Hec) as [_ ->]. by rewrite Hst in Hact. }
  assert (exists st, active st = false /\ registered st = true /\ update (current_ s) (SetStatus st) s = Done s1) as (st & Ha & Hr & E1).
  { destruct (status_ cur); try done; [exists kSleeping|exists kStopped]; (split; [done|split; [done|exact H1]]). }
  apply update_Done in E1 as (c0 & Ec0 & ->). assert (c0 = cur) as -> by congruence.
  apply update_Done in H2 as (p0 & Ep0 & ->). simpl in Ep0. rewrite lookup_insert_ne in Ep0 by done.
  assert (p0 = pr) as -> by (destruct Hp as (_ & _ & E); congruence).
  set (s1 := set_procs s (<[current_ s := SetStatus st cur]> (procs s))).
  assert (procs s1 !! p = Some pr) as Ep1 by (simpl; by rewrite lookup_insert_ne).
  set (f q qr := if decide (q = p) then SetStatus kRunning qr
                 else if decide (q = current_ s) then SetStatus st qr else qr).
  assert (forall j q qr, entry (set_procs s1 (<[p := SetStatus kRunning pr]> (procs s1))) j q qr ->
    exists qr0, entry s j q qr0 /\ qr = f q qr0) as Hinv.
  { intros j q qr He. destruct (entry_update _ _ (SetStatus kRunning) _ _ _ _ Ep1 He) as (q1 & He1 & ->).
    destruct (entry_update _ _ (SetStatus st) _ _ _ _ Hcur He1) as (q2 & He2 & ->).
    exists q2. split; [done|]. unfold f. repeat case_decide; subst; done. }
  assert (forall j q qr, entry s j q qr ->
    entry (set_procs s1 (<[p := SetStatus kRunning pr]> (procs s1))) j q (f q qr)) as Hmk.
  { intros j q qr He. pose proof (entry_update_2 _ _ (SetStatus st) _ _ _ _ Hcur He) as He1.
    pose proof (entry_update_2 _ _ (SetStatus kRunning) _ _ _ _ Ep1 He1) as He2.
    unfold f. repeat case_decide; subst; done. }
  split; cbn [process_ number_of_process_ current_ procs]; [done|done| | | | |].
  - intros j Hj. destruct (S3 j Hj) as (q & qr & He). exists q, (f q qr). by apply Hmk.
  - intros j q qr He. destruct (Hinv j q qr He) as (qr0 & He0 & ->).
    unfold f. repeat case_decide; simpl; by eapply S4.
  - intros j q qr He. destruct (Hinv j q qr He) as (qr0 & He0 & ->).
    unfold f. destruct (decide (q = p)); [done|]. destruct (decide (q = current_ s)); [done|by eapply S5].
  - intros j q qr He. destruct (Hinv j q qr He) as (qr0 & He0 & ->).
    unfold f. destruct (decide (q = p)) as [|Hqp]; [done|]. destruct (decide (q = current_ s)) as [Hqc|Hqc]; simpl.
    + rewrite Ha. split; [done|]. intros ->. done.
    + rewrite (S6 _ _ _ He0). split; [intros ->; done|intros ->; done].
  - exists i, (f p pr). by apply Hmk.
Qed.

(** *** The choice of [SwitchProcess] *)

(** The process at distance [d] from the current one, in array order. *)
Definition at_distance (s : sched) (base d : nat) : nat := ((base + d) mod number_of_process_ s)%nat.

Lemma switch_loop_spec k i base s :
  sched_ok s -> (base < number_of_process_ s)%nat ->
  match switch_loop k i (Z.of_nat base) s with
  | Done (None, s') => s' = s /\ forall d, (i <= d < i + k)%nat ->
      exists p pr, entry s (at_distance s base d) p pr /\ status_ pr <> kSleeping
  | Done (Some p, s') =>
      sched_ok s' /\ current_ s' = p /\ exists d pr, (i <= d < i + k)%nat /\
        entry s (at_distance s base d) p pr /\ status_ pr = kSleeping /\
        forall d', (i <= d' < d)%nat -> exists q qr, entry s (at_distance s base d') q qr /\ status_ qr <> kSleeping
  | Stop _ => False
  end.
Proof.
  intros Hok Hb. revert i. induction k as [|k IH]; intros i; cbn [switch_loop].
  { split; [done|]. intros d Hd. lia. }
  assert (Z.to_nat (Z.rem (Z.of_nat base + Z.of_nat i) (Z.of_nat (number_of_process_ s))) = at_distance s base i) as ->.
  { unfold at_distance. rewrite Z.rem_mod_nonneg by lia. rewrite <- Nat2Z.inj_add, <- Nat2Z.inj_mod. apply Nat2Z.id. }
  destruct (so_slots _ Hok (at_distance s base i)) as (p & pr & He); [apply Nat.mod_upper_bound; lia|].
  pose proof He as (_ & Hslot & Hpr). rewrite Hslot. cbn [deref rbind]. unfold get. rewrite Hpr. cbn [deref rbind].
  case_bool_decide as Hst.
  - destruct (so_current _ Hok) as (ic & cur & Hec). pose proof Hec as (_ & _ & Hcur). rewrite Hcur. cbn [deref rbind].
    destruct (if bool_decide (status_ cur = kRunning) then _ else _) as [s1|e] eqn:E1.
    2:{ exfalso. unfold update, get in E1. rewrite Hcur in E1. by repeat case_match. }
    cbn [rbind]. destruct (update p (SetStatus kRunning) s1) as [s2|e] eqn:E2.
    2:{ exfalso. unfold update, get in E1, E2. rewrite Hcur in E1. cbn [deref rbind] in E1.
        repeat (case_bool_decide; [injection E1 as <-; simpl in E2; destruct (decide (p = current_ s)) as [->|];
          [by rewrite lookup_insert_eq in E2|by rewrite lookup_insert_ne, Hpr in E2]|]).
        injection E1 as <-. by rewrite Hpr in E2. }
    cbn [rbind]. split; [by eapply switch_ok|]. split; [done|]. exists i, pr.
    split; [lia|]. split; [done|]. split; [done|]. intros d' Hd'. lia.
  - specialize (IH (S i)). destruct (switch_loop k (S i) (Z.of_nat base) s) as [[[q|] s']|e]; [| |done].
    + destruct IH as (Hok' & Hc & d & qr & Hd & Heq & Hs & Hbefore). split; [done|]. split; [done|].
      exists d, qr. split; [lia|]. split; [done|]. split; [done|]. intros d' Hd'.
      destruct (decide (d' = i)) as [->|]; [by exists p, pr|apply Hbefore; lia].
    + destruct IH as [-> Hno]. split; [done|]. intros d Hd.
      destruct (decide (d = i)) as [->|]; [by exists p, pr|apply Hno; lia].
Qed.

(** *** Registering *)

Lemma find_stopped_spec k i s :
  sched_ok s -> (i + k <= number_of_process_ s)%nat ->
  match find_stopped k i s with
  | Done (Some j) => exists p pr, entry s j p pr /\ status_ pr = kStopped
  | Done None => True
  | Stop _ => False
  end.
Proof.
  intros Hok. revert i. induction k as [|k IH]; intros i Hi; cbn [find_stopped]; [done|].
  destruct (so_slots _ Hok i) as (p & pr & He); [lia|]. pose proof He as (_ & Hs & Hp).
  unfold slot, get. rewrite Hs. cbn [deref rbind]. rewrite Hp. cbn [deref rbind].
  case_bool_decide; [eauto|]. apply (IH (S i)). lia.
Qed.

(** [proc] in the entry [i], ready to run; [n'] entries are then in use. *)
Definition placed (s : sched) (proc i n' : nat) (pr : Process) : sched :=
  Sched (<[proc := SetStatus kSleeping (SetSchedulerIndex (Z.of_nat i) pr)]> (procs s))
    (<[i := Some proc]> (process_ s)) n' (current_ s) (lock_ s) (multi_task s).

Lemma placed_ok s proc i n' pr :
  sched_ok s -> procs s !! proc = Some pr -> registered (status_ pr) = false ->
  (i < kNumberOfProcess)%nat ->
  (n' = number_of_process_ s /\ (exists p q, entry s i p q /\ active (status_ q) = false) \/
   n' = S (number_of_process_ s) /\ i = number_of_process_ s) ->
  sched_ok (placed s proc i n' pr).
Proof.
  intros Hok Hpr Hreg Hi Hn. pose proof Hok as [S1 S2 S3 S4 S5 S6 S7].
  assert (forall j q qr, entry s j q qr -> q <> proc) as Hfresh.
  { intros j q qr He ->. assert (qr = pr) as -> by (destruct He as (_ & _ & E); congruence).
    apply S5 in He. congruence. }
  assert (forall j q qr, entry (placed s proc i n' pr) j q qr ->
    j = i /\ q = proc /\ qr = SetStatus kSleeping (SetSchedulerIndex (Z.of_nat i) pr) \/
    j <> i /\ entry s j q qr) as Hinv.
  { intros j q qr (Hj & Hs & Hq). simpl in *. destruct (decide (j = i)) as [->|Hji].
    - left. rewrite list_lookup_insert_eq in Hs by lia. injection Hs as <-.
      rewrite lookup_insert_eq in Hq. by injection Hq as <-.
    - right. split; [done|]. rewrite list_lookup_insert_ne in Hs by done.
      assert (j < number_of_process_ s)%nat as Hjn by lia.
      destruct (S3 j Hjn) as (q' & qr' & He'). pose proof He' as (_ & Hs' & Hq').
      rewrite Hs in Hs'. injection Hs' as <-. pose proof (Hfresh _ _ _ He') as Hne.
      rewrite lookup_insert_ne in Hq by done. split; [done|by split]. }
  assert (forall j q qr, j <> i -> entry s j q qr -> entry (placed s proc i n' pr) j q qr) as Hmk.
  { intros j q qr Hji He. pose proof (Hfresh _ _ _ He). destruct He as (Hj & Hs & Hq).
    split; [simpl; lia|]. simpl. rewrite list_lookup_insert_ne, lookup_insert_ne by done. done. }
  assert (entry (placed s proc i n' pr) i proc (SetStatus kSleeping (SetSchedulerIndex (Z.of_nat i) pr))) as Hnew.
  { split; [destruct Hn as [[-> (p & q & (? & _) & _)]|[-> ->]]; simpl; lia|]. simpl.
    rewrite list_lookup_insert_eq, lookup_insert_eq by lia. done. }
  split; cbn [placed process_ number_of_process_ current_ procs].
  - by rewrite length_insert.
  - lia.
  - intros j Hj. destruct (decide (j = i)) as [->|Hji]; [eauto|].
    destruct (S3 j) as (q & qr & He); [lia|]. eauto.
  - intros j q qr [(-> & -> & ->)|[_ He]]%Hinv; [done|by eapply S4].
  - intros j q qr [(-> & -> & ->)|[_ He]]%Hinv; [done|by eapply S5].
  - intros j q qr [(-> & -> & ->)|[_ He]]%Hinv; [|by eapply S6].
    split; [done|]. intros ->. destruct S7 as (jc & cr & Hc). by apply Hfresh in Hc.
  - destruct S7 as (jc & cr & Hc). exists jc, cr. apply Hmk; [|done]. intros ->.
    destruct Hn as [[_ (p & q & He & Ha)]|[_ ->]].
    + assert (p = current_ s /\ q = cr) as [-> ->].
      { destruct Hc as (_ & H1 & H2), He as (_ & H3 & H4). rewrite H1 in H3. injection H3 as <-. split; congruence. }
      pose proof (proj2 (S6 _ _ _ Hc) eq_refl). congruence.
    + destruct Hc as (? & _). lia.
Qed.

(** A registered process waits to be run. *)
Lemma RegisterProcess_sleeping proc s s' : RegisterProcess proc s = Done s' ->
  exists pr i, procs s !! proc = Some pr /\ procs s' !! proc = Some (SetStatus kSleeping (SetSchedulerIndex i pr)).
Proof.
  intros H. unfold RegisterProcess in H. apply rbind_Done in H as (s0 & Ha & H).
  assert (procs s0 = procs s) as E0 by (unfold acquire in Ha; by rinv). rewrite <- E0. clear Ha E0. rinv.
  unfold get in *. destruct (procs s0 !! proc) as [pr|] eqn:Hpr; [|done].
  match goal with H : find_stopped _ _ _ = Done ?o |- _ => clear H; destruct o as [i|] end; rinv;
    repeat match goal with H : update _ _ _ = Done _ |- _ => apply update_Done in H as (? & ? & ->) end;
    simpl in *; rewrite ?lookup_insert_eq in *; simplify_eq; eauto.
Qed.

Lemma entry_fresh s p pr i q qr : sched_ok s -> procs s !! p = None -> entry (set_procs s (<[p := pr]> (procs s))) i q qr <-> entry s i q qr.
Proof.
  intros Hok Hp. split.
  - intros (Hi & Hs & Hq). cbn in *. destruct (so_slots _ Hok i Hi) as (q' & qr' & _ & Hs' & Hq'). rewrite Hs in Hs'. injection Hs' as <-.
    assert (q <> p) by congruence. rewrite lookup_insert_ne in Hq by done. by split.
  - intros (Hi & Hs & Hq). assert (q <> p) by congruence. split; [done|]. split; [done|]. cbn. by rewrite lookup_insert_ne.
Qed.
Lemma sched_ok_fresh s p pr : sched_ok s -> procs s !! p = None -> sched_ok (set_procs s (<[p := pr]> (procs s))).
Proof.
  intros Hok Hp. pose proof Hok as [H1 H2 H3 H4 H5 H6 H7]. split; [done|done| | | | |].
  - intros i Hi. destruct (H3 i Hi) as (q & qr & He). exists q, qr. by apply entry_fresh.
  - intros i q qr He. apply entry_fresh in He; [by eapply H4|done|done].
  - intros i q qr He. apply entry_fresh in He; [by eapply H5|done|done].
  - intros i q qr He. apply entry_fresh in He; [by eapply H6|done|done].
  - destruct H7 as (i & qr & He). exists i, qr. by apply entry_fresh.
Qed.

(** Registering a new process fails in two ways only: the lock is held, or the
    table is full. *)
Definition lock_held (s : sched) : bool := multi_task s && negb (locked_by_pid_ (lock_ s) =? 0).
Lemma RegisterProcess_stops proc pr s e :
  sched_ok s -> procs s !! proc = Some pr -> status_ pr = kNotScheduled -> RegisterProcess proc s = Stop e ->
  e = Panic /\ (lock_held s = true \/ number_of_process_ s = kNumberOfProcess).
Proof.
  intros Hok Hp Hst H. unfold RegisterProcess, acquire in H. destruct (so_current _ Hok) as (ic & cur & _ & _ & Hc).
  unfold get in H at 1. rewrite Hc in H. cbn [deref rbind] in H. unfold lock_held.
  destruct (Lock (multi_task s) (id_ cur) (lock_ s)) as [l|e'] eqn:El.
  2:{ unfold Lock in El. destruct (multi_task s); [|done]. cbn in El, H |- *. destruct (_ =? 0); [done|]. split; [congruence|by left]. }
  assert (sched_ok (set_lock s l)) as Hok1 by (by destruct Hok; split).
  pose proof (find_stopped_spec (number_of_process_ s) 0 _ Hok1 ltac:(cbn; lia)) as Hf.
  cbn [rbind set_lock number_of_process_] in H. unfold kassert in H.
  destruct (Nat.ltb_spec (number_of_process_ s) kNumberOfProcess) as [Hlt|Hge].
  2:{ cbn in H. injection H as <-. split; [done|]. right. pose proof (so_num _ Hok). lia. }
  exfalso. cbn [rbind] in H. unfold get in H. cbn [set_lock procs] in H. rewrite Hp in H. cbn [deref rbind] in H.
  rewrite bool_decide_true in H by done. cbn [rbind] in H. unfold set_lock in H.
  destruct (find_stopped _ _ _) as [[i|]|]; [| |done]; cbn [rbind] in H; unfold update, get in H;
    cbn in H; rewrite Hp in H; cbn in H; rewrite lookup_insert_eq in H; done.
Qed.

Lemma RegisterProcess_ok proc s s' : RegisterProcess proc s = Done s' -> sched_ok s -> sched_ok s'.
Proof.
  intros H Hok. unfold RegisterProcess in H. apply rbind_Done in H as (s0 & Ha & H).
  apply acquire_ok in Ha as [Hok0 _]; [|done]. clear Hok s. rinv.
  unfold kassert in *. destruct (Nat.ltb_spec (number_of_process_ s0) kNumberOfProcess) as [Hlt|]; [|done].
  case_bool_decide as Hst; [|done].
  match goal with H : get s0 proc = Done ?p |- _ => rename H into Hg; unfold get in Hg;
    destruct (procs s0 !! proc) as [pr|] eqn:Hpr; [|done]; injection Hg as -> end.
  match goal with H : find_stopped _ _ _ = Done ?o |- _ => rename H into Hfind; rename o into o' end.
  pose proof (find_stopped_spec (number_of_process_ s0) 0 s0 Hok0 ltac:(lia)) as Hf. rewrite Hfind in Hf.
  destruct o' as [i|]; rinv; apply release_ok.
  - repeat match goal with H : update _ _ _ = Done _ |- _ => apply update_Done in H as (? & ? & ->) end.
    simpl in *. simplify_eq. rewrite lookup_insert_eq in *. simplify_eq. rewrite insert_insert_eq.
    destruct Hf as (p & q & He & Hs). eapply (placed_ok s0 proc i (number_of_process_ s0)); [done|done|by rewrite Hst| |].
    + pose proof (so_num _ Hok0). destruct He as (? & _). lia.
    + left. split; [done|]. exists p, q. by rewrite Hs.
  - repeat match goal with H : update _ _ _ = Done _ |- _ => apply update_Done in H as (? & ? & ->) end.
    simpl in *. simplify_eq. rewrite lookup_insert_eq in *. simplify_eq. rewrite insert_insert_eq.
    eapply (placed_ok s0 proc (number_of_process_ s0)); [done|done|by rewrite Hst|done|by right].
Qed.

(** *** Sequences of operations *)

Inductive op := OpRegister (p : nat) | OpSwitch | OpKillCurrent | OpKill (pid : Z).
Definition exec (o : op) (s : sched) : res sched :=
  match o with
  | OpRegister p => RegisterProcess p s
  | OpSwitch => do '(_, s) <- SwitchProcess s; Done s
  | OpKillCurrent => KillCurrentProcess s
  | OpKill pid => Kill pid s
  end.
Inductive reachable (s0 : sched) : sched -> Prop :=
| reachable_refl : reachable s0 s0
| reachable_step s o s' : reachable s0 s -> exec o s = Done s' -> reachable s0 s'.

Lemma SwitchProcess_outcome s :
  sched_ok s -> locked_by_pid_ (lock_ s) = 0 ->
  exists base cur r s', entry s base (current_ s) cur /\ SwitchProcess s = Done (r, s') /\ sched_ok s' /\
  match r with
  | None => current_ s' = current_ s /\ forall i p pr, entry s i p pr -> p <> current_ s -> status_ pr <> kSleeping
  | Some p => current_ s' = p /\ exists d pr, (1 <= d < number_of_process_ s)%nat /\
      entry s (at_distance s base d) p pr /\ status_ pr = kSleeping /\
      forall d', (1 <= d' < d)%nat -> exists q qr, entry s (at_distance s base d') q qr /\ status_ qr <> kSleeping
  end.
Proof.
  intros Hok Hl. destruct (so_current _ Hok) as (base & cur & Hc). pose proof Hc as (Hb & _ & Hcur).
  set (s0 := set_lock s (if negb (multi_task s) then lock_ s else Lock_ (id_ cur))).
  assert (acquire s = Done s0) as Ha.
  { unfold acquire, get. rewrite Hcur. cbn [deref rbind]. unfold Lock. rewrite Hl. unfold s0.
    by destruct (multi_task s). }
  destruct (acquire_ok _ _ Ha Hok) as [Hok0 _].
  pose proof (switch_loop_spec (number_of_process_ s - 1) 1 base s0 Hok0 Hb) as H.
  unfold SwitchProcess. rewrite Ha. cbn [rbind]. unfold get.
  change (procs s0) with (procs s). change (current_ s0) with (current_ s). rewrite Hcur. cbn [deref rbind].
  rewrite (so_index _ Hok _ _ _ Hc). change (number_of_process_ s0) with (number_of_process_ s).
  destruct (switch_loop _ _ _ s0) as [[[p|] s']|e]; [| |done]; cbn [rbind].
  - destruct H as (Hok' & Hp & d & pr & Hd & He & Hs & Hbefore).
    exists base, cur, (Some p), (release s'). split; [done|]. split; [done|]. split; [by apply release_ok|].
    split; [done|]. exists d, pr. split; [lia|]. done.
  - destruct H as [-> Hno]. exists base, cur, None, (release s0). split; [done|]. split; [done|].
    split; [by apply release_ok|]. split; [done|]. intros i p pr He Hne.
    pose proof He as (Hi & _). destruct (decide (i = base)) as [->|Hib].
    { exfalso. apply Hne. destruct He as (_ & H1 & _), Hc as (_ & H2 & _). congruence. }
    set (n := number_of_process_ s) in *.
    destruct (Hno (if decide (base < i)%nat then i - base else i + n - base)%nat) as (q & qr & He' & Hs).
    { case_decide; lia. }
    enough (at_distance s0 base (if decide (base < i)%nat then i - base else i + n - base)%nat = i) as E.
    { rewrite E in He'. destruct He as (_ & H1 & H2), He' as (_ & H3 & H4). simpl in *. congruence. }
    unfold at_distance. change (number_of_process_ s0) with n. case_decide.
    + replace (base + (i - base))%nat with i by lia. by apply Nat.mod_small.
    + replace (base + (i + n - base))%nat with (i + 1 * n)%nat by lia.
      rewrite Nat.Div0.mod_add. by apply Nat.mod_small.
Qed.

Lemma exec_ok o s s' : exec o s = Done s' -> sched_ok s -> sched_ok s'.
Proof.
  destruct o; simpl; intros H Hok.
  - by eapply RegisterProcess_ok.
  - apply rbind_Done in H as ([r s1] & H & E). injection E as <-. unfold SwitchProcess in H.
    apply rbind_Done in H as (s0 & Ha & H). apply acquire_ok in Ha as [Hok0 _]; [|done].
    destruct (so_current _ Hok0) as (base & cur & Hc). pose proof Hc as (Hb & _ & Hcur).
    unfold get in H. rewrite Hcur in H. cbn [deref rbind] in H. rewrite (so_index _ Hok0 _ _ _ Hc) in H.
    pose proof (switch_loop_spec (number_of_process_ s0 - 1) 1 base s0 Hok0 Hb) as Hsw.
    destruct (switch_loop _ _ _ s0) as [[[p|] s2]|e]; [| |done]; cbn [rbind] in H; injection H as <- <-;
      apply release_ok; [apply Hsw|by destruct Hsw as [-> _]].
  - unfold KillCurrentProcess in H. by eapply update_keeps_ok; [apply Process_Kill_keeps|..].
  - unfold Kill in H. apply rbind_Done in H as (s0 & Ha & H). apply acquire_ok in Ha as [Hok0 _]; [|done].
    rinv. apply release_ok. by eapply kill_loop_ok.
Qed.

(** C33: in every state the scheduler reaches by registering, switching and
    killing processes, exactly one process of the table is running (or about to
    stop), and it is the current one; every used entry of the table points to a
    scheduled process that knows its own index, and no process is in the table
    twice. *)
Theorem scheduler_invariant s0 s :
  sched_ok s0 -> reachable s0 s ->
  (exists i pr, entry s i (current_ s) pr /\ active (status_ pr) = true) /\
  (forall i p pr, entry s i p pr -> active (status_ pr) = true -> p = current_ s) /\
  (forall i p pr, entry s i p pr -> scheduler_index_ pr = Z.of_nat i /\ registered (status_ pr) = true) /\
  (forall i j p pr qr, entry s i p pr -> entry s j p qr -> i = j) /\
  (forall i, (i < number_of_process_ s)%nat -> exists p pr, entry s i p pr).
Proof.
  intros H0 Hr. assert (sched_ok s) as Hok.
  { induction Hr as [|s o s' _ IH He]; [done|]. by eapply exec_ok. }
  split_and!.
  - destruct (so_current _ Hok) as (i & pr & He). exists i, pr. split; [done|]. by apply (so_active _ Hok _ _ _ He).
  - intros i p pr He. by apply (so_active _ Hok _ _ _ He).
  - intros i p pr He. split; [by eapply so_index|by eapply so_status].
  - intros i j p pr qr Hi Hj. by eapply entry_inj.
  - apply Hok.
Qed.

(** [SwitchProcess] is round robin: it always returns, it makes the next
    sleeping process behind the current one (in table order, cyclically) the
    current one, passing over none that is ready, and gives null only when no
    other process is ready. *)
Theorem switch_round_robin s :
  sched_ok s -> locked_by_pid_ (lock_ s) = 0 ->
  exists base cur r s', entry s base (current_ s) cur /\ SwitchProcess s = Done (r, s') /\ sched_ok s' /\
  match r with
  | None => current_ s' = current_ s /\ forall i p pr, entry s i p pr -> p <> current_ s -> status_ pr <> kSleeping
  | Some p => current_ s' = p /\ exists d pr, (1 <= d < number_of_process_ s)%nat /\
      entry s (at_distance s base d) p pr /\ status_ pr = kSleeping /\
      forall d', (1 <= d' < d)%nat -> exists q qr, entry s (at_distance s base d') q qr /\ status_ qr <> kSleeping
  end.
Proof. apply SwitchProcess_outcome. Qed.

Definition demo_process (id : Z) (st : Status) (idx : Z) : Process :=
  SetStatus st (new_Process id 0 idx []).
Definition demo_sched : sched :=
  Sched (<[0%nat := demo_process 1 kRunning 0]> (<[1%nat := demo_process 2 kStopped 1]>
    (<[2%nat := demo_process 3 kSleeping 2]> {[3%nat := demo_process 4 kNotScheduled 77]})))
    (Some 0%nat :: Some 1%nat :: Some 2%nat :: replicate 253 None) 3 0 (Lock_ 0) true.
Lemma demo_sched_ok : sched_ok demo_sched.
Proof.
  assert (forall i p pr, entry demo_sched i p pr ->
    (i = 0 /\ p = 0 /\ pr = demo_process 1 kRunning 0 \/ i = 1 /\ p = 1 /\ pr = demo_process 2 kStopped 1 \/
     i = 2 /\ p = 2 /\ pr = demo_process 3 kSleeping 2)%nat) as Hinv.
  { intros i p pr (Hi & Hs & Hp). simpl in Hi.
    destruct i as [|[|[|i]]]; [| | |lia]; simpl in Hs; injection Hs as <-; vm_compute in Hp; injection Hp as <-; tauto. }
  split; [reflexivity|apply Nat.leb_le; reflexivity| | | | |].
  - intros i Hi. simpl in Hi. destruct i as [|[|[|i]]]; [| | |lia];
      do 2 eexists; (split; [apply Nat.ltb_lt; reflexivity|split; reflexivity]).
  - intros i p pr [(-> & -> & ->)|[(-> & -> & ->)|(-> & -> & ->)]]%Hinv; done.
  - intros i p pr [(-> & -> & ->)|[(-> & -> & ->)|(-> & -> & ->)]]%Hinv; done.
  - intros i p pr [(-> & -> & ->)|[(-> & -> & ->)|(-> & -> & ->)]]%Hinv; done.
  - exists 0%nat, (demo_process 1 kRunning 0). split; [simpl; lia|split; reflexivity].
Qed.

Lemma scheduler_invariant_witness :
  exists s, exec (OpRegister 3) demo_sched = Done s /\
    process_ s !! 1%nat = Some (Some 3%nat) /\
    forall i p pr, entry s i p pr -> active (status_ pr) = true -> p = current_ s.
Proof.
  eexists. split; [vm_compute; reflexivity|]. split; [reflexivity|].
  apply (scheduler_invariant demo_sched); [apply demo_sched_ok|].
  eapply (reachable_step _ _ (OpRegister 3)); [apply reachable_refl|]. vm_compute. reflexivity.
Defined.

Lemma switch_round_robin_witness :
  locked_by_pid_ (lock_ demo_sched) = 0 /\
  exists base cur r s', entry demo_sched base 0 cur /\ SwitchProcess demo_sched = Done (r, s') /\ sched_ok s'.
Proof.
  split; [reflexivity|].
  destruct (switch_round_robin demo_sched demo_sched_ok eq_refl) as (b & c & r & s' & H1 & H2 & H3 & _).
  exists b, c, r, s'. split; [exact H1|]. split; [exact H2|exact H3].
Defined.
