(* ===== verification/Network.v ===== *)
(** * The network stack of the kernel ([src/network.h], [src/network.cc])

    Addresses, the Internet checksum, the ARP, IPv4, UDP and DHCP packets, the
    ARP table, the receive buffer and the sockets.  A packed struct is a record
    with a function that lays it out as bytes. *)

From S2P Require Import Prelude KernelBase KernelText.

(** Little-endian loads, as the processor makes them. *)
Definition load16 (l : list Z) : Z := nth 0 l 0 + 256 * nth 1 l 0.
Definition load32 (l : list Z) : Z :=
  nth 0 l 0 + 256 * nth 1 l 0 + 65536 * nth 2 l 0 + 16777216 * nth 3 l 0.
Definition store16 (v : Z) : list Z := [v mod 256; v / 256 mod 256].
Definition store32 (v : Z) : list Z := [v mod 256; v / 256 mod 256; v / 65536 mod 256; v / 16777216 mod 256].

(** ** Addresses *)

(** Six, four and four bytes. *)
Record EtherAddr := Mac { mac : list Z }.
Record IPv4Addr := IPv4 { addr : list Z }.
Record IPv4NetMask := NetMask { mask : list Z }.
#[global] Instance EtherAddr_eq_dec : EqDecision EtherAddr.
Proof. solve_decision. Defined.
#[global] Instance IPv4Addr_eq_dec : EqDecision IPv4Addr.
Proof. solve_decision. Defined.
#[global] Instance IPv4Addr_countable : Countable IPv4Addr.
Proof. apply (inj_countable' addr IPv4). by intros []. Defined.

Definition bytes_ok (n : nat) (l : list Z) : Prop := length l = n /\ Forall is_byte l.
#[global] Instance bytes_ok_dec n l : Decision (bytes_ok n l).
Proof. unfold bytes_ok. apply _. Defined.

Definition EtherAddr_IsEqualTo (a b : EtherAddr) : bool :=
  (load32 (mac a) =? load32 (mac b)) && (load16 (drop 4 (mac a)) =? load16 (drop 4 (mac b))).
Definition IPv4Addr_IsEqualTo (a b : IPv4Addr) : bool := load32 (addr a) =? load32 (addr b).
Definition IsInSameSubnet (a another : IPv4Addr) (m : IPv4NetMask) : bool :=
  Z.land (Z.lxor (load32 (addr a)) (load32 (addr another))) (load32 (mask m)) =? 0.
Definition kBroadcastEtherAddr : EtherAddr := Mac [255; 255; 255; 255; 255; 255].
Definition kBroadcastIPv4Addr : IPv4Addr := IPv4 [255; 255; 255; 255].
Definition kWildcardIPv4Addr : IPv4Addr := IPv4 [0; 0; 0; 0].

(** [WriteString]: the bytes with a separator between them. *)
Fixpoint write_sep {S} (put : Z -> S -> res S) (sep : S -> S) (l : list Z) (s : S) : res S :=
  match l with
  | [] => Done s
  | [b] => put b s
  | b :: l' => do s <- put b s; write_sep put sep l' (sep s)
  end.
Definition EtherAddr_WriteString (N : nat) (a : EtherAddr) (s : StringBuffer.sbuf) : res StringBuffer.sbuf :=
  write_sep (fun b s => Done (StringBuffer.WriteHex8ZeroFilled N b s)) (StringBuffer.WriteChar N 58) (mac a) s.
Definition IPv4Addr_WriteString (N : nat) (a : IPv4Addr) (s : StringBuffer.sbuf) : res StringBuffer.sbuf :=
  write_sep (StringBuffer.WriteDecimal64 N) (StringBuffer.WriteChar N 46) (addr a) s.
Definition IPv4NetMask_WriteString (N : nat) (m : IPv4NetMask) (s : StringBuffer.sbuf) : res StringBuffer.sbuf :=
  write_sep (StringBuffer.WriteDecimal64 N) (StringBuffer.WriteChar N 46) (mask m) s.
(** [Print]: the text that reaches [PutString]. *)
Definition IPv4Addr_Print (a : IPv4Addr) (garbage : list Z) : res (list Z) :=
  do s <- IPv4Addr_WriteString 128 a (StringBuffer.Sb 0 garbage);
  Done (StringBuffer.GetString s).1.

(** [k] bytes are still to be read. *)
Fixpoint CreateFromString_loop (k : nat) (acc : list Z) (s : list Z) : option IPv4Addr :=
  match k with
  | O => None
  | S k' =>
    let '(v, s) := Generic.StrToByte s in
    let acc := acc ++ [v] in
    match k' with
    | O => match s with [] => Some (IPv4 acc) | _ => None end
    | _ =>
      match s with
      | c :: s' => if c =? 46 then CreateFromString_loop k' acc s' else None
      | [] => None
      end
    end
  end.
Definition CreateFromString (s : list Z) : option IPv4Addr := CreateFromString_loop 4 [] s.

(** ** The Internet checksum *)

Record InternetChecksum := Csum { csum : list Z }.
Definition Csum_Clear : InternetChecksum := Csum [0; 0].
Definition Csum_IsEqualTo (a b : InternetChecksum) : bool := load16 (csum a) =? load16 (csum b).

(** The sum of the 16-bit words from [start] to [end]; [words] iterations. *)
Fixpoint sum_words (words : nat) (p : list Z) (i : nat) (sum : Z) : res Z :=
  match words with
  | O => Done sum
  | S words' =>
    do a <- deref (p !! i);
    do b <- deref (p !! S i);
    sum_words words' p (i + 2) (u32 (sum + Z.lor (Z.shiftl a 8) b))
  end.
(** The iterations of [for (i = start; i < end; i += 2)]. *)
Definition word_count (start end_ : nat) : nat := ((end_ - start + 1) / 2)%nat.
(** [while (sum >> 16)] *)
Fixpoint fold_carry (fuel : nat) (sum : Z) : res Z :=
  if Z.shiftr sum 16 =? 0 then Done sum
  else
    match fuel with
    | O => Stop FuelOut
    | S fuel' => fold_carry fuel' (u32 (Z.land sum 65535 + Z.shiftr sum 16))
    end.
(** A 32-bit sum needs two rounds at most. *)
Definition finish (sum : Z) : res InternetChecksum :=
  do sum <- fold_carry 2 sum;
  let sum := u32 (Z.lnot sum) in
  Done (Csum [Z.land (Z.shiftr sum 8) 255; Z.land sum 255]).
Definition Calc (buf : list Z) (start end_ : nat) : res InternetChecksum :=
  do sum <- sum_words (word_count start end_) buf start 0;
  finish sum.

Definition word_at (l : list Z) (i : nat) : Z := Z.lor (Z.shiftl (nth i l 0) 8) (nth (S i) l 0).
Definition CalcUDPChecksum (buf : list Z) (start end_ : nat) (src_addr dst_addr : IPv4Addr)
  (udp_length : list Z) : res InternetChecksum :=
  let sum := u32 (word_at (addr src_addr) 0) in
  let sum := u32 (sum + word_at (addr src_addr) 2) in
  let sum := u32 (sum + word_at (addr dst_addr) 0) in
  let sum := u32 (sum + word_at (addr dst_addr) 2) in
  let sum := u32 (sum + word_at udp_length 0) in
  let sum := u32 (sum + 17) in
  do sum <- sum_words (word_count start end_) buf start sum;
  finish sum.

(** ** Packets *)

Record EtherFrame := Frame { eth_dst : EtherAddr; eth_src : EtherAddr; eth_type : list Z }.
Definition kTypeARP : list Z := [8; 6].
Definition kTypeIPv4 : list Z := [8; 0].
Definition HasEthType (f : EtherFrame) (etype : list Z) : bool :=
  (nth 0 (eth_type f) 0 =? nth 0 etype 0) && (nth 1 (eth_type f) 0 =? nth 1 etype 0).
Definition frame_bytes (f : EtherFrame) : list Z := mac (eth_dst f) ++ mac (eth_src f) ++ eth_type f.

Definition kICMP : Z := 1.
Definition kTCP : Z := 6.
Definition kUDP : Z := 17.
Record IPv4Packet := IpPacket {
  ip_eth : EtherFrame;
  version_and_ihl : Z;
  dscp_and_ecn : Z;
  ip_length : list Z;
  ident : Z;
  ip_flags : Z;
  ttl : Z;
  protocol : Z;
  ip_csum : InternetChecksum;
  src_ip : IPv4Addr;
  dst_ip : IPv4Addr;
}.
Definition ip_bytes (p : IPv4Packet) : list Z :=
  frame_bytes (ip_eth p) ++ [version_and_ihl p; dscp_and_ecn p] ++ ip_length p ++ store16 (ident p) ++
  store16 (ip_flags p) ++ [ttl p; protocol p] ++ csum (ip_csum p) ++ addr (src_ip p) ++ addr (dst_ip p).
Definition sizeof_EtherFrame : nat := 14.
Definition sizeof_IPv4Packet : nat := 34.

(** The 16-bit length, rounded up to an even number (the comment of the source
    says odd), in network order. *)
Definition even_length (size : Z) : list Z :=
  let size := u16 (Z.land (size + 1) (Z.lnot 1)) in
  [Z.shiftr size 8; Z.land size 255].
Definition ip_data_length (size : Z) : list Z := even_length (u16 (size + 20)).
Definition set_ip_csum (p : IPv4Packet) (c : InternetChecksum) : IPv4Packet :=
  IpPacket (ip_eth p) (version_and_ihl p) (dscp_and_ecn p) (ip_length p) (ident p) (ip_flags p)
    (ttl p) (protocol p) c (src_ip p) (dst_ip p).
Definition SetDataLength (size : Z) (p : IPv4Packet) : IPv4Packet :=
  IpPacket (ip_eth p) (version_and_ihl p) (dscp_and_ecn p) (ip_data_length size) (ident p) (ip_flags p)
    (ttl p) (protocol p) (ip_csum p) (src_ip p) (dst_ip p).
Definition CalcAndSetChecksum (p : IPv4Packet) : res IPv4Packet :=
  let p := set_ip_csum p Csum_Clear in
  do c <- Calc (ip_bytes p) 14 34;
  Done (set_ip_csum p c).

Inductive ICMPType := kEchoReply | kEchoRequest.
Definition ICMPType_val (t : ICMPType) : Z := match t with kEchoReply => 0 | kEchoRequest => 8 end.
Record ICMPPacket := Icmp {
  icmp_ip : IPv4Packet; icmp_type : ICMPType; icmp_code : Z; icmp_csum : InternetChecksum;
  icmp_identifier : Z; icmp_sequence : Z;
}.
Definition icmp_bytes (p : ICMPPacket) : list Z :=
  ip_bytes (icmp_ip p) ++ [ICMPType_val (icmp_type p); icmp_code p] ++ csum (icmp_csum p) ++
  store16 (icmp_identifier p) ++ store16 (icmp_sequence p).

Record ARPPacket := Arp {
  arp_eth : EtherFrame;
  hw_type : list Z;
  proto_type : list Z;
  hw_addr_len : Z;
  proto_addr_len : Z;
  arp_op : list Z;
  sender_eth_addr : EtherAddr;
  sender_proto_addr : IPv4Addr;
  target_eth_addr : EtherAddr;
  target_proto_addr : IPv4Addr;
}.
Definition arp_bytes (p : ARPPacket) : list Z :=
  frame_bytes (arp_eth p) ++ hw_type p ++ proto_type p ++ [hw_addr_len p; proto_addr_len p] ++ arp_op p ++
  mac (sender_eth_addr p) ++ addr (sender_proto_addr p) ++ mac (target_eth_addr p) ++ addr (target_proto_addr p).
Inductive Operation := kUnknown | kRequest | kReply.
Definition GetOperation (p : ARPPacket) : Operation :=
  if negb (nth 0 (arp_op p) 0 =? 0) then kUnknown
  else if nth 1 (arp_op p) 0 =? 1 then kRequest
  else if nth 1 (arp_op p) 0 =? 2 then kReply
  else kUnknown.
Definition ARP_SetupRequest (target_ip src_ip : IPv4Addr) (src_mac : EtherAddr) : ARPPacket :=
  Arp (Frame (Mac (replicate 6 255)) src_mac kTypeARP) [0; 1] [8; 0] 6 4 [0; 1]
    src_mac src_ip (Mac (replicate 6 0)) target_ip.
Definition ARP_SetupReply (target_ip src_ip : IPv4Addr) (target_mac src_mac : EtherAddr) : ARPPacket :=
  Arp (Frame target_mac src_mac kTypeARP) [0; 1] [8; 0] 6 4 [0; 2]
    src_mac src_ip target_mac target_ip.

Record IPv4UDPPacket := Udp {
  udp_ip : IPv4Packet;
  src_port : list Z;
  dst_port : list Z;
  udp_length : list Z;
  udp_csum : InternetChecksum;
}.
Definition udp_bytes (p : IPv4UDPPacket) : list Z :=
  ip_bytes (udp_ip p) ++ src_port p ++ dst_port p ++ udp_length p ++ csum (udp_csum p).
Definition port_bytes (port : Z) : list Z := [Z.shiftr port 8; Z.land port 255].
Definition port_value (l : list Z) : Z := word_at l 0.
Definition SetSourcePort (port : Z) (p : IPv4UDPPacket) : IPv4UDPPacket :=
  Udp (udp_ip p) (port_bytes port) (dst_port p) (udp_length p) (udp_csum p).
Definition GetSourcePort (p : IPv4UDPPacket) : Z := port_value (src_port p).
Definition SetDestinationPort (port : Z) (p : IPv4UDPPacket) : IPv4UDPPacket :=
  Udp (udp_ip p) (src_port p) (port_bytes port) (udp_length p) (udp_csum p).
Definition GetDestinationPort (p : IPv4UDPPacket) : Z := port_value (dst_port p).
Definition SetDataSize (size : Z) (p : IPv4UDPPacket) : IPv4UDPPacket :=
  Udp (udp_ip p) (src_port p) (dst_port p) (even_length (u16 (size + 8))) (udp_csum p).

Record DHCPPacket := Dhcp {
  dhcp_udp : IPv4UDPPacket;
  dhcp_op : Z;
  htype : Z;
  hlen : Z;
  hops : Z;
  xid : Z;
  secs : Z;
  dhcp_flags : Z;
  ciaddr : IPv4Addr;
  yiaddr : IPv4Addr;
  siaddr : IPv4Addr;
  giaddr : IPv4Addr;
  chaddr : EtherAddr;
  chaddr_padding : list Z;
  sname : list Z;
  file : list Z;
  cookie : list Z;
}.
Definition dhcp_bytes (p : DHCPPacket) : list Z :=
  udp_bytes (dhcp_udp p) ++ [dhcp_op p; htype p; hlen p; hops p] ++ store32 (xid p) ++ store16 (secs p) ++
  store16 (dhcp_flags p) ++ addr (ciaddr p) ++ addr (yiaddr p) ++ addr (siaddr p) ++ addr (giaddr p) ++
  mac (chaddr p) ++ chaddr_padding p ++ sname p ++ file p ++ cookie p.
Definition sizeof_IPv4UDPPacket : nat := 42.
Definition sizeof_DHCPPacket : nat := 282.

Definition set_udp (d : DHCPPacket) (u : IPv4UDPPacket) : DHCPPacket :=
  Dhcp u (dhcp_op d) (htype d) (hlen d) (hops d) (xid d) (secs d) (dhcp_flags d) (ciaddr d) (yiaddr d)
    (siaddr d) (giaddr d) (chaddr d) (chaddr_padding d) (sname d) (file d) (cookie d).
Definition set_udp_csum (c : InternetChecksum) (p : IPv4UDPPacket) : IPv4UDPPacket :=
  Udp (udp_ip p) (src_port p) (dst_port p) (udp_length p) c.

(** The fields of the request, the UDP checksum cleared. *)
Definition dhcp_ip (src_eth_addr : EtherAddr) : IPv4Packet :=
  IpPacket (Frame kBroadcastEtherAddr src_eth_addr kTypeIPv4) 69 0
    (ip_data_length (Z.of_nat (sizeof_DHCPPacket - sizeof_IPv4Packet))) 17003 0 255 kUDP
    Csum_Clear kWildcardIPv4Addr kBroadcastIPv4Addr.
Definition dhcp_fields (src_eth_addr : EtherAddr) (ip : IPv4Packet) : DHCPPacket :=
  let udp := Udp ip [0; 0] [0; 0] [0; 0] Csum_Clear in
  let udp := SetSourcePort 68 udp in
  let udp := SetDestinationPort 67 udp in
  let udp := SetDataSize (Z.of_nat (sizeof_DHCPPacket - sizeof_IPv4UDPPacket)) udp in
  Dhcp udp 1 1 6 0 4660 0 0 kWildcardIPv4Addr kWildcardIPv4Addr kWildcardIPv4Addr
    kWildcardIPv4Addr src_eth_addr (replicate 10 0) (replicate 64 0) (replicate 128 0)
    [99; 130; 83; 99].
Definition DHCP_SetupRequest (src_eth_addr : EtherAddr) : res DHCPPacket :=
  do ip <- CalcAndSetChecksum (dhcp_ip src_eth_addr);
  let d := dhcp_fields src_eth_addr ip in
  do c <- CalcUDPChecksum (dhcp_bytes d) sizeof_IPv4Packet sizeof_DHCPPacket kWildcardIPv4Addr
            kBroadcastIPv4Addr (udp_length (dhcp_udp d));
  Done (set_udp d (set_udp_csum c (dhcp_udp d))).

(** ** Tables, receive buffer, sockets *)

Record PacketContainer := Container { pc_size : Z; pc_data : list Z }.
Definition kPacketContainerSize : Z := 2048.
Definition kRXBufferSize : nat := 32.
Definition zero_container : PacketContainer := Container 0 (replicate 2048 0).

Inductive SocketType := kICMPRaw | kICMPDatagram | kUDPSocket.
Record Socket := MkSocket { s_pid : Z; s_fd : Z; listen_port : Z; s_type : SocketType }.

Record network := Network {
  arp_table_ : gmap IPv4Addr EtherAddr;
  rx_buffer_ : RingBuffer.ring (T := PacketContainer);
  sockets_ : list Socket;
  gateway_ : IPv4Addr;
  netmask_ : IPv4NetMask;
}.
Definition set_sockets (n : network) (l : list Socket) : network :=
  Network (arp_table_ n) (rx_buffer_ n) l (gateway_ n) (netmask_ n).
Definition set_rx (n : network) (r : RingBuffer.ring (T := PacketContainer)) : network :=
  Network (arp_table_ n) r (sockets_ n) (gateway_ n) (netmask_ n).

Definition SetIPv4DefaultGateway (g : IPv4Addr) (n : network) : network :=
  Network (arp_table_ n) (rx_buffer_ n) (sockets_ n) g (netmask_ n).
Definition SetIPv4NetMask (m : IPv4NetMask) (n : network) : network :=
  Network (arp_table_ n) (rx_buffer_ n) (sockets_ n) (gateway_ n) m.
Definition RegisterARPResolution (ip : IPv4Addr) (eth : EtherAddr) (n : network) : network :=
  Network (<[ip := eth]> (arp_table_ n)) (rx_buffer_ n) (sockets_ n) (gateway_ n) (netmask_ n).
Definition ResolveIPv4 (ip : IPv4Addr) (n : network) : option EtherAddr := arp_table_ n !! ip.

(** [garbage] is what was in the container on the stack. *)
Definition PushToRXBuffer (data : list Z) (begin end_ : nat) (garbage : list Z) (n : network) : res network :=
  run kassert (begin <? end_)%nat;
  let size := (end_ - begin)%nat in
  run kassert (Z.of_nat size <=? kPacketContainerSize);
  if (length data <? end_)%nat then Stop BadPointer
  else
    let buf := take size (drop begin data) ++ drop size garbage in
    Done (set_rx n (RingBuffer.Push kRXBufferSize (Container (Z.of_nat size) buf) (rx_buffer_ n))).
Definition PopFromRXBuffer (n : network) : PacketContainer * network :=
  let '(c, r) := RingBuffer.Pop zero_container kRXBufferSize (rx_buffer_ n) in (c, set_rx n r).
Definition HasPacketInRXBuffer (n : network) : bool := negb (RingBuffer.IsEmpty (rx_buffer_ n)).

Definition is_socket (pid fd : Z) (s : Socket) : bool := (s_pid s =? pid) && (s_fd s =? fd).
Definition FindSocket (pid fd : Z) (n : network) : option Socket := List.find (is_socket pid fd) (sockets_ n).
(** [true] on failure. *)
Definition RegisterSocket (pid fd : Z) (t : SocketType) (n : network) : bool * network :=
  match FindSocket pid fd n with
  | Some _ => (true, n)
  | None => (false, set_sockets n (sockets_ n ++ [MkSocket pid fd 12345 t]))
  end.
Fixpoint bind_loop (pid fd port : Z) (l : list Socket) : bool * list Socket :=
  match l with
  | [] => (true, [])
  | s :: l' =>
    if is_socket pid fd s then (false, MkSocket (s_pid s) (s_fd s) port (s_type s) :: l')
    else let '(b, r) := bind_loop pid fd port l' in (b, s :: r)
  end.
Definition BindToPort (pid fd port : Z) (n : network) : bool * network :=
  let '(b, l) := bind_loop pid fd port (sockets_ n) in (b, set_sockets n l).

(** ** The checksum is the one's complement sum *)

Fixpoint wsum (l : list Z) : Z :=
  match l with a :: b :: l' => a * 256 + b + wsum l' | _ => 0 end.

Lemma wsum_app l1 l2 n : length l1 = (2 * n)%nat -> wsum (l1 ++ l2) = wsum l1 + wsum l2.
Proof.
  revert n. remember (length l1) as len eqn:El. revert l1 El. induction len as [len IH] using lt_wf_ind.
  intros [|a [|b l1]] -> n Hn; simpl in *; [done|lia|].
  rewrite (IH (length l1) ltac:(lia) l1 eq_refl (n - 1)%nat) by lia. lia.
Qed.
Lemma wsum_bound l : Forall is_byte l -> 0 <= wsum l <= 65535 * Z.of_nat (length l).
Proof.
  remember (length l) as len eqn:El. revert l El. induction len as [len IH] using lt_wf_ind.
  intros [|a [|b l]] -> H; simpl; [lia|lia|].
  apply List.Forall_cons_iff in H as [Ha H]. apply List.Forall_cons_iff in H as [Hb H].
  specialize (IH (length l) ltac:(simpl; lia) l eq_refl H). unfold is_byte in *. lia.
Qed.

Lemma word_lor a b : is_byte a -> is_byte b -> Z.lor (Z.shiftl a 8) b = a * 256 + b.
Proof. intros Ha Hb. apply lor_shiftl_add; [lia|apply Hb]. Qed.

Lemma sum_words_spec k p i s :
  Forall is_byte p -> (i + 2 * k <= length p)%nat -> 0 <= s ->
  s + 65536 * Z.of_nat k < 2 ^ 32 ->
  sum_words k p i s = Done (s + wsum (take (2 * k) (drop i p))).
Proof.
  intros Hb. revert i s. induction k as [|k IH]; intros i s Hl Hs Hov.
  - simpl. by rewrite Z.add_0_r.
  - destruct (lookup_lt_is_Some_2 p i) as [a Ha]; [lia|].
    destruct (lookup_lt_is_Some_2 p (S i)) as [b Hb']; [lia|].
    assert (is_byte a /\ is_byte b) as [Ba Bb].
    { rewrite List.Forall_forall in Hb. split; apply Hb, list_elem_of_In; by eapply list_elem_of_lookup_2. }
    cbn [sum_words]. rewrite Ha, Hb'. cbn [deref rbind]. rewrite word_lor by done. unfold is_byte in *.
    rewrite u32_small by lia. rewrite IH by lia. f_equal.
    rewrite (drop_S _ _ _ Ha), (drop_S _ _ _ Hb'). replace (2 * S k)%nat with (S (S (2 * k))) by lia.
    cbn [take wsum]. replace (S (S i)) with (i + 2)%nat by lia. lia.
Qed.

(** The value a sum folds to. *)
Definition folded (s : Z) : Z := if s =? 0 then 0 else (s - 1) mod 65535 + 1.

Lemma folded_small s : 0 <= s < 65536 -> folded s = s.
Proof. intros H. unfold folded. destruct (Z.eqb_spec s 0); [done|]. rewrite Z.mod_small; lia. Qed.
Lemma folded_step s : 0 <= s -> 65536 <= s -> folded (s mod 65536 + s / 65536) = folded s.
Proof.
  intros H0 H. unfold folded. zfalse (s =? 0). destruct (Z.eqb_spec (s mod 65536 + s / 65536) 0); [zdiv|].
  f_equal. rewrite (Z.div_mod s 65536) at 3 by lia.
  replace (65536 * (s / 65536) + s mod 65536 - 1)
    with (s mod 65536 + s / 65536 - 1 + s / 65536 * 65535) by lia.
  by rewrite Z.mod_add.
Qed.

Lemma fold_carry_spec fuel s :
  0 <= s < 2 ^ 32 -> (s < 65536 \/ (s <= 131070 /\ (1 <= fuel)%nat) \/ (2 <= fuel)%nat) ->
  fold_carry fuel s = Done (folded s).
Proof.
  revert s. induction fuel as [|fuel IH]; intros s Hs Hf; cbn [fold_carry]; rewrite shiftr_div by lia;
    change (2 ^ 16) with 65536.
  - rewrite Z.div_small by lia. simpl. by rewrite folded_small by lia.
  - destruct (Z.eqb_spec (s / 65536) 0) as [E|E]; [rewrite folded_small by zdiv; done|].
    rewrite land_65535, u32_small by zdiv. rewrite IH by zdiv. by rewrite folded_step by zdiv.
Qed.

Lemma finish_spec s :
  0 <= s < 2 ^ 32 ->
  exists h l, finish s = Done (Csum [h; l]) /\ is_byte h /\ is_byte l /\ h * 256 + l = 65535 - folded s.
Proof.
  intros Hs. unfold finish. rewrite fold_carry_spec by lia. cbn [rbind].
  assert (0 <= folded s <= 65535) as Hf.
  { unfold folded. destruct (s =? 0); [lia|]. pose proof (Z.mod_pos_bound (s - 1) 65535). lia. }
  do 2 eexists. split; [done|]. rewrite !land_255, shiftr_div by lia. change (2 ^ 8) with 256.
  unfold u32, Z.lnot, is_byte. change (2 ^ 32) with 4294967296. split_and!; zdiv.
Qed.

(** Putting the checksum of a message into it makes the checksum zero. *)
Lemma finish_verifies s h l :
  0 <= s -> s + 65535 < 2 ^ 32 -> finish s = Done (Csum [h; l]) ->
  finish (s + (h * 256 + l)) = Done (Csum [0; 0]).
Proof.
  intros Hs Hov E. destruct (finish_spec s) as (h' & l' & E' & _ & _ & Hc); [lia|].
  rewrite E in E'. injection E' as -> ->. rewrite Hc.
  assert (folded (s + (65535 - folded s)) = 65535 /\ 0 <= folded s <= 65535) as [Hf Hr].
  { unfold folded at 1 2 3 4. destruct (Z.eqb_spec s 0) as [->|]; [simpl; split; [done|lia]|].
    pose proof (Z.mod_pos_bound (s - 1) 65535 ltac:(lia)).
    set (r := (s - 1) mod 65535) in *. set (q := (s - 1) / 65535).
    assert (s - 1 = 65535 * q + r) as Es by (apply Z.div_mod; lia).
    assert (0 <= q) by (apply Z.div_pos; lia).
    zfalse (s + (65535 - (r + 1)) =? 0). split; [|lia].
    replace (s + (65535 - (r + 1)) - 1) with (65534 + q * 65535) by lia.
    rewrite Z.mod_add by lia. done. }
  destruct (finish_spec (s + (65535 - folded s))) as (h2 & l2 & -> & Bh & Bl & Hc2); [lia|].
  unfold is_byte in *. do 2 f_equal. repeat f_equal; lia.
Qed.

Lemma Calc_even p i k :
  Forall is_byte p -> (i + 2 * k <= length p)%nat -> Z.of_nat k < 65535 ->
  Calc p i (i + 2 * k) = finish (wsum (take (2 * k) (drop i p))).
Proof.
  intros Hb Hl Hk. unfold Calc, word_count. replace ((i + 2 * k - i + 1) / 2)%nat with k.
  - rewrite sum_words_spec by (done || lia). by rewrite Z.add_0_l.
  - replace (i + 2 * k - i + 1)%nat with (1 + k * 2)%nat by lia. rewrite Nat.div_add by lia. done.
Qed.

(** ** Packets *)

Record ip_ok (p : IPv4Packet) : Prop := IpOk {
  ok_dst : bytes_ok 6 (mac (eth_dst (ip_eth p)));
  ok_src : bytes_ok 6 (mac (eth_src (ip_eth p)));
  ok_type : bytes_ok 2 (eth_type (ip_eth p));
  ok_version : is_byte (version_and_ihl p);
  ok_dscp : is_byte (dscp_and_ecn p);
  ok_length : bytes_ok 2 (ip_length p);
  ok_ttl : is_byte (ttl p);
  ok_protocol : is_byte (protocol p);
  ok_src_ip : bytes_ok 4 (addr (src_ip p));
  ok_dst_ip : bytes_ok 4 (addr (dst_ip p));
}.

Lemma store16_ok v : bytes_ok 2 (store16 v).
Proof.
  split; [done|]. unfold store16, is_byte. repeat constructor; apply Z.mod_pos_bound; lia.
Qed.
Lemma store32_ok v : bytes_ok 4 (store32 v).
Proof.
  split; [done|]. unfold store32, is_byte. repeat constructor; apply Z.mod_pos_bound; lia.
Qed.
Lemma bytes_ok_app n m l1 l2 : bytes_ok n l1 -> bytes_ok m l2 -> bytes_ok (n + m) (l1 ++ l2).
Proof. intros [H1 F1] [H2 F2]. split; [rewrite length_app; lia|]. by apply list.Forall_app_2. Qed.
Lemma bytes_ok_cons n b l : is_byte b -> bytes_ok n l -> bytes_ok (S n) (b :: l).
Proof. intros Hb [H F]. split; [simpl; lia|by constructor]. Qed.
Lemma bytes_ok_nil : bytes_ok 0 [].
Proof. by split. Qed.
#[export] Hint Resolve store16_ok store32_ok bytes_ok_app bytes_ok_cons bytes_ok_nil : lium.

(** The header before and behind its checksum. *)
Definition ip_head (p : IPv4Packet) : list Z :=
  [version_and_ihl p; dscp_and_ecn p] ++ ip_length p ++ store16 (ident p) ++ store16 (ip_flags p) ++
  [ttl p; protocol p].
Definition ip_tail (p : IPv4Packet) : list Z := addr (src_ip p) ++ addr (dst_ip p).

Lemma ip_bytes_split p c :
  ip_bytes (set_ip_csum p c) = frame_bytes (ip_eth p) ++ ip_head p ++ csum c ++ ip_tail p.
Proof. unfold ip_bytes, ip_head, ip_tail. simpl. by rewrite <- !app_assoc. Qed.
Lemma frame_ok p : ip_ok p -> bytes_ok 14 (frame_bytes (ip_eth p)).
Proof. intros []. unfold frame_bytes. apply (bytes_ok_app 6 8); [done|]. by apply (bytes_ok_app 6 2). Qed.
Lemma ip_head_ok p : ip_ok p -> bytes_ok 10 (ip_head p).
Proof.
  intros []. unfold ip_head. apply (bytes_ok_app 2 8); [auto with lium|]. apply (bytes_ok_app 2 6); [done|].
  apply (bytes_ok_app 2 4); [auto with lium|]. apply (bytes_ok_app 2 2); auto with lium.
Qed.
Lemma ip_tail_ok p : ip_ok p -> bytes_ok 8 (ip_tail p).
Proof. intros []. by apply (bytes_ok_app 4 4). Qed.

Lemma wsum3 l1 c l2 n : length l1 = (2 * n)%nat -> length c = 2%nat ->
  wsum (l1 ++ c ++ l2) = wsum l1 + wsum c + wsum l2.
Proof. intros H1 H2. rewrite (wsum_app l1 _ n), (wsum_app c _ 1) by done. lia. Qed.

(** The checksum over a message with its checksum field in the middle. *)
Lemma Calc_middle f l1 c l2 n m :
  bytes_ok 14 f -> bytes_ok (2 * n) l1 -> bytes_ok 2 c -> bytes_ok (2 * m) l2 ->
  Z.of_nat n + Z.of_nat m < 1000 ->
  Calc (f ++ l1 ++ c ++ l2) 14 (14 + 2 * (n + 1 + m)) = finish (wsum l1 + wsum c + wsum l2).
Proof.
  intros [Hf Bf] [H1 B1] [Hc Bc] [H2 B2] Hs. rewrite Calc_even.
  - rewrite <- Hf, drop_app_length. rewrite take_ge by (rewrite !length_app; lia). by rewrite (wsum3 l1 c l2 n).
  - by repeat apply list.Forall_app_2.
  - rewrite !length_app. lia.
  - lia.
Qed.

Lemma CalcAndSetChecksum_ok p :
  ip_ok p -> exists h l, is_byte h /\ is_byte l /\
    CalcAndSetChecksum p = Done (set_ip_csum p (Csum [h; l])) /\
    Calc (ip_bytes (set_ip_csum p (Csum [h; l]))) 14 34 = Done (Csum [0; 0]).
Proof.
  intros Hp. pose proof (frame_ok p Hp) as Hf. pose proof (ip_head_ok p Hp) as Hh. pose proof (ip_tail_ok p Hp) as Ht.
  pose proof (wsum_bound _ (proj2 Hh)) as B1. pose proof (wsum_bound _ (proj2 Ht)) as B2.
  rewrite (proj1 Hh) in B1. rewrite (proj1 Ht) in B2.
  destruct (finish_spec (wsum (ip_head p) + 0 + wsum (ip_tail p))) as (h & l & E & Bh & Bl & _); [lia|].
  exists h, l. split; [done|]. split; [done|]. unfold CalcAndSetChecksum. rewrite !ip_bytes_split. split.
  - change 34%nat with (14 + 2 * (5 + 1 + 4))%nat.
    rewrite (Calc_middle _ _ _ _ 5 4 Hf Hh) by (try exact Ht; (by apply (bool_decide_unpack _)) || lia).
    change (wsum (csum Csum_Clear)) with 0. rewrite E. done.
  - change 34%nat with (14 + 2 * (5 + 1 + 4))%nat.
    rewrite (Calc_middle _ _ _ _ 5 4 Hf Hh) by (exact Ht || (by split; [done|repeat constructor; apply Bh || apply Bl]) || lia). cbn [csum wsum].
    replace (wsum (ip_head p) + (h * 256 + l + 0) + wsum (ip_tail p))
      with (wsum (ip_head p) + 0 + wsum (ip_tail p) + (h * 256 + l)) by lia.
    apply finish_verifies; [lia|lia|done].
Qed.

(** The pseudo header of UDP. *)
Definition pseudo (src dst : IPv4Addr) (len : list Z) : Z :=
  wsum (addr src) + wsum (addr dst) + wsum len + 17.
Lemma CalcUDP_even p i k src dst len :
  Forall is_byte p -> (i + 2 * k <= length p)%nat -> Z.of_nat k < 60000 ->
  bytes_ok 4 (addr src) -> bytes_ok 4 (addr dst) -> bytes_ok 2 len ->
  CalcUDPChecksum p i (i + 2 * k) src dst len = finish (pseudo src dst len + wsum (take (2 * k) (drop i p))).
Proof.
  intros Hb Hl Hk [Ls Bs] [Ld Bd] [Ll Bl]. unfold CalcUDPChecksum, pseudo, word_count.
  replace ((i + 2 * k - i + 1) / 2)%nat with k.
  2:{ replace (i + 2 * k - i + 1)%nat with (1 + k * 2)%nat by lia. rewrite Nat.div_add by lia. done. }
  destruct src as [[|s0 [|s1 [|s2 [|s3 [|]]]]]]; try done.
  destruct dst as [[|d0 [|d1 [|d2 [|d3 [|]]]]]]; try done.
  destruct len as [|n0 [|n1 [|]]]; try done.
  cbn [addr] in Bs, Bd. 
  repeat match goal with H : Forall is_byte (_ :: _) |- _ => apply List.Forall_cons_iff in H as [? H] end.
  unfold word_at. cbn [addr nth wsum]. rewrite !word_lor by done. unfold is_byte in *.
  repeat match goal with
  | |- context [u32 ?e] =>
    lazymatch e with context [u32 _] => fail | _ => rewrite (u32_small e) by (unfold kUDP; lia) end
  end.
  rewrite sum_words_spec by (done || (unfold is_byte; lia)). cbn [rbind]. f_equal. lia.
Qed.

(** ** Theorems *)

(** The IPv4 header checksum. [CalcAndSetChecksum] always succeeds, changes
    nothing but the checksum, and leaves a header whose checksum a receiver
    computes as zero; with the checksum field holding two other bytes the
    receiver's result is zero exactly when the one's complement sum of the
    words is a positive multiple of 65535. *)
Theorem IPv4_checksum_verifies p :
  ip_ok p ->
  (exists c, CalcAndSetChecksum p = Done (set_ip_csum p c) /\ bytes_ok 2 (csum c) /\
     Calc (ip_bytes (set_ip_csum p c)) 14 34 = Done Csum_Clear) /\
  (forall c, bytes_ok 2 (csum c) ->
     let total := wsum (ip_head p) + wsum (csum c) + wsum (ip_tail p) in
     Calc (ip_bytes (set_ip_csum p c)) 14 34 = Done Csum_Clear <-> 0 < total /\ total mod 65535 = 0).
Proof.
  intros Hp. split.
  - destruct (CalcAndSetChecksum_ok p Hp) as (h & l & Hh & Hl & E & V). exists (Csum [h; l]).
    split_and!; [done|by split; [done|repeat constructor; apply Hh || apply Hl]|done].
  - intros c Hc total. pose proof (frame_ok p Hp) as Hf. pose proof (ip_head_ok p Hp) as Hh.
    pose proof (ip_tail_ok p Hp) as Ht. rewrite ip_bytes_split. change 34%nat with (14 + 2 * (5 + 1 + 4))%nat.
    rewrite (Calc_middle _ _ _ _ 5 4 Hf Hh Hc Ht) by lia. fold total.
    pose proof (wsum_bound _ (proj2 Hh)). pose proof (wsum_bound _ (proj2 Ht)). pose proof (wsum_bound _ (proj2 Hc)).
    rewrite (proj1 Hh), (proj1 Ht), (proj1 Hc) in *.
    destruct (finish_spec total) as (h & l & -> & Bh & Bl & Hs); [lia|]. unfold Csum_Clear, folded, is_byte in *.
    split.
    + intros [= -> ->]. destruct (Z.eqb_spec total 0); [lia|]. split; [lia|]. zdiv.
    + intros [Hpos Hm]. rewrite (proj2 (Z.eqb_neq total 0)) in Hs by lia.
      assert (h = 0 /\ l = 0) as [-> ->]; [|done]. zdiv.
Qed.

Definition demo_ip : IPv4Packet :=
  IpPacket (Frame kBroadcastEtherAddr (Mac [82; 84; 0; 18; 52; 86]) kTypeIPv4) 69 0 [0; 84] 1 64 64 kICMP
    Csum_Clear (IPv4 [10; 0; 2; 15]) (IPv4 [10; 0; 2; 2]).
Lemma IPv4_checksum_verifies_witness :
  exists c, CalcAndSetChecksum demo_ip = Done (set_ip_csum demo_ip c) /\ bytes_ok 2 (csum c) /\
    Calc (ip_bytes (set_ip_csum demo_ip c)) 14 34 = Done Csum_Clear.
Proof.
  apply (IPv4_checksum_verifies demo_ip). constructor; apply (bool_decide_unpack _); vm_compute; exact I.
Defined.

(** *** The DHCP request *)

Lemma CalcUDP_middle f l1 c l2 src dst len k n m :
  bytes_ok k f -> bytes_ok (2 * n) l1 -> bytes_ok 2 c -> bytes_ok (2 * m) l2 ->
  Z.of_nat n + Z.of_nat m < 1000 ->
  bytes_ok 4 (addr src) -> bytes_ok 4 (addr dst) -> bytes_ok 2 len ->
  CalcUDPChecksum (f ++ l1 ++ c ++ l2) k (k + 2 * (n + 1 + m)) src dst len =
  finish (pseudo src dst len + wsum l1 + wsum c + wsum l2).
Proof.
  intros [Hf Bf] [H1 B1] [Hc Bc] [H2 B2] Hs Ls Ld Ll. rewrite CalcUDP_even.
  - rewrite <- Hf, drop_app_length. rewrite take_ge by (rewrite !length_app; lia).
    rewrite (wsum3 l1 c l2 n) by done. f_equal. lia.
  - by repeat apply list.Forall_app_2.
  - rewrite !length_app. lia.
  - lia.
  - done.
  - done.
  - done.
Qed.

(** What precedes and follows the checksum of the UDP header. *)
Definition udp_head (u : IPv4UDPPacket) : list Z := src_port u ++ dst_port u ++ udp_length u.
Definition dhcp_tail (d : DHCPPacket) : list Z :=
  [dhcp_op d; htype d; hlen d; hops d] ++ store32 (xid d) ++ store16 (secs d) ++
  store16 (dhcp_flags d) ++ addr (ciaddr d) ++ addr (yiaddr d) ++ addr (siaddr d) ++ addr (giaddr d) ++
  mac (chaddr d) ++ chaddr_padding d ++ sname d ++ file d ++ cookie d.
Lemma dhcp_bytes_split d c :
  dhcp_bytes (set_udp d (set_udp_csum c (dhcp_udp d))) =
  ip_bytes (udp_ip (dhcp_udp d)) ++ udp_head (dhcp_udp d) ++ csum c ++ dhcp_tail d.
Proof. unfold dhcp_bytes, udp_bytes, udp_head, dhcp_tail. simpl. by rewrite <- !app_assoc. Qed.

Lemma set_udp_csum_same d c :
  udp_csum (dhcp_udp d) = c -> set_udp d (set_udp_csum c (dhcp_udp d)) = d.
Proof. intros <-. by destruct d as [[]]. Qed.
Lemma Calc_prefix l1 l2 i k :
  Forall is_byte (l1 ++ l2) -> length l1 = (i + 2 * k)%nat -> Z.of_nat k < 65535 ->
  Calc (l1 ++ l2) i (i + 2 * k) = Calc l1 i (i + 2 * k).
Proof.
  intros Hb Hl Hk. rewrite (Calc_even (l1 ++ l2)) by (rewrite ?length_app; done || lia).
  apply List.Forall_app in Hb as [Hb _]. rewrite (Calc_even l1) by (done || lia).
  rewrite drop_app_le by lia. rewrite take_app_le by (rewrite length_drop; lia). done.
Qed.

Record dhcp_ok (d : DHCPPacket) : Prop := DhcpOk {
  ok_ip : bytes_ok 34 (ip_bytes (udp_ip (dhcp_udp d)));
  ok_head : bytes_ok 6 (udp_head (dhcp_udp d));
  ok_udp_len : bytes_ok 2 (udp_length (dhcp_udp d));
  ok_tail : bytes_ok 240 (dhcp_tail d);
}.
Lemma ip_bytes_ok p c : ip_ok p -> bytes_ok 2 (csum c) -> bytes_ok 34 (ip_bytes (set_ip_csum p c)).
Proof.
  intros Hp Hc. rewrite ip_bytes_split. apply (bytes_ok_app 14 20); [by apply frame_ok|].
  apply (bytes_ok_app 10 10); [by apply ip_head_ok|]. apply (bytes_ok_app 2 8); [done|by apply ip_tail_ok].
Qed.

(** The UDP checksum verifies once it is in place. *)
Lemma udp_checksum_ok d :
  dhcp_ok d -> udp_csum (dhcp_udp d) = Csum_Clear ->
  let check p := CalcUDPChecksum (dhcp_bytes p) 34 282 kWildcardIPv4Addr kBroadcastIPv4Addr (udp_length (dhcp_udp p)) in
  exists c, bytes_ok 2 (csum c) /\ check d = Done c /\
    check (set_udp d (set_udp_csum c (dhcp_udp d))) = Done Csum_Clear.
Proof.
  intros [Hi Hh Hl Ht] Hz check.
  assert (bytes_ok 4 (addr kWildcardIPv4Addr) /\ bytes_ok 4 (addr kBroadcastIPv4Addr)) as [Hw Hb].
  { split; apply (bool_decide_unpack _); vm_compute; exact I. }
  assert (forall c, bytes_ok 2 (csum c) ->
    check (set_udp d (set_udp_csum c (dhcp_udp d))) =
    finish (pseudo kWildcardIPv4Addr kBroadcastIPv4Addr (udp_length (dhcp_udp d)) +
      wsum (udp_head (dhcp_udp d)) + wsum (csum c) + wsum (dhcp_tail d))) as Hcheck.
  { intros c Hc. unfold check. rewrite dhcp_bytes_split. change 282%nat with (34 + 2 * (3 + 1 + 120))%nat.
    by rewrite (CalcUDP_middle _ _ _ _ _ _ _ 34 3 120 Hi Hh Hc Ht) by (done || lia). }
  pose proof (wsum_bound _ (proj2 Hh)) as B1. pose proof (wsum_bound _ (proj2 Ht)) as B2.
  pose proof (wsum_bound _ (proj2 Hl)) as B3. rewrite (proj1 Hh) in B1. rewrite (proj1 Ht) in B2. rewrite (proj1 Hl) in B3.
  unfold pseudo in Hcheck. change (wsum (addr kWildcardIPv4Addr)) with 0 in Hcheck.
  change (wsum (addr kBroadcastIPv4Addr)) with 131070 in Hcheck.
  set (rest := 0 + 131070 + wsum (udp_length (dhcp_udp d)) + 17 + wsum (udp_head (dhcp_udp d))) in *.
  destruct (finish_spec (rest + 0 + wsum (dhcp_tail d))) as (h & l & E & Bh & Bl & _); [lia|].
  assert (bytes_ok 2 (csum (Csum [h; l]))) as Hc by (by split; [done|repeat constructor; apply Bh || apply Bl]).
  exists (Csum [h; l]). split; [done|]. split.
  - specialize (Hcheck Csum_Clear). change (wsum (csum Csum_Clear)) with 0 in Hcheck.
    rewrite set_udp_csum_same in Hcheck by done. rewrite Hcheck; [done|].
    apply (bool_decide_unpack _); vm_compute; exact I.
  - rewrite Hcheck by done. cbn [csum wsum].
    replace (rest + (h * 256 + l + 0) + wsum (dhcp_tail d)) with (rest + 0 + wsum (dhcp_tail d) + (h * 256 + l)) by lia.
    apply finish_verifies; [lia|lia|done].
Qed.

Lemma dhcp_fields_ok m ip : bytes_ok 6 (mac m) -> bytes_ok 34 (ip_bytes ip) -> dhcp_ok (dhcp_fields m ip).
Proof.
  intros Hm Hip. constructor; [done|apply (bool_decide_unpack _); vm_compute; exact I..|].
  destruct m as [m]. unfold dhcp_tail. cbn -[replicate].
  apply (bytes_ok_app 28 212 [_; _; _; _; _; _; _; _; _; _; _; _; _; _; _; _; _; _; _; _; _; _; _; _; _; _; _; _]).
  { apply (bool_decide_unpack _); vm_compute; exact I. }
  apply (bytes_ok_app 6 206); [done|]. apply (bool_decide_unpack _); vm_compute; exact I.
Qed.
Lemma dhcp_bytes_ok d c : dhcp_ok d -> bytes_ok 2 (csum c) ->
  bytes_ok 282 (ip_bytes (udp_ip (dhcp_udp d)) ++ udp_head (dhcp_udp d) ++ csum c ++ dhcp_tail d).
Proof.
  intros Hd Hc. apply (bytes_ok_app 34 248); [apply Hd|]. apply (bytes_ok_app 6 242); [apply Hd|].
  apply (bytes_ok_app 2 240); [done|apply Hd].
Qed.

Lemma DHCP_SetupRequest_ok m :
  bytes_ok 6 (mac m) ->
  exists ip c, let d := dhcp_fields m ip in let d' := set_udp d (set_udp_csum c (dhcp_udp d)) in
    DHCP_SetupRequest m = Done d' /\ bytes_ok 282 (dhcp_bytes d') /\ Calc (dhcp_bytes d') 14 34 = Done Csum_Clear /\
    CalcUDPChecksum (dhcp_bytes d') 34 282 kWildcardIPv4Addr kBroadcastIPv4Addr (udp_length (dhcp_udp d')) = Done Csum_Clear /\
    exists h, ip = set_ip_csum (dhcp_ip m) h.
Proof.
  intros Hm. assert (ip_ok (dhcp_ip m)) as Hip.
  { constructor; try exact Hm; apply (bool_decide_unpack _); vm_compute; exact I. }
  destruct (CalcAndSetChecksum_ok _ Hip) as (h & l & Bh & Bl & E0 & V).
  assert (bytes_ok 2 (csum (Csum [h; l]))) as Hc by (by split; [done|repeat constructor; apply Bh || apply Bl]).
  pose proof (dhcp_fields_ok m _ Hm (ip_bytes_ok _ _ Hip Hc)) as Hd.
  exists (set_ip_csum (dhcp_ip m) (Csum [h; l])). set (d := dhcp_fields m _) in *.
  destruct (udp_checksum_ok d Hd eq_refl) as (c & Bc & E & V'). exists c. cbn zeta.
  unfold DHCP_SetupRequest. rewrite E0. cbn [rbind]. fold d. unfold sizeof_IPv4Packet, sizeof_DHCPPacket. rewrite E. cbn [rbind].
  split; [done|]. split; [rewrite dhcp_bytes_split; by apply dhcp_bytes_ok|]. split.
  - rewrite dhcp_bytes_split. change 34%nat with (14 + 2 * 10)%nat.
    rewrite Calc_prefix; [exact V|by apply (dhcp_bytes_ok d c)|apply Hd|lia].
  - split; [exact V'|]. by exists (Csum [h; l]).
Qed.

(** A DHCP request can be built for every hardware address. It is 282 bytes
    long, the lengths in its headers are those of its payloads, it is broadcast
    from port 68 to port 67, it carries the hardware address, and both the IPv4
    header checksum and the UDP checksum verify. *)
Theorem DHCP_request_valid m :
  bytes_ok 6 (mac m) ->
  exists d, DHCP_SetupRequest m = Done d /\ bytes_ok sizeof_DHCPPacket (dhcp_bytes d) /\
    Calc (dhcp_bytes d) 14 34 = Done Csum_Clear /\
    CalcUDPChecksum (dhcp_bytes d) 34 282 (src_ip (udp_ip (dhcp_udp d))) (dst_ip (udp_ip (dhcp_udp d)))
      (udp_length (dhcp_udp d)) = Done Csum_Clear /\
    port_value (ip_length (udp_ip (dhcp_udp d))) = 282 - 14 /\ port_value (udp_length (dhcp_udp d)) = 282 - 34 /\
    GetSourcePort (dhcp_udp d) = 68 /\ GetDestinationPort (dhcp_udp d) = 67 /\
    eth_dst (ip_eth (udp_ip (dhcp_udp d))) = kBroadcastEtherAddr /\ chaddr d = m.
Proof.
  intros Hm. destruct (DHCP_SetupRequest_ok m Hm) as (ip & c & E & B & V & V' & h & ->).
  eexists. split; [exact E|]. split; [exact B|]. split; [exact V|]. split; [exact V'|]. by split_and!.
Qed.
Lemma DHCP_request_valid_witness :
  exists d, DHCP_SetupRequest (Mac [82; 84; 0; 18; 52; 86]) = Done d /\ bytes_ok sizeof_DHCPPacket (dhcp_bytes d) /\
    Calc (dhcp_bytes d) 14 34 = Done Csum_Clear.
Proof.
  destruct (DHCP_request_valid (Mac [82; 84; 0; 18; 52; 86])) as (d & H1 & H2 & H3 & _).
  - apply (bool_decide_unpack _); vm_compute; exact I.
  - exact (ex_intro _ d (conj H1 (conj H2 H3))).
Defined.

(** *** Addresses as text *)

Definition octet_digits (b : Z) : list Z :=
  match StringBuffer.decimal_digits 20 b [] with Done ds => map (Z.add 48) ds | Stop _ => [] end.
Definition is_digit (c : Z) : bool := (48 <=? c) && (c <=? 57).

Lemma octet_text b :
  is_byte b ->
  (forall N s, StringBuffer.WriteDecimal64 N b s = Done (StringBuffer.WriteString N (octet_digits b) s)) /\
  forallb is_digit (octet_digits b) = true /\ (length (octet_digits b) <= 3)%nat /\
  (Generic.StrToByte_loop 0 (octet_digits b)).1 = b.
Proof.
  intros Hb. destruct (StringBuffer.decimal_digits_spec 20 b []) as (ds & E & _ & _).
  { unfold is_byte in Hb. simpl. lia. }
  { done. }
  rewrite app_nil_r in E. unfold octet_digits at 1. rewrite E. split.
  - intros N s. unfold StringBuffer.WriteDecimal64. rewrite E. cbn [rbind]. by rewrite StringBuffer.write_digits.
  - assert (forallb (fun b => forallb is_digit (octet_digits b) && (length (octet_digits b) <=? 3)%nat &&
      ((Generic.StrToByte_loop 0 (octet_digits b)).1 =? b)) (seqZ 0 256) = true) as Hall by (vm_compute; reflexivity).
    rewrite forallb_forall in Hall. specialize (Hall b). rewrite !andb_true_iff in Hall.
    destruct Hall as [[H1 H2] H3].
    + apply list_elem_of_In, elem_of_seqZ. unfold is_byte in Hb. lia.
    + split_and!; [done|by apply Nat.leb_le|by apply Z.eqb_eq].
Qed.

Lemma StrToByte_loop_app t rest v :
  forallb is_digit t = true ->
  Generic.StrToByte_loop v (t ++ rest) = Generic.StrToByte_loop (Generic.StrToByte_loop v t).1 rest.
Proof.
  revert v. induction t as [|c t IH]; intros v H; [done|]. cbn [forallb] in H. apply andb_prop in H as [Hc H].
  cbn [Generic.StrToByte_loop app]. unfold is_digit in Hc. rewrite Hc. by apply IH.
Qed.
Lemma StrToByte_octet b rest :
  is_byte b -> match rest with [] => True | c :: _ => is_digit c = false end ->
  Generic.StrToByte (octet_digits b ++ rest) = (b, rest).
Proof.
  intros Hb Hr. destruct (octet_text b Hb) as (_ & Hd & _ & Hv). unfold Generic.StrToByte.
  rewrite StrToByte_loop_app, Hv by done. destruct rest as [|c rest]; cbn [Generic.StrToByte_loop].
  - by rewrite u8_byte.
  - unfold is_digit in Hr. rewrite Hr. by rewrite u8_byte.
Qed.

Definition dotted (b0 b1 b2 b3 : Z) : list Z :=
  octet_digits b0 ++ 46 :: octet_digits b1 ++ 46 :: octet_digits b2 ++ 46 :: octet_digits b3.
Lemma WriteString_app N t u s :
  StringBuffer.WriteString N u (StringBuffer.WriteString N t s) = StringBuffer.WriteString N (t ++ u) s.
Proof. unfold StringBuffer.WriteString. by rewrite foldl_app. Qed.

Lemma WriteChar_string N c s : StringBuffer.WriteChar N c s = StringBuffer.WriteString N [c] s.
Proof. done. Qed.

(** Printing an IPv4 address and reading the text back gives the address:
    the text fits its 128-character buffer, has at most 15 characters, and
    [CreateFromString] accepts it. *)
Theorem IPv4Addr_text_roundtrip a garbage :
  bytes_ok 4 (addr a) -> length garbage = 129%nat ->
  exists t, IPv4Addr_Print a garbage = Done t /\ (length t <= 15)%nat /\ CreateFromString t = Some a.
Proof.
  destruct a as [[|b0 [|b1 [|b2 [|b3 [|]]]]]]; intros [Hl Hb] Hg; try done. cbn [addr] in Hb.
  repeat match goal with H : Forall is_byte (_ :: _) |- _ => apply List.Forall_cons_iff in H as [? H] end.
  destruct (octet_text b0) as (W0 & _ & L0 & _), (octet_text b1) as (W1 & _ & L1 & _),
    (octet_text b2) as (W2 & _ & L2 & _), (octet_text b3) as (W3 & _ & L3 & _); try done.
  exists (dotted b0 b1 b2 b3). split_and!.
  - unfold IPv4Addr_Print, IPv4Addr_WriteString. cbn [addr write_sep].
    rewrite W0. cbn [rbind]. rewrite W1. cbn [rbind]. rewrite W2. cbn [rbind]. rewrite W3. cbn [rbind].
    rewrite !WriteChar_string, !WriteString_app.
    destruct (StringBuffer.WriteString_spec 128 (dotted b0 b1 b2 b3) (StringBuffer.Sb 0 garbage)) as [_ Ht].
    { split; simpl; lia. }
    unfold StringBuffer.GetString. cbn [fst]. rewrite take_insert_ge by lia.
    change (StringBuffer.text (StringBuffer.Sb 0 garbage)) with (@nil Z) in Ht. cbn [app] in Ht.
    rewrite (take_ge (dotted b0 b1 b2 b3)) in Ht.
    + exact (f_equal Done Ht).
    + unfold dotted. rewrite !length_app. simpl. rewrite !length_app. simpl. rewrite length_app. simpl. lia.
  - unfold dotted. rewrite !length_app. simpl. rewrite !length_app. simpl. rewrite length_app. simpl. lia.
  - unfold CreateFromString, dotted. cbn [CreateFromString_loop].
    rewrite StrToByte_octet by done. cbn [Z.eqb]. simpl (46 =? 46). cbn iota.
    rewrite StrToByte_octet by done. simpl (46 =? 46). cbn iota.
    rewrite StrToByte_octet by done. simpl (46 =? 46). cbn iota.
    rewrite <- (app_nil_r (octet_digits b3)). by rewrite StrToByte_octet.
Qed.
Lemma IPv4Addr_text_roundtrip_witness :
  exists t, IPv4Addr_Print (IPv4 [192; 168; 0; 255]) (replicate 129 7) = Done t /\ (length t <= 15)%nat /\
    CreateFromString t = Some (IPv4 [192; 168; 0; 255]).
Proof.
  apply (IPv4Addr_text_roundtrip (IPv4 [192; 168; 0; 255])); [|reflexivity].
  apply (bool_decide_unpack _). vm_compute. exact I.
Defined.

(** An octet above 255 is accepted and reduced: 257.0.0.1 reads as 1.0.0.1. *)
Example CreateFromString_wraps :
  CreateFromString [50; 53; 55; 46; 48; 46; 48; 46; 49] = Some (IPv4 [1; 0; 0; 1]).
Proof. reflexivity. Qed.

(** *** Sockets *)

Definition keys (l : list Socket) : list (Z * Z) := map (fun s => (s_pid s, s_fd s)) l.
Definition lookup_socket (pid fd : Z) (l : list Socket) : option Socket := List.find (is_socket pid fd) l.

Lemma is_socket_true pid fd s : is_socket pid fd s = true <-> (s_pid s, s_fd s) = (pid, fd).
Proof. unfold is_socket. rewrite andb_true_iff, !Z.eqb_eq. split; [intros [-> ->]|intros [= -> ->]]; done. Qed.
Lemma lookup_socket_None pid fd l : lookup_socket pid fd l = None <-> (pid, fd) ∉ keys l.
Proof.
  induction l as [|s l IH]; [split; [intros _ H; inversion H|done]|]. unfold lookup_socket in *. cbn [List.find keys map].
  rewrite not_elem_of_cons. destruct (is_socket pid fd s) eqn:E.
  - apply is_socket_true in E. rewrite E. split; [done|]. by intros [? _].
  - assert ((s_pid s, s_fd s) <> (pid, fd)) by (rewrite <- is_socket_true, E; done). rewrite IH. intuition congruence.
Qed.
Lemma lookup_socket_app pid fd l1 l2 :
  lookup_socket pid fd (l1 ++ l2) = match lookup_socket pid fd l1 with Some s => Some s | None => lookup_socket pid fd l2 end.
Proof. induction l1 as [|s l1 IH]; [done|]. unfold lookup_socket in *. simpl. by destruct (is_socket pid fd s). Qed.
Lemma bind_loop_spec pid fd port l b l' :
  bind_loop pid fd port l = (b, l') ->
  keys l' = keys l /\ b = bool_decide (lookup_socket pid fd l = None) /\
  lookup_socket pid fd l' =
    option_map (fun s => MkSocket (s_pid s) (s_fd s) port (s_type s)) (lookup_socket pid fd l) /\
  (forall p f, (p, f) <> (pid, fd) -> lookup_socket p f l' = lookup_socket p f l).
Proof.
  revert b l'. induction l as [|s l IH]; intros b l' H; cbn [bind_loop] in H; [by injection H as <- <-|].
  destruct (is_socket pid fd s) eqn:E.
  - injection H as <- <-. apply is_socket_true in E as E'. injection E' as Ep Ef. unfold lookup_socket. cbn [List.find].
    rewrite E. split_and!; [done|done| |].
    + assert (is_socket pid fd (MkSocket (s_pid s) (s_fd s) port (s_type s)) = true) as -> by done. done.
    + intros p f Hne. assert (is_socket p f s = false) as E1.
      { apply not_true_iff_false. rewrite is_socket_true. congruence. }
      assert (is_socket p f (MkSocket (s_pid s) (s_fd s) port (s_type s)) = false) as -> by done. by rewrite E1.
  - destruct (bind_loop pid fd port l) as [b2 l2] eqn:El. injection H as <- <-.
    destruct (IH _ _ eq_refl) as (Hk & Hb & Hf & Ho). unfold lookup_socket in *. cbn [List.find keys map]. rewrite E.
    split_and!; [by f_equal|done|done|]. intros p f Hne. destruct (is_socket p f s); [done|]. by apply Ho.
Qed.

(** The socket table maps a process and file descriptor to one socket.
    [RegisterSocket] fails exactly when the pair is taken and then changes
    nothing; otherwise the pair gets a socket of the given type, listening on
    port 12345 whatever the other sockets do. [BindToPort] fails exactly when
    the pair has no socket; otherwise it changes the port of that socket only.
    Neither affects other sockets, and pairs stay unique. *)
Theorem socket_table n pid fd :
  NoDup (keys (sockets_ n)) ->
  (forall t, let '(err, n') := RegisterSocket pid fd t n in
     NoDup (keys (sockets_ n')) /\ (err = true <-> FindSocket pid fd n <> None) /\
     FindSocket pid fd n' = (if err then FindSocket pid fd n else Some (MkSocket pid fd 12345 t)) /\
     (forall p f, (p, f) <> (pid, fd) -> FindSocket p f n' = FindSocket p f n)) /\
  (forall port, let '(err, n') := BindToPort pid fd port n in
     NoDup (keys (sockets_ n')) /\ (err = true <-> FindSocket pid fd n = None) /\
     FindSocket pid fd n' = option_map (fun s => MkSocket pid fd port (s_type s)) (FindSocket pid fd n) /\
     (forall p f, (p, f) <> (pid, fd) -> FindSocket p f n' = FindSocket p f n)).
Proof.
  intros Hnd. split.
  - intros t. unfold RegisterSocket. destruct (FindSocket pid fd n) as [s|] eqn:E; [done|].
    assert (forall p f, FindSocket p f (set_sockets n (sockets_ n ++ [MkSocket pid fd 12345 t])) =
      match FindSocket p f n with Some s => Some s | None => lookup_socket p f [MkSocket pid fd 12345 t] end) as Hf.
    { intros p f. apply lookup_socket_app. }
    split_and!.
    + cbn [sockets_ set_sockets]. unfold keys. rewrite map_app. apply list.NoDup_app.
      split_and!; [done| |apply NoDup_singleton]. intros x Hx ->%list_elem_of_singleton.
      by apply (lookup_socket_None pid fd (sockets_ n)) in Hx.
    + done.
    + rewrite Hf, E. unfold lookup_socket, is_socket. simpl. by rewrite !Z.eqb_refl.
    + intros p f Hne. rewrite Hf. destruct (FindSocket p f n); [done|]. unfold lookup_socket. cbn [List.find].
      assert (is_socket p f (MkSocket pid fd 12345 t) = false) as ->; [|done].
      apply not_true_iff_false. rewrite is_socket_true. simpl. congruence.
  - intros port. unfold BindToPort. destruct (bind_loop pid fd port (sockets_ n)) as [b l] eqn:E.
    apply bind_loop_spec in E as (Hk & -> & Hf & Ho). cbn [sockets_ set_sockets].
    split_and!; [by rewrite Hk|by rewrite bool_decide_eq_true| |done].
    unfold FindSocket. cbn [sockets_ set_sockets]. fold (lookup_socket pid fd l). rewrite Hf.
    fold (lookup_socket pid fd (sockets_ n)). destruct (lookup_socket pid fd (sockets_ n)) as [s|] eqn:Es; [|done].
    apply List.find_some in Es as [_ Es%is_socket_true]. simpl. by injection Es as -> ->.
Qed.
Definition demo_net : network :=
  Network ∅ (RingBuffer.new (replicate 32 zero_container)) [MkSocket 1 3 12345 kUDPSocket; MkSocket 1 4 12345 kICMPRaw]
    kWildcardIPv4Addr (NetMask [255; 255; 255; 0]).
Lemma socket_table_witness :
  let '(err, n') := RegisterSocket 2 3 kUDPSocket demo_net in
  err = false /\ NoDup (keys (sockets_ n')) /\ FindSocket 2 3 n' = Some (MkSocket 2 3 12345 kUDPSocket).
Proof.
  destruct (socket_table demo_net 2 3) as [H _].
  - apply (bool_decide_unpack _). vm_compute. exact I.
  - exact (conj eq_refl (conj (proj1 (H kUDPSocket)) (proj1 (proj2 (proj2 (H kUDPSocket)))))).
Defined.
