(* ===== verification/NetApps.v ===== *)
(** * The network programs of [app/]: httpclient, dig, ping, udpclient, udpserver

    Each program is modelled whole on the byte memory; its local arrays are at
    the addresses given as parameters.  The theorems: the checksum of ping is the
    kernel's, the ICMP echo request carries it, and the name encoding of dig is
    undone by its own name printer. *)

From stdpp Require Import strings.
From S2P Require Import Network.
From S2P Require Import Prelude CMem LiumlibStr LiumlibNum Syscalls HttpServer Browser.

(** Little-endian loads and stores of multi-byte fields. *)
Definition load_le (p : Z) (n : nat) : M Z := let! bs := load_bytes p n in ret (le_value bs).
Definition store_le (p : Z) (n : nat) (v : Z) : M unit := store_bytes p (le_bytes n v).

(** [for (i = 0; i < n; i++)] printing a byte and a space, or a newline behind
    every sixteenth. *)
Definition dump_bytes (buf n : Z) : M unit :=
  loop (fun i =>
    if negb (i <? n) then break_ tt
    else
      let! b := load (buf + i) in
      PrintHex8ZeroFilled b ;;
      write_buf 1 (if Z.land i 15 =? 15 then [10] else [32]) ;;
      continue_ (i32 (i + 1))) 0.

(** ** httpclient.c *)

Module HttpClient.
Section HttpClient.
Context (L : string -> Z) (response : Z).

Record options := Options { host : Z; path : Z; ip : Z; port : Z; tcp : bool }.

Definition RequestLine (o : options) (request : Z) : M unit :=
  strcpy request (L "GET ") ;;
  strcat request (path o) ;;
  strcat request (L " HTTP/1.1
") ;;
  ret tt.
Definition Headers (o : options) (request : Z) : M unit :=
  strcat request (L "Host: ") ;;
  strcat request (host o) ;;
  strcat request (L newline) ;;
  ret tt.
Definition Crlf (request : Z) : M unit := strcat request (L newline) ;; ret tt.
Definition Body (request : Z) : M unit := ret tt.

Definition SendRequest (o : options) (request : Z) : M unit :=
  let! socket_fd := socket AF_INET (if tcp o then SOCK_STREAM else SOCK_DGRAM) 0 in
  if socket_fd <? 0 then Println_lit "Error: Failed to create a socket" ;; exit_ 1
  else
    let! s_addr := inet_addr (ip o) in
    let address := SockAddr (htons (port o)) s_addr in
    (if tcp o then
       let! r := connect socket_fd address in
       if r <? 0 then Println_lit "Error: Fail to connect a socket" ;; exit_ EXIT_FAILURE else ret tt
     else ret tt) ;;
    let! n := strlen request in
    let! r := sendto socket_fd request n address in
    if r <? 0 then Println_lit "Error: Failed to send a request." ;; exit_ EXIT_FAILURE
    else
      Println_lit "Request sent. Waiting for a response..." ;;
      let! r := recvfrom socket_fd response SIZE_RESPONSE address in
      if r.1 <? 0 then Println_lit "Error: Failed to receive a response." ;; exit_ EXIT_FAILURE
      else
        Println_lit "----- response -----" ;;
        Println response ;;
        let! r := close socket_fd in ret tt.

(** [empty] is the address of the literal empty string. *)
Definition ParseArgs (empty : Z) (argc : Z) (argv : list Z) : M (option options) :=
  loop (fun '(argc, argv, o) =>
    if negb (0 <? argc) then break_ (Some o)
    else
      let a := arg argv 0 in
      let b := arg argv 1 in
      let! is_ip := equal_any (L "--ip") (L "-i") a in
      if is_ip then continue_ (argc - 2, drop 2 argv, Options (host o) (path o) b (port o) (tcp o))
      else
        let! is_port := equal_any (L "--port") (L "-p") a in
        if is_port then
          let! n := StrToNum16 b in
          continue_ (argc - 2, drop 2 argv, Options (host o) (path o) (ip o) n.1 (tcp o))
        else
          let! is_host := equal_any (L "--host") (L "-h") a in
          if is_host then continue_ (argc - 2, drop 2 argv, Options b (path o) (ip o) (port o) (tcp o))
          else
            let! is_path := equal_any (L "--path") (L "-P") a in
            if is_path then continue_ (argc - 2, drop 2 argv, Options (host o) b (ip o) (port o) (tcp o))
            else
              let! is_tcp := equal (L "--tcp") a in
              if is_tcp then continue_ (argc - 1, drop 1 argv, Options (host o) (path o) (ip o) (port o) true)
              else break_ None)
    (argc, argv, Options empty (L "/") (L "127.0.0.1") 8888 false).

Definition main (empty : Z) (argc : Z) (argv : list Z) : M unit :=
  let! r := ParseArgs empty (argc - 1) (drop 1 argv) in
  match r with
  | None =>
    Println_lit "Usage: httpclient.bin [ OPTIONS ]" ;;
    Println_lit "       -i, --ip      IP address. Default: 127.0.0.1" ;;
    Println_lit "       -p, --port    Port number. Default: 8888" ;;
    Println_lit "       -h, --host    Host property of the URL. Default: Ø" ;;
    Println_lit "       -P, --path    Path property of the URL. Default: /" ;;
    Println_lit "           --tcp     Flag to use TCP. Use UDP when it doesn't exist." ;;
    exit_ EXIT_FAILURE
  | Some o =>
    (if tcp o then Println_lit "Log: Using protocol: TCP" else Println_lit "Log: Using protocol: UDP") ;;
    let! request := malloc SIZE_REQUEST in
    RequestLine o request ;;
    Headers o request ;;
    Crlf request ;;
    Body request ;;
    Println_lit "----- request -----" ;;
    Println request ;;
    SendRequest o request ;;
    exit_ 0
  end.

(** The client builds the request the browser builds. *)
Lemma same_request o request u :
  Browser.url_path u = path o -> Browser.host u = host o ->
  (RequestLine o request ;; Headers o request ;; Crlf request ;; Body request) =
  Browser.BuildRequest L u request.
Proof. intros Hp Hh. unfold Browser.BuildRequest, Browser.RequestLine, Browser.Headers. by rewrite Hp, Hh. Qed.
End HttpClient.
End HttpClient.

(** ** ping.c *)

Module Ping.
Section Ping.
(** The addresses of [icmp] and [recv_buf]. *)
Context (icmp recv_buf : Z).
Definition sizeof_ICMPMessage : Z := 8.

Definition CalcChecksum (buf start end_ : Z) : M Z :=
  let! sum := loop (fun '(i, sum) =>
    if negb (i <? end_) then break_ sum
    else
      let! a := load (buf + i) in
      let! b := load (buf + i + 1) in
      continue_ (u64 (i + 2), u32 (sum + Z.lor (Z.shiftl a 8) b))) (start, 0) in
  let! sum := loop (fun sum =>
    if Z.shiftr sum 16 =? 0 then break_ sum
    else continue_ (u32 (Z.land sum 65535 + Z.shiftr sum 16))) sum in
  let sum := u32 (Z.lnot sum) in
  ret (Z.lor (Z.land (Z.shiftr sum 8) 255) (Z.shiftl (Z.land sum 255) 8)).

(** The echo request: cleared, the type set, then the checksum. *)
Definition setup_icmp : M unit :=
  memset icmp 0 sizeof_ICMPMessage ;;
  store icmp 8 ;;
  let! c := CalcChecksum icmp 0 sizeof_ICMPMessage in
  store_le (icmp + 2) 2 c.

Definition main (argc : Z) (argv : list Z) : M Z :=
  if negb (argc =? 2) then
    Print_lit "Usage: " ;;
    Print (arg argv 0) ;;
    Print_lit " <ip addr>
" ;;
    exit_ EXIT_FAILURE
  else
    let! ping_target_ip_addr := MakeIPv4AddrFromString (arg argv 1) in
    Print_lit "Ping to " ;;
    PrintIPv4Addr ping_target_ip_addr ;;
    Print_lit "...
" ;;
    let! soc := socket AF_INET SOCK_DGRAM PROT_ICMP in
    if soc <? 0 then panic "socket() failed
"
    else
      (* sin_port is left uninitialised *)
      let addr := SockAddr 0 ping_target_ip_addr in
      setup_icmp ;;
      let! n := sendto soc icmp sizeof_ICMPMessage addr in
      if n <? 1 then panic "sendto() failed
"
      else
        let! r := recvfrom soc recv_buf 256 addr in
        let '(recv_len, addr) := r in
        if recv_len <? 1 then panic "recvfrom() failed
"
        else
          Print_lit "recvfrom returned: " ;;
          PrintNum recv_len ;;
          Print_lit newline ;;
          dump_bytes recv_buf recv_len ;;
          Print_lit newline ;;
          Print_lit "ICMP packet received from " ;;
          PrintIPv4Addr (s_addr addr) ;;
          Print_lit " ICMP Type = " ;;
          let! type := load recv_buf in
          PrintNum type ;;
          Print_lit newline ;;
          let! r := close soc in
          ret 0.
End Ping.
End Ping.

(** ** dig.c *)

Module Dig.
Section Dig.
(** The addresses of [query_buf], 512 bytes, and [buf], 4096 bytes. *)
Context (query_buf buf : Z).
Definition sizeof_DNSMessage : Z := 12.

(** The header: [flags] is at offset 2, [num_questions] at 4. *)
Definition query_header : M unit :=
  memset query_buf 0 sizeof_DNSMessage ;;
  store_le (query_buf + 2) 2 0x2001 ;;
  store_le (query_buf + 4) 2 0x0100.

(** [while ( *s && *s != '.' )]: the final [s], [query_size] and [count]. *)
Definition copy_label (s query_size : Z) : M (Z * Z * Z) :=
  loop (fun '(s, query_size, count) =>
    let! c := load s in
    if (c =? 0) || (c =? 46) then break_ (s, query_size, count)
    else
      store (query_buf + query_size) c ;;
      continue_ (s + 1, query_size + 1, u8 (count + 1))) (s, query_size, 0).
(** The outer [while]: the final [query_size]. *)
Definition copy_name (s query_size : Z) : M Z :=
  loop (fun '(s, query_size) =>
    let! c := load s in
    if c =? 0 then break_ query_size
    else
      let! r := copy_label s (query_size + 1) in
      let '(s, query_size, count) := r in
      let! c := load s in
      let s := if c =? 46 then s + 1 else s in
      store (query_buf + (query_size - count - 1)) count ;;
      continue_ (s, query_size)) (s, query_size).
Definition build_query (hostname : Z) : M Z :=
  query_header ;;
  let! query_size := copy_name hostname sizeof_DNSMessage in
  store_bytes (query_buf + query_size) [0; 0; 1; 0; 1] ;;
  ret (query_size + 5).

(** [while ( *p )] printing the labels of a name; the final [p]. *)
Definition print_name (p : Z) : M Z :=
  loop (fun p =>
    let! c := load p in
    if c =? 0 then break_ p
    else
      write 1 (p + 1) c ;;
      let p := p + (c + 1) in
      let! d := load p in
      (if d =? 0 then ret tt else write_buf 1 [46]) ;;
      continue_ p) p.
Definition print_questions (num_questions p : Z) : M Z :=
  loop (fun '(i, p) =>
    if negb (i <? num_questions) then break_ p
    else
      Print_lit "Query: " ;;
      let! p := print_name p in
      let p := p + 1 + 2 + 2 in
      Print_lit newline ;;
      continue_ (i + 1, p)) (0, p).
Definition print_answers (num_answers p : Z) : M Z :=
  loop (fun '(i, p) =>
    if negb (i <? num_answers) then break_ p
    else
      let p := p + 2 + 2 + 2 + 4 + 2 in
      let! a := load_le p 4 in
      PrintIPv4Addr a ;;
      let p := p + 4 in
      Print_lit newline ;;
      continue_ (i + 1, p)) (0, p).

Definition main (argc : Z) (argv : list Z) : M Z :=
  if negb (argc =? 3) then
    Print_lit "Usage: dig.bin <DNS server ip> <hostname>
" ;;
    ret EXIT_FAILURE
  else
    let! socket_fd := socket AF_INET SOCK_DGRAM IPPROTO_UDP in
    if socket_fd =? -1 then
      write_buf 1 (lit "error: fail to create socket
") ;;
      ret EXIT_FAILURE
    else
      let! s_addr := MakeIPv4AddrFromString (arg argv 1) in
      let dst_address := SockAddr (htons 53) s_addr in
      let! query_size := build_query (arg argv 2) in
      let! sent_size := sendto socket_fd query_buf query_size dst_address in
      dump_bytes query_buf query_size ;;
      Print_lit newline ;;
      Print_lit "Sent size: " ;;
      PrintNum (i32 sent_size) ;;
      Print_lit newline ;;
      let! r := recvfrom socket_fd buf 4096 (SockAddr 0 0) in
      let recv_size := r.1 in
      if recv_size =? -1 then panic "error: recvfrom returned -1
"
      else
        Print_lit "Received size: " ;;
        PrintNum (i32 recv_size) ;;
        Print_lit newline ;;
        dump_bytes buf recv_size ;;
        Print_lit newline ;;
        Print_lit "Num of answer RRs: " ;;
        let! num_answers := load_le (buf + 6) 2 in
        PrintNum (htons num_answers) ;;
        Print_lit newline ;;
        let! num_questions := load_le (buf + 4) 2 in
        let! p := print_questions (htons num_questions) (buf + sizeof_DNSMessage) in
        Print_lit "Answers:
" ;;
        print_answers (htons num_answers) p ;;
        ret 0.
End Dig.
End Dig.

(** ** udpclient.c and udpserver.c *)

Module UdpClient.
Definition main (argc : Z) (argv : list Z) : M Z :=
  if argc <? 4 then
    Print_lit "Usage: udpclient.bin <ip addr> <port> <message>
" ;;
    ret EXIT_FAILURE
  else
    let! socket_fd := socket AF_INET SOCK_DGRAM IPPROTO_UDP in
    if socket_fd =? -1 then
      write_buf 1 (lit "error: fail to create socket
") ;;
      ret EXIT_FAILURE
    else
      let! s_addr := MakeIPv4AddrFromString (arg argv 1) in
      let! port := StrToNum16 (arg argv 2) in
      let dst_address := SockAddr (htons port.1) s_addr in
      let buf := arg argv 3 in
      let! n := strlen buf in
      let! sent_size := sendto socket_fd buf n dst_address in
      Print_lit "Sent size: " ;;
      PrintNum (i32 sent_size) ;;
      Print_lit newline ;;
      ret 0.
End UdpClient.

Module UdpServer.
Section UdpServer.
(** The address of [buf], 4096 bytes. *)
Context (buf : Z).
(** One iteration of the receive loop; [write] gets [received_size] as its
    unsigned count. *)
Definition receive (socket_fd : Z) (client_address : sockaddr_in) : M (sockaddr_in + Z) :=
  let! r := recvfrom socket_fd buf 4096 client_address in
  let received_size := r.1 in
  if received_size =? -1 then panic "error: recvfrom returned -1
"
  else
    Print_lit "Received size: " ;;
    PrintNum (i32 received_size) ;;
    Print_lit newline ;;
    write 1 buf (u64 received_size) ;;
    Print_lit newline ;;
    continue_ r.2.
Definition main (argc : Z) (argv : list Z) : M Z :=
  if argc <? 2 then
    Print_lit "Usage: udpserver.bin <port>
" ;;
    ret EXIT_FAILURE
  else
    let! port := StrToNum16 (arg argv 1) in
    let! socket_fd := socket AF_INET SOCK_DGRAM 0 in
    if socket_fd =? -1 then panic "error: failed to create socket
"
    else
      let! r := bind_ socket_fd (SockAddr (htons port.1) INADDR_ANY) in
      if r =? -1 then
        let! r := close socket_fd in
        panic "error: failed to bind socket
"
      else
        Print_lit "Listening port: " ;;
        PrintNum port.1 ;;
        Print_lit newline ;;
        loop (receive socket_fd) (SockAddr 0 0).
End UdpServer.
End UdpServer.

(** ** The checksum of ping is the kernel's *)

Module PingProofs.
Import Ping.

Lemma sum_loop_ok bs buf k i s r n fuel w (body := fun '(i, sum) =>
    if negb (i <? Z.of_nat (length bs)) then break_ sum
    else
      let! a := load (buf + i) in
      let! b := load (buf + i + 1) in
      continue_ (u64 (i + 2), u32 (sum + Z.lor (Z.shiftl a 8) b))) :
  bytes_at w buf bs -> Z.of_nat (length bs) < 2 ^ 63 -> (i + 2 * k = length bs)%nat -> (k < n)%nat ->
  Network.sum_words k bs i s = Done r ->
  iterM body n (Z.of_nat i, s) fuel w = Ok r w.
Proof.
  intros Hb Hl. revert i s n. induction k as [|k IH]; intros i s n Hi Hn Hs; (destruct n as [|n]; [lia|]).
  - cbn in Hs. injection Hs as ->. iter_break body ltac:(rewrite (proj2 (Z.ltb_ge _ _)) by lia). done.
  - cbn [Network.sum_words] in Hs. destruct (bs !! i) as [a|] eqn:Ea; [|done].
    destruct (bs !! S i) as [b|] eqn:Eb; [|done]. cbn [deref rbind] in Hs.
    pose proof (Hb _ _ Ea) as Ha. pose proof (Hb _ _ Eb) as Hb'.
    replace (buf + Z.of_nat (S i)) with (buf + Z.of_nat i + 1) in Hb' by lia.
    assert ((Z.of_nat i <? Z.of_nat (length bs)) = true) as Hlt by (apply Z.ltb_lt; lia).
    iter_continue body ltac:(rewrite Hlt; cbn [negb]; mstep; mstep).
    rewrite u64_small by lia. replace (Z.of_nat i + 2) with (Z.of_nat (i + 2)) by lia. apply IH; [lia|lia|done].
Qed.

Lemma fold_loop_ok m s r n fuel w (body := fun sum =>
    if Z.shiftr sum 16 =? 0 then break_ sum
    else continue_ (u32 (Z.land sum 65535 + Z.shiftr sum 16))) :
  Network.fold_carry m s = Done r -> (m < n)%nat -> iterM (R := Z) body n s fuel w = Ok r w.
Proof.
  revert s n. induction m as [|m IH]; intros s n Hs Hn; (destruct n as [|n]; [lia|]);
    cbn [Network.fold_carry] in Hs; destruct (Z.shiftr s 16 =? 0) eqn:E; try done.
  - injection Hs as ->. iter_break body ltac:(rewrite E). done.
  - injection Hs as ->. iter_break body ltac:(rewrite E). done.
  - iter_continue body ltac:(rewrite E). apply IH; [done|lia].
Qed.

Lemma CalcChecksum_ok bs k buf fuel w :
  bytes_at w buf bs -> Forall is_byte bs -> length bs = (2 * k)%nat -> Z.of_nat k < 30000 -> (k + 3 < fuel)%nat ->
  exists v h l, CalcChecksum buf 0 (Z.of_nat (length bs)) fuel w = Ok v w /\
    Network.Calc bs 0 (length bs) = Done (Network.Csum [h; l]) /\ is_byte h /\ is_byte l /\ v = h + 256 * l.
Proof.
  intros Hb Hby Hk Hk2 Hf.
  assert (Network.sum_words k bs 0 0 = Done (0 + Network.wsum (take (2 * k) (drop 0 bs)))) as Hs.
  { apply Network.sum_words_spec; [done|lia|lia|]. change (2 ^ 32) with 4294967296. lia. }
  set (s := 0 + Network.wsum (take (2 * k) (drop 0 bs))) in *.
  assert (0 <= s < 2 ^ 32) as Hr.
  { pose proof (Network.wsum_bound (take (2 * k) (drop 0 bs))) as Hw. rewrite length_take, length_drop in Hw.
    unfold s. change (2 ^ 32) with 4294967296. specialize (Hw ltac:(by apply Forall_take, Forall_drop)). lia. }
  assert (Network.fold_carry 2 s = Done (Network.folded s)) as Hc by (apply Network.fold_carry_spec; [done|right; right; lia]).
  set (f := u32 (Z.lnot (Network.folded s))).
  exists (Z.lor (Z.land (Z.shiftr f 8) 255) (Z.shiftl (Z.land f 255) 8)), (Z.land (Z.shiftr f 8) 255), (Z.land f 255).
  assert (is_byte (Z.land (Z.shiftr f 8) 255) /\ is_byte (Z.land f 255)) as [Bh Bl].
  { rewrite !land_255. unfold is_byte. split; apply Z.mod_pos_bound; lia. }
  split_and!; [| |done|done|].
  - unfold CalcChecksum, loop. erewrite bind_ok by (by eapply (sum_loop_ok bs buf k 0); [done|lia|lia|lia|]).
    erewrite bind_ok by (eapply (fold_loop_ok 2); [exact Hc|lia]). done.
  - unfold Network.Calc, Network.word_count. replace ((length bs - 0 + 1) / 2)%nat with k.
    + rewrite Hs. cbn [rbind]. unfold Network.finish. rewrite Hc. done.
    + rewrite Hk. replace (2 * k - 0 + 1)%nat with (1 + k * 2)%nat by lia. rewrite Nat.div_add by lia. done.
  - rewrite Z.lor_comm, lor_shiftl_add by (try exact Bh; lia). lia.
Qed.


Definition echo_request : list Z := [8; 0; 247; 255; 0; 0; 0; 0].

Lemma setup_icmp_ok icmp fuel w :
  writable w icmp 8 -> (10 < fuel)%nat -> setup_icmp icmp fuel w = Ok tt (put w icmp echo_request).
Proof.
  intros Hw Hf. unfold setup_icmp.
  erewrite bind_ok by (apply (memset_ok icmp 0 8); [done|lia|lia]).
  assert (mapped (w_mem (put w icmp (replicate 8 0))) icmp = true) as Hm by (eapply writable_head; [exact Hw|lia]).
  erewrite bind_ok by (by apply store_ok). change (replicate 8 0) with ([] ++ [0] ++ replicate 7 0).
  assert (put (put w icmp ([] ++ [0] ++ replicate 7 0)) icmp [8] = put w icmp [8; 0; 0; 0; 0; 0; 0; 0]) as ->.
  { pose proof (put_field w icmp [] [0] [8] (replicate 7 0) eq_refl) as E. by rewrite Z.add_0_r in E. }
  destruct (CalcChecksum_ok [8; 0; 0; 0; 0; 0; 0; 0] 4 icmp fuel (put w icmp [8; 0; 0; 0; 0; 0; 0; 0]))
    as (v & h & l & Ec & Ek & _ & _ & ->); [|by repeat constructor|done|lia|lia|].
  { apply bytes_at_put; [exact Hw|by repeat constructor]. }
  vm_compute in Ek. injection Ek as <- <-. change (Z.of_nat (length [8; 0; 0; 0; 0; 0; 0; 0])) with 8 in Ec.
  erewrite bind_ok by exact Ec. unfold store_le. rewrite store_bytes_ok.
  - f_equal. exact (put_field w icmp [8; 0] [0; 0] [247; 255] [0; 0; 0; 0] eq_refl).
  - apply writable_put. eapply writable_sub; [exact Hw|lia|simpl; lia].
Qed.

(** C39: ping and the kernel compute the same Internet checksum: on every even
    number of bytes (up to 60000) the value of [CalcChecksum], as it lies in
    memory, is the one [InternetChecksum::Calc] gives. The echo request that ping
    sends is type 8 with this checksum, and the kernel's check of it is zero. *)
Theorem ping_checksum_is_kernel bs k buf icmp fuel w :
  bytes_at w buf bs -> Forall is_byte bs -> length bs = (2 * k)%nat -> Z.of_nat k < 30000 ->
  (k + 10 < fuel)%nat -> writable w icmp 8 ->
  (exists v c, CalcChecksum buf 0 (Z.of_nat (length bs)) fuel w = Ok v w /\
     Network.Calc bs 0 (length bs) = Done (Network.Csum c) /\ le_bytes 2 v = c) /\
  (exists w', setup_icmp icmp fuel w = Ok tt w' /\ bytes_at w' icmp echo_request /\
     Network.Calc echo_request 0 8 = Done Network.Csum_Clear).
Proof.
  intros Hb Hby Hk Hk2 Hf Hw. split.
  - destruct (CalcChecksum_ok bs k buf fuel w) as (v & h & l & E & Ek & Bh & Bl & ->); [done..|lia|].
    exists (h + 256 * l), [h; l]. split_and!; [done|done|]. cbn [le_bytes]. unfold u8, is_byte in *.
    change (2 ^ 8) with 256. rewrite shiftr_div by lia. change (2 ^ 8) with 256. f_equal; [|f_equal]; zdiv.
  - exists (put w icmp echo_request). split; [apply setup_icmp_ok; [done|lia]|]. split; [|reflexivity].
    apply bytes_at_put; [exact Hw|by repeat constructor].
Qed.
Definition demo_icmp : world := demo_world 100 300 [(100, [69; 0; 0; 84])].
Lemma ping_checksum_is_kernel_witness :
  exists v, CalcChecksum 100 0 4 20%nat demo_icmp = Ok v demo_icmp /\
    Network.Calc [69; 0; 0; 84] 0 4 = Done (Network.Csum (le_bytes 2 v)).
Proof.
  destruct (ping_checksum_is_kernel [69; 0; 0; 84] 2 100 200 20%nat demo_icmp) as [(v & c & E & Ek & Ec) _];
    [demo|by repeat constructor|reflexivity|lia|lia|demo|].
  exists v. split; [exact E|]. rewrite Ec. exact Ek.
Defined.
End PingProofs.

(** ** The names of dig *)

Module DigProofs.
Import Dig.
Section DigProofs.
Context (query_buf : Z).

Lemma copy_label_ok t c s qs fuel w :
  bytes_at w s (t ++ [c]) -> Forall (fun b => b <> 0 /\ b <> 46) t -> (c = 0 \/ c = 46) ->
  writable w (query_buf + qs) (Z.of_nat (length t)) ->
  disjoint_from (query_buf + qs) (Z.of_nat (length t)) s (Z.of_nat (length t) + 1) ->
  (length t < fuel)%nat -> (length t < 256)%nat ->
  copy_label query_buf s qs fuel w =
    Ok (s + Z.of_nat (length t), qs + Z.of_nat (length t), Z.of_nat (length t)) (put w (query_buf + qs) t).
Proof.
  intros Hb Ht Hc Hw Hd Hf Hl. unfold copy_label. name_loop body.
  assert (forall rest pre k, t = pre ++ rest -> (length rest < k)%nat ->
    iterM body k (s + Z.of_nat (length pre), qs + Z.of_nat (length pre), Z.of_nat (length pre)) fuel (put w (query_buf + qs) pre) =
    Ok (s + Z.of_nat (length t), qs + Z.of_nat (length t), Z.of_nat (length t)) (put w (query_buf + qs) t)) as H.
  { induction rest as [|b rest IH]; intros pre k Et Hk; (destruct k as [|k]; [simpl in Hk; lia|]).
    - rewrite app_nil_r in Et. subst pre.
      assert (mread (w_mem (put w (query_buf + qs) t)) (s + Z.of_nat (length t)) = Some c) as Hr.
      { rewrite mread_put_out by (unfold disjoint_from in Hd; lia). apply Hb. by rewrite lookup_app_r, Nat.sub_diag. }
      assert ((c =? 0) || (c =? 46) = true) as Hs by (by destruct Hc as [->| ->]).
      iter_break body ltac:(mstep; rewrite Hs). done.
    - assert (length t = length pre + S (length rest))%nat as El by (by rewrite Et, length_app).
      assert (mread (w_mem (put w (query_buf + qs) pre)) (s + Z.of_nat (length pre)) = Some b) as Hr.
      { rewrite mread_put_out by (unfold disjoint_from in Hd; lia). apply Hb. rewrite Et, <- app_assoc.
        rewrite lookup_app_r, Nat.sub_diag by done. done. }
      assert (b <> 0 /\ b <> 46) as [Hb0 Hb1].
      { rewrite Et in Ht. apply List.Forall_app in Ht as [_ Ht]. by apply List.Forall_cons_iff in Ht as [? _]. }
      assert (mapped (w_mem (put w (query_buf + qs) pre)) (query_buf + (qs + Z.of_nat (length pre))) = true) as Hm.
      { rewrite mapped_put, Z.add_assoc. apply Hw. lia. }
      erewrite (iterM_continue body).
      2:{ unfold body. cbn beta iota. mstep. rewrite (proj2 (Z.eqb_neq b 0)), (proj2 (Z.eqb_neq b 46)) by done. cbn [orb].
          erewrite bind_ok by (by apply store_ok). reflexivity. }
      rewrite u8_small by lia. specialize (IH (pre ++ [b]) k). rewrite length_app, put_app in IH. cbn [length] in IH.
      replace (s + Z.of_nat (length pre) + 1) with (s + Z.of_nat (length pre + 1)) by lia.
      replace (query_buf + (qs + Z.of_nat (length pre))) with (query_buf + qs + Z.of_nat (length pre)) by lia.
      replace (qs + Z.of_nat (length pre) + 1) with (qs + Z.of_nat (length pre + 1)) by lia.
      replace (Z.of_nat (length pre) + 1) with (Z.of_nat (length pre + 1)) by lia.
      apply IH; [by rewrite <- app_assoc|simpl in Hk; lia]. }
  specialize (H t [] fuel eq_refl Hf). rewrite put_nil in H. simpl in H. by rewrite !Z.add_0_r in H.
Qed.

(** A name as its labels: as text, and as DNS encodes it. *)
Fixpoint join (ls : list (list Z)) : list Z :=
  match ls with
  | [] => []
  | [l] => l
  | l :: ls' => l ++ 46 :: join ls'
  end.
Definition encode (ls : list (list Z)) : list Z := concat (map (fun l => Z.of_nat (length l) :: l) ls).
Definition label_ok (l : list Z) : Prop :=
  l <> [] /\ (length l < 256)%nat /\ Forall (fun b => 0 < b < 256 /\ b <> 46) l.
#[global] Instance label_ok_dec l : Decision (label_ok l).
Proof. unfold label_ok. apply _. Defined.

Lemma join_cons l ls : join (l :: ls) = l ++ match ls with [] => [] | _ => 46 :: join ls end.
Proof. destruct ls; simpl; [by rewrite app_nil_r|done]. Qed.
Lemma encode_cons l ls : encode (l :: ls) = Z.of_nat (length l) :: l ++ encode ls.
Proof. done. Qed.
Lemma encode_bytes ls : Forall label_ok ls -> Forall is_byte (encode ls).
Proof.
  induction 1 as [|l ls (_ & Hl & Hb) _ IH]; [constructor|]. rewrite encode_cons. constructor; [unfold is_byte; lia|].
  apply list.Forall_app_2; [|done]. eapply List.Forall_impl; [|exact Hb]. unfold is_byte. simpl. lia.
Qed.

Lemma cstr_app_tail w s a b : cstr w s (a ++ b) -> cstr w (s + Z.of_nat (length a)) b.
Proof.
  intros [Hn Hb]. apply List.Forall_app in Hn as [_ Hn]. rewrite <- app_assoc in Hb.
  apply bytes_at_app in Hb as [_ Hb]. by split.
Qed.

(** One round of the outer loop writes the length and the label. *)
Lemma copy_name_loop ls s qs n fuel w (body := fun '(s, query_size) =>
    let! c := load s in
    if c =? 0 then break_ query_size
    else
      let! r := copy_label query_buf s (query_size + 1) in
      let '(s, query_size, count) := r in
      let! c := load s in
      let s := if c =? 46 then s + 1 else s in
      store (query_buf + (query_size - count - 1)) count ;;
      continue_ (s, query_size)) :
  Forall label_ok ls -> cstr w s (join ls) ->
  writable w (query_buf + qs) (Z.of_nat (length (encode ls))) ->
  disjoint_from (query_buf + qs) (Z.of_nat (length (encode ls))) s (Z.of_nat (length (join ls)) + 1) ->
  (length ls < n)%nat -> (256 < fuel)%nat ->
  iterM body n (s, qs) fuel w = Ok (qs + Z.of_nat (length (encode ls))) (put w (query_buf + qs) (encode ls)).
Proof.
  revert s qs n w. induction ls as [|l ls IH]; intros s qs n w Hls Hc Hw Hd Hn Hf; (destruct n as [|n]; [simpl in Hn; lia|]).
  - apply cstr_nil in Hc. iter_break body ltac:(mstep). simpl. by rewrite put_nil, Z.add_0_r.
  - apply List.Forall_cons_iff in Hls as [(Hne & Hll & Hlb) Hls]. rewrite encode_cons in *. rewrite join_cons in Hc, Hd.
    cbn [length] in Hw, Hd, Hn. rewrite length_app in Hw, Hd. set (a := query_buf + qs) in *.
    assert (exists b, mread (w_mem w) s = Some b /\ b <> 0) as (b & Hb & Hb0).
    { destruct l as [|b l]; [done|]. apply cstr_cons in Hc as (? & ? & _). exists b. split; [done|lia]. }
    set (c := match ls with [] => 0 | _ => 46 end).
    assert (bytes_at w s (l ++ [c])) as Bl.
    { destruct Hc as [_ Hc]. unfold c. destruct ls as [|l2 ls2]; [by rewrite app_nil_r in Hc|].
      replace ((l ++ 46 :: join (l2 :: ls2)) ++ [0]) with ((l ++ [46]) ++ join (l2 :: ls2) ++ [0]) in Hc by (by rewrite <- !app_assoc).
      by apply bytes_at_app in Hc as [? _]. }
    assert (length l + 1 <= length (l ++ match ls with [] => [] | _ => 46%Z :: join ls end) + 1)%nat as Hjl by (cbn [length]; rewrite length_app; lia).
    assert (copy_label query_buf s (qs + 1) fuel w =
      Ok (s + Z.of_nat (length l), qs + 1 + Z.of_nat (length l), Z.of_nat (length l)) (put w (a + 1) l)) as Ecl.
    { replace (a + 1) with (query_buf + (qs + 1)) by (unfold a; lia). apply (copy_label_ok l c); try done.
      - eapply List.Forall_impl; [|exact Hlb]. simpl. lia.
      - unfold c. destruct ls; auto.
      - rewrite Z.add_assoc. fold a. eapply writable_sub; [exact Hw|lia..].
      - rewrite Z.add_assoc. fold a. unfold disjoint_from in *. lia.
      - lia. }
    assert (mread (w_mem (put w (a + 1) l)) (s + Z.of_nat (length l)) = Some c) as Hr.
    { rewrite mread_put_out by (unfold disjoint_from in Hd; lia). apply Bl. by rewrite lookup_app_r, Nat.sub_diag. }
    assert (mapped (w_mem (put w (a + 1) l)) a = true) as Hm by (rewrite mapped_put; eapply writable_head; [exact Hw|lia]).
    erewrite (iterM_continue body).
    2:{ unfold body. cbn beta iota. mstep. rewrite (proj2 (Z.eqb_neq b 0)) by done.
        erewrite bind_ok by exact Ecl. cbv beta iota. mstep.
        replace (query_buf + (qs + 1 + Z.of_nat (length l) - Z.of_nat (length l) - 1)) with a by (unfold a; lia).
        erewrite bind_ok by (by apply store_ok). reflexivity. }
    rewrite put_head. set (w' := put w a (Z.of_nat (length l) :: l)).
    change (Z.of_nat (length l) :: l ++ encode ls) with ((Z.of_nat (length l) :: l) ++ encode ls) at 2.
    rewrite put_app. fold w'.
    replace (a + Z.of_nat (length (Z.of_nat (length l) :: l))) with (query_buf + (qs + 1 + Z.of_nat (length l))) by (unfold a; cbn [length]; lia).
    replace (qs + Z.of_nat (length (Z.of_nat (length l) :: l ++ encode ls)))
      with (qs + 1 + Z.of_nat (length l) + Z.of_nat (length (encode ls))) by (cbn [length]; rewrite length_app; lia).
    assert (frame a (Z.of_nat (length l) + 1) w w') as F by (apply frame_put; cbn [length]; lia).
    rewrite length_app in Hd.
    apply IH; try done; try lia.
    + apply (frame_cstr a (Z.of_nat (length l) + 1) w); [done| |].
      * unfold c, disjoint_from in *. destruct ls; cbn [length join] in *; simpl Z.eqb; cbn iota; try lia.
      * unfold c. destruct ls as [|l2 ls2]; [apply (cstr_app_tail _ s l []) in Hc; done|].
        apply (cstr_app_tail _ s (l ++ [46])) in Hc || idtac.
        replace (l ++ 46 :: join (l2 :: ls2)) with ((l ++ [46]) ++ join (l2 :: ls2)) in Hc by (by rewrite <- app_assoc).
        apply cstr_app_tail in Hc. rewrite length_app in Hc. cbn [length] in Hc. simpl (46 =? 46). cbn iota.
        by replace (s + Z.of_nat (length l) + 1) with (s + Z.of_nat (length l + 1)) by lia.
    + apply writable_put. eapply writable_sub; [exact Hw|unfold a; lia..].
    + unfold c, disjoint_from, a in *. destruct ls; cbn [length join] in *; simpl Z.eqb; cbn iota; lia.
Qed.
(** What the name printer writes to descriptor 1. *)
Fixpoint says (ls : list (list Z)) : list sys_event :=
  match ls with
  | [] => []
  | l :: ls' => SysWrite 1 l :: match ls' with [] => [] | _ => [SysWrite 1 [46]] end ++ says ls'
  end.
Definition printed (tr : list sys_event) : list Z :=
  concat (map (fun e => match e with SysWrite 1 bs => bs | _ => [] end) tr).
Lemma printed_says ls : printed (says ls) = join ls.
Proof.
  unfold printed. induction ls as [|l ls IH]; [done|]. rewrite join_cons. destruct ls as [|l2 ls]; [done|].
  change (says (l :: l2 :: ls)) with (SysWrite 1 l :: SysWrite 1 [46] :: says (l2 :: ls)).
  rewrite !map_cons, !concat_cons, IH. done.
Qed.
Lemma label_length l : label_ok l -> 0 < Z.of_nat (length l) < 256.
Proof. intros (H & ? & _). destruct l; [done|]. cbn [length] in *. lia. Qed.
Lemma encode_next ls : Forall label_ok ls ->
  exists d, (encode ls ++ [0]) !! 0%nat = Some d /\ (d =? 0) = match ls with [] => true | _ => false end.
Proof.
  intros H. destruct ls as [|l ls]; [by exists 0|]. exists (Z.of_nat (length l)). split; [done|].
  apply List.Forall_cons_iff in H as [H _]. apply label_length in H. lia.
Qed.

Lemma print_name_ok ls p fuel w :
  Forall label_ok ls -> bytes_at w p (encode ls ++ [0]) -> (length ls < fuel)%nat ->
  print_name p fuel w = Ok (p + Z.of_nat (length (encode ls))) (fold_left add_trace (says ls) w).
Proof.
  intros H. unfold print_name. name_loop body. generalize fuel at 1 2. intros n. revert p n w.
  induction H as [|l ls Hl Hls IH]; intros p n w Hb Hn; (destruct n as [|n]; [cbn [length] in Hn; lia|]).
  - assert (mread (w_mem w) p = Some 0) as Hr by (pose proof (Hb 0%nat 0 eq_refl) as Hr; by rewrite Z.add_0_r in Hr).
    iter_break body ltac:(mstep). by rewrite Z.add_0_r.
  - rewrite encode_cons in *. cbn [app] in Hb. apply bytes_at_cons in Hb as [Hr Hb].
    rewrite <- app_assoc in Hb. apply bytes_at_app in Hb as [Hb1 Hb2].
    destruct (encode_next ls Hls) as (d & Hd & Hd0). pose proof (Hb2 _ _ Hd) as Hr2. rewrite Z.add_0_r in Hr2.
    pose proof (label_length l Hl) as Hll.
    erewrite (iterM_continue body).
    2:{ unfold body. cbn beta iota. mstep. rewrite (proj2 (Z.eqb_neq _ 0)) by lia. unfold write at 1. rewrite Nat2Z.id.
        erewrite bind_ok by (erewrite bind_ok by (by apply load_bytes_ok); reflexivity).
        replace (p + (Z.of_nat (length l) + 1)) with (p + 1 + Z.of_nat (length l)) by lia.
        erewrite bind_ok by (apply load_ok; exact Hr2). rewrite Hd0.
        instantiate (1 := fold_left add_trace (SysWrite 1 l :: match ls with [] => [] | _ => [SysWrite 1 [46]] end) w).
        destruct ls; reflexivity. }
    rewrite IH.
    + change (says (l :: ls)) with ((SysWrite 1 l :: match ls with [] => [] | _ => [SysWrite 1 [46]] end) ++ says ls).
      rewrite fold_left_app. f_equal. cbn [length]. rewrite length_app. lia.
    + intros i b Hi. specialize (Hb2 i b Hi). destruct ls; exact Hb2.
    + cbn [length] in Hn. lia.
Qed.

(** The query of a name of labels [ls]: one question of type A, class IN. *)
Definition query (ls : list (list Z)) : list Z :=
  [0; 0; 1; 32; 0; 1; 0; 0; 0; 0; 0; 0] ++ encode ls ++ [0; 0; 1; 0; 1].

Lemma query_header_ok fuel w :
  writable w query_buf 12 -> (12 < fuel)%nat ->
  query_header query_buf fuel w = Ok tt (put w query_buf [0; 0; 1; 32; 0; 1; 0; 0; 0; 0; 0; 0]).
Proof.
  intros Hw Hf. unfold query_header, store_le.
  erewrite bind_ok by (apply (memset_ok query_buf 0 12); [done|lia|lia]).
  erewrite bind_ok by (apply store_bytes_ok, writable_put; eapply writable_sub; [exact Hw|lia|simpl; lia]).
  rewrite store_bytes_ok by (apply writable_put, writable_put; eapply writable_sub; [exact Hw|lia|simpl; lia]).
  f_equal. change (le_bytes 2 0x2001) with [1; 32]. change (le_bytes 2 0x0100) with [0; 1].
  etransitivity; [exact (f_equal (fun x => put x (query_buf + 4) [0; 1])
    (put_field w query_buf [0; 0] [0; 0] [1; 32] (replicate 8 0) eq_refl))|].
  exact (put_field w query_buf [0; 0; 1; 32] [0; 0] [0; 1] (replicate 6 0) eq_refl).
Qed.

Lemma build_query_ok ls hostname fuel w :
  Forall label_ok ls -> cstr w hostname (join ls) ->
  writable w query_buf (Z.of_nat (length (query ls))) ->
  disjoint_from query_buf (Z.of_nat (length (query ls))) hostname (Z.of_nat (length (join ls)) + 1) ->
  (length ls + 256 < fuel)%nat ->
  build_query query_buf hostname fuel w = Ok (Z.of_nat (length (query ls))) (put w query_buf (query ls)).
Proof.
  intros Hls Hc Hw Hd Hf. unfold query in *. rewrite !length_app in *. cbn [length] in *.
  unfold build_query. erewrite bind_ok by (apply query_header_ok; [eapply writable_sub; [exact Hw|lia..]|lia]).
  set (h := [0; 0; 1; 32; 0; 1; 0; 0; 0; 0; 0; 0]). unfold copy_name, loop.
  erewrite bind_ok.
  2:{ apply (copy_name_loop ls hostname sizeof_DNSMessage); unfold sizeof_DNSMessage.
      - exact Hls.
      - apply cstr_put_ne; [|exact Hc]. unfold disjoint_from, h in *. cbn [length]. lia.
      - apply writable_put. eapply writable_sub; [exact Hw|lia..].
      - unfold disjoint_from in *. lia.
      - lia.
      - lia. }
  change (query_buf + sizeof_DNSMessage) with (query_buf + Z.of_nat (length h)). rewrite <- put_app.
  replace (query_buf + (sizeof_DNSMessage + Z.of_nat (length (encode ls)))) with (query_buf + Z.of_nat (length (h ++ encode ls)))
    by (unfold sizeof_DNSMessage; rewrite length_app; unfold h; cbn [length]; lia).
  erewrite bind_ok.
  2:{ apply store_bytes_ok, writable_put. rewrite length_app. unfold h. cbn [length]. eapply writable_sub; [exact Hw|lia..]. }
  rewrite <- put_app, <- app_assoc. unfold ret. f_equal. unfold sizeof_DNSMessage. lia.
Qed.

Lemma trace_fold evs w : w_trace (fold_left add_trace evs w) = w_trace w ++ evs.
Proof.
  revert w. induction evs as [|e evs IH]; intros w; [by rewrite app_nil_r|]. cbn [fold_left]. rewrite IH.
  cbn [add_trace w_trace]. by rewrite <- app_assoc.
Qed.

(** C40: for every host name of nonempty labels shorter than 256 bytes dig builds
    the query with the DNS header, the labels with their lengths, the terminator,
    type A and class IN; and the name printer it uses on answers, run on that
    query, writes exactly the host name and stops at the terminator. *)
Theorem dig_name_roundtrip ls hostname fuel w :
  Forall label_ok ls -> cstr w hostname (join ls) ->
  writable w query_buf (Z.of_nat (length (query ls))) ->
  disjoint_from query_buf (Z.of_nat (length (query ls))) hostname (Z.of_nat (length (join ls)) + 1) ->
  (length ls + 256 < fuel)%nat ->
  exists w1 w2 evs,
    build_query query_buf hostname fuel w = Ok (Z.of_nat (length (query ls))) w1 /\
    bytes_at w1 query_buf (query ls) /\
    print_name (query_buf + sizeof_DNSMessage) fuel w1 =
      Ok (query_buf + sizeof_DNSMessage + Z.of_nat (length (encode ls))) w2 /\
    w_trace w2 = w_trace w ++ evs /\ printed evs = join ls.
Proof.
  intros Hls Hc Hw Hd Hf. exists (put w query_buf (query ls)), (fold_left add_trace (says ls) (put w query_buf (query ls))), (says ls).
  assert (bytes_at (put w query_buf (query ls)) query_buf (query ls)) as Hb.
  { apply bytes_at_put; [exact Hw|]. unfold query. apply list.Forall_app_2; [by repeat constructor|].
    apply list.Forall_app_2; [by apply encode_bytes|by repeat constructor]. }
  split_and!; [by apply build_query_ok|exact Hb| | |apply printed_says].
  - apply print_name_ok; [done| |lia]. revert Hb. generalize (put w query_buf (query ls)). intros w1 Hb.
    unfold query in Hb. apply bytes_at_app in Hb as [_ Hb].
    change (encode ls ++ [0; 0; 1; 0; 1]) with (encode ls ++ [0] ++ [0; 1; 0; 1]) in Hb. rewrite app_assoc in Hb.
    apply bytes_at_app in Hb as [Hb _]. exact Hb.
  - exact (trace_fold (says ls) (put w query_buf (query ls))).
Qed.
End DigProofs.

Definition demo_dig : world := demo_world 0 700 [(600, lit "hikalium.com" ++ [0])].
Lemma dig_name_roundtrip_witness :
  exists w1, build_query 100 600 300%nat demo_dig = Ok 30 w1 /\
    bytes_at w1 100 ([0; 0; 1; 32; 0; 1; 0; 0; 0; 0; 0; 0] ++ [8] ++ lit "hikalium" ++ [3] ++ lit "com" ++ [0; 0; 1; 0; 1]).
Proof.
  destruct (dig_name_roundtrip 100 [lit "hikalium"; lit "com"] 600 300%nat demo_dig) as (w1 & w2 & evs & E & Hb & _).
  - apply (bool_decide_unpack _). vm_compute. exact I.
  - demo.
  - demo.
  - unfold disjoint_from. left. vm_compute. intros H; inversion H.
  - cbn [length]. lia.
  - exists w1. split; [exact E|exact Hb].
Defined.
End DigProofs.
