(* ===== verification/Sheet.v ===== *)
(** * The compositor: [src/sheet.h], [src/sheet.cc], [src/sheet_painter.h],
    [src/sheet_painter.cc]

    A [Sheet*] is a key of the store.  The children of a sheet form a list,
    bottom first, linked by [upper_]; the map of a sheet says for each of its
    pixels which child is seen there.  Every sheet has its own pixel array.  The
    theorem: whatever is inserted, moved, made transparent or drawn, the map
    names the topmost opaque child at each pixel and the parent shows its pixel. *)

From S2P Require Import Prelude KernelBase.
Import KernelBase.Rect.

(** ** Loops and arrays *)

Fixpoint foldM {A S} (f : A -> S -> res S) (l : list A) (s : S) : res S :=
  match l with
  | [] => Done s
  | a :: l' => do s <- f a s; foldM f l' s
  end.
(** [for (int i = lo; i < hi; i++)]. *)
Definition for_ {S} (lo hi : Z) (body : Z -> S -> res S) : S -> res S :=
  foldM body (seqZ lo (hi - lo)).

Definition aget {A} (l : list A) (i : Z) : res A :=
  if i <? 0 then Stop BadPointer else deref (l !! Z.to_nat i).
Definition aset {A} (i : Z) (v : A) (l : list A) : res (list A) :=
  if (0 <=? i) && (i <? Z.of_nat (length l)) then Done (<[Z.to_nat i := v]> l) else Stop BadPointer.
(** [a[y * w + x]], the index computed in [int]. *)
Definition index (w px py : Z) : Z := i32 (i32 (py * w) + px).

(** ** sheet.h *)

Record Sheet := MkSheet {
  parent_ : option nat;
  upper_ : option nat;
  bottom_child_ : option nat;
  buf_ : option (list Z);
  map_ : option (list (option nat));
  rect_ : rect;
  pixels_per_scan_line_ : Z;
  is_topmost_ : bool;
  is_alpha_enabled_ : bool;
  is_locked_ : bool;
}.
Notation heap := (gmap nat Sheet).
(** A null array has no elements that could be accessed. *)
Definition array {A} (o : option (list A)) : list A := default [] o.

Definition set_parent (p : option nat) (s : Sheet) : Sheet :=
  MkSheet p (upper_ s) (bottom_child_ s) (buf_ s) (map_ s) (rect_ s) (pixels_per_scan_line_ s) (is_topmost_ s)
    (is_alpha_enabled_ s) (is_locked_ s).
Definition set_upper (p : option nat) (s : Sheet) : Sheet :=
  MkSheet (parent_ s) p (bottom_child_ s) (buf_ s) (map_ s) (rect_ s) (pixels_per_scan_line_ s) (is_topmost_ s)
    (is_alpha_enabled_ s) (is_locked_ s).
Definition set_bottom_child (p : option nat) (s : Sheet) : Sheet :=
  MkSheet (parent_ s) (upper_ s) p (buf_ s) (map_ s) (rect_ s) (pixels_per_scan_line_ s) (is_topmost_ s)
    (is_alpha_enabled_ s) (is_locked_ s).
Definition set_buf (b : list Z) (s : Sheet) : Sheet :=
  MkSheet (parent_ s) (upper_ s) (bottom_child_ s) (Some b) (map_ s) (rect_ s) (pixels_per_scan_line_ s)
    (is_topmost_ s) (is_alpha_enabled_ s) (is_locked_ s).
Definition set_map (m : option (list (option nat))) (s : Sheet) : Sheet :=
  MkSheet (parent_ s) (upper_ s) (bottom_child_ s) (buf_ s) m (rect_ s) (pixels_per_scan_line_ s)
    (is_topmost_ s) (is_alpha_enabled_ s) (is_locked_ s).
Definition set_rect (r : rect) (s : Sheet) : Sheet :=
  MkSheet (parent_ s) (upper_ s) (bottom_child_ s) (buf_ s) (map_ s) r (pixels_per_scan_line_ s)
    (is_topmost_ s) (is_alpha_enabled_ s) (is_locked_ s).
Definition SetTopmost (b : bool) (s : Sheet) : Sheet :=
  MkSheet (parent_ s) (upper_ s) (bottom_child_ s) (buf_ s) (map_ s) (rect_ s) (pixels_per_scan_line_ s)
    b (is_alpha_enabled_ s) (is_locked_ s).
Definition set_alpha (b : bool) (s : Sheet) : Sheet :=
  MkSheet (parent_ s) (upper_ s) (bottom_child_ s) (buf_ s) (map_ s) (rect_ s) (pixels_per_scan_line_ s)
    (is_topmost_ s) b (is_locked_ s).
Definition SetLocked (b : bool) (s : Sheet) : Sheet :=
  MkSheet (parent_ s) (upper_ s) (bottom_child_ s) (buf_ s) (map_ s) (rect_ s) (pixels_per_scan_line_ s)
    (is_topmost_ s) (is_alpha_enabled_ s) b.

(** [is_locked_] is not initialised. *)
Definition Init (buf : option (list Z)) (xsize ysize pixels_per_scan_line x y : Z) (old : Sheet) : Sheet :=
  MkSheet None None None buf None (R x y xsize ysize) pixels_per_scan_line false false (is_locked_ old).

Definition GetX (s : Sheet) : Z := x (rect_ s).
Definition GetY (s : Sheet) : Z := y (rect_ s).
Definition GetXSize (s : Sheet) : Z := xsize (rect_ s).
Definition GetYSize (s : Sheet) : Z := ysize (rect_ s).
Definition GetBufSize (s : Sheet) : Z := i32 (i32 (ysize (rect_ s) * pixels_per_scan_line_ s) * 4).
Definition GetClientRect (s : Sheet) : rect := R 0 0 (xsize (rect_ s)) (ysize (rect_ s)).

Definition get (h : heap) (p : nat) : res Sheet := deref (h !! p).
Definition modify (p : nat) (f : Sheet -> Sheet) (h : heap) : res heap :=
  do s <- get h p; Done (<[p := f s]> h).

(** The body of the loop over the children in [UpdateMap]: the child [s], at [q],
    takes its pixels in [target]. *)
Definition cover (p s : Sheet) (q : nat) (target : rect) (map : list (option nat)) : res (list (option nat)) :=
  let in_view := GetIntersectionWith target (rect_ s) in
  for_ (y in_view) (i32 (y in_view + ysize in_view)) (fun py =>
    for_ (x in_view) (i32 (x in_view + xsize in_view)) (fun px map =>
      if is_alpha_enabled_ s then
        do c <- aget (array (buf_ s))
          (index (pixels_per_scan_line_ s) (i32 (px - GetX s)) (i32 (py - GetY s)));
        if Z.shiftr c 24 =? 0 then Done map
        else aset (index (pixels_per_scan_line_ p) px py) (Some q) map
      else aset (index (pixels_per_scan_line_ p) px py) (Some q) map)) map.
Fixpoint cover_all (fuel : nat) (h : heap) (p : Sheet) (target : rect) (s : option nat)
  (map : list (option nat)) : res (list (option nat)) :=
  match fuel with
  | O => Stop FuelOut
  | S f =>
    match s with
    | None => Done map
    | Some q =>
      do sh <- get h q;
      do map <- cover p sh q target map;
      cover_all f h p target (upper_ sh) map
    end
  end.
Definition clear (p : Sheet) (target : rect) : list (option nat) -> res (list (option nat)) :=
  for_ (y target) (GetBottom target) (fun py =>
    for_ (x target) (GetRight target) (fun px => aset (index (GetXSize p) px py) None)).
Definition UpdateMap (self : nat) (target : rect) (h : heap) : res heap :=
  do p <- get h self;
  match map_ p with
  | None => Done h
  | Some map =>
    let target := GetIntersectionWith target (GetClientRect p) in
    do map <- clear p target map;
    do map <- cover_all (S (size h)) h p target (bottom_child_ p) map;
    Done (<[self := set_map (Some map) p]> h)
  end.
Definition SetMap (self : nat) (map : option (list (option nat))) (h : heap) : res heap :=
  do h <- modify self (set_map map) h;
  do s <- get h self;
  UpdateMap self (rect_ s) h.

(** ** sheet.cc *)

(** The pixels are copied where the parent's map names this sheet. *)
Definition FlushInParent (self : nat) (rx ry rw rh : Z) (h : heap) : res heap :=
  do s <- get h self;
  do pp <- deref (parent_ s);
  do p <- get h pp;
  let t := GetIntersectionWith (GetClientRect p) (R rx ry rw rh) in
  if (xsize t <=? 0) || (ysize t <=? 0) then Done h
  else
    match map_ p with
    | None => Done h
    | Some map =>
      run kassert ((0 <=? x t) && (0 <=? y t) && (i32 (x t + xsize t) <=? xsize (rect_ p)) &&
                   (i32 (y t + ysize t) <=? ysize (rect_ p)));
      do b <- for_ (y t) (i32 (y t + ysize t)) (fun py =>
        for_ (x t) (i32 (x t + xsize t)) (fun px b =>
          do m <- aget map (index (pixels_per_scan_line_ p) px py);
          if bool_decide (m = Some self) then
            do c <- aget (array (buf_ s))
              (index (pixels_per_scan_line_ s) (i32 (px - GetX s)) (i32 (py - GetY s)));
            aset (index (pixels_per_scan_line_ p) px py) c b
          else Done b)) (array (buf_ p));
      Done (<[pp := match buf_ p with None => p | Some _ => set_buf b p end]> h)
    end.
Definition Flush (self : nat) (rx ry rw rh : Z) (h : heap) : res heap :=
  do s <- get h self;
  do pp <- deref (parent_ s);
  do p <- get h pp;
  let t := GetIntersectionWith (GetClientRect p)
    (GetIntersectionWith (rect_ s) (R (i32 (rx + GetX s)) (i32 (ry + GetY s)) rw rh)) in
  FlushInParent self (x t) (y t) (xsize t) (ysize t) h.
Definition Flush_all (self : nat) (h : heap) : res heap :=
  do s <- get h self; Flush self 0 0 (GetXSize s) (GetYSize s) h.

(** ** Insertion and movement *)

(** [Sheet**]: where a link to a sheet is stored. *)
Inductive holder := BottomChildOf (p : nat) | UpperOf (q : nat).
Definition get_holder (a : holder) (h : heap) : res (option nat) :=
  match a with
  | BottomChildOf p => rmap bottom_child_ (get h p)
  | UpperOf q => rmap upper_ (get h q)
  end.
Definition set_holder (a : holder) (v : option nat) : heap -> res heap :=
  match a with
  | BottomChildOf p => modify p (set_bottom_child v)
  | UpperOf q => modify q (set_upper v)
  end.
(** [while ( *holder && !( *holder)->is_topmost_)]. *)
Fixpoint topmost_upper_holder (fuel : nat) (a : holder) (h : heap) : res holder :=
  match fuel with
  | O => Stop FuelOut
  | S f =>
    do o <- get_holder a h;
    match o with
    | None => Done a
    | Some q =>
      do s <- get h q;
      if is_topmost_ s then Done a else topmost_upper_holder f (UpperOf q) h
    end
  end.
Definition SetParent (self : nat) (parent : option nat) (h : heap) : res heap :=
  do h <- modify self (set_parent parent) h;
  match parent with
  | None => Done h
  | Some p =>
    do a <- topmost_upper_holder (S (size h)) (BottomChildOf p) h;
    do o <- get_holder a h;
    do h <- modify self (set_upper o) h;
    do h <- set_holder a (Some self) h;
    do s <- get h self;
    do h <- UpdateMap p (rect_ s) h;
    Flush_all self h
  end.

(** The areas of the parent's map that [SetPosition] brings up to date. *)
Definition moved_areas (prev_rect next_rect : rect) : list rect :=
  if IsEmptyRect (GetIntersectionWith prev_rect next_rect) then [prev_rect; next_rect]
  else if rect_eqb prev_rect next_rect then [prev_rect]
  else if (x prev_rect =? x next_rect) || (y prev_rect =? y next_rect) then [GetUnionWith prev_rect next_rect]
  else
    let '(s1, s2) := if x prev_rect <? x next_rect then (prev_rect, next_rect) else (next_rect, prev_rect) in
    let dx := i32 (x s2 - x s1) in
    let dy := i32 (Z.abs (i32 (y s2 - y s1))) in
    let w := xsize s1 in
    let h := ysize s1 in
    if y s1 <? y s2 then
      [R (x s1) (y s1) w dy; R (x s1) (y s2) (i32 (w + dx)) (i32 (h - dy)); R (x s2) (i32 (y s1 + h)) w dy]
    else
      [R (x s2) (y s2) w dy; R (x s1) (y s1) (i32 (w + dx)) (i32 (h - dy)); R (x s1) (i32 (y s2 + h)) w dy].
(** [for (s = parent_->bottom_child_; s && s != this; s = s->upper_)]. *)
Fixpoint flush_below (fuel : nat) (s : option nat) (self : nat) (r : rect) (h : heap) : res heap :=
  match fuel with
  | O => Stop FuelOut
  | S f =>
    match s with
    | None => Done h
    | Some q =>
      if decide (q = self) then Done h
      else
        do h <- FlushInParent q (x r) (y r) (xsize r) (ysize r) h;
        do sh <- get h q;
        flush_below f (upper_ sh) self r h
    end
  end.
Definition SetPosition (self : nat) (nx ny : Z) (h : heap) : res heap :=
  do s <- get h self;
  let prev_rect := rect_ s in
  let next_rect := R nx ny (xsize prev_rect) (ysize prev_rect) in
  do h <- modify self (set_rect next_rect) h;
  match parent_ s with
  | None => Done h
  | Some pp =>
    do h <- foldM (UpdateMap pp) (moved_areas prev_rect next_rect) h;
    do p <- get h pp;
    do h <- flush_below (S (size h)) (bottom_child_ p) self
      (R (x prev_rect) (y prev_rect) (xsize next_rect) (ysize next_rect)) h;
    FlushInParent self nx ny (xsize next_rect) (ysize next_rect) h
  end.
Definition MoveRelative (self : nat) (dx dy : Z) (h : heap) : res heap :=
  do s <- get h self; SetPosition self (i32 (GetX s + dx)) (i32 (GetY s + dy)) h.
Definition SetAlphaEnabled (self : nat) (is_enabled : bool) (h : heap) : res heap :=
  do h <- modify self (set_alpha is_enabled) h;
  if is_enabled then MoveRelative self 0 0 h else Done h.

(** ** Drawing *)

(** [rep movs] of [n] units of [k] words; a negative count is a huge one. *)
Definition move_words (k : nat) (n to from : Z) (b : list Z) : res (list Z) :=
  if n <? 0 then Stop BadPointer
  else for_ 0 n (fun i b =>
    do ws <- foldM (fun j acc => do c <- aget b (from + i * Z.of_nat k + j); Done (acc ++ [c]))
               (seqZ 0 (Z.of_nat k)) [];
    foldM (fun '(j, c) => aset (to + i * Z.of_nat k + j) c) (zip (seqZ 0 (Z.of_nat k)) ws) b) b.
(** [rep stos] of [n] units of [k] words. *)
Definition store_words (k : nat) (n to col : Z) (b : list Z) : res (list Z) :=
  if n <? 0 then Stop BadPointer
  else for_ 0 n (fun i => foldM (fun j => aset (to + i * Z.of_nat k + j) col) (seqZ 0 (Z.of_nat k))) b.

Definition BlockTransfer (self : nat) (to_x to_y from_x from_y w hgt : Z) (h : heap) : res heap :=
  do s <- get h self;
  let ppl := pixels_per_scan_line_ s in
  do b <- for_ 0 hgt (fun dy =>
    let to := index ppl to_x (i32 (to_y + dy)) in
    let from := index ppl (i32 (from_x + 0)) (i32 (from_y + dy)) in
    if Z.land w 1 =? 1 then move_words 1 w to from else move_words 2 (Z.quot w 2) to from) (array (buf_ s));
  do h <- modify self (fun s => match buf_ s with None => s | Some _ => set_buf b s end) h;
  Flush self to_x to_y w hgt h.

Section Painter.
(** The glyphs, generated into [font.gen.c]. *)
Context (font : Z -> Z -> Z).

Definition glyph_bit (c dx dy : Z) : bool := Z.land (Z.shiftr (font (u8 c) dy) (7 - dx)) 1 =? 1.
Definition draw_in (self : nat) (f : Sheet -> list Z -> res (list Z)) (fl : heap -> res heap) (do_flush : bool)
  (h : heap) : res heap :=
  do s <- get h self;
  match buf_ s with
  | None => Done h
  | Some b =>
    do b <- f s b;
    let h := <[self := set_buf b s]> h in
    if do_flush then fl h else Done h
  end.
Definition DrawCharacter (self : nat) (c px py : Z) (do_flush : bool) : heap -> res heap :=
  draw_in self (fun s =>
    for_ 0 16 (fun dy => for_ 0 8 (fun dx =>
      aset (index (pixels_per_scan_line_ s) (i32 (px + dx)) (i32 (py + dy)))
        (if glyph_bit c dx dy then 0xffffff else 0))))
    (Flush self px py 8 16) do_flush.
Definition DrawCharacterForeground (self : nat) (c px py col : Z) (do_flush : bool) : heap -> res heap :=
  draw_in self (fun s =>
    for_ 0 16 (fun dy => for_ 0 8 (fun dx b =>
      if negb (glyph_bit c dx dy) then Done b
      else aset (index (pixels_per_scan_line_ s) (i32 (px + dx)) (i32 (py + dy))) col b)))
    (Flush self px py 8 16) do_flush.
Fixpoint draw_chars (self : nat) (str : list Z) (i px py : Z) (h : heap) : res (heap * Z) :=
  match str with
  | [] => Done (h, i)
  | c :: str' =>
    do h <- DrawCharacter self c (i32 (px + 8 * i)) py false h;
    draw_chars self str' (i + 1) px py h
  end.
Definition DrawString (self : nat) (str : list Z) (px py : Z) (do_flush : bool) (h : heap) : res heap :=
  do '(h, i) <- draw_chars self str 0 px py h;
  if do_flush then Flush self px py (i32 (px + 8 * i)) (i32 (py + 16)) h else Done h.
Definition DrawRect (self : nat) (px py w hgt col : Z) (do_flush : bool) : heap -> res heap :=
  draw_in self (fun s =>
    for_ py (i32 (py + hgt)) (fun y =>
      let to := index (pixels_per_scan_line_ s) px y in
      if Z.land w 1 =? 1 then store_words 1 w to col else store_words 2 (Z.quot w 2) to col))
    (Flush self px py w hgt) do_flush.
Definition DrawPoint (self : nat) (px py col : Z) (do_flush : bool) (h : heap) : res heap :=
  do s <- get h self;
  do b <- aset (index (pixels_per_scan_line_ s) px py) col (array (buf_ s));
  let h := <[self := set_buf b s]> h in
  if do_flush then Flush self px py 1 1 h else Done h.
End Painter.

(** ** Painting a grid *)

Lemma foldM_app {A S} (f : A -> S -> res S) l1 l2 s : foldM f (l1 ++ l2) s = (do s <- foldM f l1 s; foldM f l2 s).
Proof. revert s. induction l1 as [|a l1 IH]; intros s; [done|]. simpl. destruct (f a s); simpl; [apply IH|done]. Qed.
Lemma foldM_map {A B S} (g : A -> B) (f : B -> S -> res S) l s : foldM f (g <$> l) s = foldM (fun a => f (g a)) l s.
Proof. revert s. induction l as [|a l IH]; intros s; [done|]. simpl. destruct (f (g a) s); simpl; [apply IH|done]. Qed.

Lemma foldM_ext {A S} (f g : A -> S -> res S) l : (forall a s, a ∈ l -> f a s = g a s) -> forall s, foldM f l s = foldM g l s.
Proof.
  induction l as [|a l IH]; intros E s; [done|]. cbn [foldM]. rewrite E by (by left). destruct (g a s); [|done]. cbn [rbind].
  apply IH. intros b s' Hb. apply E. by right.
Qed.

(** The points of a double loop, in its order. *)
Definition points (x0 x1 y0 y1 : Z) : list (Z * Z) :=
  seqZ y0 (y1 - y0) ≫= fun py => (fun px => (px, py)) <$> seqZ x0 (x1 - x0).
Lemma elem_of_points px py x0 x1 y0 y1 : (px, py) ∈ points x0 x1 y0 y1 <-> x0 <= px < x1 /\ y0 <= py < y1.
Proof.
  unfold points. rewrite list_elem_of_bind. split.
  - intros (b & (a & E & Ha)%list_elem_of_fmap & Hb). injection E as -> ->. apply elem_of_seqZ in Ha, Hb. lia.
  - intros [? ?]. exists py. split; [|apply elem_of_seqZ; lia].
    apply list_elem_of_fmap. exists px. split; [done|apply elem_of_seqZ; lia].
Qed.
Lemma for_points {S} x0 x1 y0 y1 (body : Z -> Z -> S -> res S) s :
  for_ y0 y1 (fun py => for_ x0 x1 (body py)) s = foldM (fun p => body p.2 p.1) (points x0 x1 y0 y1) s.
Proof.
  unfold for_, points. generalize (seqZ y0 (y1 - y0)) as ys. generalize (seqZ x0 (x1 - x0)) as xs. intros xs ys. revert s.
  induction ys as [|b ys IH]; intros s; [done|]. rewrite bind_cons, foldM_app, foldM_map. simpl.
  destruct (foldM (body b) xs s); simpl; [apply IH|done].
Qed.

Definition at_ (W px py : Z) : nat := Z.to_nat (py * W + px).
Lemma at_inj W px py qx qy :
  0 <= px < W -> 0 <= py -> 0 <= qx < W -> 0 <= qy -> at_ W px py = at_ W qx qy -> px = qx /\ py = qy.
Proof.
  unfold at_. intros H1 H2 H3 H4 E.
  assert (py * W + px = qy * W + qx) as E' by (apply Z2Nat.inj; [nia|nia|done]).
  assert (py = qy) as ->; [|lia].
  destruct (Z.lt_trichotomy py qy) as [Hlt|[Heq|Hlt]]; [|done|].
  - assert ((qy - py - 1) * W >= 0) by nia. nia.
  - assert ((py - qy - 1) * W >= 0) by nia. nia.
Qed.

(** A loop that writes each point of [pts] at most once, with a value that does
    not depend on the array. *)
Lemma paint {A} W (c : Z -> Z -> option A) (f : Z * Z -> list A -> res (list A)) pts L m :
  (forall px py m, (px, py) ∈ pts -> length m = L ->
     f (px, py) m = Done (match c px py with Some v => <[at_ W px py := v]> m | None => m end)) ->
  (forall px py, (px, py) ∈ pts -> 0 <= px < W /\ 0 <= py /\ (at_ W px py < L)%nat) ->
  length m = L ->
  exists m', foldM f pts m = Done m' /\ length m' = L /\
    forall px py, 0 <= px < W -> 0 <= py ->
      m' !! at_ W px py =
        if decide ((px, py) ∈ pts) then match c px py with Some v => Some v | None => m !! at_ W px py end
        else m !! at_ W px py.
Proof.
  revert m. induction pts as [|[ax ay] pts IH]; intros m Hf Hin HL.
  { exists m. by split_and!. }
  cbn [foldM]. rewrite Hf by (by try left). cbn [rbind].
  destruct (Hin ax ay) as (Hax & Hay & HaL); [by left|].
  set (m1 := match c ax ay with Some v => <[at_ W ax ay := v]> m | None => m end).
  assert (length m1 = L) as HL1 by (unfold m1; case_match; by rewrite ?length_insert).
  destruct (IH m1) as (m' & E & HL' & Hm'); [intros; apply Hf; [by right|done]|intros; apply Hin; by right|done|].
  exists m'. split_and!; [done|done|]. intros px py Hx Hy. rewrite Hm' by done.
  assert (m1 !! at_ W px py = if decide ((px, py) = (ax, ay)) then
    match c px py with Some v => Some v | None => m !! at_ W px py end else m !! at_ W px py) as Hm1.
  { unfold m1. case_decide as Hd.
    - injection Hd as -> ->. case_match; [|done]. apply list_lookup_insert_eq. lia.
    - case_match; [|done]. apply list_lookup_insert_ne. intros E'. apply Hd.
      apply at_inj in E' as [-> ->]; done. }
  rewrite Hm1. clear Hm1 Hm' IH Hf Hin. rewrite (decide_ext ((px, py) ∈ (ax, ay) :: pts) ((px, py) = (ax, ay) \/ (px, py) ∈ pts)) by apply elem_of_cons.
  destruct (decide ((px, py) ∈ pts)) as [Hp|Hp], (decide ((px, py) = (ax, ay))) as [Ha|Ha]; cbn [decide];
    repeat case_decide; try tauto; by destruct (c px py).
Qed.

Lemma index_at W px py L :
  0 <= px < W -> 0 <= py -> py * W + px < L -> L < 2 ^ 31 -> index W px py = py * W + px.
Proof.
  intros. assert (0 <= py * W) by nia. unfold index. rewrite (i32_small (py * W)), i32_small by lia. done.
Qed.
Lemma aset_at {A} W px py (v : A) m :
  0 <= px < W -> 0 <= py -> (at_ W px py < length m)%nat -> Z.of_nat (length m) < 2 ^ 31 ->
  aset (index W px py) v m = Done (<[at_ W px py := v]> m).
Proof.
  intros Hx Hy Hl Hm. unfold at_ in *. assert (0 <= py * W + px) by nia.
  rewrite (index_at W px py (Z.of_nat (length m))) by lia. unfold aset. ztrue (0 <=? py * W + px).
  ztrue (py * W + px <? Z.of_nat (length m)). done.
Qed.
Lemma aget_at {A} W px py (v : A) m :
  0 <= px < W -> 0 <= py -> Z.of_nat (length m) < 2 ^ 31 -> m !! at_ W px py = Some v ->
  aget m (index W px py) = Done v.
Proof.
  intros Hx Hy Hm E. pose proof (lookup_lt_Some _ _ _ E) as Hl. unfold at_ in *. assert (0 <= py * W + px) by nia.
  rewrite (index_at W px py (Z.of_nat (length m))) by lia. unfold aget. zfalse (py * W + px <? 0). by rewrite E.
Qed.
Lemma at_lt W H px py (L : nat) : 0 <= px < W -> 0 <= py < H -> Z.of_nat L = H * W -> (at_ W px py < L)%nat.
Proof. intros. unfold at_. apply Nat2Z.inj_lt. rewrite Z2Nat.id by nia. nia. Qed.

(** ** What is seen *)

Definition pixel (s : Sheet) (px py : Z) : option Z :=
  array (buf_ s) !! at_ (pixels_per_scan_line_ s) (px - GetX s) (py - GetY s).
Definition opaque (s : Sheet) (px py : Z) : bool :=
  IsPointInRect (rect_ s) px py &&
  (negb (is_alpha_enabled_ s) ||
   match pixel s px py with Some c => negb (Z.shiftr c 24 =? 0) | None => false end).
(** The last of [l] that is opaque at the point. *)
Fixpoint top_at (h : heap) (l : list nat) (px py : Z) : option nat :=
  match l with
  | [] => None
  | q :: l' =>
    match top_at h l' px py with
    | Some r => Some r
    | None => match h !! q with Some s => if opaque s px py then Some q else None | None => None end
    end
  end.

Definition small (r : rect) : Prop :=
  -2 ^ 27 <= x r < 2 ^ 27 /\ -2 ^ 27 <= y r < 2 ^ 27 /\ 0 <= xsize r < 2 ^ 27 /\ 0 <= ysize r < 2 ^ 27.
#[global] Instance small_dec r : Decision (small r).
Proof. unfold small. apply _. Defined.
Record sheet_ok (s : Sheet) : Prop := SheetOk {
  sk_small : small (rect_ s);
  sk_ppl : xsize (rect_ s) <= pixels_per_scan_line_ s;
  sk_buf : exists b, buf_ s = Some b /\ Z.of_nat (length b) = ysize (rect_ s) * pixels_per_scan_line_ s;
  sk_size : ysize (rect_ s) * pixels_per_scan_line_ s < 2 ^ 31;
}.
Fixpoint chain (h : heap) (o : option nat) (l : list nat) : Prop :=
  match l with
  | [] => o = None
  | q :: l' => o = Some q /\ exists s, h !! q = Some s /\ chain h (upper_ s) l'
  end.

(** A parent sheet at [pp] with map [m] and pixels [b], and its children [l]. *)
Record scene (h : heap) (pp : nat) (p : Sheet) (m : list (option nat)) (b : list Z) (l : list nat) : Prop := Scene {
  sc_p : h !! pp = Some p;
  sc_ok : sheet_ok p;
  sc_ppl : pixels_per_scan_line_ p = xsize (rect_ p);
  sc_map : map_ p = Some m;
  sc_mlen : Z.of_nat (length m) = ysize (rect_ p) * xsize (rect_ p);
  sc_buf : buf_ p = Some b;
  sc_blen : Z.of_nat (length b) = ysize (rect_ p) * xsize (rect_ p);
  sc_chain : chain h (bottom_child_ p) l;
  sc_nodup : NoDup (pp :: l);
  sc_child : forall q, q ∈ l -> exists s, h !! q = Some s /\ sheet_ok s /\ parent_ s = Some pp;
}.
Definition in_client (p : Sheet) (px py : Z) : Prop := 0 <= px < GetXSize p /\ 0 <= py < GetYSize p.
Definition map_at (p : Sheet) (m : list (option nat)) (px py : Z) : option (option nat) := m !! at_ (GetXSize p) px py.
Definition shown_at (h : heap) (p : Sheet) (l : list nat) (b : list Z) (px py : Z) : Prop :=
  forall q s, top_at h l px py = Some q -> h !! q = Some s -> b !! at_ (GetXSize p) px py = pixel s px py.

Lemma small_moderate r : small r -> moderate r.
Proof. unfold small, moderate. lia. Qed.
#[local] Hint Resolve small_moderate : core.
Lemma client_small s : sheet_ok s -> small (GetClientRect s).
Proof. intros []. unfold small, GetClientRect in *. simpl. lia. Qed.
Lemma opaque_inside s px py : opaque s px py = true -> IsPointInRect (rect_ s) px py = true.
Proof. unfold opaque. by destruct (IsPointInRect _ _ _). Qed.

Lemma pixel_some s px py :
  sheet_ok s -> IsPointInRect (rect_ s) px py = true ->
  exists c, pixel s px py = Some c /\
    aget (array (buf_ s)) (index (pixels_per_scan_line_ s) (i32 (px - GetX s)) (i32 (py - GetY s))) = Done c.
Proof.
  intros [Hsm Hp (b & Eb & Hb) Hs] Hin. apply IsPointInRect_spec in Hin; [|auto]. unfold pixel, GetX, GetY.
  rewrite Eb. unfold array. simpl. unfold small in Hsm. rewrite !i32_small by lia.
  assert (at_ (pixels_per_scan_line_ s) (px - x (rect_ s)) (py - y (rect_ s)) < length b)%nat as Hl
    by (apply (at_lt _ (ysize (rect_ s))); lia).
  destruct (lookup_lt_is_Some_2 b _ Hl) as [c Ec]. exists c. split; [done|]. apply aget_at; [lia|lia|lia|done].
Qed.

Lemma top_at_ext h h' l px py : (forall q, q ∈ l -> h' !! q = h !! q) -> top_at h' l px py = top_at h l px py.
Proof.
  induction l as [|q l IH]; intros H; [done|]. simpl. rewrite (H q) by left. rewrite IH; [done|].
  intros. apply H. by right.
Qed.
Lemma top_at_app h l1 l2 px py :
  top_at h (l1 ++ l2) px py = match top_at h l2 px py with Some q => Some q | None => top_at h l1 px py end.
Proof.
  induction l1 as [|q l1 IH]; simpl; [by destruct (top_at h l2 px py)|]. rewrite IH. by destruct (top_at h l2 px py).
Qed.
Lemma top_at_Some h l px py q :
  top_at h l px py = Some q -> q ∈ l /\ exists s, h !! q = Some s /\ opaque s px py = true.
Proof.
  induction l as [|r l IH]; [done|]. simpl. destruct (top_at h l px py) as [t|] eqn:E.
  - intros [= ->]. destruct IH as [? ?]; [done|]. split; [by right|done].
  - destruct (h !! r) as [s|] eqn:Er; [|done]. destruct (opaque s px py) eqn:Eo; [|done]. intros [= ->].
    split; [by left|eauto].
Qed.
Lemma chain_ext h h' o l :
  (forall q s, q ∈ l -> h !! q = Some s -> exists s', h' !! q = Some s' /\ upper_ s' = upper_ s) -> chain h o l -> chain h' o l.
Proof.
  revert o. induction l as [|q l IH]; intros o H; [done|]. intros (-> & s & Hs & Hc). split; [done|].
  destruct (H q s) as (s' & Hs' & E); [by left|done|]. exists s'. split; [done|]. rewrite E. apply IH; [|done].
  intros. apply (H q0); [by right|done].
Qed.
Lemma scene_size h pp p m b l : scene h pp p m b l -> (length l < size h)%nat.
Proof.
  intros [Hp _ _ _ _ _ _ _ Hnd Hc].
  assert (list_to_set (pp :: l) ⊆@{gset nat} dom (D := gset nat) h) as Hsub.
  { intros q Hq. apply elem_of_list_to_set, elem_of_cons in Hq as [->|Hq]; apply elem_of_dom; [by exists p|].
    destruct (Hc q Hq) as (s & Hs & _). by exists s. }
  apply subseteq_size in Hsub. rewrite (size_list_to_set (C := gset nat)) in Hsub by done.
  assert (size (dom (D := gset nat) h) = size h) as E by apply size_dom. simpl in Hsub. lia.
Qed.

(** ** UpdateMap *)

(** The bounds of the loops over an intersection are those of its points. *)
Lemma rect_points r t px py :
  moderate r -> moderate t ->
  (px, py) ∈ points (x (GetIntersectionWith r t)) (i32 (x (GetIntersectionWith r t) + xsize (GetIntersectionWith r t)))
    (y (GetIntersectionWith r t)) (i32 (y (GetIntersectionWith r t) + ysize (GetIntersectionWith r t))) <->
  IsPointInRect r px py = true /\ IsPointInRect t px py = true.
Proof.
  intros Hr Ht. rewrite elem_of_points, <- andb_true_iff, <- intersection_point by done.
  unfold IsPointInRect. rewrite !andb_true_iff, !Z.leb_le, !Z.ltb_lt. tauto.
Qed.
Lemma in_client_spec p px py : sheet_ok p -> IsPointInRect (GetClientRect p) px py = true <-> in_client p px py.
Proof. intros H. rewrite IsPointInRect_spec by auto using client_small. unfold in_client, GetClientRect, GetXSize, GetYSize. simpl. lia. Qed.

Section Scene.
Context (h : heap) (pp : nat) (p : Sheet) (b : list Z) (l : list nat).

Lemma map_bound m px py : scene h pp p m b l -> in_client p px py ->
  0 <= px < GetXSize p /\ 0 <= py /\ (at_ (GetXSize p) px py < length m)%nat.
Proof. intros [] [? ?]. split_and!; try lia. apply (at_lt _ (GetYSize p)); unfold GetXSize, GetYSize in *; lia. Qed.

Lemma clear_ok m t :
  scene h pp p m b l -> moderate t ->
  exists m', clear p (GetIntersectionWith t (GetClientRect p)) m = Done m' /\ length m' = length m /\
    forall px py, in_client p px py ->
      map_at p m' px py = if IsPointInRect t px py then Some None else map_at p m px py.
Proof.
  intros Sc Ht. unfold clear, GetBottom, GetRight. rewrite for_points.
  destruct (paint (GetXSize p) (fun _ _ => Some (@None nat)) (fun a => aset (index (GetXSize p) a.1 a.2) None)
    (points (x (GetIntersectionWith t (GetClientRect p)))
      (i32 (x (GetIntersectionWith t (GetClientRect p)) + xsize (GetIntersectionWith t (GetClientRect p))))
      (y (GetIntersectionWith t (GetClientRect p)))
      (i32 (y (GetIntersectionWith t (GetClientRect p)) + ysize (GetIntersectionWith t (GetClientRect p)))))
    (length m) m) as (m' & E & HL & Hm').
  - intros px py m0 Hin HL. apply rect_points in Hin as [_ Hin]; [|by eauto using client_small, sc_ok..].
    apply in_client_spec in Hin; [|by destruct Sc]. destruct (map_bound m px py Sc Hin) as (? & ? & ?).
    apply aset_at; [done|done|by rewrite HL|]. rewrite HL. destruct Sc as [? [] ? ? ? ? ?]. lia.
  - intros px py Hin. apply rect_points in Hin as [_ Hin]; [|by eauto using client_small, sc_ok..].
    apply in_client_spec in Hin; [|by destruct Sc]. by apply map_bound.
  - done.
  - exists m'. split_and!; [exact E|done|]. intros px py Hc. unfold map_at. destruct Hc as [Hx Hy].
    rewrite Hm' by (lia || done). rewrite (decide_ext _ (IsPointInRect t px py = true)).
    + repeat case_decide; by destruct (IsPointInRect t px py).
    + rewrite rect_points, in_client_spec by eauto using client_small, sc_ok. split; [tauto|]. split; [done|by split].
Qed.
Lemma cover_ok m0 m q s t :
  scene h pp p m0 b l -> length m = length m0 -> sheet_ok s -> moderate t ->
  exists m', cover p s q (GetIntersectionWith t (GetClientRect p)) m = Done m' /\ length m' = length m0 /\
    forall px py, in_client p px py ->
      map_at p m' px py =
        if IsPointInRect t px py && opaque s px py then Some (Some q) else map_at p m px py.
Proof.
  intros Sc HL Hs Ht. unfold cover. rewrite for_points.
  pose proof (sc_ok _ _ _ _ _ _ Sc) as Hp. pose proof (client_small p Hp) as Hcs.
  set (r := GetIntersectionWith t (GetClientRect p)). set (v := GetIntersectionWith r (rect_ s)).
  assert (moderate r) as Hr by (by apply intersection_moderate; [|apply small_moderate]).
  assert (forall px py, (px, py) ∈ points (x v) (i32 (x v + xsize v)) (y v) (i32 (y v + ysize v)) <->
    IsPointInRect t px py = true /\ in_client p px py /\ IsPointInRect (rect_ s) px py = true) as Hpts.
  { intros px py. unfold v. rewrite rect_points by (done || apply small_moderate; by destruct Hs).
    unfold r. rewrite intersection_point, andb_true_iff, in_client_spec by auto. tauto. }
  fold v. match goal with |- context [foldM ?f ?pts m] =>
    destruct (paint (GetXSize p) (fun px py => if opaque s px py then Some (Some q) else None) f pts (length m0) m)
      as (m' & E & HL' & Hm') end.
  - intros px py m1 (Hin & Hc & Hi)%Hpts HL1. cbn [fst snd].
    destruct (map_bound m0 px py Sc Hc) as (? & ? & ?). rewrite (sc_ppl _ _ _ _ _ _ Sc). fold (GetXSize p).
    assert (aset (index (GetXSize p) px py) (Some q) m1 = Done (<[at_ (GetXSize p) px py := Some q]> m1)) as Ea.
    { apply aset_at; [done|done|by rewrite HL1|]. rewrite HL1. destruct Sc as [? [] ? ? ? ? ?]. lia. }
    unfold opaque. rewrite Hi. cbn [andb]. destruct (is_alpha_enabled_ s); [|exact Ea].
    destruct (pixel_some s px py Hs Hi) as (c & Ec & ->). rewrite Ec. cbn [rbind negb orb].
    destruct (Z.shiftr c 24 =? 0); [done|exact Ea].
  - intros px py (_ & Hc & _)%Hpts. by apply map_bound.
  - exact HL.
  - exists m'. split_and!; [exact E|done|]. intros px py Hc. unfold map_at. destruct (map_bound m0 px py Sc Hc) as (? & ? & _).
    rewrite Hm' by done. case_decide as Hd; rewrite Hpts in Hd; [destruct Hd as (-> & _); by destruct (opaque s px py)|].
    destruct (IsPointInRect t px py) eqn:Et; [|done]. destruct (opaque s px py) eqn:Eo; [|done].
    apply opaque_inside in Eo. tauto.
Qed.

Lemma cover_all_ok m0 m fuel l2 o t :
  scene h pp p m0 b l -> moderate t -> length m = length m0 ->
  chain h o l2 -> (forall q, q ∈ l2 -> q ∈ l) -> (length l2 < fuel)%nat ->
  exists m', cover_all fuel h p (GetIntersectionWith t (GetClientRect p)) o m = Done m' /\ length m' = length m0 /\
    forall px py, in_client p px py ->
      map_at p m' px py =
        match top_at h l2 px py with
        | Some q => if IsPointInRect t px py then Some (Some q) else map_at p m px py
        | None => map_at p m px py
        end.
Proof.
  intros Sc Ht. revert m fuel o. induction l2 as [|q l2 IH]; intros m fuel o HL Hc Hin Hf;
    (destruct fuel as [|fuel]; [simpl in Hf; lia|]).
  - simpl in Hc. subst o. exists m. by split_and!.
  - destruct Hc as (-> & s & Hs & Hc). destruct (sc_child _ _ _ _ _ _ Sc q) as (s' & Hs' & Hok & _); [apply Hin; by left|].
    assert (s' = s) as -> by congruence. cbn [cover_all]. unfold get. rewrite Hs. cbn [deref rbind].
    destruct (cover_ok m0 m q s t Sc HL Hok Ht) as (m1 & -> & HL1 & Hm1). cbn [rbind].
    destruct (IH m1 fuel (upper_ s)) as (m' & E & HL' & Hm'); [done|done|intros; apply Hin; by right|simpl in Hf; lia|].
    exists m'. split_and!; [done|done|]. intros px py Hp. rewrite Hm', Hm1 by done. cbn [top_at]. rewrite Hs.
    destruct (top_at h l2 px py); destruct (IsPointInRect t px py), (opaque s px py); done.
Qed.

Lemma scene_set_map m m' :
  scene h pp p m b l -> length m' = length m -> scene (<[pp := set_map (Some m') p]> h) pp (set_map (Some m') p) m' b l.
Proof.
  intros [H1 H2 H3 H4 H5 H6 H7 H8 H9 H10] HL. apply list.NoDup_cons in H9 as Hnd. destruct Hnd as [Hn _].
  assert (forall q, q ∈ l -> <[pp := set_map (Some m') p]> h !! q = h !! q) as Hne.
  { intros q Hq. apply lookup_insert_ne. by intros ->. }
  split; simpl; try done.
  - apply lookup_insert_eq.
  - by destruct H2.
  - by rewrite HL.
  - eapply chain_ext; [|exact H8]. intros q s Hq Hs. exists s. by rewrite Hne.
  - intros q Hq. rewrite Hne by done. by apply H10.
Qed.

Lemma UpdateMap_ok m t :
  scene h pp p m b l -> moderate t ->
  exists m', UpdateMap pp t h = Done (<[pp := set_map (Some m') p]> h) /\ length m' = length m /\
    forall px py, in_client p px py ->
      map_at p m' px py = if IsPointInRect t px py then Some (top_at h l px py) else map_at p m px py.
Proof.
  intros Sc Ht. unfold UpdateMap, get. rewrite (sc_p _ _ _ _ _ _ Sc). cbn [deref rbind]. rewrite (sc_map _ _ _ _ _ _ Sc).
  destruct (clear_ok m t Sc Ht) as (m1 & -> & HL1 & Hm1). cbn [rbind].
  destruct (cover_all_ok m m1 (S (size h)) l (bottom_child_ p) t Sc Ht HL1) as (m2 & -> & HL2 & Hm2);
    [by destruct Sc|done|apply scene_size in Sc; lia|].
  exists m2. split_and!; [done|done|]. intros px py Hc. rewrite Hm2, Hm1 by done.
  destruct (top_at h l px py), (IsPointInRect t px py); done.
Qed.
End Scene.

(** Several areas, one after the other. *)
Lemma UpdateMaps_ok h pp p m b l ts :
  scene h pp p m b l -> Forall moderate ts ->
  exists m', foldM (UpdateMap pp) ts h = Done (<[pp := set_map (Some m') p]> h) /\ length m' = length m /\
    forall px py, in_client p px py ->
      map_at p m' px py = if existsb (fun t => IsPointInRect t px py) ts then Some (top_at h l px py) else map_at p m px py.
Proof.
  intros Sc Hts. revert h p m Sc. induction Hts as [|t ts Ht Hts IH]; intros h p m Sc.
  - exists m. split_and!; try done. simpl. f_equal. symmetry. apply insert_id. etransitivity; [exact (sc_p _ _ _ _ _ _ Sc)|]. f_equal.
    pose proof (sc_map _ _ _ _ _ _ Sc) as E. destruct p. simpl in *. by subst.
  - simpl. destruct (UpdateMap_ok h pp p b l m t Sc Ht) as (m1 & -> & HL1 & Hm1). cbn [rbind].
    pose proof (scene_set_map h pp p b l m m1 Sc HL1) as Sc1.
    destruct (IH _ _ _ Sc1) as (m2 & -> & HL2 & Hm2). exists m2. split_and!.
    + f_equal. by rewrite insert_insert_eq.
    + by rewrite HL2.
    + intros px py Hc. etransitivity; [by apply (Hm2 px py)|]. change (map_at (set_map (Some m1) p)) with (map_at p).
      rewrite Hm1 by done. rewrite (top_at_ext h).
      * destruct (IsPointInRect t px py), (existsb _ ts); done.
      * intros q Hq. apply lookup_insert_ne. intros ->. pose proof (sc_nodup _ _ _ _ _ _ Sc) as [? _]%list.NoDup_cons. done.
Qed.

(** ** Flushing *)

Definition mapped (h : heap) (p : Sheet) (l : list nat) (m : list (option nat)) : Prop :=
  forall px py, in_client p px py -> map_at p m px py = Some (top_at h l px py).

Lemma scene_set_buf h pp p m b b' l :
  scene h pp p m b l -> length b' = length b -> scene (<[pp := set_buf b' p]> h) pp (set_buf b' p) m b' l.
Proof.
  intros [H1 H2 H3 H4 H5 H6 H7 H8 H9 H10] HL. apply list.NoDup_cons in H9 as Hnd. destruct Hnd as [Hn _].
  assert (forall q, q ∈ l -> <[pp := set_buf b' p]> h !! q = h !! q) as Hne.
  { intros q Hq. apply lookup_insert_ne. by intros ->. }
  split; simpl; try done.
  - apply lookup_insert_eq.
  - destruct H2 as [? ? (b0 & Eb & HB) ?]. split; simpl; try done. exists b'. split; [done|].
    rewrite Eb in H6. injection H6 as ->. by rewrite HL.
  - by rewrite HL.
  - eapply chain_ext; [|exact H8]. intros q s Hq Hs. exists s. by rewrite Hne.
  - intros q Hq. rewrite Hne by done. by apply H10.
Qed.
Lemma scene_ne h pp p m b l p' q : scene h pp p m b l -> q ∈ l -> <[pp := p']> h !! q = h !! q.
Proof. intros Sc Hq. apply lookup_insert_ne. intros ->. by pose proof (sc_nodup _ _ _ _ _ _ Sc) as [? _]%list.NoDup_cons. Qed.
Lemma top_at_parent h pp p m b l p' px py : scene h pp p m b l -> top_at (<[pp := p']> h) l px py = top_at h l px py.
Proof. intros Sc. apply top_at_ext. intros q Hq. by eapply scene_ne. Qed.

(** A flush of the child [q] over an area puts its pixels where it is seen there
    and spoils nothing. *)
Lemma FlushInParent_ok h pp p m b l q t :
  scene h pp p m b l -> mapped h p l m -> q ∈ l -> moderate t ->
  exists b', FlushInParent q (x t) (y t) (xsize t) (ysize t) h = Done (<[pp := set_buf b' p]> h) /\
    length b' = length b /\
    forall px py, in_client p px py ->
      (shown_at h p l b px py -> shown_at h p l b' px py) /\
      (IsPointInRect t px py = true -> top_at h l px py = Some q -> shown_at h p l b' px py).
Proof.
  intros Sc Hm Hq Ht. destruct (sc_child _ _ _ _ _ _ Sc q Hq) as (s & Hs & Hok & Hpar).
  pose proof (sc_ok _ _ _ _ _ _ Sc) as Hp. pose proof (client_small p Hp) as Hcs.
  assert (R (x t) (y t) (xsize t) (ysize t) = t) as Et by (by destruct t).
  unfold FlushInParent, get. rewrite Hs. cbn [deref rbind]. rewrite Hpar. cbn [deref rbind].
  rewrite (sc_p _ _ _ _ _ _ Sc). cbn [deref rbind]. rewrite Et. set (v := GetIntersectionWith (GetClientRect p) t).
  assert (moderate v) as Hv by (by apply intersection_moderate; [apply small_moderate|]).
  assert (forall px py, IsPointInRect v px py = true <-> in_client p px py /\ IsPointInRect t px py = true) as Hin.
  { intros px py. unfold v. rewrite intersection_point, andb_true_iff, in_client_spec by auto. tauto. }
  assert (<[pp := set_buf b p]> h = h) as Eid.
  { apply insert_id. rewrite (sc_p _ _ _ _ _ _ Sc). f_equal. pose proof (sc_buf _ _ _ _ _ _ Sc). destruct p. simpl in *. by subst. }
  destruct ((xsize v <=? 0) || (ysize v <=? 0)) eqn:Ee.
  { exists b. rewrite Eid. split_and!; try done. intros px py Hc. split; [done|]. intros Ht' _. exfalso.
    assert (IsPointInRect v px py = true) as Hi by (by apply Hin). apply IsPointInRect_spec in Hi; [|done].
    rewrite orb_true_iff, !Z.leb_le in Ee. lia. }
  rewrite orb_false_iff, !Z.leb_gt in Ee. rewrite (sc_map _ _ _ _ _ _ Sc).
  assert (0 <= x v /\ 0 <= y v /\ i32 (x v + xsize v) <= xsize (rect_ p) /\ i32 (y v + ysize v) <= ysize (rect_ p)) as Hb.
  { unfold moderate in Hv. rewrite !i32_small by lia.
    assert (IsPointInRect v (x v) (y v) = true) as [[H1 H2] _]%Hin by (apply IsPointInRect_spec; [done|lia]).
    assert (IsPointInRect v (x v + xsize v - 1) (y v + ysize v - 1) = true) as [[H3 H4] _]%Hin
      by (apply IsPointInRect_spec; [done|lia]). unfold GetXSize, GetYSize in *. lia. }
  ztrue (0 <=? x v). ztrue (0 <=? y v). ztrue (i32 (x v + xsize v) <=? xsize (rect_ p)).
  ztrue (i32 (y v + ysize v) <=? ysize (rect_ p)). cbn [andb kassert rbind].
  rewrite for_points, (sc_buf _ _ _ _ _ _ Sc). change (array (Some b)) with b.
  assert (forall px py, (px, py) ∈ points (x v) (i32 (x v + xsize v)) (y v) (i32 (y v + ysize v)) <->
    in_client p px py /\ IsPointInRect t px py = true) as Hpts.
  { intros px py. unfold v. rewrite rect_points, in_client_spec by auto. tauto. }
  match goal with |- context [foldM ?f ?pts b] =>
    destruct (paint (GetXSize p) (fun px py => if decide (top_at h l px py = Some q) then pixel s px py else None)
      f pts (length b) b) as (b' & -> & HL' & Hb') end.
  - intros px py b1 (Hc & Hi)%Hpts HL1. cbn [fst snd]. destruct (map_bound h pp p b l m px py Sc Hc) as (? & ? & ?).
    rewrite (sc_ppl _ _ _ _ _ _ Sc). fold (GetXSize p).
    rewrite (aget_at (GetXSize p) px py (top_at h l px py) m) by
      (done || (by apply Hm) || (destruct Sc as [? [] ? ? ? ? ?]; lia)). cbn [rbind].
    rewrite (bool_decide_decide (top_at h l px py = Some q)).
    destruct (decide (top_at h l px py = Some q)) as [Htop|]; [|done].
    apply top_at_Some in Htop as (_ & s' & Hs' & Ho). assert (s' = s) as -> by congruence.
    apply opaque_inside in Ho. destruct (pixel_some s px py Hok Ho) as (c & -> & ->). cbn [rbind].
    destruct Sc as [? [] ? ? Hml ? Hbl]. apply aset_at; [done|done|rewrite HL1; lia|rewrite HL1; lia].
  - intros px py (Hc & _)%Hpts. destruct (map_bound h pp p b l m px py Sc Hc) as (? & ? & ?).
    split_and!; [lia..|]. destruct Sc as [? [] ? ? Hml ? Hbl]. lia.
  - done.
  - cbn [rbind]. exists b'. split_and!; [done|done|]. intros px py Hc.
    destruct (map_bound h pp p b l m px py Sc Hc) as (? & ? & _). specialize (Hb' px py). split.
    + intros Hsh r sr Htop Hr. specialize (Hsh r sr Htop Hr). rewrite Hb' by done.
      case_decide; [|done]. case_decide as Hd; [|done]. rewrite Htop in Hd. injection Hd as ->.
      assert (sr = s) as -> by congruence. rewrite Hsh. by destruct (pixel s px py).
    + intros Hi Htop r sr Htr Hr. assert (r = q) as -> by congruence. assert (sr = s) as -> by congruence.
      rewrite Hb' by done. rewrite decide_True by (by apply Hpts). rewrite decide_True by done.
      apply top_at_Some in Htop as (_ & s' & Hs' & Ho). assert (s' = s) as -> by congruence.
      apply opaque_inside in Ho. by destruct (pixel_some s px py Hok Ho) as (c & -> & _).
Qed.

Lemma shown_parent h pp p m b l p' b' px py :
  scene h pp p m b l -> shown_at (<[pp := p']> h) p l b' px py <-> shown_at h p l b' px py.
Proof.
  intros Sc. unfold shown_at. rewrite (top_at_parent h pp p m b l p') by done.
  split; intros H q s Hq Hs; apply (H q s); try done;
    [rewrite (scene_ne h pp p m b l)|rewrite (scene_ne h pp p m b l) in Hs]; try done; by apply top_at_Some in Hq as [? _].
Qed.

Lemma flush_below_ok l1 self l2 l t : forall h pp p m b fuel o,
  scene h pp p m b l -> mapped h p l m -> moderate t ->
  chain h o (l1 ++ self :: l2) -> (forall q, q ∈ l1 -> q ∈ l) -> self ∉ l1 -> (length l1 < fuel)%nat ->
  exists b', flush_below fuel o self t h = Done (<[pp := set_buf b' p]> h) /\ length b' = length b /\
    forall px py, in_client p px py ->
      (shown_at h p l b px py -> shown_at h p l b' px py) /\
      (IsPointInRect t px py = true -> forall q, q ∈ l1 -> top_at h l px py = Some q -> shown_at h p l b' px py).
Proof.
  induction l1 as [|q l1 IH]; intros h pp p m b fuel o Sc Hm Ht Hc Hl Hself Hf; (destruct fuel as [|fuel]; [simpl in Hf; lia|]).
  - destruct Hc as (-> & _). cbn [flush_below]. rewrite decide_True by done. exists b. split_and!; [|done|].
    + f_equal. symmetry. apply insert_id. rewrite (sc_p _ _ _ _ _ _ Sc). f_equal.
      pose proof (sc_buf _ _ _ _ _ _ Sc). destruct p. simpl in *. by subst.
    + intros. split; [done|]. intros _ q Hq. by apply elem_of_nil in Hq.
  - destruct Hc as (-> & s & Hs & Hc). apply not_elem_of_cons in Hself as [Hne Hself].
    cbn [flush_below]. rewrite decide_False by done.
    assert (q ∈ l) as Hq by (apply Hl; by left).
    destruct (FlushInParent_ok h pp p m b l q t Sc Hm Hq Ht) as (b1 & -> & HL1 & Hb1). cbn [rbind]. unfold get.
    rewrite (scene_ne h pp p m b l) by done. rewrite Hs. cbn [deref rbind].
    pose proof (scene_set_buf h pp p m b b1 l Sc HL1) as Sc1.
    destruct (IH _ pp (set_buf b1 p) m b1 fuel (upper_ s) Sc1) as (b2 & -> & HL2 & Hb2).
    + intros px py Hin. change (map_at (set_buf b1 p)) with (map_at p). rewrite (top_at_parent h pp p m b l) by done. by apply Hm.
    + done.
    + eapply chain_ext; [|exact Hc]. intros r sr Hr Hsr. destruct (decide (r = pp)) as [->|].
      * exists (set_buf b1 p). rewrite lookup_insert_eq. split; [done|]. rewrite (sc_p _ _ _ _ _ _ Sc) in Hsr. by injection Hsr as <-.
      * exists sr. by rewrite lookup_insert_ne.
    + intros. apply Hl. by right.
    + done.
    + simpl in Hf. lia.
    + exists b2. split_and!; [by rewrite insert_insert_eq|by rewrite HL2|]. intros px py Hin.
      destruct (Hb1 px py Hin) as [A1 B1]. destruct (Hb2 px py Hin) as [A2 B2].
      change (shown_at ?a (set_buf b1 p)) with (shown_at a p) in A2, B2.
      rewrite !(shown_parent h pp p m b l) in A2 by done.
      setoid_rewrite (shown_parent h pp p m b l) in B2; [|done..].
      rewrite (top_at_parent h pp p m b l) in B2 by done. split; [tauto|].
      intros Hi r [->|Hr]%elem_of_cons Htop; [apply A2, B1; done|by apply (B2 Hi r)].
Qed.

(** ** Moving *)

(** The areas cover the old and the new place. *)
Lemma moved_covers r t px py :
  small r -> small t -> xsize t = xsize r -> ysize t = ysize r ->
  Forall moderate (moved_areas r t) /\
  (IsPointInRect r px py = true \/ IsPointInRect t px py = true ->
   existsb (fun a => IsPointInRect a px py) (moved_areas r t) = true).
Proof.
  intros Hr Ht Ew Eh. destruct r as [x1 y1 w h], t as [x2 y2 w2 h2]. simpl in Ew, Eh. subst w2 h2.
  unfold small in *. cbn [x y xsize ysize] in *. unfold moved_areas. destruct (IsEmptyRect _).
  { split; [repeat constructor; unfold moderate; simpl; lia|]. cbn [existsb]. rewrite orb_false_r.
    intros [-> | ->]; [done|apply orb_true_r]. }
  destruct (rect_eqb _ _) eqn:Ee.
  { apply rect_eqb_eq in Ee. injection Ee as <- <-. split; [repeat constructor; unfold moderate; simpl; lia|].
    cbn [existsb]. intros [-> | ->]; done. }
  cbn [x y xsize ysize]. destruct ((x1 =? x2) || (y1 =? y2)) eqn:Exy.
  { unfold GetUnionWith. rects. split; [repeat constructor; unfold moderate; simpl; lia|].
    cbn [existsb]. rewrite orb_false_r. unfold IsPointInRect. rects.
    rewrite !andb_true_iff, !Z.leb_le, !Z.ltb_lt. lia. }
  rewrite orb_false_iff, !Z.eqb_neq in Exy.
  assert (forall a1 b1 a2 b2, small (R a1 b1 w h) -> small (R a2 b2 w h) -> a1 < a2 -> b1 <> b2 ->
    forall areas, areas = (if b1 <? b2 then [R a1 b1 w (b2 - b1); R a1 b2 (w + (a2 - a1)) (h - (b2 - b1)); R a2 (b1 + h) w (b2 - b1)]
       else [R a2 b2 w (b1 - b2); R a1 b1 (w + (a2 - a1)) (h - (b1 - b2)); R a1 (b2 + h) w (b1 - b2)]) ->
    Forall moderate areas /\
    (IsPointInRect (R a1 b1 w h) px py = true \/ IsPointInRect (R a2 b2 w h) px py = true ->
     existsb (fun a => IsPointInRect a px py) areas = true)) as H.
  { intros a1 b1 a2 b2 H1 H2 Hlt Hne areas ->. unfold small in *. cbn [x y xsize ysize] in *.
    rewrite !IsPointInRect_spec by (unfold moderate; simpl; lia). cbn [x y xsize ysize].
    destruct (Z.ltb_spec b1 b2).
    - split; [repeat constructor; unfold moderate; simpl; lia|]. cbn [existsb]. rewrite !orb_true_iff.
      rewrite !IsPointInRect_spec by (unfold moderate; simpl; lia). cbn [x y xsize ysize]. lia.
    - split; [repeat constructor; unfold moderate; simpl; lia|]. cbn [existsb]. rewrite !orb_true_iff.
      rewrite !IsPointInRect_spec by (unfold moderate; simpl; lia). cbn [x y xsize ysize]. lia. }
  destruct (Z.ltb_spec x1 x2).
  - apply (H x1 y1 x2 y2); unfold small; cbn [x y xsize ysize]; try lia.
    rewrite !(i32_small (x2 - x1)), (i32_small (y2 - y1)), (i32_small (Z.abs _)) by lia.
    rewrite !i32_small by lia. destruct (Z.ltb_spec y1 y2); [rewrite Z.abs_eq by lia; done|].
    rewrite Z.abs_neq by lia. replace (- (y2 - y1)) with (y1 - y2) by lia. done.
  - assert (forall P A B C : Prop, P /\ (B \/ A -> C) -> P /\ (A \/ B -> C)) as Hsw by tauto. apply Hsw.
    apply (H x2 y2 x1 y1); unfold small; cbn [x y xsize ysize]; try lia.
    rewrite !(i32_small (x1 - x2)), (i32_small (y1 - y2)), (i32_small (Z.abs _)) by lia.
    rewrite !i32_small by lia. destruct (Z.ltb_spec y2 y1); [rewrite Z.abs_eq by lia; done|].
    rewrite Z.abs_neq by lia. replace (- (y1 - y2)) with (y2 - y1) by lia. done.
Qed.

Lemma scene_set_child h pp p m b l q s s' :
  scene h pp p m b l -> q ∈ l -> h !! q = Some s -> sheet_ok s' -> upper_ s' = upper_ s -> parent_ s' = parent_ s ->
  scene (<[q := s']> h) pp p m b l.
Proof.
  intros [H1 H2 H3 H4 H5 H6 H7 H8 H9 H10] Hq Hs Hok Eu Ep. apply list.NoDup_cons in H9 as Hnd. destruct Hnd as [Hn _].
  split; try done.
  - rewrite lookup_insert_ne; [done|]. by intros ->.
  - eapply chain_ext; [|exact H8]. intros r sr Hr Hsr. destruct (decide (r = q)) as [->|].
    + exists s'. rewrite lookup_insert_eq. split; [done|]. by rewrite Hs in Hsr; injection Hsr as <-.
    + exists sr. by rewrite lookup_insert_ne.
  - intros r Hr. destruct (decide (r = q)) as [->|]; [|rewrite lookup_insert_ne by done; by apply H10].
    rewrite lookup_insert_eq. exists s'. split_and!; [done|done|]. destruct (H10 q Hq) as (s0 & Hs0 & _ & Hp0). congruence.
Qed.

(** What the parent shows is what its children make of it. *)
Definition composed (h : heap) (pp : nat) (l : list nat) : Prop :=
  exists p m b, scene h pp p m b l /\ mapped h p l m /\ forall px py, in_client p px py -> shown_at h p l b px py.

Lemma composed_after h pp p m b l b' :
  scene h pp p m b l -> mapped h p l m -> length b' = length b ->
  (forall px py, in_client p px py -> shown_at h p l b' px py) -> composed (<[pp := set_buf b' p]> h) pp l.
Proof.
  intros Sc Hm HL Hs. exists (set_buf b' p), m, b'. split_and!; [by eapply scene_set_buf|..]; intros px py Hin.
  - change (map_at (set_buf b' p)) with (map_at p). rewrite (top_at_parent h pp p m b l) by done. by apply Hm.
  - change (shown_at ?a (set_buf b' p)) with (shown_at a p). rewrite (shown_parent h pp p m b l) by done. by apply Hs.
Qed.

(** The topmost sheet around [self]. *)
Lemma top_at_split h l1 self l2 s px py :
  h !! self = Some s ->
  top_at h (l1 ++ self :: l2) px py =
    match top_at h l2 px py with
    | Some q => Some q
    | None => if opaque s px py then Some self else top_at h l1 px py
    end.
Proof.
  intros Hs. rewrite top_at_app. cbn [top_at]. rewrite Hs.
  destruct (top_at h l2 px py); [done|]. by destruct (opaque s px py).
Qed.

(** When only the sheet [self] differs between two stores, a sheet seen in the
    second one shows as in the first, if it is above [self] or [self] was not in
    the way. *)
Lemma shown_keep h h' p l1 self l2 s b px py q :
  (forall r, r ∈ l1 ++ l2 -> h' !! r = h !! r) -> self ∉ l1 ++ l2 ->
  h !! self = Some s -> top_at h' (l1 ++ self :: l2) px py = Some q -> q <> self ->
  opaque s px py = false \/ top_at h l2 px py <> None ->
  (is_Some (h' !! self)) ->
  shown_at h p (l1 ++ self :: l2) b px py -> shown_at h' p (l1 ++ self :: l2) b px py.
Proof.
  intros Hag Hni Hs Htop Hne Hor [s' Hs'] Hsh r sr Hr Hsr. assert (r = q) as -> by congruence.
  assert (top_at h' l2 px py = top_at h l2 px py) as E2 by (apply top_at_ext; set_solver).
  assert (top_at h' l1 px py = top_at h l1 px py) as E1 by (apply top_at_ext; set_solver).
  rewrite (top_at_split h' l1 self l2 s') in Htop by done. rewrite E1, E2 in Htop.
  assert (q ∈ l1 ++ l2) as Hq.
  { destruct (top_at h l2 px py) as [r|] eqn:E; [injection Htop as ->; apply top_at_Some in E; set_solver|].
    destruct (opaque s' px py); [congruence|]. apply top_at_Some in Htop. set_solver. }
  apply (Hsh q sr); [|by rewrite <- Hag].
  rewrite (top_at_split h l1 self l2 s) by done. destruct (top_at h l2 px py); [done|].
  destruct Hor as [-> |]; [|done]. by destruct (opaque s' px py); [congruence|].
Qed.

(** Where [self] was not and is not, the map is as before. *)
Lemma move_top h h1 l1 self l2 s s1 px py :
  (forall r, r ∈ l1 ++ l2 -> h1 !! r = h !! r) -> h !! self = Some s -> h1 !! self = Some s1 ->
  IsPointInRect (rect_ s) px py = false -> IsPointInRect (rect_ s1) px py = false ->
  top_at h1 (l1 ++ self :: l2) px py = top_at h (l1 ++ self :: l2) px py.
Proof.
  intros Hag Hs Hs1 E1 E2. rewrite (top_at_split h l1 self l2 s), (top_at_split h1 l1 self l2 s1) by done.
  assert (opaque s px py = false /\ opaque s1 px py = false) as [-> ->] by (unfold opaque; by rewrite E1, E2).
  rewrite (top_at_ext h h1 l1), (top_at_ext h h1 l2) by set_solver. done.
Qed.
(** Flushing the sheets below over the old place and [self] over the new one
    shows every point: [b3] and [b4] are the pixels after the two flushes. *)
Lemma move_shown h h1 p l1 self l2 s s1 b b3 b4 px py (l := l1 ++ self :: l2) :
  (forall r, r ∈ l1 ++ l2 -> h1 !! r = h !! r) -> self ∉ l1 ++ l2 -> h !! self = Some s -> h1 !! self = Some s1 ->
  (IsPointInRect (rect_ s) px py = false \/ top_at h l2 px py <> None -> shown_at h p l b px py) ->
  (shown_at h1 p l b px py -> shown_at h1 p l b3 px py) ->
  (IsPointInRect (rect_ s) px py = true -> forall q, q ∈ l1 -> top_at h1 l px py = Some q -> shown_at h1 p l b3 px py) ->
  (shown_at h1 p l b3 px py -> shown_at h1 p l b4 px py) ->
  (IsPointInRect (rect_ s1) px py = true -> top_at h1 l px py = Some self -> shown_at h1 p l b4 px py) ->
  shown_at h1 p l b4 px py.
Proof.
  intros Hag Hni Hs Hs1 HB K3 F3 K4 F4.
  destruct (top_at h1 l px py) as [q|] eqn:Eq; [|intros r sr Hr; congruence].
  destruct (decide (q = self)) as [->|Hne].
  { apply F4; [|done]. apply top_at_Some in Eq as (_ & s' & Hs' & Ho). assert (s' = s1) as -> by congruence.
    by apply opaque_inside in Ho. }
  apply K4. destruct (IsPointInRect (rect_ s) px py) eqn:Ein.
  - destruct (top_at h l2 px py) as [r|] eqn:E2.
    + apply K3. apply (shown_keep h h1 p l1 self l2 s b px py q); try done; [right; congruence|apply HB; right; congruence].
    + apply (F3 eq_refl q); [|done]. unfold l in Eq. rewrite (top_at_split h1 l1 self l2 s1) in Eq by done.
      rewrite (top_at_ext h h1 l2) in Eq by set_solver. rewrite E2 in Eq.
      destruct (opaque s1 px py); [congruence|]. by apply top_at_Some in Eq as [? _].
  - apply K3. apply (shown_keep h h1 p l1 self l2 s b px py q); try done; [left; unfold opaque; by rewrite Ein|].
    apply HB. by left.
Qed.

(** Only the pixels and the map of the parent differ. *)
Definition kept (h h' : heap) (pp : nat) : Prop :=
  (forall r, r <> pp -> h' !! r = h !! r) /\ rect_ <$> h' !! pp = rect_ <$> h !! pp.
Lemma kept_insert h h' pp p p' : kept h h' pp -> h !! pp = Some p -> rect_ p' = rect_ p -> kept h (<[pp := p']> h') pp.
Proof.
  intros [K1 K2] Hp Hr. split; [intros r Hn; rewrite lookup_insert_ne by done; by apply K1|]. rewrite lookup_insert_eq, Hp. cbn. by rewrite Hr.
Qed.
Lemma kept_refl h pp : kept h h pp.
Proof. by split. Qed.
Lemma SetPosition_ok h pp p m b l1 self l2 s nx ny (l := l1 ++ self :: l2) :
  scene h pp p m b l -> h !! self = Some s -> small (R nx ny (GetXSize s) (GetYSize s)) ->
  (forall px py, in_client p px py -> IsPointInRect (rect_ s) px py = false -> map_at p m px py = Some (top_at h l px py)) ->
  (forall px py, in_client p px py -> IsPointInRect (rect_ s) px py = false \/ top_at h l2 px py <> None ->
     shown_at h p l b px py) ->
  exists h', SetPosition self nx ny h = Done h' /\ composed h' pp l /\
    kept (<[self := set_rect (R nx ny (GetXSize s) (GetYSize s)) s]> h) h' pp.
Proof.
  intros Sc Hs Hsm HA HB. assert (self ∈ l) as Hself by (unfold l; set_solver).
  destruct (sc_child _ _ _ _ _ _ Sc self Hself) as (s0 & Hs0 & Hok & Hpar). assert (s0 = s) as -> by congruence.
  set (next := R nx ny (xsize (rect_ s)) (ysize (rect_ s))).
  set (s1 := set_rect next s). set (h1 := <[self := s1]> h).
  assert (scene h1 pp p m b l) as Sc1.
  { apply (scene_set_child h pp p m b l self s s1); try done. destruct Hok as [? ? (? & ? & ?) ?]. split; simpl; eauto. }
  assert (NoDup l) as Hnd by (by destruct (proj1 (list.NoDup_cons pp l) (sc_nodup _ _ _ _ _ _ Sc))).
  assert (self ∉ l1 ++ l2) as Hni by (unfold l in Hnd; rewrite list.NoDup_app, list.NoDup_cons in Hnd; set_solver).
  assert (forall r, r ∈ l1 ++ l2 -> h1 !! r = h !! r) as Hag.
  { intros r Hr. apply lookup_insert_ne. intros ->. done. }
  assert (h1 !! self = Some s1) as Hs1 by apply lookup_insert_eq.
  pose proof (moved_covers (rect_ s) next) as Hcov.
  unfold SetPosition, modify, get. rewrite Hs. cbn [deref rbind]. fold next s1 h1. rewrite Hpar.
  destruct (UpdateMaps_ok h1 pp p m b l (moved_areas (rect_ s) next) Sc1) as (m2 & -> & HL2 & Hm2).
  { apply (Hcov 0 0); [by destruct Hok|done|done|done]. }
  cbn [rbind]. rewrite lookup_insert_eq. cbn [deref rbind bottom_child_ set_map].
  assert (mapped h1 p l m2) as Hmap1.
  { intros px py Hin. rewrite Hm2 by done.
    destruct (existsb _ _) eqn:Eex; [done|]. destruct (Hcov px py) as [_ Hc]; [by destruct Hok|done..|].
    assert (IsPointInRect (rect_ s) px py = false /\ IsPointInRect next px py = false) as [E1 E2].
    { destruct (IsPointInRect (rect_ s) px py), (IsPointInRect next px py); try done; rewrite Hc in Eex; auto. }
    rewrite HA by done. f_equal. symmetry. by apply (move_top h h1 l1 self l2 s s1). }
  set (p2 := set_map (Some m2) p). set (h2 := <[pp := p2]> h1).
  pose proof (scene_set_map h1 pp p b l m m2 Sc1 HL2) as Sc2. fold p2 h2 in Sc2.
  assert (mapped h2 p2 l m2) as Hmap2.
  { intros px py Hin. change (map_at p2) with (map_at p). unfold h2. rewrite (top_at_parent h1 pp p m b l) by done. by apply Hmap1. }
  replace (R (x (rect_ s)) (y (rect_ s)) (xsize next) (ysize next)) with (rect_ s) by (by destruct (rect_ s)).
  assert (moderate (rect_ s)) as Hmo by (apply small_moderate; by destruct Hok).
  destruct (flush_below_ok l1 self l2 l (rect_ s) h2 pp p2 m2 b (S (size h2)) (bottom_child_ p) Sc2 Hmap2 Hmo) as (b3 & -> & HL3 & Hb3).
  { exact (sc_chain _ _ _ _ _ _ Sc2). } { unfold l. set_solver. } { set_solver. }
  { pose proof (scene_size _ _ _ _ _ _ Sc2) as Hsz. unfold l in Hsz. rewrite length_app in Hsz.
    lia. }
  cbn [rbind]. set (p3 := set_buf b3 p2). set (h3 := <[pp := p3]> h2).
  pose proof (scene_set_buf h2 pp p2 m2 b b3 l Sc2 HL3) as Sc3. fold p3 h3 in Sc3.
  assert (mapped h3 p3 l m2) as Hmap3.
  { intros px py Hin. change (map_at p3) with (map_at p2). unfold h3. rewrite (top_at_parent h2 pp p2 m2 b l) by done. by apply Hmap2. }
  destruct (FlushInParent_ok h3 pp p3 m2 b3 l self next Sc3 Hmap3 Hself) as (b4 & E4 & HL4 & Hb4); [by apply small_moderate|].
  exists (<[pp := set_buf b4 p3]> h3). split_and!; [exact E4| |].
  2:{ pose proof (sc_p _ _ _ _ _ _ Sc1) as Hp1. by repeat (eapply kept_insert; [|exact Hp1|done]); try apply kept_refl. }
  apply (composed_after h3 pp p3 m2 b3 l b4 Sc3 Hmap3 HL4). intros px py Hin.
  destruct (Hb4 px py Hin) as [K4 F4]. destruct (Hb3 px py Hin) as [K3 F3].
  change (shown_at ?a p3) with (shown_at a p) in *. change (shown_at ?a p2) with (shown_at a p) in *.
  assert (top_at h3 l px py = top_at h1 l px py) as Et.
  { etransitivity; [exact (top_at_parent h2 pp p2 m2 b l p3 px py Sc2)|exact (top_at_parent h1 pp p m b l p2 px py Sc1)]. }
  assert (forall b0, shown_at h3 p l b0 px py <-> shown_at h1 p l b0 px py) as Es.
  { intros b0. unfold h3. etransitivity; [apply (shown_parent h2 pp p2 m2 b l _ b0 px py Sc2)|]. by apply (shown_parent h1 pp p m b l). }
  assert (forall b0, shown_at h2 p l b0 px py <-> shown_at h1 p l b0 px py) as Es2.
  { intros b0. by apply (shown_parent h1 pp p m b l). }
  apply Es. apply (move_shown h h1 p l1 self l2 s s1 b b3 b4); try done.
  - by apply HB.
  - intros H. by apply Es2, K3, Es2.
  - intros Hin1 q Hq Htop. apply Es2, (F3 Hin1 q Hq). by rewrite <- Htop; apply (top_at_parent h1 pp p m b l).
  - intros H. by apply Es, K4, Es.
  - intros Hin1 Htop. apply Es, F4; [done|]. by rewrite Et.
Qed.

Lemma SetPosition_composed h pp l self s nx ny :
  composed h pp l -> self ∈ l -> h !! self = Some s -> small (R nx ny (GetXSize s) (GetYSize s)) ->
  exists h', SetPosition self nx ny h = Done h' /\ composed h' pp l /\
    kept (<[self := set_rect (R nx ny (GetXSize s) (GetYSize s)) s]> h) h' pp.
Proof.
  intros (p & m & b & Sc & Hm & Hsh) (l1 & l2 & ->)%list_elem_of_split Hs Hsm.
  apply (SetPosition_ok h pp p m b l1 self l2 s); try done.
  - intros. by apply Hm.
  - intros. by apply Hsh.
Qed.

(** ** Transparency *)

Lemma SetAlphaEnabled_composed h pp l self s :
  composed h pp l -> self ∈ l -> h !! self = Some s ->
  exists h', SetAlphaEnabled self true h = Done h' /\ composed h' pp l /\ kept (<[self := set_alpha true s]> h) h' pp.
Proof.
  intros (p & m & b & Sc & Hm & Hsh) Hself Hs.
  destruct (sc_child _ _ _ _ _ _ Sc self Hself) as (s' & Hs' & Hok & Hpar). assert (s' = s) as -> by congruence.
  assert (NoDup l) as Hnd by (by destruct (proj1 (list.NoDup_cons pp l) (sc_nodup _ _ _ _ _ _ Sc))).
  apply list_elem_of_split in Hself as (l1 & l2 & ->).
  assert (self ∉ l1 ++ l2) as Hni by (rewrite list.NoDup_app, list.NoDup_cons in Hnd; set_solver).
  set (s0 := set_alpha true s). set (h0 := <[self := s0]> h).
  assert (h0 !! self = Some s0) as Hs0 by apply lookup_insert_eq.
  assert (forall r, r ∈ l1 ++ l2 -> h0 !! r = h !! r) as Hag.
  { intros r Hr. apply lookup_insert_ne. intros ->. done. }
  assert (scene h0 pp p m b (l1 ++ self :: l2)) as Sc0.
  { apply (scene_set_child h pp p m b _ self s s0); try done; [set_solver|]. destruct Hok as [? ? (? & ? & ?) ?]. split; simpl; eauto. }
  unfold SetAlphaEnabled, modify, get. rewrite Hs. cbn [deref rbind]. fold s0 h0. unfold MoveRelative, get.
  rewrite Hs0. cbn [deref rbind]. rewrite !Z.add_0_r. destruct (sk_small _ Hok) as (Hx & Hy & Hw & Hh).
  change (GetX s0) with (x (rect_ s)). change (GetY s0) with (y (rect_ s)). rewrite !i32_small by lia.
  assert (kept (<[self := set_rect (R (x (rect_ s)) (y (rect_ s)) (GetXSize s0) (GetYSize s0)) s0]> h0) = kept h0) as <-.
  { f_equal. unfold h0. rewrite insert_insert_eq. f_equal. unfold s0, set_rect, set_alpha. cbn. f_equal. by destruct (rect_ s). }
  apply (SetPosition_ok h0 pp p m b l1 self l2 s0); try done; change (rect_ s0) with (rect_ s).
  - intros px py Hin Hout. rewrite (move_top h h0 l1 self l2 s s0) by done. by apply Hm.
  - intros px py Hin Hor q sq Hq Hsq. rewrite (top_at_ext h h0 l2) in Hor by set_solver.
    assert (q <> self) as Hne.
    { intros ->. rewrite (top_at_split h0 l1 self l2 s0), (top_at_ext h h0 l2) in Hq by (exact Hs0 || set_solver).
      destruct Hor as [Hout|Ht]; [|destruct (top_at h l2 px py) as [r|] eqn:E; [|done]].
      - destruct (top_at h l2 px py) as [r|] eqn:E; [injection Hq as ->; apply top_at_Some in E; set_solver|].
        destruct (opaque s0 px py) eqn:Eo; [apply opaque_inside in Eo; change (rect_ s0) with (rect_ s) in Eo; congruence|].
        apply top_at_Some in Hq. set_solver.
      - injection Hq as ->. apply top_at_Some in E. set_solver. }
    refine (shown_keep h h0 p l1 self l2 s b px py q Hag Hni Hs Hq Hne _ (mk_is_Some _ _ Hs0) (Hsh px py Hin) q sq Hq Hsq).
    destruct Hor as [Hout|]; [left; unfold opaque; by rewrite Hout|by right].
Qed.

(** ** Redrawing *)

Lemma Flush_ok h pp p m b l q s t :
  scene h pp p m b l -> mapped h p l m -> q ∈ l -> h !! q = Some s -> small t ->
  exists b', Flush q (x t) (y t) (xsize t) (ysize t) h = Done (<[pp := set_buf b' p]> h) /\ length b' = length b /\
    forall px py, in_client p px py ->
      (shown_at h p l b px py -> shown_at h p l b' px py) /\
      (IsPointInRect t (px - GetX s) (py - GetY s) = true -> top_at h l px py = Some q -> shown_at h p l b' px py).
Proof.
  intros Sc Hm Hq Hs Ht. destruct (sc_child _ _ _ _ _ _ Sc q Hq) as (s' & Hs' & Hok & Hpar). assert (s' = s) as -> by congruence.
  pose proof (client_small p (sc_ok _ _ _ _ _ _ Sc)) as Hcs. pose proof (sk_small _ Hok) as Hss.
  unfold Flush, get. rewrite Hs. cbn [deref rbind]. rewrite Hpar. cbn [deref rbind]. rewrite (sc_p _ _ _ _ _ _ Sc). cbn [deref rbind].
  set (a := R (i32 (x t + GetX s)) (i32 (y t + GetY s)) (xsize t) (ysize t)).
  set (v := GetIntersectionWith (GetClientRect p) (GetIntersectionWith (rect_ s) a)).
  assert (moderate a) as Ha.
  { unfold a, GetX, GetY, small, moderate in *. cbn [x y xsize ysize]. rewrite !i32_small by lia. lia. }
  assert (moderate v) as Hv by (by apply intersection_moderate; [|apply intersection_moderate]; auto).
  destruct (FlushInParent_ok h pp p m b l q v Sc Hm Hq Hv) as (b' & E & HL & Hb). exists b'. split_and!; [exact E|done|].
  intros px py Hin. destruct (Hb px py Hin) as [K F]. split; [exact K|]. intros Hi Htop. apply F; [|done].
  unfold v. rewrite !intersection_point by auto using intersection_moderate. rewrite !andb_true_iff.
  split; [|split].
  - by apply in_client_spec; [destruct Sc|].
  - apply top_at_Some in Htop as (_ & s0 & Hs0 & Ho). assert (s0 = s) as -> by congruence. by apply opaque_inside.
  - apply IsPointInRect_spec in Hi; [|auto]. apply IsPointInRect_spec; [done|]. unfold a. cbn [x y xsize ysize].
    unfold GetX, GetY, small in *. rewrite !i32_small by lia. lia.
Qed.

(** Changing the pixels of an opaque sheet inside an area and flushing the area. *)
Lemma redraw_ok h pp l self s b1 t :
  composed h pp l -> self ∈ l -> h !! self = Some s -> is_alpha_enabled_ s = false ->
  length b1 = length (array (buf_ s)) -> small t ->
  (forall px py, IsPointInRect (GetClientRect s) px py = true -> IsPointInRect t px py = false ->
     b1 !! at_ (pixels_per_scan_line_ s) px py = array (buf_ s) !! at_ (pixels_per_scan_line_ s) px py) ->
  exists h', Flush self (x t) (y t) (xsize t) (ysize t) (<[self := set_buf b1 s]> h) = Done h' /\ composed h' pp l /\
    kept (<[self := set_buf b1 s]> h) h' pp.
Proof.
  intros (p & m & b & Sc & Hm & Hsh) Hself Hs Hal HL Ht Hout. set (s1 := set_buf b1 s). set (h1 := <[self := s1]> h).
  destruct (sc_child _ _ _ _ _ _ Sc self Hself) as (s' & Hs' & Hok & Hpar). assert (s' = s) as -> by congruence.
  assert (scene h1 pp p m b l) as Sc1.
  { apply (scene_set_child h pp p m b l self s s1); try done. destruct Hok as [? ? (b0 & E0 & HB0) ?].
    split; simpl; try done. exists b1. split; [done|]. rewrite HL, E0. done. }
  assert (forall px py l', top_at h1 l' px py = top_at h l' px py) as Htop.
  { intros px py l'. induction l' as [|r l' IH]; [done|]. cbn [top_at]. rewrite IH. unfold h1.
    destruct (decide (r = self)) as [->|]; [|by rewrite lookup_insert_ne]. rewrite lookup_insert_eq, Hs.
    unfold opaque. change (is_alpha_enabled_ s1) with (is_alpha_enabled_ s). rewrite Hal. reflexivity. }
  assert (mapped h1 p l m) as Hm1 by (intros px py Hin; rewrite Htop; by apply Hm).
  assert (h1 !! self = Some s1) as Hs1 by apply lookup_insert_eq.
  destruct (Flush_ok h1 pp p m b l self s1 t Sc1 Hm1 Hself Hs1 Ht) as (b' & E & HL' & Hb).
  exists (<[pp := set_buf b' p]> h1). split_and!; [exact E| |by eapply kept_insert; [apply kept_refl|exact (sc_p _ _ _ _ _ _ Sc1)|]].
  apply (composed_after h1 pp p m b l b' Sc1 Hm1 HL').
  intros px py Hin. destruct (Hb px py Hin) as [K F].
  destruct (decide (top_at h1 l px py = Some self /\ IsPointInRect t (px - GetX s) (py - GetY s) = true)) as [[Ht1 Hi]|Hn]; [by apply F|].
  apply K. intros q sq Hq Hsq. pose proof Hq as Hq0. rewrite Htop in Hq0.
  destruct (decide (q = self)) as [->|Hne]; [|unfold h1 in Hsq; rewrite lookup_insert_ne in Hsq by done; by apply (Hsh px py Hin q sq)].
  assert (sq = s1) as -> by congruence. rewrite (Hsh px py Hin self s Hq0 Hs). unfold pixel. symmetry. apply Hout.
  - apply top_at_Some in Hq0 as (_ & s0 & Hs0 & Ho). assert (s0 = s) as -> by congruence. apply opaque_inside in Ho.
    apply IsPointInRect_spec in Ho; [|by destruct Hok; auto]. apply IsPointInRect_spec; [by auto using client_small|].
    unfold GetClientRect, GetX, GetY. cbn [x y xsize ysize]. lia.
  - change (GetX s1) with (GetX s). change (GetY s1) with (GetY s).
    destruct (IsPointInRect t _ _); [|done]. exfalso. by apply Hn.
Qed.

(** ** Insertion *)

Definition topmost_in (h : heap) (q : nat) : bool := match h !! q with Some s => is_topmost_ s | None => false end.

Lemma topmost_holder_ok h l : forall a o fuel,
  chain h o l -> get_holder a h = Done o -> (length l < fuel)%nat ->
  exists l1 l2 a' o', l = l1 ++ l2 /\ topmost_upper_holder fuel a h = Done a' /\ get_holder a' h = Done o' /\ chain h o' l2 /\
    (l1 = [] /\ a' = a \/ exists l0 q, l1 = l0 ++ [q] /\ a' = UpperOf q) /\
    Forall (fun q => topmost_in h q = false) l1 /\ Forall (fun q => topmost_in h q = true) (take 1 l2).
Proof.
  induction l as [|q l IH]; intros a o fuel Hc Ha Hf; (destruct fuel as [|fuel]; [simpl in Hf; lia|]); cbn [topmost_upper_holder].
  - simpl in Hc. subst o. rewrite Ha. exists [], [], a, None. simpl. split_and!; try done. by left.
  - pose proof Hc as Hc0. destruct Hc as (-> & s & Hs & Hc). rewrite Ha. cbn [rbind]. unfold get. rewrite Hs. cbn [deref rbind].
    destruct (is_topmost_ s) eqn:Et.
    + exists [], (q :: l), a, (Some q). split_and!; try done; [by left|]. constructor; [|constructor].
      unfold topmost_in. by rewrite Hs.
    + destruct (IH (UpperOf q) (upper_ s) fuel Hc) as (l1 & l2 & a' & o' & -> & E & Ho & Hc2 & Hor & H1 & H2).
      { simpl. unfold get. by rewrite Hs. } { simpl in Hf. lia. }
      exists (q :: l1), l2, a', o'. split_and!; try done.
      * right. destruct Hor as [[-> ->]|(l0 & r & -> & ->)]; [by exists [], q|by exists (q :: l0), r].
      * constructor; [|done]. unfold topmost_in. by rewrite Hs.
Qed.

(** Linking [self] behind the child [q]. *)
Lemma chain_insert h h' l0 q self ss l2 : forall o,
  chain h o (l0 ++ q :: l2) -> NoDup (l0 ++ q :: l2) ->
  (forall r, r ∈ l0 ++ l2 -> h' !! r = h !! r) -> (exists sq, h' !! q = Some (set_upper (Some self) sq)) ->
  h' !! self = Some ss -> (forall sq, h !! q = Some sq -> upper_ ss = upper_ sq) ->
  chain h' o (l0 ++ q :: self :: l2).
Proof.
  induction l0 as [|r l0 IH]; intros o Hc Hnd Hag (sq & Hq) Hss Hu.
  - destruct Hc as (-> & s & Hs & Hc). split; [done|]. eexists. split; [exact Hq|]. split; [done|]. exists ss. split; [done|].
    rewrite (Hu s Hs). eapply chain_ext; [|exact Hc]. intros r sr Hr Hsr. exists sr. split; [|done]. rewrite Hag; [done|set_solver].
  - destruct Hc as (-> & s & Hs & Hc). apply list.NoDup_cons in Hnd as [Hr Hnd]. split; [done|]. exists s.
    split; [rewrite Hag; [done|set_solver]|]. apply IH; [done|done|set_solver|eauto|done|done].
Qed.

Definition relinked (h h' : heap) (r : nat) : Prop := exists s u, h !! r = Some s /\ h' !! r = Some (set_upper u s).
Lemma top_at_relinked h h' l px py : (forall r, r ∈ l -> relinked h h' r) -> top_at h' l px py = top_at h l px py.
Proof.
  induction l as [|q l IH]; intros H; [done|]. cbn [top_at]. rewrite IH by set_solver.
  destruct (H q) as (s & u & -> & ->); [by left|]. done.
Qed.

(** The list after the links are set. *)
Lemma link_ok h pp p m b l self s :
  scene h pp p m b l -> self ∉ pp :: l -> h !! self = Some s -> sheet_ok s ->
  let h1 := <[self := set_parent (Some pp) s]> h in
  exists l1 l2 a o h3 p3, l = l1 ++ l2 /\
    topmost_upper_holder (S (size h1)) (BottomChildOf pp) h1 = Done a /\ get_holder a h1 = Done o /\
    (do h <- modify self (set_upper o) h1; set_holder a (Some self) h) = Done h3 /\
    (p3 = p \/ p3 = set_bottom_child (Some self) p) /\ scene h3 pp p3 m b (l1 ++ self :: l2) /\
    h3 !! self = Some (set_upper o (set_parent (Some pp) s)) /\ (forall r, r ∈ l -> relinked h h3 r) /\
    Forall (fun q => topmost_in h q = false) l1 /\ Forall (fun q => topmost_in h q = true) (take 1 l2).
Proof.
  intros Sc Hni Hs Hok h1. apply not_elem_of_cons in Hni as [Hnp Hnl].
  pose proof (scene_size _ _ _ _ _ _ Sc) as Hsz. destruct Sc as [H1 H2 H3 H4 H5 H6 H7 H8 H9 H10].
  apply list.NoDup_cons in H9 as Hnd. destruct Hnd as [Hpl Hnd].
  assert (forall r, r <> self -> h1 !! r = h !! r) as Hag by (intros; by apply lookup_insert_ne).
  assert (size h1 = size h) as Esz by (unfold h1; rewrite map_size_insert, Hs; done).
  assert (chain h1 (bottom_child_ p) l) as Hc1.
  { eapply chain_ext; [|exact H8]. intros r sr Hr Hsr. exists sr. rewrite Hag; [done|set_solver]. }
  destruct (topmost_holder_ok h1 l (BottomChildOf pp) (bottom_child_ p) (S (size h1)) Hc1) as (l1 & l2 & a & o & El & Ea & Eo & Hc2 & Hor & Ht1 & Ht2).
  { simpl. unfold get. rewrite Hag, H1 by done. done. } { lia. }
  set (s2 := set_upper o (set_parent (Some pp) s)). set (h2 := <[self := s2]> h).
  assert (<[self := s2]> h1 = h2) as Eh2 by (unfold h1, h2; by rewrite insert_insert_eq).
  assert (sheet_ok s2) as Hok2 by (destruct Hok as [? ? (? & ? & ?) ?]; split; simpl; eauto).
  assert (NoDup (pp :: l1 ++ self :: l2)) as Hnd'.
  { apply list.NoDup_cons. split; [set_solver|]. rewrite El in Hnd. rewrite list.NoDup_app in Hnd |- *.
    rewrite list.NoDup_cons. set_solver. }
  assert (Forall (fun q => topmost_in h q = false) l1 /\ Forall (fun q => topmost_in h q = true) (take 1 l2)) as [Ht1' Ht2'].
  { rewrite !list.Forall_forall in *. split.
    - intros q Hq. rewrite <- (Ht1 q Hq). unfold topmost_in. rewrite Hag; [done|set_solver].
    - intros q Hq. rewrite <- (Ht2 q Hq). unfold topmost_in. rewrite Hag; [done|]. apply elem_of_take in Hq as (i & Hi & _).
      apply list_elem_of_lookup_2 in Hi. set_solver. }
  exists l1, l2, a, o.
  assert (h1 !! self = Some (set_parent (Some pp) s)) as Hh1 by apply lookup_insert_eq.
  unfold modify at 1, get. rewrite Hh1. cbn [deref rbind]. fold s2. rewrite Eh2.
  destruct Hor as [[-> ->]|(l0 & q & -> & ->)].
  - set (p3 := set_bottom_child (Some self) p). exists (<[pp := p3]> h2), p3.
    assert (forall r, r ∈ l -> <[pp := p3]> h2 !! r = h !! r) as Hl.
    { intros r Hr. unfold h2. rewrite !lookup_insert_ne; [done|set_solver..]. }
    split_and!; try done.
    + simpl. unfold modify, get, h2. rewrite lookup_insert_ne, H1 by done. done.
    + by right.
    + split; try done.
      * apply lookup_insert_eq.
      * by destruct H2.
      * split; [done|]. exists s2. rewrite lookup_insert_ne by done. split; [apply lookup_insert_eq|].
        eapply chain_ext; [|exact Hc2]. intros r sr Hr Hsr. exists sr. split; [|done]. rewrite Hl by set_solver.
        rewrite Hag in Hsr; [done|set_solver].
      * intros r Hr. simpl in Hr. apply elem_of_cons in Hr as [->|Hr].
        -- exists s2. rewrite lookup_insert_ne by done. split; [apply lookup_insert_eq|done].
        -- rewrite Hl by set_solver. apply H10. set_solver.
    + rewrite lookup_insert_ne by done. apply lookup_insert_eq.
    + intros r Hr. destruct (H10 r Hr) as (sr & Hsr & _). exists sr, (upper_ sr). rewrite Hl by done. split; [done|].
      rewrite Hsr. by destruct sr.
  - destruct (H10 q) as (sq & Hsq & Hokq & Hpq); [set_solver|]. assert (q <> self /\ q <> pp) as [Hqs Hqp] by set_solver.
    set (h3 := <[q := set_upper (Some self) sq]> h2). exists h3, p.
    assert (forall r, r <> q -> r <> self -> h3 !! r = h !! r) as Hl.
    { intros r Hr1 Hr2. unfold h3, h2. rewrite !lookup_insert_ne; done. }
    assert (h3 !! self = Some s2) as Hs3 by (unfold h3; rewrite lookup_insert_ne by done; apply lookup_insert_eq).
    assert (o = upper_ sq) as Eo'.
    { simpl in Eo. unfold get in Eo. rewrite Hag, Hsq in Eo by done. by injection Eo as <-. }
    split_and!; try done.
    + simpl. unfold modify, get, h2. rewrite lookup_insert_ne, Hsq by done. done.
    + by left.
    + split; try done.
      * rewrite Hl; done.
      * rewrite <- app_assoc. apply (chain_insert h h3 l0 q self s2 l2); try done.
        -- rewrite El, <- app_assoc in H8. exact H8.
        -- rewrite El, <- app_assoc in Hnd. exact Hnd.
        -- intros r Hr. apply Hl; [|set_solver]. intros ->. rewrite El, <- app_assoc, list.NoDup_app in Hnd.
           destruct Hnd as (_ & Hd & Hnd). apply list.NoDup_cons in Hnd as [Hd2 _]. set_solver.
        -- exists sq. apply lookup_insert_eq.
        -- intros sq' Hsq'. simpl. congruence.
      * intros r Hr. destruct (decide (r = self)) as [->|]; [by exists s2|]. destruct (decide (r = q)) as [->|].
        -- exists (set_upper (Some self) sq). split; [apply lookup_insert_eq|]. split; [by destruct Hokq|done].
        -- rewrite Hl by done. apply H10. set_solver.
    + intros r Hr. destruct (decide (r = q)) as [->|].
      * exists sq, (Some self). split; [done|apply lookup_insert_eq].
      * destruct (H10 r Hr) as (sr & Hsr & _). exists sr, (upper_ sr). rewrite Hl by set_solver. split; [done|].
        rewrite Hsr. by destruct sr.
Qed.

Lemma rbind_assoc {A B C} (a : res A) (f : A -> res B) (g : B -> res C) :
  rbind (rbind a f) g = rbind a (fun v => rbind (f v) g).
Proof. by destruct a. Qed.

Lemma SetParent_composed h pp l self s :
  composed h pp l -> self ∉ pp :: l -> h !! self = Some s -> sheet_ok s ->
  exists h' l1 l2, l = l1 ++ l2 /\ SetParent self (Some pp) h = Done h' /\ composed h' pp (l1 ++ self :: l2) /\
    Forall (fun q => topmost_in h q = false) l1 /\ Forall (fun q => topmost_in h q = true) (take 1 l2) /\
    (forall r, r ∈ l -> relinked h h' r) /\ (exists u, h' !! self = Some (set_upper u (set_parent (Some pp) s))) /\
    rect_ <$> h' !! pp = rect_ <$> h !! pp.
Proof.
  intros (p & m & b & Sc & Hm & Hsh) Hni Hs Hok.
  destruct (link_ok h pp p m b l self s Sc Hni Hs Hok) as (l1 & l2 & a & o & h3 & p3 & El & Ea & Eo & E3 & Hp3 & Sc3 & Hs3 & Hrel & Ht1 & Ht2).
  set (s2 := set_upper o (set_parent (Some pp) s)) in *. set (l' := l1 ++ self :: l2) in *.
  assert (forall px py, in_client p3 px py <-> in_client p px py) as Ein by (by destruct Hp3 as [-> | ->]).
  assert (map_at p3 = map_at p) as Emap by (by destruct Hp3 as [-> | ->]).
  assert (forall h0 l0 b0 px py, shown_at h0 p3 l0 b0 px py <-> shown_at h0 p l0 b0 px py) as Esh by (by destruct Hp3 as [-> | ->]).
  assert (self ∈ l') as Hself by (unfold l'; set_solver).
  assert (moderate (rect_ s)) as Hmo by (destruct Hok; auto).
  (* what the links change *)
  assert (forall px py, top_at h3 l' px py = match top_at h l2 px py with Some q => Some q
    | None => if opaque s px py then Some self else top_at h l1 px py end) as Htop.
  { intros px py. unfold l'. rewrite (top_at_split h3 l1 self l2 s2) by done.
    rewrite (top_at_relinked h h3 l1), (top_at_relinked h h3 l2) by (subst l; intros; apply Hrel; set_solver). done. }
  unfold SetParent, modify at 1, get. rewrite Hs. cbn [deref rbind]. rewrite Ea. cbn [rbind]. rewrite Eo. cbn [rbind].
  rewrite <- rbind_assoc. match goal with |- context [rbind (rbind ?u ?f) _] => assert (rbind u f = Done h3) as -> by exact E3 end.
  cbn [rbind]. rewrite Hs3. cbn [deref rbind]. change (rect_ s2) with (rect_ s).
  destruct (UpdateMap_ok h3 pp p3 b l' m (rect_ s) Sc3 Hmo) as (m4 & -> & HL4 & Hm4). cbn [rbind].
  set (p4 := set_map (Some m4) p3). set (h4 := <[pp := p4]> h3).
  pose proof (scene_set_map h3 pp p3 b l' m m4 Sc3 HL4) as Sc4. fold p4 h4 in Sc4.
  assert (forall px py, top_at h4 l' px py = top_at h3 l' px py) as Et4 by (intros; by apply (top_at_parent h3 pp p3 m b l')).
  assert (mapped h4 p4 l' m4) as Hmap4.
  { intros px py Hin. change (map_at p4) with (map_at p3). rewrite Et4, Hm4 by done. destruct (IsPointInRect (rect_ s) px py) eqn:Ei; [done|].
    rewrite Emap, Hm by (by apply Ein). f_equal. rewrite Htop. unfold opaque. rewrite Ei. cbn [andb]. subst l. apply top_at_app. }
  assert (h4 !! self = Some s2) as Hs4.
  { unfold h4. rewrite lookup_insert_ne; [done|set_solver]. }
  unfold Flush_all, get. rewrite Hs4. cbn [deref rbind].
  assert (small (GetClientRect s)) as Hcs by (by apply client_small).
  destruct (Flush_ok h4 pp p4 m4 b l' self s2 (GetClientRect s) Sc4 Hmap4 Hself Hs4 Hcs) as (b5 & E5 & HL5 & Hb5).
  exists (<[pp := set_buf b5 p4]> h4), l1, l2. split_and!; try done.
  2:{ intros r Hr. destruct (Hrel r Hr) as (sr & u & Hsr & Hu). exists sr, u. split; [done|]. unfold h4.
      assert (r <> pp) by (intros ->; apply Hni; pose proof (sc_nodup _ _ _ _ _ _ Sc) as Hn; by apply list.NoDup_cons in Hn as [? _]).
      by rewrite !lookup_insert_ne by done. }
  2:{ exists o. rewrite lookup_insert_ne; [done|set_solver]. }
  2:{ rewrite lookup_insert_eq, (sc_p _ _ _ _ _ _ Sc). by destruct Hp3 as [-> | ->]. }
  apply (composed_after h4 pp p4 m4 b l' b5 Sc4 Hmap4 HL5). intros px py Hin. destruct (Hb5 px py Hin) as [K F].
  destruct (decide (top_at h4 l' px py = Some self)) as [Htq|Hntq].
  - apply F; [|done]. apply top_at_Some in Htq as (_ & s' & Hs' & Ho). assert (s' = s2) as -> by congruence.
    apply opaque_inside, IsPointInRect_spec in Ho; [|done]. apply IsPointInRect_spec; [auto|]. simpl in *. unfold GetX, GetY. simpl. lia.
  - apply K. intros q sq Hq Hsq. rewrite Et4, Htop in Hq, Hntq.
    assert (top_at h l px py = Some q) as Hq0.
    { subst l. rewrite top_at_app. destruct (top_at h l2 px py); [done|]. by destruct (opaque s px py). }
    pose proof Hq0 as [Hql _]%top_at_Some. destruct (Hrel q Hql) as (s0 & u & Hs0 & Hu).
    assert (sq = set_upper u s0) as ->.
    { unfold h4 in Hsq. rewrite lookup_insert_ne in Hsq; [congruence|]. intros ->. pose proof (sc_nodup _ _ _ _ _ _ Sc). by apply list.NoDup_cons in H as [? _]. }
    change (GetXSize p4) with (GetXSize p3). replace (GetXSize p3) with (GetXSize p) by (by destruct Hp3 as [-> | ->]).
    change (pixel (set_upper u s0) px py) with (pixel s0 px py). exact (Hsh px py (proj1 (Ein px py) Hin) q s0 Hq0 Hs0).
Qed.

(** ** A new map *)

Lemma SetMap_composed h pp p m :
  h !! pp = Some p -> sheet_ok p -> pixels_per_scan_line_ p = xsize (rect_ p) -> bottom_child_ p = None ->
  Z.of_nat (length m) = ysize (rect_ p) * xsize (rect_ p) -> x (rect_ p) = 0 -> y (rect_ p) = 0 ->
  exists h', SetMap pp (Some m) h = Done h' /\ composed h' pp [].
Proof.
  intros Hp Hok Hpp Hb Hml Hx Hy. unfold SetMap, modify, get. rewrite Hp. cbn [deref rbind]. rewrite lookup_insert_eq. cbn [deref rbind].
  set (p1 := set_map (Some m) p). set (h1 := <[pp := p1]> h). destruct (sk_buf _ Hok) as (b & Eb & HB).
  assert (scene h1 pp p1 m b []) as Sc.
  { split; try done; [apply lookup_insert_eq|by destruct Hok|by rewrite HB, Hpp|apply list.NoDup_cons; split; [set_solver|by apply base.NoDup_nil_2]|set_solver]. }
  destruct (UpdateMap_ok h1 pp p1 b [] m (rect_ p) Sc) as (m' & E & HL & Hm'); [destruct Hok; auto|].
  exists (<[pp := set_map (Some m') p1]> h1). split; [exact E|]. exists (set_map (Some m') p1), m', b.
  split_and!; [by apply (scene_set_map h1 pp p1 b [] m m')| |].
  - intros px py Hin. change (map_at (set_map (Some m') p1)) with (map_at p1). rewrite Hm' by done.
    assert (IsPointInRect (rect_ p) px py = true) as ->; [|done]. apply IsPointInRect_spec; [destruct Hok; auto|].
    unfold in_client, GetXSize, GetYSize in Hin. simpl in Hin. lia.
  - intros px py _ q s Hq. done.
Qed.

(** ** Drawing *)

Lemma point_in r px py :
  moderate r -> x r <= px < x r + xsize r -> y r <= py < y r + ysize r -> IsPointInRect r px py = true.
Proof. intros. by apply IsPointInRect_spec. Qed.

Lemma points_shift a w b hgt : points a (a + w) b (b + hgt) = (fun q => (a + q.1, b + q.2)) <$> points 0 w 0 hgt.
Proof.
  unfold points. replace (a + w - a) with w by lia. replace (b + hgt - b) with hgt by lia. rewrite !Z.sub_0_r.
  replace (seqZ a w) with (Z.add a <$> seqZ 0 w) by (rewrite fmap_add_seqZ; f_equal; lia).
  replace (seqZ b hgt) with (Z.add b <$> seqZ 0 hgt) by (rewrite fmap_add_seqZ; f_equal; lia).
  generalize (seqZ 0 w) as xs, (seqZ 0 hgt) as ys. intros xs ys.
  induction ys as [|v ys IH]; [done|]. cbn [fmap list_fmap]. rewrite !bind_cons, fmap_app, IH. f_equal.
  rewrite <- !list_fmap_compose. done.
Qed.

Lemma child_ne h pp l q : composed h pp l -> q ∈ l -> q <> pp.
Proof. intros (p & m & b & Sc & _) Hq ->. pose proof (sc_nodup _ _ _ _ _ _ Sc) as Hn. by apply list.NoDup_cons in Hn as [? _]. Qed.
(** A sheet of the scene that can be drawn into. *)
Definition drawable (h : heap) (pp : nat) (l : list nat) (self : nat) (s : Sheet) : Prop :=
  composed h pp l /\ self ∈ l /\ h !! self = Some s /\ is_alpha_enabled_ s = false.
Lemma drawable_ok h pp l self s : drawable h pp l self s -> sheet_ok s.
Proof.
  intros ((p & m & b & Sc & _) & Hself & Hs & _). destruct (sc_child _ _ _ _ _ _ Sc self Hself) as (s' & Hs' & Hok & _).
  by assert (s' = s) as -> by congruence.
Qed.
(** The sheet afterwards: the pixels of the area [t] are [c], the others as they
    were; the screen is composed again. *)
Definition drawn (h' : heap) (pp : nat) (l : list nat) (self : nat) (s : Sheet) (t : rect) (c : Z -> Z -> option Z) : Prop :=
  exists b', drawable h' pp l self (set_buf b' s) /\ length b' = length (array (buf_ s)) /\
    forall qx qy, 0 <= qx < pixels_per_scan_line_ s -> 0 <= qy ->
      b' !! at_ (pixels_per_scan_line_ s) qx qy =
        if IsPointInRect t qx qy then c qx qy else array (buf_ s) !! at_ (pixels_per_scan_line_ s) qx qy.
Lemma drawn_ok h pp l self s t c b1 :
  drawable h pp l self s -> small t -> length b1 = length (array (buf_ s)) ->
  (forall qx qy, 0 <= qx < pixels_per_scan_line_ s -> 0 <= qy ->
     b1 !! at_ (pixels_per_scan_line_ s) qx qy =
       if IsPointInRect t qx qy then c qx qy else array (buf_ s) !! at_ (pixels_per_scan_line_ s) qx qy) ->
  exists h', Flush self (x t) (y t) (xsize t) (ysize t) (<[self := set_buf b1 s]> h) = Done h' /\ drawn h' pp l self s t c.
Proof.
  intros Hd Ht HL Hb. pose proof (drawable_ok _ _ _ _ _ Hd) as Hok. destruct Hd as (Hc & Hself & Hs & Hal).
  destruct (redraw_ok h pp l self s b1 t Hc Hself Hs Hal HL Ht) as (h' & E & Hc' & Hk).
  - intros px py Hin Hout. apply in_client_spec in Hin as [Hx Hy]; [|done]. pose proof (sk_ppl _ Hok). unfold GetXSize in *.
    rewrite Hb by lia. by rewrite Hout.
  - exists h'. split; [done|]. exists b1. split; [|by split]. split_and!; [done|done| |done].
    rewrite (proj1 Hk) by (by eapply child_ne). apply lookup_insert_eq.
Qed.
(** The pixels of an area inside the sheet, drawn one by one. *)
Lemma paint_area s t (c : Z -> Z -> Z) (f : Z * Z -> list Z -> res (list Z)) b :
  sheet_ok s -> length b = length (array (buf_ s)) ->
  0 <= x t -> x t + xsize t <= GetXSize s -> 0 <= y t -> y t + ysize t <= GetYSize s -> 0 <= xsize t -> 0 <= ysize t ->
  (forall q m, q ∈ points (x t) (x t + xsize t) (y t) (y t + ysize t) ->
     f q m = aset (index (pixels_per_scan_line_ s) q.1 q.2) (c q.1 q.2) m) ->
  exists b1, foldM f (points (x t) (x t + xsize t) (y t) (y t + ysize t)) b = Done b1 /\ length b1 = length b /\
    forall qx qy, 0 <= qx < pixels_per_scan_line_ s -> 0 <= qy ->
      b1 !! at_ (pixels_per_scan_line_ s) qx qy =
        if IsPointInRect t qx qy then Some (c qx qy) else b !! at_ (pixels_per_scan_line_ s) qx qy.
Proof.
  intros Hok Hb Hx0 Hx1 Hy0 Hy1 Hw Hh Hf. destruct (sk_buf _ Hok) as (bs & Eb & HB). rewrite Eb in Hb. change (array (Some bs)) with bs in Hb.
  destruct (sk_small _ Hok) as (_ & _ & Hxs & Hys). pose proof (sk_ppl _ Hok). pose proof (sk_size _ Hok). unfold GetXSize, GetYSize in *.
  assert (small t) as Ht by (unfold small; lia).
  destruct (paint (pixels_per_scan_line_ s) (fun qx qy => Some (c qx qy)) f (points (x t) (x t + xsize t) (y t) (y t + ysize t)) (length b) b)
    as (b' & E & HL & Hb').
  - intros qx qy m0 Hin HL. rewrite Hf by done. apply elem_of_points in Hin. cbn [fst snd].
    apply aset_at; [lia|lia|rewrite HL; apply (at_lt _ (ysize (rect_ s))); lia|lia].
  - intros qx qy Hin. apply elem_of_points in Hin. split_and!; [lia..|]. apply (at_lt _ (ysize (rect_ s))); lia.
  - done.
  - exists b'. split_and!; [done|done|]. intros qx qy Hqx Hqy. rewrite Hb' by lia.
    rewrite (decide_ext _ (x t <= qx < x t + xsize t /\ y t <= qy < y t + ysize t)) by apply elem_of_points.
    destruct (IsPointInRect t qx qy) eqn:Hi.
    + apply IsPointInRect_spec in Hi; [|by apply small_moderate]. by rewrite decide_True.
    + rewrite decide_False; [done|]. intros Hp. apply IsPointInRect_spec in Hp; [|by apply small_moderate]. congruence.
Qed.
Lemma draw_points h pp l self s t (c : Z -> Z -> Z) (f : Z * Z -> list Z -> res (list Z)) :
  drawable h pp l self s -> 0 <= x t -> x t + xsize t <= GetXSize s -> 0 <= y t -> y t + ysize t <= GetYSize s ->
  0 <= xsize t -> 0 <= ysize t ->
  (forall q m, q ∈ points (x t) (x t + xsize t) (y t) (y t + ysize t) ->
     f q m = aset (index (pixels_per_scan_line_ s) q.1 q.2) (c q.1 q.2) m) ->
  exists b1, foldM f (points (x t) (x t + xsize t) (y t) (y t + ysize t)) (array (buf_ s)) = Done b1 /\
  exists h', Flush self (x t) (y t) (xsize t) (ysize t) (<[self := set_buf b1 s]> h) = Done h' /\
    drawn h' pp l self s t (fun qx qy => Some (c qx qy)).
Proof.
  intros Hd Hx0 Hx1 Hy0 Hy1 Hw Hh Hf. pose proof (drawable_ok _ _ _ _ _ Hd) as Hok. destruct (sk_small _ Hok) as (_ & _ & Hxs & Hys).
  destruct (paint_area s t c f (array (buf_ s)) Hok) as (b1 & E & HL & Hb); try done. exists b1. split; [done|].
  apply drawn_ok; [done| |done|done]. unfold GetXSize, GetYSize in *. unfold small. lia.
Qed.

Lemma DrawPoint_drawn h pp l self s px py col :
  drawable h pp l self s -> in_client s px py ->
  exists h', DrawPoint self px py col true h = Done h' /\ drawn h' pp l self s (R px py 1 1) (fun _ _ => Some col).
Proof.
  intros Hd [Hx Hy]. pose proof Hd as (_ & _ & Hs & _). unfold DrawPoint, get. rewrite Hs. cbn [deref rbind].
  destruct (draw_points h pp l self s (R px py 1 1) (fun _ _ => col)
    (fun q => aset (index (pixels_per_scan_line_ s) q.1 q.2) col)) as (b1 & E & h' & F & D); cbn [x y xsize ysize]; try lia; try done.
  cbn [x y xsize ysize] in E. assert (points px (px + 1) py (py + 1) = [(px, py)]) as Ep.
  { unfold points. replace (px + 1 - px) with 1 by lia. replace (py + 1 - py) with 1 by lia.
    rewrite !seqZ_cons by lia. by rewrite !seqZ_nil by lia. }
  rewrite Ep in E. cbn [foldM fst snd] in E. destruct (aset _ _ _) as [b2|] eqn:Ea; [|discriminate E]. injection E as ->.
  cbn [rbind]. by exists h'.
Qed.

(** The loops over an area run with coordinates relative to it. *)
Lemma relative_points W t (c : Z -> Z -> Z) b : 0 <= x t -> x t + xsize t < 2 ^ 27 -> 0 <= y t -> y t + ysize t < 2 ^ 27 ->
  for_ 0 (ysize t) (fun dy => for_ 0 (xsize t) (fun dx => aset (index W (i32 (x t + dx)) (i32 (y t + dy))) (c dx dy))) b =
  foldM (fun q => aset (index W q.1 q.2) (c (q.1 - x t) (q.2 - y t))) (points (x t) (x t + xsize t) (y t) (y t + ysize t)) b.
Proof.
  intros. rewrite points_shift, for_points, foldM_map. apply foldM_ext. intros [dx dy] m Ha.
  apply elem_of_points in Ha. cbn [fst snd]. rewrite !i32_small by lia. repeat f_equal; lia.
Qed.
Lemma DrawCharacter_drawn font h pp l self s c px py :
  drawable h pp l self s -> 0 <= px -> px + 8 <= GetXSize s -> 0 <= py -> py + 16 <= GetYSize s ->
  exists h', DrawCharacter font self c px py true h = Done h' /\
    drawn h' pp l self s (R px py 8 16) (fun qx qy => Some (if glyph_bit font c (qx - px) (qy - py) then 0xffffff else 0)).
Proof.
  intros Hd Hx0 Hx1 Hy0 Hy1. pose proof (drawable_ok _ _ _ _ _ Hd) as Hok. pose proof Hd as (_ & _ & Hs & _).
  unfold DrawCharacter, draw_in, get. rewrite Hs. cbn [deref rbind]. destruct (sk_buf _ Hok) as (bs & Eb & _). rewrite Eb.
  destruct (sk_small _ Hok) as (_ & _ & Hxs & Hys). unfold GetXSize, GetYSize in *.
  destruct (draw_points h pp l self s (R px py 8 16) (fun qx qy => if glyph_bit font c (qx - px) (qy - py) then 0xffffff else 0)
    (fun q => aset (index (pixels_per_scan_line_ s) q.1 q.2) (if glyph_bit font c (q.1 - px) (q.2 - py) then 0xffffff else 0)))
    as (b1 & E & h' & F & D); unfold GetXSize, GetYSize; cbn [x y xsize ysize]; try lia; [done|done|].
  rewrite Eb in E. change (array (Some bs)) with bs in E.
  rewrite <- (relative_points (pixels_per_scan_line_ s) (R px py 8 16) (fun dx dy => if glyph_bit font c dx dy then 0xffffff else 0)) in E
    by (cbn [x y xsize ysize]; lia).
  cbn [x y xsize ysize] in *. rewrite E. cbn [rbind]. rewrite F. by exists h'.
Qed.

Lemma land_1 w : Z.land w 1 = w mod 2.
Proof. exact (land_ones_mod w 1 ltac:(lia)). Qed.
(** Drawing without flushing, into a sheet whose pixels are [b]. *)
Lemma DrawCharacter_silent font c px py h q s b :
  sheet_ok s -> length b = length (array (buf_ s)) -> 0 <= px -> px + 8 <= GetXSize s -> 0 <= py -> py + 16 <= GetYSize s ->
  exists b', DrawCharacter font q c px py false (<[q := set_buf b s]> h) = Done (<[q := set_buf b' s]> h) /\ length b' = length b.
Proof.
  intros Hok Hb Hx0 Hx1 Hy0 Hy1. destruct (sk_small _ Hok) as (_ & _ & Hxs & Hys).
  destruct (paint_area s (R px py 8 16) (fun qx qy => if glyph_bit font c (qx - px) (qy - py) then 0xffffff else 0)
    (fun q => aset (index (pixels_per_scan_line_ s) q.1 q.2) (if glyph_bit font c (q.1 - px) (q.2 - py) then 0xffffff else 0)) b Hok Hb)
    as (b1 & E & HL & _); cbn [x y xsize ysize]; try lia; [done|].
  unfold GetXSize, GetYSize in *.
  rewrite <- (relative_points (pixels_per_scan_line_ s) (R px py 8 16) (fun dx dy => if glyph_bit font c dx dy then 0xffffff else 0)) in E
    by (cbn [x y xsize ysize]; lia).
  exists b1. split; [|done]. unfold DrawCharacter, draw_in, get. rewrite lookup_insert_eq. cbn [deref rbind set_buf buf_ pixels_per_scan_line_].
  cbn [x y xsize ysize] in E. rewrite E. cbn [rbind]. by rewrite insert_insert_eq.
Qed.
(** Whatever was drawn, flushing the whole sheet shows it. *)
Lemma Flush_all_ok h pp l self s b1 :
  drawable h pp l self s -> length b1 = length (array (buf_ s)) ->
  exists h', Flush_all self (<[self := set_buf b1 s]> h) = Done h' /\ composed h' pp l /\ kept (<[self := set_buf b1 s]> h) h' pp.
Proof.
  intros Hd HL. pose proof (drawable_ok _ _ _ _ _ Hd) as Hok. destruct Hd as (Hc & Hself & Hs & Hal).
  unfold Flush_all, get. rewrite lookup_insert_eq. cbn [deref rbind].
  apply (redraw_ok h pp l self s b1 (GetClientRect s)); try done; [by apply client_small|]. intros px py H1 H2. congruence.
Qed.

(** Stores of [k] words each, one after the other. *)
Lemma store_words_row k n to col b : 0 <= n ->
  store_words k n to col b = foldM (fun j => aset j col) (seqZ to (n * Z.of_nat k)) b.
Proof.
  intros Hn. unfold store_words, for_. zfalse (n <? 0). rewrite Z.sub_0_r.
  destruct (Z_of_nat_complete n Hn) as [m ->]. clear Hn. revert b.
  induction m as [|m IH]; intros b; [done|].
  rewrite seqZ_S, foldM_app, IH, Nat2Z.inj_succ. replace (Z.succ (Z.of_nat m) * Z.of_nat k) with (Z.of_nat m * Z.of_nat k + Z.of_nat k) by lia.
  rewrite (seqZ_app to), foldM_app by lia.
  destruct (foldM _ (seqZ to _) b) as [b1|]; [|done]. cbn [rbind foldM].
  replace (seqZ (to + Z.of_nat m * Z.of_nat k) (Z.of_nat k)) with (Z.add (to + Z.of_nat m * Z.of_nat k) <$> seqZ 0 (Z.of_nat k))
    by (rewrite fmap_add_seqZ; f_equal; lia).
  rewrite foldM_map. rewrite Z.add_0_l. by destruct (foldM _ _ b1).
Qed.
Lemma DrawRect_drawn h pp l self s px py w hgt col :
  drawable h pp l self s -> 0 <= px -> px + w <= GetXSize s -> 0 <= py -> py + hgt <= GetYSize s -> 0 <= w -> 0 <= hgt ->
  exists h', DrawRect self px py w hgt col true h = Done h' /\ drawn h' pp l self s (R px py w hgt) (fun _ _ => Some col).
Proof.
  intros Hd Hx0 Hx1 Hy0 Hy1 Hw Hh. pose proof (drawable_ok _ _ _ _ _ Hd) as Hok. pose proof Hd as (_ & _ & Hs & _).
  unfold DrawRect, draw_in, get. rewrite Hs. cbn [deref rbind]. destruct (sk_buf _ Hok) as (bs & Eb & HB). rewrite Eb.
  destruct (sk_small _ Hok) as (_ & _ & Hxs & Hys). pose proof (sk_ppl _ Hok). pose proof (sk_size _ Hok). unfold GetXSize, GetYSize in *.
  destruct (draw_points h pp l self s (R px py w hgt) (fun _ _ => col)
    (fun q => aset (index (pixels_per_scan_line_ s) q.1 q.2) col)) as (b1 & E & h' & F & D); unfold GetXSize, GetYSize; cbn [x y xsize ysize]; try lia; [done|done|].
  cbn [x y xsize ysize] in *. rewrite Eb in E. change (array (Some bs)) with bs in E.
  rewrite <- (for_points _ _ _ _ (fun qy qx => aset (index (pixels_per_scan_line_ s) qx qy) col)) in E.
  assert (for_ py (i32 (py + hgt)) (fun y => if Z.land w 1 =? 1 then store_words 1 w (index (pixels_per_scan_line_ s) px y) col
      else store_words 2 (w ÷ 2) (index (pixels_per_scan_line_ s) px y) col) bs = Done b1) as ->.
  { rewrite <- E, i32_small by lia. unfold for_ at 1 2. apply foldM_ext. intros qy m Hq. apply elem_of_seqZ in Hq. cbn beta zeta.
    replace ((if Z.land w 1 =? 1 then store_words 1 w (index (pixels_per_scan_line_ s) px qy) col
      else store_words 2 (w ÷ 2) (index (pixels_per_scan_line_ s) px qy) col) m)
      with (foldM (fun j => aset j col) (seqZ (index (pixels_per_scan_line_ s) px qy) w) m).
    - destruct (decide (w = 0)) as [->|]; [unfold for_; by rewrite !seqZ_nil by lia|].
      rewrite (index_at _ _ _ (ysize (rect_ s) * pixels_per_scan_line_ s)) by nia. unfold for_.
      replace (px + w - px) with w by lia. replace (seqZ (qy * pixels_per_scan_line_ s + px) w)
        with (Z.add (qy * pixels_per_scan_line_ s) <$> seqZ px w) by (rewrite fmap_add_seqZ; f_equal; lia).
      rewrite foldM_map. apply foldM_ext. intros qx m' Hq'. apply elem_of_seqZ in Hq'.
      by rewrite (index_at _ _ _ (ysize (rect_ s) * pixels_per_scan_line_ s)) by nia.
    - rewrite land_1, Z.quot_div_nonneg by lia.
      destruct (Z.eqb_spec (w mod 2) 1); rewrite store_words_row by zdiv; repeat f_equal; zdiv. }
  cbn [rbind]. rewrite F. by exists h'.
Qed.

(** A loop with an invariant. *)
Lemma for_inv {S} (I : Z -> S -> Prop) lo hi body s :
  lo <= hi -> I lo s -> (forall i s, lo <= i < hi -> I i s -> exists s', body i s = Done s' /\ I (i + 1) s') ->
  exists s', for_ lo hi body s = Done s' /\ I hi s'.
Proof.
  intros Hle. destruct (Z_of_nat_complete (hi - lo) ltac:(lia)) as [n Hn]. assert (hi = lo + Z.of_nat n) as -> by lia.
  unfold for_. rewrite Hn. clear Hle Hn. revert lo s. induction n as [|n IH]; intros lo s H0 Hs.
  { rewrite seqZ_nil by lia. exists s. by rewrite Z.add_0_r. }
  rewrite seqZ_cons by lia. cbn [foldM]. destruct (Hs lo s) as (s1 & -> & H1); [lia|done|]. cbn [rbind].
  replace (Z.pred (Z.of_nat (Datatypes.S n))) with (Z.of_nat n) by lia.
  destruct (IH (Z.succ lo) s1) as (s' & E & H'); [done|intros; apply Hs; [lia|done]|]. exists s'. split; [done|].
  replace (lo + Z.of_nat (Datatypes.S n)) with (Z.succ lo + Z.of_nat n) by lia. done.
Qed.
Lemma aget_ok {A} (l : list A) i v : 0 <= i -> l !! Z.to_nat i = Some v -> aget l i = Done v.
Proof. intros. unfold aget. zfalse (i <? 0). by rewrite H0. Qed.
Lemma aset_ok {A} (l : list A) i (v : A) : 0 <= i < Z.of_nat (length l) -> aset i v l = Done (<[Z.to_nat i := v]> l).
Proof. intros. unfold aset. ztrue (0 <=? i). by ztrue (i <? Z.of_nat (length l)). Qed.

(** [b'] is [b] with the [w] elements from [from] on moved down to [to]. *)
Definition moved (to from w : Z) (b b' : list Z) : Prop :=
  length b' = length b /\
  forall i, 0 <= i -> b' !! Z.to_nat i = if (to <=? i) && (i <? to + w) then b !! Z.to_nat (i - to + from) else b !! Z.to_nat i.
Lemma moved_step to from w b b' :
  0 <= to -> 0 <= w -> to + w < from -> from + w < Z.of_nat (length b) -> moved to from w b b' ->
  exists c, aget b' (from + w) = Done c /\
    exists b'', aset (to + w) c b' = Done b'' /\ moved to from (w + 1) b b''.
Proof.
  intros Ht Hw Hd Hl [HL Hb]. destruct (lookup_lt_is_Some_2 b (Z.to_nat (from + w))) as [c Hc]; [lia|].
  exists c. split; [apply aget_ok; [lia|rewrite Hb by lia]|].
  { ztrue (to <=? from + w). by zfalse (from + w <? to + w). }
  rewrite aset_ok by lia. eexists. split; [done|]. split; [by rewrite length_insert|]. intros i Hi.
  destruct (decide (i = to + w)) as [->|Hn].
  - rewrite list_lookup_insert_eq by lia. ztrue (to <=? to + w). ztrue (to + w <? to + (w + 1)). cbn [andb].
    rewrite <- Hc. do 2 f_equal. lia.
  - rewrite list_lookup_insert_ne by lia. rewrite Hb by lia. zcmps; done.
Qed.
Lemma move_words_ok k n to from b : (k = 1%nat \/ k = 2%nat) ->
  0 <= n -> 0 <= to -> to + n * Z.of_nat k <= from -> from + n * Z.of_nat k <= Z.of_nat (length b) ->
  exists b', move_words k n to from b = Done b' /\ moved to from (n * Z.of_nat k) b b'.
Proof.
  intros Hk Hn Ht Hd Hl. unfold move_words. zfalse (n <? 0).
  apply (for_inv (fun i => moved to from (i * Z.of_nat k) b)); [lia| |].
  { split; [done|]. intros i Hi. zcmps; done. }
  intros i b1 Hi HM. destruct Hk as [-> | ->].
  - change (seqZ 0 (Z.of_nat 1)) with [0]. cbn [foldM]. destruct (moved_step to from (i * Z.of_nat 1) b b1) as (c & E & b2 & E2 & H2); try lia; [done|].
    rewrite !Z.add_0_r. rewrite E. cbn [rbind foldM app zip zip_with]. rewrite !Z.add_0_r, E2. exists b2. split; [done|].
    by replace ((i + 1) * Z.of_nat 1) with (i * Z.of_nat 1 + 1) by lia.
  - change (seqZ 0 (Z.of_nat 2)) with [0; 1]. cbn [foldM]. change (Z.of_nat 2) with 2 in *.
    destruct (moved_step to from (i * 2) b b1) as (c & E & b2 & E2 & H2); try lia; [done|].
    destruct (moved_step to from (i * 2 + 1) b b2) as (c' & E' & b3 & E3 & H3); try lia; [done|].
    assert (aget b1 (from + i * 2 + 1) = Done c') as E1.
    { revert E'. rewrite Z.add_assoc. unfold aset in E2. destruct (_ && _); [|done]. injection E2 as <-. unfold aget.
      zfalse (from + i * 2 + 1 <? 0). by rewrite list_lookup_insert_ne by lia. }
    rewrite !Z.add_0_r, E. cbn [rbind foldM app]. rewrite E1. cbn [rbind foldM app zip zip_with]. rewrite !Z.add_0_r, E2. cbn [rbind].
    rewrite Z.add_assoc in E3. rewrite E3. exists b3. split; [done|]. by replace ((i + 1) * 2) with (i * 2 + 1 + 1) by lia.
Qed.

Lemma row_bounds W px py w dy : 0 <= px < W -> 0 <= w <= W ->
  (dy * W <=? py * W + px) && (py * W + px <? dy * W + w) = (py =? dy) && (px <? w).
Proof.
  intros Hx Hw. destruct (Z.eqb_spec py dy) as [->|Hn]; cbn [andb].
  - rewrite (proj2 (Z.leb_le _ _)) by lia. cbn [andb]. destruct (Z.ltb_spec px w), (Z.ltb_spec (dy * W + px) (dy * W + w)); lia.
  - destruct (Z.lt_total py dy) as [H|[H|H]]; [|done|].
    + assert ((py + 1) * W <= dy * W) by nia. by rewrite (proj2 (Z.leb_gt _ _)) by lia.
    + assert ((dy + 1) * W <= py * W) by nia. by rewrite (proj2 (Z.ltb_ge (py * W + px) _)), andb_false_r by lia.
Qed.
(** The rows of the sheet move up by [d]. *)
Lemma scroll_drawn h pp l self s d :
  drawable h pp l self s -> 0 < d <= GetYSize s ->
  exists h', BlockTransfer self 0 0 0 d (GetXSize s) (GetYSize s - d) h = Done h' /\
    drawn h' pp l self s (R 0 0 (GetXSize s) (GetYSize s - d))
      (fun qx qy => array (buf_ s) !! at_ (pixels_per_scan_line_ s) qx (qy + d)).
Proof.
  intros Hd Hr. pose proof (drawable_ok _ _ _ _ _ Hd) as Hok. pose proof Hd as (_ & _ & Hs & _).
  destruct (sk_buf _ Hok) as (bs & Eb & HB). destruct (sk_small _ Hok) as (_ & _ & Hxs & Hys).
  pose proof (sk_ppl _ Hok) as Hppl. pose proof (sk_size _ Hok) as Hsz. unfold GetXSize, GetYSize in *.
  set (W := pixels_per_scan_line_ s) in *. set (w := xsize (rect_ s)) in *. set (H := ysize (rect_ s)) in *.
  unfold BlockTransfer, get. rewrite Hs. cbn [deref rbind]. fold W. rewrite Eb. change (array (Some bs)) with bs.
  set (I := fun k b => length b = length bs /\ forall qx qy, 0 <= qx < W -> 0 <= qy ->
    b !! at_ W qx qy = if (qx <? w) && (qy <? k) then bs !! at_ W qx (qy + d) else bs !! at_ W qx qy).
  match goal with |- context [for_ 0 (H - d) ?body bs] => destruct (for_inv I 0 (H - d) body bs) as (b1 & -> & HL & Hb1) end.
  - lia.
  - split; [done|]. intros qx qy Hx Hy. by rewrite (proj2 (Z.ltb_ge qy 0)), andb_false_r by lia.
  - intros dy b Hdy [HL Hb]. cbn beta zeta.
    assert (dy * W + W <= (d + dy) * W) by nia. assert ((d + dy) * W + W <= H * W) by nia. assert (0 <= dy * W) by nia.
    assert (exists b', (if Z.land w 1 =? 1 then move_words 1 w (dy * W) ((d + dy) * W)
      else move_words 2 (w ÷ 2) (dy * W) ((d + dy) * W)) b = Done b' /\ moved (dy * W) ((d + dy) * W) w b b') as (b' & E & HL' & Hm).
    { rewrite land_1, Z.quot_div_nonneg by lia. destruct (Z.eqb_spec (w mod 2) 1).
      - destruct (move_words_ok 1 w (dy * W) ((d + dy) * W) b) as (b' & E & HM); [by left|lia..|]. exists b'. split; [done|].
        by rewrite Z.mul_1_r in HM.
      - assert (w / 2 * Z.of_nat 2 = w) as E2 by zdiv.
        destruct (move_words_ok 2 (w / 2) (dy * W) ((d + dy) * W) b) as (b' & E & HM); [by right|zdiv|lia..|]. exists b'. split; [done|].
        by rewrite E2 in HM. }
    assert (index W 0 (i32 (0 + dy)) = dy * W) as ->.
    { unfold index. rewrite (i32_small (0 + dy)), Z.add_0_l, (i32_small (dy * W)), i32_small by lia. lia. }
    assert (index W (i32 (0 + 0)) (i32 (d + dy)) = (d + dy) * W) as ->.
    { unfold index. change (i32 (0 + 0)) with 0. rewrite (i32_small (d + dy)), (i32_small ((d + dy) * W)), i32_small by lia. lia. }
    exists b'. split; [exact E|]. split; [by rewrite HL'|]. intros qx qy Hx Hy. unfold at_ at 1. rewrite Hm by nia.
    rewrite row_bounds by lia. destruct (Z.eqb_spec qy dy) as [->|Hn]; cbn [andb].
    + destruct (Z.ltb_spec qx w); cbn [andb].
      * rewrite (proj2 (Z.ltb_lt dy (dy + 1))) by lia. replace (dy * W + qx - dy * W + (d + dy) * W) with ((d + dy) * W + qx) by lia.
        change (Z.to_nat ((d + dy) * W + qx)) with (at_ W qx (d + dy)). rewrite Hb by lia.
        rewrite (proj2 (Z.ltb_ge (d + dy) dy)), andb_false_r by lia. by rewrite Z.add_comm.
      * change (Z.to_nat (dy * W + qx)) with (at_ W qx dy). rewrite Hb by lia. by rewrite (proj2 (Z.ltb_ge qx w)) by lia.
    + change (Z.to_nat (qy * W + qx)) with (at_ W qx qy). rewrite Hb by lia.
      by replace (qy <? dy + 1) with (qy <? dy) by (destruct (Z.ltb_spec qy dy), (Z.ltb_spec qy (dy + 1)); lia).
  - cbn [rbind]. unfold modify, get. rewrite Hs. cbn [deref rbind]. rewrite Eb.
    apply (drawn_ok h pp l self s (R 0 0 w (H - d))); [done|unfold small; simpl; lia|by rewrite Eb|]. fold W. rewrite Eb.
    change (array (Some bs)) with bs. intros qx qy Hx Hy. rewrite Hb1 by done.
    assert (IsPointInRect (R 0 0 w (H - d)) qx qy = (qx <? w) && (qy <? H - d)) as ->; [|done].
    apply eq_true_iff_eq. rewrite IsPointInRect_spec by (unfold moderate; simpl; lia). cbn [x y xsize ysize].
    rewrite andb_true_iff, !Z.ltb_lt. lia.
Qed.

(** ** The compositor *)

Inductive op :=
| Insert (q : nat)
| Move (q : nat) (nx ny : Z)
| EnableAlpha (q : nat)
| Point (q : nat) (px py col : Z)
| Char (q : nat) (c px py : Z)
| Fill (q : nat) (px py w hgt col : Z)
| Scroll (q : nat) (d w hgt : Z).
Definition exec (font : Z -> Z -> Z) (pp : nat) (o : op) : heap -> res heap :=
  match o with
  | Insert q => SetParent q (Some pp)
  | Move q nx ny => SetPosition q nx ny
  | EnableAlpha q => SetAlphaEnabled q true
  | Point q px py col => DrawPoint q px py col true
  | Char q c px py => DrawCharacter font q c px py true
  | Fill q px py w hgt col => DrawRect q px py w hgt col true
  | Scroll q d w hgt => BlockTransfer q 0 0 0 d w hgt
  end.
(** When an operation may be used: the sheet is a child, or a new sheet with its
    pixels; drawing is inside an opaque sheet. *)
Definition allowed (h : heap) (pp : nat) (l : list nat) (o : op) : Prop :=
  match o with
  | Insert q => q ∉ pp :: l /\ exists s, h !! q = Some s /\ sheet_ok s
  | Move q nx ny => q ∈ l /\ exists s, h !! q = Some s /\ small (R nx ny (GetXSize s) (GetYSize s))
  | EnableAlpha q => q ∈ l
  | Point q px py _ => q ∈ l /\ exists s, h !! q = Some s /\ is_alpha_enabled_ s = false /\ in_client s px py
  | Char q _ px py => q ∈ l /\ exists s, h !! q = Some s /\ is_alpha_enabled_ s = false /\
      0 <= px /\ px + 8 <= GetXSize s /\ 0 <= py /\ py + 16 <= GetYSize s
  | Fill q px py w hgt _ => q ∈ l /\ exists s, h !! q = Some s /\ is_alpha_enabled_ s = false /\
      0 <= px /\ px + w <= GetXSize s /\ 0 <= py /\ py + hgt <= GetYSize s /\ 0 <= w /\ 0 <= hgt
  | Scroll q d w hgt => q ∈ l /\ exists s, h !! q = Some s /\ is_alpha_enabled_ s = false /\
      0 < d <= GetYSize s /\ w = GetXSize s /\ hgt = GetYSize s - d
  end.
(** The children afterwards: a new one is below the topmost ones. *)
Definition children_after (h : heap) (l l' : list nat) (o : op) : Prop :=
  match o with
  | Insert q => exists l1 l2, l = l1 ++ l2 /\ l' = l1 ++ q :: l2 /\
      Forall (fun q => topmost_in h q = false) l1 /\ Forall (fun q => topmost_in h q = true) (take 1 l2)
  | _ => l' = l
  end.

Lemma exec_composed font h pp l o :
  composed h pp l -> allowed h pp l o ->
  exists h' l', exec font pp o h = Done h' /\ composed h' pp l' /\ children_after h l l' o.
Proof.
  intros Hc Ha. destruct o as [q|q nx ny|q|q px py col|q c px py|q px py w hgt col|q d w hgt]; simpl in *.
  - destruct Ha as (Hq & s & Hs & Hok).
    destruct (SetParent_composed h pp l q s Hc Hq Hs Hok) as (h' & l1 & l2 & El & E & Hc' & H1 & H2 & _).
    exists h', (l1 ++ q :: l2). split_and!; [done|done|]. exists l1, l2. done.
  - destruct Ha as (Hq & s & Hs & Hsm). destruct (SetPosition_composed h pp l q s nx ny Hc Hq Hs Hsm) as (h' & E & Hc' & _). by exists h', l.
  - pose proof Hc as (p & m & b & Sc & _). destruct (sc_child _ _ _ _ _ _ Sc q Ha) as (s & Hs & _).
    destruct (SetAlphaEnabled_composed h pp l q s Hc Ha Hs) as (h' & E & Hc' & _). by exists h', l.
  - destruct Ha as (Hq & s & Hs & Hal & Hin).
    destruct (DrawPoint_drawn h pp l q s px py col) as (h' & E & b' & Hd & _); [done|done|]. exists h', l. by split_and!; [|apply Hd|].
  - destruct Ha as (Hq & s & Hs & Hal & ? & ? & ? & ?).
    destruct (DrawCharacter_drawn font h pp l q s c px py) as (h' & E & b' & Hd & _); try done. exists h', l.
    by split_and!; [|apply Hd|].
  - destruct Ha as (Hq & s & Hs & Hal & ? & ? & ? & ? & ? & ?).
    destruct (DrawRect_drawn h pp l q s px py w hgt col) as (h' & E & b' & Hd & _); try done. exists h', l.
    by split_and!; [|apply Hd|].
  - destruct Ha as (Hq & s & Hs & Hal & Hr & -> & ->).
    destruct (scroll_drawn h pp l q s d) as (h' & E & b' & Hd & _); try done. exists h', l.
    by split_and!; [|apply Hd|].
Qed.

(** A sequence of operations each of which is allowed when it is its turn. *)
Fixpoint plays (font : Z -> Z -> Z) (pp : nat) (os : list op) (h : heap) (l : list nat) : Prop :=
  match os with
  | [] => True
  | o :: os' => allowed h pp l o /\
      forall h' l', exec font pp o h = Done h' -> children_after h l l' o -> plays font pp os' h' l'
  end.

(** From [l] to [l'] the children change only by the insertions among [os]. *)
Fixpoint children_run (font : Z -> Z -> Z) (pp : nat) (os : list op) (h : heap) (l : list nat) (h' : heap) (l' : list nat) : Prop :=
  match os with
  | [] => h' = h /\ l' = l
  | o :: os' => exists h1 l1, exec font pp o h = Done h1 /\ children_after h l l1 o /\ children_run font pp os' h1 l1 h' l'
  end.

(** C5: the screen stays composed. A sheet at the origin whose lines are not padded
    gets its map, and then sees any sequence of insertions of sheets, movements of
    children, transparency switched on for children, and points, characters, filled
    areas and scrolling drawn inside children that are opaque. None of these
    operations faults; the children are in the order in which they were inserted,
    new ones below the topmost ones; and after them at each pixel the map names the
    topmost child that is opaque there, and where there is one the sheet shows that
    child's pixel. So the reduced areas that [SetPosition] updates, and the few
    sheets it flushes, are enough. (A padded or displaced parent, transparency
    switched off and drawing in a transparent child are left out: there the code
    does leave the map behind.) *)
Theorem compositor_invariant font pp p m os h :
  h !! pp = Some p -> sheet_ok p -> pixels_per_scan_line_ p = xsize (rect_ p) -> bottom_child_ p = None ->
  Z.of_nat (length m) = ysize (rect_ p) * xsize (rect_ p) -> x (rect_ p) = 0 -> y (rect_ p) = 0 ->
  exists h0, SetMap pp (Some m) h = Done h0 /\ composed h0 pp [] /\
    (plays font pp os h0 [] ->
     exists h' l', foldM (exec font pp) os h0 = Done h' /\ children_run font pp os h0 [] h' l' /\ composed h' pp l').
Proof.
  intros Hp Hok Hpp Hb Hml Hx Hy. destruct (SetMap_composed h pp p m) as (h0 & E & Hc); try done.
  exists h0. split_and!; [done|done|]. clear E. generalize (@nil nat) Hc. clear Hc. revert h0.
  induction os as [|o os IH]; intros h0 l Hc Hpl; [by exists h0, l|]. destruct Hpl as [Ha Hpl].
  destruct (exec_composed font h0 pp l o Hc Ha) as (h1 & l1 & E & Hc1 & Hch). cbn [foldM]. rewrite E. cbn [rbind].
  destruct (IH h1 l1 Hc1) as (h' & l' & Ef & Hr & Hc'); [by apply Hpl|]. exists h', l'. split; [exact Ef|]. split; [|exact Hc'].
  cbn [children_run]. rewrite E. by exists h1, l1.
Qed.

Definition demo_sheet (w hgt px py : Z) (b : list Z) : Sheet :=
  MkSheet None None None (Some b) None (R px py w hgt) w false false false.
Definition demo_heap : heap := {[ 0%nat := demo_sheet 3 2 0 0 [0; 0; 0; 0; 0; 0]; 1%nat := demo_sheet 2 2 1 1 [7; 8; 9; 10] ]}.
Lemma compositor_invariant_witness :
  exists h0 h' l', SetMap 0 (Some (replicate 6 None)) demo_heap = Done h0 /\
    foldM (exec (fun _ _ => 0) 0) [Insert 1] h0 = Done h' /\ composed h' 0 l'.
Proof.
  assert (sheet_ok (demo_sheet 2 2 1 1 [7; 8; 9; 10])) as H1.
  { split; [apply (bool_decide_unpack _); vm_compute; exact I|reflexivity || (simpl; lia)|exists [7; 8; 9; 10]; split; reflexivity|reflexivity]. }
  destruct (compositor_invariant (fun _ _ => 0) 0 (demo_sheet 3 2 0 0 [0; 0; 0; 0; 0; 0]) (replicate 6 None) [Insert 1] demo_heap)
    as (h0 & E & Hc & H); try reflexivity.
  { split; [apply (bool_decide_unpack _); vm_compute; exact I|reflexivity || (simpl; lia)|exists [0; 0; 0; 0; 0; 0]; split; reflexivity|reflexivity]. }
  destruct H as (h' & l' & Ef & _ & Hc').
  - cbn [plays]. split; [|intros; exact I]. split; [by apply (bool_decide_unpack _); vm_compute|]. exists (demo_sheet 2 2 1 1 [7; 8; 9; 10]). split; [|exact H1].
    vm_compute in E. injection E as <-. reflexivity.
  - exists h0, h', l'. split; [exact E|split; [exact Ef|exact Hc']].
Defined.
