(* ===== verification/Console.v ===== *)
(** * The console: [src/console.h], [src/console.cc], [src/serial.cc]

    Characters go to the serial port, and to a sheet of the compositor or, before
    there is one, to the firmware.  The theorem: the sheet shows the text as a
    terminal of character cells would, scrolling included. *)

From S2P Require Import Prelude KernelBase KernelText KernelInput Scheduler Sheet.
Import KernelBase.Rect.
#[global] Open Scope Z_scope.

(** ** Output *)

(** [serial_port_]: whether one is attached. *)
Record Console := Con {
  cursor_x_ : Z;
  cursor_y_ : Z;
  sheet_ : option nat;
  serial_port_ : bool;
  con_lock : lock;
}.
(** The sheets, and what was sent to the serial port and to the firmware, the
    latest last. *)
Record devices := Devices { sheets : gmap nat Sheet; serial_out : list Z; efi_out : list Z }.

Definition new_Console (l : lock) : Console := Con 0 0 None false l.
Definition SetCursorPosition (x y : Z) (c : Console) : Console := Con x y (sheet_ c) (serial_port_ c) (con_lock c).
Definition ResetCursorPosition (c : Console) : Console := SetCursorPosition 0 0 c.
Definition GetCursorPosition (c : Console) : Z * Z := (cursor_x_ c, cursor_y_ c).
Definition SetSheet (s : option nat) (c : Console) : Console := Con (cursor_x_ c) (cursor_y_ c) s (serial_port_ c) (con_lock c).
Definition SetSerial (b : bool) (c : Console) : Console := Con (cursor_x_ c) (cursor_y_ c) (sheet_ c) b (con_lock c).

Definition on_sheets (h : gmap nat Sheet) (d : devices) : devices := Devices h (serial_out d) (efi_out d).
(** The port is ready at some time. *)
Definition SendChar (c : Z) (d : devices) : devices := Devices (sheets d) (serial_out d ++ [u8 c]) (efi_out d).
Definition PutWChar (c : Z) (d : devices) : devices := Devices (sheets d) (serial_out d) (efi_out d ++ [c]).

Section Output.
Context (font : Z -> Z -> Z).

(** Where the cursor is after a character was put or removed: over the right
    edge to the next line, over the left edge to the line above. *)
Definition wrap (xsize x y : Z) : Z * Z :=
  if xsize <=? x then (0, i32 (y + 16))
  else if x <? 0 then (Z.land (i32 (xsize - 8)) (Z.lnot 7), i32 (y - 16))
  else (x, y).
(** On the sheet: the new cursor and the sheets. *)
Definition put_on_sheet (p : nat) (c x y : Z) (h : gmap nat Sheet) : res (Z * Z * gmap nat Sheet) :=
  do '(x, y, h) <- (if c =? 10 then Done (0, i32 (y + 16), h)
                    else if c =? 8 then Done (i32 (x - 8), y, h)
                    else do h <- DrawCharacter font p c x y true h; Done (i32 (x + 8), y, h));
  do s <- get h p;
  let '(x, y) := wrap (GetXSize s) x y in
  do h <- (if c =? 8 then DrawRect p x y 8 16 0 true h else Done h);
  if GetYSize s <? i32 (y + 16) then
    do h <- BlockTransfer p 0 0 0 16 (GetXSize s) (i32 (GetYSize s - 16)) h;
    do h <- DrawRect p 0 (i32 (y - 16)) (GetXSize s) 16 0 true h;
    Done (x, i32 (y - 16), h)
  else Done (x, y, h).
Definition PutCharWithoutLocking (c : Z) (s : Console * devices) : res (Console * devices) :=
  let '(con, d) := s in
  let d := if serial_port_ con then SendChar c (if c =? 10 then SendChar 13 d else d) else d in
  match sheet_ con with
  | None => Done (con, if c =? 10 then PutWChar 10 (PutWChar 13 d) else PutWChar c d)
  | Some p =>
    do '(x, y, h) <- put_on_sheet p c (cursor_x_ con) (cursor_y_ con) (sheets d);
    Done (SetCursorPosition x y con, on_sheets h d)
  end.

(** [mt]: whether processes run; [pid]: the current one. *)
Context (mt : bool) (pid : Z).
Definition take_lock (s : Console * devices) : res (Console * devices) :=
  do l <- Lock mt pid (con_lock s.1);
  Done (Con (cursor_x_ s.1) (cursor_y_ s.1) (sheet_ s.1) (serial_port_ s.1) l, s.2).
Definition drop_lock (s : Console * devices) : Console * devices :=
  (Con (cursor_x_ s.1) (cursor_y_ s.1) (sheet_ s.1) (serial_port_ s.1) (Unlock mt (con_lock s.1)), s.2).
Definition PutChar (c : Z) (s : Console * devices) : res (Console * devices) :=
  do s <- take_lock s; do s <- PutCharWithoutLocking c s; Done (drop_lock s).
(** The characters of a string, without its terminator. *)
Definition PutString (str : list Z) (s : Console * devices) : res (Console * devices) :=
  do s <- take_lock s; do s <- foldM PutCharWithoutLocking str s; Done (drop_lock s).
End Output.

(** ** A terminal of character cells *)

(** A cell is blank or holds a character. *)
Notation cell := (option Z).
Section Terminal.
Context (cols rows : nat).

(** All lines so far, the last one with the cursor at its end; the first [top]
    have scrolled away. *)
Record text := Text { top : nat; above : list (list cell); cur : list cell }.
Definition next_line (t : text) : text :=
  Text (top t `max` (length (above t) + 2 - rows)) (above t ++ [cur t]) [].
(** A backspace in column 0 goes to the last column of the line above, which
    must be on the screen. *)
Definition type_char (c : Z) (t : text) : option text :=
  if c =? 10 then Some (next_line t)
  else if c =? 8 then
    match cur t with
    | _ :: _ => Some (Text (top t) (above t) (take (length (cur t) - 1) (cur t)))
    | [] =>
      if (length (above t) <=? top t)%nat then None
      else
        let n := (length (above t) - 1)%nat in
        Some (Text (top t) (take n (above t)) (take (cols - 1) (nth n (above t) [] ++ replicate cols None)))
    end
  else
    let t := Text (top t) (above t) (cur t ++ [Some c]) in
    Some (if (length (cur t) =? cols)%nat then next_line t else t).
Definition type_string (str : list Z) (t : text) : option text :=
  foldl (fun o c => o ≫= type_char c) (Some t) str.
(** The cell at a row and a column of the screen. *)
Definition cell_at (t : text) (r k : nat) : cell := ((above t ++ [cur t]) !! (top t + r)%nat) ≫= fun l => mjoin (l !! k).
Record text_ok (t : text) : Prop := TextOk {
  tx_cur : (length (cur t) < cols)%nat;
  tx_above : Forall (fun l => (length l <= cols)%nat) (above t);
  tx_top : (top t <= length (above t))%nat;
  tx_row : (length (above t) < top t + rows)%nat;
}.
End Terminal.

(** ** The cells on the sheet *)

Section Grid.
Context (font : Z -> Z -> Z) (cols rows : Z) (Hcols : 0 < cols) (Hrows : 0 < rows).
Context (pp : nat) (l : list nat) (p : nat).

Definition cell_pixel (c : cell) (dx dy : Z) : Z :=
  match c with Some c => if glyph_bit font c dx dy then 0xffffff else 0 | None => 0 end.
(** The sheet [p] can be drawn into and shows the cells [g], by row and column. *)
Definition shows (h : gmap nat Sheet) (g : Z -> Z -> cell) : Prop :=
  exists s, drawable h pp l p s /\ GetXSize s = 8 * cols /\ GetYSize s / 16 = rows /\
    forall qx qy, 0 <= qx < 8 * cols -> 0 <= qy < 16 * rows ->
      array (buf_ s) !! at_ (pixels_per_scan_line_ s) qx qy = Some (cell_pixel (g (qy / 16) (qx / 8)) (qx mod 8) (qy mod 16)).
Lemma shows_ext h g g' :
  (forall r k, 0 <= r < rows -> 0 <= k < cols -> g r k = g' r k) -> shows h g -> shows h g'.
Proof.
  intros Hg (s & Hd & Hx & Hy & Hp). exists s. split_and!; [done..|]. intros qx qy Hqx Hqy. rewrite Hp by done.
  by rewrite Hg by (split; zdiv).
Qed.

Definition upd (g : Z -> Z -> cell) (r k : Z) (c : cell) (r' k' : Z) : cell :=
  if (r' =? r) && (k' =? k) then c else g r' k'.
Lemma in_cell r k qx qy :
  0 <= r -> 0 <= k -> 8 * k < 2 ^ 27 -> 16 * r < 2 ^ 27 ->
  IsPointInRect (R (8 * k) (16 * r) 8 16) qx qy = (qy / 16 =? r) && (qx / 8 =? k).
Proof.
  intros. apply eq_true_iff_eq. rewrite IsPointInRect_spec by (unfold moderate; simpl; lia). cbn [x y xsize ysize].
  rewrite andb_true_iff, !Z.eqb_eq. split; intros; split; zdiv.
Qed.
(** One cell is redrawn. *)
Lemma shows_drawn h h' s g r k c f :
  drawable h pp l p s -> GetXSize s = 8 * cols -> GetYSize s / 16 = rows ->
  (forall qx qy, 0 <= qx < 8 * cols -> 0 <= qy < 16 * rows ->
      array (buf_ s) !! at_ (pixels_per_scan_line_ s) qx qy = Some (cell_pixel (g (qy / 16) (qx / 8)) (qx mod 8) (qy mod 16))) ->
  0 <= r < rows -> 0 <= k < cols ->
  (forall qx qy, qy / 16 = r -> qx / 8 = k -> f qx qy = Some (cell_pixel c (qx - 8 * k) (qy - 16 * r))) ->
  drawn h' pp l p s (R (8 * k) (16 * r) 8 16) f -> shows h' (upd g r k c).
Proof.
  intros Hd Hx Hy Hp Hr Hk Hf (b' & Hd' & HL & Hb). exists (set_buf b' s). split_and!; [done..|].
  pose proof (drawable_ok _ _ _ _ _ Hd) as Hok. destruct (sk_small _ Hok) as (_ & _ & Hxs & Hys). pose proof (sk_ppl _ Hok).
  unfold GetXSize, GetYSize in *. intros qx qy Hqx Hqy. change (array (buf_ (set_buf b' s))) with b'.
  change (pixels_per_scan_line_ (set_buf b' s)) with (pixels_per_scan_line_ s). rewrite Hb by lia.
  assert (16 * rows <= ysize (rect_ s)) by zdiv. rewrite in_cell by lia. unfold upd.
  destruct (Z.eqb_spec (qy / 16) r), (Z.eqb_spec (qx / 8) k); cbn [andb]; try by apply Hp.
  rewrite Hf by done. repeat f_equal; zdiv.
Qed.
Lemma put_cell h g r k c :
  shows h g -> 0 <= r < rows -> 0 <= k < cols ->
  exists h', DrawCharacter font p c (8 * k) (16 * r) true h = Done h' /\ shows h' (upd g r k (Some c)).
Proof.
  intros (s & Hd & Hx & Hy & Hp) Hr Hk.
  destruct (DrawCharacter_drawn font h pp l p s c (8 * k) (16 * r) Hd) as (h' & E & D); [lia|lia|lia|zdiv|].
  exists h'. split; [done|]. by eapply shows_drawn.
Qed.
Lemma erase_cell h g r k :
  shows h g -> 0 <= r < rows -> 0 <= k < cols ->
  exists h', DrawRect p (8 * k) (16 * r) 8 16 0 true h = Done h' /\ shows h' (upd g r k None).
Proof.
  intros (s & Hd & Hx & Hy & Hp) Hr Hk.
  destruct (DrawRect_drawn h pp l p s (8 * k) (16 * r) 8 16 0 Hd) as (h' & E & D); [lia|lia|lia|zdiv|lia|lia|].
  exists h'. split; [done|]. by eapply shows_drawn.
Qed.
(** The lines move up and the last one is cleared. *)
Lemma scroll_cells h g :
  shows h g ->
  exists s h1 h', get h p = Done s /\ BlockTransfer p 0 0 0 16 (GetXSize s) (GetYSize s - 16) h = Done h1 /\
    DrawRect p 0 (16 * (rows - 1)) (GetXSize s) 16 0 true h1 = Done h' /\
    shows h' (fun r k => if r =? rows - 1 then None else g (r + 1) k).
Proof.
  intros (s & Hd & Hx & Hy & Hp). exists s. pose proof Hd as (_ & _ & Hs & _).
  pose proof (drawable_ok _ _ _ _ _ Hd) as Hok. destruct (sk_small _ Hok) as (_ & _ & Hxs & Hys). pose proof (sk_ppl _ Hok).
  assert (16 * rows <= GetYSize s) as Hr16 by zdiv.
  destruct (scroll_drawn h pp l p s 16 Hd) as (h1 & E1 & b1 & Hd1 & HL1 & Hb1); [zdiv|].
  destruct (DrawRect_drawn h1 pp l p (set_buf b1 s) 0 (16 * (rows - 1)) (GetXSize s) 16 0 Hd1) as (h' & E2 & b2 & Hd2 & HL2 & Hb2);
    [lia|change (GetXSize (set_buf b1 s)) with (GetXSize s); lia|lia|change (GetYSize (set_buf b1 s)) with (GetYSize s); zdiv|lia|lia|].
  exists h1, h'. unfold get. rewrite Hs. split_and!; [done..|]. exists (set_buf b2 (set_buf b1 s)). split_and!; [done..|].
  unfold GetXSize, GetYSize in *. intros qx qy Hqx Hqy.
  change (array (buf_ (set_buf b2 (set_buf b1 s)))) with b2. change (array (buf_ (set_buf b1 s))) with b1 in *.
  change (pixels_per_scan_line_ (set_buf b2 (set_buf b1 s))) with (pixels_per_scan_line_ s).
  change (pixels_per_scan_line_ (set_buf b1 s)) with (pixels_per_scan_line_ s) in Hb2. rewrite Hb2 by lia.
  destruct (IsPointInRect (R 0 (16 * (rows - 1)) (xsize (rect_ s)) 16) qx qy) eqn:E.
  - apply IsPointInRect_spec in E; [|unfold moderate; simpl; lia]. cbn [x y xsize ysize] in E.
    by rewrite (proj2 (Z.eqb_eq (qy / 16) (rows - 1))) by zdiv.
  - assert (~ 16 * (rows - 1) <= qy) as Hn.
    { intros Hle. assert (false = true) as ?; [|done]. rewrite <- E. apply IsPointInRect_spec; [unfold moderate; simpl; lia|].
      cbn [x y xsize ysize]. lia. }
    rewrite (proj2 (Z.eqb_neq (qy / 16) (rows - 1))) by zdiv. rewrite Hb1 by lia.
    assert (IsPointInRect (R 0 0 (xsize (rect_ s)) (ysize (rect_ s) - 16)) qx qy = true) as ->.
    { apply IsPointInRect_spec; [unfold moderate; simpl; lia|]. cbn [x y xsize ysize]. zdiv. }
    rewrite Hp by lia. replace ((qy + 16) / 16) with (qy / 16 + 1) by zdiv. by replace ((qy + 16) mod 16) with (qy mod 16) by zdiv.
Qed.
End Grid.

(** ** Text on the screen *)

Definition text_grid (t : text) (r k : Z) : cell := cell_at t (Z.to_nat r) (Z.to_nat k).
Definition row (t : text) : Z := Z.of_nat (length (above t)) - Z.of_nat (top t).
Definition col (t : text) : Z := Z.of_nat (length (cur t)).

Lemma cell_blank_line (ls : list (list cell)) i k :
  ((ls ++ [[]]) !! i ≫= fun l => mjoin (l !! k)) = (ls !! i ≫= fun l => mjoin (l !! k)).
Proof.
  destruct (decide (i < length ls)%nat); [by rewrite lookup_app_l|].
  rewrite lookup_app_r, (lookup_ge_None_2 ls) by lia. destruct (i - length ls)%nat; [by destruct k|done].
Qed.
Lemma cell_cur t r k : r = (length (above t) - top t)%nat -> (top t <= length (above t))%nat -> cell_at t r k = mjoin (cur t !! k).
Proof.
  intros -> H. unfold cell_at. rewrite lookup_app_r by lia.
  by replace (top t + (length (above t) - top t) - length (above t))%nat with O by lia.
Qed.
Lemma cell_above t r k : (top t + r < length (above t))%nat -> cell_at t r k = (above t !! (top t + r)%nat ≫= fun l => mjoin (l !! k)).
Proof. intros H. unfold cell_at. by rewrite lookup_app_l. Qed.
Lemma cell_below t r k : (length (above t) < top t + r)%nat -> cell_at t r k = None.
Proof. intros H. unfold cell_at. by rewrite lookup_ge_None_2 by (rewrite length_app; simpl; lia). Qed.
Lemma land_lnot_7 a : Z.land a (Z.lnot 7) = 8 * (a / 8).
Proof.
  rewrite <- Z.ldiff_land. change 7 with (Z.ones 3). rewrite Z.ldiff_ones_r, Z.shiftr_div_pow2, Z.shiftl_mul_pow2 by lia.
  change (2 ^ 3) with 8. lia.
Qed.

Section Text.
Context (font : Z -> Z -> Z) (cols rows : nat) (pp : nat) (l : list nat) (p : nat).
Local Abbreviation showing h t := (shows font (Z.of_nat cols) (Z.of_nat rows) pp l p h (text_grid t)).

(** The cursor is behind the end of the line [t], which may be full. *)
Lemma line_feed h t :
  showing h t -> (0 < cols)%nat -> (top t <= length (above t))%nat -> (length (above t) < top t + rows)%nat ->
  exists s h', get h p = Done s /\
    (if GetYSize s <? i32 (16 * (row t + 1) + 16) then
       do h <- BlockTransfer p 0 0 0 16 (GetXSize s) (i32 (GetYSize s - 16)) h;
       do h <- DrawRect p 0 (i32 (16 * (row t + 1) - 16)) (GetXSize s) 16 0 true h;
       Done (0, i32 (16 * (row t + 1) - 16), h)
     else Done (0, 16 * (row t + 1), h)) = Done (0, 16 * row (next_line rows t), h') /\
    showing h' (next_line rows t).
Proof.
  intros Hs Hcols Ht Hr. unfold row, next_line. cbn [above top cur]. rewrite length_app. cbn [length].
  destruct (scroll_cells font (Z.of_nat cols) (Z.of_nat rows) ltac:(lia) ltac:(lia) pp l p h (text_grid t) Hs) as (s & h1 & h' & Eg & E1 & E2 & Hs').
  pose proof Hs as (s0 & (_ & _ & Hs0 & _) & Hx & Hy & _). unfold get in Eg. rewrite Hs0 in Eg. injection Eg as ->.
  assert (0 <= GetYSize s < 2 ^ 27) as Hys.
  { destruct Hs as (s1 & Hd & _). pose proof Hd as (_ & _ & Hs1 & _). assert (s1 = s) as -> by congruence.
    destruct (sk_small _ (drawable_ok _ _ _ _ _ Hd)) as (_ & _ & _ & H). exact H. }
  exists s. assert (16 * Z.of_nat rows <= GetYSize s < 16 * Z.of_nat rows + 16) as Hb by zdiv.
  destruct (decide (length (above t) + 1 = top t + rows)%nat) as [He|He].
  - exists h'. split; [by unfold get; rewrite Hs0|]. rewrite (i32_small (16 * _ + 16)) by lia. rewrite (proj2 (Z.ltb_lt _ _)) by lia.
    rewrite i32_small, E1 by lia. cbn [rbind]. rewrite i32_small by lia.
    replace (16 * (Z.of_nat (length (above t)) - Z.of_nat (top t) + 1) - 16) with (16 * (Z.of_nat rows - 1)) by lia.
    rewrite E2. cbn [rbind]. split; [f_equal; f_equal; f_equal; lia|].
    eapply shows_ext, Hs'. intros r k Hr' Hk. unfold text_grid, cell_at. cbn [above top cur]. rewrite cell_blank_line.
    destruct (Z.eqb_spec r (Z.of_nat rows - 1)) as [->|].
    + rewrite lookup_ge_None_2; [done|]. rewrite length_app. simpl. lia.
    + replace (top t `max` (length (above t) + 2 - rows) + Z.to_nat r)%nat with (top t + Z.to_nat (r + 1))%nat by lia. done.
  - exists h. split; [by unfold get; rewrite Hs0|]. rewrite (i32_small (16 * _ + 16)) by lia. rewrite (proj2 (Z.ltb_ge _ _)) by lia.
    split; [f_equal; f_equal; f_equal; lia|].
    eapply shows_ext, Hs. intros r k Hr' Hk. unfold text_grid, cell_at. cbn [above top cur]. rewrite cell_blank_line.
    by replace (top t `max` (length (above t) + 2 - rows))%nat with (top t) by lia.
Qed.

Lemma showing_size h t : (0 < rows)%nat -> showing h t ->
  exists s, get h p = Done s /\ GetXSize s = 8 * Z.of_nat cols /\ 16 * Z.of_nat rows <= GetYSize s < 2 ^ 27 /\ GetXSize s < 2 ^ 27 /\
    16 * pixels_per_scan_line_ s < 2 ^ 31.
Proof.
  intros Hr (s & Hd & Hx & Hy & _). exists s. destruct (sk_small _ (drawable_ok _ _ _ _ _ Hd)) as (_ & _ & H1 & H2).
  pose proof (sk_size _ (drawable_ok _ _ _ _ _ Hd)). pose proof (sk_ppl _ (drawable_ok _ _ _ _ _ Hd)). unfold GetXSize, GetYSize in *.
  assert (16 * Z.of_nat rows <= ysize (rect_ s)) by zdiv.
  split_and!; try (lia || nia). destruct Hd as (_ & _ & Hs & _). unfold get. by rewrite Hs.
Qed.

(** The new text is shown and the cursor is at its end. *)
Definition put_result (c : Z) (h : gmap nat Sheet) (t t' : text) : Prop :=
  exists h', put_on_sheet font p c (8 * col t) (16 * row t) h = Done (8 * col t', 16 * row t', h') /\
    showing h' t' /\ text_ok cols rows t'.
Lemma next_line_ok t : (length (cur t) <= cols)%nat -> (0 < cols)%nat -> Forall (fun l => (length l <= cols)%nat) (above t) ->
  (top t <= length (above t))%nat -> (length (above t) < top t + rows)%nat -> text_ok cols rows (next_line rows t).
Proof.
  intros. unfold next_line. split; cbn [top above cur]; rewrite ?length_app; simpl; try lia. apply Forall_app_2; [done|]. by constructor.
Qed.
Lemma row_pos t : text_ok cols rows t -> 0 <= row t < Z.of_nat rows.
Proof. intros [? ? ? ?]. unfold row. lia. Qed.
Lemma put_newline h t : text_ok cols rows t -> showing h t -> put_result 10 h t (next_line rows t).
Proof.
  intros Hok Hs. pose proof (row_pos t Hok) as Hr. destruct Hok as [H1 H2 H3 H4]. unfold put_result, put_on_sheet. rewrite Z.eqb_refl. cbn [rbind].
  destruct (showing_size h t ltac:(lia) Hs) as (s & Eg & Hx & Hy & Hw & _).
  destruct (line_feed h t Hs) as (s' & h' & Eg' & E & Hs'); [lia..|]. assert (s' = s) as -> by congruence. rewrite Eg'.
  cbn [rbind]. unfold wrap. rewrite (proj2 (Z.leb_gt _ _)) by lia. rewrite (proj2 (Z.ltb_ge _ _)) by lia.
  change (10 =? 8) with false. cbn [rbind]. rewrite (i32_small (16 * row t + 16)) by lia.
  replace (16 * row t + 16) with (16 * (row t + 1)) by lia. exists h'. split_and!; [exact E|done|]. apply next_line_ok; (done || lia).
Qed.
Lemma put_char h t c : c <> 10 -> c <> 8 -> text_ok cols rows t -> showing h t ->
  put_result c h t (let t := Text (top t) (above t) (cur t ++ [Some c]) in if (length (cur t) =? cols)%nat then next_line rows t else t).
Proof.
  intros Hc1 Hc2 Hok Hs. pose proof (row_pos t Hok) as Hr. destruct Hok as [H1 H2 H3 H4].
  unfold put_result, put_on_sheet. rewrite (proj2 (Z.eqb_neq c 10)), (proj2 (Z.eqb_neq c 8)) by done.
  set (t1 := Text (top t) (above t) (cur t ++ [Some c])). cbn zeta. change (cur t1) with (cur t ++ [Some c]).
  destruct (put_cell font (Z.of_nat cols) (Z.of_nat rows) pp l p h (text_grid t) (row t) (col t) c Hs) as (h1 & -> & Hs1); [done|unfold col; lia|].
  assert (showing h1 t1) as Ht1.
  { eapply shows_ext, Hs1. intros r k Hr' Hk. unfold upd, text_grid.
    destruct (Z.eqb_spec r (row t)) as [->|Hnr]; cbn [andb].
    - rewrite !cell_cur by (unfold t1, row; cbn [top above]; lia). unfold t1. cbn [cur].
      destruct (Z.eqb_spec k (col t)) as [->|Hnk].
      + unfold col. by rewrite Nat2Z.id, list_lookup_middle.
      + unfold col in Hnk. destruct (decide (Z.to_nat k < length (cur t))%nat); [by rewrite lookup_app_l by lia|].
        rewrite (lookup_ge_None_2 (cur t)), (lookup_ge_None_2 (cur t ++ _)) by (rewrite ?length_app; simpl; lia). done.
    - destruct (decide (top t + Z.to_nat r < length (above t))%nat).
      + by rewrite !cell_above by (unfold t1; cbn [top above]; lia).
      + unfold row in Hnr. by rewrite !cell_below by (unfold t1; cbn [top above]; lia). }
  cbn [rbind]. destruct (showing_size h1 t1 ltac:(lia) Ht1) as (s & Eg & Hx & Hy & Hw & _).
  rewrite Eg. cbn [rbind]. unfold wrap. unfold col at 1 2 3. rewrite i32_small by lia. rewrite length_app. cbn [length].
  destruct (Nat.eqb_spec (length (cur t) + 1) cols) as [He|He].
  - destruct (line_feed h1 t1 Ht1) as (s' & h' & Eg' & E & Hs'); [cbn [top above t1]; lia..|]. assert (s' = s) as -> by congruence.
    rewrite (proj2 (Z.leb_le _ _)) by lia. cbn [rbind]. rewrite (i32_small (16 * row t + 16)) by lia.
    replace (16 * row t + 16) with (16 * (row t + 1)) by lia. exists h'. change (row t1) with (row t) in E. split_and!; [exact E|done|].
    apply next_line_ok; unfold t1; cbn [top above cur]; rewrite ?length_app; simpl; (done || lia).
  - rewrite (proj2 (Z.leb_gt _ _)) by lia. rewrite (proj2 (Z.ltb_ge (_ + 8) 0)) by lia. cbn [rbind].
    rewrite (i32_small (16 * row t + 16)) by lia. rewrite (proj2 (Z.ltb_ge (GetYSize s) _)) by lia.
    exists h1. split_and!; [|done|].
    + f_equal. f_equal. f_equal. unfold col, t1. cbn [cur]. rewrite length_app. simpl. lia.
    + split; unfold t1; cbn [top above cur]; rewrite ?length_app; simpl; (done || lia).
Qed.

(** The cell before the cursor is erased. *)
Lemma put_erase h t t' s : showing h t -> text_ok cols rows t' ->
  get h p = Done s -> 0 <= row t' < Z.of_nat rows -> wrap (GetXSize s) (i32 (8 * col t - 8)) (16 * row t) = (8 * col t', 16 * row t') ->
  (forall r k, 0 <= r < Z.of_nat rows -> 0 <= k < Z.of_nat cols -> upd (text_grid t) (row t') (col t') None r k = text_grid t' r k) ->
  put_result 8 h t t'.
Proof.
  intros Hs Hok Eg Hr Hw Hg. destruct Hok as [H1 H2 H3 H4]. destruct (showing_size h t ltac:(lia) Hs) as (s' & Eg' & Hx & Hy & _).
  assert (s' = s) as -> by congruence. unfold put_result, put_on_sheet. change (8 =? 10) with false. change (8 =? 8) with true. cbn [rbind]. rewrite Eg. cbn [rbind].
  rewrite Hw.
  destruct (erase_cell font (Z.of_nat cols) (Z.of_nat rows) pp l p h (text_grid t) (row t') (col t') Hs) as (h1 & -> & Hs1); [done|unfold col; lia|].
  cbn [rbind]. rewrite (i32_small (16 * row t' + 16)) by lia. rewrite (proj2 (Z.ltb_ge (GetYSize s) _)) by lia.
  exists h1. split_and!; [done|by eapply shows_ext|by split].
Qed.
Lemma put_backspace h t c cs : text_ok cols rows t -> showing h t -> cur t = c :: cs ->
  put_result 8 h t (Text (top t) (above t) (take (length (cur t) - 1) (cur t))).
Proof.
  intros Hok Hs Hc. pose proof (row_pos t Hok) as Hr. destruct Hok as [H1 H2 H3 H4].
  destruct (showing_size h t ltac:(lia) Hs) as (s & Eg & Hx & Hy & Hw & _).
  set (t1 := Text (top t) (above t) (take (length (cur t) - 1) (cur t))).
  assert (col t1 = col t - 1 /\ 0 < col t) as [E1 Hp].
  { unfold col, t1. cbn [cur]. rewrite length_take. rewrite Hc in *. simpl in *. lia. }
  eapply put_erase; [done|split|done|exact Hr|..].
  - unfold col in E1. lia.
  - done.
  - done.
  - done.
  - unfold wrap. unfold col in *. rewrite i32_small by lia. rewrite (proj2 (Z.leb_gt _ _)), (proj2 (Z.ltb_ge (_ - 8) 0)) by lia.
    rewrite E1. change (row t1) with (row t). f_equal. lia.
  - intros r k Hr' Hk. unfold upd, text_grid. change (row t1) with (row t).
    destruct (Z.eqb_spec r (row t)) as [->|Hnr]; cbn [andb].
    + rewrite !cell_cur by (unfold t1, row; cbn [top above]; lia). change (cur t1) with (take (length (cur t) - 1) (cur t)).
      destruct (Z.eqb_spec k (col t1)) as [->|Hnk].
      * rewrite (lookup_ge_None_2 (take _ _)); [done|]. rewrite length_take. unfold col in *. lia.
      * unfold col in *. destruct (decide (Z.to_nat k < length (cur t) - 1)%nat); [by rewrite lookup_take_lt by lia|].
        rewrite (lookup_ge_None_2 (take _ _)) by (rewrite length_take; lia). by rewrite lookup_ge_None_2 by lia.
    + destruct (decide (top t + Z.to_nat r < length (above t))%nat).
      * by rewrite !cell_above by (unfold t1; cbn [top above]; lia).
      * unfold row in Hnr. by rewrite !cell_below by (unfold t1; cbn [top above]; lia).
Qed.
Lemma put_backspace_up h t ls ln : text_ok cols rows t -> showing h t -> cur t = [] -> above t = ls ++ [ln] -> (top t <= length ls)%nat ->
  put_result 8 h t (Text (top t) ls (take (cols - 1) (ln ++ replicate cols None))).
Proof.
  intros Hok Hs Hc Ha Ht. pose proof (row_pos t Hok) as Hr. destruct Hok as [H1 H2 H3 H4].
  destruct (showing_size h t ltac:(lia) Hs) as (s & Eg & Hx & Hy & Hw & _). rewrite Ha in *.
  rewrite length_app in *. cbn [length] in *.
  apply Forall_app in H2 as [H2 _]. set (t1 := Text (top t) ls (take (cols - 1) (ln ++ replicate cols None))).
  assert (length (cur t1) = cols - 1)%nat as Hl1.
  { unfold t1. cbn [cur]. rewrite length_take, length_app, length_replicate. lia. }
  assert (row t1 = row t - 1) as Er by (unfold row, t1; rewrite Ha, length_app; cbn [top above length]; lia).
  assert (0 <= row t1) by (unfold row, t1; cbn [top above]; lia).
  eapply put_erase; [done|split|done|lia|..].
  - lia.
  - done.
  - done.
  - unfold t1. cbn [top above]. lia.
  - unfold wrap, col. rewrite Hc, Hl1. cbn [length]. rewrite i32_small by lia. rewrite (proj2 (Z.leb_gt _ _)), (proj2 (Z.ltb_lt (_ - 8) 0)) by lia.
    rewrite land_lnot_7, !i32_small by lia. rewrite Er. f_equal; zdiv.
  - intros r k Hr' Hk. unfold upd, text_grid. unfold col. rewrite Hl1.
    destruct (Z.eqb_spec r (row t1)) as [->|Hnr]; cbn [andb].
    + rewrite (cell_cur t1) by (unfold t1, row; cbn [top above]; lia).
      destruct (Z.eqb_spec k (Z.of_nat (cols - 1))) as [->|Hnk].
      * by rewrite lookup_ge_None_2 by lia.
      * rewrite cell_above by (rewrite Ha, length_app; unfold row, t1; cbn [top above length]; lia).
        rewrite Ha. replace (top t + Z.to_nat (row t1))%nat with (length ls) by (unfold row, t1; cbn [top above]; lia).
        rewrite list_lookup_middle by done. cbn [mbind option_bind]. unfold t1. cbn [cur]. rewrite lookup_take_lt by lia.
        destruct (decide (Z.to_nat k < length ln)%nat); [by rewrite lookup_app_l|].
        rewrite lookup_app_r, lookup_replicate_2, (lookup_ge_None_2 ln) by lia. done.
    + destruct (decide (top t + Z.to_nat r < length ls)%nat).
      * rewrite !cell_above by (rewrite ?Ha, ?length_app; unfold t1; cbn [top above length]; lia). rewrite Ha. unfold t1. cbn [top above].
        by rewrite lookup_app_l.
      * unfold row, t1 in Hnr. cbn [top above] in Hnr. rewrite (cell_below t1) by (unfold t1; cbn [top above]; lia).
        destruct (decide (top t + Z.to_nat r = S (length ls))%nat).
        -- rewrite cell_cur by (rewrite ?Ha, ?length_app; cbn [length]; lia). by rewrite Hc.
        -- apply cell_below. rewrite Ha, length_app. cbn [length]. lia.
Qed.
(** At the first cell of the screen a backspace would draw above the sheet. *)
Lemma put_backspace_home h t : text_ok cols rows t -> showing h t -> cur t = [] -> (length (above t) <= top t)%nat ->
  put_on_sheet font p 8 (8 * col t) (16 * row t) h = Stop BadPointer.
Proof.
  intros [H1 H2 H3 H4] Hs Hc Ht. destruct (showing_size h t ltac:(lia) Hs) as (s & Eg & Hx & Hy & Hw & Hp).
  unfold put_on_sheet, col, row. rewrite Hc. cbn [length]. change (8 =? 10) with false. change (8 =? 8) with true. cbn [rbind]. rewrite Eg. cbn [rbind].
  replace (16 * (Z.of_nat (length (above t)) - Z.of_nat (top t))) with 0 by lia. unfold wrap. change (i32 (8 * Z.of_nat 0 - 8)) with (-8).
  rewrite (proj2 (Z.leb_gt _ _)) by lia. change (-8 <? 0) with true. cbv iota. change (i32 (0 - 16)) with (-16).
  rewrite land_lnot_7, i32_small by lia. rewrite Hx. replace (8 * ((8 * Z.of_nat cols - 8) / 8)) with (8 * (Z.of_nat cols - 1)) by zdiv.
  unfold DrawRect, draw_in. rewrite Eg. cbn [rbind]. pose proof Hs as (s0 & Hd & _). pose proof (drawable_ok _ _ _ _ _ Hd) as Hok.
  assert (s0 = s) as -> by (destruct Hd as (_ & _ & Hs0 & _); unfold get in Eg; rewrite Hs0 in Eg; by injection Eg).
  destruct (sk_buf _ Hok) as (b & Eb & _). pose proof (sk_ppl _ Hok). unfold GetXSize in *. rewrite Eb. change (i32 (-16 + 16)) with 0. unfold for_. rewrite seqZ_cons by lia. cbn [foldM].
  change (Z.land 8 1 =? 1) with false. change (8 ÷ 2) with 4. unfold store_words, for_. change (4 <? 0) with false. cbn [foldM].
  change (seqZ 0 (4 - 0)) with [0; 1; 2; 3]. change (seqZ 0 (Z.of_nat 2)) with [0; 1]. cbn [foldM]. unfold aset at 1, index. rewrite (i32_small (-16 * _)), i32_small by lia.
  by rewrite (proj2 (Z.leb_gt 0 _)) by lia.
Qed.

Lemma put_on_sheet_ok h t c : text_ok cols rows t -> showing h t ->
  match type_char cols rows c t with
  | Some t' => put_result c h t t'
  | None => put_on_sheet font p c (8 * col t) (16 * row t) h = Stop BadPointer
  end.
Proof.
  intros Hok Hs. unfold type_char. destruct (Z.eqb_spec c 10) as [->|Hn]; [by apply put_newline|].
  destruct (Z.eqb_spec c 8) as [->|Hn8]; [|by apply put_char].
  destruct (cur t) as [|c0 cs] eqn:Hc; [|rewrite <- Hc; by eapply put_backspace].
  destruct (Nat.leb_spec (length (above t)) (top t)); [by apply put_backspace_home|].
  destruct (List.exists_last (l := above t)) as (ls & ln & Ha); [by intros E; rewrite E in *; simpl in *; lia|].
  pose proof (put_backspace_up h t ls ln Hok Hs Hc Ha) as H'. rewrite Ha, length_app in *. cbn [length] in *.
  replace (length ls + 1 - 1)%nat with (length ls) by lia. rewrite take_app_length, nth_middle. apply H'. lia.
Qed.
End Text.

(** ** The console is a terminal *)

(** What goes to the serial port. *)
Definition crlf (str : list Z) : list Z := str ≫= fun c => if c =? 10 then [13; 10] else [u8 c].
(** The console writes on the sheet [p], which shows the text [t]; the cursor is
    at its end. *)
Record console_shows (font : Z -> Z -> Z) (cols rows pp : nat) (l : list nat) (p : nat) (t : text) (s : Console * devices) : Prop := ConsoleShows {
  cs_sheet : sheet_ s.1 = Some p;
  cs_shows : shows font (Z.of_nat cols) (Z.of_nat rows) pp l p (sheets s.2) (text_grid t);
  cs_ok : text_ok cols rows t;
  cs_x : cursor_x_ s.1 = 8 * col t;
  cs_y : cursor_y_ s.1 = 16 * row t;
}.
Section Put.
Context (font : Z -> Z -> Z) (cols rows pp : nat) (l : list nat) (p : nat).

Lemma put_char_shows t s c :
  console_shows font cols rows pp l p t s ->
  match type_char cols rows c t with
  | Some t' => exists s', PutCharWithoutLocking font c s = Done s' /\ console_shows font cols rows pp l p t' s' /\
      serial_port_ s'.1 = serial_port_ s.1 /\ con_lock s'.1 = con_lock s.1 /\
      serial_out s'.2 = serial_out s.2 ++ if serial_port_ s.1 then crlf [c] else []
  | None => PutCharWithoutLocking font c s = Stop BadPointer
  end.
Proof.
  destruct s as [con d]. intros [H1 H2 H3 H4 H5]. cbn [fst snd] in *. unfold PutCharWithoutLocking. rewrite H1.
  set (d1 := if serial_port_ con then _ else d).
  assert (sheets d1 = sheets d /\ serial_out d1 = serial_out d ++ if serial_port_ con then crlf [c] else []) as [-> Eo].
  { unfold d1, crlf. destruct (serial_port_ con); [|by rewrite app_nil_r]. cbn [mbind list_bind]. rewrite app_nil_r.
    destruct (Z.eqb_spec c 10) as [->|]; cbn [SendChar sheets serial_out]; [|done]. by rewrite <- app_assoc. }
  pose proof (put_on_sheet_ok font cols rows pp l p (sheets d) t c H3 H2) as Hp. rewrite H4, H5.
  destruct (type_char cols rows c t) as [t'|]; [|by rewrite Hp]. destruct Hp as (h' & -> & Hs' & Hok'). cbn [rbind].
  eexists. split_and!; [done| |done|done|done]. by split.
Qed.
Lemma put_string_shows str : forall t s,
  console_shows font cols rows pp l p t s ->
  match type_string cols rows str t with
  | Some t' => exists s', foldM (PutCharWithoutLocking font) str s = Done s' /\ console_shows font cols rows pp l p t' s' /\
      con_lock s'.1 = con_lock s.1 /\ serial_port_ s'.1 = serial_port_ s.1 /\
      serial_out s'.2 = serial_out s.2 ++ if serial_port_ s.1 then crlf str else []
  | None => foldM (PutCharWithoutLocking font) str s = Stop BadPointer
  end.
Proof.
  induction str as [|c str IH]; intros t s Hs; cbn [foldM].
  { exists s. split_and!; [done..|]. by destruct (serial_port_ s.1); rewrite app_nil_r. }
  unfold type_string. cbn [foldl mbind option_bind]. pose proof (put_char_shows t s c Hs) as H1.
  destruct (type_char cols rows c t) as [t1|].
  - destruct H1 as (s1 & -> & Hs1 & Ep & El & Eo). cbn [rbind]. specialize (IH t1 s1 Hs1). unfold type_string in IH.
    destruct (foldl _ (Some t1) str) as [t'|]; [|done]. destruct IH as (s' & -> & Hs' & El' & Ep' & Eo'). exists s'.
    split_and!; [done|done|congruence|congruence|]. rewrite Eo', Ep, Eo, <- app_assoc. f_equal.
    destruct (serial_port_ s.1); [|done]. unfold crlf. rewrite !bind_cons. cbn [mbind list_bind]. by rewrite app_nil_r.
  - replace (foldl (fun o c => o ≫= type_char cols rows c) None str) with (None (A := text)); [by rewrite H1|].
    clear. induction str as [|c str IH]; [done|exact IH].
Qed.
Lemma plain_typed str t : Forall (fun c => c <> 8) str -> is_Some (type_string cols rows str t).
Proof.
  revert t. induction str as [|c str IH]; intros t H; [by eexists|]. inversion_clear H. unfold type_string. cbn [foldl mbind option_bind].
  assert (exists t1, type_char cols rows c t = Some t1) as [t1 ->]; [|by apply IH].
  unfold type_char. destruct (c =? 10); [by eexists|]. rewrite (proj2 (Z.eqb_neq c 8)) by done. by eexists.
Qed.
End Put.

Lemma PutString_shows font mt pid cols rows pp l p t str s :
  locked_by_pid_ (con_lock s.1) = 0 -> console_shows font cols rows pp l p t s ->
  match type_string cols rows str t with
  | Some t' => exists s', PutString font mt pid str s = Done s' /\ console_shows font cols rows pp l p t' s' /\
      con_lock s'.1 = con_lock s.1 /\ serial_port_ s'.1 = serial_port_ s.1 /\
      serial_out s'.2 = serial_out s.2 ++ if serial_port_ s.1 then crlf str else []
  | None => PutString font mt pid str s = Stop BadPointer
  end.
Proof.
  intros Hl Hs. unfold PutString, take_lock, Lock. rewrite Hl.
  set (l1 := if negb mt then con_lock s.1 else Lock_ pid).
  replace (if negb mt then Done (con_lock s.1) else if 0 =? 0 then Done (Lock_ pid) else Stop Panic) with (Done l1) by (by destruct mt).
  cbn [rbind]. set (s1 := (Con _ _ _ _ l1, s.2)). assert (console_shows font cols rows pp l p t s1) as Hs1 by (destruct Hs; by split).
  pose proof (put_string_shows font cols rows pp l p str t s1 Hs1) as H. destruct (type_string cols rows str t) as [t'|]; [|by rewrite H].
  destruct H as (s' & -> & Hs' & El & Ep & Eo). cbn [rbind]. eexists. split_and!; [done|destruct Hs'; by split| |exact Ep|exact Eo].
  unfold drop_lock. cbn [fst con_lock]. rewrite El. unfold s1, l1, Unlock. cbn [fst con_lock].
  destruct mt; [|done]. cbn [negb]. destruct (con_lock s.1) as [z]. cbn in Hl. by subst.
Qed.

(** C16: the console is a terminal. When the sheet shows a text and the cursor is
    at its end, printing a string makes it show the text typed further: lines
    break at the right edge, the screen scrolls when they exceed its height, a
    backspace erases the cell before the cursor, in the line above if need be. The
    screen stays composed, the lock is free again, and the serial port gets the
    string with a carriage return before each line feed. Only a backspace in the
    first cell of the screen fails: it would draw above the sheet. *)
Theorem console_is_terminal font mt pid cols rows pp l p t str s :
  locked_by_pid_ (con_lock s.1) = 0 -> console_shows font cols rows pp l p t s ->
  (Forall (fun c => c <> 8) str -> is_Some (type_string cols rows str t)) /\
  match type_string cols rows str t with
  | Some t' => exists s', PutString font mt pid str s = Done s' /\ console_shows font cols rows pp l p t' s' /\
      con_lock s'.1 = con_lock s.1 /\ serial_out s'.2 = serial_out s.2 ++ if serial_port_ s.1 then crlf str else []
  | None => PutString font mt pid str s = Stop BadPointer
  end.
Proof.
  intros Hl Hs. split; [apply plain_typed|]. pose proof (PutString_shows font mt pid cols rows pp l p t str s Hl Hs) as H.
  destruct (type_string cols rows str t) as [t'|]; [|done]. destruct H as (s' & E & Hs' & El & _ & Eo). by exists s'.
Qed.

(** A black screen of a given size, and the console on it. *)
Definition blank_child (W H : Z) : Sheet :=
  MkSheet (Some 0%nat) None None (Some (replicate (Z.to_nat (H * W)) 0)) None (R 0 0 W H) W false false false.
Definition blank_parent (W H : Z) : Sheet :=
  MkSheet None None (Some 1%nat) (Some (replicate (Z.to_nat (H * W)) 0)) (Some (replicate (Z.to_nat (H * W)) (Some 1%nat))) (R 0 0 W H) W
    false false false.
Definition blank_screen (W H : Z) : gmap nat Sheet := <[0%nat := blank_parent W H]> {[1%nat := blank_child W H]}.
Definition blank_console (cols rows : nat) : Console * devices :=
  (Con 0 0 (Some 1%nat) true (Lock_ 0), Devices (blank_screen (8 * Z.of_nat cols) (16 * Z.of_nat rows)) [] []).
Section Blank.
Context (W H : Z) (HW : 0 < W < 2 ^ 27) (HH : 0 < H < 2 ^ 27) (HS : H * W < 2 ^ 31).

Lemma blank_ok : sheet_ok (blank_child W H) /\ sheet_ok (blank_parent W H).
Proof.
  split; (split; [unfold small; simpl; lia|simpl; lia|eexists; split; [reflexivity|]; rewrite length_replicate; simpl; nia|simpl; lia]).
Qed.
Lemma blank_at px py : 0 <= px < W -> 0 <= py < H -> (at_ W px py < Z.to_nat (H * W))%nat.
Proof. intros. apply (at_lt W H); nia. Qed.
Lemma blank_composed : composed (blank_screen W H) 0 [1%nat].
Proof.
  exists (blank_parent W H), (replicate (Z.to_nat (H * W)) (Some 1%nat)), (replicate (Z.to_nat (H * W)) 0).
  assert (blank_screen W H !! 1%nat = Some (blank_child W H)) as H1 by reflexivity.
  assert (forall px py, in_client (blank_parent W H) px py -> top_at (blank_screen W H) [1%nat] px py = Some 1%nat) as Ht.
  { intros px py [Hx Hy]. cbn [top_at]. rewrite H1. unfold opaque. cbn [is_alpha_enabled_ blank_child negb orb].
    rewrite andb_true_r. by rewrite point_in by (unfold moderate, GetXSize, GetYSize in *; simpl in *; lia). }
  split_and!.
  - destruct blank_ok as [K1 K2]. split; try done; try (rewrite length_replicate; simpl; nia).
    + split; [done|]. by exists (blank_child W H).
    + repeat constructor; rewrite ?list_elem_of_singleton; try done. apply not_elem_of_nil.
    + intros q Hq. apply list_elem_of_singleton in Hq as ->. by exists (blank_child W H).
  - intros px py Hin. rewrite Ht by done. destruct Hin. unfold map_at, GetXSize, GetYSize in *. cbn [rect_ blank_parent xsize] in *.
    by rewrite lookup_replicate_2 by (by apply blank_at).
  - intros px py Hin q s Hq Hs. rewrite Ht in Hq by done. injection Hq as <-. assert (s = blank_child W H) as -> by congruence.
    destruct Hin. unfold GetXSize, GetYSize in *. cbn [rect_ blank_parent xsize ysize] in *. unfold pixel, GetX, GetY. cbn.
    rewrite !Z.sub_0_r. by rewrite !lookup_replicate_2 by (by apply blank_at).
Qed.
End Blank.
Lemma blank_console_shows font cols rows : (0 < cols < 2 ^ 12)%nat -> (0 < rows < 2 ^ 11)%nat ->
  console_shows font cols rows 0 [1%nat] 1 (Text 0 [] []) (blank_console cols rows).
Proof.
  intros Hc Hr. change (2 ^ 12)%nat with 4096%nat in Hc. change (2 ^ 11)%nat with 2048%nat in Hr.
  split; [done| |split; simpl; (lia || constructor)|done|done]. cbn [blank_console fst snd sheets].
  exists (blank_child (8 * Z.of_nat cols) (16 * Z.of_nat rows)). split_and!.
  - split_and!; [apply blank_composed; nia|by left|done|done].
  - done.
  - cbn. zdiv.
  - intros qx qy Hx Hy. change (array (buf_ (blank_child ?w ?h))) with (replicate (Z.to_nat (h * w)) 0). cbn [pixels_per_scan_line_ blank_child].
    rewrite lookup_replicate_2 by (apply blank_at; nia). f_equal. unfold text_grid, cell_at. cbn [above cur top app].
    by destruct (0 + Z.to_nat (qy / 16))%nat.
Qed.
Lemma console_is_terminal_witness :
  exists s', PutString (fun _ _ => 255) true 1 [97; 98; 99; 10; 100; 8; 101; 102; 103] (blank_console 2 2) = Done s' /\
    console_shows (fun _ _ => 255) 2 2 0 [1%nat] 1
      (Text 2 [[Some 97; Some 98]; [Some 99]; [Some 101; Some 102]] [Some 103]) s' /\
    serial_out s'.2 = [97; 98; 99; 13; 10; 100; 8; 101; 102; 103].
Proof.
  destruct (console_is_terminal (fun _ _ => 255) true 1 2 2 0 [1%nat] 1 (Text 0 [] []) [97; 98; 99; 10; 100; 8; 101; 102; 103] (blank_console 2 2))
    as [_ H]; [reflexivity|apply blank_console_shows; simpl; lia|].
  assert (type_string 2 2 [97; 98; 99; 10; 100; 8; 101; 102; 103] (Text 0 [] []) =
    Some (Text 2 [[Some 97; Some 98]; [Some 99]; [Some 101; Some 102]] [Some 103])) as Et by reflexivity.
  rewrite Et in H. destruct H as (s' & E & Hs & _ & Eo). exists s'. split; [exact E|]. split; [exact Hs|exact Eo].
Defined.

(** ** Numbers: what the printers put, character by character *)

Module Numbers.
Import KernelText.StringBuffer.

Definition PutDecimal64 (value : Z) : res (list Z) :=
  do ds <- decimal_digits 20 value []; Done (map (Z.add 48) ds).
(** The first loop, [k] digits whatever they are; then the value that is left. *)
Fixpoint fixed_digits (k : nat) (value : Z) (acc : list Z) : list Z * Z :=
  match k with
  | O => (acc, value)
  | S k' => fixed_digits k' (value / 10) (value mod 10 :: acc)
  end.
(** The buffer has 20 digits. *)
Definition PutDecimal64WithPointPos (value : Z) (point_pos : nat) : res (list Z) :=
  if (20 <? point_pos)%nat then Stop Overflow
  else
    let '(acc, value) := fixed_digits point_pos value [] in
    do ds <- decimal_digits (20 - point_pos) value acc;
    let n := (length ds - point_pos)%nat in
    Done (map (Z.add 48) (take n ds) ++ [46] ++ map (Z.add 48) (drop n ds)).
(** Leading zeros are left out, but for the last digit. *)
Definition PutHex64 (value : Z) : list Z := hex_text (lead_loop 16 value 1) value.
Definition PutHex64ZeroFilled (value : Z) : list Z :=
  rev (seq 0 16) ≫= fun i => (if (i =? 11)%nat || (i =? 7)%nat || (i =? 3)%nat then [39] else []) ++ [hex_char (nibble value i)].
Definition PutHex8ZeroFilled (value : Z) : list Z := hex_text 2 value.
Definition colon : list Z := [58; 32].
Definition PutStringAndDecimal (s : list Z) (value : Z) : res (list Z) :=
  do d <- PutDecimal64 value; Done (s ++ colon ++ d ++ [10]).
Definition PutStringAndDecimalWithPointPos (s : list Z) (value : Z) (pos : nat) : res (list Z) :=
  do d <- PutDecimal64WithPointPos value pos; Done (s ++ colon ++ d ++ [10]).
Definition PutStringAndHex (s : list Z) (value : Z) : list Z := s ++ colon ++ [48; 120] ++ PutHex64 value ++ [10].
Definition PutStringAndBool (s : list Z) (cond : bool) : list Z :=
  s ++ colon ++ (if cond then [84; 114; 117; 101] else [70; 97; 108; 115; 101]) ++ [10].
Definition PutAddressRange (addr size : Z) : list Z :=
  [91] ++ PutHex64ZeroFilled addr ++ [45] ++ PutHex64ZeroFilled (u64 (addr + size)) ++ [41].

Lemma fixed_digits_spec k v acc : 0 <= v ->
  exists ds, fixed_digits k v acc = (ds ++ acc, v / 10 ^ Z.of_nat k) /\ length ds = k /\
    foldl (fun a d => 10 * a + d) 0 ds = v mod 10 ^ Z.of_nat k /\ (forall d, In d ds -> 0 <= d < 10).
Proof.
  revert v acc. induction k as [|k IH]; intros v acc Hv; cbn [fixed_digits].
  { exists []. rewrite Z.div_1_r, Z.mod_1_r. by split_and!. }
  destruct (IH (v / 10) (v mod 10 :: acc)) as (ds & -> & Hl & Hd & Hr); [zdiv|]. exists (ds ++ [v mod 10]).
  rewrite Nat2Z.inj_succ, Z.pow_succ_r by lia. assert (0 < 10 ^ Z.of_nat k) by (apply Z.pow_pos_nonneg; lia). split_and!.
  - by rewrite <- app_assoc, Z.div_div by lia.
  - rewrite length_app. simpl. lia.
  - rewrite foldl_app, Hd. cbn. rewrite Z.rem_mul_r by lia. lia.
  - intros d [Hin|[<-|[]]]%in_app_or; [by apply Hr|zdiv].
Qed.
(** The number printed with a point after [point_pos] decimals is the value. *)
Lemma PutDecimal64WithPointPos_value v k : 0 <= v < 2 ^ 64 -> (k < 20)%nat ->
  exists ip fp, PutDecimal64WithPointPos v k = Done (ip ++ [46] ++ fp) /\ length fp = k /\
    dec_value ip * 10 ^ Z.of_nat k + dec_value fp = v.
Proof.
  intros Hv Hk. unfold PutDecimal64WithPointPos. rewrite (proj2 (Nat.ltb_ge 20 k)) by lia.
  destruct (fixed_digits_spec k v []) as (ds & -> & Hl & Hd & Hr); [lia|]. rewrite app_nil_r.
  assert (0 < 10 ^ Z.of_nat k) as Hp by (apply Z.pow_pos_nonneg; lia).
  destruct (decimal_digits_spec (20 - k) (v / 10 ^ Z.of_nat k) ds) as (ips & -> & Hi & Hri); [|lia|].
  { split; [by apply Z.div_pos; lia|]. apply Z.div_lt_upper_bound; [done|]. rewrite <- Z.pow_add_r by lia.
    replace (Z.of_nat k + Z.of_nat (20 - k)) with 20 by lia. lia. }
  cbn [rbind]. rewrite length_app, Hl, Nat.add_sub, take_app_length, drop_app_length.
  eexists _, _. split; [done|]. rewrite length_map. split; [done|]. unfold dec_value. rewrite !dec_value_digits, Hi, Hd.
  pose proof (Z_div_mod_eq_full v (10 ^ Z.of_nat k)). lia.
Qed.
End Numbers.
