(* ===== verification/Shell.v ===== *)
(** * The command line: [src/console.cc] (input), [src/command.cc]
    ([WaitAndProcess])

    Keys come from the keyboard, the USB keyboard and the serial port; the text
    box records and echoes them until the line ends.  The theorem joins the models
    of the text box, the console and the compositor. *)

From stdpp Require Import strings.
From S2P Require Import Prelude KernelBase KernelText KernelInput Scheduler Sheet Console.
#[global] Open Scope Z_scope.

(** ** Input *)


(** ** command.cc *)

Section Line.
Context (font : Z -> Z -> Z) (mt : bool) (pid : Z).

End Line.

(** ** Positions in the text *)

Section Positions.
Context (cols rows : nat).

End Positions.

(** ** The keys that wait *)


(** Keys by what the shell does with them. *)
Definition char_ok (c : Z) : Prop := 0 <= c < 128 /\ c <> 10 /\ c <> 8.
Definition plain (k : Z) : Prop :=
  Z.land k KeyID.kMaskBreak = 0 /\ Z.land k KeyID.kMaskExtended = 0 /\ char_ok (u8 k) /\ i8 k = u8 k.
Definition ignored (k : Z) : Prop :=
  k <> 10 /\ k <> KeyID.kBackspace /\ k <> KeyID.kNoInput /\
  (Z.land k KeyID.kMaskBreak <> 0 \/ Z.land k KeyID.kMaskExtended <> 0).
Definition key_ok (k : Z) : Prop := k = 10 \/ k = KeyID.kBackspace \/ ignored k \/ plain k.
#[global] Instance char_ok_dec c : Decision (char_ok c).
Proof. unfold char_ok. apply _. Defined.
#[global] Instance key_ok_dec k : Decision (key_ok k).
Proof. unfold key_ok, ignored, plain. apply _. Defined.





(** ** Reading a line *)




Section Reading.
Context (font : Z -> Z -> Z) (mt : bool) (pid : Z) (cols rows pp : nat) (l : list nat) (p : nat).

Context (Hsize : (TextBox.kSizeOfBuffer <= (rows - 1) * cols)%nat) (t0 : text) (Hok0 : text_ok cols rows t0).

End Reading.



