(* ===== verification/Mouse.v ===== *)
(** * The PS/2 mouse: [src/ps2_mouse.h], [src/ps2_mouse.cc]

    The interrupt handler is a state machine over the bytes of the mouse; the
    manager moves the cursor and the windows of the compositor.  What the device
    sends is the argument of the handler, what is sent to it is recorded. *)

From S2P Require Import Prelude KernelBase Sheet.
Import KernelBase.Rect.
#[global] Open Scope Z_scope.

(** ** The interrupt handler *)

Inductive Phase :=
| kInitialState
| kWaitingACKForInitCommand
| kWaitingInitSuccess
| kWaitingACKForSamplingRateCmd
| kWaitingACKForSamplingRateData
| kWaitingACKForGetDeviceIDCmd
| kWaitingDeviceID
| kWaitingACKForStartDataReportingCmd
| kWaitingFirstByte
| kWaitingSecondByte
| kWaitingThirdByte.
Record MouseEvent := Event { buttonL : bool; buttonC : bool; buttonR : bool; dx : Z; dy : Z }.
Definition kBufferSize : nat := 32.
(** [data]: the three bytes; [sent]: what was sent to the mouse, the latest
    last. *)
Record mouse := Mouse {
  phase_ : Phase;
  data : Z * Z * Z;
  buffer : RingBuffer.ring (T := MouseEvent);
  sent : list Z;
}.
Definition no_event : MouseEvent := Event false false false 0 0.
Definition set_phase (p : Phase) (m : mouse) : mouse := Mouse p (data m) (buffer m) (sent m).
(** The controller is ready at some time; the prefix goes before the byte. *)
Definition SendToMouse (v : Z) (m : mouse) : mouse := Mouse (phase_ m) (data m) (buffer m) (sent m ++ [v]).
Definition Init (m : mouse) : mouse := set_phase kWaitingACKForInitCommand (SendToMouse 0xFF m).
Definition decode (d : Z * Z * Z) : MouseEvent :=
  let '(d0, d1, d2) := d in
  Event (negb (Z.land d0 1 =? 0)) (negb (Z.land d0 4 =? 0)) (negb (Z.land d0 2 =? 0)) (i8 d1) (i8 (- i8 d2)).

Definition IntHandler (m : mouse) (value : Z) : mouse :=
  match phase_ m with
  | kInitialState => m
  | kWaitingACKForInitCommand => if value =? 0xFA then set_phase kWaitingInitSuccess m else m
  | kWaitingInitSuccess =>
    if value =? 0xAA then set_phase kWaitingACKForSamplingRateCmd (SendToMouse 0xF3 m) else m
  | kWaitingACKForSamplingRateCmd =>
    if value =? 0xFA then set_phase kWaitingACKForSamplingRateData (SendToMouse 100 m) else m
  | kWaitingACKForSamplingRateData =>
    if value =? 0xFA then set_phase kWaitingACKForGetDeviceIDCmd (SendToMouse 0xF2 m) else m
  | kWaitingACKForGetDeviceIDCmd => if value =? 0xFA then set_phase kWaitingDeviceID m else m
  | kWaitingDeviceID => set_phase kWaitingACKForStartDataReportingCmd (SendToMouse 0xF4 m)
  | kWaitingACKForStartDataReportingCmd => if value =? 0xFA then set_phase kWaitingFirstByte m else m
  | kWaitingFirstByte =>
    let '(_, d1, d2) := data m in
    let m := Mouse (phase_ m) (value, d1, d2) (buffer m) (sent m) in
    if Z.land value 200 =? 8 then set_phase kWaitingSecondByte m else m
  | kWaitingSecondByte =>
    let '(d0, _, d2) := data m in Mouse kWaitingThirdByte (d0, value, d2) (buffer m) (sent m)
  | kWaitingThirdByte =>
    let '(d0, d1, _) := data m in
    let d := (d0, d1, value) in
    Mouse kWaitingFirstByte d (RingBuffer.Push kBufferSize (decode d) (buffer m)) (sent m)
  end.

(** ** The manager *)

Record manager := Mgr {
  mx : Z;
  my : Z;
  last_left_button_state : bool;
  focused : option nat;
  focused_ofs_x : Z;
  focused_ofs_y : Z;
}.
Definition FixPositionInVRAM (px py : Z) (vram : Sheet) : Z * Z :=
  let px := if px <? 0 then 0 else px in
  let py := if py <? 0 then 0 else py in
  let px := if GetXSize vram <=? px then i32 (GetXSize vram - 1) else px in
  let py := if GetYSize vram <=? py then i32 (GetYSize vram - 1) else py in
  (px, py).
Definition MoveMouseCursor (px py dx dy : Z) (vram : Sheet) : Z * Z :=
  FixPositionInVRAM (i32 (px + dx)) (i32 (py + dy)) vram.
(** [for (s = ...; s && !s->IsTopmost(); s = s->GetUpper())] *)
Fixpoint find_window (fuel : nat) (s : option nat) (px py : Z) (found : option nat) (h : gmap nat Sheet) : res (option nat) :=
  match fuel with
  | O => Stop FuelOut
  | S f =>
    match s with
    | None => Done found
    | Some q =>
      do sh <- get h q;
      if is_topmost_ sh then Done found
      else
        let found := if negb (IsPointInRect (rect_ sh) px py) || is_locked_ sh then found else Some q in
        find_window f (upper_ sh) px py found h
    end
  end.
Definition FindWindowAtPosition (vram : nat) (px py : Z) (h : gmap nat Sheet) : res (option nat) :=
  do v <- get h vram; find_window (S (size h)) (bottom_child_ v) px py None h.

Section Manager.
Context (font : Z -> Z -> Z) (vram cursor_sheet debug_info_sheet : nat).

(** The left button: a window is taken when it goes down, moved while it is
    held, and dropped when it goes up. *)
Definition drag (me : MouseEvent) (st : manager) (h : gmap nat Sheet) : res (manager * gmap nat Sheet) :=
  if buttonL me then
    do st <- (if last_left_button_state st then Done st
              else
                do f <- FindWindowAtPosition vram (mx st) (my st) h;
                match f with
                | None => Done (Mgr (mx st) (my st) (last_left_button_state st) None (focused_ofs_x st) (focused_ofs_y st))
                | Some q =>
                  do s <- get h q;
                  Done (Mgr (mx st) (my st) (last_left_button_state st) (Some q) (i32 (mx st - GetX s)) (i32 (my st - GetY s)))
                end);
    match focused st with
    | None => Done (st, h)
    | Some q =>
      do h <- SetPosition q (i32 (mx st - focused_ofs_x st)) (i32 (my st - focused_ofs_y st)) h; Done (st, h)
    end
  else Done (Mgr (mx st) (my st) (last_left_button_state st) None (focused_ofs_x st) (focused_ofs_y st), h).
(** The buttons are shown on a sheet of their own. *)
Definition show_buttons (me : MouseEvent) (h : gmap nat Sheet) : res (gmap nat Sheet) :=
  do h <- DrawCharacter font debug_info_sheet (if buttonL me then 76 else 108) 16 32 false h;
  do h <- DrawCharacter font debug_info_sheet (if buttonC me then 67 else 99) 24 32 false h;
  do h <- DrawCharacter font debug_info_sheet (if buttonR me then 82 else 114) 32 32 false h;
  Flush_all debug_info_sheet h.
(** One turn of the loop of [MouseManager], for an event from the buffer. *)
Definition manage (me : MouseEvent) (s : manager * gmap nat Sheet) : res (manager * gmap nat Sheet) :=
  let '(st, h) := s in
  do v <- get h vram;
  let '(x, y) := MoveMouseCursor (mx st) (my st) (dx me) (dy me) v in
  do h <- SetPosition cursor_sheet x y h;
  do '(st, h) <- drag me (Mgr x y (last_left_button_state st) (focused st) (focused_ofs_x st) (focused_ofs_y st)) h;
  do h <- show_buttons me h;
  Done (Mgr (mx st) (my st) (buttonL me) (focused st) (focused_ofs_x st) (focused_ofs_y st), h).
End Manager.
(** At the start of the loop. *)
Definition new_manager : manager := Mgr 50 50 false None 0 0.

(** ** The bytes of the mouse *)

(** The answers during the handshake. *)
Definition handshake (device_id : Z) : list Z := [0xFA; 0xAA; 0xFA; 0xFA; 0xFA; device_id; 0xFA].
(** What the mouse has to report: its buttons and how far it was moved, to the
    right and away from the user. *)
Record report := Report { rL : bool; rC : bool; rR : bool; rx : Z; ry : Z }.
Definition bit (b : bool) (n : Z) : Z := if b then 2 ^ n else 0.
(** The packet: the bits 00YX1CRL with the signs Y and X of the movement (the source
    names them in the other order, and uses neither), and the low eight bits of each
    of its two's complements of nine bits. *)
Definition encode (r : report) : list Z :=
  [bit (ry r <? 0) 5 + bit (rx r <? 0) 4 + bit true 3 + bit (rC r) 2 + bit (rR r) 1 + bit (rL r) 0; rx r mod 256; ry r mod 256].
(** Movements that have no overflow, so that the packet can carry them. *)
Definition report_ok (r : report) : Prop := -256 <= rx r < 256 /\ -256 <= ry r < 256.
(** On the screen [y] grows downwards. *)
Definition event_of (r : report) : MouseEvent := Event (rL r) (rC r) (rR r) (rx r) (- ry r).
(** What the driver makes of it, which keeps eight bits and ignores the signs in
    the first byte: the event itself for movements it has room for. *)
Definition received (r : report) : MouseEvent := Event (rL r) (rC r) (rR r) (i8 (rx r)) (i8 (- ry r)).
Definition fits (r : report) : Prop := -128 <= rx r < 128 /\ -128 < ry r < 128.
Lemma received_fits r : fits r -> received r = event_of r.
Proof. intros [Hx Hy]. unfold received, event_of. by rewrite !i8_small by lia. Qed.
(** Bytes that cannot start a packet. *)
Definition noise (b : Z) : bool := negb (Z.land b 200 =? 8).
Definition event_ok (e : MouseEvent) : Prop := -128 <= dx e < 128 /\ -128 <= dy e < 128.

Lemma i8_mod z : i8 (z mod 256) = i8 z.
Proof. unfold i8, swrap. simpl. zdiv. Qed.
Lemma i8_opp z : i8 (- i8 z) = i8 (- z).
Proof. unfold i8, swrap. simpl. zdiv. Qed.
Lemma decode_encode r b0 b1 b2 : encode r = [b0; b1; b2] -> decode (b0, b1, b2) = received r /\ noise b0 = false.
Proof.
  intros [= <- <- <-]. unfold decode, received, noise. rewrite !i8_mod, i8_opp.
  destruct (ry r <? 0), (rx r <? 0), (rL r), (rC r), (rR r); split; reflexivity.
Qed.
(** What the buffer holds after events: they are dropped when it is full. *)
Definition enqueue (q : list MouseEvent) (e : MouseEvent) : list MouseEvent :=
  if (length q + 1 <? kBufferSize)%nat then q ++ [e] else q.
Lemma enqueue_all es q : (length q + length es < kBufferSize)%nat -> foldl enqueue q es = q ++ es.
Proof.
  revert q. induction es as [|e es IH]; intros q H; [by rewrite app_nil_r|]. cbn [foldl length] in *. unfold enqueue at 2.
  rewrite (proj2 (Nat.ltb_lt (length q + 1) kBufferSize)) by lia. rewrite IH by (rewrite length_app; cbn [length]; lia). by rewrite <- app_assoc.
Qed.
(** A machine that waits for a packet, its buffer holding [q]. *)
Definition listening (q : list MouseEvent) (m : mouse) : Prop :=
  phase_ m = kWaitingFirstByte /\ RingBuffer.abs kBufferSize q (buffer m).
Lemma noise_skipped bs q m : Forall (fun b => noise b = true) bs -> listening q m ->
  listening q (foldl IntHandler m bs) /\ sent (foldl IntHandler m bs) = sent m.
Proof.
  intros Hn. revert m. induction Hn as [|b bs Hb Hbs IH]; intros m Hl; [done|]. cbn [foldl].
  destruct Hl as [Hp Ha]. destruct m as [ph [[d0 d1] d2] bf sn]. cbn in Hp. subst ph. unfold noise in Hb. unfold IntHandler at 2 4.
  cbn [phase_ data buffer sent]. apply negb_true_iff in Hb. rewrite Hb. by apply (IH (Mouse kWaitingFirstByte (b, d1, d2) bf sn)).
Qed.
Lemma packet_decoded r q m : listening q m ->
  listening (enqueue q (received r)) (foldl IntHandler m (encode r)) /\ sent (foldl IntHandler m (encode r)) = sent m.
Proof.
  intros [Hp Ha]. destruct (encode r) as [|b0 [|b1 [|b2 [|]]]] eqn:Ee; try discriminate Ee.
  destruct (decode_encode r b0 b1 b2 Ee) as [Ed Hn]. destruct m as [ph [[d0 d1] d2] bf sn]. cbn in Hp. subst ph.
  unfold noise in Hn. apply negb_false_iff in Hn. cbn [foldl]. unfold IntHandler at 3 6. cbn [phase_ data buffer sent]. rewrite Hn.
  cbn [IntHandler set_phase phase_ data buffer sent]. rewrite Ed. split; [|done]. split; [done|]. by apply RingBuffer.Push_abs.
Qed.
(** Packets, each with noise before it. *)
Definition stream (ps : list (list Z * report)) : list Z := ps ≫= fun p => p.1 ++ encode p.2.
Definition arriving (ps : list (list Z * report)) : list MouseEvent := received <$> ps.*2.
Lemma arriving_fits ps : Forall (fun p => fits p.2) ps -> arriving ps = event_of <$> ps.*2.
Proof.
  unfold arriving. induction 1 as [|p ps Hp _ IH]; [done|]. rewrite !fmap_cons, received_fits by done. by f_equal.
Qed.
Lemma stream_decoded ps q m :
  Forall (fun p => Forall (fun b => noise b = true) p.1) ps -> listening q m ->
  listening (foldl enqueue q (arriving ps)) (foldl IntHandler m (stream ps)) /\ sent (foldl IntHandler m (stream ps)) = sent m.
Proof.
  intros H. revert q m. induction H as [|[bs r] ps Hb _ IH]; intros q m Hl; [done|].
  unfold stream, arriving. rewrite bind_cons, !fmap_cons. cbn [fst snd foldl]. rewrite !foldl_app. fold (stream ps). fold (arriving ps).
  destruct (noise_skipped bs q m Hb Hl) as [Hl1 Es1]. destruct (packet_decoded r q _ Hl1) as [Hl2 Es2].
  destruct (IH _ _ Hl2) as [Hl3 Es3]. split; [done|]. by rewrite Es3, Es2.
Qed.

(** C27: the mouse speaks and is understood. After [Init] and the seven answers of
    the handshake the driver has sent reset, sampling rate 100, the query for the
    identity and the start of reporting, and listens. Then every packet without
    overflow, whatever buttons and signs its first byte has, arrives as one event
    with its buttons and its movement, in order, bytes that cannot start a packet
    before it being skipped, until the buffer of 31 events is full. The movement is
    exact from -128 to 127 to the right and from -127 to 127 away from the user;
    beyond that the driver, which does not use the two sign bits, keeps the low
    eight bits of it as a signed number. *)
Theorem mouse_protocol device_id ps m :
  RingBuffer.abs kBufferSize [] (buffer m) ->
  Forall (fun p => Forall (fun b => noise b = true) p.1 /\ report_ok p.2) ps ->
  let m' := foldl IntHandler (Init m) (handshake device_id ++ stream ps) in
  phase_ m' = kWaitingFirstByte /\ sent m' = sent m ++ [0xFF; 0xF3; 100; 0xF2; 0xF4] /\
  RingBuffer.abs kBufferSize (foldl enqueue [] (arriving ps)) (buffer m') /\
  ((length ps < kBufferSize)%nat -> foldl enqueue [] (arriving ps) = arriving ps) /\
  (Forall (fun p => fits p.2) ps -> arriving ps = event_of <$> ps.*2).
Proof.
  intros Ha Hps. cbn zeta. rewrite foldl_app. set (m1 := foldl IntHandler (Init m) (handshake device_id)).
  assert (listening [] m1 /\ sent m1 = sent m ++ [0xFF; 0xF3; 100; 0xF2; 0xF4]) as [Hl Es].
  { split; [by split|]. unfold m1. cbn. by rewrite <- !app_assoc. }
  destruct (stream_decoded ps [] m1) as [[Hp Hb] Es']; [eapply List.Forall_impl; [|exact Hps]; by intros p [? _]|done|].
  split_and!; [done|congruence|done| |].
  - intros Hlen. rewrite enqueue_all; [done|]. unfold arriving. rewrite !length_fmap. simpl. lia.
  - apply arriving_fits.
Qed.
Lemma mouse_protocol_witness :
  let m := Mouse kInitialState (0, 0, 0) (RingBuffer.new (replicate 32 no_event)) [] in
  let e1 := Event true false false 5 (-3) in
  let e2 := Event false true true (-128) 127 in
  let m' := foldl IntHandler (Init m) (handshake 0 ++ [0; 64; 9; 5; 3; 255; 62; 128; 129]) in
  RingBuffer.abs kBufferSize [e1; e2] (buffer m').
Proof.
  cbn zeta. destruct (mouse_protocol 0 [([0; 64], Report true false false 5 3); ([255], Report false true true (-128) (-127))]
    (Mouse kInitialState (0, 0, 0) (RingBuffer.new (replicate 32 no_event)) [])) as (_ & _ & H & _).
  - split; unfold kBufferSize; simpl; (lia || reflexivity || (intros; lia)).
  - repeat constructor; (reflexivity || simpl; lia).
  - exact H.
Defined.
(** A fast movement arrives reversed. *)
Example fast_movement_reversed :
  received (Report false false false 200 (-128)) = Event false false false (-56) (-128) /\
  event_of (Report false false false 200 (-128)) = Event false false false 200 128.
Proof. split; reflexivity. Qed.

(** ** The desktop *)

Lemma composed_child h pp l q : composed h pp l -> q ∈ l -> exists s, h !! q = Some s /\ sheet_ok s.
Proof. intros (p & m & b & Sc & _) Hq. destruct (sc_child _ _ _ _ _ _ Sc q Hq) as (s & Hs & Hok & _). by exists s. Qed.
Lemma composed_parent h pp l : composed h pp l -> exists p, h !! pp = Some p /\ sheet_ok p /\ chain h (bottom_child_ p) l /\ (length l < size h)%nat.
Proof.
  intros (p & m & b & Sc & _). exists p. split_and!; [apply Sc..|]. by eapply scene_size.
Qed.

Section Desktop.
Context (font : Z -> Z -> Z) (vram cursor_sheet debug_info_sheet : nat) (l : list nat).

(** What a press of the button should take: of the sheets in [l2], from the bottom
    up to the first topmost one, the last that is not locked and has the point
    inside its rectangle. *)
Definition grabbed (h : gmap nat Sheet) (px py : Z) (q : nat) : Prop :=
  exists s, h !! q = Some s /\ is_locked_ s = false /\
    GetX s <= px < GetX s + GetXSize s /\ GetY s <= py < GetY s + GetYSize s.
Fixpoint windows (h : gmap nat Sheet) (l2 : list nat) : list nat :=
  match l2 with
  | [] => []
  | q :: l3 => if topmost_in h q then [] else q :: windows h l3
  end.
Definition window_at (h : gmap nat Sheet) (l2 : list nat) (px py : Z) (r : option nat) : Prop :=
  match r with
  | Some q => exists below above, windows h l2 = below ++ q :: above /\ grabbed h px py q /\ Forall (fun q' => ~ grabbed h px py q') above
  | None => Forall (fun q' => ~ grabbed h px py q') (windows h l2)
  end.
Lemma windows_in h l2 q : q ∈ windows h l2 -> q ∈ l2 /\ topmost_in h q = false.
Proof.
  induction l2 as [|q2 l2 IH]; cbn; [by intros ?%elem_of_nil|]. destruct (topmost_in h q2) eqn:E; [by intros ?%elem_of_nil|].
  intros [->|H]%elem_of_cons; [by split; [left|]|]. destruct (IH H). by split; [right|].
Qed.
Lemma find_window_exact h px py : forall l2 fuel o found,
  (forall q, q ∈ l2 -> exists s, h !! q = Some s /\ moderate (rect_ s)) -> chain h o l2 -> (length l2 < fuel)%nat ->
  exists r, window_at h l2 px py r /\ find_window fuel o px py found h = Done (match r with Some q => Some q | None => found end).
Proof.
  induction l2 as [|q l2 IH]; intros fuel o found Hm Hc Hf; (destruct fuel as [|f]; [simpl in Hf; lia|]); cbn [find_window].
  - cbn in Hc. subst o. exists None. split; [apply List.Forall_nil|done].
  - destruct Hc as (-> & s & Hs & Hc). unfold get. rewrite Hs. cbn [deref rbind]. unfold window_at. cbn [windows].
    unfold topmost_in. rewrite Hs. destruct (is_topmost_ s) eqn:Et; [exists None; split; [apply List.Forall_nil|done]|]. cbn [length] in Hf.
    assert (grabbed h px py q <-> negb (IsPointInRect (rect_ s) px py) || is_locked_ s = false) as Hg.
    { destruct (Hm q ltac:(by left)) as (s' & Hs' & Hmod). assert (s' = s) as -> by congruence. rewrite orb_false_iff, negb_false_iff, IsPointInRect_spec by done.
      split; [intros (s2 & E2 & Hl & Hx & Hy); assert (s2 = s) as -> by congruence; exact (conj (conj Hx Hy) Hl)|intros ((Hx & Hy) & Hl); by exists s]. }
    destruct (IH f (upper_ s) (if negb (IsPointInRect (rect_ s) px py) || is_locked_ s then found else Some q)) as (r & Hr & Er); [|done|lia|].
    { intros q' Hq'. apply Hm. by right. }
    destruct r as [q'|].
    + destruct Hr as (below & above & E & Hr). exists (Some q'). split; [|exact Er]. exists (q :: below), above. by rewrite E.
    + destruct (negb (IsPointInRect (rect_ s) px py) || is_locked_ s) eqn:Eb.
      * exists None. split; [|exact Er]. apply Forall_cons; [|done]. intros H. by apply Hg in H.
      * exists (Some q). split; [|exact Er]. exists [], (windows h l2). split; [done|]. split; [by apply Hg|done].
Qed.

(** [cursor_sheet] and [debug_info_sheet] are sheets of the scene, the first on
    top and at the position of the mouse, which is on the screen; a window that
    is dragged is another sheet of the scene, taken at a point inside it. *)
Record desk (W H : Z) (st : manager) (h : gmap nat Sheet) : Prop := Desk {
  dk_composed : composed h vram l;
  dk_cursor : cursor_sheet ∈ l;
  dk_debug : debug_info_sheet ∈ l;
  dk_ne : cursor_sheet <> debug_info_sheet;
  dk_vram : exists v, h !! vram = Some v /\ GetXSize v = W /\ GetYSize v = H;
  dk_mx : 0 <= mx st < W;
  dk_my : 0 <= my st < H;
  dk_top : exists s, h !! cursor_sheet = Some s /\ is_topmost_ s = true /\ GetX s = mx st /\ GetY s = my st;
  dk_info : exists s, h !! debug_info_sheet = Some s /\ is_alpha_enabled_ s = false /\ 40 <= GetXSize s /\ 48 <= GetYSize s;
  dk_focus : forall q, focused st = Some q -> q ∈ l /\ q <> cursor_sheet /\
    exists s, h !! q = Some s /\ 0 <= focused_ofs_x st < GetXSize s /\ 0 <= focused_ofs_y st < GetYSize s;
}.
(** It is where the mouse has dragged it. *)
Definition dragged (st : manager) (h : gmap nat Sheet) : Prop :=
  forall q s, focused st = Some q -> h !! q = Some s -> GetX s = mx st - focused_ofs_x st /\ GetY s = my st - focused_ofs_y st.

Lemma kept_lookup h q s' h' r : kept (<[q := s']> h) h' vram -> r <> vram -> h' !! r = if decide (r = q) then Some s' else h !! r.
Proof.
  intros [K _] Hr. rewrite K by done. destruct (decide (r = q)) as [->|]; [apply lookup_insert_eq|by apply lookup_insert_ne].
Qed.
(** Every sheet of the scene is at the place [f] gives it, and as it was. *)
Definition laid_out (h h' : gmap nat Sheet) (f : nat -> rect -> rect) : Prop :=
  forall r s, r ∈ l -> h !! r = Some s -> exists s', h' !! r = Some s' /\ rect_ s' = f r (rect_ s) /\
    is_topmost_ s' = is_topmost_ s /\ is_locked_ s' = is_locked_ s.
Lemma kept_laid_out h q s s' h' :
  composed h vram l -> h !! q = Some s -> kept (<[q := s']> h) h' vram -> is_topmost_ s' = is_topmost_ s -> is_locked_ s' = is_locked_ s ->
  laid_out h h' (fun r a => if decide (r = q) then rect_ s' else a).
Proof.
  intros Hc Hq Hk Ht Hl r sr Hr Hsr. rewrite (kept_lookup _ _ _ _ _ Hk) by (by eapply child_ne).
  destruct (decide (r = q)) as [->|]; [|by exists sr]. exists s'. assert (sr = s) as -> by congruence. done.
Qed.
Lemma laid_out_trans h h1 h2 f g : laid_out h h1 f -> laid_out h1 h2 g -> laid_out h h2 (fun r a => g r (f r a)).
Proof.
  intros H1 H2 r s Hr Hs. destruct (H1 r s Hr Hs) as (s1 & E1 & R1 & T1 & L1), (H2 r s1 Hr E1) as (s2 & E2 & R2 & T2 & L2).
  exists s2. split_and!; [done|congruence|congruence|congruence].
Qed.
(** Where the sheets are after an event, the manager being in [st]. *)
Definition place (st : manager) (r : nat) (a : rect) : rect :=
  if decide (r = cursor_sheet) then R (mx st) (my st) (xsize a) (ysize a)
  else if decide (focused st = Some r) then R (mx st - focused_ofs_x st) (my st - focused_ofs_y st) (xsize a) (ysize a)
  else a.
(** The topmost sheet under the point does not depend on where the cursor's own
    sheet is. *)
Lemma window_at_cursor h h1 px py r :
  topmost_in h cursor_sheet = true -> (forall q, q ∈ l -> q <> cursor_sheet -> h1 !! q = h !! q) -> topmost_in h1 cursor_sheet = true ->
  window_at h1 l px py r -> window_at h l px py r.
Proof.
  intros Ht Hs Ht1. assert (windows h1 l = windows h l) as Ew.
  { revert Hs. generalize l. intros l2. induction l2 as [|q l2 IH]; intros Hs; [done|]. cbn.
    assert (topmost_in h1 q = topmost_in h q) as ->.
    { destruct (decide (q = cursor_sheet)) as [->|]; [congruence|]. unfold topmost_in. rewrite Hs by (by left || done). done. }
    destruct (topmost_in h q); [done|]. f_equal. apply IH. intros q' Hq'. apply Hs. by right. }
  assert (forall q, q ∈ windows h l -> grabbed h1 px py q <-> grabbed h px py q) as Hg.
  { intros q [Hql Hqt]%windows_in. unfold grabbed. rewrite Hs; [done|done|]. intros ->. congruence. }
  destruct r as [q|]; cbn; rewrite Ew.
  - intros (below & above & E & Hq & Ha). exists below, above. split; [done|]. split.
    + apply Hg; [|done]. rewrite E. apply elem_of_app. right. by left.
    + rewrite list.Forall_forall in Ha |- *. intros q' Hq' Hx. apply (Ha q' Hq'), Hg; [|done]. rewrite E. apply elem_of_app. right. by right.
  - intros Ha. rewrite list.Forall_forall in Ha |- *. intros q' Hq' Hx. by apply (Ha q' Hq'), Hg.
Qed.

(** What one event does.  The cursor moves by the event, as far as the screen goes;
    the button, when it goes down, takes the topmost window under the cursor where
    it is, keeps it while it is down, and lets it go; the cursor's sheet is at the
    cursor, the window that is held keeps its distance from it, and nothing else
    moves. *)
Definition clamp (n v : Z) : Z := Z.max 0 (Z.min v (n - 1)).
Record moved (W H : Z) (me : MouseEvent) (st : manager) (h : gmap nat Sheet) (st' : manager) (h' : gmap nat Sheet) : Prop := Moved {
  mv_x : mx st' = clamp W (mx st + dx me);
  mv_y : my st' = clamp H (my st + dy me);
  mv_button : last_left_button_state st' = buttonL me;
  mv_up : buttonL me = false -> focused st' = None;
  mv_held : buttonL me = true -> last_left_button_state st = true ->
    focused st' = focused st /\ focused_ofs_x st' = focused_ofs_x st /\ focused_ofs_y st' = focused_ofs_y st;
  mv_down : buttonL me = true -> last_left_button_state st = false ->
    window_at h l (mx st') (my st') (focused st') /\
    forall q s, focused st' = Some q -> h !! q = Some s -> focused_ofs_x st' = mx st' - GetX s /\ focused_ofs_y st' = my st' - GetY s;
  mv_places : laid_out h h' (place st');
}.
(** One sheet changes, but not in its size or kind. *)
Lemma desk_change W H st st' h h' q s s' :
  desk W H st h -> composed h' vram l -> q ∈ l -> h !! q = Some s -> kept (<[q := s']> h) h' vram ->
  GetXSize s' = GetXSize s -> GetYSize s' = GetYSize s -> is_topmost_ s' = is_topmost_ s -> is_alpha_enabled_ s' = is_alpha_enabled_ s ->
  0 <= mx st' < W -> 0 <= my st' < H -> focused st' = focused st -> focused_ofs_x st' = focused_ofs_x st -> focused_ofs_y st' = focused_ofs_y st ->
  (q = cursor_sheet -> GetX s' = mx st' /\ GetY s' = my st') -> (q <> cursor_sheet -> mx st' = mx st /\ my st' = my st) ->
  desk W H st' h'.
Proof.
  intros [D1 D2 D3 D4 D5 D6 D7 D8 D9 D10] Hc Hq Hs Hk Ex Ey Et Ea Hmx Hmy Ef Eox Eoy Hcur Hnc.
  assert (forall r, r ∈ l -> h' !! r = if decide (r = q) then Some s' else h !! r) as Hl by (intros; eapply kept_lookup; [done|by eapply child_ne]).
  split; try done.
  - destruct D5 as (v & Hv & HW & HH). destruct Hk as [_ Hk]. assert (q <> vram) by (by eapply child_ne). rewrite lookup_insert_ne, Hv in Hk by done.
    destruct (h' !! vram) as [v'|]; [|done]. injection Hk as Hr. exists v'. unfold GetXSize, GetYSize in *. by rewrite Hr.
  - destruct D8 as (c & Hcs & Htop & Hx & Hy). rewrite (Hl _ D2). destruct (decide (cursor_sheet = q)) as [<-|Hn].
    + exists s'. assert (s = c) as -> by congruence. split_and!; [done|congruence|apply Hcur; done..].
    + exists c. destruct (Hnc ltac:(congruence)) as [-> ->]. done.
  - destruct D9 as (d & Hd & Hda & Hdx & Hdy). rewrite (Hl _ D3). destruct (decide (debug_info_sheet = q)) as [<-|Hn].
    + exists s'. assert (s = d) as -> by congruence. split_and!; [done|congruence|lia|lia].
    + by exists d.
  - intros r Hr. rewrite Ef in Hr. destruct (D10 r Hr) as (Hrl & Hrc & sr & Hsr & Hox & Hoy). split_and!; [done..|].
    rewrite (Hl _ Hrl), Eox, Eoy. destruct (decide (r = q)) as [->|].
    + exists s'. assert (s = sr) as -> by congruence. by rewrite Ex, Ey.
    + by exists sr.
Qed.

(** Moving a sheet to a place near the screen. *)
Lemma move_ok h q s nx ny : composed h vram l -> q ∈ l -> h !! q = Some s ->
  - 2 ^ 27 <= nx < 2 ^ 27 -> - 2 ^ 27 <= ny < 2 ^ 27 ->
  exists h', SetPosition q nx ny h = Done h' /\ composed h' vram l /\
    kept (<[q := set_rect (R nx ny (GetXSize s) (GetYSize s)) s]> h) h' vram.
Proof.
  intros Hc Hq Hs Hx Hy. apply SetPosition_composed; try done.
  destruct (composed_child h vram l q Hc Hq) as (s' & Hs' & Hok). assert (s' = s) as -> by congruence.
  destruct (sk_small _ Hok) as (_ & _ & Hw & Hh). unfold small, GetXSize, GetYSize. simpl. lia.
Qed.
Lemma show_buttons_ok me h s :
  drawable h vram l debug_info_sheet s -> 40 <= GetXSize s -> 48 <= GetYSize s ->
  exists b h', show_buttons font debug_info_sheet me h = Done h' /\ composed h' vram l /\ kept (<[debug_info_sheet := set_buf b s]> h) h' vram.
Proof.
  intros Hd Hx Hy. pose proof (drawable_ok _ _ _ _ _ Hd) as Hok. pose proof Hd as (_ & _ & Hs & _). destruct (sk_buf _ Hok) as (b0 & Eb & _).
  assert (array (buf_ s) = b0) as Ea by (by rewrite Eb).
  assert (<[debug_info_sheet := set_buf b0 s]> h = h) as E0 by (apply insert_id; rewrite Hs; f_equal; destruct s; cbn in *; by subst).
  unfold show_buttons.
  destruct (DrawCharacter_silent font (if buttonL me then 76 else 108) 16 32 h debug_info_sheet s b0 Hok) as (b1 & E1 & H1); [congruence|lia..|].
  rewrite E0 in E1. rewrite E1.
  cbn [rbind].
  destruct (DrawCharacter_silent font (if buttonC me then 67 else 99) 24 32 h debug_info_sheet s b1 Hok) as (b2 & -> & H2); [congruence|lia..|].
  cbn [rbind].
  destruct (DrawCharacter_silent font (if buttonR me then 82 else 114) 32 32 h debug_info_sheet s b2 Hok) as (b3 & -> & H3); [congruence|lia..|].
  cbn [rbind]. exists b3. apply (Flush_all_ok h vram l debug_info_sheet s b3 Hd). congruence.
Qed.

Lemma fix_ok px py v W H : GetXSize v = W -> GetYSize v = H -> 0 < W < 2 ^ 27 -> 0 < H < 2 ^ 27 ->
  FixPositionInVRAM px py v = (clamp W px, clamp H py).
Proof.
  intros <- <- HW HH. unfold FixPositionInVRAM, clamp. rewrite !i32_small by lia. destruct (Z.ltb_spec px 0), (Z.ltb_spec py 0); apply f_equal2; zcmps; lia.
Qed.
Lemma clamp_range n v : 0 < n -> 0 <= clamp n v < n.
Proof. unfold clamp. lia. Qed.

Lemma screen_size W H st h : desk W H st h -> 0 < W < 2 ^ 27 /\ 0 < H < 2 ^ 27.
Proof.
  intros D. destruct (dk_vram _ _ _ _ D) as (v & Hv & <- & <-). destruct (composed_parent _ _ _ (dk_composed _ _ _ _ D)) as (v' & Hv' & Hok & _).
  assert (v' = v) as -> by congruence. destruct (sk_small _ Hok) as (_ & _ & H1 & H2). pose proof (dk_mx _ _ _ _ D). pose proof (dk_my _ _ _ _ D).
  unfold GetXSize, GetYSize in *. lia.
Qed.
(** The window that has the focus goes where the mouse is. *)
Definition pulled (st : manager) (r : nat) (a : rect) : rect :=
  if decide (focused st = Some r) then R (mx st - focused_ofs_x st) (my st - focused_ofs_y st) (xsize a) (ysize a) else a.
Lemma pull_ok W H st h : desk W H st h ->
  exists h', match focused st with
    | None => Done (st, h)
    | Some q => do h <- SetPosition q (i32 (mx st - focused_ofs_x st)) (i32 (my st - focused_ofs_y st)) h; Done (st, h)
    end = Done (st, h') /\ desk W H st h' /\ dragged st h' /\ laid_out h h' (pulled st).
Proof.
  intros D. unfold pulled. destruct (focused st) as [q|] eqn:Ef.
  2:{ exists h. split_and!; [done|done|intros q s Hq; congruence|]. intros r s _ Hs. by exists s. }
  destruct (screen_size _ _ _ _ D) as [HW HH]. pose proof (dk_mx _ _ _ _ D) as Hmx. pose proof (dk_my _ _ _ _ D) as Hmy.
  destruct (dk_focus _ _ _ _ D q Ef) as (Hq & Hqc & s & Hs & Hox & Hoy).
  destruct (composed_child h vram l q (dk_composed _ _ _ _ D) Hq) as (s0 & Hs0 & Hok). assert (s0 = s) as -> by congruence.
  destruct (sk_small _ Hok) as (_ & _ & Hw & Hh). unfold GetXSize, GetYSize in *.
  rewrite !i32_small by lia.
  destruct (move_ok h q s (mx st - focused_ofs_x st) (my st - focused_ofs_y st)) as (h' & -> & Hc' & Hk); [apply D|done|done|lia|lia|].
  exists h'. split_and!; [done| | |].
  - eapply (desk_change W H st st h h' q s); try done; by apply D.
  - intros r sr Hr Hsr. assert (r = q) as -> by congruence. rewrite (kept_lookup _ _ _ _ _ Hk) in Hsr by (eapply child_ne; [apply D|done]).
    rewrite decide_True in Hsr by done. by injection Hsr as <-.
  - intros r sr Hr Hsr. destruct (kept_laid_out h q s _ h' (dk_composed _ _ _ _ D) Hs Hk eq_refl eq_refl r sr Hr Hsr) as (s' & E & R & T & L).
    exists s'. split_and!; [done| |done|done]. rewrite R. destruct (decide (r = q)) as [->|Hne]; [|by rewrite decide_False by congruence].
    rewrite decide_True by done. assert (sr = s) as -> by congruence. done.
Qed.
(** A window is taken at the cursor. *)
Lemma focus_ok W H st h q s : desk W H st h -> q ∈ l -> h !! q = Some s -> is_topmost_ s = false ->
  GetX s <= mx st < GetX s + GetXSize s -> GetY s <= my st < GetY s + GetYSize s ->
  desk W H (Mgr (mx st) (my st) (last_left_button_state st) (Some q) (mx st - GetX s) (my st - GetY s)) h.
Proof.
  intros [D1 D2 D3 D4 D5 D6 D7 D8 D9 D10] Hq Hs Ht Hx Hy. split; try done. intros q' [= <-]. split_and!; [done| |].
  - intros ->. destruct D8 as (c & Hcs & Htop & _). congruence.
  - exists s. split; [done|]. cbn [focused_ofs_x focused_ofs_y]. lia.
Qed.
Lemma drag_ok W H me st h : desk W H st h ->
  exists st' h', drag vram me st h = Done (st', h') /\ desk W H st' h' /\ dragged st' h' /\ mx st' = mx st /\ my st' = my st /\
    laid_out h h' (pulled st') /\ (buttonL me = false -> focused st' = None) /\
    (buttonL me = true -> last_left_button_state st = true -> st' = st) /\
    (buttonL me = true -> last_left_button_state st = false -> window_at h l (mx st) (my st) (focused st') /\
      forall q s, focused st' = Some q -> h !! q = Some s -> focused_ofs_x st' = mx st - GetX s /\ focused_ofs_y st' = my st - GetY s).
Proof.
  intros D. unfold drag. destruct (buttonL me).
  2:{ eexists _, h. split; [done|]. split_and!; try done; [by destruct D|]. intros r s _ Hs. exists s. unfold pulled. by rewrite decide_False by done. }
  destruct (last_left_button_state st) eqn:Elast.
  { cbn [rbind]. destruct (pull_ok W H st h D) as (h' & E & D' & Hd & Hlo). exists st, h'. by split_and!. }
  destruct (composed_parent h vram l (dk_composed _ _ _ _ D)) as (v & Hv & _ & Hch & Hsz).
  unfold FindWindowAtPosition, get. rewrite Hv. cbn [deref rbind].
  destruct (find_window_exact h (mx st) (my st) l (S (size h)) (bottom_child_ v) None) as (r & Hr & ->); [|done|lia|].
  { intros q Hq. destruct (composed_child h vram l q (dk_composed _ _ _ _ D) Hq) as (s & Hs & Hok). exists s. split; [done|]. apply small_moderate, Hok. }
  cbn [rbind]. destruct r as [q|].
  2:{ cbn [rbind focused]. eexists _, h. split; [done|]. split_and!; try done; [by destruct D|]. intros r s _ Hs. exists s. unfold pulled. by rewrite decide_False by done. }
  pose proof Hr as (below & above & Ew & (s & Hs & Hlk & Hx & Hy) & _). rewrite Hs. cbn [deref rbind].
  destruct (windows_in h l q) as [Hq Htop]; [rewrite Ew; apply elem_of_app; right; by left|]. unfold topmost_in in Htop. rewrite Hs in Htop.
  destruct (composed_child h vram l q (dk_composed _ _ _ _ D) Hq) as (s0 & Hs0 & Hok). assert (s0 = s) as -> by congruence.
  pose proof (sk_small _ Hok) as Hsm. destruct (screen_size _ _ _ _ D) as [HW HH]. pose proof (dk_mx _ _ _ _ D) as Hmx. pose proof (dk_my _ _ _ _ D) as Hmy.
  pose proof (focus_ok W H st h q s D Hq Hs Htop Hx Hy) as D1. unfold small in Hsm. rewrite !i32_small by (unfold GetX, GetY; lia).
  rewrite Elast in *. set (st1 := Mgr _ _ _ _ _ _) in *.
  destruct (pull_ok W H st1 h D1) as (h' & E & D' & Hd & Hlo). exists st1, h'. split; [exact E|]. split_and!; try done.
  intros _ _. split; [exact Hr|]. intros q' s' [= <-] Hs'. assert (s' = s) as -> by congruence. done.
Qed.
(** The cursor was moved, the window pulled and the buttons drawn. *)
Lemma event_places W H st2 h h1 h2 h3 c s b :
  composed h vram l -> h !! cursor_sheet = Some c ->
  kept (<[cursor_sheet := set_rect (R (mx st2) (my st2) (GetXSize c) (GetYSize c)) c]> h) h1 vram -> laid_out h1 h2 (pulled st2) ->
  desk W H st2 h2 -> h2 !! debug_info_sheet = Some s -> kept (<[debug_info_sheet := set_buf b s]> h2) h3 vram -> laid_out h h3 (place st2).
Proof.
  intros Hcm Hc Hk1 Hlo2 D2 Hs Hk3. pose proof (kept_laid_out h cursor_sheet c _ h1 Hcm Hc Hk1 eq_refl eq_refl) as L1.
  assert (laid_out h2 h3 (fun _ a => a)) as L3.
  { intros r sr Hr Hsr. destruct (kept_laid_out h2 debug_info_sheet s _ h3 (dk_composed _ _ _ _ D2) Hs Hk3 eq_refl eq_refl r sr Hr Hsr) as (s' & E & R & T & L).
    exists s'. split_and!; [done| |done|done]. rewrite R. case_decide as Er; [|done]. subst r. cbn. congruence. }
  intros r sr Hr Hsr. destruct (laid_out_trans _ _ _ _ _ (laid_out_trans _ _ _ _ _ L1 Hlo2) L3 r sr Hr Hsr) as (s' & E & R & T).
  exists s'. split; [done|]. split; [|done]. rewrite R. unfold place, pulled.
  destruct (decide (r = cursor_sheet)) as [->|Hne]; [|done]. rewrite decide_False by (intros Hf; destruct (dk_focus _ _ _ _ D2 _ Hf) as (_ & ? & _); done).
  assert (sr = c) as -> by congruence. done.
Qed.
Lemma manage_ok W H me st h : event_ok me -> desk W H st h ->
  exists st' h', manage font vram cursor_sheet debug_info_sheet me (st, h) = Done (st', h') /\ desk W H st' h' /\ dragged st' h' /\
    moved W H me st h st' h'.
Proof.
  intros He D. destruct (screen_size _ _ _ _ D) as [HW HH]. unfold manage, get. destruct (dk_vram _ _ _ _ D) as (v & Hv & EW & EH). rewrite Hv. cbn [deref rbind].
  pose proof (dk_mx _ _ _ _ D) as Hmx. pose proof (dk_my _ _ _ _ D) as Hmy. destruct He as [Hdx Hdy].
  unfold MoveMouseCursor. rewrite (fix_ok _ _ v W H EW EH HW HH), !i32_small by lia.
  set (x1 := clamp W (mx st + dx me)). set (y1 := clamp H (my st + dy me)).
  assert (0 <= x1 < W) as Hx by (apply clamp_range; lia). assert (0 <= y1 < H) as Hy by (apply clamp_range; lia).
  destruct (dk_top _ _ _ _ D) as (c & Hc & Htop & _). pose proof (dk_cursor _ _ _ _ D) as Hcl.
  destruct (move_ok h cursor_sheet c x1 y1) as (h1 & -> & Hc1 & Hk1); [apply D|done|done|lia|lia|]. cbn [rbind].
  set (st1 := Mgr x1 y1 _ _ _ _).
  assert (desk W H st1 h1) as D1 by (by eapply (desk_change W H st st1 h h1 cursor_sheet c)).
  destruct (drag_ok W H me st1 h1 D1) as (st2 & h2 & -> & D2 & Hd2 & Ex & Ey & Hlo2 & Hup & Hheld & Hdown). cbn [rbind].
  destruct (dk_info _ _ _ _ D2) as (s & Hs & Hal & Hsx & Hsy).
  destruct (show_buttons_ok me h2 s) as (b & h3 & -> & Hc3 & Hk3); [|done|done|].
  { split_and!; [apply D2|apply D2|done|done]. }
  cbn [rbind]. eexists _, h3. split; [done|]. split; [|split; [|split; cbn [mx my last_left_button_state focused focused_ofs_x focused_ofs_y]; try done]].
  - eapply (desk_change W H st2 _ h2 h3 debug_info_sheet s (set_buf b s)); try done; try apply D2.
    intros Eq. exfalso. by apply (dk_ne _ _ _ _ D2).
  - intros q sq Hq Hsq. cbn [focused mx my focused_ofs_x focused_ofs_y] in *.
    destruct (dk_focus _ _ _ _ D2 q Hq) as (Hql & _ & s2 & Hs2 & _).
    rewrite (kept_lookup _ _ _ _ _ Hk3) in Hsq by (eapply child_ne; [apply D2|done]).
    destruct (decide (q = debug_info_sheet)) as [->|]; [|by apply (Hd2 q)].
    injection Hsq as <-. assert (s2 = s) as -> by congruence. exact (Hd2 _ s Hq Hs2).
  - intros Hb Hl. rewrite (Hheld Hb Hl). done.
  - intros Hb Hl. destruct (Hdown Hb Hl) as [Hw Ho]. cbn [st1 mx my] in Hw, Ho. rewrite Ex, Ey. cbn [st1 mx my].
    assert (forall q, q ∈ l -> q <> cursor_sheet -> h1 !! q = h !! q) as Hsame.
    { intros q Hq Hne. rewrite (kept_lookup _ _ _ _ _ Hk1) by (eapply child_ne; [apply D|done]). by rewrite decide_False. }
    split.
    + eapply window_at_cursor; [|exact Hsame| |exact Hw]; unfold topmost_in; [by rewrite Hc|].
      destruct (dk_top _ _ _ _ D1) as (c1 & -> & ? & _). done.
    + intros q sq Hq Hsq. destruct (dk_focus _ _ _ _ D2 q Hq) as (Hql & Hqc & _). apply (Ho q sq Hq). by rewrite Hsame.
  - apply (event_places W H st2 h h1 h2 h3 c s b); try done; [apply D|by rewrite Ex, Ey].
Qed.
(** The events one after the other. *)
Fixpoint all_moved (W H : Z) (events : list MouseEvent) (st : manager) (h : gmap nat Sheet) (st' : manager) (h' : gmap nat Sheet) : Prop :=
  match events with
  | [] => st' = st /\ h' = h
  | me :: events' => exists st1 h1, moved W H me st h st1 h1 /\ desk W H st1 h1 /\ all_moved W H events' st1 h1 st' h'
  end.
End Desktop.

(** C26: the desktop under the mouse. Whatever events the mouse sends, its manager
    does not fail, and after each of them: the cursor has moved by the event, as far
    as the screen goes, with the cursor's sheet, on top, at its place; when the left
    button goes down over a window, the topmost window under the cursor that is not
    locked is taken at the point where the cursor is, and none if there is none; it
    follows the cursor at that point as long as the button is down, and is dropped
    when it goes up; no other sheet moves; the screen stays composed of its
    sheets. *)
Theorem mouse_desktop font vram cursor_sheet debug_info_sheet l W H events st h :
  Forall event_ok events -> desk vram cursor_sheet debug_info_sheet l W H st h -> dragged st h ->
  exists st' h', foldM (manage font vram cursor_sheet debug_info_sheet) events (st, h) = Done (st', h') /\
    all_moved vram cursor_sheet debug_info_sheet l W H events st h st' h' /\
    desk vram cursor_sheet debug_info_sheet l W H st' h' /\ dragged st' h'.
Proof.
  intros He. revert st h. induction He as [|e events He _ IH]; intros st h D Hd; [by exists st, h|]. cbn [foldM].
  destruct (manage_ok font vram cursor_sheet debug_info_sheet l W H e st h He D) as (st1 & h1 & -> & D1 & Hd1 & Hm). cbn [rbind].
  destruct (IH st1 h1 D1 Hd1) as (st' & h' & E & Ha & D' & Hd'). exists st', h'. split_and!; try done. by exists st1, h1.
Qed.

(** A screen of 64 by 64 with one window on it, below a transparent cursor. *)
Definition demo_pixels : list Z := replicate 4096 0.
Definition demo_window : Sheet := MkSheet (Some 0%nat) (Some 2%nat) None (Some demo_pixels) None (R 0 0 64 64) 64 false false false.
Definition demo_cursor : Sheet := MkSheet (Some 0%nat) None None (Some (replicate 64 0)) None (R 50 50 8 8) 8 true true false.
Definition demo_vram : Sheet :=
  MkSheet None None (Some 1%nat) (Some demo_pixels) (Some (replicate 4096 (Some 1%nat))) (R 0 0 64 64) 64 false false false.
Definition demo_desk : gmap nat Sheet := <[0%nat := demo_vram]> (<[1%nat := demo_window]> {[2%nat := demo_cursor]}).
Lemma demo_sheets_ok : sheet_ok demo_window /\ sheet_ok demo_cursor /\ sheet_ok demo_vram.
Proof.
  split_and!; (split; [apply (bool_decide_unpack _); vm_compute; exact I|simpl; lia|eexists; split; reflexivity|reflexivity]).
Qed.
Lemma demo_transparent px py : opaque demo_cursor px py = false.
Proof.
  unfold opaque. destruct (IsPointInRect _ _ _); [|done]. cbn [is_alpha_enabled_ demo_cursor negb orb andb].
  unfold pixel. cbn [buf_ demo_cursor]. change (array (Some ?a)) with a. destruct (replicate 64 0 !! _) as [c|] eqn:E; [|done].
  by apply lookup_replicate in E as [-> _].
Qed.
Lemma demo_composed : composed demo_desk 0 [1%nat; 2%nat].
Proof.
  exists demo_vram, (replicate 4096 (Some 1%nat)), demo_pixels. destruct demo_sheets_ok as (K1 & K2 & K3).
  assert (forall px py, in_client demo_vram px py -> (at_ 64 px py < 4096)%nat) as Hat.
  { intros px py [Hx Hy]. unfold GetXSize, GetYSize in *. simpl in *. apply (at_lt 64 64); lia. }
  assert (forall px py, in_client demo_vram px py -> top_at demo_desk [1%nat; 2%nat] px py = Some 1%nat) as Ht.
  { intros px py [Hx Hy]. cbn [top_at]. change (demo_desk !! 2%nat) with (Some demo_cursor). cbv iota beta. rewrite demo_transparent.
    change (demo_desk !! 1%nat) with (Some demo_window). unfold opaque. cbn [is_alpha_enabled_ demo_window negb orb].
    rewrite andb_true_r. by rewrite point_in by (unfold moderate, GetXSize, GetYSize in *; simpl in *; lia). }
  split_and!.
  - split; try done.
    + split; [done|]. exists demo_window. split; [done|]. split; [done|]. by exists demo_cursor.
    + apply (bool_decide_unpack _). vm_compute. exact I.
    + intros q Hq. apply elem_of_cons in Hq as [->|Hq]; [by exists demo_window|]. apply list_elem_of_singleton in Hq as ->. by exists demo_cursor.
  - intros px py Hin. rewrite Ht by done. apply lookup_replicate_2. exact (Hat px py Hin).
  - intros px py Hin q s Hq Hs. rewrite Ht in Hq by done. injection Hq as <-. change (demo_desk !! 1%nat) with (Some demo_window) in Hs. injection Hs as <-.
    unfold pixel, GetX, GetY, demo_window. cbn [rect_ x y buf_ pixels_per_scan_line_]. rewrite !Z.sub_0_r. change (array (Some demo_pixels)) with demo_pixels.
    unfold demo_pixels. change (GetXSize demo_vram) with 64. done.
Qed.
Lemma mouse_desktop_witness :
  exists st' h', foldM (manage (fun _ _ => 0) 0 2 1) [Event true false false 5 3; Event true false true 100 (-128); Event false false false 1 1]
      (new_manager, demo_desk) = Done (st', h') /\ desk 0 2 1 [1%nat; 2%nat] 64 64 st' h' /\
    exists st1 h1, moved 2 [1%nat; 2%nat] 64 64 (Event true false false 5 3) new_manager demo_desk st1 h1 /\ mx st1 = 55 /\ my st1 = 53.
Proof.
  destruct (mouse_desktop (fun _ _ => 0) 0 2 1 [1%nat; 2%nat] 64 64
    [Event true false false 5 3; Event true false true 100 (-128); Event false false false 1 1] new_manager demo_desk) as (st' & h' & E & Ha & D & _).
  - repeat constructor; simpl; lia.
  - split; try (simpl; lia); try discriminate.
    + apply demo_composed.
    + right. left.
    + left.
    + exists demo_vram. split; [reflexivity|split; reflexivity].
    + exists demo_cursor. split; [reflexivity|split; [reflexivity|split; reflexivity]].
    + exists demo_window. split; [reflexivity|split; [reflexivity|split; vm_compute; discriminate]].
  - intros q s Hq. discriminate Hq.
  - exists st', h'. split; [exact E|split; [exact D|]]. destruct Ha as (st1 & h1 & Hm & _). exists st1, h1. split; [exact Hm|].
    rewrite (mv_x _ _ _ _ _ _ _ _ _ Hm), (mv_y _ _ _ _ _ _ _ _ _ Hm). split; reflexivity.
Defined.
