(* ===== verification/Pci.v ===== *)
(** * The PCI bus: [src/pci.h], [src/pci.cc]

    The configuration space is read and written through an address and a data
    port.  What is behind the ports is not part of the program: a state with a
    read and a write function of a selected register, about which the theorems
    state what they need. *)

From S2P Require Import Prelude KernelBase.
#[global] Open Scope Z_scope.

Record DeviceLocation := Loc { bus : Z; device : Z; func : Z }.
Record DeviceIdent := Ident { id_vendor : Z; id_device : Z }.
#[global] Instance DeviceLocation_eq_dec : EqDecision DeviceLocation.
Proof. solve_decision. Defined.
#[global] Instance DeviceIdent_eq_dec : EqDecision DeviceIdent.
Proof. solve_decision. Defined.
Definition HasID (i : DeviceIdent) (vendor_id device_id : Z) : bool := (id_vendor i =? vendor_id) && (id_device i =? device_id).
(** A field outside the bits it has. *)
Definition has_bits_outside (v mask : Z) : bool := negb (Z.land v (u32 (Z.lnot mask)) =? 0).
(** The word written to the address port. *)
Definition SelectRegister (bus device func reg : Z) : res Z :=
  run kassert (negb (has_bits_outside bus 255));
  run kassert (negb (has_bits_outside device 31));
  run kassert (negb (has_bits_outside func 7));
  run kassert (negb (has_bits_outside reg 252));
  Done (Z.lor (Z.lor (Z.lor (Z.lor (Z.shiftl 1 31) (Z.shiftl bus 16)) (Z.shiftl device 11)) (Z.shiftl func 8)) reg).

Section Bus.
(** [S]: the state of the bus; [inl32], [outl32]: reading and writing the data
    port with the word [a] in the address port. *)
Context {S : Type} (inl32 : Z -> S -> Z) (outl32 : Z -> Z -> S -> S).

Definition ReadConfigRegister32 (l : DeviceLocation) (reg : Z) (s : S) : res Z :=
  do a <- SelectRegister (bus l) (device l) (func l) reg; Done (inl32 a s).
Definition ReadConfigRegister8 (l : DeviceLocation) (reg : Z) (s : S) : res Z :=
  do a <- SelectRegister (bus l) (device l) (func l) (Z.land reg 252);
  Done (Z.land (Z.shiftr (inl32 a s) (Z.land reg 3)) 255).
Definition ReadConfigRegister64 (l : DeviceLocation) (reg : Z) (s : S) : res Z :=
  do lo <- ReadConfigRegister32 l reg s;
  do hi <- ReadConfigRegister32 l (u32 (reg + 4)) s;
  Done (Z.lor lo (Z.shiftl hi 32)).
Definition WriteConfigRegister32 (l : DeviceLocation) (reg value : Z) (s : S) : res S :=
  do a <- SelectRegister (bus l) (device l) (func l) reg; Done (outl32 a value s).
Definition WriteConfigRegister64 (l : DeviceLocation) (reg value : Z) (s : S) : res S :=
  do s <- WriteConfigRegister32 l reg (u32 value) s;
  WriteConfigRegister32 l (u32 (reg + 4)) (u32 (Z.shiftr value 32)) s.

(** ** Detection *)

Definition kPCIInvalidVendorID : Z := 0xffffffff.
Abbreviation device_list := (list (DeviceIdent * DeviceLocation)).
Definition ident_of (id : Z) : DeviceIdent := Ident (Z.land id 0xFFFF) (u16 (Z.shiftr id 16)).
Definition DetectDevice (b d f : Z) (s : S) (found : device_list) : res (bool * device_list) :=
  do id <- ReadConfigRegister32 (Loc b d f) 0 s;
  if id =? kPCIInvalidVendorID then Done (false, found)
  else Done (true, found ++ [(ident_of id, Loc (u8 b) (u8 d) (u8 f))]).
(** The functions of a device from [f] on. *)
Fixpoint detect_funcs (k : nat) (b d f : Z) (s : S) (found : device_list) : res device_list :=
  match k with
  | O => Done found
  | Datatypes.S k' => do '(_, found) <- DetectDevice b d f s found; detect_funcs k' b d (f + 1) s found
  end.
Definition detect_slot (b d : Z) (s : S) (found : device_list) : res device_list :=
  do '(there, found) <- DetectDevice b d 0 s found;
  if negb there then Done found
  else
    do header <- ReadConfigRegister32 (Loc b d 0) 12 s;
    if Z.land header (Z.shiftl 1 23) =? 0 then Done found
    else detect_funcs 7 b d 1 s found.
Fixpoint detect_slots (k : nat) (b d : Z) (s : S) (found : device_list) : res device_list :=
  match k with
  | O => Done found
  | Datatypes.S k' => do found <- detect_slot b d s found; detect_slots k' b (d + 1) s found
  end.
Fixpoint detect_buses (k : nat) (b : Z) (s : S) (found : device_list) : res device_list :=
  match k with
  | O => Done found
  | Datatypes.S k' => do found <- detect_slots 32 b 0 s found; detect_buses k' (b + 1) s found
  end.
(** [bus < 0xFF] *)
Definition DetectDevices (s : S) (found : device_list) : res device_list := detect_buses 255 0 s found.

(** ** Registers of a device *)

Definition EnsureBusMasterEnabled (l : DeviceLocation) (s : S) : res S :=
  do cmd_and_status <- ReadConfigRegister32 l 4 s;
  let cmd_and_status := Z.lor cmd_and_status (Z.shiftl 1 10) in
  do s <- WriteConfigRegister32 l 4 cmd_and_status s;
  run kassert (negb (Z.land cmd_and_status (Z.shiftl 1 2) =? 0));
  Done s.
Definition GetBARForIO (l : DeviceLocation) (s : S) : res Z :=
  do bar_raw_val <- ReadConfigRegister32 l 16 s;
  run kassert (Z.land bar_raw_val 3 =? 1);
  Done (u16 (Z.land bar_raw_val (u64 (Z.lnot 3)))).
Definition kPCIBARMaskAddr : Z := u64 (Z.lnot 15).
(** The address and the size. *)
Definition GetBAR64 (l : DeviceLocation) (s : S) : res (Z * Z * S) :=
  do bar_raw_val <- ReadConfigRegister64 l 16 s;
  do s <- WriteConfigRegister64 l 16 (u64 (Z.lnot 0)) s;
  do v <- ReadConfigRegister64 l 16 s;
  let base_addr_size_mask := Z.land v kPCIBARMaskAddr in
  let base_addr_size := u64 (u64 (Z.lnot base_addr_size_mask) + 1) in
  do s <- WriteConfigRegister64 l 16 bar_raw_val s;
  run kassert (Z.land bar_raw_val 7 =? 4);
  Done (Z.land bar_raw_val kPCIBARMaskAddr, base_addr_size, s).
End Bus.
(** [FindVirtioNet] of virtio_net.cc *)
Fixpoint FindVirtioNet (l : list (DeviceIdent * DeviceLocation)) : option DeviceLocation :=
  match l with
  | [] => None
  | (i, loc) :: l' => if HasID i 0x1af4 0x1000 then Some loc else FindVirtioNet l'
  end.

(** ** Detection finds the devices *)

Definition config_addr (l : DeviceLocation) (reg : Z) : Z :=
  Z.lor (Z.lor (Z.lor (Z.lor (Z.shiftl 1 31) (Z.shiftl (bus l) 16)) (Z.shiftl (device l) 11)) (Z.shiftl (func l) 8)) reg.
Definition loc_ok (l : DeviceLocation) : Prop := 0 <= bus l < 256 /\ 0 <= device l < 32 /\ 0 <= func l < 8.
Lemma bits_inside n v : 0 <= v < n -> (n =? 256) || (n =? 32) || (n =? 8) = true -> has_bits_outside v (n - 1) = false.
Proof.
  intros Hv Hn. assert (forall k, (k = 256 \/ k = 32 \/ k = 8) -> forallb (fun v => negb (has_bits_outside v (k - 1))) (seqZ 0 k) = true) as H.
  { intros k [->|[->| ->]]; vm_compute; reflexivity. }
  assert (n = 256 \/ n = 32 \/ n = 8) as Hn' by lia. specialize (H n Hn'). rewrite forallb_forall in H.
  apply negb_true_iff, H. apply list_elem_of_In, elem_of_seqZ. lia.
Qed.
Lemma SelectRegister_ok l reg : loc_ok l -> has_bits_outside reg 252 = false ->
  SelectRegister (bus l) (device l) (func l) reg = Done (config_addr l reg).
Proof.
  intros (Hb & Hd & Hf) Hr. unfold SelectRegister.
  by rewrite (bits_inside 256), (bits_inside 32), (bits_inside 8), Hr by (done || reflexivity).
Qed.

Section Detect.
Context {S : Type} (inl32 : Z -> S -> Z) (s : S).

Definition id_at (l : DeviceLocation) : Z := inl32 (config_addr l 0) s.
Definition present (l : DeviceLocation) : bool := negb (id_at l =? kPCIInvalidVendorID).
Definition multi_function (b d : Z) : bool := negb (Z.land (inl32 (config_addr (Loc b d 0) 12) s) (Z.shiftl 1 23) =? 0).
(** The functions that answer. *)
Definition entry (l : DeviceLocation) : list (DeviceIdent * DeviceLocation) := if present l then [(ident_of (id_at l), l)] else [].
Definition slot (b d : Z) : list (DeviceIdent * DeviceLocation) :=
  if present (Loc b d 0) then
    entry (Loc b d 0) ++ (if multi_function b d then seqZ 1 7 ≫= fun f => entry (Loc b d f) else [])
  else [].
Definition all_slots : list (DeviceIdent * DeviceLocation) := seqZ 0 255 ≫= fun b => seqZ 0 32 ≫= slot b.

Lemma DetectDevice_ok b d f found : loc_ok (Loc b d f) ->
  DetectDevice inl32 b d f s found = Done (present (Loc b d f), found ++ entry (Loc b d f)).
Proof.
  intros Hl. unfold DetectDevice, ReadConfigRegister32. rewrite SelectRegister_ok by done. cbn [rbind].
  unfold entry, present. fold (id_at (Loc b d f)). destruct (_ =? _); cbn [negb]; [by rewrite app_nil_r|].
  destruct Hl as (Hb & Hd & Hf). cbn in Hb, Hd, Hf. by rewrite !u8_small by lia.
Qed.
Lemma detect_funcs_ok b d k : forall f found, 0 <= b < 256 -> 0 <= d < 32 -> 0 <= f -> f + Z.of_nat k <= 8 ->
  detect_funcs inl32 k b d f s found = Done (found ++ (seqZ f (Z.of_nat k) ≫= fun f => entry (Loc b d f))).
Proof.
  induction k as [|k IH]; intros f found Hb Hd Hf Hk; [by rewrite app_nil_r|]. cbn [detect_funcs].
  rewrite DetectDevice_ok by (unfold loc_ok; simpl; lia). cbn [rbind]. rewrite IH by lia.
  rewrite (seqZ_cons f) by lia. rewrite bind_cons, <- app_assoc.
  replace (Z.succ f) with (f + 1) by lia. by replace (Z.pred (Z.of_nat (Datatypes.S k))) with (Z.of_nat k) by lia.
Qed.
Lemma detect_slot_ok b d found : 0 <= b < 256 -> 0 <= d < 32 -> detect_slot inl32 b d s found = Done (found ++ slot b d).
Proof.
  intros Hb Hd. unfold detect_slot. assert (loc_ok (Loc b d 0)) as Hl by (unfold loc_ok; simpl; lia).
  rewrite DetectDevice_ok by done. cbn [rbind]. unfold slot, entry. destruct (present (Loc b d 0)); cbn [negb]; [|done].
  unfold ReadConfigRegister32. rewrite SelectRegister_ok by done. cbn [rbind]. unfold multi_function.
  destruct (_ =? 0); cbn [negb]; [by rewrite app_nil_r|]. rewrite detect_funcs_ok by lia. by rewrite <- app_assoc.
Qed.
Lemma detect_slots_ok b k : forall d found, 0 <= b < 256 -> 0 <= d -> d + Z.of_nat k <= 32 ->
  detect_slots inl32 k b d s found = Done (found ++ (seqZ d (Z.of_nat k) ≫= slot b)).
Proof.
  induction k as [|k IH]; intros d found Hb Hd Hk; [by rewrite app_nil_r|]. cbn [detect_slots].
  rewrite detect_slot_ok by lia. cbn [rbind]. rewrite IH by lia. rewrite (seqZ_cons d) by lia. rewrite bind_cons, <- app_assoc.
  replace (Z.succ d) with (d + 1) by lia. by replace (Z.pred (Z.of_nat (Datatypes.S k))) with (Z.of_nat k) by lia.
Qed.
Lemma detect_buses_ok k : forall b found, 0 <= b -> b + Z.of_nat k <= 256 ->
  detect_buses inl32 k b s found = Done (found ++ (seqZ b (Z.of_nat k) ≫= fun b => seqZ 0 32 ≫= slot b)).
Proof.
  induction k as [|k IH]; intros b found Hb Hk; [by rewrite app_nil_r|]. cbn [detect_buses].
  rewrite detect_slots_ok by lia. cbn [rbind]. rewrite IH by lia. rewrite (seqZ_cons b) by lia. rewrite bind_cons, <- app_assoc.
  replace (Z.succ b) with (b + 1) by lia. by replace (Z.pred (Z.of_nat (Datatypes.S k))) with (Z.of_nat k) by lia.
Qed.
Lemma elem_of_entry i l l' : (i, l) ∈ entry l' <-> l = l' /\ present l = true /\ i = ident_of (id_at l).
Proof.
  unfold entry. destruct (present l') eqn:E.
  - rewrite list_elem_of_singleton. split; [by intros [= -> ->]|by intros (-> & _ & ->)].
  - split; [by intros []%not_elem_of_nil|]. intros (-> & E' & _). congruence.
Qed.
Lemma elem_of_slots i l :
  (i, l) ∈ all_slots <-> 0 <= bus l < 255 /\ 0 <= device l < 32 /\ 0 <= func l < 8 /\ present l = true /\ i = ident_of (id_at l) /\
    (func l = 0 \/ present (Loc (bus l) (device l) 0) = true /\ multi_function (bus l) (device l) = true).
Proof.
  unfold all_slots. rewrite list_elem_of_bind. setoid_rewrite list_elem_of_bind. split.
  - intros (b & (d & Hin & Hd%elem_of_seqZ) & Hb%elem_of_seqZ). unfold slot in Hin.
    destruct (present (Loc b d 0)) eqn:Ep; [|by apply not_elem_of_nil in Hin]. apply elem_of_app in Hin as [Hin|Hin].
    + apply elem_of_entry in Hin as (-> & Hp & ->). cbn. split_and!; (done || lia || by left).
    + destruct (multi_function b d) eqn:Em; [|by apply not_elem_of_nil in Hin].
      apply list_elem_of_bind in Hin as (f & (-> & Hp & ->)%elem_of_entry & Hf%elem_of_seqZ). cbn. split_and!; try (done || lia). by right.
  - destruct l as [b d f]. cbn. intros (Hb & Hd & Hf & Hp & -> & Hor). exists b. split; [|apply elem_of_seqZ; lia].
    exists d. split; [|apply elem_of_seqZ; lia]. unfold slot. destruct (decide (f = 0)) as [->|Hn].
    + rewrite Hp. apply elem_of_app. left. by apply elem_of_entry.
    + destruct Hor as [|[-> ->]]; [done|]. apply elem_of_app. right. apply list_elem_of_bind. exists f.
      split; [by apply elem_of_entry|apply elem_of_seqZ; lia].
Qed.
End Detect.

(** The bus scan is exact. [DetectDevices] terminates without a failed
    assertion, and the list has an entry for a function exactly when the function
    answers, is on one of the buses 0 to 254, and is function 0 or belongs to a
    device whose function 0 answers and says it has several; the entry carries
    the vendor and device numbers read there. So [FindVirtioNet] finds a network
    card if and only if one is on those buses. *)
Theorem DetectDevices_exact {S} (inl32 : Z -> S -> Z) (s : S) :
  exists found, DetectDevices inl32 s [] = Done found /\
    (forall i l, (i, l) ∈ found <->
      0 <= bus l < 255 /\ 0 <= device l < 32 /\ 0 <= func l < 8 /\ present inl32 s l = true /\ i = ident_of (id_at inl32 s l) /\
      (func l = 0 \/ present inl32 s (Loc (bus l) (device l) 0) = true /\ multi_function inl32 s (bus l) (device l) = true)) /\
    (FindVirtioNet found = None <-> forall i l, (i, l) ∈ found -> HasID i 0x1af4 0x1000 = false).
Proof.
  exists (all_slots inl32 s). unfold DetectDevices. rewrite detect_buses_ok by lia. split_and!; [done|intros; apply elem_of_slots|].
  induction (all_slots inl32 s) as [|[i l] ds IH]; cbn [FindVirtioNet].
  { split; [|done]. intros _ i l []%not_elem_of_nil. }
  destruct (HasID i 0x1af4 0x1000) eqn:E.
  - split; [done|]. intros H. rewrite (H i l) in E; [done|by left].
  - rewrite IH. split; intros H i' l' Hin; [apply elem_of_cons in Hin as [[= -> ->]|Hin]; [done|by apply (H i' l')]|apply (H i' l'); by right].
Qed.

(** ** Base addresses *)

Section Bar.
Context {S : Type} (inl32 : Z -> S -> Z) (outl32 : Z -> Z -> S -> S) (l : DeviceLocation) (k flags : Z).

(** A 64-bit memory BAR of [2 ^ k] bytes at 0x10 and 0x14, as PCI has it: the
    address bits below the size and the type bits cannot be written. *)
Record bar64 : Prop := Bar64 {
  bar_lo : forall v s, inl32 (config_addr l 16) (outl32 (config_addr l 16) v s) = Z.lor (Z.land v (u32 (- 2 ^ k))) flags;
  bar_hi : forall v s, inl32 (config_addr l 20) (outl32 (config_addr l 20) v s) = Z.land v (u32 (Z.shiftr (- 2 ^ k) 32));
  bar_lo_hi : forall v s, inl32 (config_addr l 16) (outl32 (config_addr l 20) v s) = inl32 (config_addr l 16) s;
  bar_hi_lo : forall v s, inl32 (config_addr l 20) (outl32 (config_addr l 16) v s) = inl32 (config_addr l 20) s;
}.
(** What the two registers hold when the device is at [base]. *)
Definition bar_at (base : Z) (s : S) : Prop :=
  inl32 (config_addr l 16) s = Z.lor (u32 base) flags /\ inl32 (config_addr l 20) s = Z.shiftr base 32.
End Bar.

Lemma opp_pow_bit k i : 0 <= k -> 0 <= i -> Z.testbit (- 2 ^ k) i = (k <=? i).
Proof.
  intros Hk Hi. replace (- 2 ^ k) with (Z.lnot (Z.ones k)) by (rewrite Z.ones_equiv; unfold Z.lnot; lia).
  rewrite Z.lnot_spec, Z.testbit_ones_nonneg by lia. by rewrite Z.leb_antisym.
Qed.
Lemma wrap_bit w v i : 0 <= w -> Z.testbit (v mod 2 ^ w) i = (i <? w) && Z.testbit v i.
Proof.
  intros Hw. destruct (Z.ltb_spec i w); [by rewrite Z.mod_pow2_bits_low|]. by rewrite Z.mod_pow2_bits_high by lia.
Qed.
Lemma small_bits n v i : 0 <= n -> 0 <= v < 2 ^ n -> n <= i -> Z.testbit v i = false.
Proof. intros Hn Hv Hi. rewrite <- (Z.mod_small v (2 ^ n)) by lia. by apply Z.mod_pow2_bits_high; lia. Qed.
Lemma size_back k : 4 <= k < 64 -> u64 (u64 (Z.lnot (u64 (- 2 ^ k))) + 1) = 2 ^ k.
Proof.
  intros Hk. assert (2 ^ 4 <= 2 ^ k < 2 ^ 64) as Hp by (split; [apply Z.pow_le_mono_r|apply Z.pow_lt_mono_r]; lia).
  unfold u64, Z.lnot, Z.pred. revert Hp. generalize (2 ^ k). change (2 ^ 4) with 16. change (2 ^ 64) with 18446744073709551616. intros P HP.
  assert ((- P) mod 18446744073709551616 = 18446744073709551616 - P) as -> by zdiv. zdiv.
Qed.
Section BarBits.
Context (k flags base : Z) (Hk : 4 <= k < 64) (Hf : 0 <= flags < 16) (Hb : 0 <= base < 2 ^ 64) (Hal : base mod 2 ^ k = 0).

Lemma flags_bit i : 4 <= i -> Z.testbit flags i = false.
Proof. apply (small_bits 4); lia. Qed.
Lemma base_high i : 64 <= i -> Z.testbit base i = false.
Proof. apply (small_bits 64); lia. Qed.
Lemma base_low i : 0 <= i < k -> Z.testbit base i = false.
Proof. intros Hi. rewrite <- (Z.mod_pow2_bits_low base k i), Hal by lia. apply Z.bits_0. Qed.
Ltac split_bits := apply Z.bits_inj'; intros i Hi; unfold u64, u32;
  repeat first [rewrite Z.land_spec | rewrite Z.lor_spec | rewrite wrap_bit by lia | rewrite Z.lnot_spec by lia
               | rewrite Z.shiftr_spec by lia | rewrite Z.shiftl_spec by lia | rewrite opp_pow_bit by lia].
Lemma not15_bit i : 0 <= i -> Z.testbit kPCIBARMaskAddr i = (4 <=? i) && (i <? 64).
Proof.
  intros Hi. unfold kPCIBARMaskAddr, u64. rewrite wrap_bit, Z.lnot_spec by lia. change 15 with (Z.ones 4). rewrite Z.testbit_ones_nonneg by lia.
  rewrite <- Z.leb_antisym. apply andb_comm.
Qed.
Lemma ones_bit n i : 0 <= n -> 0 <= i -> Z.testbit (2 ^ n - 1) i = (i <? n).
Proof. intros. replace (2 ^ n - 1) with (Z.ones n) by (rewrite Z.ones_equiv; lia). by apply Z.testbit_ones_nonneg. Qed.
Lemma size_mask :
  Z.land (Z.lor (Z.lor (Z.land (2 ^ 32 - 1) (u32 (- 2 ^ k))) flags) (Z.shiftl (Z.land (2 ^ 32 - 1) (u32 (Z.shiftr (- 2 ^ k) 32))) 32)) kPCIBARMaskAddr
    = u64 (- 2 ^ k).
Proof.
  split_bits. rewrite not15_bit by lia. destruct (Z.leb_spec 4 i); cbn [andb].
  2:{ rewrite andb_false_r. destruct (Z.leb_spec k i); [lia|]. by rewrite andb_false_r. }
  rewrite flags_bit, orb_false_r, ones_bit by lia. destruct (Z.ltb_spec i 32); cbn [andb orb].
  - rewrite (Z.testbit_neg_r _ (i - 32)) by lia. rewrite orb_false_r. by rewrite andb_comm.
  - rewrite ones_bit, Z.shiftr_spec, opp_pow_bit by lia. replace (i - 32 + 32) with i by lia.
    destruct (Z.ltb_spec (i - 32) 32), (Z.ltb_spec i 64); lia.
Qed.
Definition raw : Z := Z.lor (Z.lor (u32 base) flags) (Z.shiftl (Z.shiftr base 32) 32).
Lemma raw_bit i : 0 <= i -> Z.testbit raw i = if i <? 4 then Z.testbit flags i else Z.testbit base i.
Proof.
  intros Hi. unfold raw, u32. rewrite !Z.lor_spec, wrap_bit, Z.shiftl_spec by lia. destruct (Z.ltb_spec i 4).
  - rewrite base_low, andb_false_r by lia. cbn [orb]. rewrite (Z.testbit_neg_r _ (i - 32)) by lia. by rewrite orb_false_r.
  - rewrite flags_bit, orb_false_r by lia. destruct (Z.ltb_spec i 32); cbn [andb orb].
    + rewrite (Z.testbit_neg_r _ (i - 32)) by lia. by rewrite orb_false_r.
    + rewrite Z.shiftr_spec by lia. by replace (i - 32 + 32) with i by lia.
Qed.
Lemma raw_base : Z.land raw kPCIBARMaskAddr = base.
Proof.
  apply Z.bits_inj'. intros i Hi. rewrite Z.land_spec, not15_bit, raw_bit by lia. destruct (Z.ltb_spec i 4).
  - rewrite (proj2 (Z.leb_gt 4 i)), andb_false_r by lia. by rewrite base_low by lia.
  - rewrite (proj2 (Z.leb_le 4 i)) by lia. cbn [andb]. destruct (Z.ltb_spec i 64); [by rewrite andb_true_r|]. by rewrite base_high by lia.
Qed.
Lemma raw_type : Z.land raw 7 = Z.land flags 7.
Proof.
  apply Z.bits_inj'. intros i Hi. rewrite !Z.land_spec, raw_bit by lia. destruct (Z.ltb_spec i 4); [done|].
  rewrite (small_bits 3 7 i) by lia. by rewrite !andb_false_r.
Qed.
Lemma raw_lo : Z.lor (Z.land (u32 raw) (u32 (- 2 ^ k))) flags = Z.lor (u32 base) flags.
Proof.
  split_bits. rewrite raw_bit by lia. destruct (Z.ltb_spec i 4).
  - rewrite base_low by lia. rewrite (proj2 (Z.leb_gt k i)) by lia. by rewrite !andb_false_r.
  - f_equal. destruct (i <? 32); [|done]. cbn [andb]. destruct (Z.leb_spec k i); [by rewrite andb_true_r|]. by rewrite base_low, andb_false_r by lia.
Qed.
Lemma raw_hi : Z.land (u32 (Z.shiftr raw 32)) (u32 (Z.shiftr (- 2 ^ k) 32)) = Z.shiftr base 32.
Proof.
  split_bits. rewrite raw_bit by lia. rewrite (proj2 (Z.ltb_ge (i + 32) 4)) by lia. destruct (Z.ltb_spec i 32); cbn [andb].
  - destruct (Z.leb_spec k (i + 32)); [by rewrite andb_true_r|]. by rewrite base_low, andb_false_r by lia.
  - by rewrite base_high by lia.
Qed.
End BarBits.

(** Measuring a BAR leaves it as it was. For a device whose 64-bit memory BAR
    behaves as PCI says, [GetBAR64] returns the address the device is at and the
    size of its area, and afterwards the two registers hold what they held
    before. *)
Theorem GetBAR64_measures {S} (inl32 : Z -> S -> Z) (outl32 : Z -> Z -> S -> S) l k flags base s :
  bar64 inl32 outl32 l k flags -> loc_ok l -> 4 <= k < 64 -> 0 <= flags < 16 -> Z.land flags 7 = 4 ->
  0 <= base < 2 ^ 64 -> base mod 2 ^ k = 0 -> bar_at inl32 l flags base s ->
  exists s', GetBAR64 inl32 outl32 l s = Done (base, 2 ^ k, s') /\ bar_at inl32 l flags base s'.
Proof.
  intros [B1 B2 B3 B4] Hl Hk Hf Hf4 Hb Hal [H1 H2]. unfold GetBAR64, ReadConfigRegister64, WriteConfigRegister64, ReadConfigRegister32, WriteConfigRegister32.
  change (u32 (16 + 4)) with 20. rewrite !SelectRegister_ok by done. cbn [rbind]. rewrite H1, H2. fold (raw flags base).
  change (u32 (u64 (Z.lnot 0))) with (2 ^ 32 - 1). change (u32 (Z.shiftr (u64 (Z.lnot 0)) 32)) with (2 ^ 32 - 1).
  rewrite B3, B1, B2. rewrite (size_mask k flags Hk Hf). rewrite (raw_base k flags base), (raw_type k flags base), Hf4 by done. cbn [Z.eqb kassert rbind].
  rewrite (size_back k Hk). eexists. split; [done|].
  split; [by rewrite B3, B1, (raw_lo k flags base)|by rewrite B2, (raw_hi k flags base)].
Qed.

(** A device at 00:02.0 whose BAR is 64 KiB: the state is what the two registers
    hold. *)
Definition demo_loc : DeviceLocation := Loc 0 2 0.
Definition demo_in (a : Z) (s : Z * Z) : Z := if a =? config_addr demo_loc 16 then s.1 else if a =? config_addr demo_loc 20 then s.2 else 0xffffffff.
Definition demo_out (a v : Z) (s : Z * Z) : Z * Z :=
  if a =? config_addr demo_loc 16 then (Z.lor (Z.land v (u32 (- 2 ^ 16))) 12, s.2)
  else if a =? config_addr demo_loc 20 then (s.1, Z.land v (u32 (Z.shiftr (- 2 ^ 16) 32))) else s.
Lemma GetBAR64_measures_witness :
  exists s', GetBAR64 demo_in demo_out demo_loc (0xFE01000C, 1) = Done (0x1FE010000, 65536, s') /\ bar_at demo_in demo_loc 12 0x1FE010000 s'.
Proof.
  apply (GetBAR64_measures demo_in demo_out demo_loc 16 12 0x1FE010000 (0xFE01000C, 1)).
  - split; reflexivity.
  - vm_compute. intuition discriminate.
  - lia.
  - lia.
  - reflexivity.
  - lia.
  - reflexivity.
  - split; reflexivity.
Defined.

(** Reading a byte shifts by its number instead of by eight times it: of the word
    0x0010B409 (capability 9, the next one at 0xB4) the second byte is not what is
    read. *)
Lemma next_capability_misread :
  ReadConfigRegister8 (fun _ _ => 0x0010B409) demo_loc 0x85 tt = Done 4 /\ Z.land (Z.shiftr 0x0010B409 8) 255 = 0xB4.
Proof. split; reflexivity. Qed.
