(* ===== verification/Persist.v ===== *)
(** * Persistent memory: [src/pmem.h], [src/pmem.cc], [src/execution_context.h],
    [src/execution_context.cc], [src/immintrin.h],
    [src/kernel_virtual_heap_allocator.h] and the persistent part of
    [src/process.cc]

    Memory is seen in 8-byte words, by physical address.  A store changes the
    volatile view; [clflush] writes the 64-byte line of an address back to the
    persistent memory; the processor may write back any line at any time.  A
    program yields the sequence of its stores and flushes, so that a power failure
    after any prefix of it can be considered.  The theorems: the object list and
    the selected execution context survive a power failure at every point. *)

From S2P Require Import Prelude KernelBase PhysPages Paging PagingProofs.
Import Generic.

(** ** Volatile and persistent memory *)

Inductive action := St (a v : Z) | Fl (a : Z).
Record pm := Pm { vol : Z -> Z; nvm : Z -> Z }.

Definition kCacheLineSize : Z := 64.
Definition line (a : Z) : Z := a / kCacheLineSize.
Definition upd (f : Z -> Z) (a v : Z) : Z -> Z := fun b => if b =? a then v else f b.
(** [_mm_clflush]; also what happens when a line is evicted. *)
Definition write_back (a : Z) (s : pm) : pm :=
  Pm (vol s) (fun b => if line b =? line a then vol s b else nvm s b).
Definition act (e : action) (s : pm) : pm :=
  match e with St a v => Pm (upd (vol s) a v) (nvm s) | Fl a => write_back a s end.

(** The states that can be reached by performing a sequence of actions, with
    evictions in between. *)
Inductive reach : pm -> list action -> pm -> Prop :=
| reach_nil s : reach s [] s
| reach_act s e tr s' : reach (act e s) tr s' -> reach s (e :: tr) s'
| reach_evict s a tr s' : reach (write_back a s) tr s' -> reach s tr s'.
(** What is in persistent memory when the power fails on the way. *)
Definition crash (s : pm) (tr : list action) (m : Z -> Z) : Prop :=
  exists tr1 tr2 s', tr = tr1 ++ tr2 /\ reach s tr1 s' /\ m = nvm s'.

(** ** Programs

    They read the volatile view; page tables are kept apart, as in [Paging]. *)

Record mem := Mem { words : Z -> Z; tabs : tables }.
Definition P (A : Type) : Type := mem -> res (A * mem * list action).
Definition pret {A} (a : A) : P A := fun s => Done (a, s, []).
Definition pbind {A B} (x : P A) (k : A -> P B) : P B := fun s =>
  do '(a, s1, t1) <- x s;
  do '(b, s2, t2) <- k a s1;
  Done (b, s2, t1 ++ t2).
Declare Scope pm_scope.
Delimit Scope pm_scope with pm.
Notation "'let*' x := c 'in' k" := (pbind c (fun x => k))
  (at level 10, x name, c at level 100, k at level 200) : pm_scope.
Notation "c ;* k" := (pbind c (fun _ => k)) (at level 100, right associativity) : pm_scope.
#[local] Open Scope pm_scope.

Definition lift {A} (r : res A) : P A := fun s => do a <- r; Done (a, s, []).
Definition passert (b : bool) : P unit := lift (kassert b).
Definition ld (a : Z) : P Z := fun s => Done (words s a, s, []).
Definition st (a v : Z) : P unit := fun s => Done (tt, Mem (upd (words s) a v) (tabs s), [St a v]).
Definition _mm_clflush (a : Z) : P unit := fun s => Done (tt, s, [Fl a]).

(** *** immintrin.h *)

(** [for (i = 0; i < size; i += 64)], [k] iterations left. *)
Fixpoint clflush_loop (k : nat) (a : Z) : P unit :=
  match k with
  | O => pret tt
  | S k' => _mm_clflush a ;* clflush_loop k' (a + kCacheLineSize)
  end.
Definition CLFlush_range (buf size : Z) : P unit := clflush_loop (Z.to_nat ((size + 63) / 64)) buf.
(** The number of flushes, added to the statistics. *)
Definition CLFlush_stat (buf size stat : Z) : P Z :=
  CLFlush_range buf size ;* pret (u64 (stat + (size + 63) / 64)).
(** Copies [n] words upwards. *)
Fixpoint copy_words (n : nat) (dst src : Z) : P unit :=
  match n with
  | O => pret tt
  | S n' => let* v := ld src in st dst v ;* copy_words n' (dst + 8) (src + 8)
  end.

(** ** pmem.h, pmem.cc *)

Module Pmem.
Definition kObjectSignature : Z := 0x4F50534F6D75696C.
Definition kSignature : Z := 0x4D50534F6D75696C.

(** PersistentObjectHeader: [signature_] at 0, [id_] at 8, [num_of_pages_] at 16,
    [next_] at 24. *)
Definition sizeof_PersistentObjectHeader : Z := 32.
Definition Header_IsValid (h : Z) : P bool := let* s := ld h in pret (s =? kObjectSignature).
Definition Header_Init (h id num_of_pages : Z) : P unit :=
  st h (not64 kObjectSignature) ;*
  _mm_clflush h ;*
  st (h + 8) id ;*
  st (h + 16) num_of_pages ;*
  st (h + 24) 0 ;*
  st h kObjectSignature ;*
  _mm_clflush h.
Definition SetNext (h next : Z) : P unit :=
  let* v := Header_IsValid h in
  passert v ;*
  st (h + 24) next ;*
  _mm_clflush (h + 24).
Definition GetNext (h : Z) : P Z := ld (h + 24).
Definition GetObjectBase (h : Z) : Z := u64 (h + sizeof_PersistentObjectHeader).
Definition GetID (h : Z) : P Z := ld (h + 8).
Definition GetNumOfPages (h : Z) : P Z := ld (h + 16).

(** PersistentMemoryManager, at [self]: [page_idx_] at 0, [num_of_pages_] at 8,
    [head_] at 16, [last_persistent_process_info_] at 24, [sentinel_] at 32,
    [signature_] at 64. *)
Section Manager.
Context (self : Z).
Definition sizeof_PersistentMemoryManager : Z := 72.
Definition IsValid : P bool :=
  let* s := ld (self + 64) in
  let* h := ld (self + 16) in
  pret ((s =? kSignature) && negb (h =? 0)).
Definition SetHead (head : Z) : P unit :=
  st (self + 16) head ;*
  _mm_clflush (self + 16).
Definition AllocPages (num_of_pages_requested : Z) : P Z :=
  let* v := IsValid in
  passert v ;*
  let* head := ld (self + 16) in
  let* n := GetNumOfPages head in
  let next_page_idx := u64 (Z.shiftr (GetObjectBase head) kPageSizeExponent + n) in
  let* page_idx := ld self in
  let* num_of_pages := ld (self + 8) in
  passert (u64 (u64 (num_of_pages_requested + 1) + next_page_idx) <=? u64 (page_idx + num_of_pages)) ;*
  let h := u64 (u64 (Z.shiftl (next_page_idx + 1) kPageSizeExponent) - sizeof_PersistentObjectHeader) in
  let* id := GetID head in
  Header_Init h (u64 (id + 1)) num_of_pages_requested ;*
  SetNext h head ;*
  SetHead h ;*
  let* head := ld (self + 16) in
  pret (GetObjectBase head).
Definition AllocPersistentProcessInfo (size : Z) : P Z :=
  let* info := AllocPages (ByteSizeToPageSize size) in
  st (self + 24) info ;*
  _mm_clflush (self + 24) ;*
  ld (self + 24).
Definition GetLastPersistentProcessInfo : P Z := ld (self + 24).

(** The entries of the NFIT: whether the entry is an SPA range of persistent
    memory, its base and its length. *)
Record spa_range := SpaRange { is_persistent : bool; range_base : Z; range_length : Z }.
Fixpoint Init (nfit : list spa_range) : P unit :=
  match nfit with
  | [] => passert false
  | it :: nfit' =>
    if negb (is_persistent it) then Init nfit'
    else if negb (range_base it =? self) then Init nfit'
    else
      st (self + 64) (not64 kSignature) ;*
      st self (Z.shiftr self kPageSizeExponent) ;*
      st (self + 8) (Z.shiftr (range_length it) kPageSizeExponent) ;*
      st (self + 16) 0 ;*
      st (self + 24) 0 ;*
      st (self + 64) kSignature ;*
      CLFlush_range self sizeof_PersistentMemoryManager ;*
      Header_Init (self + 32) 0 0 ;*
      SetHead (self + 32)
  end.
Definition Manager_Init (nfit : list spa_range) : P unit :=
  passert (Z.land self kPageAddrMask =? 0) ;*
  Init nfit.
End Manager.
End Pmem.

(** ** execution_context.h, execution_context.cc *)

Module Context.
(** SegmentMapping: [vaddr_] at 0, [paddr_] at 8, [map_size_] at 16. *)
Definition Segment_Set (s vaddr paddr map_size : Z) : P unit :=
  st s vaddr ;* st (s + 8) paddr ;* st (s + 16) map_size ;* _mm_clflush s.
Definition Segment_Clear (s : Z) : P unit :=
  st (s + 8) 0 ;* st s 0 ;* st (s + 16) 0 ;* _mm_clflush s.
(** What is flushed is the address of the parameter, not of the field. *)
Definition SetPhysAddr (param_addr s paddr : Z) : P unit :=
  st (s + 8) paddr ;* _mm_clflush param_addr.
Definition AllocSegmentFromPersistentMemory (param_addr pmem s : Z) : P unit :=
  let* size := ld (s + 16) in
  let* a := Pmem.AllocPages pmem (ByteSizeToPageSize size) in
  SetPhysAddr param_addr s a.
Definition CopyDataFrom (s from stat : Z) : P Z :=
  let* size := ld (s + 16) in
  let* from_size := ld (from + 16) in
  passert (size =? from_size) ;*
  let* dst := ld (s + 8) in
  let* src := ld (from + 8) in
  copy_words (Z.to_nat (size / 8)) dst src ;*
  pret (u64 (stat + size)).

Section Flush.
Context (phys_addr_mask : Z).
(** The pages [FlushDirtyPages] names, flushed whole. *)
Fixpoint flush_pages (pages : list Z) (stat : Z) : P Z :=
  match pages with
  | [] => pret stat
  | p :: pages' => let* stat := CLFlush_stat p kPageSize stat in flush_pages pages' stat
  end.
Definition flush_dirty (pml4 vaddr byte_size stat : Z) : P Z := fun s =>
  do '(m, log) <- FlushDirtyPages phys_addr_mask (tabs s) pml4 vaddr byte_size;
  flush_pages log stat (Mem (words s) m).
Definition Segment_Flush (s pml4 stat : Z) : P Z :=
  let* vaddr := ld s in
  let* size := ld (s + 16) in
  flush_dirty pml4 vaddr size stat.

(** ExecutionContext: [cpu_context_] of 680 bytes with [cr3] at 0 and the
    interrupt frame [rip], [cs], [rflags], [rsp], [ss] from 128 on; the segments
    code, data, stack and heap from 680 on; [kernel_rsp_] at 776,
    [heap_used_size_] at 784. *)
Definition sizeof_CPUContext : Z := 680.
Definition sizeof_ExecutionContext : Z := 792.
Definition code (c : Z) : Z := c + 680.
Definition data (c : Z) : Z := c + 704.
Definition stack (c : Z) : Z := c + 728.
Definition heap (c : Z) : Z := c + 752.

(** ProcessMappingInfo::Flush: code, data and heap, not the stack. *)
Definition MappingInfo_Flush (c pml4 stat : Z) : P Z :=
  let* stat := Segment_Flush (code c) pml4 stat in
  let* stat := Segment_Flush (data c) pml4 stat in
  Segment_Flush (heap c) pml4 stat.
Definition MappingInfo_Clear (c : Z) : P unit :=
  Segment_Clear (code c) ;* Segment_Clear (data c) ;* Segment_Clear (stack c) ;* Segment_Clear (heap c).
Definition Context_Flush (c pml4 stat : Z) : P Z :=
  let* stat := MappingInfo_Flush c pml4 stat in
  CLFlush_stat c sizeof_ExecutionContext stat.
Definition AlignStack (c align : Z) : P unit :=
  if align =? 8 then let* rsp := ld (c + 152) in st (c + 152) (Z.land rsp (not64 3))
  else passert false.
Definition ExpandHeap (c diff : Z) : P unit :=
  let diff_abs := u64 (if diff <? 0 then i64 (- diff) else diff) in
  let* size := ld (heap c + 16) in
  if size <? diff_abs then lift (Stop Panic)
  else
    let* used := ld (c + 784) in
    st (c + 784) (u64 (used + diff)) ;*
    if size <? u64 (used + diff) then lift (Stop Panic) else pret tt.
Definition GetHeapEndVirtAddr (c : Z) : P Z :=
  let* used := ld (c + 784) in let* v := ld (heap c) in pret (u64 (used + v)).
Definition SetRegisters (c rip cs rsp ss cr3 rflags kernel_rsp : Z) : P unit :=
  st (c + 128) rip ;* st (c + 136) cs ;* st (c + 152) rsp ;* st (c + 160) ss ;*
  st (c + 144) (Z.lor rflags 2) ;* st c cr3 ;* st (c + 776) kernel_rsp ;* st (c + 784) 0.
Definition CopyContextFrom (c from stat : Z) : P Z :=
  let* cr3 := ld c in
  copy_words (Z.to_nat (sizeof_CPUContext / 8)) c from ;*
  st c cr3 ;*
  let* stat := CopyDataFrom (data c) (data from) stat in
  CopyDataFrom (stack c) (stack from) stat.

(** PersistentProcessInfo: two contexts, [valid_ctx_idx_] behind them at 1584,
    [signature_] at 1592. *)
Definition kNumOfExecutionContext : Z := 2.
Definition sizeof_PersistentProcessInfo : Z := 1600.
Definition kInfoSignature : Z := 0x4F50534F6D75696C.
Definition ctx_ (i idx : Z) : Z := i + sizeof_ExecutionContext * idx.
Definition Info_IsValid (i : Z) : P bool := let* s := ld (i + 1592) in pret (s =? kInfoSignature).
Definition Info_Init (i : Z) : P unit :=
  st (i + 1584) kNumOfExecutionContext ;* _mm_clflush (i + 1584) ;*
  st (i + 1592) kInfoSignature ;* _mm_clflush (i + 1592).
Definition GetContext (i idx : Z) : P Z :=
  passert ((0 <=? idx) && (idx <? kNumOfExecutionContext)) ;* pret (ctx_ i idx).
Definition GetValidContext (i : Z) : P Z :=
  let* v := ld (i + 1584) in
  passert ((0 <=? v) && (v <? kNumOfExecutionContext)) ;* pret (ctx_ i v).
Definition GetWorkingContext (i : Z) : P Z :=
  let* v := ld (i + 1584) in
  passert ((0 <=? v) && (v <? kNumOfExecutionContext)) ;* pret (ctx_ i (1 - v)).
Definition SetValidContextIndex (i idx : Z) : P unit :=
  st (i + 1584) idx ;* _mm_clflush (i + 1584).
(** The statistics: bytes copied, flushes issued. *)
Definition SwitchContext (i stat_copied_bytes stat_num_of_clflush : Z) : P (Z * Z) :=
  let* w := GetWorkingContext i in
  let* cr3 := ld w in
  let* stat_num_of_clflush := Context_Flush w cr3 stat_num_of_clflush in
  let* v := ld (i + 1584) in
  SetValidContextIndex i (1 - v) ;*
  let* w := GetWorkingContext i in
  let* v := GetValidContext i in
  let* stat_copied_bytes := CopyContextFrom w v stat_copied_bytes in
  pret (stat_copied_bytes, stat_num_of_clflush).

(** *** The persistent part of process.cc *)

Definition kKernelStackPagesForEachProcess : Z := 64.

Definition PrepareContextForRestoringPersistentProcess (kernel_pml4 kernel_stack c : Z) : P unit :=
  let* cr3 := ld c in
  (fun s => do m <- SetKernelPageEntries (tabs s) kernel_pml4 cr3; Done (tt, Mem (words s) m, [])) ;*
  st (c + 776) (u64 (kernel_stack + Z.shiftl kKernelStackPagesForEachProcess kPageSizeExponent)).
(** What is done to the contexts; [stack1], [stack2] are the kernel stacks
    allocated for them. *)
Definition RestoreFromPersistentProcessInfo (kernel_pml4 stack1 stack2 i : Z) : P unit :=
  let* v := GetValidContext i in
  let* w := GetWorkingContext i in
  CopyContextFrom w v 0 ;*
  PrepareContextForRestoringPersistentProcess kernel_pml4 stack1 v ;*
  PrepareContextForRestoringPersistentProcess kernel_pml4 stack2 w.
End Flush.
End Context.

(** ** kernel_virtual_heap_allocator.h *)

Module KernelHeap.
Definition kKernelHeapBaseAddr : Z := 0xFFFFFFFF90000000.
Definition kKernelHeapSize : Z := 0x40000000.
Section KernelHeap.
Context {A : Type} (AllocPage : A -> res (Z * A)) (phys_addr_mask : Z) (pml4_ : Z).
Record heap_allocator := HeapAllocator { next_base_ : Z; h_tables : tables; dram_allocator_ : A }.
Definition new_HeapAllocator (m : tables) (a : A) : heap_allocator := HeapAllocator kKernelHeapBaseAddr m a.
Definition MapPages (paddr num_of_pages page_attr : Z) (k : heap_allocator) : res (Z * heap_allocator) :=
  let byte_size := u64 (Z.shiftl num_of_pages kPageSizeExponent) in
  if (kKernelHeapSize <? byte_size) ||
     (u64 (kKernelHeapBaseAddr + kKernelHeapSize) <? u64 (next_base_ k + byte_size)) then Stop Panic
  else
    let vaddr := next_base_ k in
    let next_base := u64 (next_base_ k + (byte_size + Z.shiftl 1 kPageSizeExponent)) in
    do '(m, a) <- CreatePageMapping phys_addr_mask AllocPage (h_tables k) (dram_allocator_ k) pml4_ vaddr paddr byte_size page_attr;
    Done (vaddr, HeapAllocator next_base m a).
End KernelHeap.
End KernelHeap.

(** ** Reasoning about power failures *)

Lemma reach_inv (I : pm -> Prop) s tr s' :
  (forall s a, I s -> I (write_back a s)) -> Forall (fun e => forall s, I s -> I (act e s)) tr ->
  reach s tr s' -> I s -> I s'.
Proof.
  intros He Ha H. induction H as [s|s e tr s' H IH|s a tr s' H IH]; intros Hi; [done|..].
  - apply List.Forall_cons_iff in Ha as [Hx Ha]. by apply IH, Hx.
  - by apply IH, He.
Qed.
Lemma reach_app s t1 t2 s' : reach s (t1 ++ t2) s' -> exists s1, reach s t1 s1 /\ reach s1 t2 s'.
Proof.
  remember (t1 ++ t2) as tr eqn:E. intros H. revert t1 E.
  induction H as [s|s e tr s' H IH|s a tr s' H IH]; intros t1 E.
  - symmetry in E. apply app_eq_nil in E as [-> ->]. exists s. split; constructor.
  - destruct t1 as [|x t1]; simpl in E.
    + subst t2. exists s. split; [constructor|by constructor].
    + injection E as <- ->. destruct (IH t1 eq_refl) as (s1 & H1 & H2). exists s1. split; [by constructor|done].
  - destruct (IH t1 E) as (s1 & H1 & H2). exists s1. split; [by eapply reach_evict|done].
Qed.
Lemma reach_single s e s' : reach s [e] s' -> exists s1, reach s [] s1 /\ reach (act e s1) [] s'.
Proof.
  remember [e] as tr eqn:E. intros H. revert E. induction H as [s|s e0 tr s' H IH|s a tr s' H IH]; intros E; [done|..].
  - injection E as -> ->. exists s. split; [constructor|done].
  - destruct (IH E) as (s1 & H1 & H2). exists s1. split; [by eapply reach_evict|done].
Qed.
Lemma crash_app s t1 t2 m : crash s (t1 ++ t2) m -> crash s t1 m \/ exists s1, reach s t1 s1 /\ crash s1 t2 m.
Proof.
  intros (u1 & u2 & s' & E & H & ->). apply app_eq_app in E as (k & [[-> ->]|[-> ->]]).
  - left. exists u1, k, s'. done.
  - right. apply reach_app in H as (s1 & H1 & H2). exists s1. split; [done|]. exists k, u2, s'. done.
Qed.
Lemma crash_inv (I : pm -> Prop) s tr m :
  (forall s a, I s -> I (write_back a s)) -> Forall (fun e => forall s, I s -> I (act e s)) tr ->
  crash s tr m -> I s -> exists s', I s' /\ m = nvm s'.
Proof.
  intros He Ha (t1 & t2 & s' & -> & H & ->) Hi. exists s'. split; [|done].
  apply List.Forall_app in Ha as [Ha _]. by eapply reach_inv.
Qed.
(** Evictions do not change what the processor sees. *)
Definition stores (tr : list action) (f : Z -> Z) : Z -> Z :=
  fold_left (fun f e => match e with St a v => upd f a v | Fl _ => f end) tr f.
Lemma reach_vol s tr s' : reach s tr s' -> vol s' = stores tr (vol s).
Proof. induction 1 as [s|s e tr s' H IH|s a tr s' H IH]; [done|rewrite IH; by destruct e|done]. Qed.

(** Words that both views hold with the values of [f]. *)
Definition holds (W : Z -> Prop) (f : Z -> Z) (s : pm) : Prop := forall w, W w -> vol s w = f w /\ nvm s w = f w.
Lemma holds_evict W f s a : holds W f s -> holds W f (write_back a s).
Proof. intros H w Hw. destruct (H w Hw) as [H1 H2]. split; [done|]. simpl. by case_match. Qed.
Lemma holds_store W f s a v : holds W f s -> (W a -> f a = v) -> holds W f (act (St a v) s).
Proof.
  intros H Ha w Hw. destruct (H w Hw) as [H1 H2]. split; [|done]. simpl. unfold upd. destruct (Z.eqb_spec w a) as [->|]; [|done].
  symmetry. by apply Ha.
Qed.
Lemma holds_act W f s e : holds W f s -> match e with St a _ => ~ W a | Fl _ => True end -> holds W f (act e s).
Proof. intros H. destruct e as [a v|a]; intros He; [by apply holds_store|by apply holds_evict]. Qed.
Lemma holds_reach W f s tr s' :
  Forall (fun e => match e with St a _ => ~ W a | Fl _ => True end) tr -> reach s tr s' -> holds W f s -> holds W f s'.
Proof.
  intros Ht. apply reach_inv; [intros; by apply holds_evict|]. eapply List.Forall_impl; [|exact Ht].
  intros e He s0 H0. by apply holds_act.
Qed.
(** A flush makes a line that is not stored to any more persistent. *)
Lemma flush_holds (W : Z -> Prop) f s tr a s' :
  reach s (tr ++ [Fl a]) s' -> (forall w, W w -> line w = line a) -> (forall w, W w -> stores tr (vol s) w = f w) -> holds W f s'.
Proof.
  intros H Hl Hf. apply reach_app in H as (s1 & H1 & H2). apply reach_single in H2 as (s2 & H2 & H3).
  assert (vol s2 = stores tr (vol s)) as Ev by (rewrite (reach_vol _ _ _ H2); simpl; by apply reach_vol).
  eapply holds_reach; [|exact H3|]; [constructor|]. intros w Hw. simpl. rewrite Ev. split; [by apply Hf|].
  rewrite Hl, Z.eqb_refl by done. by apply Hf.
Qed.

(** ** The object pool survives *)

Module PmemProofs.
Import Pmem.
Section Pool.
(** The manager at [self], a page of a region of [N] pages. *)
Context (self N : Z).

(** The objects as (header, pages), the latest first; the page behind them. *)
Definition next_idx (l : list (Z * Z)) : Z :=
  match l with [] => self / 4096 | (a, n) :: _ => (a + 32) / 4096 + n end.
Fixpoint layout (l : list (Z * Z)) : Prop :=
  match l with
  | [] => True
  | (a, n) :: l' => a + 32 = 4096 * (next_idx l' + 1) /\ 0 <= n /\ layout l'
  end.
Fixpoint objects (m : Z -> Z) (h : Z) (l : list (Z * Z)) : Prop :=
  match l with
  | [] => h = self + 32 /\ m h = kObjectSignature /\ m (h + 8) = 0 /\ m (h + 16) = 0 /\ m (h + 24) = 0
  | (a, n) :: l' => h = a /\ m h = kObjectSignature /\ m (h + 8) = Z.of_nat (length l) /\ m (h + 16) = n /\
      objects m (m (h + 24)) l'
  end.
Record pool (m : Z -> Z) (l : list (Z * Z)) : Prop := Pool {
  po_sig : m (self + 64) = kSignature;
  po_idx : m self = self / 4096;
  po_num : m (self + 8) = N;
  po_head : objects m (m (self + 16)) l;
}.
Record region (l : list (Z * Z)) : Prop := Region {
  rg_aligned : self mod 4096 = 0;
  rg_pos : 0 < self;
  rg_end : self + 4096 * N < 2 ^ 63;
  rg_layout : layout l;
  rg_fits : next_idx l <= self / 4096 + N;
  rg_count : Z.of_nat (length l) < 2 ^ 32;
}.
(** The words the pool consists of. *)
Definition manager_word (w : Z) : Prop := w ∈ [self; self + 8; self + 16; self + 32; self + 40; self + 48; self + 56; self + 64].
Definition header_word (a w : Z) : Prop := w ∈ [a; a + 8; a + 16; a + 24].
Definition meta (l : list (Z * Z)) (w : Z) : Prop := manager_word w \/ exists a n, (a, n) ∈ l /\ header_word a w.

Lemma objects_ext m m' h l :
  (forall w, (exists a n, (a, n) ∈ l /\ header_word a w) \/ header_word (self + 32) w -> m' w = m w) -> objects m h l -> objects m' h l.
Proof.
  unfold header_word. revert h. induction l as [|[a n] l IH]; intros h Hm; cbn [objects].
  - intros (-> & H1 & H2 & H3 & H4). rewrite !Hm by set_solver. done.
  - intros (-> & H1 & H2 & H3 & H4).
    assert (forall w, w ∈ [a; a + 8; a + 16; a + 24] -> m' w = m w) as Ha by (intros w Hw; apply Hm; left; exists a, n; set_solver).
    rewrite !Ha by set_solver. split_and!; try done. apply IH; [|done]. intros w [(b & k & Hb & Hw)|Hw]; apply Hm; [left|by right].
    exists b, k. split; [by right|done].
Qed.
Lemma pool_ext m m' l : (forall w, meta l w -> m' w = m w) -> pool m l -> pool m' l.
Proof.
  unfold meta, manager_word. intros Hm [H1 H2 H3 H4]. split; try (rewrite Hm; [done|set_solver]).
  rewrite (Hm (self + 16)) by set_solver. apply (objects_ext m); [|done]. unfold header_word. intros w [Hw|Hw]; apply Hm; [by right|left].
  replace (self + 32 + 8) with (self + 40) in Hw by lia. replace (self + 32 + 16) with (self + 48) in Hw by lia.
  replace (self + 32 + 24) with (self + 56) in Hw by lia. set_solver.
Qed.
(** Headers lie behind the manager and below the next page. *)
Lemma layout_bounds l a n : 0 <= self -> self mod 4096 = 0 -> layout l -> (a, n) ∈ l ->
  self + 4096 <= a + 32 <= 4096 * next_idx l /\ 0 <= n /\ (a + 32) mod 4096 = 0.
Proof.
  intros Hs Hal. assert (forall l, layout l -> self / 4096 <= next_idx l) as Hge.
  { induction l0 as [|[b k] l0 IH]; [done|]. intros (E & Hk & Hl). specialize (IH Hl). cbn [next_idx].
    rewrite E, Z.mul_comm, Z.div_mul by lia. lia. }
  induction l as [|[b k] l IH]; [by intros _ ?%elem_of_nil|]. intros (E & Hk & Hl) [[= -> ->]|Hin]%elem_of_cons.
  - specialize (Hge l Hl). cbn [next_idx]. rewrite E. split; [|split; [done|rewrite Z.mul_comm; apply Z.mod_mul; lia]].
    rewrite (Z.mul_comm 4096), Z.div_mul by lia. zdiv.
  - destruct (IH Hl Hin) as ([H1 H2] & H3 & H4). split; [|done]. cbn [next_idx]. rewrite E.
    rewrite (Z.mul_comm 4096 (next_idx l + 1)), Z.div_mul by lia. lia.
Qed.

(** *** The program *)

Definition new_header (l : list (Z * Z)) : Z := 4096 * (next_idx l + 1) - 32.
Definition alloc_trace (l : list (Z * Z)) (n head : Z) : list action :=
  let h := new_header l in
  [St h (not64 kObjectSignature); Fl h; St (h + 8) (Z.of_nat (S (length l))); St (h + 16) n; St (h + 24) 0;
   St h kObjectSignature; Fl h; St (h + 24) head; Fl (h + 24)] ++ [St (self + 16) h; Fl (self + 16)].

Lemma next_idx_bounds l : region l -> self / 4096 <= next_idx l <= self / 4096 + N /\ 0 < self / 4096 /\ (self / 4096 + N) * 4096 < 2 ^ 63.
Proof.
  intros [H1 H2 H3 H4 H5 _]. split; [|split; zdiv]. destruct l as [|[a n] l]; [cbn [next_idx] in *; zdiv|].
  destruct (layout_bounds ((a, n) :: l) a n) as ([Ha _] & Hn & _); [lia|done|done|by left|]. cbn [next_idx] in *. zdiv.
Qed.
(** The header at the head of the list. *)
Lemma head_facts m l :
  region l -> pool m l ->
  let head := m (self + 16) in
  m (head + 8) = Z.of_nat (length l) /\ head <> 0 /\ 0 <= head < 2 ^ 63 /\
  (head + 32) / 4096 + m (head + 16) = next_idx l.
Proof.
  intros Hr [_ _ _ Ho] head. pose proof (next_idx_bounds l Hr) as Hb. pose proof Hr as [H1 H2 H3 H4 H5 _].
  fold head in Ho. destruct l as [|[a n] l]; cbn [objects] in Ho.
  - destruct Ho as (-> & _ & E1 & E2 & _). rewrite E1, E2. cbn [next_idx] in *. split_and!; [done|lia|lia|zdiv|zdiv].
  - destruct Ho as (-> & _ & E1 & E2 & _). rewrite E1, E2.
    destruct (layout_bounds ((a, n) :: l) a n) as ([Ha Ha2] & Hn & Ha3); [lia|done|done|by left|].
    split_and!; [done|lia|lia| |done]. assert (a + 32 <= 4096 * (self / 4096 + N)) by lia. lia.
Qed.

(** The page index the code computes from the head. *)
Lemma next_page_eq m l : region l -> pool m l ->
  u64 (Z.shiftr (GetObjectBase (m (self + 16))) 12 + m (m (self + 16) + 16)) = next_idx l.
Proof.
  intros Hr Hp. pose proof (next_idx_bounds l Hr). destruct (head_facts _ _ Hr Hp) as (_ & _ & Hhr & Enext).
  unfold GetObjectBase, sizeof_PersistentObjectHeader. rewrite (u64_small (m (self + 16) + 32)), shiftr_div by lia.
  change (2 ^ 12) with 4096. rewrite Enext. apply u64_small. lia.
Qed.

Lemma AllocPages_trace l n s :
  region l -> pool (words s) l -> 0 <= n < 2 ^ 51 ->
  n + 1 + next_idx l <= self / 4096 + N ->
  AllocPages self n s =
    Done (4096 * (next_idx l + 1), Mem (stores (alloc_trace l n (words s (self + 16))) (words s)) (tabs s),
          alloc_trace l n (words s (self + 16))).
Proof.
  intros Hr Hp Hn Hfit. pose proof (next_idx_bounds l Hr) as Hb. destruct (head_facts _ _ Hr Hp) as (Eid & Hh0 & Hhr & Enext).
  pose proof Hp as [Esig Eidx Enum _]. pose proof (rg_count _ Hr) as Hcnt.
  set (head := words s (self + 16)) in *.
  pose proof (next_page_eq (words s) l Hr Hp) as E1. fold head in E1.
  unfold AllocPages, IsValid, GetNumOfPages, GetID. unfold pbind, ld, passert, lift, pret. cbn [rbind].
  rewrite Esig. fold head. rewrite Z.eqb_refl, (proj2 (Z.eqb_neq head 0)) by done. cbn [negb andb kassert rbind].
  cbv zeta. fold head. change kPageSizeExponent with 12. rewrite E1, Eidx, Enum.
  rewrite (u64_small (n + 1)), (u64_small (n + 1 + _)), (u64_small (self / 4096 + N)) by lia.
  ztrue (n + 1 + next_idx l <=? self / 4096 + N). cbn [kassert rbind].
  rewrite shiftl_mul by lia. change (2 ^ 12) with 4096. rewrite (u64_small ((next_idx l + 1) * 4096)) by lia.
  unfold sizeof_PersistentObjectHeader. rewrite (u64_small ((next_idx l + 1) * 4096 - 32)) by lia.
  replace ((next_idx l + 1) * 4096 - 32) with (new_header l) by (unfold new_header; lia).
  rewrite Eid, (u64_small (Z.of_nat (length l) + 1)) by lia.
  replace (Z.of_nat (length l) + 1) with (Z.of_nat (S (length l))) by lia.
  unfold Header_Init, SetNext, SetHead, Header_IsValid, pbind, st, _mm_clflush, ld, passert, lift, pret. cbn [rbind words tabs].
  assert (forall f, upd f (new_header l) kObjectSignature (new_header l) =? kObjectSignature = true) as Eu.
  { intros f. unfold upd. by rewrite Z.eqb_refl. }
  rewrite Eu. cbn [kassert rbind words tabs app].
  assert (forall f v, upd f (self + 16) v (self + 16) = v) as -> by (intros; unfold upd; by rewrite Z.eqb_refl).
  unfold GetObjectBase, sizeof_PersistentObjectHeader. rewrite u64_small by (unfold new_header; lia).
  replace (new_header l + 32) with (4096 * (next_idx l + 1)) by (unfold new_header; lia). reflexivity.
Qed.
(** *** What it leaves *)

Lemma meta_new_header l w : region l -> header_word (new_header l) w -> ~ meta l w.
Proof.
  intros Hr Hw Hm. pose proof (next_idx_bounds l Hr) as Hb. destruct Hr as [H1 H2 H3 H4 H5 _].
  assert (new_header l <= w) as Hle by (unfold header_word in Hw; set_unfold in Hw; lia).
  unfold new_header in Hle. destruct Hm as [Hm|(a & n & Hin & Ha)].
  - assert (w <= self + 64) as Hw64 by (unfold manager_word in Hm; set_unfold in Hm; lia). zdiv.
  - destruct (layout_bounds l a n) as ([Ha1 Ha2] & _); [lia|done|done|done|].
    unfold header_word in Ha. set_unfold in Ha. lia.
Qed.
Lemma line_same_page a b : a / 64 * 64 = b / 64 * 64 -> line a = line b.
Proof. unfold line, kCacheLineSize. lia. Qed.
Lemma header_line l w : region l -> header_word (new_header l) w -> line w = line (new_header l + 24).
Proof.
  intros Hr Hw. unfold header_word, new_header in *. set_unfold in Hw. apply line_same_page. zdiv.
Qed.

Definition final_header (l : list (Z * Z)) (n head : Z) (w : Z) : Z :=
  let h := new_header l in
  if w =? h then kObjectSignature else if w =? h + 8 then Z.of_nat (S (length l)) else if w =? h + 16 then n else head.

(** The pool with the new object, from the words of the old one, the new header
    and the new head. *)
Lemma pool_extended m m' l n :
  region l -> pool m l -> (forall w, meta l w -> w <> self + 16 -> m' w = m w) ->
  (forall w, header_word (new_header l) w -> m' w = final_header l n (m (self + 16)) w) ->
  m' (self + 16) = new_header l -> pool m' ((new_header l, n) :: l).
Proof.
  intros Hr [H1 H2 H3 H4] Hold Hnew Hhead.
  assert (forall w, manager_word w -> w <> self + 16 -> m' w = m w) as Hman by (intros; apply Hold; [by left|done]).
  split; try (rewrite Hman; [done|unfold manager_word; set_solver|lia]).
  rewrite Hhead. cbn [objects]. assert (forall w, w ∈ [new_header l; new_header l + 8; new_header l + 16; new_header l + 24] ->
    m' w = final_header l n (m (self + 16)) w) as Hn by (intros; by apply Hnew).
  rewrite !Hn by set_solver. unfold final_header. cbv zeta.
  rewrite Z.eqb_refl, (proj2 (Z.eqb_neq (new_header l + 8) (new_header l))), Z.eqb_refl by lia.
  rewrite (proj2 (Z.eqb_neq (new_header l + 16) (new_header l))), (proj2 (Z.eqb_neq (new_header l + 16) (new_header l + 8))), Z.eqb_refl by lia.
  rewrite (proj2 (Z.eqb_neq (new_header l + 24) (new_header l))), (proj2 (Z.eqb_neq (new_header l + 24) (new_header l + 8))),
    (proj2 (Z.eqb_neq (new_header l + 24) (new_header l + 16))) by lia.
  split_and!; try done. apply (objects_ext m); [|done]. intros w [(a & k & Hin & Hw)|Hw].
  - apply Hold; [right; by exists a, k|]. intros ->. destruct Hr as [R1 R2 R3 R4 R5 _].
    destruct (layout_bounds l a k) as ([Ha1 Ha2] & _); [lia|done|done|done|]. unfold header_word in Hw. set_unfold in Hw. lia.
  - apply Hman; unfold header_word, manager_word in *; set_unfold in Hw; [|lia].
    assert (w = self + 32 \/ w = self + 40 \/ w = self + 48 \/ w = self + 56) as Hw' by lia. set_solver.
Qed.
Lemma region_new l n : region l -> 0 <= n -> n + 1 + next_idx l <= self / 4096 + N -> Z.of_nat (length l) + 1 < 2 ^ 32 ->
  region ((new_header l, n) :: l) /\ next_idx ((new_header l, n) :: l) = next_idx l + 1 + n.
Proof.
  intros [H1 H2 H3 H4 H5 H6] Hn Hfit Hc.
  assert (next_idx ((new_header l, n) :: l) = next_idx l + 1 + n) as E.
  { cbn [next_idx]. unfold new_header. replace (4096 * (next_idx l + 1) - 32 + 32) with ((next_idx l + 1) * 4096) by lia.
    rewrite Z.div_mul by lia. lia. }
  split; [|done]. split; try done; [|lia|cbn [length]; lia]. cbn [layout]. split_and!; [unfold new_header; lia|done|done].
Qed.

(** After the flushes the header is complete, in both views. *)
Lemma header_flushed l n s head s1 (h := new_header l) :
  region l ->
  reach s [St h (not64 kObjectSignature); Fl h; St (h + 8) (Z.of_nat (S (length l))); St (h + 16) n; St (h + 24) 0;
   St h kObjectSignature; Fl h; St (h + 24) head; Fl (h + 24)] s1 -> holds (header_word h) (final_header l n head) s1.
Proof.
  intros Hr H1. match type of H1 with reach _ ?t _ => change t with (take 8 t ++ [Fl (h + 24)]) in H1 end.
  apply (flush_holds _ _ s _ (h + 24) s1 H1); [intros; by apply header_line|].
  intros w Hw. unfold header_word in Hw. set_unfold in Hw. unfold stores, final_header, upd. cbn [fold_left take]. fold h.
  destruct Hw as [->|[->|[->|[->|[]]]]]; zcmps; done.
Qed.

Lemma alloc_crash l n s m :
  region l -> pool (vol s) l -> holds (meta l) (vol s) s ->
  crash s (alloc_trace l n (vol s (self + 16))) m -> pool m l \/ pool m ((new_header l, n) :: l).
Proof.
  intros Hr Hp Hs Hc. unfold alloc_trace in Hc. cbv zeta in Hc.
  assert (Forall (fun e => match e with St a _ => ~ meta l a | Fl _ => True end)
    [St (new_header l) (not64 kObjectSignature); Fl (new_header l); St (new_header l + 8) (Z.of_nat (S (length l)));
     St (new_header l + 16) n; St (new_header l + 24) 0; St (new_header l) kObjectSignature; Fl (new_header l);
     St (new_header l + 24) (vol s (self + 16)); Fl (new_header l + 24)]) as Htr.
  { repeat constructor; (apply meta_new_header; [done|unfold header_word; set_solver]). }
  apply crash_app in Hc as [Hc|(s1 & H1 & Hc)].
  - left. destruct Hc as (t1 & t2 & s' & E & Hre & ->). rewrite E in Htr. apply List.Forall_app in Htr as [Htr _].
    pose proof (holds_reach _ _ _ _ _ Htr Hre Hs) as Hs'. apply (pool_ext (vol s)); [|done]. intros w Hw. by apply Hs'.
  - pose proof (holds_reach _ _ _ _ _ Htr H1 Hs) as Hs1.
    assert (holds (header_word (new_header l)) (final_header l n (vol s (self + 16))) s1) as Hh1.
    { by apply (header_flushed l n s). }
    set (I := fun s0 => holds (fun w => meta l w /\ w <> self + 16) (vol s) s0 /\
      holds (header_word (new_header l)) (final_header l n (vol s (self + 16))) s0 /\
      (nvm s0 (self + 16) = vol s (self + 16) \/ nvm s0 (self + 16) = new_header l) /\
      (vol s0 (self + 16) = vol s (self + 16) \/ vol s0 (self + 16) = new_header l)).
    assert (forall s0 a, I s0 -> I (write_back a s0)) as Hev.
    { intros s0 a (I1 & I2 & I3 & I4). split_and!; [by apply holds_evict|by apply holds_evict| |done]. simpl. by case_match. }
    assert (meta l (self + 16)) as Hm16 by (left; unfold manager_word; set_solver).
    destruct (crash_inv I s1 [St (self + 16) (new_header l); Fl (self + 16)] m Hev) as (s2 & (I1 & I2 & I3 & I4) & ->).
    + constructor; [|constructor; [|constructor]]; intros s0 Hi; [|by apply Hev]. destruct Hi as (I1 & I2 & I3 & I4). split_and!.
      * apply holds_act; [done|]. by intros [_ ?].
      * apply holds_act; [done|]. intros Hw. by apply meta_new_header in Hw.
      * done.
      * right. simpl. unfold upd. by rewrite Z.eqb_refl.
    + done.
    + destruct (Hs1 _ Hm16) as [E1 E2]. split_and!; [intros w [Hw _]; by apply Hs1|done|by left|by left].
    + destruct I3 as [E|E].
      * left. apply (pool_ext (vol s)); [|done]. intros w Hw. destruct (decide (w = self + 16)) as [->|]; [done|]. by apply I1.
      * right. apply (pool_extended (vol s)); try done; [intros; by apply I1|intros; by apply I2].
Qed.

Lemma alloc_done l n s s' :
  region l -> pool (vol s) l -> holds (meta l) (vol s) s ->
  reach s (alloc_trace l n (vol s (self + 16))) s' ->
  pool (vol s') ((new_header l, n) :: l) /\ holds (meta ((new_header l, n) :: l)) (vol s') s'.
Proof.
  intros Hr Hp Hs Hre.
  assert (holds (fun w => meta l w /\ w <> self + 16) (vol s) s') as H1.
  { eapply holds_reach; [|exact Hre|intros w [Hw _]; by apply Hs]. unfold alloc_trace. simpl.
    repeat constructor; intros [Hw Hne]; try (by apply Hne); (eapply meta_new_header; [exact Hr| |exact Hw]; unfold header_word; set_solver). }
  assert (holds (header_word (new_header l)) (final_header l n (vol s (self + 16))) s') as H2.
  { unfold alloc_trace in Hre. cbv zeta in Hre. apply reach_app in Hre as (s1 & Ha & Hb).
    eapply holds_reach; [|exact Hb|].
    - repeat constructor. intros Hw. eapply meta_new_header; [exact Hr|exact Hw|]. left. unfold manager_word. set_solver.
    - by apply (header_flushed l n s). }
  assert (holds (fun w => w = self + 16) (fun _ => new_header l) s') as H3.
  { match type of Hre with reach _ ?t _ => change t with (take 10 t ++ [Fl (self + 16)]) in Hre end.
    apply (flush_holds _ _ s _ (self + 16) s' Hre); [by intros w ->|]. intros w ->.
    unfold stores, alloc_trace, upd. cbn [fold_left take app]. by rewrite Z.eqb_refl. }
  split.
  - apply (pool_extended (vol s)); try done; [intros; by apply H1|intros; by apply H2|by apply H3].
  - intros w Hw. split; [done|]. symmetry. destruct (decide (w = self + 16)) as [->|Hne].
    { destruct (H3 (self + 16) eq_refl) as [-> ->]. done. }
    assert (meta l w \/ header_word (new_header l) w) as [Hm|Hm].
    { destruct Hw as [Hw|(a & k & Hin & Hw)]; [by left; left|]. apply elem_of_cons in Hin as [[= -> ->]|Hin]; [by right|].
      left. right. by exists a, k. }
    + destruct (H1 w (conj Hm Hne)) as [-> ->]. done.
    + destruct (H2 w Hm) as [-> ->]. done.
Qed.

Lemma AllocPages_full l n s :
  region l -> pool (words s) l -> 0 <= n < 2 ^ 51 -> self / 4096 + N < n + 1 + next_idx l -> AllocPages self n s = Stop Panic.
Proof.
  intros Hr Hp Hn Hfit. pose proof (next_idx_bounds l Hr) as Hb. destruct (head_facts _ _ Hr Hp) as (Eid & Hh0 & Hhr & Enext).
  pose proof Hp as [Esig Eidx Enum _]. set (head := words s (self + 16)) in *.
  pose proof (next_page_eq (words s) l Hr Hp) as E1. fold head in E1.
  unfold AllocPages, IsValid, GetNumOfPages, GetID. unfold pbind, ld, passert, lift, pret. cbn [rbind].
  rewrite Esig. fold head. rewrite Z.eqb_refl, (proj2 (Z.eqb_neq head 0)) by done. cbn [negb andb kassert rbind].
  cbv zeta. fold head. change kPageSizeExponent with 12. rewrite E1, Eidx, Enum.
  rewrite (u64_small (n + 1)), (u64_small (n + 1 + _)), (u64_small (self / 4096 + N)) by lia.
  zfalse (n + 1 + next_idx l <=? self / 4096 + N). reflexivity.
Qed.

(** C7: allocation from persistent memory survives a power failure at every
    point. When the pages fit, [AllocPages] returns the page behind the objects
    and one for the header; the pages are inside the region and apart from all
    earlier objects. Whenever the power fails during the call, with any lines
    written back in any order before, the persistent memory holds the pool as it
    was or the pool with the complete new object; and after the call the new pool
    is persistent. When the pages do not fit, it panics. *)
Theorem pmem_alloc_crash_safe l n s t :
  region l -> pool (vol s) l -> holds (meta l) (vol s) s -> 0 <= n < 2 ^ 51 -> Z.of_nat (length l) + 1 < 2 ^ 32 ->
  let l' := (new_header l, n) :: l in
  let base := new_header l + 32 in
  (n + 1 + next_idx l <= self / 4096 + N ->
   exists tr, AllocPages self n (Mem (vol s) t) = Done (base, Mem (stores tr (vol s)) t, tr) /\
     self < base /\ base + 4096 * n <= self + 4096 * N /\
     (forall a k, (a, k) ∈ l -> a + 32 + 4096 * k <= new_header l /\ a + 32 <= new_header l) /\ region l' /\
     (forall m, crash s tr m -> pool m l \/ pool m l') /\
     (forall s', reach s tr s' -> pool (vol s') l' /\ holds (meta l') (vol s') s')) /\
  (self / 4096 + N < n + 1 + next_idx l -> AllocPages self n (Mem (vol s) t) = Stop Panic).
Proof.
  intros Hr Hp Hs Hn Hc l' base. split; [|intros Hfit; by apply (AllocPages_full l)].
  intros Hfit. pose proof (next_idx_bounds l Hr) as Hb. destruct (region_new l n Hr) as [Hr' En]; [lia|done|done|].
  exists (alloc_trace l n (vol s (self + 16))). split_and!.
  - rewrite (AllocPages_trace l n (Mem (vol s) t) Hr Hp Hn Hfit). unfold base, new_header. repeat f_equal; lia.
  - unfold base, new_header. destruct Hr. zdiv.
  - unfold base, new_header. destruct Hr. zdiv.
  - assert (forall l, layout l -> forall a k, (a, k) ∈ l -> a + 32 + 4096 * k <= 4096 * next_idx l /\ a + 32 <= 4096 * next_idx l) as Hl.
    { induction l0 as [|[b j] l0 IH]; [by intros _ a k ?%elem_of_nil|]. intros (E & Hj & Hl) a k [[= -> ->]|Hin]%elem_of_cons.
      - cbn [next_idx]. rewrite E, (Z.mul_comm 4096 (next_idx l0 + 1)), Z.div_mul by lia. lia.
      - destruct (IH Hl a k Hin). cbn [next_idx]. rewrite E, (Z.mul_comm 4096 (next_idx l0 + 1)), Z.div_mul by lia. lia. }
    intros a k Hin. destruct (Hl l (rg_layout _ Hr) a k Hin). unfold new_header. lia.
  - exact Hr'.
  - intros m. by apply alloc_crash.
  - intros s'. by apply alloc_done.
Qed.
End Pool.

(** A region of 16 pages at 4096 with no objects. *)
Definition demo_words : Z -> Z := fun a =>
  if a =? 4096 then 1 else if a =? 4104 then 16 else if a =? 4112 then 4128 else if a =? 4160 then kSignature
  else if a =? 4128 then kObjectSignature else 0.
Lemma pmem_alloc_crash_safe_witness :
  exists tr, AllocPages 4096 2 (Mem demo_words ∅) = Done (8192, Mem (stores tr demo_words) ∅, tr) /\
    forall m, crash (Pm demo_words demo_words) tr m ->
      pool 4096 16 m [] \/ pool 4096 16 m [(new_header 4096 [], 2)].
Proof.
  destruct (pmem_alloc_crash_safe 4096 16 [] 2 (Pm demo_words demo_words) ∅) as [H _].
  - split; try done; lia.
  - split; try reflexivity. repeat split.
  - intros w _. done.
  - lia.
  - simpl. lia.
  - destruct H as (tr & E & _ & _ & _ & _ & Hc & _); [simpl; lia|]. exists tr. split; [exact E|exact Hc].
Defined.
End PmemProofs.

(** ** The execution contexts survive *)

Module ContextProofs.
Import Context.

Lemma pbind_Done {A B} (x : P A) (k : A -> P B) s a s1 t1 b s2 t2 :
  x s = Done (a, s1, t1) -> k a s1 = Done (b, s2, t2) -> pbind x k s = Done (b, s2, t1 ++ t2).
Proof. intros E1 E2. unfold pbind. rewrite E1. cbn [rbind]. by rewrite E2. Qed.

Definition is_flush (e : action) : Prop := match e with Fl _ => True | St _ _ => False end.
(** The lines a sequence flushes. *)
Definition flushes (tr : list action) (w : Z) : Prop := exists a, Fl a ∈ tr /\ line a = line w.

Lemma clflush_loop_ok k a s : exists tr, clflush_loop k a s = Done (tt, s, tr) /\ Forall is_flush tr /\
  forall j, 0 <= j < Z.of_nat k -> Fl (a + 64 * j) ∈ tr.
Proof.
  revert a. induction k as [|k IH]; intros a; cbn [clflush_loop]; [exists []; split_and!; [done|constructor|lia]|].
  destruct (IH (a + kCacheLineSize)) as (tr & E & Hf & Hj). exists (Fl a :: tr). split_and!.
  - by apply (pbind_Done _ _ _ tt s [Fl a]).
  - by constructor.
  - intros j Hr. destruct (decide (j = 0)) as [->|]; [rewrite Z.add_0_r; by left|]. right.
    replace (a + 64 * j) with (a + kCacheLineSize + 64 * (j - 1)) by (unfold kCacheLineSize; lia). apply Hj. lia.
Qed.
(** A buffer that starts near enough to the start of a line is flushed whole. *)
Lemma CLFlush_range_ok buf size s :
  0 <= size -> buf mod 64 + size <= 64 * ((size + 63) / 64) ->
  exists tr, CLFlush_range buf size s = Done (tt, s, tr) /\ Forall is_flush tr /\
    forall w, buf <= w < buf + size -> flushes tr w.
Proof.
  intros Hs Hm. destruct (clflush_loop_ok (Z.to_nat ((size + 63) / 64)) buf s) as (tr & E & Hf & Hj).
  exists tr. split_and!; [exact E|done|]. intros w Hw. exists (buf + 64 * (w / 64 - buf / 64)). split; [|unfold line, kCacheLineSize; zdiv].
  apply Hj. rewrite Z2Nat.id by zdiv. zdiv.
Qed.
Lemma flush_pages_ok pages stat s :
  exists stat' tr, flush_pages pages stat s = Done (stat', s, tr) /\ Forall is_flush tr /\
    forall p w, p ∈ pages -> p mod 64 = 0 -> p <= w < p + 4096 -> flushes tr w.
Proof.
  revert stat. induction pages as [|p pages IH]; intros stat; cbn [flush_pages].
  - exists stat, []. split_and!; [done|constructor|]. by intros p w ?%elem_of_nil.
  - assert (exists tr, CLFlush_range p kPageSize s = Done (tt, s, tr) /\ Forall is_flush tr /\
      (p mod 64 = 0 -> forall w, p <= w < p + 4096 -> flushes tr w)) as (tr1 & E1 & F1 & H1).
    { destruct (decide (p mod 64 = 0)) as [Hp|Hp].
      - destruct (CLFlush_range_ok p 4096 s) as (tr & E & F & H); [lia|rewrite Hp; reflexivity || lia|]. by exists tr.
      - destruct (clflush_loop_ok (Z.to_nat ((kPageSize + 63) / 64)) p s) as (tr & E & F & _). by exists tr. }
    set (st1 := u64 (stat + (kPageSize + 63) / 64)).
    destruct (IH st1) as (stat' & tr2 & E2 & F2 & H2). exists stat', (tr1 ++ tr2). split_and!.
    + apply (pbind_Done _ _ _ st1 s tr1); [|done]. unfold CLFlush_stat. rewrite <- (app_nil_r tr1).
      by apply (pbind_Done _ _ _ tt s tr1).
    + by apply list.Forall_app_2.
    + intros q w [->|Hq]%elem_of_cons Hm Hw.
      * destruct (H1 Hm w Hw) as (a & Ha & Hl). exists a. split; [apply elem_of_app; by left|done].
      * destruct (H2 q w Hq Hm Hw) as (a & Ha & Hl). exists a. split; [apply elem_of_app; by right|done].
Qed.
(** Stores to an area. *)
Definition stores_to (W : Z -> Prop) (tr : list action) : Prop := Forall (fun e => match e with St a _ => W a | Fl _ => True end) tr.
Lemma copy_words_ok n dst src s :
  exists f' tr, copy_words n dst src s = Done (tt, Mem f' (tabs s), tr) /\
    stores_to (fun w => dst <= w < dst + 8 * Z.of_nat n) tr /\
    forall w, ~ (dst <= w < dst + 8 * Z.of_nat n) -> f' w = words s w.
Proof.
  revert dst src s. induction n as [|n IH]; intros dst src s; cbn [copy_words].
  - exists (words s), []. split_and!; [by destruct s|constructor|done].
  - set (s1 := Mem (upd (words s) dst (words s src)) (tabs s)).
    destruct (IH (dst + 8) (src + 8) s1) as (f' & tr & E & F & H). exists f', ([] ++ [St dst (words s src)] ++ tr). split_and!.
    + apply (pbind_Done _ _ _ (words s src) s []); [done|]. by apply (pbind_Done _ _ _ tt s1).
    + constructor; [lia|]. eapply List.Forall_impl; [|exact F]. intros [a v|a]; [lia|done].
    + intros w Hw. rewrite H by lia. simpl. unfold upd. by rewrite (proj2 (Z.eqb_neq w dst)) by lia.
Qed.
(** What has been flushed, or was clean, is persistent afterwards. *)
Lemma flushes_reach s tr s1 w :
  reach s tr s1 -> Forall is_flush tr -> flushes tr w \/ nvm s w = vol s w -> nvm s1 w = vol s w.
Proof.
  intros H. induction H as [s|s e tr s' H IH|s a tr s' H IH]; intros Hf Hor.
  - destruct Hor as [(a & Ha & _)|]; [by apply elem_of_nil in Ha|done].
  - apply List.Forall_cons_iff in Hf as [He Hf]. destruct e as [|a]; [done|]. cbn [act] in *.
    rewrite IH; [done|done|]. cbn [write_back vol nvm]. destruct Hor as [(b & [[= ->]|Hb]%elem_of_cons & Hl)|Hor].
    + right. by rewrite Hl, Z.eqb_refl.
    + left. by exists b.
    + right. by case_match.
  - rewrite IH; [done|done|]. cbn [write_back vol nvm]. destruct Hor as [Hor|Hor]; [by left|]. right. by case_match.
Qed.

Section Switch.
Context (mask i v : Z) (f : Z -> Z) (t : tables).
Let V : Z := ctx_ i v.
Let W : Z := ctx_ i (1 - v).

Definition ctx_word (c w : Z) : Prop := c <= w < c + sizeof_ExecutionContext.
Definition seg_word (s w : Z) : Prop := f (s + 8) <= w < f (s + 8) + f (s + 16).
(** What makes up a saved context: the registers and mappings, and the memory of
    the code, data and heap segments. *)
Definition saved (c w : Z) : Prop := ctx_word c w \/ seg_word (code c) w \/ seg_word (data c) w \/ seg_word (heap c) w.

(** The pages found dirty in the three segments of the working context. *)
Context (t1 t2 t3 : tables) (log1 log2 log3 : list Z).
Record switchable : Prop := Switchable {
  sw_aligned : i mod 64 = 0;
  sw_v : v = 0 \/ v = 1;
  sw_idx : f (i + 1584) = v;
  sw_code : FlushDirtyPages mask t (f W) (f (code W)) (f (code W + 16)) = Done (t1, log1);
  sw_data : FlushDirtyPages mask t1 (f W) (f (data W)) (f (data W + 16)) = Done (t2, log2);
  sw_heap : FlushDirtyPages mask t2 (f W) (f (heap W)) (f (heap W + 16)) = Done (t3, log3);
  sw_dsize : f (data V + 16) = f (data W + 16) /\ 0 <= f (data V + 16);
  sw_ssize : f (stack V + 16) = f (stack W + 16) /\ 0 <= f (stack V + 16);
  (* the segments lie outside of the structure, and those written apart from those saved *)
  sw_out : forall s w, s ∈ [code W; data W; heap W; data V; stack V] -> seg_word s w -> ~ (i <= w < i + sizeof_PersistentProcessInfo);
  sw_apart : forall s s' w, s ∈ [data V; stack V] -> s' ∈ [code W; data W; heap W] -> seg_word s w -> ~ seg_word s' w;
}.

Lemma contexts : switchable ->
  (V = i /\ W = i + 792 \/ V = i + 792 /\ W = i) /\ (forall w, ctx_word V w -> ~ ctx_word W w).
Proof.
  intros H. unfold V, W, ctx_, ctx_word, sizeof_ExecutionContext. pose proof (sw_v H). split; lia.
Qed.

Lemma Segment_Flush_ok s pml4 stat m t0 t0' log :
  FlushDirtyPages mask t0 pml4 (m s) (m (s + 16)) = Done (t0', log) ->
  exists stat' tr, Segment_Flush mask s pml4 stat (Mem m t0) = Done (stat', Mem m t0', tr) /\ Forall is_flush tr /\
    forall p w, p ∈ log -> p mod 64 = 0 -> p <= w < p + 4096 -> flushes tr w.
Proof.
  intros E. destruct (flush_pages_ok log stat (Mem m t0')) as (stat' & tr & E' & F & H). exists stat', ([] ++ [] ++ tr).
  split_and!; [|done|done]. apply (pbind_Done _ _ _ (m s) (Mem m t0)); [done|].
  apply (pbind_Done _ _ _ (m (s + 16)) (Mem m t0)); [done|]. unfold flush_dirty. cbn [tabs words]. rewrite E. cbn [rbind]. exact E'.
Qed.
Lemma flushes_app tr1 tr2 w : flushes tr1 w \/ flushes tr2 w -> flushes (tr1 ++ tr2) w.
Proof. intros [(a & Ha & Hl)|(a & Ha & Hl)]; exists a; (split; [apply elem_of_app; auto|done]). Qed.

Lemma Context_Flush_ok stat : switchable ->
  exists stat' tr, Context_Flush mask W (f W) stat (Mem f t) = Done (stat', Mem f t3, tr) /\ Forall is_flush tr /\
    (forall w, ctx_word W w -> flushes tr w) /\
    (forall p w, p ∈ log1 ++ log2 ++ log3 -> p mod 64 = 0 -> p <= w < p + 4096 -> flushes tr w).
Proof.
  intros Hsw. destruct (Segment_Flush_ok (code W) (f W) stat f t t1 log1 (sw_code Hsw)) as (a1 & r1 & E1 & F1 & H1).
  destruct (Segment_Flush_ok (data W) (f W) a1 f t1 t2 log2 (sw_data Hsw)) as (a2 & r2 & E2 & F2 & H2).
  destruct (Segment_Flush_ok (heap W) (f W) a2 f t2 t3 log3 (sw_heap Hsw)) as (a3 & r3 & E3 & F3 & H3).
  assert (W mod 64 + sizeof_ExecutionContext <= 64 * ((sizeof_ExecutionContext + 63) / 64)) as Hm.
  { unfold sizeof_ExecutionContext. change ((792 + 63) / 64) with 13. pose proof (sw_aligned Hsw).
    destruct (contexts Hsw) as [[[_ E]|[_ E]] _]; rewrite E; zdiv. }
  destruct (CLFlush_range_ok W sizeof_ExecutionContext (Mem f t3)) as (r4 & E4 & F4 & H4); [unfold sizeof_ExecutionContext; lia|exact Hm|].
  eexists _, ((r1 ++ r2 ++ r3) ++ r4 ++ []). split_and!.
  - eapply pbind_Done; [|eapply pbind_Done; [exact E4|reflexivity]].
    eapply pbind_Done; [exact E1|]. eapply pbind_Done; [exact E2|exact E3].
  - rewrite app_nil_r. repeat apply list.Forall_app_2; done.
  - intros w Hw. apply flushes_app. right. apply flushes_app. left. by apply H4.
  - intros p w Hp Hm1 Hw. apply flushes_app. left. rewrite !elem_of_app in Hp.
    destruct Hp as [Hp|[Hp|Hp]]; [apply flushes_app; left; by apply (H1 p)|..]; apply flushes_app; right; apply flushes_app;
      [left; by apply (H2 p)|right; by apply (H3 p)].
Qed.



(** Membership in a list that is written out. *)
Ltac mem := solve [repeat first [apply list_elem_of_here | apply list_elem_of_further]].

Lemma CopyDataFrom_ok s from stat m :
  words m (s + 16) = words m (from + 16) -> 0 <= words m (s + 16) ->
  exists stat' f' tr, CopyDataFrom s from stat m = Done (stat', Mem f' (tabs m), tr) /\
    stores_to (fun w => words m (s + 8) <= w < words m (s + 8) + words m (s + 16)) tr /\
    forall w, ~ (words m (s + 8) <= w < words m (s + 8) + words m (s + 16)) -> f' w = words m w.
Proof.
  intros Es H0. set (size := words m (s + 16)) in *.
  destruct (copy_words_ok (Z.to_nat (size / 8)) (words m (s + 8)) (words m (from + 8)) m) as (f' & tr & E & F & H).
  rewrite Z2Nat.id in F, H by zdiv. exists (u64 (stat + size)), f', ([] ++ [] ++ [] ++ [] ++ [] ++ tr ++ []). split_and!.
  - eapply pbind_Done; [reflexivity|]. eapply pbind_Done; [reflexivity|]. fold size.
    eapply pbind_Done; [unfold passert, lift; rewrite <- Es, Z.eqb_refl; reflexivity|].
    eapply pbind_Done; [reflexivity|]. eapply pbind_Done; [reflexivity|]. eapply pbind_Done; [exact E|reflexivity].
  - rewrite app_nil_r. cbn [app]. eapply List.Forall_impl; [|exact F]. intros [a b|a]; [|done]. intros Ha. zdiv.
  - intros w Hw. apply H. zdiv.
Qed.
Lemma stores_to_weaken (A B : Z -> Prop) tr : (forall w, A w -> B w) -> stores_to A tr -> stores_to B tr.
Proof. intros H. apply List.Forall_impl. intros [a b|a]; [apply H|done]. Qed.

(** The words the copy back may change: the registers, data and stack of the
    context that is not valid any more. *)
Definition copied (w : Z) : Prop := V <= w < V + sizeof_CPUContext \/ seg_word (data V) w \/ seg_word (stack V) w.

Lemma CopyContextFrom_ok stat : switchable ->
  exists stat' f' tr, CopyContextFrom V W stat (Mem (upd f (i + 1584) (1 - v)) t3) = Done (stat', Mem f' t3, tr) /\
    stores_to copied tr /\ f' (i + 1584) = 1 - v.
Proof.
  intros Hsw. destruct (contexts Hsw) as [HVW _]. set (g := upd f (i + 1584) (1 - v)).
  set (m0 := Mem g t3).
  destruct (copy_words_ok (Z.to_nat (sizeof_CPUContext / 8)) V W m0) as (f1 & r1 & E1 & F1 & H1).
  change (8 * Z.of_nat (Z.to_nat (sizeof_CPUContext / 8))) with 680 in F1, H1.
  set (f2 := upd f1 V (g V)).
  assert (forall w, ~ (V <= w < V + 680) -> f2 w = g w) as H2.
  { intros w Hw. unfold f2, upd at 1. rewrite (proj2 (Z.eqb_neq w V)) by lia. by apply H1. }
  assert (forall w, i <= w < i + 1584 -> ~ (V <= w < V + 680) -> f2 w = f w) as H2'.
  { intros w Hw Hn. rewrite H2 by done. unfold g, upd. by rewrite (proj2 (Z.eqb_neq w (i + 1584))) by lia. }
  pose proof (sw_dsize Hsw) as [Ed Hd]. pose proof (sw_ssize Hsw) as [Es Hs]. pose proof (sw_out Hsw) as Hout.
  unfold sizeof_PersistentProcessInfo in Hout. unfold data, stack in Ed, Es, Hd, Hs.
  destruct (CopyDataFrom_ok (data V) (data W) stat (Mem f2 t3)) as (a3 & f3 & r3 & E3 & F3 & H3);
    [cbn [words]; unfold data; rewrite !H2' by lia; done|cbn [words]; unfold data; rewrite !H2' by lia; done|].
  cbn [words] in F3, H3. assert (f2 (data V + 8) = f (data V + 8) /\ f2 (data V + 16) = f (data V + 16)) as [Q1 Q2]
    by (unfold data; split; apply H2'; lia). rewrite Q1, Q2 in F3, H3. change (stores_to (seg_word (data V)) r3) in F3.
  assert (forall w, i <= w < i + 1584 -> ~ (V <= w < V + 680) -> f3 w = f w) as H3'.
  { intros w Hw Hn. rewrite H3; [by apply H2'|]. intros Hw'. apply (Hout (data V) w); [mem|exact Hw'|lia]. }
  destruct (CopyDataFrom_ok (stack V) (stack W) a3 (Mem f3 t3)) as (a4 & f4 & r4 & E4 & F4 & H4);
    [cbn [words]; unfold stack; rewrite !H3' by lia; done|cbn [words]; unfold stack; rewrite !H3' by lia; done|].
  cbn [words] in F4, H4. assert (f3 (stack V + 8) = f (stack V + 8) /\ f3 (stack V + 16) = f (stack V + 16)) as [Q3 Q4]
    by (unfold stack; split; apply H3'; lia). rewrite Q3, Q4 in F4, H4. change (stores_to (seg_word (stack V)) r4) in F4.
  exists a4, f4, ([] ++ r1 ++ [St V (g V)] ++ r3 ++ r4). split_and!.
  - eapply pbind_Done; [reflexivity|]. eapply pbind_Done; [exact E1|]. eapply pbind_Done; [reflexivity|].
    eapply pbind_Done; [exact E3|exact E4].
  - cbn [app]. apply list.Forall_app_2; [eapply stores_to_weaken; [|exact F1]; intros w Hw; left; exact Hw|].
    constructor; [left; unfold sizeof_CPUContext; lia|].
    apply list.Forall_app_2; (eapply stores_to_weaken; [|eassumption]); intros w Hw; right; [by left|by right].
  - rewrite H4; [rewrite H3|]; [rewrite H2 by lia; unfold g, upd; by rewrite Z.eqb_refl|..]; intros Hw;
      [apply (Hout (data V) (i + 1584))|apply (Hout (stack V) (i + 1584))]; (mem || exact Hw || lia).
Qed.

Lemma SwitchContext_trace sc sf : switchable ->
  exists r f' tr1 tr2, SwitchContext mask i sc sf (Mem f t) =
    Done (r, Mem f' t3, tr1 ++ [St (i + 1584) (1 - v); Fl (i + 1584)] ++ tr2) /\ f' (i + 1584) = 1 - v /\
    Forall is_flush tr1 /\ (forall w, ctx_word W w -> flushes tr1 w) /\
    (forall p w, p ∈ log1 ++ log2 ++ log3 -> p mod 64 = 0 -> p <= w < p + 4096 -> flushes tr1 w) /\
    stores_to copied tr2.
Proof.
  intros Hsw. pose proof (sw_v Hsw) as Hv. pose proof (sw_idx Hsw) as Hi.
  destruct (Context_Flush_ok sf Hsw) as (a1 & r1 & E1 & F1 & H1 & H2).
  destruct (CopyContextFrom_ok sc Hsw) as (a2 & f' & r2 & E2 & F2 & H3).
  set (g := upd f (i + 1584) (1 - v)) in *.
  assert (forall h, h (i + 1584) = v -> forall t0, GetWorkingContext i (Mem h t0) = Done (W, Mem h t0, [])) as Gw.
  { intros h Hh t0. unfold GetWorkingContext, pbind, ld, passert, lift, pret. cbn [rbind words]. rewrite Hh.
    destruct Hv as [E|E]; rewrite E at 1 2; unfold W; rewrite E; reflexivity. }
  assert (g (i + 1584) = 1 - v) as Hg by (unfold g, upd; by rewrite Z.eqb_refl).
  assert (GetWorkingContext i (Mem g t3) = Done (V, Mem g t3, []) /\ GetValidContext i (Mem g t3) = Done (W, Mem g t3, [])) as [Gw' Gv].
  { unfold GetWorkingContext, GetValidContext, pbind, ld, passert, lift, pret. cbn [rbind words]. rewrite Hg. unfold V, W.
    destruct Hv as [E|E]; rewrite E; split; reflexivity. }
  exists (a2, a1), f', r1, r2. split; [|split; [exact H3|split; [exact F1|split; [exact H1|split; [exact H2|exact F2]]]]].
  replace (r1 ++ [St (i + 1584) (1 - v); Fl (i + 1584)] ++ r2)
    with ([] ++ [] ++ r1 ++ [] ++ ([St (i + 1584) (1 - v)] ++ [Fl (i + 1584)]) ++ [] ++ [] ++ r2 ++ []) by (rewrite app_nil_r; reflexivity).
  unfold SwitchContext. eapply pbind_Done; [by apply Gw|]. eapply pbind_Done; [reflexivity|]. eapply pbind_Done; [exact E1|].
  eapply pbind_Done; [reflexivity|]. cbn [words]. rewrite Hi.
  eapply pbind_Done; [eapply pbind_Done; reflexivity|]. cbn [words tabs]. fold g.
  eapply pbind_Done; [exact Gw'|]. eapply pbind_Done; [exact Gv|]. eapply pbind_Done; [exact E2|reflexivity].
Qed.

(** The words that select and make up the context [c]. *)
Definition survives (m : Z -> Z) (idx : Z) : Prop :=
  m (i + 1584) = idx /\ forall w, saved (ctx_ i idx) w -> m w = f w.

Lemma copied_apart w : switchable -> copied w -> ~ saved W w /\ w <> i + 1584.
Proof.
  intros Hsw Hw. destruct (contexts Hsw) as [HVW Hd]. pose proof (sw_out Hsw) as Hout. pose proof (sw_apart Hsw) as Hap.
  unfold sizeof_PersistentProcessInfo in Hout. unfold saved, ctx_word, copied, sizeof_CPUContext, sizeof_ExecutionContext in *.
  destruct Hw as [Hw|Hw].
  - split; [|lia]. intros [Hc|Hs]; [lia|]. assert (i <= w < i + 1600) as Hin by lia.
    destruct Hs as [Hs|[Hs|Hs]]; [apply (Hout (code W) w)|apply (Hout (data W) w)|apply (Hout (heap W) w)]; (mem || exact Hs || exact Hin).
  - assert (exists s, s ∈ [data V; stack V] /\ s ∈ [code W; data W; heap W; data V; stack V] /\ seg_word s w) as (s & M1 & M2 & Hs).
    { destruct Hw as [Hw|Hw]; [exists (data V)|exists (stack V)]; (split; [mem|split; [mem|exact Hw]]). }
    pose proof (Hout s w M2 Hs) as Ho. split; [|lia]. intros [Hc|Hs']; [lia|].
    destruct Hs' as [Hs'|[Hs'|Hs']]; [apply (Hap s (code W) w M1)|apply (Hap s (data W) w M1)|apply (Hap s (heap W) w M1)];
      (mem || exact Hs || exact Hs').
Qed.

Lemma saved_not_index w : switchable -> saved W w -> w <> i + 1584.
Proof.
  intros Hsw Hw ->. destruct (contexts Hsw) as [HVW _]. pose proof (sw_out Hsw) as Hout. unfold sizeof_PersistentProcessInfo in Hout.
  destruct Hw as [Hw|[Hw|[Hw|Hw]]]; [unfold ctx_word, sizeof_ExecutionContext in Hw; lia|..];
    [apply (Hout (code W) (i + 1584))|apply (Hout (data W) (i + 1584))|apply (Hout (heap W) (i + 1584))]; (mem || exact Hw || lia).
Qed.
Lemma switch_crash s tr1 tr2 m :
  switchable -> vol s = f -> nvm s (i + 1584) = v -> holds (saved V) f s ->
  (forall w, saved W w -> flushes tr1 w \/ nvm s w = f w) -> Forall is_flush tr1 -> stores_to copied tr2 ->
  crash s (tr1 ++ [St (i + 1584) (1 - v); Fl (i + 1584)] ++ tr2) m -> survives m v \/ survives m (1 - v).
Proof.
  intros Hsw Hvol Hnv HV Hdirty F1 F2 Hc. pose proof (sw_idx Hsw) as Hidx.
  assert (forall (A : Z -> Prop) tr, Forall is_flush tr -> Forall (fun e => match e with St a _ => ~ A a | Fl _ => True end) tr) as Hfl.
  { intros A tr. apply List.Forall_impl. by intros []. }
  assert (holds (fun w => saved V w \/ w = i + 1584) f s) as HV'.
  { intros w [Hw| ->]; [by apply HV|]. rewrite Hvol, Hidx. done. }
  apply crash_app in Hc as [(u1 & u2 & s' & -> & Hre & ->)|(s1 & Hre1 & Hc)].
  { left. apply List.Forall_app in F1 as [F1 _]. pose proof (holds_reach _ _ _ _ _ (Hfl _ _ F1) Hre HV') as Hs'.
    split; [rewrite <- Hidx; by apply Hs'; right|]. intros w Hw. apply Hs'. by left. }
  pose proof (holds_reach _ _ _ _ _ (Hfl _ _ F1) Hre1 HV') as HV1.
  assert (vol s1 = f) as Hvol1.
  { rewrite (reach_vol _ _ _ Hre1), Hvol. clear -F1. induction F1 as [|e tr He F IH]; [done|]. by destruct e. }
  assert (holds (saved W) f s1) as HW1.
  { intros w Hw. rewrite Hvol1. split; [done|]. rewrite (flushes_reach s tr1 s1 w Hre1 F1); [by rewrite Hvol|].
    rewrite Hvol. by apply Hdirty. }
  set (B := fun w => (saved V w \/ saved W w) /\ w <> i + 1584).
  set (I := fun s0 => holds B f s0 /\ (nvm s0 (i + 1584) = v \/ nvm s0 (i + 1584) = 1 - v) /\
    (vol s0 (i + 1584) = v \/ vol s0 (i + 1584) = 1 - v)).
  assert (forall s0 a, I s0 -> I (write_back a s0)) as Hev.
  { intros s0 a (I1 & I2 & I3). split_and!; [by apply holds_evict| |done]. simpl. by case_match. }
  assert (Forall (fun e => forall s0, I s0 -> I (act e s0)) [St (i + 1584) (1 - v); Fl (i + 1584)]) as HI.
  { constructor; [|constructor; [|constructor]]; intros s0 Hi; [|by apply Hev]. destruct Hi as (I1 & I2 & I3). split_and!.
    - apply holds_act; [done|]. by intros [_ ?].
    - done.
    - right. simpl. unfold upd. by rewrite Z.eqb_refl. }
  assert (I s1) as HI1.
  { split_and!; [intros w [[Hw|Hw] _]; [apply HV1; by left|by apply HW1]|left|left];
      (destruct (HV1 (i + 1584)) as [K1 K2]; [by right|congruence]). }
  assert (forall w, saved W w -> w <> i + 1584) as Hni by (intros w Hw; by apply saved_not_index).
  apply crash_app in Hc as [Hc|(s2 & Hre2 & Hc)].
  - destruct (crash_inv I s1 _ m Hev HI Hc HI1) as (s' & (I1 & I2 & _) & ->).
    destruct I2 as [E|E]; [left|right]; (split; [exact E|]); intros w Hw.
    + destruct (decide (w = i + 1584)) as [->|Hne]; [congruence|]. apply I1. split; [by left|done].
    + apply I1. split; [by right|by apply Hni].
  - right.
    assert (holds (fun w => saved W w \/ w = i + 1584) (upd f (i + 1584) (1 - v)) s2) as HW2.
    { intros w Hw. unfold upd. destruct (Z.eqb_spec w (i + 1584)) as [->|Hne].
      - apply (flush_holds (fun w => w = i + 1584) (fun _ => 1 - v) s1 [St (i + 1584) (1 - v)] (i + 1584) s2 Hre2); [by intros ? ->| |done].
        intros ? ->. simpl. unfold upd. by rewrite Z.eqb_refl.
      - destruct Hw as [Hw|]; [|done]. pose proof (reach_inv I s1 _ s2 Hev HI Hre2 HI1) as (I1 & _).
        apply I1. split; [by right|done]. }
    destruct Hc as (u1 & u2 & s' & -> & Hre3 & ->). apply List.Forall_app in F2 as [F2 _].
    assert (holds (fun w => saved W w \/ w = i + 1584) (upd f (i + 1584) (1 - v)) s') as HW3.
    { eapply holds_reach; [|exact Hre3|exact HW2]. eapply List.Forall_impl; [|exact F2]. intros [a b|a]; [|done].
      intros Ha [Hs|Ha']; destruct (copied_apart a Hsw Ha) as [N1 N2]; [by apply N1|by apply N2]. }
    split.
    + destruct (HW3 (i + 1584)) as [_ E]; [by right|]. rewrite E. unfold upd. by rewrite Z.eqb_refl.
    + intros w Hw. destruct (HW3 w) as [_ E]; [by left|]. rewrite E. unfold upd.
      by rewrite (proj2 (Z.eqb_neq w (i + 1584))) by (by apply Hni).
Qed.

(** C8: saving the context of a persistent process is atomic. Whenever the power
    fails during [SwitchContext], the persistent index selects either the context
    that was valid before or the one that was working, and the selected context is
    complete in persistent memory: registers, mappings, and the memory of its
    code, data and heap segments, with the contents they had when the call began.
    The stack segment is not part of this: it is not flushed. *)
Theorem SwitchContext_crash_safe s sc sf :
  switchable -> vol s = f -> nvm s (i + 1584) = v -> holds (saved V) f s ->
  (forall w, saved W w -> ~ ctx_word W w ->
     nvm s w = f w \/ exists p, p ∈ log1 ++ log2 ++ log3 /\ p mod 64 = 0 /\ p <= w < p + 4096) ->
  exists r f' tr, SwitchContext mask i sc sf (Mem f t) = Done (r, Mem f' t3, tr) /\ f' (i + 1584) = 1 - v /\
    forall m, crash s tr m -> survives m v \/ survives m (1 - v).
Proof.
  intros Hsw Hvol Hnv HV Hdirty. destruct (SwitchContext_trace sc sf Hsw) as (r & f' & tr1 & tr2 & E & Hi & F1 & H1 & H2 & F2).
  exists r, f', (tr1 ++ [St (i + 1584) (1 - v); Fl (i + 1584)] ++ tr2). split; [exact E|]. split; [exact Hi|]. intros m.
  apply switch_crash; try assumption. intros w Hw.
  assert (ctx_word W w \/ ~ ctx_word W w) as [Hc|Hc] by (unfold ctx_word; lia); [left; by apply H1|].
  destruct (Hdirty w Hw Hc) as [Hcl|(p & Hp & Hm & Hr)]; [by right|left; by apply (H2 p)].
Qed.
End Switch.

(** A process whose working context has one dirty page of data. *)
Definition demo_mask : Z := 2 ^ 36 - 1.
Definition demo_tables (pte : Z) : tables :=
  <[4096 := 8193 :: replicate 511 0]> (<[8192 := 12289 :: replicate 511 0]>
    (<[12288 := 16385 :: replicate 511 0]> (<[16384 := pte :: replicate 511 0]> ∅))).
Definition demo_f : Z -> Z := fun a =>
  if a =? 33560 then 4096 else if a =? 34272 then 20480 else if a =? 34280 then 4096
  else if a =? 33480 then 24576 else if a =? 33488 then 4096 else if a =? 20488 then 77 else 0.
Definition demo_nvm : Z -> Z := fun a => if a =? 20488 then 66 else demo_f a.
Ltac demo_words := repeat match goal with
  | H : context [demo_f ?e] |- _ => let x := eval vm_compute in (demo_f e) in change (demo_f e) with x in H
  | |- context [demo_f ?e] => let x := eval vm_compute in (demo_f e) in change (demo_f e) with x
  end.
Lemma SwitchContext_crash_safe_witness :
  exists r f' tr, SwitchContext demo_mask 32768 0 0 (Mem demo_f (demo_tables 20545)) = Done (r, Mem f' (demo_tables 20481), tr) /\
    forall m, crash (Pm demo_f demo_nvm) tr m -> survives 32768 demo_f m 0 \/ survives 32768 demo_f m 1.
Proof.
  destruct (SwitchContext_crash_safe demo_mask 32768 0 demo_f (demo_tables 20545) (demo_tables 20545) (demo_tables 20481)
    (demo_tables 20481) [] [20480] [] (Pm demo_f demo_nvm) 0 0) as (r & f' & tr & E & _ & H).
  - split; try (vm_compute; reflexivity).
    + by left.
    + split; vm_compute; [reflexivity|discriminate].
    + split; vm_compute; [reflexivity|discriminate].
    + intros s w Hs Hw. assert (s = 34240 \/ s = 34264 \/ s = 34312 \/ s = 33472 \/ s = 33496) as Hs' by
        (repeat (apply elem_of_cons in Hs as [->|Hs]; [vm_compute; tauto|]); by apply elem_of_nil in Hs).
      unfold seg_word, sizeof_PersistentProcessInfo in *.
      destruct Hs' as [->|[->|[->|[->| ->]]]]; demo_words; lia.
    + intros s s' w Hs Hs2. assert (s = 33472 \/ s = 33496) as Hs' by
        (repeat (apply elem_of_cons in Hs as [->|Hs]; [vm_compute; tauto|]); by apply elem_of_nil in Hs).
      assert (s' = 34240 \/ s' = 34264 \/ s' = 34312) as Hs2' by
        (repeat (apply elem_of_cons in Hs2 as [->|Hs2]; [vm_compute; tauto|]); by apply elem_of_nil in Hs2).
      unfold seg_word. destruct Hs' as [->| ->], Hs2' as [->|[->| ->]]; demo_words; lia.
  - reflexivity.
  - reflexivity.
  - intros w Hw. split; [reflexivity|]. simpl. unfold demo_nvm. destruct (Z.eqb_spec w 20488) as [->|]; [|reflexivity].
    exfalso. unfold saved, ctx_word, seg_word, ctx_, sizeof_ExecutionContext in Hw. demo_words. lia.
  - intros w Hw _. simpl. unfold demo_nvm. destruct (Z.eqb_spec w 20488) as [->|]; [|by left].
    right. exists 20480. split; [apply list_elem_of_here|]. split; [reflexivity|lia].
  - exists r, f', tr. split; [exact E|exact H].
Defined.

(** The stack is not saved: here the working context has a word 99 on its stack
    that is still in the cache; after the whole call, when the power fails, the
    persistent index selects this context, and the word is lost. *)
Lemma reach_run s tr : reach s tr (fold_left (fun s e => act e s) tr s).
Proof. revert s. induction tr as [|e tr IH]; intros s; [constructor|]. by apply reach_act. Qed.
Definition demo_stack_f : Z -> Z := fun a =>
  if a =? 34296 then 28672 else if a =? 34304 then 4096 else if a =? 33504 then 45056 else if a =? 33512 then 4096
  else if a =? 28680 then 99 else demo_f a.
Definition demo_stack_nvm : Z -> Z := fun a => if a =? 28680 then 0 else demo_stack_f a.
Lemma SwitchContext_loses_stack :
  exists r f' t' tr m, SwitchContext demo_mask 32768 0 0 (Mem demo_stack_f (demo_tables 20545)) = Done (r, Mem f' t', tr) /\
    crash (Pm demo_stack_f demo_stack_nvm) tr m /\ m (32768 + 1584) = 1 /\
    demo_stack_f (stack (ctx_ 32768 1) + 8) = 28672 /\ demo_stack_f 28680 = 99 /\ m 28680 = 0.
Proof.
  destruct (SwitchContext demo_mask 32768 0 0 (Mem demo_stack_f (demo_tables 20545))) as [[[r [f' t']] tr]|e] eqn:E;
    [|exfalso; assert (match SwitchContext demo_mask 32768 0 0 (Mem demo_stack_f (demo_tables 20545)) with Done _ => true | Stop _ => false end = true)
        as E' by (vm_compute; reflexivity); by rewrite E in E'].
  exists r, f', t', tr, (nvm (fold_left (fun s e => act e s) tr (Pm demo_stack_f demo_stack_nvm))). split; [reflexivity|]. split.
  { exists tr, [], (fold_left (fun s e => act e s) tr (Pm demo_stack_f demo_stack_nvm)).
    split; [by rewrite app_nil_r|]. split; [apply reach_run|reflexivity]. }
  assert (tr = match SwitchContext demo_mask 32768 0 0 (Mem demo_stack_f (demo_tables 20545)) with Done (_, tr) => tr | Stop _ => [] end) as ->
    by (by rewrite E).
  split; [vm_cast_no_check (eq_refl 1)|]. split; [reflexivity|]. split; [reflexivity|vm_cast_no_check (eq_refl 0)].
Qed.
End ContextProofs.

(** ** The kernel heap *)

Module KernelHeapProofs.
Import KernelHeap.
Section KernelHeapProofs.
Context {A : Type} (AllocPage : A -> res (Z * A)) (mask pml4 : Z).

(** A mapping lies in the heap area; the next one starts behind it with a page
    left free; and what does not fit is refused. This is for requests below
    512 MiB: from 768 MiB on the sum of the test can wrap around. *)
Lemma MapPages_ok paddr n attr (k : heap_allocator (A := A)) :
  kKernelHeapBaseAddr <= next_base_ k <= kKernelHeapBaseAddr + kKernelHeapSize + 4096 -> 0 <= n < 2 ^ 17 ->
  (kKernelHeapBaseAddr + kKernelHeapSize < next_base_ k + 4096 * n -> MapPages AllocPage mask pml4 paddr n attr k = Stop Panic) /\
  (forall vaddr k', MapPages AllocPage mask pml4 paddr n attr k = Done (vaddr, k') ->
     vaddr = next_base_ k /\ vaddr + 4096 * n <= kKernelHeapBaseAddr + kKernelHeapSize /\
     next_base_ k' = vaddr + 4096 * n + 4096 /\
     next_base_ k' <= kKernelHeapBaseAddr + kKernelHeapSize + 4096).
Proof.
  unfold kKernelHeapBaseAddr, kKernelHeapSize. intros Hk Hn. unfold MapPages, kKernelHeapBaseAddr, kKernelHeapSize, kPageSizeExponent.
  rewrite !shiftl_mul by lia. change (2 ^ 12) with 4096. rewrite (u64_small (n * 4096)) by lia.
  destruct (0x40000000 <? n * 4096) eqn:E1; cbn [orb].
  { split; [done|]. intros vaddr k' [=]. }
  rewrite Z.ltb_ge in E1. rewrite (u64_small (0xFFFFFFFF90000000 + _)), (u64_small (next_base_ k + n * 4096)) by lia.
  destruct (Z.ltb_spec (0xFFFFFFFF90000000 + 0x40000000) (next_base_ k + n * 4096)).
  { split; [done|]. intros vaddr k' [=]. }
  split; [lia|]. intros vaddr k' HM. rinv. case_match. rinv.
  injection HM as <- <- || idtac. cbn [next_base_]. rewrite u64_small by lia. lia.
Qed.
End KernelHeapProofs.
End KernelHeapProofs.
