(* ===== verification/Elf.v ===== *)
(** * The ELF loader: [src/elf.cc], with [SegmentMapping] and
    [ExecutionContext] of [src/execution_context.h] as it uses them, and the
    part of [src/command.cc] that starts a program with its arguments

    A file is the list of its bytes.  Memory is of two kinds that the allocator
    keeps apart: pages that hold page tables ([tables] of [Paging]) and all other
    bytes, by physical address; physical memory is reached at its own address, as
    in the source.  The allocator is the parameter [AllocBlock], the operation
    [AllocPages<T>(n)] of [TAllocator]. *)

From stdpp Require Import strings.
From S2P Require Import Prelude KernelBase KernelText PhysPages Paging PagingProofs Scheduler Persist.
Import Generic.

(** ** The file format *)

Record EFIFile := File { file_name_ : list Z; buf_pages_ : Z; contents : list Z }.

(** A field of [n] bytes at an offset from the start of the file. *)
Definition field (n : nat) (buf : list Z) (off : Z) : res Z :=
  let l := take n (drop (Z.to_nat off) buf) in
  if (0 <=? off) && (length l =? n)%nat then Done (le_value l) else Stop BadPointer.

Definition ELFMAG : list Z := [127; 69; 76; 70].
Definition ET_EXEC : Z := 2.
Definition EM_X86_64 : Z := 62.
Definition PT_LOAD : Z := 1.
Definition PF_X : Z := 1.

(** The fields of [Elf64_Ehdr] that are used. *)
Definition e_entry (buf : list Z) : res Z := field 8 buf 24.
Definition e_phoff (buf : list Z) : res Z := field 8 buf 32.
Definition e_shoff (buf : list Z) : res Z := field 8 buf 40.
Definition e_phentsize (buf : list Z) : res Z := field 2 buf 54.
Definition e_phnum (buf : list Z) : res Z := field 2 buf 56.
Definition e_shentsize (buf : list Z) : res Z := field 2 buf 58.
Definition e_shnum (buf : list Z) : res Z := field 2 buf 60.
Definition e_shstrndx (buf : list Z) : res Z := field 2 buf 62.

(** [true] for the pointer to the header, [false] for null. *)
Definition EnsureLoadable (buf : list Z) : res bool :=
  do c <- Libfunc.memcmp 4 buf ELFMAG;
  if negb (c =? 0) then Done false else
  do v <- field 1 buf 4;
  if negb (v =? 2) then Done false else
  do v <- field 1 buf 5;
  if negb (v =? 1) then Done false else
  do v <- field 1 buf 7;
  if negb (v =? 0) then Done false else
  do v <- field 2 buf 16;
  if negb (v =? ET_EXEC) then Done false else
  do v <- field 2 buf 18;
  if negb (v =? EM_X86_64) then Done false else Done true.

Section Sections.
(** The [strcmp] of the C library, on the memory from the two strings on. *)
Context (strcmp : list Z -> list Z -> res Z).

Fixpoint find_section (k : nat) (i : Z) (buf name : list Z) (shoff shentsize strtab : Z) : res (option Z) :=
  match k with
  | O => Done None
  | S k' =>
    let shdr := u64 (shoff + i32 (shentsize * i)) in
    do sh_name <- field 4 buf shdr;
    do c <- strcmp (drop (Z.to_nat (u64 (strtab + sh_name))) buf) name;
    if c =? 0 then Done (Some shdr) else find_section k' (i + 1) buf name shoff shentsize strtab
  end.
(** The offset of the section header in the file. *)
Definition FindSectionHeader (f : EFIFile) (name : list Z) : res (option Z) :=
  if buf_pages_ f =? 0 then Done None
  else
    let buf := contents f in
    do shoff <- e_shoff buf;
    do shentsize <- e_shentsize buf;
    do shstrndx <- e_shstrndx buf;
    do strtab <- field 8 buf (u64 (shoff + i32 (shentsize * shstrndx)) + 24);
    do shnum <- e_shnum buf;
    find_section (Z.to_nat shnum) 0 buf name shoff shentsize strtab.
End Sections.

(** ** Segments *)

Record SegmentMapping := Seg { vaddr_ : Z; paddr_ : Z; map_size_ : Z }.
Definition no_segment : SegmentMapping := Seg 0 0 0.
Definition SetPhysAddr (paddr : Z) (s : SegmentMapping) : SegmentMapping := Seg (vaddr_ s) paddr (map_size_ s).
Definition GetVirtEndAddr (s : SegmentMapping) : Z := u64 (vaddr_ s + map_size_ s).

Record ProcessMappingInfo := MapInfo {
  code : SegmentMapping;
  data : SegmentMapping;
  stack : SegmentMapping;
  heap : SegmentMapping;
}.
Definition no_mapping : ProcessMappingInfo := MapInfo no_segment no_segment no_segment no_segment.

(** [data] as an offset in the file; [None] is null. *)
Record PhdrInfo := Phdr { i_data : option Z; i_vaddr : Z; i_map_size : Z; i_copy_size : Z }.
Definition no_info : PhdrInfo := Phdr None 0 0 0.
Record PhdrMappingInfo := PhdrMapping { i_code : PhdrInfo; i_seg_data : PhdrInfo }.

Record Elf64_Phdr := Header {
  p_flags : Z;
  p_offset : Z;
  p_vaddr : Z;
  p_filesz : Z;
  p_memsz : Z;
  p_align : Z;
}.
Definition read_phdr (buf : list Z) (off : Z) : res Elf64_Phdr :=
  do flags <- field 4 buf (off + 4);
  do offset <- field 8 buf (off + 8);
  do vaddr <- field 8 buf (off + 16);
  do filesz <- field 8 buf (off + 32);
  do memsz <- field 8 buf (off + 40);
  do align <- field 8 buf (off + 48);
  Done (Header flags offset vaddr filesz memsz align).

Definition seg_of (ph : Elf64_Phdr) : SegmentMapping :=
  let vaddr := FloorToPageAlignment (p_vaddr ph) in
  Seg vaddr 0 (CeilToPageAlignment (u64 (p_memsz ph + u64 (p_vaddr ph - vaddr)))).
Definition info_of (ph : Elf64_Phdr) : PhdrInfo :=
  let s := seg_of ph in
  Phdr (Some (FloorToPageAlignment (p_offset ph))) (vaddr_ s) (map_size_ s)
    (u64 (p_filesz ph + u64 (p_vaddr ph - vaddr_ s))).

(** The body of the loop for a header of type [PT_LOAD]. *)
Definition load_header (ph : Elf64_Phdr) (st : ProcessMappingInfo * PhdrMappingInfo)
  : res (ProcessMappingInfo * PhdrMappingInfo) :=
  let '(m, i) := st in
  run kassert (IsAlignedToPageSize (p_align ph));
  if negb (Z.land (p_flags ph) PF_X =? 0) then
    run kassert (map_size_ (code m) =? 0);
    Done (MapInfo (seg_of ph) (data m) (stack m) (heap m), PhdrMapping (info_of ph) (i_seg_data i))
  else
    run kassert (map_size_ (data m) =? 0);
    Done (MapInfo (code m) (seg_of ph) (stack m) (heap m), PhdrMapping (i_code i) (info_of ph)).
Fixpoint phdr_loop (k : nat) (i : Z) (buf : list Z) (phoff phentsize : Z) (st : ProcessMappingInfo * PhdrMappingInfo)
  : res (ProcessMappingInfo * PhdrMappingInfo) :=
  match k with
  | O => Done st
  | S k' =>
    let phdr := u64 (phoff + i32 (phentsize * i)) in
    do p_type <- field 4 buf phdr;
    do st <- (if negb (p_type =? PT_LOAD) then Done st
              else do ph <- read_phdr buf phdr; load_header ph st);
    phdr_loop k' (i + 1) buf phoff phentsize st
  end.
(** [None] when the file is not loadable. *)
Definition ParseProgramHeader (f : EFIFile) : res (option (ProcessMappingInfo * PhdrMappingInfo)) :=
  run kassert (IsAlignedToPageSize (buf_pages_ f));
  do ok <- EnsureLoadable (contents f);
  if negb ok then Done None
  else
    let buf := contents f in
    do phnum <- e_phnum buf;
    do phoff <- e_phoff buf;
    do phentsize <- e_phentsize buf;
    do st <- phdr_loop (Z.to_nat phnum) 0 buf phoff phentsize (no_mapping, PhdrMapping no_info no_info);
    Done (Some st).

(** ** Loading *)

(** The bytes [l] at the physical address [p]. *)
Definition put (p : Z) (l : list Z) (ram : Z -> Z) : Z -> Z :=
  fun x => if (p <=? x) && (x <? p + Z.of_nat (length l)) then nth (Z.to_nat (x - p)) l 0 else ram x.

Section Load.
Context (phys_addr_mask : Z) {A : Type} (AllocBlock : Z -> A -> res (Z * A)).

(** What loading changes: the page tables, the allocator, all other memory. *)
Record machine := Machine { tabs : tables; dram : A; ram : Z -> Z }.

Definition Map (s : SegmentMapping) (page_root page_attr : Z) (k : machine) : res machine :=
  if paddr_ s =? 0 then Done k
  else
    do '(m, a) <- CreatePageMapping phys_addr_mask (AllocBlock 1) (tabs k) (dram k) page_root (vaddr_ s) (paddr_ s)
                    (map_size_ s) (Z.lor kPageAttrPresent page_attr);
    Done (Machine m a (ram k)).

(** The bytes [memcpy] reads. *)
Definition file_bytes (buf : list Z) (p : option Z) (n : Z) : res (list Z) :=
  if n =? 0 then Done []
  else
    do off <- deref p;
    let l := take (Z.to_nat n) (drop (Z.to_nat off) buf) in
    if (length l =? Z.to_nat n)%nat then Done l else Stop BadPointer.
Definition LoadAndMapSegment (buf : list Z) (page_root : Z) (s : SegmentMapping) (i : PhdrInfo) (page_attr : Z) (k : machine)
  : res machine :=
  run kassert (vaddr_ s =? i_vaddr i);
  run kassert (map_size_ s =? i_map_size i);
  run kassert (negb (paddr_ s =? 0));
  do l <- file_bytes buf (i_data i) (i_copy_size i);
  if i_map_size i <? i_copy_size i then Stop Overflow
  else
    let r := put (paddr_ s) l (ram k) in
    let r := put (paddr_ s + i_copy_size i) (replicate (Z.to_nat (i_map_size i - i_copy_size i)) 0) r in
    Map s page_root page_attr (Machine (tabs k) (dram k) r).
Definition LoadAndMap (buf : list Z) (page_root : Z) (m : ProcessMappingInfo) (i : PhdrMappingInfo) (base_attr : Z) (k : machine)
  : res machine :=
  let page_attr := Z.lor kPageAttrPresent base_attr in
  do k <- LoadAndMapSegment buf page_root (code m) (i_code i) page_attr k;
  do k <- LoadAndMapSegment buf page_root (data m) (i_seg_data i) (Z.lor page_attr kPageAttrWritable) k;
  do k <- Map (stack m) page_root (Z.lor page_attr kPageAttrWritable) k;
  Map (heap m) page_root (Z.lor page_attr kPageAttrWritable) k.

(** [AllocPages] of the allocator, as a step of the machine. *)
Definition alloc (n : Z) (k : machine) : res (Z * machine) :=
  do '(p, a) <- AllocBlock n (dram k); Done (p, Machine (tabs k) a (ram k)).
Definition alloc_segment (s : SegmentMapping) (k : machine) : res (SegmentMapping * machine) :=
  do '(p, k) <- alloc (ByteSizeToPageSize (map_size_ s)) k; Done (SetPhysAddr p s, k).
End Load.
Arguments Machine {A}.
Arguments tabs {A}.
Arguments dram {A}.
Arguments ram {A}.

(** ** Execution contexts *)

Record ExecutionContext := Ctx {
  rip : Z;
  cs : Z;
  rsp : Z;
  ss : Z;
  cr3 : Z;
  rflags : Z;
  kernel_rsp_ : Z;
  heap_used_size_ : Z;
  map_info_ : ProcessMappingInfo;
}.
Definition SetRegisters (rip cs rsp ss cr3 rflags kernel_rsp : Z) (m : ProcessMappingInfo) : ExecutionContext :=
  Ctx rip cs rsp ss cr3 (Z.lor rflags 2) kernel_rsp 0 m.
Definition set_rsp (v : Z) (c : ExecutionContext) : ExecutionContext :=
  Ctx (rip c) (cs c) v (ss c) (cr3 c) (rflags c) (kernel_rsp_ c) (heap_used_size_ c) (map_info_ c).
Definition AlignStack (align : Z) (c : ExecutionContext) : res ExecutionContext :=
  if align =? 8 then Done (set_rsp (Z.land (rsp c) (not64 3)) c) else Stop Panic.

Definition kUserCS64Selector : Z := Z.lor (Z.shiftl 5 3) 3.
Definition kUserDSSelector : Z := Z.lor (Z.shiftl 4 3) 3.
Definition kRFlagsInterruptEnable : Z := Z.shiftl 1 9.
Definition kNumOfStackPages : Z := 32.
Definition kUserStackBaseAddr : Z := 0xBEEF0000.
Definition kKernelStackPagesForEachProcess : Z := Context.kKernelStackPagesForEachProcess.

(** *** The commands of the kernel itself

    [Run] tests the line, or its first word, against the names of its own
    commands, one after the other, before it looks for a file.  What the commands
    do is not part of this file. *)
Inductive test := IfArg0 (s : string) | IfLine (s : string) | IfPrefix (s : string).
Definition text (s : string) : list Z := (fun c => Z.of_N (Ascii.N_of_ascii c)) <$> String.list_ascii_of_string s.
Definition test_holds (line arg0 : list Z) (t : test) : res bool :=
  match t with
  | IfArg0 s => Done (IsEqualString arg0 (text s))
  | IfLine s => Done (IsEqualString line (text s))
  | IfPrefix s => do r <- Libfunc.strncmp (String.length s) (line ++ [0]) (text s ++ [0]); Done (r =? 0)
  end.
Definition built_ins : list test :=
  [IfArg0 "date"; IfArg0 "gateway"; IfArg0 "ip"; IfArg0 "arp"; IfArg0 "dhcp"; IfLine "hello";
   IfLine "reset"; IfLine "enable acpi"; IfLine "show xsdt"; IfLine "show nfit";
   IfLine "show madt"; IfLine "show srat"; IfLine "show slit"; IfLine "show fadt";
   IfLine "show mmap"; IfLine "show hpet"; IfLine "show cpu"; IfLine "pmem show";
   IfLine "pmem init"; IfLine "pmem alloc"; IfLine "pmem ls"; IfLine "pmem restore";
   IfLine "pmem run pi.bin"; IfLine "pmem run hello.bin"; IfPrefix "test mem ";
   IfPrefix "test memw "; IfLine "free"; IfLine "time"; IfPrefix "eval "; IfLine "cpuid";
   IfLine "lspci"; IfLine "version"; IfLine "help"; IfLine "testscroll"; IfLine "xhci init";
   IfLine "xhci show portsc"; IfLine "xhci show status"; IfLine "lsusb"; IfLine "teststl";
   IfLine "fxsave"; IfLine "ascii"; IfLine "logo"; IfLine "ud2"; IfLine "adlib"; IfArg0 "midi";
   IfLine "ls"; IfLine "ps"; IfArg0 "kill"]%string.
Fixpoint find_built_in (l : list test) (line arg0 : list Z) : res (option test) :=
  match l with
  | [] => Done None
  | t :: l' => do b <- test_holds line arg0 t; if b : bool then Done (Some t) else find_built_in l' line arg0
  end.

Section Process.
(** [kernel_pml4]: [GetKernelPML4()]; [straight_base]:
    [GetKernelStraightMappingBase()]; [sizeof_Process]: the size of a [Process]
    object; [garbage], [stdin]: what is in the memory of a new one. *)
Context (phys_addr_mask : Z) {A : Type} (AllocBlock : Z -> A -> res (Z * A)).
Context (kernel_pml4 straight_base sizeof_Process garbage : Z) (stdin : list Z).

(** [AllocPages] and [Alloc] of the kernel heap allocator. *)
Definition heap_AllocPages (num_of_pages : Z) (k : machine) : res (Z * machine) :=
  do '(p, k) <- alloc AllocBlock num_of_pages k; Done (u64 (p + straight_base), k).
Definition heap_Alloc (size : Z) (k : machine) : res (Z * machine) := heap_AllocPages (ByteSizeToPageSize size) k.

Definition new_page_table (k : machine) : res (Z * machine) :=
  do '(t, m, a) <- AllocPageTable (AllocBlock 1) (tabs k) (dram k); Done (t, Machine m a (ram k)).

(** The segments with their memory, the stack, and everything mapped. *)
Definition load_user (f : EFIFile) (user_page_table : Z) (k : machine) : res (ProcessMappingInfo * machine) :=
  do o <- ParseProgramHeader f;
  do '(m, i) <- match o with Some x => Done x | None => Stop Panic end;
  do '(c, k) <- alloc_segment AllocBlock (code m) k;
  do '(d, k) <- alloc_segment AllocBlock (data m) k;
  do '(p, k) <- alloc AllocBlock kNumOfStackPages k;
  let m := MapInfo c d (Seg kUserStackBaseAddr p (Z.shiftl kNumOfStackPages kPageSizeExponent)) (heap m) in
  do k <- LoadAndMap phys_addr_mask AllocBlock (contents f) user_page_table m i kPageAttrUser k;
  Done (m, k).

(** The process controller as the kernel holds it: the last id and the store. *)
Record system := System { mach : machine (A := A); last_id : Z; scheduler : sched }.
Definition with_machine (k : machine) (s : system) : system := System k (last_id s) (scheduler s).
(** The new process, its context and the system; [proc] is the address of the
    [Process] object as a key of the store. *)
Definition LoadELFAndCreateEphemeralProcess (f : EFIFile) (name : Z) (proc : nat) (s : system)
  : res (ExecutionContext * system) :=
  do '(ctx, k) <- heap_Alloc Context.sizeof_ExecutionContext (mach s);
  do '(user_page_table, k) <- new_page_table k;
  do m <- SetKernelPageEntries (tabs k) kernel_pml4 user_page_table;
  do '(map_info, k) <- load_user f user_page_table (Machine m (dram k) (ram k));
  do entry_point <- e_entry (contents f);
  do '(ks, k) <- heap_AllocPages kKernelStackPagesForEachProcess k;
  let kernel_stack_pointer := u64 (ks + kPageSize * kKernelStackPagesForEachProcess) in
  let c := SetRegisters entry_point kUserCS64Selector (GetVirtEndAddr (stack map_info)) kUserDSSelector
             user_page_table kRFlagsInterruptEnable kernel_stack_pointer map_info in
  do '(_, k) <- heap_AllocPages (ByteSizeToPageSize sizeof_Process) k;
  let sc := scheduler s in
  let '(proc, pc) := Create proc name garbage stdin (ProcCtrl (last_id s) (procs sc)) in
  do p <- deref (pc_procs pc !! proc);
  do p <- InitAsEphemeralProcess ctx p;
  Done (c, System k (last_id_ pc)
             (Sched (<[proc := p]> (pc_procs pc)) (process_ sc) (number_of_process_ sc) (current_ sc) (lock_ sc) (multi_task sc))).

(** ** Starting a program with its arguments *)

Definition PushDataToStack (l : list Z) (c : ExecutionContext) (k : machine (A := A)) : res (ExecutionContext * machine) :=
  let c := set_rsp (u64 (rsp c - Z.of_nat (length l))) c in
  do phys_rsp <- v2p phys_addr_mask (tabs k) (cr3 c) (rsp c);
  if phys_rsp =? kAddrCannotTranslate then Stop BadPointer
  else Done (c, Machine (tabs k) (dram k) (put phys_rsp l (ram k))).
(** [argv] so far, in the order of the arguments. *)
Fixpoint push_args (ws : list (list Z)) (argv : list Z) (c : ExecutionContext) (k : machine) : res (list Z * ExecutionContext * machine) :=
  match ws with
  | [] => Done (argv, c, k)
  | w :: ws' =>
    do '(c, k) <- PushDataToStack (w ++ [0]) c k;
    push_args ws' (argv ++ [rsp c]) c k
  end.
Fixpoint push_argv (argv : list Z) (c : ExecutionContext) (k : machine) : res (ExecutionContext * machine) :=
  match argv with
  | [] => Done (c, k)
  | p :: argv' =>
    do '(c, k) <- push_argv argv' c k;
    PushDataToStack (le_bytes 8 p) c k
  end.
Definition kMaxArgvSize : nat := 8.

(** The line without the ampersand at its end. *)
Definition line_of (background : bool) (raw : list Z) : list Z := if background then removelast raw else raw.
(** The words of the command line; whether it ends with an ampersand. *)
Definition command_line (raw : list Z) (a : CommandLineArgs.args) : res (bool * option CommandLineArgs.args) :=
  do last <- deref (list.last raw);
  let background := last =? 38 in
  let line := line_of background raw in
  do '(ok, a) <- CommandLineArgs.Parse line a;
  Done (background, if ok : bool then Some a else None).

Fixpoint find_file (files : list EFIFile) (arg0 : list Z) : option EFIFile :=
  match files with
  | [] => None
  | f :: files' => if IsEqualString (file_name_ f) arg0 then Some f else find_file files' arg0
  end.
(** The arguments, read in order. *)
Fixpoint get_args (k : nat) (i : Z) (a : CommandLineArgs.args) : res (list (list Z)) :=
  match k with
  | O => Done []
  | S k' => do w <- deref (CommandLineArgs.GetArg i a); do ws <- get_args k' (i + 1) a; Done (w :: ws)
  end.
(** [None]: a message was printed instead. *)
Definition start_program (files : list EFIFile) (a : CommandLineArgs.args) (pname : Z) (proc : nat) (s : system)
  : res (option (ExecutionContext * system)) :=
  do arg0 <- deref (CommandLineArgs.GetArg 0 a);
  match find_file files arg0 with
  | None => Done None
  | Some f =>
    let argc := CommandLineArgs.GetNumOfArgs a in
    if (kMaxArgvSize <? argc)%nat then Done None
    else
      do '(c, s) <- LoadELFAndCreateEphemeralProcess f pname proc s;
      do ws <- get_args argc 0 a;
      do '(argv, c, k) <- push_args ws [] c (mach s);
      do c <- AlignStack 8 c;
      do '(c, k) <- push_argv argv c k;
      do '(c, k) <- PushDataToStack (le_bytes 8 (Z.of_nat argc)) c k;
      do sc <- RegisterProcess proc (scheduler s);
      Done (Some (c, System k (last_id s) sc))
  end.

(** What [Run] does with a line, up to the registration of the process; it then
    waits for its end, unless the line ended with an ampersand. *)
Inductive outcome :=
| ParseFailed
| BuiltIn (t : test)
| NoProgram
| Launched (background : bool) (c : ExecutionContext) (s : system).
Definition Run (files : list EFIFile) (raw : list Z) (a : CommandLineArgs.args) (pname : Z) (proc : nat) (s : system) : res outcome :=
  do '(background, o) <- command_line raw a;
  match o with
  | None => Done ParseFailed
  | Some a =>
    do arg0 <- deref (CommandLineArgs.GetArg 0 a);
    do b <- find_built_in built_ins (line_of background raw) arg0;
    match b with
    | Some t => Done (BuiltIn t)
    | None =>
      do r <- start_program files a pname proc s;
      match r with
      | Some (c, s) => Done (Launched background c s)
      | None => Done NoProgram
      end
    end
  end.
End Process.
Arguments ParseFailed {A}.
Arguments BuiltIn {A}.
Arguments NoProgram {A}.
Arguments Launched {A}.

(** ** The kernel itself *)

Section Kernel.
Context (phys_addr_mask : Z) {A : Type} (AllocBlock : Z -> A -> res (Z * A)) (kernel_pml4 : Z).

Definition kNumOfKernelMainStackPages : Z := 4.
Definition kernel_main_stack_virtual_base : Z := 0xFFFFFFFF40000000.
Definition kNumOfKernelHeapPages : Z := 4.
Definition kernel_heap_virtual_base : Z := 0xFFFFFFFF50000000.
(** The entry point and the stack pointer that [JumpToKernel] gets. *)
Definition LoadKernelELF (f : EFIFile) (k : machine) : res (Z * Z * machine) :=
  do o <- ParseProgramHeader f;
  do '(m, i) <- match o with Some x => Done x | None => Stop Panic end;
  do '(c, k) <- alloc_segment AllocBlock (code m) k;
  do '(d, k) <- alloc_segment AllocBlock (data m) k;
  do '(sp, k) <- alloc AllocBlock kNumOfKernelMainStackPages k;
  do '(hp, k) <- alloc AllocBlock kNumOfKernelHeapPages k;
  let m := MapInfo c d (Seg kernel_main_stack_virtual_base sp (Z.shiftl kNumOfKernelMainStackPages kPageSizeExponent))
             (Seg kernel_heap_virtual_base hp (Z.shiftl kNumOfKernelHeapPages kPageSizeExponent)) in
  do k <- LoadAndMap phys_addr_mask AllocBlock (contents f) kernel_pml4 m i 0 k;
  do entry_point <- e_entry (contents f);
  Done (entry_point, u64 (kernel_main_stack_virtual_base + Z.shiftl kNumOfKernelMainStackPages kPageSizeExponent), k).
End Kernel.
