(* ===== verification/ElfProofs.v ===== *)
(** * Loading and starting programs: proofs

    A program file is mapped as its program headers say, byte by byte, into the
    address space of the new process; the process starts at the entry point of
    the file with its arguments on the stack. *)

From stdpp Require Import strings.
From S2P Require Import Prelude KernelBase KernelText PhysPages Paging PagingProofs Scheduler Persist Elf.
Import Generic.

(** ** Page alignment *)

Lemma land_pages v : 0 <= v < 2 ^ 64 -> Z.land v (not64 kPageAddrMask) = v - v mod 4096.
Proof.
  intros Hv. change (not64 kPageAddrMask) with (Z.shiftl (Z.ones 52) 12).
  replace (v - v mod 4096) with (Z.shiftl (Z.shiftr v 12) 12) by (rewrite shiftl_mul, shiftr_div by lia; change (2 ^ 12) with 4096; zdiv).
  apply Z.bits_inj'. intros i Hi. rewrite Z.land_spec, !Z.shiftl_spec by lia. destruct (Z.lt_ge_cases i 12).
  - rewrite !(Z.testbit_neg_r _ (i - 12)) by lia. apply andb_false_r.
  - rewrite Z.shiftr_spec by lia. replace (i - 12 + 12) with i by lia. rewrite Z.testbit_ones_nonneg by lia.
    destruct (Z.ltb_spec (i - 12) 52); [apply andb_true_r|]. rewrite (testbit_bounded v 64 i) by lia. done.
Qed.
Lemma FloorToPageAlignment_ok v : 0 <= v < 2 ^ 64 -> FloorToPageAlignment v = v - v mod 4096.
Proof. apply land_pages. Qed.
Lemma CeilToPageAlignment_ok v : 0 <= v < 2 ^ 64 - 4096 -> CeilToPageAlignment v = 4096 * ((v + 4095) / 4096).
Proof.
  intros Hv. unfold CeilToPageAlignment. change kPageSize with 4096. rewrite (u64_small (v + 4096)), u64_small, land_pages by lia.
  replace (v + 4096 - 1) with (v + 4095) by lia. zdiv.
Qed.
Lemma aligned_true v : v mod 4096 = 0 -> IsAlignedToPageSize v = true.
Proof. intros H. unfold IsAlignedToPageSize. change kPageAddrMask with (2 ^ 12 - 1). rewrite land_mask_mod by lia. change (2 ^ 12) with 4096. by rewrite H. Qed.
Lemma page_count n : 0 <= n < 2 ^ 64 - 4096 -> n mod 4096 = 0 -> 4096 * ByteSizeToPageSize n = n.
Proof. intros Hn Hm. pose proof (ByteSizeToPageSize_ceil n Hn) as H. change kPageSize with 4096 in H. zdiv. Qed.

(** ** Program headers *)

Record header_ok (len : nat) (ph : Elf64_Phdr) : Prop := HeaderOk {
  ho_vaddr : 0 <= p_vaddr ph < 2 ^ 64;
  ho_end : low (p_vaddr ph) + p_memsz ph <= 2 ^ 48;
  ho_filesz : 0 <= p_filesz ph <= p_memsz ph;
  ho_offset : 0 <= p_offset ph < 2 ^ 64;
  ho_inside : p_offset ph + p_filesz ph <= Z.of_nat len;
  ho_page : p_offset ph mod 4096 = p_vaddr ph mod 4096;
  ho_align : p_align ph mod 4096 = 0;
}.
#[global] Instance header_ok_dec len ph : Decision (header_ok len ph).
Proof.
  refine (cast_if (decide (0 <= p_vaddr ph < 2 ^ 64 /\ low (p_vaddr ph) + p_memsz ph <= 2 ^ 48 /\ 0 <= p_filesz ph <= p_memsz ph /\
    0 <= p_offset ph < 2 ^ 64 /\ p_offset ph + p_filesz ph <= Z.of_nat len /\ p_offset ph mod 4096 = p_vaddr ph mod 4096 /\
    p_align ph mod 4096 = 0))).
  - abstract (destruct_and!; by split).
  - abstract (intros []; tauto).
Defined.

(** The pages of a segment, as addresses of 48 bits. *)
Definition in_seg (s : SegmentMapping) (x : Z) : Prop := low (vaddr_ s) <= low x < low (vaddr_ s) + map_size_ s.
Definition in_phys (s : SegmentMapping) (p : Z) : Prop := paddr_ s <= p < paddr_ s + map_size_ s.
(** A segment that has its place in the address space. *)
Record seg_ok (s : SegmentMapping) : Prop := SegOk {
  sg_vaddr : 0 <= vaddr_ s < 2 ^ 64;
  sg_page : vaddr_ s mod 4096 = 0;
  sg_size : 0 <= map_size_ s /\ map_size_ s mod 4096 = 0;
  sg_end : low (vaddr_ s) + map_size_ s <= 2 ^ 48;
}.

Section Header.
Context (len : nat) (ph : Elf64_Phdr) (H : header_ok len ph).
Abbreviation slack := (p_vaddr ph mod 4096).

Lemma seg_vaddr : vaddr_ (seg_of ph) = p_vaddr ph - slack.
Proof using H. apply FloorToPageAlignment_ok, H. Qed.
Lemma low_page : low (p_vaddr ph - slack) = low (p_vaddr ph) - slack.
Proof using H. unfold low. pow_consts. zdiv. Qed.
Lemma seg_size : map_size_ (seg_of ph) = 4096 * ((p_memsz ph + slack + 4095) / 4096).
Proof using H.
  destruct H. pose proof (low_range (p_vaddr ph)). unfold seg_of. cbn [map_size_]. rewrite FloorToPageAlignment_ok by done.
  replace (p_vaddr ph - (p_vaddr ph - slack)) with slack by lia. pose proof (Z.mod_pos_bound (p_vaddr ph) 4096).
  rewrite (u64_small slack), u64_small by (pow_consts; lia). apply CeilToPageAlignment_ok. pow_consts. lia.
Qed.
Lemma seg_of_ok : seg_ok (seg_of ph).
Proof using H.
  pose proof H as []. pose proof (low_range (p_vaddr ph)). split; rewrite ?seg_vaddr, ?seg_size, ?low_page; try zdiv.
  assert (low (p_vaddr ph) mod 4096 = slack) by (unfold low; pow_consts; zdiv). pow_consts. zdiv.
Qed.
Lemma seg_covers j : 0 <= j < p_memsz ph -> in_seg (seg_of ph) (p_vaddr ph + j) /\
  low (p_vaddr ph + j) - low (vaddr_ (seg_of ph)) = slack + j.
Proof using H.
  intros Hj. pose proof H as []. unfold in_seg. rewrite seg_vaddr, seg_size, low_page. pose proof (low_range (p_vaddr ph)).
  assert (low (p_vaddr ph + j) = low (p_vaddr ph) + j) as -> by (unfold low in *; pow_consts; zdiv). zdiv.
Qed.
(** What is copied lies in the file and in the segment. *)
Lemma copy_ok : 0 <= i_copy_size (info_of ph) <= map_size_ (seg_of ph) /\ i_copy_size (info_of ph) = p_filesz ph + slack /\
  exists off, i_data (info_of ph) = Some off /\ off = p_offset ph - slack /\ 0 <= off /\ off + i_copy_size (info_of ph) <= Z.of_nat len.
Proof using H.
  pose proof H as []. pose proof (low_range (p_vaddr ph)). unfold info_of. cbn [i_copy_size i_data]. rewrite seg_vaddr.
  replace (p_vaddr ph - (p_vaddr ph - slack)) with slack by lia. pose proof (Z.mod_pos_bound (p_vaddr ph) 4096).
  rewrite (u64_small slack), u64_small by (pow_consts; lia). rewrite seg_size.
  split; [zdiv|]. split; [lia|]. eexists. split; [done|]. rewrite FloorToPageAlignment_ok by lia. zdiv.
Qed.
End Header.

(** The headers of type [PT_LOAD], in the order of the table. *)
Fixpoint loads_from (k : nat) (i : Z) (buf : list Z) (phoff phentsize : Z) : res (list Elf64_Phdr) :=
  match k with
  | O => Done []
  | S k' =>
    let phdr := u64 (phoff + i32 (phentsize * i)) in
    do p_type <- field 4 buf phdr;
    if negb (p_type =? PT_LOAD) then loads_from k' (i + 1) buf phoff phentsize
    else do ph <- read_phdr buf phdr; do l <- loads_from k' (i + 1) buf phoff phentsize; Done (ph :: l)
  end.
Definition loads (buf : list Z) : res (list Elf64_Phdr) :=
  do phnum <- e_phnum buf;
  do phoff <- e_phoff buf;
  do phentsize <- e_phentsize buf;
  loads_from (Z.to_nat phnum) 0 buf phoff phentsize.

Fixpoint load_headers (l : list Elf64_Phdr) (st : ProcessMappingInfo * PhdrMappingInfo) : res (ProcessMappingInfo * PhdrMappingInfo) :=
  match l with [] => Done st | ph :: l' => do st <- load_header ph st; load_headers l' st end.
Lemma phdr_loop_loads k i buf phoff phentsize l st :
  loads_from k i buf phoff phentsize = Done l -> phdr_loop k i buf phoff phentsize st = load_headers l st.
Proof.
  revert i l st. induction k as [|k IH]; intros i l st E; cbn [loads_from phdr_loop] in *; [by injection E as <-|].
  destruct (field 4 buf _) as [ty|]; [|done]. cbn [rbind] in *. destruct (negb (ty =? PT_LOAD)); cbn [rbind]; [by apply IH|].
  destruct (read_phdr buf _) as [ph|]; [|done]. cbn [rbind] in *.
  destruct (loads_from k (i + 1) _ _ _) as [l'|] eqn:E'; [|done]. injection E as <-. cbn [load_headers].
  destruct (load_header ph st) as [st'|]; [|done]. cbn [rbind]. by apply IH.
Qed.

Definition executable (ph : Elf64_Phdr) : bool := negb (Z.land (p_flags ph) PF_X =? 0).
(** At most one segment is code and at most one is data. *)
Definition codes (l : list Elf64_Phdr) : list Elf64_Phdr := List.filter executable l.
Definition datas (l : list Elf64_Phdr) : list Elf64_Phdr := List.filter (fun ph => negb (executable ph)) l.
Definition code_of (l : list Elf64_Phdr) : option Elf64_Phdr := head (codes l).
Definition data_of (l : list Elf64_Phdr) : option Elf64_Phdr := head (datas l).
Definition at_most_one_each (l : list Elf64_Phdr) : Prop := (length (codes l) <= 1)%nat /\ (length (datas l) <= 1)%nat.
Definition segment (o : option Elf64_Phdr) : SegmentMapping := from_option seg_of no_segment o.
Definition seg_info (o : option Elf64_Phdr) : PhdrInfo := from_option info_of no_info o.

Lemma load_headers_ok l :
  at_most_one_each l -> Forall (fun ph => p_align ph mod 4096 = 0) l ->
  load_headers l (no_mapping, PhdrMapping no_info no_info) =
    Done (MapInfo (segment (code_of l)) (segment (data_of l)) no_segment no_segment,
          PhdrMapping (seg_info (code_of l)) (seg_info (data_of l))).
Proof.
  unfold at_most_one_each, code_of, data_of, codes, datas. intros [Hc Hd] Ha.
  destruct l as [|a [|b [|c l]]]; [done|..]; cbn [load_headers];
    repeat match goal with H : Forall _ (_ :: _) |- _ => apply Forall_cons_1 in H as [? ?] end; unfold load_header;
    rewrite !aligned_true by done; cbn [kassert rbind];
    change (negb (Z.land (p_flags ?x) PF_X =? 0)) with (executable x).
  all: cbn [List.filter] in *.
  - destruct (executable a); reflexivity.
  - destruct (executable a), (executable b); simpl in Hc, Hd; try lia; reflexivity.
  - destruct (executable a), (executable b), (executable c); simpl in Hc, Hd; lia.
Qed.

(** ** A program *)

Record program (f : EFIFile) (entry : Z) (l : list Elf64_Phdr) : Prop := Program {
  pg_buf : buf_pages_ f mod 4096 = 0;
  pg_magic : EnsureLoadable (contents f) = Done true;
  pg_entry : e_entry (contents f) = Done entry;
  pg_loads : loads (contents f) = Done l;
  pg_each : at_most_one_each l;
  pg_headers : Forall (header_ok (length (contents f))) l;
}.
Lemma ParseProgramHeader_ok f entry l :
  program f entry l ->
  ParseProgramHeader f = Done (Some (MapInfo (segment (code_of l)) (segment (data_of l)) no_segment no_segment,
                                     PhdrMapping (seg_info (code_of l)) (seg_info (data_of l)))).
Proof.
  intros [Hb Hm _ Hl He Hh]. unfold ParseProgramHeader. rewrite aligned_true by done. cbn [kassert rbind]. rewrite Hm. cbn [negb rbind].
  unfold loads in Hl. destruct (e_phnum _) as [n|]; [|done]. cbn [rbind] in *. destruct (e_phoff _) as [o|]; [|done]. cbn [rbind] in *.
  destruct (e_phentsize _) as [z|]; [|done]. cbn [rbind] in *. rewrite (phdr_loop_loads _ _ _ _ _ _ _ Hl), load_headers_ok; [done|done|].
  eapply Forall_impl; [|exact Hh]. by intros ? [].
Qed.
Lemma elem_of_codes l ph : ph ∈ codes l <-> ph ∈ l /\ executable ph = true.
Proof. unfold codes. by rewrite !list_elem_of_In, List.filter_In. Qed.
Lemma elem_of_datas l ph : ph ∈ datas l <-> ph ∈ l /\ executable ph = false.
Proof. unfold datas. by rewrite !list_elem_of_In, List.filter_In, negb_true_iff. Qed.
Lemma code_of_Some l ph : code_of l = Some ph -> ph ∈ l /\ executable ph = true.
Proof. intros E. by apply elem_of_codes, head_Some_elem_of. Qed.
Lemma data_of_Some l ph : data_of l = Some ph -> ph ∈ l /\ executable ph = false.
Proof. intros E. by apply elem_of_datas, head_Some_elem_of. Qed.
Lemma loads_are l ph : at_most_one_each l -> ph ∈ l -> code_of l = Some ph \/ data_of l = Some ph.
Proof.
  unfold at_most_one_each, code_of, data_of. intros [Hc Hd] Hin.
  assert (forall m : list Elf64_Phdr, (length m <= 1)%nat -> ph ∈ m -> head m = Some ph) as Hone.
  { intros [|a [|]] Hl Hm; simpl in *; [by apply elem_of_nil in Hm|by apply list_elem_of_singleton in Hm as ->|lia]. }
  destruct (executable ph) eqn:E; [left|right]; apply Hone; try done; [by apply elem_of_codes|by apply elem_of_datas].
Qed.

(** ** Mapping segments *)

Definition apart (s1 s2 : SegmentMapping) : Prop :=
  low (vaddr_ s1) + map_size_ s1 <= low (vaddr_ s2) \/ low (vaddr_ s2) + map_size_ s2 <= low (vaddr_ s1).
#[global] Instance apart_dec s1 s2 : Decision (apart s1 s2).
Proof. unfold apart. apply _. Defined.

Section Mapping.
Context (w : Z) (Hw : 39 <= w <= 52) (root : Z).
Context {A : Type} (AllocBlock : Z -> A -> res (Z * A)) {BS : BlockSource w AllocBlock}.
Abbreviation mask := (2 ^ w - 1).
Abbreviation translate k x := (v2p mask (tabs k) root x).

(** The reason of a stop is one of the allocator's. *)
Definition alloc_stops (e : stop) : Prop := exists n a, 0 <= n /\ source_ok a /\ AllocBlock n a = Stop e.

(** The segment has physical memory of its size, or is empty. *)
Definition has_memory (s : SegmentMapping) : Prop :=
  (0 < paddr_ s /\ paddr_ s mod 4096 = 0 /\ paddr_ s + map_size_ s <= 2 ^ w) \/ (paddr_ s = 0 /\ map_size_ s = 0).
Definition unmapped (k : machine (A := A)) (s : SegmentMapping) : Prop := forall x, in_seg s x -> translate k x = Done kAddrCannotTranslate.

(** From [k0] to [k] exactly the segments [l] have been mapped. *)
Record maps (k0 : machine (A := A)) (l : list SegmentMapping) (k : machine (A := A)) : Prop := Maps {
  mp_tables : tables_ok w root (AllocBlock 1) (tabs k) (dram k);
  mp_inside : forall s x, s ∈ l -> in_seg s x -> translate k x = Done (paddr_ s + (low x - low (vaddr_ s)));
  mp_outside : forall x, (forall s, s ∈ l -> ~ in_seg s x) -> translate k x = translate k0 x;
}.

Lemma Map_ok k0 l k s attr :
  maps k0 l k -> attr_ok (Z.lor kPageAttrPresent attr) -> seg_ok s -> has_memory s -> unmapped k0 s -> Forall (apart s) l ->
  match Map mask AllocBlock s root attr k with
  | Done k' => maps k0 (l ++ [s]) k' /\ ram k' = ram k
  | Stop e => alloc_stops e
  end.
Proof.
  intros [Ht Hi Ho] Ha [Hv Hp [Hs Hsm] He] Hm Hu Hap. rewrite List.Forall_forall in Hap. setoid_rewrite <- list_elem_of_In in Hap.
  unfold Map. destruct Hm as [(Hp0 & Hpm & Hpe)|[-> Hz]].
  2:{ split; [|done]. split; [done|..].
      - intros s' x [Hin| ->%list_elem_of_singleton]%elem_of_app Hx; [by apply Hi|]. unfold in_seg in Hx. lia.
      - intros x Hx. apply Ho. intros s' Hs'. apply Hx, elem_of_app. by left. }
  zfalse (paddr_ s =? 0). pose proof (low_range (vaddr_ s)) as Hr.
  assert (4096 * ByteSizeToPageSize (map_size_ s) = map_size_ s) as Hn by (apply page_count; [pow_consts; lia|done]).
  pose proof (CreatePageMapping_ok w Hw root (AllocBlock 1) (tabs k) (dram k) (vaddr_ s) (paddr_ s) (map_size_ s) _ Ha Ht Hp Hpm) as H.
  cbn zeta in H. rewrite Hn in H. specialize (H ltac:(lia) ltac:(lia) ltac:(lia) ltac:(lia)).
  assert (forall x, in_seg s x -> translate k x = Done kAddrCannotTranslate) as Hun.
  { intros x Hx. rewrite Ho; [by apply Hu|]. intros s' Hs' Hx'. specialize (Hap s' Hs'). unfold apart, in_seg in *. lia. }
  destruct (CreatePageMapping _ _ _ _ _ _ _ _ _) as [[m' a']|e]; cbn [rbind].
  - destruct H as (Ht' & Hin & Hout). split; [|done]. split; [done|..]; cbn [tabs].
    + intros s' x [Hs'| ->%list_elem_of_singleton]%elem_of_app Hx; [|by apply Hin].
      rewrite Hout; [by apply Hi|]. intros Hx'. specialize (Hap s' Hs'). unfold apart, in_seg in *. lia.
    + intros x Hx. rewrite Hout; [apply Ho|]; [intros s' Hs'|]; apply Hx, elem_of_app; [by left|right; by apply list_elem_of_singleton].
  - destruct H as [(a & Hsa & E)|(_ & x & Hx & Hne)]; [exists 1, a; by split|]. destruct Hne. by apply Hun.
Qed.

(** ** Loading segments *)

Lemma put_out p l r x : ~ (p <= x < p + Z.of_nat (length l)) -> put p l r x = r x.
Proof. intros H. unfold put. by destruct (Z.leb_spec p x), (Z.ltb_spec x (p + Z.of_nat (length l))); try lia. Qed.
Lemma put_in p l r x : p <= x < p + Z.of_nat (length l) -> put p l r x = nth (Z.to_nat (x - p)) l 0.
Proof. intros H. unfold put. by destruct (Z.leb_spec p x), (Z.ltb_spec x (p + Z.of_nat (length l))); try lia. Qed.

(** What a segment holds at [j] behind its start. *)
Definition image (buf : list Z) (i : PhdrInfo) (j : Z) : Z :=
  if j <? i_copy_size i then nth (Z.to_nat (default 0 (i_data i) + j)) buf 0 else 0.
(** A segment and the description of its contents fit. *)
Record fits (buf : list Z) (s : SegmentMapping) (i : PhdrInfo) : Prop := Fits {
  ft_vaddr : vaddr_ s = i_vaddr i;
  ft_size : map_size_ s = i_map_size i;
  ft_copy : 0 <= i_copy_size i <= i_map_size i;
  ft_file : i_copy_size i = 0 \/ exists off, i_data i = Some off /\ 0 <= off /\ off + i_copy_size i <= Z.of_nat (length buf);
}.
Definition holds_image (r : Z -> Z) (buf : list Z) (s : SegmentMapping) (i : PhdrInfo) : Prop :=
  forall j, 0 <= j < map_size_ s -> r (paddr_ s + j) = image buf i j.

Lemma file_bytes_ok buf s i : fits buf s i ->
  exists l, file_bytes buf (i_data i) (i_copy_size i) = Done l /\ Z.of_nat (length l) = i_copy_size i /\
    forall j, 0 <= j < i_copy_size i -> nth (Z.to_nat j) l 0 = image buf i j.
Proof.
  intros [_ _ Hc Hf]. unfold file_bytes. destruct (Z.eqb_spec (i_copy_size i) 0) as [->|Hne]; [exists []; split_and!; [done|done|lia]|].
  destruct Hf as [|(off & Eo & Ho & He)]; [done|]. rewrite Eo. cbn [deref rbind].
  set (l := take _ _). assert (length l = Z.to_nat (i_copy_size i)) as Hl by (unfold l; rewrite length_take, length_drop; lia).
  rewrite Hl, Nat.eqb_refl. exists l. split; [done|]. split; [lia|]. intros j Hj. unfold image. ztrue (j <? i_copy_size i). rewrite Eo. change (default 0 (Some off)) with off.
  unfold l. rewrite nth_lookup, lookup_take_lt, lookup_drop by lia. rewrite nth_lookup. do 2 f_equal. lia.
Qed.

Lemma LoadAndMapSegment_ok buf k0 l k s i attr :
  maps k0 l k -> attr_ok (Z.lor kPageAttrPresent attr) -> seg_ok s -> has_memory s -> paddr_ s <> 0 -> unmapped k0 s -> Forall (apart s) l ->
  fits buf s i ->
  match LoadAndMapSegment mask AllocBlock buf root s i attr k with
  | Done k' => maps k0 (l ++ [s]) k' /\ holds_image (ram k') buf s i /\ forall p, ~ in_phys s p -> ram k' p = ram k p
  | Stop e => alloc_stops e
  end.
Proof.
  intros Hm Ha Hs Hmem Hnz Hu Hap Hfit. destruct (file_bytes_ok buf s i Hfit) as (b & Eb & Lb & Hb). destruct Hfit as [Ev Ez Hc _].
  unfold LoadAndMapSegment. rewrite Ev, Ez, !Z.eqb_refl, Eb. zfalse (paddr_ s =? 0). cbn [negb kassert rbind].
  zfalse (i_map_size i <? i_copy_size i). set (r := put _ _ (put _ _ _)).
  pose proof (Map_ok k0 l (Machine (tabs k) (dram k) r) s attr) as H. destruct (Map _ _ _ _ _ _) as [k'|e].
  - destruct H as [H1 H2]; [by destruct Hm|done..|]. cbn [ram] in H2. split; [done|]. rewrite H2. unfold r, in_phys. rewrite Ez. split.
    + intros j Hj. destruct (Z.lt_ge_cases j (i_copy_size i)).
      * rewrite put_out by (rewrite length_replicate; lia). rewrite put_in by lia. rewrite <- (Hb j) by lia. f_equal. lia.
      * rewrite put_in by (rewrite length_replicate; lia). unfold image. zfalse (j <? i_copy_size i). by rewrite nth_lookup, lookup_replicate_2 by lia.
    + intros p Hp. rewrite !put_out; [done|..]; rewrite ?length_replicate; lia.
  - apply H; try done. by destruct Hm.
Qed.

(** Everything that [LoadAndMap] is given. *)
Record load_env (buf : list Z) (m : ProcessMappingInfo) (i : PhdrMappingInfo) (k0 : machine (A := A)) : Prop := LoadEnv {
  le_segs : Forall seg_ok [code m; data m; stack m; heap m];
  le_memory : Forall has_memory [code m; data m; stack m; heap m];
  le_unmapped : Forall (unmapped k0) [code m; data m; stack m; heap m];
  le_apart : apart (data m) (code m) /\ Forall (apart (stack m)) [code m; data m] /\ Forall (apart (heap m)) [code m; data m; stack m];
  le_nonnull : paddr_ (code m) <> 0 /\ paddr_ (data m) <> 0;
  le_phys : forall p, in_phys (code m) p -> ~ in_phys (data m) p;
  le_code : fits buf (code m) (i_code i);
  le_data : fits buf (data m) (i_seg_data i);
}.
Lemma LoadAndMap_ok buf m i base_attr k0 :
  base_attr = 0 \/ base_attr = kPageAttrUser -> load_env buf m i k0 -> tables_ok w root (AllocBlock 1) (tabs k0) (dram k0) ->
  match LoadAndMap mask AllocBlock buf root m i base_attr k0 with
  | Done k => maps k0 [code m; data m; stack m; heap m] k /\
      holds_image (ram k) buf (code m) (i_code i) /\ holds_image (ram k) buf (data m) (i_seg_data i) /\
      forall p, ~ in_phys (code m) p -> ~ in_phys (data m) p -> ram k p = ram k0 p
  | Stop e => alloc_stops e
  end.
Proof.
  intros Ha [Hs Hmem Hu (A1 & A2 & A3) [Nc Nd] Hph Fc Fd] Ht. rewrite !List.Forall_cons_iff in Hs, Hmem, Hu.
  destruct Hs as (? & ? & ? & ? & _), Hmem as (? & ? & ? & ? & _), Hu as (? & ? & ? & ? & _).
  assert (maps k0 [] k0) as M0 by (split; [done|set_solver|done]).
  set (page_attr := Z.lor kPageAttrPresent base_attr).
  assert (attr_ok (Z.lor kPageAttrPresent page_attr) /\ attr_ok (Z.lor kPageAttrPresent (Z.lor page_attr kPageAttrWritable))) as [Ha1 Ha2]
    by (unfold page_attr; destruct Ha as [-> | ->]; done).
  unfold LoadAndMap. fold page_attr.
  pose proof (LoadAndMapSegment_ok buf k0 [] k0 (code m) (i_code i) page_attr) as S1.
  destruct (LoadAndMapSegment _ _ _ _ (code m) _ _ _) as [k1|e]; [|by apply S1]. cbn [rbind].
  destruct S1 as (M1 & I1 & R1); [done..|].
  pose proof (LoadAndMapSegment_ok buf k0 [code m] k1 (data m) (i_seg_data i) (Z.lor page_attr kPageAttrWritable)) as S2.
  destruct (LoadAndMapSegment _ _ _ _ (data m) _ _ _) as [k2|e]; [|apply S2; done || by apply Forall_singleton]. cbn [rbind].
  destruct S2 as (M2 & I2 & R2); [done || by apply Forall_singleton..|].
  pose proof (Map_ok k0 [code m; data m] k2 (stack m) (Z.lor page_attr kPageAttrWritable)) as S3.
  destruct (Map _ _ (stack m) _ _ _) as [k3|e]; [|by apply S3]. cbn [rbind]. destruct S3 as (M3 & R3); [done..|].
  pose proof (Map_ok k0 [code m; data m; stack m] k3 (heap m) (Z.lor page_attr kPageAttrWritable)) as S4.
  destruct (Map _ _ (heap m) _ _ _) as [k4|e]; [|by apply S4]. destruct S4 as (M4 & R4); [done..|].
  rewrite R4, R3. split; [done|]. split; [|split; [done|]].
  - intros j Hj. rewrite R2; [by apply I1|]. apply Hph. unfold in_phys. lia.
  - intros p Hc Hd. by rewrite R2, R1.
Qed.

(** ** Memory for segments *)

Lemma tables_ok_alloc m a n p a' :
  0 <= n -> tables_ok w root (AllocBlock 1) m a -> AllocBlock n a = Done (p, a') -> tables_ok w root (AllocBlock 1) m a'.
Proof.
  intros Hn (own & Hwf & Hs & Hav) E. destruct (alloc_block_law _ _ _ _ Hn Hs E) as (Hs' & _ & _ & _ & _ & Hu).
  exists own. split; [done|]. split; [done|]. eauto.
Qed.
(** A block of [n] pages at [p] that is taken and one that is free have no byte in common. *)
Definition taken_from (a : A) (p n : Z) : Prop :=
  0 < p /\ p mod 4096 = 0 /\ p + 4096 * n <= 2 ^ w /\ forall i, 0 <= i < n -> ~ avail a (p + 4096 * i).
Lemma taken_apart a p n q m a' x :
  0 <= m -> source_ok a -> taken_from a p n -> AllocBlock m a = Done (q, a') ->
  p <= x < p + 4096 * n -> ~ (q <= x < q + 4096 * m).
Proof.
  intros Hm Hs (_ & Hp & _ & Hna) E Hx Hq. destruct (alloc_block_law _ _ _ _ Hm Hs E) as (_ & _ & Hqa & _ & Hav & _).
  destruct (Hav ((x - q) / 4096) ltac:(zdiv)) as [H _]. apply (Hna ((x - p) / 4096)); [zdiv|].
  replace (p + 4096 * ((x - p) / 4096)) with (q + 4096 * ((x - q) / 4096)) by zdiv. done.
Qed.
Lemma alloc_ok n k :
  0 <= n -> tables_ok w root (AllocBlock 1) (tabs k) (dram k) ->
  match alloc AllocBlock n k with
  | Done (p, k') => exists a', k' = Machine (tabs k) a' (ram k) /\ AllocBlock n (dram k) = Done (p, a') /\
      tables_ok w root (AllocBlock 1) (tabs k) a' /\ taken_from a' p n /\
      forall q m, taken_from (dram k) q m -> taken_from a' q m
  | Stop e => alloc_stops e
  end.
Proof.
  intros Hn Ht. unfold alloc. destruct (AllocBlock n (dram k)) as [[p a']|e] eqn:E; cbn [rbind].
  - exists a'. split; [done|]. split; [done|]. split; [by eapply tables_ok_alloc|].
    destruct Ht as (own & _ & Hs & _). destruct (alloc_block_law _ _ _ _ Hn Hs E) as (_ & Hp & Hpa & Hpe & Hav & Hu). split.
    + split_and!; try done. intros i Hi. by apply Hav.
    + intros q m (Hq & Hqa & Hqe & Hna). split_and!; try done. intros i Hi Ha. by apply (Hna i Hi), Hu.
  - destruct Ht as (own & _ & Hs & _). by exists n, (dram k).
Qed.

(** ** A user program *)

Definition stack_at (p : Z) : SegmentMapping := Seg kUserStackBaseAddr p (Z.shiftl kNumOfStackPages kPageSizeExponent).
(** The segments lie in the lower half, apart from each other and the stack. *)
Record user_program (f : EFIFile) (entry : Z) (l : list Elf64_Phdr) : Prop := UserProgram {
  up_program : program f entry l;
  up_low : Forall (fun ph => p_vaddr ph + p_memsz ph <= 2 ^ 47) l;
  up_apart : apart (segment (data_of l)) (segment (code_of l));
  up_stack : Forall (fun ph => apart (stack_at 0) (seg_of ph)) l;
}.
(** What the program expects at [j] behind the start of a segment. *)
Definition file_byte (f : EFIFile) (ph : Elf64_Phdr) (j : Z) : Z :=
  if j <? p_filesz ph then nth (Z.to_nat (p_offset ph + j)) (contents f) 0 else 0.

(** The segment of an optional header. *)
Lemma segment_cases (P : SegmentMapping -> Prop) o : P no_segment -> (forall ph, o = Some ph -> P (seg_of ph)) -> P (segment o).
Proof using. destruct o; simpl; auto. Qed.

Section Program.
Context (f : EFIFile) (entry : Z) (l : list Elf64_Phdr) (Hf : user_program f entry l).

Lemma header_in ph : ph ∈ l -> header_ok (length (contents f)) ph.
Proof using Hf. intros Hin. pose proof (pg_headers _ _ _ (up_program _ _ _ Hf)) as H. rewrite List.Forall_forall in H. by apply H, list_elem_of_In. Qed.
Lemma segment_of_load o : o = code_of l \/ o = data_of l ->
  seg_ok (segment o) /\ low (vaddr_ (segment o)) + map_size_ (segment o) <= 2 ^ 47 /\ apart (stack_at 0) (segment o).
Proof using Hf.
  intros Ho. assert (forall ph, o = Some ph -> ph ∈ l) as Hin.
  { intros ph E. destruct Ho as [-> | ->]; [by apply code_of_Some|by apply data_of_Some]. }
  apply (segment_cases (fun s => seg_ok s /\ low (vaddr_ s) + map_size_ s <= 2 ^ 47 /\ apart (stack_at 0) s)).
  - split; [by split|]. split; [done|]. right. done.
  - intros ph E. pose proof (Hin ph E) as H. pose proof (header_in ph H) as Hh. split; [by eapply seg_of_ok|]. split.
    + pose proof (up_low _ _ _ Hf) as Hl. rewrite List.Forall_forall in Hl. specialize (Hl ph (proj1 (list_elem_of_In _ _) H)). cbn beta in Hl.
      rewrite (seg_vaddr _ _ Hh), (seg_size _ _ Hh), (low_page _ _ Hh). destruct Hh. unfold low. rewrite Z.mod_small by (pow_consts; lia).
      change (2 ^ 47) with (4096 * 34359738368) in *. zdiv.
    + pose proof (up_stack _ _ _ Hf) as Hl. rewrite List.Forall_forall in Hl. by apply Hl, list_elem_of_In.
Qed.
Lemma segment_fits o p : o = code_of l \/ o = data_of l -> fits (contents f) (SetPhysAddr p (segment o)) (seg_info o).
Proof using Hf.
  intros Ho. destruct o as [ph|]; simpl.
  - assert (header_ok (length (contents f)) ph) as Hh.
    { apply header_in. destruct Ho as [E|E]; [by apply code_of_Some|by apply data_of_Some]. }
    destruct (copy_ok _ _ Hh) as (Hc & _ & off & Eo & _ & H1 & H2). split; try done. right. by exists off.
  - split; try done. by left.
Qed.
Lemma segment_image o ph j r p : o = code_of l \/ o = data_of l -> o = Some ph -> 0 <= j < p_memsz ph ->
  holds_image r (contents f) (SetPhysAddr p (segment o)) (seg_info o) ->
  r (p + (low (p_vaddr ph + j) - low (vaddr_ (seg_of ph)))) = file_byte f ph j.
Proof using Hf.
  intros Ho -> Hj Hr. assert (header_ok (length (contents f)) ph) as Hh.
  { apply header_in. destruct Ho as [E|E]; [by apply code_of_Some|by apply data_of_Some]. }
  destruct (seg_covers _ _ Hh j Hj) as [Hin ->]. destruct (copy_ok _ _ Hh) as (_ & Ec & off & Eo & -> & _).
  unfold holds_image, segment, seg_info, SetPhysAddr in Hr. cbn [from_option paddr_ map_size_] in Hr. rewrite Hr.
  - unfold image, file_byte. rewrite Ec, Eo. cbn [default from_option id]. pose proof (Z.mod_pos_bound (p_vaddr ph) 4096).
    destruct (Z.ltb_spec j (p_filesz ph)); [ztrue (p_vaddr ph mod 4096 + j <? p_filesz ph + p_vaddr ph mod 4096)|
      zfalse (p_vaddr ph mod 4096 + j <? p_filesz ph + p_vaddr ph mod 4096)]; [|done]. do 2 f_equal. simpl. lia.
  - rewrite (seg_size _ _ Hh). pose proof (Z.mod_pos_bound (p_vaddr ph) 4096). zdiv.
Qed.
End Program.

(** The address space of a loaded program: every byte of its segments, the
    stack at the physical address [sp] apart from them, the upper half as before. *)
Record loaded (f : EFIFile) (l : list Elf64_Phdr) (k0 : machine (A := A)) (sp : Z) (k : machine (A := A)) : Prop := Loaded {
  lo_tables : tables_ok w root (AllocBlock 1) (tabs k) (dram k);
  lo_image : forall ph j, ph ∈ l -> 0 <= j < p_memsz ph ->
    exists p, translate k (p_vaddr ph + j) = Done p /\ ram k p = file_byte f ph j /\ ~ in_phys (stack_at sp) p;
  lo_stack : 0 < sp /\ sp + 131072 <= 2 ^ w /\ forall j, 0 <= j < 131072 -> translate k (kUserStackBaseAddr + j) = Done (sp + j);
  lo_upper : forall x, 2 ^ 47 <= low x -> translate k x = translate k0 x;
}.

(** The memory of its segments: three blocks, allocated one after the other. *)
Section Blocks.
Context (f : EFIFile) (entry : Z) (l : list Elf64_Phdr) (Hf : user_program f entry l).
Context (k : machine (A := A)) (pc pd sp : Z) (a1 a2 a3 : A).
Abbreviation pages o := (ByteSizeToPageSize (map_size_ (segment o))).
Hypothesis Hu : forall x, low x < 2 ^ 47 -> translate k x = Done kAddrCannotTranslate.
Hypothesis B1 : taken_from a1 pc (pages (code_of l)).
Hypothesis Bc : taken_from a2 pc (pages (code_of l)).
Hypothesis B2 : taken_from a2 pd (pages (data_of l)).
Hypothesis B3 : taken_from a3 sp kNumOfStackPages.
Hypothesis E2 : AllocBlock (pages (data_of l)) a1 = Done (pd, a2).
Hypothesis E3 : AllocBlock kNumOfStackPages a2 = Done (sp, a3).
Hypothesis S1 : source_ok a1.
Hypothesis S2 : source_ok a2.

Definition blocks : ProcessMappingInfo :=
  MapInfo (SetPhysAddr pc (segment (code_of l))) (SetPhysAddr pd (segment (data_of l))) (stack_at sp) no_segment.
Abbreviation infos := (PhdrMapping (seg_info (code_of l)) (seg_info (data_of l))).

Lemma segment_pages o : o = code_of l \/ o = data_of l -> 0 <= pages o /\ 4096 * pages o = map_size_ (segment o).
Proof using Hf.
  intros Ho. destruct (segment_of_load f entry l Hf o Ho) as ([_ _ [Hz Hm] He] & Hl & _). pose proof (low_range (vaddr_ (segment o))).
  assert (4096 * pages o = map_size_ (segment o)) by (apply page_count; [pow_consts; lia|done]). lia.
Qed.
Lemma stack_consts : low kUserStackBaseAddr = 3203334144 /\ Z.shiftl kNumOfStackPages kPageSizeExponent = 131072 /\
  4096 * kNumOfStackPages = 131072.
Proof using. done. Qed.

Lemma blocks_env : load_env (contents f) blocks infos (Machine (tabs k) a3 (ram k)).
Proof using Hw Hf Hu B1 Bc B2 B3 E2 S1.
  destruct (segment_of_load f entry l Hf (code_of l) ltac:(by left)) as (Sc & Lc & Ac).
  destruct (segment_of_load f entry l Hf (data_of l) ltac:(by right)) as (Sd & Ld & Ad).
  destruct (segment_pages (code_of l) ltac:(by left)) as [Nc Ec], (segment_pages (data_of l) ltac:(by right)) as [Nd Ed].
  assert (forall s a p n, taken_from a p n -> 4096 * n = map_size_ s -> has_memory (SetPhysAddr p s)) as Hmem.
  { intros s a p n (? & ? & ? & _) En. left. simpl. lia. }
  destruct stack_consts as (K1 & K2 & _).
  split; cbn [blocks code data stack heap i_code i_seg_data].
  - repeat constructor; try done; apply Sc || apply Sd.
  - repeat apply List.Forall_cons; [by apply (Hmem _ _ _ _ Bc)|by apply (Hmem _ _ _ _ B2)|by apply (Hmem (stack_at 0) _ _ _ B3)|by right|done].
  - repeat apply List.Forall_cons; [..|done]; intros x Hx; apply Hu; unfold in_seg in Hx;
      cbn [SetPhysAddr stack_at no_segment vaddr_ map_size_] in Hx; rewrite ?K1, ?K2 in Hx; lia.
  - split; [apply (up_apart _ _ _ Hf)|]. split; repeat apply List.Forall_cons; try done; left; apply low_range.
  - destruct B1 as (? & _), B2 as (? & _). split; simpl; lia.
  - intros p Hp Hp'. unfold in_phys in *. cbn [SetPhysAddr paddr_ map_size_] in Hp, Hp'.
    apply (taken_apart a1 pc _ pd _ a2 p Nd S1 B1 E2); lia.
  - apply (segment_fits f entry l Hf). by left.
  - apply (segment_fits f entry l Hf). by right.
Qed.

(** One of the two segments, at [p]. *)
Lemma block_image o ph p j r :
  o = code_of l \/ o = data_of l -> o = Some ph -> taken_from a2 p (pages o) -> 0 <= j < p_memsz ph ->
  holds_image r (contents f) (SetPhysAddr p (segment o)) (seg_info o) ->
  let x := p + (low (p_vaddr ph + j) - low (vaddr_ (segment o))) in r x = file_byte f ph j /\ ~ in_phys (stack_at sp) x.
Proof using Hw Hf E3 S2.
  intros Ho Eo Hp Hj Hr. destruct (segment_pages o Ho) as [Np Ep]. rewrite Eo in Ep |- *.
  assert (ph ∈ l) as Hin by (destruct Ho as [-> | ->]; [by apply code_of_Some|by apply data_of_Some]).
  pose proof (header_in f entry l Hf ph Hin) as Hh. destruct (seg_covers _ _ Hh j Hj) as [Hseg _].
  split; [by apply (segment_image f entry l Hf o)|]. unfold in_seg in Hseg. rewrite Eo in Hp.
  apply (taken_apart a2 p _ sp kNumOfStackPages a3 _ ltac:(done) S2 Hp E3). cbn [segment from_option] in *. lia.
Qed.

Lemma blocks_loaded k' :
  maps (Machine (tabs k) a3 (ram k)) [code blocks; data blocks; stack blocks; heap blocks] k' ->
  holds_image (ram k') (contents f) (code blocks) (seg_info (code_of l)) ->
  holds_image (ram k') (contents f) (data blocks) (seg_info (data_of l)) -> loaded f l k sp k'.
Proof using Hw Hf Bc B2 B3 E3 S2.
  intros [Mt Mi Mo] Ic Id. destruct stack_consts as (K1 & K2 & K3).
  destruct (segment_of_load f entry l Hf (code_of l) ltac:(by left)) as (_ & Lc & _).
  destruct (segment_of_load f entry l Hf (data_of l) ltac:(by right)) as (_ & Ld & _). split; [done|..].
  - intros ph j Hin Hj. pose proof (header_in f entry l Hf ph Hin) as Hh. destruct (seg_covers _ _ Hh j Hj) as [Hseg _].
    destruct (loads_are l ph (pg_each _ _ _ (up_program _ _ _ Hf)) Hin) as [Eo|Eo]; eexists.
    + split; [apply (Mi (code blocks)); [by left|]; change (in_seg (segment (code_of l)) (p_vaddr ph + j)); by rewrite Eo|].
      apply (block_image (code_of l)); try done. by left.
    + split; [apply (Mi (data blocks)); [by right; left|]; change (in_seg (segment (data_of l)) (p_vaddr ph + j)); by rewrite Eo|].
      apply (block_image (data_of l)); try done. by right.
  - destruct B3 as (? & _ & Hb & _). rewrite K3 in Hb. split; [done|]. split; [done|]. intros j Hj.
    assert (low (kUserStackBaseAddr + j) = 3203334144 + j) as El by (unfold low, kUserStackBaseAddr; rewrite Z.mod_small; lia).
    rewrite (Mi (stack blocks)); [|by right; right; left|]; cbn [blocks stack stack_at paddr_]; unfold in_seg;
      change (vaddr_ (stack_at sp)) with kUserStackBaseAddr; rewrite El, K1; [f_equal; lia|]. change (map_size_ (stack_at sp)) with 131072. lia.
  - intros x Hx. rewrite Mo; [done|]. intros s Hs Hi. unfold in_seg in Hi.
    assert (low (vaddr_ s) + map_size_ s <= 2 ^ 47); [|lia].
    rewrite !elem_of_cons in Hs. destruct Hs as [-> |[-> |[-> |[-> |Hs]]]]; [done..|by apply elem_of_nil in Hs].
Qed.
End Blocks.

Lemma load_user_ok f entry l k :
  user_program f entry l -> tables_ok w root (AllocBlock 1) (tabs k) (dram k) ->
  (forall x, low x < 2 ^ 47 -> translate k x = Done kAddrCannotTranslate) ->
  match load_user mask AllocBlock f root k with
  | Done (m, k') => exists sp, stack m = stack_at sp /\ loaded f l k sp k'
  | Stop e => alloc_stops e
  end.
Proof.
  intros Hf Ht Hu. unfold load_user. rewrite (ParseProgramHeader_ok f entry l) by apply Hf. cbn [rbind code data heap].
  destruct (segment_pages f entry l Hf (code_of l) ltac:(by left)) as [Nc _], (segment_pages f entry l Hf (data_of l) ltac:(by right)) as [Nd _].
  unfold alloc_segment. pose proof (alloc_ok _ k Nc Ht) as S1.
  destruct (alloc _ _ k) as [[pc k1]|e]; [|done]. cbn [rbind]. destruct S1 as (a1 & -> & E1 & T1 & B1 & _).
  pose proof (alloc_ok _ (Machine (tabs k) a1 (ram k)) Nd T1) as S2.
  destruct (alloc _ _ (Machine _ a1 _)) as [[pd k2]|e]; [|done]. cbn [rbind]. destruct S2 as (a2 & -> & E2 & T2 & B2 & K2). cbn [tabs dram ram] in *.
  pose proof (alloc_ok kNumOfStackPages (Machine (tabs k) a2 (ram k)) ltac:(done) T2) as S3.
  destruct (alloc _ _ (Machine _ a2 _)) as [[sp k3]|e]; [|done]. cbn [rbind]. destruct S3 as (a3 & -> & E3 & T3 & B3 & _). cbn [tabs dram ram] in *.
  assert (source_ok a1 /\ source_ok a2) as [Hs1 Hs2] by (destruct T1 as (? & _ & ? & _), T2 as (? & _ & ? & _); done).
  change (MapInfo _ _ _ _) with (blocks l pc pd sp).
  pose proof (blocks_env f entry l Hf k pc pd sp a1 a2 a3 Hu B1 (K2 _ _ B1) B2 B3 E2 Hs1) as He.
  pose proof (LoadAndMap_ok (contents f) _ _ kPageAttrUser _ ltac:(by right) He T3) as HL.
  destruct (LoadAndMap _ _ _ _ _ _ _ _) as [k'|e]; [|done]. cbn [rbind]. destruct HL as (M & Ic & Id & _).
  exists sp. split; [done|]. by apply (blocks_loaded f entry l Hf k pc pd sp a2 a3 (K2 _ _ B1) B2 B3 E3 Hs2).
Qed.
End Mapping.

(** ** Creating the process *)

Section Start.
Context (w : Z) (Hw : 39 <= w <= 52).
Context {A : Type} (AllocBlock : Z -> A -> res (Z * A)) {BS : BlockSource w AllocBlock}.
Context (kernel_pml4 straight_base sizeof_Process garbage : Z) (stdin : list Z).
Abbreviation mask := (2 ^ w - 1).
Abbreviation system := (system (A := A)).

Lemma pages_nonneg n : 0 <= ByteSizeToPageSize n.
Proof. unfold ByteSizeToPageSize. rewrite Z.shiftr_nonneg. apply u64_range. Qed.
Lemma heap_AllocPages_ok root n k :
  0 <= n -> tables_ok w root (AllocBlock 1) (tabs k) (dram k) ->
  match heap_AllocPages AllocBlock straight_base n k with
  | Done (_, k') => tabs k' = tabs k /\ ram k' = ram k /\ tables_ok w root (AllocBlock 1) (tabs k) (dram k')
  | Stop e => alloc_stops w AllocBlock e
  end.
Proof.
  intros Hn Ht. unfold heap_AllocPages. pose proof (alloc_ok w root AllocBlock n k Hn Ht) as H.
  destruct (alloc _ _ _) as [[p k']|e]; [|done]. cbn [rbind]. by destruct H as (a' & -> & _ & H & _).
Qed.
Lemma loaded_frame root f l k0 sp k k' :
  loaded w root AllocBlock f l k0 sp k -> tabs k' = tabs k -> ram k' = ram k -> tables_ok w root (AllocBlock 1) (tabs k) (dram k') ->
  loaded w root AllocBlock f l k0 sp k'.
Proof. intros [? ? ? ?] Et Er Ht. split; rewrite ?Et, ?Er; done. Qed.

(** A new process: its registers and its entry in the store. *)
Record created (f : EFIFile) (entry : Z) (l : list Elf64_Phdr) (proc : nat) (s : system) (sp : Z) (c : ExecutionContext) (s' : system) : Prop := Created {
  cr_rip : rip c = entry;
  cr_rsp : rsp c = kUserStackBaseAddr + 131072;
  cr_loaded : exists k0, loaded w (cr3 c) AllocBlock f l k0 sp (mach s');
  cr_upper : forall x, 2 ^ 47 <= low x -> v2p mask (tabs (mach s')) (cr3 c) x = v2p mask (tabs (mach s)) kernel_pml4 x;
  cr_proc : exists p, scheduler s' = set_procs (scheduler s) (<[proc := p]> (procs (scheduler s))) /\ status_ p = kNotScheduled /\ id_ p = last_id s';
  cr_id : last_id s' = u64 (last_id s + 1);
}.
Lemma LoadELF_ok f entry l name proc s :
  user_program f entry l -> tables_ok w kernel_pml4 (AllocBlock 1) (tabs (mach s)) (dram (mach s)) ->
  match LoadELFAndCreateEphemeralProcess mask AllocBlock kernel_pml4 straight_base sizeof_Process garbage stdin f name proc s with
  | Done (c, s') => exists sp, created f entry l proc s sp c s'
  | Stop e => alloc_stops w AllocBlock e
  end.
Proof.
  intros Hf Ht. unfold LoadELFAndCreateEphemeralProcess, heap_Alloc.
  pose proof (heap_AllocPages_ok kernel_pml4 _ (mach s) (pages_nonneg Context.sizeof_ExecutionContext) Ht) as S1.
  destruct (heap_AllocPages _ _ _ _) as [[ctx k1]|e]; [|done]. cbn [rbind]. destruct S1 as (E1 & _ & T1).
  unfold new_page_table, AllocPageTable. rewrite E1.
  destruct (AllocBlock 1 (dram k1)) as [[t a2]|e] eqn:E2; cbn [rbind].
  2:{ destruct T1 as (_ & _ & Hs & _). by exists 1, (dram k1). }
  assert (0 < t) as Ht0. { destruct T1 as (_ & _ & Hs & _). pose proof (alloc_page_law _ _ _ Hs E2) as (_ & _ & [? _] & _). lia. }
  zfalse (t =? 0). cbn [negb kassert rbind tabs dram ram].
  destruct (new_user_tables w kernel_pml4 (AllocBlock 1) _ _ _ _ T1 E2) as (m & Em & Tm & Hl & Hup). rewrite Em. cbn [rbind].
  pose proof (load_user_ok w Hw t AllocBlock f entry l (Machine m a2 (ram k1)) Hf Tm Hl) as S3.
  destruct (load_user _ _ _ _ _) as [[mi k3]|e]; [|done]. cbn [rbind]. destruct S3 as (sp & Es & L3).
  rewrite (pg_entry _ _ _ (up_program _ _ _ Hf)). cbn [rbind].
  pose proof (heap_AllocPages_ok t kKernelStackPagesForEachProcess k3 ltac:(done) (lo_tables _ _ _ _ _ _ _ _ L3)) as S4.
  destruct (heap_AllocPages _ _ _ k3) as [[ks k4]|e]; [|done]. cbn [rbind]. destruct S4 as (E4 & R4 & T4).
  pose proof (loaded_frame _ _ _ _ _ _ _ L3 E4 R4 T4) as L4.
  pose proof (heap_AllocPages_ok t _ k4 (pages_nonneg sizeof_Process) (lo_tables _ _ _ _ _ _ _ _ L4)) as S5.
  destruct (heap_AllocPages _ _ _ k4) as [[x k5]|e]; [|done]. cbn [rbind]. destruct S5 as (E5 & R5 & T5).
  pose proof (loaded_frame _ _ _ _ _ _ _ L4 E5 R5 T5) as L5.
  cbn [Create pc_procs last_id_]. rewrite lookup_insert_eq. cbn [deref rbind new_Process]. unfold InitAsEphemeralProcess. cbn [status_ ctx_ pp_info_].
  rewrite !bool_decide_true by done. cbn [kassert rbind].
  exists sp. split; cbn [SetRegisters rip rsp cr3 mach scheduler procs last_id].
  - done.
  - by rewrite Es.
  - by exists (Machine m a2 (ram k1)).
  - intros y Hy. rewrite (lo_upper _ _ _ _ _ _ _ _ L5 y Hy). cbn [tabs]. by rewrite Hup.
  - eexists. split; [unfold set_procs; by rewrite insert_insert_eq|done].
  - done.
Qed.

(** ** The stack of a new process *)

Section Stack.
Context (f : EFIFile) (l : list Elf64_Phdr) (k0 : machine (A := A)) (sp : Z).
Abbreviation base := kUserStackBaseAddr.

(** The stack pointer is at [q] in the stack. *)
Record at_stack (c : ExecutionContext) (k : machine (A := A)) (q : Z) : Prop := AtStack {
  as_rsp : rsp c = base + q;
  as_range : 0 <= q <= 131072;
  as_loaded : loaded w (cr3 c) AllocBlock f l k0 sp k;
}.
Definition stack_has (k : machine (A := A)) (q : Z) (bs : list Z) : Prop :=
  q + Z.of_nat (length bs) <= 131072 /\ forall i b, bs !! i = Some b -> ram k (sp + q + Z.of_nat i) = b.
(** From [(c, k)] to [(c', k')] only memory of the stack below [q] has changed. *)
Record grown (q : Z) (c : ExecutionContext) (k : machine (A := A)) (c' : ExecutionContext) (k' : machine (A := A)) : Prop := Grown {
  gr_rip : rip c' = rip c;
  gr_cr3 : cr3 c' = cr3 c;
  gr_tabs : tabs k' = tabs k;
  gr_above : forall j, q <= j -> ram k' (sp + j) = ram k (sp + j);
}.
Lemma grown_trans q q' c k c1 k1 c2 k2 : q' <= q -> grown q c k c1 k1 -> grown q' c1 k1 c2 k2 -> grown q c k c2 k2.
Proof using. intros Hq [? ? ? H1] [? ? ? H2]. split; try congruence. intros j Hj. rewrite H2, H1 by lia. done. Qed.
Lemma grown_has q c k c' k' p bs : grown q c k c' k' -> q <= p -> stack_has k p bs -> stack_has k' p bs.
Proof using. intros [_ _ _ H] Hq [Hb Hs]. split; [done|]. intros i b Hi. rewrite <- (Hs i b Hi), <- Z.add_assoc, H by lia. done. Qed.

Lemma push_ok bs c k q :
  at_stack c k q -> 0 < Z.of_nat (length bs) <= q ->
  exists c' k', PushDataToStack mask bs c k = Done (c', k') /\ at_stack c' k' (q - Z.of_nat (length bs)) /\
    stack_has k' (q - Z.of_nat (length bs)) bs /\ grown q c k c' k'.
Proof.
  intros [Hr Hq HL] Hn. pose proof HL as [Ht Hi (Hs0 & Hs1 & Hst) Hup]. unfold PushDataToStack. set (n := Z.of_nat (length bs)) in *.
  assert (u64 (rsp c - n) = base + (q - n)) as Er by (rewrite Hr; unfold base; rewrite u64_small; lia).
  cbn [set_rsp rsp cr3]. rewrite Er, Hst by lia. cbn [rbind].
  assert (2 ^ w <= 2 ^ 52) by (apply Z.pow_le_mono_r; lia). change kAddrCannotTranslate with (2 ^ 63).
  zfalse (sp + (q - n) =? 2 ^ 63). do 2 eexists. split; [done|]. split; [|split].
  - split; [done|cbn; lia|]. cbn [set_rsp cr3]. split; cbn [tabs dram ram]; [done| |done|done].
    intros ph j Hin Hj. destruct (Hi ph j Hin Hj) as (p & Ep & Eb & Hp). exists p. split; [done|]. split; [|done].
    rewrite put_out; [done|]. unfold in_phys in Hp. cbn [stack_at paddr_ map_size_] in Hp.
    change (Z.shiftl kNumOfStackPages kPageSizeExponent) with 131072 in Hp. fold n. lia.
  - split; [fold n; lia|]. intros i b Hb. apply lookup_lt_Some in Hb as Hlt. cbn [ram]. rewrite put_in by (fold n; lia).
    rewrite nth_lookup. replace (Z.to_nat (sp + (q - n) + Z.of_nat i - (sp + (q - n)))) with i by lia. by rewrite Hb.
  - split; try done. intros j Hj. cbn [ram]. apply put_out. fold n. lia.
Qed.

(** The argument strings, at their pointers above [q]. *)
Definition string_at (k : machine (A := A)) (q p : Z) (s : list Z) : Prop :=
  exists off, p = base + off /\ q <= off /\ stack_has k off (s ++ [0]).
Lemma strings_kept q c k c' k' q' argv ws :
  grown q c k c' k' -> q' <= q -> Forall2 (string_at k q) argv ws -> Forall2 (string_at k' q') argv ws.
Proof using.
  intros Hg Hq H. eapply Forall2_impl; [|exact H]. intros p s (off & -> & Ho & Hs). exists off. split; [done|]. split; [lia|].
  by eapply grown_has.
Qed.
Abbreviation size ws := (Z.of_nat (length (CommandLineArgs.stored ws))).
Lemma size_cons s ws : size (s :: ws) = Z.of_nat (length s) + 1 + size ws.
Proof using. unfold CommandLineArgs.stored. cbn [map concat]. rewrite !length_app. simpl. lia. Qed.

Lemma push_args_ok ws : forall old argv c k q,
  at_stack c k q -> Forall2 (string_at k q) argv old -> size ws <= q ->
  exists argv' c' k', push_args mask ws argv c k = Done (argv', c', k') /\ at_stack c' k' (q - size ws) /\
    Forall2 (string_at k' (q - size ws)) argv' (old ++ ws) /\ grown q c k c' k'.
Proof.
  induction ws as [|s ws IH]; intros old argv c k q Ha Hold Hq.
  - exists argv, c, k. rewrite app_nil_r. replace (q - size []) with q by (cbn; lia). split; [done|]. split; [done|]. split; [done|]. by split.
  - rewrite size_cons in Hq. cbn [push_args]. assert (Z.of_nat (length (s ++ [0])) = Z.of_nat (length s) + 1) as Ls by (rewrite length_app; simpl; lia).
    destruct (push_ok (s ++ [0]) c k q Ha) as (c1 & k1 & -> & A1 & H1 & G1); [lia|]. cbn [rbind]. rewrite Ls in A1, H1.
    destruct (IH (old ++ [s]) (argv ++ [rsp c1]) c1 k1 (q - (Z.of_nat (length s) + 1)) A1) as (argv' & c' & k' & E & A2 & H2 & G2); [|lia|].
    + apply Forall2_app; [by apply (strings_kept q c k c1 k1); [| lia|]|]. constructor; [|done].
      exists (q - (Z.of_nat (length s) + 1)). split; [apply A1|]. split; [lia|done].
    + exists argv', c', k'. rewrite size_cons. replace (q - (Z.of_nat (length s) + 1 + size ws)) with (q - (Z.of_nat (length s) + 1) - size ws) by lia.
      rewrite <- app_assoc in H2. split; [done|]. split; [done|]. split; [done|]. eapply grown_trans; [|exact G1|exact G2]. lia.
Qed.

Lemma align_ok c k q : at_stack c k q ->
  exists c', AlignStack 8 c = Done c' /\ at_stack c' k (q - q mod 4) /\ grown q c k c' k.
Proof.
  intros [Hr Hq HL]. eexists. split; [done|]. split; [|by split]. split; [|zdiv|done]. cbn [set_rsp rsp]. rewrite Hr.
  change (not64 3) with (Z.shiftl (Z.ones 62) 2).
  replace (base + (q - q mod 4)) with (Z.shiftl (Z.shiftr (base + q) 2) 2) by (unfold base; rewrite shiftl_mul, shiftr_div by lia; change (2 ^ 2) with 4; zdiv).
  apply Z.bits_inj'. intros i Hi. rewrite Z.land_spec, !Z.shiftl_spec by lia. destruct (Z.lt_ge_cases i 2).
  - rewrite !(Z.testbit_neg_r _ (i - 2)) by lia. apply andb_false_r.
  - rewrite Z.shiftr_spec by lia. replace (i - 2 + 2) with i by lia. rewrite Z.testbit_ones_nonneg by lia.
    destruct (Z.ltb_spec (i - 2) 62); [apply andb_true_r|]. rewrite (testbit_bounded _ 64 i) by (unfold base; lia). done.
Qed.

Definition words8 (argv : list Z) : list Z := argv ≫= le_bytes 8.
Lemma length_words8 argv : Z.of_nat (length (words8 argv)) = 8 * Z.of_nat (length argv).
Proof using. induction argv as [|p argv IH]; [done|]. unfold words8 in *. cbn [mbind list_bind]. rewrite length_app, length_le_bytes. cbn [length]. lia. Qed.
Lemma stack_has_app k q a b : stack_has k q a -> stack_has k (q + Z.of_nat (length a)) b -> stack_has k q (a ++ b).
Proof using.
  intros [Ha1 Ha] [Hb1 Hb]. split; [rewrite length_app; lia|]. intros i x Hi. apply lookup_app_Some in Hi as [Hi|[Hl Hi]]; [by apply Ha|].
  rewrite <- (Hb _ _ Hi). f_equal. lia.
Qed.
Lemma push_argv_ok argv : forall c k q,
  at_stack c k q -> 8 * Z.of_nat (length argv) <= q ->
  exists c' k', push_argv mask argv c k = Done (c', k') /\ at_stack c' k' (q - 8 * Z.of_nat (length argv)) /\
    stack_has k' (q - 8 * Z.of_nat (length argv)) (words8 argv) /\ grown q c k c' k'.
Proof.
  induction argv as [|p argv IH]; intros c k q Ha Hq.
  - exists c, k. cbn [length]. replace (q - 8 * Z.of_nat 0) with q by lia. split; [done|]. split; [done|]. split; [|by split]. split; [|done]. destruct Ha. simpl. lia.
  - cbn [length] in Hq |- *. destruct (IH c k q Ha) as (c1 & k1 & E & A1 & H1 & G1); [lia|]. cbn [push_argv]. rewrite E. cbn [rbind].
    destruct (push_ok (le_bytes 8 p) c1 k1 _ A1) as (c2 & k2 & -> & A2 & H2 & G2); [rewrite length_le_bytes; lia|]. rewrite length_le_bytes in A2, H2.
    exists c2, k2. replace (q - 8 * Z.of_nat (S (length argv))) with (q - 8 * Z.of_nat (length argv) - Z.of_nat 8) by lia.
    split; [done|]. split; [done|]. split; [|eapply grown_trans; [|exact G1|exact G2]; lia].
    apply stack_has_app; [done|]. rewrite length_le_bytes. replace (q - 8 * Z.of_nat (length argv) - Z.of_nat 8 + Z.of_nat 8) with (q - 8 * Z.of_nat (length argv)) by lia.
    eapply grown_has; [exact G2|lia|done].
Qed.

(** What the program reads at an address of its own. *)
Fixpoint user_bytes (n : nat) (root : Z) (k : machine (A := A)) (x : Z) : res (list Z) :=
  match n with
  | O => Done []
  | S n' => do p <- v2p mask (tabs k) root x; do bs <- user_bytes n' root k (x + 1); Done (ram k p :: bs)
  end.
Lemma stack_has_split k q a b : stack_has k q (a ++ b) -> stack_has k q a /\ stack_has k (q + Z.of_nat (length a)) b.
Proof using.
  intros [Hl H]. rewrite length_app in Hl. split; (split; [lia|]); intros i x Hi.
  - apply H. by apply lookup_app_l_Some.
  - rewrite <- (H (length a + i)%nat x); [f_equal; lia|]. by rewrite lookup_app_r, Nat.add_sub' by lia.
Qed.
Lemma user_reads root k bs : forall q, loaded w root AllocBlock f l k0 sp k -> 0 <= q -> stack_has k q bs -> user_bytes (length bs) root k (base + q) = Done bs.
Proof.
  induction bs as [|b bs IH]; intros q HL Hq Hs; [done|]. destruct (stack_has_split k q [b] bs Hs) as [_ H2].
  destruct Hs as [Hlen Hs]. cbn [length] in Hlen. cbn [length user_bytes].
  destruct (lo_stack _ _ _ _ _ _ _ _ HL) as (_ & _ & Hst). rewrite Hst by lia. cbn [rbind].
  replace (base + q + 1) with (base + (q + 1)) by lia. rewrite IH by (done || lia). cbn [rbind].
  rewrite <- (Hs 0%nat b eq_refl). do 3 f_equal. lia.
Qed.
Lemma words8_at k q argv i p : stack_has k q (words8 argv) -> argv !! i = Some p -> stack_has k (q + 8 * Z.of_nat i) (le_bytes 8 p).
Proof using.
  revert q i. induction argv as [|p' argv IH]; intros q i Hs Hi; [done|].
  apply (stack_has_split k q (le_bytes 8 p') (words8 argv)) in Hs as [H1 H2]. destruct i as [|i].
  - injection Hi as ->. by replace (q + 8 * Z.of_nat 0) with q by lia.
  - rewrite length_le_bytes in H2. replace (q + 8 * Z.of_nat (S i)) with (q + Z.of_nat 8 + 8 * Z.of_nat i) by lia. by apply IH.
Qed.

(** The whole stack: the strings, the vector of pointers, the count. *)
Lemma arguments_pushed c k ws :
  at_stack c k 131072 -> size ws <= 64 -> (length ws <= kMaxArgvSize)%nat ->
  exists argv c1 k1 c2 c3 k3 c4 k4 q,
    push_args mask ws [] c k = Done (argv, c1, k1) /\ AlignStack 8 c1 = Done c2 /\ push_argv mask argv c2 k1 = Done (c3, k3) /\
    PushDataToStack mask (le_bytes 8 (Z.of_nat (length ws))) c3 k3 = Done (c4, k4) /\
    at_stack c4 k4 q /\ grown 131072 c k c4 k4 /\ stack_has k4 q (le_bytes 8 (Z.of_nat (length ws)) ++ words8 argv) /\
    Forall2 (string_at k4 q) argv ws.
Proof.
  intros Ha Hs Hn. change kMaxArgvSize with 8%nat in Hn.
  destruct (push_args_ok ws [] [] c k 131072 Ha ltac:(constructor)) as (argv & c1 & k1 & E1 & A1 & H1 & G1); [lia|]. cbn [app] in H1.
  set (q1 := 131072 - size ws) in *. pose proof (Forall2_length H1) as Ln.
  destruct (align_ok c1 k1 q1 A1) as (c2 & E2 & A2 & G2). set (q2 := q1 - q1 mod 4) in *.
  assert (131072 - 64 - 4 <= q2 <= q1) as Hq2 by (unfold q2, q1 in *; zdiv).
  destruct (push_argv_ok argv c2 k1 q2 A2) as (c3 & k3 & E3 & A3 & H3 & G3); [lia|]. set (q3 := q2 - 8 * Z.of_nat (length argv)) in *.
  destruct (push_ok (le_bytes 8 (Z.of_nat (length ws))) c3 k3 q3 A3) as (c4 & k4 & E4 & A4 & H4 & G4); [rewrite length_le_bytes; unfold q3; lia|].
  rewrite length_le_bytes in A4, H4. exists argv, c1, k1, c2, c3, k3, c4, k4, (q3 - Z.of_nat 8). do 5 (split; [done|]).
  assert (grown q1 c1 k1 c4 k4) as G.
  { eapply grown_trans; [|exact G2|]; [|eapply grown_trans; [|exact G3|exact G4]; unfold q3; lia]. lia. }
  split; [eapply grown_trans; [|exact G1|exact G]; unfold q1; lia|]. split.
  - apply stack_has_app; [done|]. rewrite length_le_bytes. replace (q3 - Z.of_nat 8 + Z.of_nat 8) with q3 by lia. by eapply grown_has; [exact G4| lia|].
  - eapply strings_kept; [exact G|unfold q3; lia|done].
Qed.
End Stack.

(** ** Starting a program *)

Lemma get_args_ok ws a : CommandLineArgs.holds ws a -> Forall CommandLineArgs.word_ok ws ->
  forall k i, (i + k = length ws)%nat -> get_args k (Z.of_nat i) a = Done (drop i ws).
Proof using.
  intros Hh Hok. induction k as [|k IH]; intros i Hi; cbn [get_args].
  - by rewrite drop_ge by lia.
  - destruct (lookup_lt_is_Some_2 ws i) as [s Hs]; [lia|]. rewrite (CommandLineArgs.holds_GetArg ws a i s) by done. cbn [deref rbind].
    replace (Z.of_nat i + 1) with (Z.of_nat (S i)) by lia. rewrite IH by lia. cbn [rbind]. by rewrite (drop_S _ _ _ Hs).
Qed.
(** The words of a command line, without the ampersand at its end. *)
Definition line_words (bg : bool) (raw : list Z) : list (list Z) := CommandLineArgs.words (line_of bg raw).
Lemma command_line_ok raw bg a0 a :
  CommandLineArgs.wf a0 -> Forall (fun c => c <> 0) raw -> command_line raw a0 = Done (bg, Some a) ->
  CommandLineArgs.holds (line_words bg raw) a /\ Forall CommandLineArgs.word_ok (line_words bg raw).
Proof using.
  intros Ha Hnz E. unfold command_line in E. destruct (list.last raw) as [c|]; [|done]. cbn [deref rbind] in E.
  assert (Forall (fun c => c <> 0) (if c =? 38 then removelast raw else raw)) as Hl.
  { destruct (c =? 38); [|done]. destruct (decide (raw = [])) as [->|Hne]; [done|].
    rewrite (app_removelast_last 0 Hne) in Hnz. by apply List.Forall_app in Hnz as [? _]. }
  destruct (CommandLineArgs.Parse_holds _ a0 Ha Hl) as [_ Hp].
  destruct (CommandLineArgs.Parse _ a0) as [[ok a']|]; [|done]. cbn [rbind] in E. destruct ok; [|done]. injection E as <- <-.
  split; [by apply Hp|by apply CommandLineArgs.words_ok].
Qed.

(** What the program finds when it starts. *)
Record started (f : EFIFile) (entry : Z) (l : list Elf64_Phdr) (ws : list (list Z)) (proc : nat) (s : system) (c : ExecutionContext) (s' : system)
  : Prop := Started {
  st_entry : rip c = entry;
  st_image : forall ph j, ph ∈ l -> 0 <= j < p_memsz ph -> user_bytes 1 (cr3 c) (mach s') (p_vaddr ph + j) = Done [file_byte f ph j];
  st_argc : user_bytes 8 (cr3 c) (mach s') (rsp c) = Done (le_bytes 8 (Z.of_nat (length ws)));
  st_argv : forall i arg, ws !! i = Some arg -> exists p,
    user_bytes 8 (cr3 c) (mach s') (rsp c + 8 + 8 * Z.of_nat i) = Done (le_bytes 8 p) /\
    user_bytes (length arg + 1) (cr3 c) (mach s') p = Done (arg ++ [0]);
  st_kernel : forall x, 2 ^ 47 <= low x -> v2p mask (tabs (mach s')) (cr3 c) x = v2p mask (tabs (mach s)) kernel_pml4 x;
  st_process : exists p, procs (scheduler s') !! proc = Some p /\ status_ p = kSleeping /\ id_ p = u64 (last_id s + 1);
}.
(** The scheduler does not take a process. *)
Definition register_stops (sc : sched) (e : stop) : Prop := e = Panic /\ (lock_held sc = true \/ number_of_process_ sc = kNumberOfProcess).
Lemma stack_read f l k0 sp c k q ws argv :
  at_stack f l k0 sp c k q -> stack_has sp k q (le_bytes 8 (Z.of_nat (length ws)) ++ words8 argv) -> Forall2 (string_at sp k q) argv ws ->
  user_bytes 8 (cr3 c) k (rsp c) = Done (le_bytes 8 (Z.of_nat (length ws))) /\
  forall i arg, ws !! i = Some arg -> exists p, user_bytes 8 (cr3 c) k (rsp c + 8 + 8 * Z.of_nat i) = Done (le_bytes 8 p) /\
    user_bytes (length arg + 1) (cr3 c) k p = Done (arg ++ [0]).
Proof.
  intros [Hr Hq HL] Hs Hv. apply stack_has_split in Hs as [H1 H2]. rewrite length_le_bytes in H2. rewrite Hr. split.
  - rewrite <- (length_le_bytes 8 (Z.of_nat (length ws))) at 1. eapply user_reads; [done|lia|done].
  - intros i arg Hi. destruct (Forall2_lookup_r _ _ _ _ _ Hv Hi) as (p & Hp & off & -> & Ho & Hstr). exists (kUserStackBaseAddr + off). split.
    + pose proof (words8_at sp k _ argv i _ H2 Hp) as H3. rewrite <- (length_le_bytes 8 (kUserStackBaseAddr + off)) at 1.
      replace (kUserStackBaseAddr + q + 8 + 8 * Z.of_nat i) with (kUserStackBaseAddr + (q + Z.of_nat 8 + 8 * Z.of_nat i)) by lia.
      eapply user_reads; [done|lia|done].
    + replace (length arg + 1)%nat with (length (arg ++ [0])) by (rewrite length_app; done). eapply user_reads; [done|lia|done].
Qed.

(** A line that a command of the kernel answers. *)
Definition answers (t : test) (line arg0 : list Z) : Prop :=
  match t with
  | IfArg0 s => arg0 = text s
  | IfLine s => line = text s
  | IfPrefix s => take (String.length s) line = text s
  end.
Definition built_in_ok (t : test) : bool :=
  match t with
  | IfPrefix s => bool_decide (Forall (fun c => 0 < c < 256) (text s)) && bool_decide (length (text s) = String.length s)
  | _ => true
  end.
Lemma test_holds_ok line arg0 t :
  Libfunc.str_ok line -> built_in_ok t = true -> exists b, test_holds line arg0 t = Done b /\ (b = true <-> answers t line arg0).
Proof using.
  intros Hl Ht. destruct t as [s|s|s]; cbn [test_holds answers].
  - eexists. split; [reflexivity|]. apply IsEqualString_eq.
  - eexists. split; [reflexivity|]. apply IsEqualString_eq.
  - cbn in Ht. apply andb_true_iff in Ht as [H1 H2]. apply bool_decide_eq_true in H1, H2.
    destruct (Libfunc.strncmp_spec (String.length s) line (text s) [] [] Hl) as (r & -> & Hr).
    { eapply List.Forall_impl; [|exact H1]. intros c Hc. cbn beta in Hc. unfold is_byte. lia. }
    cbn [rbind]. eexists. split; [reflexivity|]. rewrite Z.eqb_eq, Hr. by rewrite (take_ge (text s)) by lia.
Qed.
Lemma find_built_in_ok l line arg0 :
  Libfunc.str_ok line -> forallb built_in_ok l = true ->
  exists o, find_built_in l line arg0 = Done o /\
    match o with Some t => t ∈ l /\ answers t line arg0 | None => forall t, t ∈ l -> ~ answers t line arg0 end.
Proof using.
  intros Hl. induction l as [|t l IH]; intros Ha; cbn in Ha |- *.
  - exists None. split; [done|]. intros t Ht. by apply elem_of_nil in Ht.
  - apply andb_true_iff in Ha as [Ht Ha]. destruct (test_holds_ok line arg0 t Hl Ht) as (b & -> & Hb). cbn [rbind]. destruct b.
    + exists (Some t). split; [done|]. split; [by left|by apply Hb].
    + destruct (IH Ha) as (o & -> & Ho). exists o. split; [done|]. destruct o as [t'|]; [destruct Ho; split; [by right|done]|].
      intros t' [->|Ht']%elem_of_cons; [|by apply Ho]. intros Hx. by apply Hb in Hx.
Qed.

Lemma line_str_ok bg raw : Libfunc.str_ok raw -> Libfunc.str_ok (line_of bg raw).
Proof using.
  intros H. destruct bg; [|done]. cbn. destruct (decide (raw = [])) as [->|Hne]; [done|].
  unfold Libfunc.str_ok in *. rewrite (app_removelast_last 0 Hne) in H. by apply List.Forall_app in H as [? _].
Qed.

(** Starting a program, once its arguments are parsed. *)
Lemma start_program_ok files ws a arg0 f entry l pname proc s :
  CommandLineArgs.holds ws a -> Forall CommandLineArgs.word_ok ws -> (0 < length ws <= kMaxArgvSize)%nat ->
  ws !! 0%nat = Some arg0 -> find_file files arg0 = Some f -> user_program f entry l ->
  tables_ok w kernel_pml4 (AllocBlock 1) (tabs (mach s)) (dram (mach s)) ->
  sched_ok (scheduler s) -> procs (scheduler s) !! proc = None ->
  match start_program mask AllocBlock kernel_pml4 straight_base sizeof_Process garbage stdin files a pname proc s with
  | Done (Some (c, s')) => started f entry l ws proc s c s'
  | Done None => False
  | Stop e => alloc_stops w AllocBlock e \/ register_stops (scheduler s) e
  end.
Proof.
  intros Hh Hok Hn H0 Hfile Hf Ht Hsc Hfree.
  unfold start_program. rewrite (CommandLineArgs.holds_GetArg ws a 0 arg0 Hh Hok H0 : CommandLineArgs.GetArg 0 a = _). cbn [deref rbind]. rewrite Hfile.
  unfold CommandLineArgs.GetNumOfArgs. rewrite (CommandLineArgs.h_argc _ _ Hh). destruct (Nat.ltb_spec kMaxArgvSize (length ws)); [lia|].
  pose proof (LoadELF_ok f entry l pname proc s Hf Ht) as HL. destruct (LoadELFAndCreateEphemeralProcess _ _ _ _ _ _ _ _ _ _ _) as [[c s1]|e]; [|by left].
  cbn [rbind]. destruct HL as (sp & [Hrip Hrsp (k0 & HL) Hup (p & Ep & Sp & Ip) Hid]).
  rewrite (get_args_ok ws a Hh Hok (length ws) 0 ltac:(done) : get_args (length ws) 0 a = _). cbn [rbind]. rewrite drop_0.
  pose proof (CommandLineArgs.holds_stored _ _ Hh) as Hsz. change CommandLineArgs.kBufSize with 64%nat in Hsz.
  destruct (arguments_pushed f l k0 sp c (mach s1) ws) as (argv & c1 & k1 & c2 & c3 & k3 & c4 & k4 & q & -> & E2 & E3 & E4 & A4 & G4 & S4 & V4);
    [by split|lia|lia|]. cbn [rbind]. rewrite E2. cbn [rbind]. rewrite E3. cbn [rbind]. rewrite E4. cbn [rbind].
  destruct (RegisterProcess proc (scheduler s1)) as [sc|e] eqn:Er.
  2:{ right. rewrite Ep in Er. apply (RegisterProcess_stops _ p) in Er as [-> He]; [by split|by apply sched_ok_fresh| |done]. apply lookup_insert_eq. }
  cbn [rbind].
  destruct (stack_read _ _ _ _ _ _ _ _ _ A4 S4 V4) as [R1 R2]. destruct G4 as [G1 G2 G3 _]. pose proof (as_loaded _ _ _ _ _ _ _ A4) as L4.
  split; cbn [mach scheduler]; [congruence| |done|done|..].
  - intros ph j Hin Hj. destruct (lo_image _ _ _ _ _ _ _ _ L4 ph j Hin Hj) as (x & Ex & Eb & _). cbn [user_bytes]. rewrite Ex. cbn [rbind]. by rewrite Eb.
  - intros x Hx. rewrite G2, G3. by apply Hup.
  - destruct (RegisterProcess_sleeping _ _ _ Er) as (pr & i & Epr & Epr'). rewrite Ep in Epr. cbn in Epr. rewrite lookup_insert_eq in Epr. injection Epr as <-.
    eexists. split; [exact Epr'|]. split; [done|]. cbn. by rewrite Ip, Hid.
Qed.

(** C4: running a program. A command line that parses, whose first word is the
    name of a program file and which none of the kernel's own commands answers,
    starts the program: the process that is registered for it starts at the entry
    point of the file; every byte of the segments of the file is at its address,
    the rest of each segment is zero; the stack pointer is at the number of
    arguments, followed by pointers to the arguments, each with its terminator;
    the upper half of the address space is the kernel's. The start stops only with
    a reason the allocator gives, whatever allocator that is, or with the panic of
    the scheduler when its lock is held or its 256 entries are used up. *)
Theorem program_started files raw bg a0 a arg0 f entry l pname proc s :
  CommandLineArgs.wf a0 -> Libfunc.str_ok raw -> command_line raw a0 = Done (bg, Some a) ->
  let ws := line_words bg raw in
  (length ws <= kMaxArgvSize)%nat -> ws !! 0%nat = Some arg0 -> find_file files arg0 = Some f -> user_program f entry l ->
  tables_ok w kernel_pml4 (AllocBlock 1) (tabs (mach s)) (dram (mach s)) ->
  sched_ok (scheduler s) -> procs (scheduler s) !! proc = None ->
  match Run mask AllocBlock kernel_pml4 straight_base sizeof_Process garbage stdin files raw a0 pname proc s with
  | Done (Launched bg' c s') => bg' = bg /\ (forall t, t ∈ built_ins -> ~ answers t (line_of bg raw) arg0) /\ started f entry l ws proc s c s'
  | Done (BuiltIn t) => t ∈ built_ins /\ answers t (line_of bg raw) arg0
  | Done _ => False
  | Stop e => alloc_stops w AllocBlock e \/ register_stops (scheduler s) e
  end.
Proof.
  intros Ha Hraw E ws Hn H0 Hfile Hf Ht Hsc Hfree.
  assert (Forall (fun c => c <> 0) raw) as Hnz by (eapply List.Forall_impl; [|exact Hraw]; by intros c [_ ?]).
  destruct (command_line_ok raw bg a0 a Ha Hnz E) as [Hh Hok]. fold ws in Hh, Hok.
  pose proof (lookup_lt_Some _ _ _ H0) as Hlt. unfold Run. rewrite E. cbn [rbind].
  rewrite (CommandLineArgs.holds_GetArg ws a 0 arg0 Hh Hok H0 : CommandLineArgs.GetArg 0 a = _). cbn [deref rbind].
  destruct (find_built_in_ok built_ins (line_of bg raw) arg0 (line_str_ok bg raw Hraw) ltac:(vm_compute; reflexivity)) as (o & -> & Ho).
  cbn [rbind]. destruct o as [t|]; [done|].
  pose proof (start_program_ok files ws a arg0 f entry l pname proc s Hh Hok ltac:(lia) H0 Hfile Hf Ht Hsc Hfree) as H.
  destruct (start_program _ _ _ _ _ _ _ _ _ _ _ _) as [[[c s']|]|e]; [by split_and!|done|done].
Qed.
End Start.

(** A file with a code segment at 4 MiB and a data segment of 16 bytes, 8 of them in the file. *)
Definition demo_phdr (flags offset vaddr filesz memsz : Z) : list Z :=
  le_bytes 4 PT_LOAD ++ le_bytes 4 flags ++ le_bytes 8 offset ++ le_bytes 8 vaddr ++ le_bytes 8 vaddr ++ le_bytes 8 filesz ++
  le_bytes 8 memsz ++ le_bytes 8 4096.
Definition demo_elf : list Z :=
  ELFMAG ++ [2; 1; 1; 0] ++ replicate 8 0 ++ le_bytes 2 ET_EXEC ++ le_bytes 2 EM_X86_64 ++ le_bytes 4 1 ++ le_bytes 8 0x4000B0 ++
  le_bytes 8 64 ++ le_bytes 8 0 ++ le_bytes 4 0 ++ le_bytes 2 64 ++ le_bytes 2 56 ++ le_bytes 2 2 ++ le_bytes 2 64 ++ le_bytes 2 0 ++ le_bytes 2 0 ++
  demo_phdr 5 0 0x400000 232 232 ++ demo_phdr 6 232 0x4010E8 8 16 ++ seqZ 1 64.
Definition hello_name : list Z := [104; 101; 108; 108; 111].
Definition demo_file : EFIFile := File hello_name 0x10000 demo_elf.
Definition demo_headers : list Elf64_Phdr :=
  [Header 5 0 0x400000 232 232 4096; Header 6 232 0x4010E8 8 16 4096].
(** "hello a bc&" *)
Definition demo_line : list Z := hello_name ++ [32; 97; 32; 98; 99; 38].
Definition demo_args : CommandLineArgs.args := CommandLineArgs.Args 0 (replicate 16 O) (replicate 64 7).
Definition demo_system : system (A := allocator) :=
  System (Machine demo_tables demo_pages (fun _ => 0)) 1
    (Sched {[0%nat := SetStatus kRunning (new_Process 1 0 0 [])]} (Some 0%nat :: replicate 255 None) 1 0 (Lock_ 0) true).
#[local] Existing Instance UsePhysicalAddressInternallyStrategy.
#[local] Existing Instance physical_laws.

Lemma demo_program : user_program demo_file 0x4000B0 demo_headers.
Proof.
  split; [split|..].
  - reflexivity.
  - vm_compute. reflexivity.
  - vm_compute. reflexivity.
  - vm_compute. reflexivity.
  - split; vm_compute; repeat constructor.
  - apply (bool_decide_unpack _). vm_compute. exact I.
  - apply (bool_decide_unpack _). vm_compute. exact I.
  - apply (bool_decide_unpack _). vm_compute. exact I.
  - apply (bool_decide_unpack _). vm_compute. exact I.
Qed.
Lemma demo_system_sched : sched_ok (scheduler demo_system).
Proof.
  assert (forall i p pr, entry (scheduler demo_system) i p pr -> i = 0%nat /\ p = 0%nat /\ pr = SetStatus kRunning (new_Process 1 0 0 [])) as He.
  { intros i p pr (Hi & Hs & Hp). cbn in Hi. destruct i as [|i]; [|lia]. cbn in Hs. injection Hs as <-. cbn in Hp. rewrite lookup_singleton_eq in Hp. by injection Hp as <-. }
  split; [reflexivity|apply Nat.leb_le; reflexivity| | | | |].
  - intros i Hi. cbn in Hi. destruct i as [|i]; [|lia]. do 2 eexists. split; [cbn; lia|]. split; [reflexivity|apply lookup_singleton_eq].
  - by intros i p pr (-> & -> & ->)%He.
  - by intros i p pr (-> & -> & ->)%He.
  - by intros i p pr (-> & -> & ->)%He.
  - exists 0%nat. eexists. split; [cbn; lia|]. split; [reflexivity|apply lookup_singleton_eq].
Qed.
Definition demo_parsed : CommandLineArgs.args :=
  match command_line demo_line demo_args with Done (_, Some a) => a | _ => demo_args end.
Definition demo_run : res (outcome (A := allocator)) :=
  Run (2 ^ 40 - 1) (AllocPages 9) 4096 0xFFFF800000000000 1000 0 [] [demo_file] demo_line demo_args 0 7 demo_system.
Lemma program_started_witness :
  exists c s', demo_run = Done (Launched true c s') /\ started 40 4096 demo_file 0x4000B0 demo_headers [hello_name; [97]; [98; 99]] 7 demo_system c s'.
Proof.
  assert (command_line demo_line demo_args = Done (true, Some demo_parsed)) as Hc by (vm_compute; reflexivity).
  pose proof (program_started 40 ltac:(lia) (AllocPages 9) (BS := phys_blocks 40 ltac:(lia) 9) 4096 0xFFFF800000000000 1000 0 []
    [demo_file] demo_line true demo_args demo_parsed hello_name demo_file 0x4000B0 demo_headers 0 7 demo_system
    ltac:(split; reflexivity) ltac:(apply (bool_decide_unpack _); vm_compute; exact I) Hc
    ltac:(vm_compute; repeat constructor) ltac:(vm_compute; reflexivity) ltac:(vm_compute; reflexivity) demo_program demo_tables_ok
    demo_system_sched ltac:(vm_compute; reflexivity)) as H. fold demo_run in H.
  assert ((match demo_run with Done (Launched true _ _) => true | _ => false end) = true) as Hd by (vm_compute; reflexivity).
  destruct demo_run as [[| | |[] c s']|]; try discriminate Hd.
  exists c, s'. split; [reflexivity|]. exact (proj2 (proj2 H)).
Defined.

(** The same words without arguments are a command of the kernel. *)
Example hello_is_built_in :
  Run (2 ^ 40 - 1) (AllocPages 9) 4096 0xFFFF800000000000 1000 0 [] [demo_file] hello_name demo_args 0 7 demo_system =
  Done (BuiltIn (IfLine "hello")).
Proof. vm_compute. reflexivity. Qed.
