(* ===== verification/Xhci.v ===== *)
(** * Transfer rings of the USB host controller: [src/xhci_trb.h],
    [src/xhci_trbring.h]

    Transfer request blocks with their field setters, and the ring that hands
    them to the controller by means of a cycle bit.  The theorem: a controller
    that follows the cycle bit and the link entry takes out of the ring exactly
    what the driver put in, in order. *)

From S2P Require Import Prelude KernelBase.
Import KernelBase.Bits.

(** ** xhci_trb.h *)

Record BasicTRB := TRB { trb_data : Z; trb_option : Z; trb_control : Z }.
#[global] Instance BasicTRB_eq_dec : EqDecision BasicTRB.
Proof. solve_decision. Defined.

Definition kTRBTypeSetupStage : Z := 2.
Definition kTRBTypeDataStage : Z := 3.
Definition kTRBTypeStatusStage : Z := 4.
Definition kTRBTypeLink : Z := 6.
Definition kTRBTypeEnableSlotCommand : Z := 9.
Definition kTRBTypeAddressDeviceCommand : Z := 11.
Definition kTRBTypeConfigureEndpointCommand : Z := 12.
Definition kTRBTypeNoOpCommand : Z := 23.
Definition kTRBTypeTransferEvent : Z := 32.
Definition kTRBTypeCommandCompletionEvent : Z := 33.
Definition kTRBTypePortStatusChangeEvent : Z := 34.
Definition kCompletionCodeSuccess : Z := 1.
Definition kCompletionCodeUSBTransactionError : Z := 4.
Definition kCompletionCodeTRBError : Z := 5.
Definition kCompletionCodeShortPacket : Z := 13.

Definition GetTRBType (t : BasicTRB) : Z := u8 (GetBits 15 10 (trb_control t)).
Definition GetSlotID (t : BasicTRB) : Z := u8 (GetBits 31 24 (trb_control t)).
Definition GetCompletionCode (t : BasicTRB) : Z := u8 (GetBits 31 24 (trb_option t)).
Definition GetTransferSizeResidue (t : BasicTRB) : Z := i32 (GetBits 23 0 (trb_option t)).
Definition IsCompletedWithSuccess (t : BasicTRB) : bool := GetCompletionCode t =? kCompletionCodeSuccess.
Definition IsCompletedWithShortPacket (t : BasicTRB) : bool := GetCompletionCode t =? kCompletionCodeShortPacket.

(** SetupStageTRB: the request is in the data word, little endian. *)
Definition kReqTypeBitDirectionDeviceToHost : Z := 128.
Definition kReqTypeBitRecipientInterface : Z := 1.
Definition kReqGetDescriptor : Z := 6.
Definition kReqSetConfiguration : Z := 9.
Definition kReqSetInterface : Z := 11.
Definition kControlBitImmediateData : Z := 64.
Inductive TransferType := kNoDataStage | kOutDataStage | kInDataStage.
Definition transfer_type_value (t : TransferType) : Z :=
  match t with kNoDataStage => 0 | kOutDataStage => 2 | kInDataStage => 3 end.
Definition bit (b : bool) : Z := if b then 1 else 0.

Definition SetRequest (request_type request value index length : Z) : Z :=
  u8 request_type + Z.shiftl (u8 request) 8 + Z.shiftl (u16 value) 16 + Z.shiftl (u16 index) 32 +
  Z.shiftl (u16 length) 48.
Definition Setup_SetControl (transfer_type : TransferType) (interrupt : bool) : Z :=
  Z.lor (Z.lor (Z.lor (Z.shiftl (transfer_type_value transfer_type) 16) (Z.shiftl kTRBTypeSetupStage 10))
    kControlBitImmediateData) (Z.shiftl (bit interrupt) 5).
(** The direction is taken from [bRequest]. *)
Definition Setup_SetParams (bmRequestType bRequest wValue wIndex wLength : Z) (interrupt : bool) : BasicTRB :=
  TRB (SetRequest bmRequestType bRequest wValue wIndex wLength) 8
    (Setup_SetControl
      (if wLength =? 0 then kNoDataStage
       else if negb (Z.land bRequest kReqTypeBitDirectionDeviceToHost =? 0) then kInDataStage else kOutDataStage)
      interrupt).
Definition Data_SetControl (is_data_direction_in is_immediate_data interrupt : bool) : Z :=
  Z.lor (Z.lor (Z.lor (Z.shiftl (bit is_data_direction_in) 16) (Z.shiftl kTRBTypeDataStage 10))
    (Z.shiftl (bit is_immediate_data) 6)) (Z.lor (Z.shiftl (bit interrupt) 5) 4).
Definition Status_SetControl (is_status_direction_in interrupt : bool) : Z :=
  Z.lor (Z.lor (Z.shiftl (bit is_status_direction_in) 16) (Z.shiftl kTRBTypeStatusStage 10))
    (Z.shiftl (bit interrupt) 5).
Definition Status_SetParams (is_status_direction_in interrupt : bool) : BasicTRB :=
  TRB 0 0 (Status_SetControl is_status_direction_in interrupt).

(** ** xhci_trbring.h *)

Section Ring.
Context (N : nat).

(** [N] entries and the link entry. *)
Record ring := Ring {
  entry_ : list BasicTRB;
  next_enqueue_idx_ : nat;
  current_cycle_state_ : Z;
  paddr_ : Z;
}.

(** [ctrl = (ctrl & ~0b1) | current_cycle_state_] *)
Definition set_cycle (c : Z) (t : BasicTRB) : BasicTRB :=
  TRB (trb_data t) (trb_option t) (Z.lor (Z.land (trb_control t) (u32 (Z.lnot 1))) c).
Definition AdvanceEnqueueIndexAndUpdateCycleBit (r : ring) : res ring :=
  do e <- deref (entry_ r !! next_enqueue_idx_ r);
  Done (Ring (<[next_enqueue_idx_ r := set_cycle (current_cycle_state_ r) e]> (entry_ r)) (S (next_enqueue_idx_ r))
    (current_cycle_state_ r) (paddr_ r)).
Definition Push (r : ring) : res (Z * ring) :=
  let consumer_cycle_state := current_cycle_state_ r in
  do r <- AdvanceEnqueueIndexAndUpdateCycleBit r;
  if (next_enqueue_idx_ r =? N)%nat then
    do r <- AdvanceEnqueueIndexAndUpdateCycleBit r;
    Done (consumer_cycle_state, Ring (entry_ r) 0 (1 - current_cycle_state_ r) (paddr_ r))
  else Done (consumer_cycle_state, r).
Definition GetNextEnqueueIndex (r : ring) : nat := next_enqueue_idx_ r.
Definition GetCurrentCycleState (r : ring) : Z := current_cycle_state_ r.
(** The index of the entry at a physical address. *)
Definition GetEntryFromPhysAddr (p : Z) (r : ring) : res Z :=
  let ofs := u64 (p - paddr_ r) in
  run kassert (ofs mod 16 =? 0);
  let index := ofs / 16 in
  run kassert (index <? Z.of_nat N);
  Done index.
Fixpoint push_n (k : nat) (r : ring) : res ring :=
  match k with
  | O => Done r
  | S k' => do '(_, r) <- Push r; push_n k' r
  end.
Definition link_trb (paddr : Z) : BasicTRB := TRB paddr 0 (Z.lor (Z.shiftl kTRBTypeLink 10) 2).
(** [garbage]: the entries before the initialisation. *)
Definition Init (paddr : Z) (garbage : list BasicTRB) : res ring :=
  push_n N (Ring (<[N := link_trb paddr]> garbage) 0 0 paddr).
(** What the drivers do: fill the entry at the enqueue index, then push. *)
Definition enqueue (t : BasicTRB) (r : ring) : res ring :=
  run deref (entry_ r !! next_enqueue_idx_ r);
  do '(_, r) <- Push (Ring (<[next_enqueue_idx_ r := t]> (entry_ r)) (next_enqueue_idx_ r) (current_cycle_state_ r) (paddr_ r));
  Done r.

(** ** The controller

    It keeps an index and the cycle state it expects.  An entry with that cycle
    bit is its own; a link entry sends it to the address in the entry, and
    toggles the expected state when bit 1 of the control word says so. *)
Record consumer := Consumer { deq : nat; ccs : Z }.
Definition cycle_of (t : BasicTRB) : Z := Z.land (trb_control t) 1.
Definition is_link (t : BasicTRB) : bool := GetTRBType t =? kTRBTypeLink.
Definition follow_link (r : ring) (c : consumer) : consumer :=
  match entry_ r !! deq c with
  | Some t =>
    if (cycle_of t =? ccs c) && is_link t then
      Consumer (Z.to_nat ((trb_data t - paddr_ r) / 16)) (if Z.testbit (trb_control t) 1 then 1 - ccs c else ccs c)
    else c
  | None => c
  end.
Definition dequeue (r : ring) (c : consumer) : option BasicTRB * consumer :=
  let c := follow_link r c in
  match entry_ r !! deq c with
  | Some t => if cycle_of t =? ccs c then (Some t, Consumer (S (deq c)) (ccs c)) else (None, c)
  | None => (None, c)
  end.
End Ring.

(** ** The cycle bit *)

Definition is_bit (c : Z) : Prop := c = 0 \/ c = 1.
Lemma cycle_set c t : is_bit c -> cycle_of (set_cycle c t) = c.
Proof.
  intros Hc. unfold cycle_of, set_cycle. cbn [trb_control]. rewrite Z.land_lor_distr_l, <- Z.land_assoc.
  change (Z.land (u32 (Z.lnot 1)) 1) with 0. rewrite Z.land_0_r. by destruct Hc as [-> | ->].
Qed.
Lemma set_cycle_twice c d t : is_bit c -> set_cycle d (set_cycle c t) = set_cycle d t.
Proof.
  intros Hc. unfold set_cycle. cbn [trb_data trb_option trb_control]. f_equal. f_equal.
  rewrite Z.land_lor_distr_l, <- Z.land_assoc, Z.land_diag.
  assert (Z.land c (u32 (Z.lnot 1)) = 0) as -> by (by destruct Hc as [-> | ->]). apply Z.lor_0_r.
Qed.
Lemma type_set_cycle c t : is_bit c -> GetTRBType (set_cycle c t) = GetTRBType t.
Proof.
  intros Hc. unfold GetTRBType. f_equal. apply Z.bits_inj'. intros i Hi. rewrite !GetBits_testbit by lia.
  destruct ((0 <=? i) && (i <=? 15 - 10)) eqn:E; [|done]. rewrite andb_true_iff, !Z.leb_le in E. cbn [andb]. cbn [set_cycle trb_control].
  rewrite Z.lor_spec, Z.land_spec.
  assert (i = 0 \/ i = 1 \/ i = 2 \/ i = 3 \/ i = 4 \/ i = 5) as Hi' by lia.
  assert (Z.testbit (u32 (Z.lnot 1)) (i + 10) = true /\ Z.testbit c (i + 10) = false) as [-> ->].
  { destruct Hc as [-> | ->], Hi' as [->|[->|[->|[->|[->| ->]]]]]; split; reflexivity. }
  by rewrite andb_true_r, orb_false_r.
Qed.
Lemma is_link_set_cycle c t : is_bit c -> is_link (set_cycle c t) = is_link t.
Proof. intros Hc. unfold is_link. by rewrite type_set_cycle. Qed.

Section RingProofs.
Context (N : nat) (HN : (0 < N)%nat).

(** The cycle state of the [k]-th entry ever written. *)
Definition cyc (k : nat) : Z := 1 - Z.of_nat ((k / N) mod 2).
Lemma cyc_bit k : is_bit (cyc k).
Proof. unfold cyc, is_bit. pose proof (Nat.mod_upper_bound (k / N) 2). lia. Qed.
Lemma cyc_flip k : is_bit (1 - cyc k).
Proof. destruct (cyc_bit k) as [-> | ->]; unfold is_bit; lia. Qed.
#[local] Hint Resolve cyc_bit cyc_flip : core.
Lemma succ_divmod k :
  if (S (k mod N) =? N)%nat then (S k mod N = 0 /\ S k / N = S (k / N))%nat
  else (S k mod N = S (k mod N) /\ S k / N = k / N)%nat.
Proof.
  pose proof (Nat.div_mod_eq k N) as E. pose proof (Nat.mod_upper_bound k N) as Hb.
  destruct (Nat.eqb_spec (S (k mod N)) N) as [Hn|Hn].
  - assert (S k = N * S (k / N) + 0)%nat as E' by lia.
    split; symmetry; [apply (Nat.mod_unique (S k) N (S (k / N)) 0)|apply (Nat.div_unique (S k) N (S (k / N)) 0)]; lia.
  - assert (S k = N * (k / N) + S (k mod N))%nat as E' by lia.
    split; symmetry; [apply (Nat.mod_unique (S k) N (k / N) (S (k mod N)))|apply (Nat.div_unique (S k) N (k / N) (S (k mod N)))]; lia.
Qed.
Lemma cyc_succ k : cyc (S k) = if (S (k mod N) =? N)%nat then 1 - cyc k else cyc k.
Proof.
  pose proof (succ_divmod k) as H. unfold cyc. destruct (S (k mod N) =? N)%nat; destruct H as [_ ->]; [|done].
  pose proof (Nat.div_mod_eq (k / N) 2). pose proof (Nat.mod_upper_bound (k / N) 2). pose proof (Nat.div_mod_eq (S (k / N)) 2).
  pose proof (Nat.mod_upper_bound (S (k / N)) 2). lia.
Qed.

(** The ring after [p] pushes; [slot j] is what the entry [j] holds. *)
Record ring_ok (r : ring) (p : nat) : Prop := RingOk {
  rk_len : length (entry_ r) = S N;
  rk_idx : next_enqueue_idx_ r = (p mod N)%nat;
  rk_cycle : current_cycle_state_ r = cyc p;
  rk_link : entry_ r !! N = Some (set_cycle (1 - cyc p) (link_trb (paddr_ r)));
  rk_bits : forall j t, (j < N)%nat -> entry_ r !! j = Some t -> cycle_of t = if (j <? p mod N)%nat then cyc p else 1 - cyc p;
}.

Lemma Push_ok r t k (idx := next_enqueue_idx_ r) :
  length (entry_ r) = S N -> (idx < N)%nat -> entry_ r !! idx = Some t -> entry_ r !! N = Some k ->
  let c := current_cycle_state_ r in
  Push N r = Done (c, if (S idx =? N)%nat
    then Ring (<[N := set_cycle c k]> (<[idx := set_cycle c t]> (entry_ r))) 0 (1 - c) (paddr_ r)
    else Ring (<[idx := set_cycle c t]> (entry_ r)) (S idx) c (paddr_ r)).
Proof.
  intros HL Hi Ht Hk c. unfold Push, AdvanceEnqueueIndexAndUpdateCycleBit. fold idx. rewrite Ht. cbn [deref rbind next_enqueue_idx_].
  destruct (Nat.eqb_spec (S idx) N) as [E|E]; [|done]. cbn [entry_ current_cycle_state_ paddr_].
  replace (S idx) with N by lia. rewrite list_lookup_insert_ne by lia. rewrite Hk. cbn [deref rbind entry_ current_cycle_state_ paddr_]. done.
Qed.

(** One more push keeps the invariant; only the entry at the index changes. *)
Lemma push_step r p t :
  ring_ok r p -> exists r', enqueue N t r = Done r' /\ ring_ok r' (S p) /\ paddr_ r' = paddr_ r /\
    entry_ r' !! (p mod N)%nat = Some (set_cycle (cyc p) t) /\
    forall j, (j < N)%nat -> j <> (p mod N)%nat -> entry_ r' !! j = entry_ r !! j.
Proof.
  intros [HL HI HC HK HB]. pose proof (Nat.mod_upper_bound p N) as Hb.
  assert (p mod N < length (entry_ r))%nat as Hlt by lia.
  destruct (lookup_lt_is_Some_2 (entry_ r) _ Hlt) as [t0 Ht0].
  unfold enqueue. rewrite HI, Ht0. cbn [deref rbind].
  set (r1 := Ring (<[(p mod N)%nat := t]> (entry_ r)) (p mod N)%nat (current_cycle_state_ r) (paddr_ r)).
  assert (entry_ r1 !! N = Some (set_cycle (1 - cyc p) (link_trb (paddr_ r)))) as HK1 by (simpl; by rewrite list_lookup_insert_ne by lia).
  assert (entry_ r1 !! (p mod N)%nat = Some t) as Ht1 by (simpl; by rewrite list_lookup_insert_eq).
  rewrite (Push_ok r1 t (set_cycle (1 - cyc p) (link_trb (paddr_ r)))); [|simpl; by rewrite length_insert|simpl; lia|exact Ht1|exact HK1].
  cbn [rbind r1 next_enqueue_idx_ entry_ current_cycle_state_ paddr_]. rewrite HC, list_insert_insert_eq.
  pose proof (succ_divmod p) as Hd. pose proof (cyc_succ p) as Hs.
  assert (forall j u, (j < N)%nat -> <[(p mod N)%nat := set_cycle (cyc p) t]> (entry_ r) !! j = Some u ->
    cycle_of u = if (j <? S (p mod N))%nat then cyc p else 1 - cyc p) as HB'.
  { intros j u Hj Hu. destruct (decide (j = p mod N)%nat) as [->|Hne].
    - rewrite list_lookup_insert_eq in Hu by done. injection Hu as <-. rewrite cycle_set by done.
      by rewrite (proj2 (Nat.ltb_lt _ _)) by lia.
    - rewrite list_lookup_insert_ne in Hu by done. rewrite (HB j u Hj Hu).
      destruct (Nat.ltb_spec j (p mod N)), (Nat.ltb_spec j (S (p mod N))); (done || lia). }
  destruct (Nat.eqb_spec (S (p mod N)) N) as [E|E]; destruct Hd as [Hm Hq].
  - eexists. split; [reflexivity|]. split_and!; cbn [entry_ paddr_]; [|done|rewrite list_lookup_insert_ne by lia; by apply list_lookup_insert_eq|].
    + split; cbn [entry_ next_enqueue_idx_ current_cycle_state_ paddr_]; rewrite ?Hm, ?Hs.
      * by rewrite !length_insert.
      * done.
      * done.
      * rewrite list_lookup_insert_eq by (rewrite length_insert; lia). f_equal. rewrite set_cycle_twice by done. f_equal. lia.
      * intros j u Hj Hu. rewrite list_lookup_insert_ne in Hu by lia. rewrite (HB' j u Hj Hu).
        rewrite (proj2 (Nat.ltb_lt _ _)) by lia. rewrite (proj2 (Nat.ltb_ge j 0)) by lia. lia.
    + intros j Hj Hne. rewrite !list_lookup_insert_ne by lia. done.
  - eexists. split; [reflexivity|]. split_and!; cbn [entry_ paddr_]; [|done|by apply list_lookup_insert_eq|].
    + split; cbn [entry_ next_enqueue_idx_ current_cycle_state_ paddr_]; rewrite ?Hm, ?Hs; try done.
      * by rewrite length_insert.
      * by rewrite list_lookup_insert_ne by lia.
    + intros j Hj Hne. by rewrite list_lookup_insert_ne.
Qed.
(** *** Initialisation *)

Lemma push_n_ok k r :
  (0 < k <= N)%nat -> length (entry_ r) = S N -> next_enqueue_idx_ r = (N - k)%nat -> current_cycle_state_ r = 0 ->
  entry_ r !! N = Some (link_trb (paddr_ r)) ->
  (forall j t, (j < N - k)%nat -> entry_ r !! j = Some t -> cycle_of t = 0) ->
  exists r', push_n N k r = Done r' /\ ring_ok r' 0 /\ paddr_ r' = paddr_ r.
Proof.
  assert (cyc 0 = 1) as Hc0 by (unfold cyc; rewrite Nat.Div0.div_0_l; done).
  assert (0 mod N = 0)%nat as Hm0 by apply Nat.Div0.mod_0_l.
  revert r. induction k as [|k IH]; intros r Hk HL HI HC HK HB; [lia|]. cbn [push_n].
  destruct (lookup_lt_is_Some_2 (entry_ r) (N - S k)) as [t0 Ht0]; [lia|].
  rewrite (Push_ok r t0 (link_trb (paddr_ r))); [|done|lia|by rewrite HI|done]. rewrite HI, HC. cbn [rbind].
  assert (forall j u, (j < S (N - S k))%nat -> <[(N - S k)%nat := set_cycle 0 t0]> (entry_ r) !! j = Some u -> cycle_of u = 0) as HB'.
  { intros j u Hj Hu. destruct (decide (j = N - S k)%nat) as [->|Hne].
    - rewrite list_lookup_insert_eq in Hu by lia. injection Hu as <-. apply cycle_set. by left.
    - rewrite list_lookup_insert_ne in Hu by done. apply (HB j u); [lia|done]. }
  destruct (Nat.eqb_spec (S (N - S k)) N) as [E|E].
  - assert (k = 0)%nat as -> by lia. cbn [push_n]. eexists. split; [reflexivity|]. split; [|done].
    split; cbn [entry_ next_enqueue_idx_ current_cycle_state_ paddr_]; rewrite ?Hc0, ?Hm0; try done.
    + by rewrite !length_insert.
    + rewrite list_lookup_insert_eq by (rewrite length_insert; lia). done.
    + intros j u Hj Hu. rewrite list_lookup_insert_ne in Hu by lia. rewrite (HB' j u) by (done || lia). done.
  - destruct (IH (Ring (<[(N - S k)%nat := set_cycle 0 t0]> (entry_ r)) (S (N - S k)) 0 (paddr_ r))) as (r' & E' & Hr' & Hp');
      cbn [entry_ next_enqueue_idx_ current_cycle_state_ paddr_]; try lia.
    + by rewrite length_insert.
    + by rewrite list_lookup_insert_ne by lia.
    + intros j u Hj Hu. apply (HB' j u); [lia|done].
    + by exists r'.
Qed.
Lemma Init_ok paddr garbage :
  length garbage = S N -> exists r, Init N paddr garbage = Done r /\ ring_ok r 0 /\ paddr_ r = paddr.
Proof.
  intros HL. apply (push_n_ok N (Ring (<[N := link_trb paddr]> garbage) 0 0 paddr)); cbn [entry_ next_enqueue_idx_ current_cycle_state_ paddr_];
    try (done || lia).
  - by rewrite length_insert.
  - apply list_lookup_insert_eq. lia.
Qed.

(** *** Driver and controller together *)

(** [h] is everything enqueued so far, [c] how much of it is dequeued. *)
Definition waits (r : ring) (h : list BasicTRB) (c : nat) : Prop :=
  forall q t, (c <= q)%nat -> h !! q = Some t -> entry_ r !! (q mod N)%nat = Some (set_cycle (cyc q) t).
Definition cons_ok (k : consumer) (c : nat) : Prop :=
  (deq k = c mod N /\ ccs k = cyc c)%nat \/ (exists c', c = S c' /\ c mod N = 0 /\ deq k = N /\ ccs k = cyc c')%nat.
Record linked (r : ring) (k : consumer) (h : list BasicTRB) (c : nat) : Prop := Linked {
  lk_ring : ring_ok r (length h);
  lk_room : (c <= length h < c + N)%nat;
  lk_waits : waits r h c;
  lk_cons : cons_ok k c;
  lk_plain : Forall (fun t => is_link t = false) h;
}.

Lemma ring_slot_inj a b : (a <= b < a + N)%nat -> (a mod N = b mod N)%nat -> a = b.
Proof.
  intros Hab E. pose proof (Nat.div_mod_eq a N). pose proof (Nat.div_mod_eq b N).
  pose proof (Nat.mod_upper_bound a N). assert (b / N = a / N)%nat as Ed; [|rewrite Ed in *; lia].
  assert (a / N <= b / N)%nat by (apply Nat.Div0.div_le_mono; lia). destruct (Nat.eq_dec (b / N) (a / N)) as [->|Hne]; [done|].
  assert (N * (b / N) >= N * (a / N + 1))%nat by (apply Nat.mul_le_mono_l; lia). lia.
Qed.

Lemma enqueue_linked r k h c t :
  linked r k h c -> is_link t = false -> (length h - c < N - 1)%nat ->
  exists r', enqueue N t r = Done r' /\ linked r' k (h ++ [t]) c.
Proof.
  intros [Hr Hroom Hw Hc Hp] Ht Hfree. destruct (push_step r (length h) t Hr) as (r' & E & Hr' & Hpa & He & Hne).
  exists r'. split; [done|]. split; try done.
  - by rewrite length_app, Nat.add_comm.
  - rewrite length_app. simpl. lia.
  - intros q u Hq Hu. destruct (decide (q = length h)) as [->|Hql].
    + rewrite lookup_app_r, Nat.sub_diag in Hu by done. injection Hu as <-. done.
    + assert (q < length h)%nat as Hlt by (apply lookup_lt_Some in Hu; rewrite length_app in Hu; simpl in Hu; lia).
      rewrite lookup_app_l in Hu by done. rewrite Hne; [by apply Hw|apply Nat.mod_upper_bound; lia|].
      intros E'. apply ring_slot_inj in E'; lia.
  - apply list.Forall_app_2; [done|by repeat constructor].
Qed.

(** Following the link brings the controller to the slot of its next entry. *)
Lemma follow_ok r k h c :
  linked r k h c -> follow_link r k = Consumer (c mod N) (cyc c).
Proof.
  intros [[HL HI HC HK HB] Hroom Hw Hc Hp]. pose proof (Nat.mod_upper_bound c N) as Hb. unfold follow_link.
  destruct Hc as [[Hd Hcc]|(c' & Ec & Hm & Hd & Hcc)].
  - destruct k as [d cc]. simpl in Hd, Hcc. subst d cc. cbn [deq ccs].
    destruct (entry_ r !! (c mod N)%nat) as [t|] eqn:Et; [|done].
    destruct (Z.eqb_spec (cycle_of t) (cyc c)) as [Ecy|]; [|done]. cbn [andb].
    assert (c < length h)%nat as Hlt.
    { destruct (Nat.eq_dec c (length h)) as [Eq|]; [|lia]. exfalso. rewrite (HB (c mod N)%nat t ltac:(lia) Et) in Ecy. rewrite <- Eq in Ecy.
      rewrite Nat.ltb_irrefl in Ecy. destruct (cyc_bit c) as [B|B]; rewrite B in Ecy; lia. }
    destruct (lookup_lt_is_Some_2 h c Hlt) as [u Hu]. pose proof (Hw c u ltac:(lia) Hu) as He. rewrite He in Et. injection Et as <-.
    rewrite is_link_set_cycle by done. rewrite list.Forall_lookup in Hp. by rewrite (Hp _ _ Hu).
  - rewrite Hd, HK, Hcc. cbn [set_cycle trb_data].
    assert (cyc (length h) = cyc c) as Ecy.
    { assert (length h / N = c / N)%nat as Ed; [|unfold cyc; by rewrite Ed].
      pose proof (Nat.div_mod_eq c N). symmetry. apply (Nat.div_unique (length h) N (c / N) (length h - c)); lia. }
    assert (cyc c = 1 - cyc c') as Ef.
    { subst c. rewrite cyc_succ. pose proof (succ_divmod c') as Hs. destruct (S (c' mod N) =? N)%nat; [done|].
      destruct Hs as [Hs _]. rewrite Hm in Hs. discriminate. }
    assert (1 - cyc (length h) = cyc c') as El by lia. rewrite El.
    assert (cycle_of (set_cycle (cyc c') (link_trb (paddr_ r))) = cyc c') as -> by (by apply cycle_set).
    rewrite Z.eqb_refl, is_link_set_cycle by done. change (is_link (link_trb (paddr_ r))) with true. cbn [andb].
    cbn [link_trb trb_data]. rewrite Z.sub_diag. f_equal; [done|].
    assert (Z.testbit (trb_control (set_cycle (cyc c') (link_trb (paddr_ r)))) 1 = true) as ->
      by (destruct (cyc_bit c') as [B|B]; rewrite B; reflexivity). lia.
Qed.

Lemma dequeue_linked r k h c :
  linked r k h c ->
  match h !! c with
  | Some t => exists k', dequeue r k = (Some (set_cycle (cyc c) t), k') /\ linked r k' h (S c)
  | None => exists k', dequeue r k = (None, k') /\ linked r k' h c
  end.
Proof.
  intros Hl. pose proof (follow_ok r k h c Hl) as Ef. pose proof Hl as [[HL HI HC HK HB] Hroom Hw Hc Hp].
  pose proof (Nat.mod_upper_bound c N) as Hb. unfold dequeue. rewrite Ef. cbn [deq ccs].
  destruct (h !! c) as [t|] eqn:Et.
  - rewrite (Hw c t ltac:(lia) Et), cycle_set, Z.eqb_refl by done. eexists. split; [reflexivity|].
    pose proof (lookup_lt_Some _ _ _ Et). split; try done; [lia|intros q u Hq; apply Hw; lia|].
    pose proof (succ_divmod c) as Hs. pose proof (cyc_succ c) as Hcs.
    destruct (Nat.eqb_spec (S (c mod N)) N) as [E|E]; destruct Hs as [Hs1 Hs2].
    + right. exists c. by rewrite E.
    + left. cbn [deq ccs]. by rewrite Hs1, Hcs.
  - apply lookup_ge_None in Et. assert (c = length h) as Ec by lia.
    destruct (lookup_lt_is_Some_2 (entry_ r) (c mod N)) as [u Hu]; [lia|]. rewrite Hu.
    assert ((cycle_of u =? cyc c) = false) as ->.
    { rewrite (HB (c mod N)%nat u ltac:(lia) Hu), <- Ec, Nat.ltb_irrefl. destruct (cyc_bit c) as [B|B]; by rewrite B. }
    eexists. split; [reflexivity|]. split; try done. by left.
Qed.

(** A queue as the specification. *)
Inductive op := Enqueue (t : BasicTRB) | Dequeue.
Definition exec (o : op) (s : ring * consumer) : res (option BasicTRB * (ring * consumer)) :=
  match o with
  | Enqueue t => do r <- enqueue N t s.1; Done (None, (r, s.2))
  | Dequeue => let '(x, k) := dequeue s.1 s.2 in Done (option_map (set_cycle 0) x, (s.1, k))
  end.
Definition spec_exec (o : op) (q : list BasicTRB) : option BasicTRB * list BasicTRB :=
  match o with
  | Enqueue t => (None, q ++ [t])
  | Dequeue => match q with [] => (None, []) | t :: q' => (Some (set_cycle 0 t), q') end
  end.
Fixpoint run_ops (os : list op) (s : ring * consumer) : res (list (option BasicTRB)) :=
  match os with
  | [] => Done []
  | o :: os' => do '(x, s) <- exec o s; do xs <- run_ops os' s; Done (x :: xs)
  end.
Fixpoint spec_ops (os : list op) (q : list BasicTRB) : list (option BasicTRB) :=
  match os with
  | [] => []
  | o :: os' => let '(x, q) := spec_exec o q in x :: spec_ops os' q
  end.
(** No link entries are enqueued, and never more than [N - 1] are waiting. *)
Fixpoint fits (os : list op) (q : list BasicTRB) : bool :=
  match os with
  | [] => true
  | o :: os' =>
    match o with Enqueue t => negb (is_link t) && (length q <? N - 1)%nat | Dequeue => true end &&
    fits os' (spec_exec o q).2
  end.

Lemma run_ops_ok os : forall r k h c,
  linked r k h c -> fits os (drop c h) = true -> run_ops os (r, k) = Done (spec_ops os (drop c h)).
Proof.
  induction os as [|o os IH]; intros r k h c Hl Hf; [done|]. cbn [fits] in Hf. apply andb_true_iff in Hf as [Ho Hf].
  pose proof (lk_room _ _ _ _ Hl) as Hroom. destruct o as [t|]; cbn [run_ops exec spec_ops fst snd].
  - apply andb_true_iff in Ho as [Ht Hlen]. apply negb_true_iff in Ht. rewrite Nat.ltb_lt, length_drop in Hlen.
    destruct (enqueue_linked r k h c t Hl Ht Hlen) as (r' & -> & Hl'). cbn [rbind].
    cbn [spec_exec snd] in Hf. cbn [spec_exec]. rewrite <- drop_app_le in Hf |- * by lia.
    by rewrite (IH r' k (h ++ [t]) c Hl' Hf).
  - pose proof (dequeue_linked r k h c Hl) as Hd. destruct (h !! c) as [t|] eqn:Et.
    + destruct Hd as (k' & -> & Hl'). cbn [rbind option_map]. rewrite (drop_S h t c Et) in Hf |- *. cbn [spec_exec snd] in *.
      rewrite (IH r k' h (S c) Hl' Hf). cbn [rbind]. by rewrite set_cycle_twice.
    + destruct Hd as (k' & -> & Hl'). cbn [rbind option_map]. rewrite drop_ge in Hf |- * by (by apply lookup_ge_None).
      cbn [spec_exec snd] in *. rewrite <- (drop_ge h c) in Hf by (by apply lookup_ge_None).
      rewrite (IH r k' h c Hl' Hf). cbn [rbind]. rewrite drop_ge by (by apply lookup_ge_None). done.
Qed.

(** C18: the transfer ring is a first-in first-out queue. After [Init], for every
    sequence of enqueued blocks and reads by a controller that follows the cycle
    bit and the link entry, with never more than [N - 1] blocks waiting, the
    controller reads exactly the blocks that were enqueued, in order, each once,
    up to their cycle bit, and finds nothing when nothing is waiting. *)
Theorem trb_ring_is_queue paddr garbage os :
  length garbage = S N -> fits os [] = true ->
  exists r, Init N paddr garbage = Done r /\ run_ops os (r, Consumer 0 1) = Done (spec_ops os []).
Proof.
  intros HL Hf. destruct (Init_ok paddr garbage HL) as (r & E & Hr & _). exists r. split; [done|].
  apply (run_ops_ok os r (Consumer 0 1) [] 0); [|done]. split; [done|cbn [length]; lia|intros q t _ H; done| |constructor].
  left. cbn [deq ccs]. unfold cyc. rewrite Nat.Div0.mod_0_l, Nat.Div0.div_0_l. done.
Qed.
End RingProofs.

Lemma trb_ring_is_queue_witness :
  exists r, Init 2 4096 (replicate 3 (TRB 0 0 1)) = Done r /\
    run_ops 2 [Enqueue (Status_SetParams true false); Dequeue; Enqueue (TRB 7 8 9); Dequeue; Dequeue] (r, Consumer 0 1) =
      Done [None; Some (TRB 0 0 69632); None; Some (TRB 7 8 8); None].
Proof.
  destruct (trb_ring_is_queue 2 ltac:(lia) 4096 (replicate 3 (TRB 0 0 1))
    [Enqueue (Status_SetParams true false); Dequeue; Enqueue (TRB 7 8 9); Dequeue; Dequeue]) as (r & E1 & E2);
    [reflexivity|reflexivity|]. exists r. split; [exact E1|exact E2].
Defined.

(** The setters leave the type of their block. *)
Lemma trb_types :
  (forall a b c d e i, GetTRBType (Setup_SetParams a b c d e i) = kTRBTypeSetupStage) /\
  (forall x y a b c, GetTRBType (TRB x y (Data_SetControl a b c)) = kTRBTypeDataStage) /\
  (forall a b, GetTRBType (Status_SetParams a b) = kTRBTypeStatusStage).
Proof.
  split_and!.
  - intros a b c d e i. unfold GetTRBType, Setup_SetParams. cbn [trb_control].
    destruct (e =? 0), (negb (Z.land b kReqTypeBitDirectionDeviceToHost =? 0)), i; reflexivity.
  - intros x y [] [] []; reflexivity.
  - intros [] []; reflexivity.
Qed.
(** A device-to-host request is announced as one with an out data stage, because
    the direction bit is looked up in the request code. *)
Lemma get_descriptor_direction value index length :
  length <> 0 ->
  GetBits 17 16 (trb_control (Setup_SetParams kReqTypeBitDirectionDeviceToHost kReqGetDescriptor value index length true)) =
    transfer_type_value kOutDataStage.
Proof. intros H. unfold Setup_SetParams. cbn [trb_control]. by rewrite (proj2 (Z.eqb_neq length 0)). Qed.
