(* ===== verification/Virtio.v ===== *)
(** * The virtio network driver ([src/virtio_net.h], [src/virtio_net.cc]) and the
    senders of [src/network.cc]

    The memory of a virtqueue is the list of its bytes, read and written at the
    offsets the code computes; the buffers behind the descriptors are pages of
    4096 bytes, of which the first ten are the header of the device and the rest
    the frame.  What the code prints is left out. *)

From stdpp Require Import strings.
From S2P Require Import Prelude KernelBase KernelText Paging Network Pci.
Import Generic.

(** ** Byte buffers *)

Definition sub (l : list Z) (off n : nat) : list Z := take n (drop off l).
Definition splice (l : list Z) (off : nat) (bs : list Z) : list Z :=
  take off l ++ bs ++ drop (off + length bs) l.
(** Reading and writing [n] bytes at an offset. *)
Definition load (l : list Z) (off n : nat) : res (list Z) :=
  if (off + n <=? length l)%nat then Done (sub l off n) else Stop BadPointer.
Definition store (l : list Z) (off : nat) (bs : list Z) : res (list Z) :=
  if (off + length bs <=? length l)%nat then Done (splice l off bs) else Stop BadPointer.
(** [memcpy] *)
Definition copy (dst : list Z) (doff : nat) (src : list Z) (soff n : nat) : res (list Z) :=
  do b <- load src soff n; store dst doff b.
Definition store64 (v : Z) : list Z := store32 v ++ store32 (v / 4294967296).

(** ** The queue in memory *)

Record Virtqueue := Vq { queue_size_ : Z; base_ : list Z; buf_ : list Z }.
Definition kMaxQueueSize : Z := 256.
Definition sizeof_Descriptor : Z := 16.

Definition CalcSizeOfVirtqueue (queue_size : Z) : Z :=
  u64 (CeilToPageAlignment (sizeof_Descriptor * queue_size + 2 * (2 + queue_size)) +
       CeilToPageAlignment (2 * 2 + 4 * 2 * queue_size)).
(** Fresh memory, zeroed. *)
Definition Alloc (queue_size : Z) (q : Virtqueue) : res Virtqueue :=
  run kassert ((0 <=? queue_size) && (queue_size <=? kMaxQueueSize));
  Done (Vq queue_size (replicate (Z.to_nat (CalcSizeOfVirtqueue queue_size)) 0) (buf_ q)).

Definition idx_ok (idx : Z) (q : Virtqueue) : bool := (0 <=? idx) && (idx <? queue_size_ q).
Definition GetDescriptorBuf (idx : Z) (q : Virtqueue) : res Z :=
  run kassert (idx_ok idx q); deref (buf_ q !! Z.to_nat idx).
Definition GetDescriptorSize (idx : Z) (q : Virtqueue) : res Z :=
  run kassert (idx_ok idx q);
  do b <- load (base_ q) (Z.to_nat (sizeof_Descriptor * idx + 8)) 4; Done (load32 b).
Definition avail_base (q : Virtqueue) : Z := sizeof_Descriptor * queue_size_ q.
Definition SetAvailableRingEntry (idx desc_idx : Z) (q : Virtqueue) : res Virtqueue :=
  run kassert (idx_ok idx q);
  do b <- store (base_ q) (Z.to_nat (avail_base q + 2 * 2 + 2 * idx)) (store16 desc_idx);
  Done (Vq (queue_size_ q) b (buf_ q)).
Definition SetAvailableRingIndex (idx : Z) (q : Virtqueue) : res Virtqueue :=
  do b <- store (base_ q) (Z.to_nat (avail_base q + 2)) (store16 idx);
  Done (Vq (queue_size_ q) b (buf_ q)).
(** The offset of the used ring, which the readers compute in their own way. *)
Definition used_base (q : Virtqueue) : Z :=
  CeilToPageAlignment (sizeof_Descriptor * queue_size_ q + 2 * (2 * queue_size_ q)).
Definition GetUsedRingIndex (q : Virtqueue) : res Z :=
  do b <- load (base_ q) (Z.to_nat (used_base q + 2)) 2; Done (load16 b).
(** The length of a used ring entry, read and cleared. *)
Definition used_len_off (idx : Z) (q : Virtqueue) : nat := Z.to_nat (used_base q + 2 * 2 + 8 * idx + 4).
Definition GetUsedRingEntry_len (idx : Z) (q : Virtqueue) : res Z :=
  run kassert (idx_ok idx q); do b <- load (base_ q) (used_len_off idx q) 4; Done (load32 b).
Definition ClearUsedRingEntry_len (idx : Z) (q : Virtqueue) : res Virtqueue :=
  run kassert (idx_ok idx q);
  do b <- store (base_ q) (used_len_off idx q) (store32 0); Done (Vq (queue_size_ q) b (buf_ q)).

(** ** The driver *)

(** [vq_[i]], [vq_size_[i]] and [vq_cursor_[i]]. *)
Record queue := Queue { vq : Virtqueue; vq_size : Z; vq_cursor : Z }.
(** [pages]: the memory behind the descriptors; [io]: the writes to the
    configuration registers, the latest first; [nw]: the [Network] object. *)
Record net := Net {
  initialized_ : bool;
  mac_addr_ : EtherAddr;
  self_ip_ : IPv4Addr;
  rxq : queue;
  txq : queue;
  ctlq : queue;
  pages : gmap Z (list Z);
  io : list (Z * Z);
  nw : network;
}.
Definition kIndexOfRXVirtqueue : Z := 0.
Definition kIndexOfTXVirtqueue : Z := 1.
Definition sizeof_PacketBufHeader : Z := 10.

Definition set_rxq (q : queue) (n : net) : net :=
  Net (initialized_ n) (mac_addr_ n) (self_ip_ n) q (txq n) (ctlq n) (pages n) (io n) (nw n).
Definition set_txq (q : queue) (n : net) : net :=
  Net (initialized_ n) (mac_addr_ n) (self_ip_ n) (rxq n) q (ctlq n) (pages n) (io n) (nw n).
Definition set_nw (w : network) (n : net) : net :=
  Net (initialized_ n) (mac_addr_ n) (self_ip_ n) (rxq n) (txq n) (ctlq n) (pages n) (io n) w.
Definition set_page (p : Z) (b : list Z) (n : net) : net :=
  Net (initialized_ n) (mac_addr_ n) (self_ip_ n) (rxq n) (txq n) (ctlq n) (<[p := b]> (pages n)) (io n) (nw n).
Definition set_vq (v : Virtqueue) (q : queue) : queue := Queue v (vq_size q) (vq_cursor q).
Definition WriteConfigReg16 (ofs data : Z) (n : net) : res net :=
  run kassert (Z.land ofs 1 =? 0);
  Done (Net (initialized_ n) (mac_addr_ n) (self_ip_ n) (rxq n) (txq n) (ctlq n) (pages n) ((ofs, data) :: io n) (nw n)).

(** [cursor % size]; a divide error stops the kernel. *)
Definition slot_of (q : queue) : res Z :=
  run kassert (negb (vq_size q =? 0)); Done (Z.rem (vq_cursor q) (vq_size q)).

Definition SetSelfIPv4Addr (a : IPv4Addr) (n : net) : net :=
  let n := Net (initialized_ n) (mac_addr_ n) a (rxq n) (txq n) (ctlq n) (pages n) (io n) (nw n) in
  if IPv4Addr_IsEqualTo (self_ip_ n) kWildcardIPv4Addr then n
  else set_nw (RegisterARPResolution (self_ip_ n) (mac_addr_ n) (nw n)) n.

(** The frame behind a packet buffer, a pointer ten bytes into its page. *)
Definition frame_at (p : Z) (n : net) : res (list Z) :=
  do b <- deref (pages n !! (p - sizeof_PacketBufHeader)); Done (drop 10 b).
Definition set_frame (p : Z) (f : list Z) (n : net) : res net :=
  do b <- deref (pages n !! (p - sizeof_PacketBufHeader));
  Done (set_page (p - sizeof_PacketBufHeader) (take 10 b ++ f) n).

Section Driver.
(** [v2p]: the address translation of the kernel's page table; [garbage]: what
    is in the packet container on the stack. *)
Context (v2p : Z -> Z) (garbage : list Z).

Definition SetDescriptor (idx vaddr len flags next : Z) (q : Virtqueue) : res Virtqueue :=
  run kassert (idx_ok idx q);
  do b <- store (base_ q) (Z.to_nat (sizeof_Descriptor * idx))
            (store64 (v2p vaddr) ++ store32 len ++ store16 flags ++ store16 next);
  Done (Vq (queue_size_ q) b (<[Z.to_nat idx := vaddr]> (buf_ q))).

Definition GetNextTXPacketBuf (size : Z) (n : net) : res (Z * net) :=
  run kassert (initialized_ n);
  let buf_size := u32 (sizeof_PacketBufHeader + size) in
  run kassert (buf_size <? kPageSize);
  do idx <- slot_of (txq n);
  do buf <- GetDescriptorBuf idx (vq (txq n));
  do q <- SetDescriptor idx buf buf_size 0 0 (vq (txq n));
  Done (buf + sizeof_PacketBufHeader, set_txq (set_vq q (txq n)) n).

Definition SendPacket (n : net) : res net :=
  do idx <- slot_of (txq n);
  do data <- GetDescriptorBuf idx (vq (txq n));
  do page <- deref (pages n !! data);
  do page <- store page 0 (replicate 10 0);
  let n := set_page data page n in
  do q <- SetAvailableRingEntry idx idx (vq (txq n));
  let cursor := u16 (vq_cursor (txq n) + 1) in
  do q <- SetAvailableRingIndex (idx + 1) q;
  WriteConfigReg16 16 kIndexOfTXVirtqueue (set_txq (Queue q (vq_size (txq n)) cursor) n).

(** A whole packet, built in the next buffer and sent. *)
Definition send_built (size : Z) (build : list Z -> res (list Z)) (n : net) : res net :=
  do '(p, n) <- GetNextTXPacketBuf size n;
  do f <- frame_at p n;
  do f <- build f;
  do n <- set_frame p f n;
  SendPacket n.

(** ** network.cc: senders *)

Definition SendARPRequest (ip_addr : IPv4Addr) (n : net) : res net :=
  send_built 42 (fun f => store f 0 (arp_bytes (ARP_SetupRequest ip_addr (self_ip_ n) (mac_addr_ n)))) n.
Definition SendDHCPRequest (n : net) : res net :=
  send_built 282 (fun f => do d <- DHCP_SetupRequest (mac_addr_ n); store f 0 (dhcp_bytes d)) n.

(** ** Received packets *)

Definition eth_of (f : list Z) : EtherFrame := Frame (Mac (sub f 0 6)) (Mac (sub f 6 6)) (sub f 12 2).
Definition arp_of (f : list Z) : ARPPacket :=
  Arp (eth_of f) (sub f 14 2) (sub f 16 2) (nth 18 f 0) (nth 19 f 0) (sub f 20 2)
    (Mac (sub f 22 6)) (IPv4 (sub f 28 4)) (Mac (sub f 32 6)) (IPv4 (sub f 38 4)).

Definition ARPPacketHandler (frame_data : list Z) (frame_size : Z) (n : net) : res (bool * net) :=
  if frame_size <? 42 then Done (false, n)
  else if negb (HasEthType (eth_of frame_data) kTypeARP) then Done (false, n)
  else
    let arp := arp_of frame_data in
    match GetOperation arp with
    | kReply =>
      Done (true, set_nw (RegisterARPResolution (sender_proto_addr arp) (sender_eth_addr arp) (nw n)) n)
    | kRequest =>
      if negb (IPv4Addr_IsEqualTo (target_proto_addr arp) (self_ip_ n)) then Done (true, n)
      else
        do n <- send_built 42 (fun f => store f 0 (arp_bytes
          (ARP_SetupReply (sender_proto_addr arp) (self_ip_ n) (sender_eth_addr arp) (mac_addr_ n)))) n;
        Done (true, n)
    | kUnknown => Done (false, n)
    end.

(** Offsets in an IPv4 frame: length 16, protocol 23, checksum 24, source 26,
    destination 30; ICMP type 34, checksum 36; UDP ports 34 and 36, length 38,
    checksum 40, data 42. *)
Definition build_echo_reply (self : EtherAddr) (req : list Z) (size : nat) (reply : list Z) : res (list Z) :=
  do reply <- copy reply 0 req 0 size;
  do reply <- store reply 34 [ICMPType_val kEchoReply];
  do reply <- store reply 36 (csum Csum_Clear);
  do c <- Calc reply 34 size;
  do reply <- store reply 36 (csum c);
  do reply <- copy reply 30 req 26 4;
  do reply <- copy reply 26 req 30 4;
  do reply <- store reply 24 (csum Csum_Clear);
  do c <- Calc reply 14 size;
  do reply <- store reply 24 (csum c);
  do reply <- copy reply 0 req 6 6;
  store reply 6 (mac self).

Definition hello : list Z :=
  map (fun a => Z.of_nat (Ascii.nat_of_ascii a)) (String.list_ascii_of_string "Hello! This is liumOS. Are you there?") ++ [10].
Definition hello_size : nat := Z.to_nat (u16 (Z.land (Z.of_nat (sizeof_IPv4UDPPacket + length hello) + 1) (Z.lnot 1))).
Definition build_hello (self : EtherAddr) (req p : list Z) : res (list Z) :=
  do p <- copy p 0 req 0 hello_size;
  do p <- store p 42 hello;
  do p <- store p 36 (port_bytes 11111);
  do p <- store p 34 (port_bytes 12345);
  do p <- store p 38 (even_length (u16 (Z.of_nat (length hello) + 8)));
  do p <- store p 40 (csum Csum_Clear);
  do c <- CalcUDPChecksum p 34 hello_size (IPv4 (sub req 30 4)) (IPv4 (sub req 26 4)) (sub p 38 2);
  do p <- store p 40 (csum c);
  do p <- store p 23 [kUDP];
  do p <- store p 16 (ip_data_length (Z.of_nat (hello_size - sizeof_IPv4Packet)));
  do p <- copy p 30 req 26 4;
  do p <- copy p 26 req 30 4;
  do p <- store p 24 (csum Csum_Clear);
  do c <- Calc p 14 sizeof_IPv4Packet;
  do p <- store p 24 (csum c);
  do p <- copy p 0 req 6 6;
  store p 6 (mac self).

Definition SendICMPEchoReply (req : list Z) (req_frame_size : Z) (n : net) : res net :=
  if req_frame_size <? 42 then Done n
  else
    do n <- send_built req_frame_size (build_echo_reply (mac_addr_ n) req (Z.to_nat req_frame_size)) n;
    send_built (Z.of_nat hello_size) (build_hello (mac_addr_ n) req) n.

Definition ICMPPacketHandler (f : list Z) (frame_size : Z) (n : net) : res (bool * net) :=
  do protocol <- deref (f !! 23%nat);
  if negb (protocol =? kICMP) then Done (false, n)
  else if frame_size <? 42 then Done (false, n)
  else
    do t <- deref (f !! 34%nat);
    do n <- (if t =? ICMPType_val kEchoRequest then SendICMPEchoReply f frame_size n else Done n);
    Done (true, n).

(** The options of a DHCP message, from byte [i]; each turn reads at least
    three bytes. *)
Fixpoint dhcp_options (fuel : nat) (buf : list Z) (i frame_size : Z) (w : network) : res network :=
  if i <? frame_size then
    match fuel with
    | O => Stop FuelOut
    | S fuel' =>
      do option <- deref (buf !! Z.to_nat i);
      do option_data_len <- deref (buf !! Z.to_nat (i + 1));
      if option_data_len =? 0 then Done w
      else
        do w <- (if option =? 3 then
                   run kassert (option_data_len =? 4);
                   do a <- load buf (Z.to_nat (i + 2)) 4; Done (SetIPv4DefaultGateway (IPv4 a) w)
                 else Done w);
        do w <- (if option =? 1 then
                   run kassert (option_data_len =? 4);
                   do a <- load buf (Z.to_nat (i + 2)) 4; Done (SetIPv4NetMask (NetMask a) w)
                 else Done w);
        dhcp_options fuel' buf (i + (2 + option_data_len)) frame_size w
    end
  else Done w.

(** Offsets in a DHCP message: op 42, yiaddr 58, chaddr 70, cookie 278, options
    282. *)
Definition UDPPacketHandler (f : list Z) (frame_size : Z) (n : net) : res (bool * net) :=
  do protocol <- deref (f !! 23%nat);
  if negb (protocol =? kUDP) then Done (false, n)
  else if frame_size <? 42 then Done (false, n)
  else if negb (port_value (sub f 36 2) =? 68) then Done (false, n)
  else
    do op <- deref (f !! 42%nat);
    if negb (op =? 2) || negb (EtherAddr_IsEqualTo (Mac (sub f 70 6)) (mac_addr_ n)) then Done (false, n)
    else
      let n := SetSelfIPv4Addr (IPv4 (sub f 58 4)) n in
      if negb (bool_decide (sub f 278 4 = [99; 130; 83; 99])) then Done (true, n)
      else
        do w <- dhcp_options (length f) f 282 frame_size (nw n);
        Done (true, set_nw w n).

Definition IPv4PacketHandler (f : list Z) (frame_size : Z) (n : net) : res (bool * net) :=
  if frame_size <? 34 then Done (false, n)
  else if negb (HasEthType (eth_of f) kTypeIPv4) then Done (false, n)
  else
    do '(b, n) <- ICMPPacketHandler f frame_size n;
    if b then Done (true, n)
    else do '(_, n) <- UDPPacketHandler f frame_size n; Done (true, n).

Definition ProcessPacket (buf : list Z) (buf_size : Z) (n : net) : res net :=
  let frame_size := u64 (buf_size - sizeof_PacketBufHeader) in
  let frame_data := drop 10 buf in
  do '(b, n) <- ARPPacketHandler frame_data frame_size n;
  do n <- (if b then Done n else do '(_, n) <- IPv4PacketHandler frame_data frame_size n; Done n);
  do w <- PushToRXBuffer frame_data 0 (Z.to_nat frame_size) garbage (nw n);
  Done (set_nw w n).

(** The device's writes during the loop are those made before it. *)
Fixpoint poll_loop (fuel : nat) (n : net) : res net :=
  do used <- GetUsedRingIndex (vq (rxq n));
  if used =? vq_cursor (rxq n) then Done n
  else
    match fuel with
    | O => Stop FuelOut
    | S fuel' =>
      do idx <- slot_of (rxq n);
      do buf <- GetDescriptorBuf idx (vq (rxq n));
      do len <- GetUsedRingEntry_len idx (vq (rxq n));
      do page <- deref (pages n !! buf);
      do n <- ProcessPacket page len n;
      do q <- ClearUsedRingEntry_len idx (vq (rxq n));
      poll_loop fuel' (set_rxq (Queue q (vq_size (rxq n)) (u16 (vq_cursor (rxq n) + 1))) n)
    end.
(** A 16-bit cursor reaches every index. *)
Definition PollRXQueue (n : net) : res net :=
  do used <- GetUsedRingIndex (vq (rxq n));
  if used =? vq_cursor (rxq n) then Done n
  else
    do n <- poll_loop (Z.to_nat 65536) n;
    do q <- SetAvailableRingIndex (vq_cursor (rxq n) - 1) (vq (rxq n));
    WriteConfigReg16 16 kIndexOfRXVirtqueue (set_rxq (set_vq q (rxq n)) n).
End Driver.

(** ** Initialisation *)

(** The answers of the device: the status at the [k]-th read, the queue sizes,
    the hardware address. *)
Record device := Device { dev_status : nat -> Z; dev_queue_size : Z -> Z; dev_mac : list Z }.
Definition log_io (ofs data : Z) (n : net) : net :=
  Net (initialized_ n) (mac_addr_ n) (self_ip_ n) (rxq n) (txq n) (ctlq n) (pages n) ((ofs, data) :: io n) (nw n).
Definition WriteConfigReg8 (ofs data : Z) (n : net) : net := log_io ofs data n.
Definition WriteConfigReg32 (ofs data : Z) (n : net) : res net :=
  run kassert (Z.land ofs 3 =? 0); Done (log_io ofs data n).
Definition WriteDeviceStatus (data : Z) (n : net) : net := WriteConfigReg8 18 data n.
Definition SetFeatures (f : Z) (n : net) : res net := WriteConfigReg32 4 f n.

Section Init.
(** [base]: the addresses of the queues' memory; [rx_mem], [tx_mem]: the pages
    allocated for the descriptors, and what is in them. *)
Context (v2p : Z -> Z) (d : device) (base : Z -> Z) (rx_mem tx_mem : Z -> Z * list Z).

(** One turn of the configuration loop; [false]: the loop ends. *)
Definition setup_queue (i : Z) (q : queue) (n : net) : res (bool * queue * net) :=
  do n <- WriteConfigReg16 14 i n;
  let queue_size := dev_queue_size d i in
  if queue_size =? 0 then Done (false, q, n)
  else
    do v <- Alloc queue_size (vq q);
    let vq_pfn := Z.shiftr (v2p (base i)) kPageSizeExponent in
    run kassert (vq_pfn =? Z.land vq_pfn 4294967295);
    do n <- WriteConfigReg32 8 vq_pfn n;
    Done (true, Queue v queue_size 0, n).
Definition setup_queues (n : net) : res net :=
  do '(b, q, n) <- setup_queue 0 (rxq n) n;
  let n := set_rxq q n in
  if negb b then Done n
  else
    do '(b, q, n) <- setup_queue 1 (txq n) n;
    let n := set_txq q n in
    if negb b then Done n
    else
      do '(_, q, n) <- setup_queue 2 (ctlq n) n;
      Done (Net (initialized_ n) (mac_addr_ n) (self_ip_ n) (rxq n) (txq n) q (pages n) (io n) (nw n)).

(** [k] descriptors from [i]. *)
Fixpoint populate_rx (k : nat) (i : Z) (n : net) : res net :=
  match k with
  | O => Done n
  | S k' =>
    let '(p, b) := rx_mem i in
    let n := set_page p b n in
    do q <- SetDescriptor v2p i p kPageSize 2 0 (vq (rxq n));
    do q <- SetAvailableRingEntry i i q;
    do q <- SetAvailableRingIndex (i + 1) q;
    populate_rx k' (i + 1) (set_rxq (set_vq q (rxq n)) n)
  end.
Fixpoint populate_tx (k : nat) (i : Z) (n : net) : res net :=
  match k with
  | O => Done n
  | S k' =>
    let '(p, b) := tx_mem i in
    let n := set_page p b n in
    do q <- SetDescriptor v2p i p kPageSize 0 0 (vq (txq n));
    populate_tx k' (i + 1) (set_txq (set_vq q (txq n)) n)
  end.

(** From the device status on. *)
Definition Init_device (n : net) : res net :=
  let n := WriteDeviceStatus (Z.lor (dev_status d 0) 1) n in
  let n := WriteDeviceStatus (Z.lor (dev_status d 1) 2) n in
  do n <- SetFeatures (Z.lor (Z.shiftl 1 16) (Z.shiftl 1 5)) n;
  let n := WriteDeviceStatus (Z.lor (dev_status d 2) 8) n in
  do n <- setup_queues n;
  let n := WriteDeviceStatus (Z.lor (dev_status d 3) 4) n in
  let n := Net true (Mac (dev_mac d)) (self_ip_ n) (rxq n) (txq n) (ctlq n) (pages n) (io n) (nw n) in
  let n := set_rxq (Queue (vq (rxq n)) (vq_size (rxq n)) 0) n in
  do n <- populate_rx (Z.to_nat (vq_size (rxq n))) 0 n;
  do n <- WriteConfigReg16 16 kIndexOfRXVirtqueue n;
  let n := set_txq (Queue (vq (txq n)) (vq_size (txq n)) 0) n in
  do n <- populate_tx (Z.to_nat (vq_size (txq n))) 0 n;
  SendDHCPRequest v2p n.
End Init.

Section InitPCI.
(** The bus (see [Pci]), what was found on it, and the device behind an I/O base
    address; [fuel]: iterations of the walk over the capabilities. *)
Context {B : Type} (inl32 : Z -> B -> Z) (outl32 : Z -> Z -> B -> B) (devices : list (DeviceIdent * DeviceLocation)) (dev_at : Z -> device) (fuel : nat).
Context (v2p : Z -> Z) (base : Z -> Z) (rx_mem tx_mem : Z -> Z * list Z).

(** The loop over the capabilities, which has no effect but its reads. *)
Fixpoint cap_walk (k : nat) (dev_ : DeviceLocation) (cap_ofs : Z) (s : B) : res unit :=
  if cap_ofs =? 0 then Done tt
  else
    match k with
    | O => Stop FuelOut
    | S k' =>
      do cap_id <- ReadConfigRegister8 inl32 dev_ cap_ofs s;
      run (if negb (cap_id =? 9) then Done tt else do _ <- ReadConfigRegister8 inl32 dev_ (cap_ofs + 3) s; Done tt);
      do next <- ReadConfigRegister8 inl32 dev_ (cap_ofs + 1) s;
      cap_walk k' dev_ next s
    end.
Definition Init (n : net) (s : B) : res (net * B) :=
  match FindVirtioNet devices with
  | None => Done (n, s)
  | Some dev_ =>
    do s <- EnsureBusMasterEnabled inl32 outl32 dev_ s;
    do config_io_addr_base_ <- GetBARForIO inl32 dev_ s;
    do cap <- ReadConfigRegister32 inl32 dev_ 0x34 s;
    run cap_walk fuel dev_ (u8 cap) s;
    do n <- Init_device v2p (dev_at config_io_addr_base_) base rx_mem tx_mem n;
    Done (n, s)
  end.
End InitPCI.
(** The object as [GetInstance] creates it. *)
Definition new_net (w : network) : net :=
  let q := Queue (Vq 0 [] (replicate 256 0)) 0 0 in
  Net false (Mac (replicate 6 0)) kWildcardIPv4Addr q q q ∅ [] w.
