(* ===== verification/VirtioProofs.v ===== *)
(** * The virtio network driver: proofs

    Buffers as concatenations of fields, the layout of a queue, the invariant of
    the driver, and what its handlers send and record. *)

From S2P Require Import Prelude KernelBase KernelText Paging Network Pci Virtio.
Import Generic.

(** ** Lemmas on byte buffers *)

Lemma length_splice l off bs : (off + length bs <= length l)%nat -> length (splice l off bs) = length l.
Proof. intros H. unfold splice. rewrite !length_app, length_take, length_drop. lia. Qed.
Lemma field_store_ok l off bs : (off + length bs <= length l)%nat -> store l off bs = Done (splice l off bs).
Proof. intros H. unfold store. by rewrite (proj2 (Nat.leb_le _ _) H). Qed.
Lemma field_load_ok l off n : (off + n <= length l)%nat -> load l off n = Done (sub l off n).
Proof. intros H. unfold load. by rewrite (proj2 (Nat.leb_le _ _) H). Qed.
Lemma length_sub l off n : (off + n <= length l)%nat -> length (sub l off n) = n.
Proof. intros H. unfold sub. rewrite length_take, length_drop. lia. Qed.
Lemma sub_splice_same l off bs : (off + length bs <= length l)%nat -> sub (splice l off bs) off (length bs) = bs.
Proof.
  intros H. unfold sub, splice. rewrite drop_app_length' by (rewrite length_take; lia). by rewrite take_app_length.
Qed.
Lemma sub_splice_other l off bs o n :
  (off + length bs <= length l)%nat -> (o + n <= off \/ off + length bs <= o)%nat -> sub (splice l off bs) o n = sub l o n.
Proof.
  intros H Hd. unfold sub, splice. destruct Hd.
  - rewrite drop_app_le by (rewrite length_take; lia). rewrite take_app_le by (rewrite length_drop, length_take; lia).
    rewrite take_drop_commute, take_take, take_drop_commute. do 2 f_equal. lia.
  - rewrite drop_app_ge by (rewrite length_take; lia). rewrite length_take, Nat.min_l by lia.
    rewrite drop_app_ge by lia. rewrite drop_drop. f_equal. f_equal. lia.
Qed.
Lemma bytes_splice l off bs : Forall is_byte l -> Forall is_byte bs -> Forall is_byte (splice l off bs).
Proof.
  intros Hl Hb. unfold splice. apply list.Forall_app_2; [by apply list.Forall_take|].
  apply list.Forall_app_2; [done|by apply list.Forall_drop].
Qed.
Lemma bytes_sub l off n : Forall is_byte l -> Forall is_byte (sub l off n).
Proof. intros. by apply list.Forall_take, list.Forall_drop. Qed.

(** Frames as the concatenation of their fields. *)
Lemma splice_concat (pre : list (list Z)) x x' post off :
  off = length (concat pre) -> length x' = length x ->
  splice (concat (pre ++ x :: post)) off x' = concat (pre ++ x' :: post).
Proof.
  intros -> Hx. unfold splice. rewrite !concat_app. cbn [concat]. rewrite take_app_length.
  f_equal. f_equal. rewrite drop_app_ge by lia. replace (length (concat pre) + length x' - length (concat pre))%nat
    with (length x) by lia. apply drop_app_length.
Qed.
Lemma sub_concat (pre : list (list Z)) x post off n :
  off = length (concat pre) -> n = length x -> sub (concat (pre ++ x :: post)) off n = x.
Proof.
  intros -> ->. unfold sub. rewrite concat_app. cbn [concat]. rewrite drop_app_length. apply take_app_length.
Qed.

(** Cutting a buffer into fields of given sizes and a rest. *)
Fixpoint chop (ns : list nat) (l : list Z) : list (list Z) :=
  match ns with [] => [l] | n :: ns' => take n l :: chop ns' (drop n l) end.
Lemma concat_chop ns l : concat (chop ns l) = l.
Proof.
  revert l. induction ns as [|n ns IH]; intros l; cbn [chop concat]; [apply app_nil_r|]. rewrite IH. apply take_drop.
Qed.

Lemma wsum_even l : Forall is_byte l -> 0 <= wsum l.
Proof. intros H. apply (wsum_bound l H). Qed.

(** The checksum over some of the fields. *)
Lemma Calc_fields (pre mid post : list (list Z)) start end_ k :
  Forall is_byte (concat (pre ++ mid ++ post)) -> start = length (concat pre) ->
  length (concat mid) = (2 * k)%nat -> end_ = (start + 2 * k)%nat -> Z.of_nat k < 65535 ->
  Calc (concat (pre ++ mid ++ post)) start end_ = finish (wsum (concat mid)).
Proof.
  intros Hb -> Hm -> Hk. rewrite !concat_app in *. rewrite Calc_even.
  - rewrite drop_app_length, <- Hm. by rewrite take_app_length.
  - done.
  - rewrite !length_app. lia.
  - done.
Qed.

Lemma finish_zero s : 0 <= s < 2 ^ 32 -> finish s = Done Csum_Clear <-> 0 < s /\ s mod 65535 = 0.
Proof.
  intros Hs. destruct (finish_spec s Hs) as (h & l & -> & Bh & Bl & E). unfold Csum_Clear, folded, is_byte in *. split.
  - intros [= -> ->]. destruct (Z.eqb_spec s 0); [lia|]. split; [lia|]. zdiv.
  - intros [Hp Hm]. rewrite (proj2 (Z.eqb_neq s 0)) in E by lia.
    assert (h = 0 /\ l = 0) as [-> ->]; [|done]. zdiv.
Qed.
Lemma finish_ok s : 0 <= s < 2 ^ 32 -> exists c, finish s = Done c /\ bytes_ok 2 (csum c) /\ wsum (csum c) = 65535 - folded s.
Proof.
  intros Hs. destruct (finish_spec s Hs) as (h & l & -> & Bh & Bl & E). exists (Csum [h; l]).
  split_and!; [done|by split; [done|repeat constructor; apply Bh || apply Bl]|]. simpl. lia.
Qed.
Lemma folded_mod s : 0 < s -> folded s mod 65535 = s mod 65535 /\ 0 < folded s <= 65535.
Proof. intros H. unfold folded. zfalse (s =? 0). split; zdiv. Qed.
(** Putting the checksum of [s] into the message makes it verify. *)
Lemma checksum_completes s c t :
  0 < s < 2 ^ 32 -> wsum (csum c) = 65535 - folded s -> t mod 65535 = s mod 65535 -> 0 < t -> t + 65535 < 2 ^ 32 ->
  finish (t + wsum (csum c)) = Done Csum_Clear.
Proof.
  intros Hs -> Ht Hp Hb. destruct (folded_mod s) as [Hm Hf]; [lia|]. apply finish_zero; [lia|].
  split; [lia|]. zdiv.
Qed.

(** Fields addressed by their position. *)
Lemma store_seg (segs : list (list Z)) k off x x' :
  segs !! k = Some x -> off = length (concat (take k segs)) -> length x' = length x ->
  store (concat segs) off x' = Done (concat (<[k := x']> segs)).
Proof.
  intros Hk -> Hx. rewrite insert_take_drop by (by eapply lookup_lt_Some). rewrite <- (take_drop_middle segs k x Hk) at 1.
  rewrite field_store_ok, splice_concat; [done..|]. rewrite concat_app. cbn [concat]. rewrite !length_app. lia.
Qed.
Lemma sub_seg (segs : list (list Z)) k off n x :
  segs !! k = Some x -> off = length (concat (take k segs)) -> n = length x -> sub (concat segs) off n = x.
Proof. intros Hk -> ->. rewrite <- (take_drop_middle segs k x Hk) at 1. by apply sub_concat. Qed.
Lemma load_seg (segs : list (list Z)) k off n x :
  segs !! k = Some x -> off = length (concat (take k segs)) -> n = length x -> load (concat segs) off n = Done x.
Proof.
  intros Hk Ho Hn. rewrite field_load_ok; [by rewrite (sub_seg segs k off n x)|].
  rewrite <- (take_drop_middle segs k x Hk), concat_app. cbn [concat]. rewrite !length_app. lia.
Qed.
Lemma copy_seg segs k doff x src k' soff n x' :
  segs !! k = Some x -> doff = length (concat (take k segs)) -> length x' = length x ->
  src !! k' = Some x' -> soff = length (concat (take k' src)) -> n = length x' ->
  copy (concat segs) doff (concat src) soff n = Done (concat (<[k := x']> segs)).
Proof. intros. unfold copy. rewrite (load_seg src k' soff n x') by done. cbn [rbind]. by apply (store_seg segs k doff x). Qed.

Lemma Calc_seg (segs : list (list Z)) i j start end_ k :
  Forall is_byte (concat segs) -> start = length (concat (take i segs)) ->
  length (concat (take j (drop i segs))) = (2 * k)%nat -> end_ = (start + 2 * k)%nat -> Z.of_nat k < 65535 ->
  Calc (concat segs) start end_ = finish (wsum (concat (take j (drop i segs)))).
Proof.
  intros Hb Hs Hk He Hb'. rewrite <- (take_drop i segs), <- (take_drop j (drop i segs)) in Hb |- * at 1.
  by apply (Calc_fields _ _ _ _ _ k).
Qed.

(** The lengths of fields with known lengths. *)
Ltac seglen := cbn [take drop concat]; rewrite ?take_0, ?length_app; cbn [length concat]; rewrite ?length_take, ?length_drop; lia.
(** A write to one field. *)
Tactic Notation "seg" uconstr(H) := rewrite H by (done || congruence || seglen); cbn [rbind insert list_insert].
Ltac segbytes := cbn [concat]; repeat first [assumption | apply list.Forall_app_2 | apply list.Forall_nil_2 | apply list.Forall_cons_2].

(** Copying the first fields of a buffer to the front of another. *)
Lemma copy_prefix (segs : list (list Z)) rest r0 size :
  size = length (concat segs) -> (size <= length r0)%nat ->
  copy r0 0 (concat (segs ++ [rest])) 0 size = Done (concat (segs ++ [drop size r0])).
Proof.
  intros -> Hr. unfold copy. rewrite concat_app, field_load_ok by (rewrite length_app; lia). cbn [rbind].
  unfold sub. rewrite drop_0, take_app_length, field_store_ok by lia. unfold splice. rewrite take_0, concat_app.
  cbn [app concat]. by rewrite app_nil_r.
Qed.

Section EchoReply.
Context (dm sm et hd c1 sip dip c2 data rest : list Z) (t code : Z) (self : EtherAddr) (r0 : list Z) (k : nat).
Context (Ldm : length dm = 6%nat) (Lsm : length sm = 6%nat) (Let : length et = 2%nat) (Lhd : length hd = 10%nat)
  (Lc1 : length c1 = 2%nat) (Lsip : length sip = 4%nat) (Ldip : length dip = 4%nat) (Lc2 : length c2 = 2%nat)
  (Ld : length data = (2 * k)%nat) (Lself : length (mac self) = 6%nat).
Context (Bdm : Forall is_byte dm) (Bsm : Forall is_byte sm) (Bet : Forall is_byte et) (Bhd : Forall is_byte hd)
  (Bc1 : Forall is_byte c1) (Bsip : Forall is_byte sip) (Bdip : Forall is_byte dip) (Bcode : is_byte code)
  (Bc2 : Forall is_byte c2) (Bd : Forall is_byte data) (Br : Forall is_byte r0) (Bself : Forall is_byte (mac self)).
Let req : list Z := concat [dm; sm; et; hd; c1; sip; dip; [t]; [code]; c2; data; rest].
Let size : nat := (38 + 2 * k)%nat.
Context (Lreq : length req = 4086%nat) (Lr0 : length r0 = 4086%nat) (Hsize : (size <= 4086)%nat) (Hhd : 0 < wsum hd).

Lemma echo_sums :
  exists c1' c2', bytes_ok 2 (csum c1') /\ bytes_ok 2 (csum c2') /\
    finish (wsum hd + wsum dip + wsum sip + (code + wsum (csum c2') + wsum data)) = Done c1' /\
    finish (code + wsum data) = Done c2' /\
    finish (wsum hd + wsum (csum c1') + wsum dip + wsum sip) = Done Csum_Clear /\
    finish (code + wsum (csum c2') + wsum data) = Done Csum_Clear.
Proof.
  pose proof (wsum_bound _ Bhd) as W1. pose proof (wsum_bound _ Bsip) as W2. pose proof (wsum_bound _ Bdip) as W3.
  pose proof (wsum_bound _ Bd) as W4. rewrite Lhd in W1. rewrite Lsip in W2. rewrite Ldip in W3. rewrite Ld in W4.
  assert (0 <= code < 256) as Hcode by exact Bcode. assert (k < 2048)%nat as Hk by (unfold size in Hsize; lia).
  destruct (finish_ok (code + wsum data)) as (c2' & E2 & Ok2 & S2); [lia|].
  pose proof (wsum_bound _ (proj2 Ok2)) as W5. rewrite (proj1 Ok2) in W5.
  assert (finish (code + wsum (csum c2') + wsum data) = Done Csum_Clear) as V2.
  { replace (code + wsum (csum c2') + wsum data) with (code + wsum data + wsum (csum c2')) by lia.
    destruct c2' as [[|h [|l [|]]]]; try (destruct Ok2; done). cbn [csum wsum] in *.
    rewrite Z.add_0_r. apply finish_verifies; [lia..|done]. }
  pose proof (proj1 (finish_zero (code + wsum (csum c2') + wsum data) ltac:(lia)) V2) as [P2 M2].
  destruct (finish_ok (wsum hd + wsum dip + wsum sip + (code + wsum (csum c2') + wsum data)))
    as (c1' & E1 & Ok1 & S1); [lia|].
  exists c1', c2'. split_and!; [done|done|done|done| |done].
  replace (wsum hd + wsum (csum c1') + wsum dip + wsum sip) with (wsum hd + wsum dip + wsum sip + wsum (csum c1')) by lia.
  apply (checksum_completes (wsum hd + wsum dip + wsum sip + (code + wsum (csum c2') + wsum data)));
    [lia|exact S1|zdiv|lia|lia].
Qed.

Lemma echo_reply_fields :
  exists c1' c2', bytes_ok 2 (csum c1') /\ bytes_ok 2 (csum c2') /\
    finish (wsum hd + wsum (csum c1') + wsum dip + wsum sip) = Done Csum_Clear /\
    finish (code + wsum (csum c2') + wsum data) = Done Csum_Clear /\
    build_echo_reply self req size r0 =
    Done (concat [sm; mac self; et; hd; csum c1'; dip; sip; [0]; [code]; csum c2'; data; drop size r0]).
Proof.
  destruct echo_sums as (c1' & c2' & [L1' B1'] & [L2' B2'] & E1 & E2 & V1 & V2). exists c1', c2'.
  split_and!; [by split|by split|done|done|].
  assert (Z.of_nat k < 2048) as Hk by (unfold size in Hsize; lia). unfold build_echo_reply, req.
  pose proof (copy_prefix [dm; sm; et; hd; c1; sip; dip; [t]; [code]; c2; data] rest r0 size) as C.
  cbn [app] in C. rewrite C by (unfold size in *; seglen). clear C.
  assert (Forall is_byte (drop size r0)) as Brest by (by apply list.Forall_drop).
  assert (bytes_ok 2 (csum Csum_Clear)) as [L0 B0] by (apply (bool_decide_unpack _); vm_compute; exact I).
  assert (is_byte 0) as Bz by (unfold is_byte; lia).
  cbn [rbind ICMPType_val].
  seg (store_seg _ 7 34 [t] [0]).
  seg (store_seg _ 9 36 c2 (csum Csum_Clear)).
  rewrite (Calc_seg _ 7 4 34 size (2 + k)) by (solve [segbytes] || seglen || (unfold size; seglen)).
  match goal with |- context [finish (wsum ?x)] => replace (wsum x) with (code + wsum data) end.
  2:{ cbn [take drop concat app wsum]. rewrite (wsum_app (csum Csum_Clear) _ 1), (wsum_app data _ k) by done.
      change (wsum (csum Csum_Clear)) with 0. cbn [wsum]. lia. }
  rewrite E2. cbn [rbind].
  seg (store_seg _ 9 36 (csum Csum_Clear) (csum c2')).
  seg (copy_seg _ 6 30 dip _ 5 26 4 sip).
  seg (copy_seg _ 5 26 sip _ 6 30 4 dip).
  seg (store_seg _ 4 24 c1 (csum Csum_Clear)).
  rewrite (Calc_seg _ 3 8 14 size (12 + k)) by (solve [segbytes] || seglen || (unfold size; seglen)).
  match goal with |- context [finish (wsum ?x)] =>
    replace (wsum x) with (wsum hd + wsum dip + wsum sip + (code + wsum (csum c2') + wsum data)) end.
  2:{ cbn [take drop concat app]. rewrite (wsum_app hd _ 5), (wsum_app (csum Csum_Clear) _ 1), (wsum_app dip _ 2),
        (wsum_app sip _ 2) by done. cbn [wsum]. rewrite (wsum_app (csum c2') _ 1), (wsum_app data _ k) by done.
      change (wsum (csum Csum_Clear)) with 0. cbn [wsum]. lia. }
  rewrite E1. cbn [rbind].
  seg (store_seg _ 4 24 (csum Csum_Clear) (csum c1')).
  seg (copy_seg _ 0 0 dm _ 1 6 6 sm).
  by rewrite (store_seg _ 1 6 sm (mac self)) by (done || congruence || seglen).
Qed.
End EchoReply.

Lemma CalcUDP_seg (segs : list (list Z)) i j start end_ k src dst len :
  Forall is_byte (concat segs) -> start = length (concat (take i segs)) ->
  length (concat (take j (drop i segs))) = (2 * k)%nat -> end_ = (start + 2 * k)%nat -> Z.of_nat k < 60000 ->
  bytes_ok 4 (addr src) -> bytes_ok 4 (addr dst) -> bytes_ok 2 len ->
  CalcUDPChecksum (concat segs) start end_ src dst len =
  finish (pseudo src dst len + wsum (concat (take j (drop i segs)))).
Proof.
  intros Hb -> Hm -> Hk Hs Hd Hl. rewrite <- (take_drop i segs), <- (take_drop j (drop i segs)), !concat_app in Hb |- * at 1.
  rewrite CalcUDP_even; [|done| |done..].
  - rewrite drop_app_length, <- Hm. by rewrite take_app_length.
  - rewrite !length_app. lia.
Qed.

(** The greeting that follows an echo reply. *)
Section Hello.
Context (dm sm et vd ln mid c1 sip dip p1 p2 ul c2 data rest : list Z) (proto : Z) (self : EtherAddr) (r0 : list Z).
Context (Ldm : length dm = 6%nat) (Lsm : length sm = 6%nat) (Let : length et = 2%nat) (Lvd : length vd = 2%nat)
  (Lln : length ln = 2%nat) (Lmid : length mid = 5%nat) (Lc1 : length c1 = 2%nat) (Lsip : length sip = 4%nat)
  (Ldip : length dip = 4%nat) (Lp1 : length p1 = 2%nat) (Lp2 : length p2 = 2%nat) (Lul : length ul = 2%nat)
  (Lc2 : length c2 = 2%nat) (Ld : length data = 38%nat) (Lself : length (mac self) = 6%nat).
Context (Bdm : Forall is_byte dm) (Bsm : Forall is_byte sm) (Bet : Forall is_byte et) (Bvd : Forall is_byte vd)
  (Bmid : Forall is_byte mid) (Bln : Forall is_byte ln) (Bc1 : Forall is_byte c1) (Bproto : is_byte proto)
  (Bsip : Forall is_byte sip) (Bdip : Forall is_byte dip) (Br : Forall is_byte r0) (Bself : Forall is_byte (mac self)).
Let req : list Z := concat [dm; sm; et; vd; ln; mid; [proto]; c1; sip; dip; p1; p2; ul; c2; data; rest].
Context (Lr0 : length r0 = 4086%nat).

Definition hello_head : list Z := port_bytes 12345 ++ port_bytes 11111 ++ even_length 46.
Definition hello_ip : list Z := vd ++ [0; 66] ++ mid ++ [kUDP].

Lemma hello_consts :
  bytes_ok 6 hello_head /\ bytes_ok 38 hello /\ bytes_ok 2 [0; 66] /\ bytes_ok 2 [0; 46] /\
  bytes_ok 2 (port_bytes 12345) /\ bytes_ok 2 (port_bytes 11111) /\ bytes_ok 2 (csum Csum_Clear).
Proof. split_and!; apply (bool_decide_unpack _); vm_compute; exact I. Qed.

Lemma hello_sums :
  let ps := pseudo (IPv4 dip) (IPv4 sip) [0; 46] + (wsum hello_head + wsum hello) in
  exists c1' c2', bytes_ok 2 (csum c1') /\ bytes_ok 2 (csum c2') /\
    finish (wsum hello_ip + wsum dip + wsum sip) = Done c1' /\ finish ps = Done c2' /\
    finish (wsum hello_ip + wsum (csum c1') + wsum dip + wsum sip) = Done Csum_Clear /\
    finish (ps + wsum (csum c2')) = Done Csum_Clear.
Proof.
  intros ps.
  destruct hello_consts as (Hh & [Ldh Bdh] & [L66 B66] & _).
  assert (is_byte kUDP) as Budp by (unfold is_byte, kUDP; lia).
  assert (bytes_ok 10 hello_ip) as Hip.
  { unfold hello_ip. apply (bytes_ok_app 2 8); [by split|]. apply (bytes_ok_app 2 6); [by split|].
    apply (bytes_ok_app 5 1); [by split|]. auto with lium. }
  pose proof (wsum_bound _ (proj2 Hip)) as W1. rewrite (proj1 Hip) in W1.
  pose proof (wsum_bound _ Bsip) as W2. rewrite Lsip in W2. pose proof (wsum_bound _ Bdip) as W3. rewrite Ldip in W3.
  destruct (finish_ok (wsum hello_ip + wsum dip + wsum sip)) as (c1' & E1 & [L1' B1'] & S1); [lia|].
  assert (0 <= wsum hello <= 65535 * 38 /\ 0 <= wsum hello_head <= 65535 * 6) as [W4 W5].
  { split; [apply (wsum_bound hello Bdh)|apply (wsum_bound _ (proj2 Hh))]. }
  assert (0 < ps < 2 ^ 28) as Hps.
  { unfold ps, pseudo. cbn [addr]. change (wsum [0; 46]) with 46. lia. }
  destruct (finish_ok ps) as (c2' & E2 & [L2' B2'] & S2); [lia|].
  assert (0 < wsum hello_ip) as Hpos.
  { unfold hello_ip. rewrite (wsum_app vd _ 1) by done. pose proof (wsum_even vd Bvd).
    assert (0 <= wsum (mid ++ [kUDP])) by (apply wsum_even; segbytes). cbn [app wsum]. lia. }
  exists c1', c2'. split_and!; [by split|by split|done|done| |].
  - replace (wsum hello_ip + wsum (csum c1') + wsum dip + wsum sip) with (wsum hello_ip + wsum dip + wsum sip + wsum (csum c1')) by lia.
    apply (checksum_completes (wsum hello_ip + wsum dip + wsum sip)); [lia|done|done|lia|lia].
  - apply (checksum_completes ps); [lia|done|done|lia|lia].
Qed.

Lemma hello_fields :
  exists c1' c2', bytes_ok 2 (csum c1') /\ bytes_ok 2 (csum c2') /\
    finish (wsum hello_ip + wsum (csum c1') + wsum dip + wsum sip) = Done Csum_Clear /\
    finish (pseudo (IPv4 dip) (IPv4 sip) [0; 46] + (wsum hello_head + wsum hello) + wsum (csum c2')) = Done Csum_Clear /\
    build_hello self req r0 =
    Done (concat [sm; mac self; et; vd; [0; 66]; mid; [kUDP]; csum c1'; dip; sip; port_bytes 12345; port_bytes 11111;
      [0; 46]; csum c2'; hello; drop 80 r0]).
Proof.
  destruct hello_sums as (c1' & c2' & [L1' B1'] & [L2' B2'] & E1 & E2 & V1 & V2). exists c1', c2'.
  split_and!; [by split|by split|done|done|].
  destruct hello_consts as (Hh & [Ldh Bdh] & [L66 B66] & [L46 B46] & [Lpa Bpa] & [Lpb Bpb] & [L0 B0]).
  assert (Forall is_byte (drop 80 r0)) as Brest by (by apply list.Forall_drop).
  assert (is_byte kUDP) as Budp by (unfold is_byte, kUDP; lia).
  unfold build_hello, req. change hello_size with 80%nat.
  change (even_length (u16 (Z.of_nat (length hello) + 8))) with [0; 46].
  change (ip_data_length (Z.of_nat (80 - sizeof_IPv4Packet))) with [0; 66]. unfold sizeof_IPv4Packet.
  pose proof (copy_prefix [dm; sm; et; vd; ln; mid; [proto]; c1; sip; dip; p1; p2; ul; c2; data] rest r0 80) as C.
  cbn [app] in C. rewrite C by seglen. clear C. cbn [rbind].
  seg (store_seg _ 14 42 data hello). seg (store_seg _ 11 36 p2 (port_bytes 11111)).
  seg (store_seg _ 10 34 p1 (port_bytes 12345)). seg (store_seg _ 12 38 ul [0; 46]).
  seg (store_seg _ 13 40 c2 (csum Csum_Clear)).
  rewrite (sub_seg _ 9 30 4 dip), (sub_seg _ 8 26 4 sip), (sub_seg _ 12 38 2 [0; 46]) by (done || congruence || seglen).
  rewrite (CalcUDP_seg _ 10 5 34 80 23) by (solve [segbytes] || (by split) || seglen).
  match goal with |- context [wsum (concat ?x)] => replace (wsum (concat x)) with (wsum hello_head + wsum hello) end.
  2:{ reflexivity. }
  rewrite E2. cbn [rbind].
  seg (store_seg _ 13 40 (csum Csum_Clear) (csum c2')). seg (store_seg _ 6 23 [proto] [kUDP]). seg (store_seg _ 4 16 ln [0; 66]).
  seg (copy_seg _ 9 30 dip _ 8 26 4 sip). seg (copy_seg _ 8 26 sip _ 9 30 4 dip). seg (store_seg _ 7 24 c1 (csum Csum_Clear)).
  rewrite (Calc_seg _ 3 7 14 34 10) by (solve [segbytes] || seglen).
  match goal with |- context [finish (wsum ?x)] => replace (wsum x) with (wsum hello_ip + wsum dip + wsum sip) end.
  2:{ cbn [take drop concat]. rewrite (app_assoc vd), (app_assoc (vd ++ _)), (app_assoc ((vd ++ _) ++ _)).
      replace (((vd ++ [0; 66]) ++ mid) ++ [kUDP]) with hello_ip by (unfold hello_ip; by rewrite <- !app_assoc).
      rewrite (wsum_app hello_ip _ 5), (wsum_app (csum Csum_Clear) _ 1), (wsum_app dip _ 2), (wsum_app sip _ 2)
        by (done || (unfold hello_ip; seglen)). change (wsum (csum Csum_Clear)) with 0. cbn [wsum]. lia. }
  rewrite E1. cbn [rbind].
  seg (store_seg _ 7 24 (csum Csum_Clear) (csum c1')). seg (copy_seg _ 0 0 dm _ 1 6 6 sm).
  by rewrite (store_seg _ 1 6 sm (mac self)) by (done || congruence || seglen).
Qed.
End Hello.

(** ** Queue layout *)

(** The first part of the queue's memory: where the used ring has to be. *)
Definition first_part (queue_size : Z) : Z := CeilToPageAlignment (sizeof_Descriptor * queue_size + 2 * (2 + queue_size)).
Definition size_of_q (q : Virtqueue) : nat := Z.to_nat (CalcSizeOfVirtqueue (queue_size_ q)).

Lemma layout_ok queue_size :
  1 <= queue_size <= 256 ->
  18 * queue_size + 4 <= first_part queue_size /\
  first_part queue_size + 4 + 8 * queue_size <= CalcSizeOfVirtqueue queue_size <= 16384 /\
  (used_base (Vq queue_size [] []) = first_part queue_size <-> queue_size < 205 \/ 227 < queue_size).
Proof.
  intros H. set (ok q := (18 * q + 4 <=? first_part q) && (first_part q + 4 + 8 * q <=? CalcSizeOfVirtqueue q) &&
    (CalcSizeOfVirtqueue q <=? 16384) && Bool.eqb (used_base (Vq q [] []) =? first_part q) ((q <? 205) || (227 <? q))).
  assert (forallb ok (seqZ 1 256) = true) as Hall by (vm_compute; reflexivity).
  rewrite forallb_forall in Hall. specialize (Hall queue_size). unfold ok in Hall. rewrite !andb_true_iff in Hall.
  destruct Hall as [[[H1 H2] H3] H4]; [apply list_elem_of_In, elem_of_seqZ; lia|].
  apply eqb_prop in H4. split; [lia|]. split; [lia|]. rewrite <- Z.eqb_eq, H4, orb_true_iff. lia.
Qed.

(** ** The driver's invariant *)

Record queue_ok (q : queue) (pg : gmap Z (list Z)) : Prop := QueueOk {
  qo_size : 1 <= vq_size q <= 256;
  qo_same : queue_size_ (vq q) = vq_size q;
  qo_base : length (base_ (vq q)) = size_of_q (vq q);
  qo_buf : length (buf_ (vq q)) = 256%nat;
  qo_cursor : 0 <= vq_cursor q < 65536;
  qo_page : forall j p, 0 <= j < vq_size q -> buf_ (vq q) !! Z.to_nat j = Some p ->
    exists b, pg !! p = Some b /\ bytes_ok 4096 b;
}.
(** The buffers behind the descriptors of a queue. *)
Definition buffers (q : queue) : list Z := take (Z.to_nat (vq_size q)) (buf_ (vq q)).
Record net_ok (n : net) : Prop := NetOk {
  no_init : initialized_ n = true;
  no_mac : bytes_ok 6 (mac (mac_addr_ n));
  no_ip : bytes_ok 4 (addr (self_ip_ n));
  no_rx : queue_ok (rxq n) (pages n);
  no_tx : queue_ok (txq n) (pages n);
  no_distinct : NoDup (buffers (rxq n) ++ buffers (txq n));
}.

(** What the device reads: the frame of a transmit descriptor and the index up
    to which descriptors are available. *)
Definition tx_frame (idx : Z) (n : net) : res (list Z) :=
  do buf <- GetDescriptorBuf idx (vq (txq n));
  do len <- GetDescriptorSize idx (vq (txq n));
  do page <- deref (pages n !! buf);
  Done (sub page 10 (Z.to_nat len - 10)).
Definition avail_index (q : Virtqueue) : res Z :=
  do b <- load (base_ q) (Z.to_nat (avail_base q + 2)) 2; Done (load16 b).
Definition avail_entry (idx : Z) (q : Virtqueue) : res Z :=
  do b <- load (base_ q) (Z.to_nat (avail_base q + 4 + 2 * idx)) 2; Done (load16 b).

(** The frame area of the buffer the next packet is built in. *)
Definition tx_buffer (n : net) : res (list Z) :=
  do idx <- slot_of (txq n);
  do buf <- GetDescriptorBuf idx (vq (txq n));
  do page <- deref (pages n !! buf);
  Done (drop 10 page).

(** One frame more is handed to the device. *)
Record sent (n : net) (fr : list Z) (n' : net) : Prop := Sent {
  se_ok : net_ok n';
  se_frame : tx_frame (vq_cursor (txq n) mod vq_size (txq n)) n' = Done fr;
  se_others : forall j, 0 <= j < vq_size (txq n) -> j <> vq_cursor (txq n) mod vq_size (txq n) ->
    tx_frame j n' = tx_frame j n;
  se_entry : avail_entry (vq_cursor (txq n) mod vq_size (txq n)) (vq (txq n')) =
    Done (vq_cursor (txq n) mod vq_size (txq n));
  se_avail : avail_index (vq (txq n')) = Done (vq_cursor (txq n) mod vq_size (txq n) + 1);
  se_cursor : vq_cursor (txq n') = u16 (vq_cursor (txq n) + 1);
  se_size : vq_size (txq n') = vq_size (txq n);
  se_rx : rxq n' = rxq n;
  se_nw : nw n' = nw n;
  se_mac : mac_addr_ n' = mac_addr_ n;
  se_ip : self_ip_ n' = self_ip_ n;
  se_io : io n' = (16, kIndexOfTXVirtqueue) :: io n;
  se_pages : forall p, p ∈ buffers (rxq n) -> pages n' !! p = pages n !! p;
}.

Lemma load16_store16 v : 0 <= v < 65536 -> load16 (store16 v) = v.
Proof. intros H. unfold load16, store16. cbn [nth]. zdiv. Qed.
Lemma load32_store32 v : 0 <= v < 4294967296 -> load32 (store32 v) = v.
Proof. intros H. unfold load32, store32. cbn [nth]. zdiv. Qed.

Lemma slot_ok q pg : queue_ok q pg ->
  slot_of q = Done (vq_cursor q mod vq_size q) /\ 0 <= vq_cursor q mod vq_size q < vq_size q.
Proof.
  intros H. pose proof (qo_size _ _ H). pose proof (qo_cursor _ _ H). pose proof (Z.mod_pos_bound (vq_cursor q) (vq_size q)).
  split; [|lia]. unfold slot_of. zfalse (vq_size q =? 0). cbn [negb kassert rbind]. by rewrite Z.rem_mod_nonneg by lia.
Qed.
Lemma idx_ok_true idx q pg : queue_ok q pg -> 0 <= idx < vq_size q -> idx_ok idx (vq q) = true.
Proof. intros H Hi. unfold idx_ok. rewrite (qo_same _ _ H). lia. Qed.
Lemma buf_ok idx q pg : queue_ok q pg -> 0 <= idx < vq_size q ->
  exists p b, GetDescriptorBuf idx (vq q) = Done p /\ buf_ (vq q) !! Z.to_nat idx = Some p /\ pg !! p = Some b /\ bytes_ok 4096 b.
Proof.
  intros H Hi. pose proof (qo_size _ _ H). destruct (lookup_lt_is_Some_2 (buf_ (vq q)) (Z.to_nat idx)) as [p Hp].
  { rewrite (qo_buf _ _ H). lia. }
  destruct (qo_page _ _ H idx p Hi Hp) as (b & Hb & Ok). exists p, b. unfold GetDescriptorBuf.
  rewrite (idx_ok_true _ _ _ H Hi), Hp. done.
Qed.
(** The rings lie inside the queue's memory. *)
Lemma base_room q pg : queue_ok q pg -> 18 * vq_size q + 4 <= Z.of_nat (length (base_ (vq q))).
Proof.
  intros H. rewrite (qo_base _ _ H). unfold size_of_q. rewrite (qo_same _ _ H).
  destruct (layout_ok (vq_size q) (qo_size _ _ H)) as (? & ? & _). pose proof (qo_size _ _ H). lia.
Qed.

(** *** One descriptor is set *)
Record desc_set (idx len : Z) (q q' : Virtqueue) : Prop := DescSet {
  ds_size : queue_size_ q' = queue_size_ q;
  ds_buf : buf_ q' = buf_ q;
  ds_len : length (base_ q') = length (base_ q);
  ds_self : GetDescriptorSize idx q' = Done len;
  ds_other : forall j, 0 <= j < queue_size_ q -> j <> idx -> GetDescriptorSize j q' = GetDescriptorSize j q;
}.
Lemma SetDescriptor_ok v2p idx p len q pg :
  queue_ok q pg -> 0 <= idx < vq_size q -> buf_ (vq q) !! Z.to_nat idx = Some p -> 0 <= len < 4294967296 ->
  exists q', SetDescriptor v2p idx p len 0 0 (vq q) = Done q' /\ desc_set idx len (vq q) q'.
Proof.
  intros H Hi Hp Hlen. pose proof (base_room _ _ H) as Hroom. pose proof (idx_ok_true _ _ _ H Hi) as Hok.
  set (bs := store64 (v2p p) ++ store32 len ++ store16 0 ++ store16 0).
  assert (Z.to_nat (sizeof_Descriptor * idx) + length bs <= length (base_ (vq q)))%nat as Hb by (simpl; unfold sizeof_Descriptor; lia).
  eexists. split; [unfold SetDescriptor; rewrite Hok; cbn [kassert rbind]; fold bs; rewrite field_store_ok by exact Hb; reflexivity|].
  split; cbn [queue_size_ buf_ base_]; [done|by rewrite list_insert_id|by apply length_splice| |].
  - unfold GetDescriptorSize, idx_ok in *. cbn [queue_size_ base_]. rewrite Hok. cbn [kassert rbind].
    rewrite field_load_ok by (rewrite length_splice by exact Hb; simpl in Hb; unfold sizeof_Descriptor in *; lia). cbn [rbind].
    assert (sub (splice (base_ (vq q)) (Z.to_nat (sizeof_Descriptor * idx)) bs) (Z.to_nat (sizeof_Descriptor * idx + 8)) 4 = store32 len) as ->.
    { transitivity (sub (sub (splice (base_ (vq q)) (Z.to_nat (sizeof_Descriptor * idx)) bs) (Z.to_nat (sizeof_Descriptor * idx)) 16) 8 4).
      - unfold sub. rewrite skipn_firstn_comm, drop_drop, take_take. f_equal. f_equal. unfold sizeof_Descriptor. lia.
      - change 16%nat with (length bs). by rewrite sub_splice_same. }
    by rewrite load32_store32.
  - intros j Hj Hne. unfold GetDescriptorSize, idx_ok in *. cbn [queue_size_ base_].
    destruct ((0 <=? j) && (j <? queue_size_ (vq q))) eqn:Ej; [|lia]. cbn [kassert rbind]. rewrite (qo_same _ _ H) in Hj.
    unfold load. rewrite length_splice by exact Hb.
    rewrite sub_splice_other; [done|exact Hb|simpl; unfold sizeof_Descriptor; lia].
Qed.

Lemma GetNextTXPacketBuf_ok v2p size n :
  net_ok n -> 0 <= size -> 10 + size < 4096 ->
  let idx := vq_cursor (txq n) mod vq_size (txq n) in
  exists p b q', GetNextTXPacketBuf v2p size n = Done (p + 10, set_txq (set_vq q' (txq n)) n) /\
    buf_ (vq (txq n)) !! Z.to_nat idx = Some p /\ pages n !! p = Some b /\ bytes_ok 4096 b /\
    desc_set idx (10 + size) (vq (txq n)) q'.
Proof.
  intros Hn Hs Hs' idx. pose proof (no_tx _ Hn) as Ht. destruct (slot_ok _ _ Ht) as [Es Hi]. fold idx in Es, Hi.
  destruct (buf_ok idx _ _ Ht Hi) as (p & b & Eb & Hp & Hb & Ok).
  destruct (SetDescriptor_ok v2p idx p (10 + size) _ _ Ht Hi Hp) as (q' & Eq & Hq); [lia|].
  exists p, b, q'. split_and!; [|done..]. unfold GetNextTXPacketBuf, sizeof_PacketBufHeader, kPageSize, kPageSizeExponent.
  rewrite (no_init _ Hn), u32_small by lia. change (Z.shiftl 1 12) with 4096. ztrue (10 + size <? 4096). cbn [kassert rbind].
  rewrite Es. cbn [rbind]. rewrite Eb. cbn [rbind]. rewrite Eq. done.
Qed.

(** *** The available ring *)
Record avail_set (idx v : Z) (q q' : Virtqueue) : Prop := AvailSet {
  as_size : queue_size_ q' = queue_size_ q;
  as_buf : buf_ q' = buf_ q;
  as_len : length (base_ q') = length (base_ q);
  as_desc : forall j, 0 <= j < queue_size_ q -> GetDescriptorSize j q' = GetDescriptorSize j q;
  as_index : avail_index q' = Done v;
  as_entry : avail_entry idx q' = Done idx;
}.
Lemma SetAvailable_ok idx v q :
  0 <= idx < queue_size_ q -> queue_size_ q <= 256 -> 0 <= v < 65536 -> 18 * queue_size_ q + 4 <= Z.of_nat (length (base_ q)) ->
  exists q1 q', SetAvailableRingEntry idx idx q = Done q1 /\ SetAvailableRingIndex v q1 = Done q' /\ avail_set idx v q q'.
Proof.
  intros Hi Hq Hv Hroom. unfold SetAvailableRingEntry, SetAvailableRingIndex, idx_ok, avail_base, sizeof_Descriptor.
  ztrue (0 <=? idx). ztrue (idx <? queue_size_ q). cbn [andb kassert rbind].
  set (o1 := Z.to_nat (16 * queue_size_ q + 2 * 2 + 2 * idx)). set (o2 := Z.to_nat (16 * queue_size_ q + 2)).
  assert (o1 + 2 <= length (base_ q))%nat as H1 by lia. assert (o2 + 2 <= length (base_ q))%nat as H2 by lia.
  set (b1 := splice (base_ q) o1 (store16 idx)). assert (length b1 = length (base_ q)) as L1 by (apply length_splice; simpl; lia).
  set (b2 := splice b1 o2 (store16 v)). assert (length b2 = length (base_ q)) as L2.
  { unfold b2. rewrite length_splice by (simpl; lia). done. }
  exists (Vq (queue_size_ q) b1 (buf_ q)), (Vq (queue_size_ q) b2 (buf_ q)).
  split; [rewrite field_store_ok by (simpl; lia); done|]. cbn [queue_size_ base_ buf_]. fold o2.
  split; [rewrite field_store_ok by (simpl; lia); done|].
  split; cbn [queue_size_ base_ buf_]; [done|done|done| | |].
  - intros j Hj. unfold GetDescriptorSize, idx_ok. cbn [queue_size_ base_]. unfold load. rewrite L2.
    destruct ((0 <=? j) && (j <? queue_size_ q)); [|done]. cbn [kassert rbind]. unfold b2, sizeof_Descriptor.
    rewrite sub_splice_other by (simpl; lia). unfold b1. by rewrite sub_splice_other by (simpl; lia).
  - unfold avail_index, avail_base, sizeof_Descriptor. cbn [queue_size_ base_]. fold o2. rewrite field_load_ok by lia. cbn [rbind].
    unfold b2. change 2%nat with (length (store16 v)). rewrite sub_splice_same by (simpl; lia). by rewrite load16_store16.
  - unfold avail_entry, avail_base, sizeof_Descriptor. cbn [queue_size_ base_].
    replace (Z.to_nat (16 * queue_size_ q + 4 + 2 * idx)) with o1 by lia. rewrite field_load_ok by lia. cbn [rbind].
    unfold b2. rewrite sub_splice_other by (simpl; lia). unfold b1. change 2%nat with (length (store16 idx)).
    rewrite sub_splice_same by (simpl; lia). by rewrite load16_store16 by lia.
Qed.

Lemma queue_ok_step q q' c pg pg' :
  queue_ok q pg -> queue_size_ q' = queue_size_ (vq q) -> buf_ q' = buf_ (vq q) -> length (base_ q') = length (base_ (vq q)) ->
  0 <= c < 65536 ->
  (forall p b, pg !! p = Some b -> bytes_ok 4096 b -> exists b', pg' !! p = Some b' /\ bytes_ok 4096 b') ->
  queue_ok (Queue q' (vq_size q) c) pg'.
Proof.
  intros [] Hs Hb Hl Hc Hp. split; cbn [vq vq_size vq_cursor].
  - done.
  - congruence.
  - unfold size_of_q in *. congruence.
  - congruence.
  - done.
  - intros j p Hj Hq. rewrite Hb in Hq. destruct (qo_page0 j p Hj Hq) as (b & Eb & Ok). by apply (Hp p b).
Qed.

Lemma buffers_lookup q j p : 0 <= j < vq_size q -> buf_ (vq q) !! Z.to_nat j = Some p ->
  buffers q !! Z.to_nat j = Some p.
Proof. intros Hj Hp. unfold buffers. rewrite lookup_take_lt by lia. done. Qed.

(** The state after sending [page] from the buffer [p]. *)
Section SentState.
Context (n : net) (p : Z) (page junk : list Z) (size : Z) (q1 q3 : Virtqueue).
Let idx := vq_cursor (txq n) mod vq_size (txq n).
Definition sent_state : net :=
  Net (initialized_ n) (mac_addr_ n) (self_ip_ n) (rxq n)
    (Queue q3 (vq_size (txq n)) (u16 (vq_cursor (txq n) + 1))) (ctlq n) (<[p := page]> (<[p := junk]> (pages n)))
    ((16, kIndexOfTXVirtqueue) :: io n) (nw n).
Context (Hn : net_ok n) (Hp : buf_ (vq (txq n)) !! Z.to_nat idx = Some p) (Hpage : bytes_ok 4096 page) (Hs : 0 <= size)
  (D : desc_set idx (10 + size) (vq (txq n)) q1) (A : avail_set idx (idx + 1) q1 q3).

Lemma sent_state_ok : sent n (sub page 10 (Z.to_nat size)) sent_state.
Proof.
  pose proof (no_tx _ Hn) as Ht. destruct (slot_ok _ _ Ht) as [_ Hi]. fold idx in Hi.
  assert (forall q c, queue_ok q (pages n) -> 0 <= c < 65536 -> forall q', queue_size_ q' = queue_size_ (vq q) ->
    buf_ q' = buf_ (vq q) -> length (base_ q') = length (base_ (vq q)) -> queue_ok (Queue q' (vq_size q) c) (pages sent_state)) as Hstep.
  { intros q c Hq Hc q' H1 H2 H3. apply (queue_ok_step _ _ _ (pages n)); [done..|]. intros p0 b0 Hp0 Ok0. cbn [pages sent_state].
    destruct (decide (p0 = p)) as [->|Hne]; [rewrite lookup_insert_eq; by exists page|].
    rewrite !lookup_insert_ne by done. by exists b0. }
  assert (0 <= u16 (vq_cursor (txq n) + 1) < 65536) as Hc by apply u16_range.
  assert (forall j, 0 <= j < vq_size (txq n) -> GetDescriptorBuf j q3 = GetDescriptorBuf j (vq (txq n))) as Hbufs.
  { intros j Hj. unfold GetDescriptorBuf, idx_ok. by rewrite (as_size _ _ _ _ A), (ds_size _ _ _ _ D), (as_buf _ _ _ _ A), (ds_buf _ _ _ _ D). }
  assert (queue_size_ q3 = queue_size_ (vq (txq n))) as Hsz by (rewrite (as_size _ _ _ _ A); apply D).
  assert (buf_ q3 = buf_ (vq (txq n))) as Hbf by (rewrite (as_buf _ _ _ _ A); apply D).
  pose proof (no_rx _ Hn) as Hrx.
  split; try done.
  - split; try apply Hn.
    + replace (rxq sent_state) with (Queue (vq (rxq n)) (vq_size (rxq n)) (vq_cursor (rxq n))) by (cbn; by destruct (rxq n)).
      by apply (Hstep (rxq n)); [|apply Hrx|..].
    + cbn [txq sent_state]. apply Hstep; [done|done|done|done|]. rewrite (as_len _ _ _ _ A). apply D.
    + unfold buffers. cbn [txq rxq sent_state vq vq_size]. rewrite Hbf. apply Hn.
  - unfold tx_frame. cbn [txq sent_state vq pages]. fold idx. rewrite Hbufs by done. unfold GetDescriptorBuf.
    rewrite (idx_ok_true _ _ _ Ht Hi), Hp. cbn [kassert rbind deref]. rewrite (as_desc _ _ _ _ A).
    2:{ rewrite (ds_size _ _ _ _ D), (qo_same _ _ Ht). done. }
    rewrite (ds_self _ _ _ _ D), lookup_insert_eq. cbn [rbind deref]. do 2 f_equal. lia.
  - intros j Hj Hne. unfold tx_frame. cbn [txq sent_state vq pages]. rewrite Hbufs by done.
    rewrite (as_desc _ _ _ _ A) by (rewrite (ds_size _ _ _ _ D), (qo_same _ _ Ht); done).
    rewrite (ds_other _ _ _ _ D) by (rewrite ?(qo_same _ _ Ht); done).
    destruct (buf_ok j _ _ Ht Hj) as (pj & bj & -> & Hpj & _). cbn [rbind]. rewrite !lookup_insert_ne; [done| |].
    all: intros ->; apply Hne; pose proof (no_distinct _ Hn) as Hnd; apply list.NoDup_app in Hnd as (_ & _ & Hnd).
    all: pose proof (NoDup_lookup _ _ _ _ Hnd (buffers_lookup _ _ _ Hj Hpj) (buffers_lookup _ _ _ Hi Hp)); lia.
  - fold idx. apply A.
  - fold idx. apply A.
  - intros p0 Hp0. cbn [pages sent_state]. rewrite !lookup_insert_ne; [done| |].
    all: intros ->; pose proof (no_distinct _ Hn) as Hnd; apply list.NoDup_app in Hnd as (_ & Hnd & _).
    all: apply (Hnd _ Hp0); by apply (list_elem_of_lookup_2 _ (Z.to_nat idx)), buffers_lookup.
Qed.
End SentState.

(** A packet built in the next buffer and sent. *)
Lemma send_built_ok v2p size build n :
  net_ok n -> 0 <= size -> 10 + size < 4096 ->
  (forall f, bytes_ok 4086 f -> exists f', build f = Done f' /\ bytes_ok 4086 f') ->
  exists f f' n', tx_buffer n = Done f /\ bytes_ok 4086 f /\ build f = Done f' /\ send_built v2p size build n = Done n' /\
    sent n (take (Z.to_nat size) f') n'.
Proof.
  intros Hn Hs Hs' Hbuild. pose proof (no_tx _ Hn) as Ht. destruct (slot_ok _ _ Ht) as [Es Hi].
  destruct (GetNextTXPacketBuf_ok v2p size n Hn Hs Hs') as (p & b & q1 & E1 & Hp & Hb & [Lb Bb] & D).
  set (idx := vq_cursor (txq n) mod vq_size (txq n)) in *.
  assert (bytes_ok 4086 (drop 10 b)) as Hf by (split; [rewrite length_drop; lia|by apply list.Forall_drop]).
  destruct (Hbuild _ Hf) as (f' & Ef & [Lf Bf]). exists (drop 10 b), f'.
  set (page := replicate 10 0 ++ f').
  assert (bytes_ok 4096 page) as Hpage.
  { apply (bytes_ok_app 10 4086); [apply (bool_decide_unpack _); vm_compute; exact I|by split]. }
  destruct (SetAvailable_ok idx (idx + 1) q1) as (q2 & q3 & E2 & E3 & A).
  { rewrite (ds_size _ _ _ _ D), (qo_same _ _ Ht). lia. }
  { rewrite (ds_size _ _ _ _ D), (qo_same _ _ Ht). apply Ht. }
  { pose proof (qo_size _ _ Ht). lia. }
  { rewrite (ds_size _ _ _ _ D), (ds_len _ _ _ _ D), (qo_same _ _ Ht). by eapply base_room. }
  pose proof (ds_buf _ _ _ _ D) as Hbuf1. pose proof (as_buf _ _ _ _ A) as Hbuf3.
  exists (sent_state n p page (take 10 b ++ f') q3). split_and!; [|done|done| |].
  - unfold tx_buffer. rewrite Es. cbn [rbind]. unfold GetDescriptorBuf. fold idx. rewrite (idx_ok_true _ _ _ Ht Hi), Hp. cbn [kassert rbind deref]. by rewrite Hb.
  - unfold send_built. rewrite E1. cbn [rbind]. unfold frame_at, set_frame, sizeof_PacketBufHeader.
    replace (p + 10 - 10) with p by lia. cbn [pages set_txq]. rewrite Hb. cbn [deref rbind]. rewrite Ef. cbn [rbind deref].
    unfold SendPacket. cbn [txq set_page set_txq set_vq].
    assert (slot_of (set_vq q1 (txq n)) = Done idx) as -> by exact Es. unfold set_vq. cbn [rbind vq vq_size vq_cursor].
    unfold GetDescriptorBuf, idx_ok. rewrite (ds_size _ _ _ _ D), (qo_same _ _ Ht), Hbuf1, Hp.
    ztrue (0 <=? idx). ztrue (idx <? vq_size (txq n)). cbn [andb kassert rbind deref pages set_page].
    rewrite lookup_insert_eq. cbn [deref rbind]. rewrite field_store_ok by (rewrite length_app, length_take; simpl; lia).
    cbn [rbind]. rewrite E2. cbn [rbind]. rewrite E3. cbn [rbind].
    assert (splice (take 10 b ++ f') 0 (replicate 10 0) = page) as ->; [|done].
    unfold splice, page. rewrite take_0, drop_app_length' by (rewrite length_take, length_replicate; lia). done.
  - pose proof (sent_state_ok n p page (take 10 b ++ f') size q1 q3 Hn Hp Hpage Hs D A) as S.
    replace (take (Z.to_nat size) f') with (sub page 10 (Z.to_nat size)); [done|]. unfold sub, page.
    by rewrite drop_app_length' by done.
Qed.

(** ** Echo requests *)

(** A buffer taken apart into fields of given sizes and the rest. *)
Fixpoint all_pieces (ns : list nat) (ls : list (list Z)) : Prop :=
  match ns, ls with
  | [], [] => True
  | n :: ns', l :: ls' => bytes_ok n l /\ all_pieces ns' ls'
  | _, _ => False
  end.
Lemma take_apart ns l : Forall is_byte l -> (foldr Nat.add 0 ns <= length l)%nat ->
  exists ls rest, l = concat (ls ++ [rest]) /\ all_pieces ns ls /\ Forall is_byte rest.
Proof.
  revert l. induction ns as [|n ns IH]; intros l B L; cbn [foldr] in L.
  - exists [], l. cbn [app concat all_pieces]. by rewrite app_nil_r.
  - destruct (IH (drop n l)) as (ls & rest & E & P & R); [by apply list.Forall_drop|rewrite length_drop; lia|].
    exists (take n l :: ls), rest. cbn [app concat all_pieces]. rewrite <- E, take_drop. split_and!; [done| |done|done].
    split; [rewrite length_take; lia|by apply list.Forall_take].
Qed.

Lemma take_fields (segs : list (list Z)) rest n : n = length (concat segs) -> take n (concat (segs ++ [rest])) = concat segs.
Proof. intros ->. rewrite concat_app. by rewrite take_app_length. Qed.
Lemma nth_seg (segs : list (list Z)) k off x : segs !! k = Some [x] -> off = length (concat (take k segs)) -> nth off (concat segs) 0 = x.
Proof.
  intros Hk ->. rewrite <- (take_drop_middle segs k [x] Hk) at 2. rewrite concat_app, app_nth2 by lia.
  by rewrite Nat.sub_diag.
Qed.
(** The value of a field. *)
Tactic Notation "fld" uconstr(H) := rewrite H by (done || congruence || seglen).

(** Requester and answerer change places. *)
Definition answers (self : EtherAddr) (req reply : list Z) : Prop :=
  sub reply 0 6 = sub req 6 6 /\ sub reply 6 6 = mac self /\ sub reply 12 2 = sub req 12 2 /\
  sub reply 26 4 = sub req 30 4 /\ sub reply 30 4 = sub req 26 4.

Lemma echo_reply_built self req r0 size :
  bytes_ok 4086 req -> bytes_ok 4086 r0 -> bytes_ok 6 (mac self) -> (42 <= size <= 4086)%nat -> Nat.Even size ->
  0 < wsum (sub req 14 10) ->
  exists f, build_echo_reply self req size r0 = Done f /\ bytes_ok 4086 f /\
    let reply := take size f in
    answers self req reply /\ sub reply 14 10 = sub req 14 10 /\ nth 34 reply 0 = 0 /\ nth 35 reply 0 = nth 35 req 0 /\
    sub reply 38 (size - 38) = sub req 38 (size - 38) /\
    Calc reply 34 size = Done Csum_Clear /\ Calc reply 14 34 = Done Csum_Clear.
Proof.
  intros [Lq Bq] [Lr Br] [Ls Bs] Hsize [k0 Hk0] Hhd. set (k := (k0 - 19)%nat). assert (size = 38 + 2 * k)%nat as -> by lia.
  destruct (take_apart [6; 6; 2; 10; 2; 4; 4; 1; 1; 2; 2 * k]%nat req) as (ls & rest & -> & P & Brest); [done|cbn [foldr]; lia|].
  destruct ls as [|dm [|sm [|et [|hd [|c1 [|sip [|dip [|t [|cd [|c2 [|data [|]]]]]]]]]]]]; cbn [all_pieces] in P; try tauto.
  destruct P as ([? ?] & [? ?] & [? ?] & [? ?] & [? ?] & [? ?] & [? ?] & [Lt Bt] & [Lcd Bcd] & [? ?] & [? ?] & _).
  destruct t as [|t [|]]; try done. destruct cd as [|code [|]]; try done. cbn [app] in *.
  rewrite (sub_seg _ 3 14 10 hd) in Hhd by (done || congruence || seglen).
  destruct (echo_reply_fields dm sm et hd c1 sip dip c2 data rest t code self r0 k) as (c1' & c2' & [? ?] & [? ?] & V1 & V2 & E);
    try done.
  { by inversion Bcd. }
  { lia. }
  eexists. split; [exact E|]. split.
  { split; [seglen|]. assert (Forall is_byte (drop (38 + 2 * k) r0)) by (by apply list.Forall_drop).
    assert (is_byte 0) by (unfold is_byte; lia). inversion Bcd. segbytes. }
  pose proof (take_fields [sm; mac self; et; hd; csum c1'; dip; sip; [0]; [code]; csum c2'; data]
    (drop (38 + 2 * k) r0) (38 + 2 * k)) as T. cbn [app] in T. rewrite T by seglen. clear T.
  inversion Bcd. assert (is_byte 0) by (unfold is_byte; lia). cbn zeta. unfold answers.
  replace (38 + 2 * k - 38)%nat with (2 * k)%nat by lia.
  split_and!.
  - fld (sub_seg _ 0 0 6 sm). by fld (sub_seg _ 1 6 6 sm).
  - by fld (sub_seg _ 1 6 6 (mac self)).
  - by do 2 fld (sub_seg _ 2 12 2 et).
  - fld (sub_seg _ 5 26 4 dip). by fld (sub_seg _ 6 30 4 dip).
  - fld (sub_seg _ 6 30 4 sip). by fld (sub_seg _ 5 26 4 sip).
  - by do 2 fld (sub_seg _ 3 14 10 hd).
  - by fld (nth_seg _ 7 34 0).
  - by do 2 fld (nth_seg _ 8 35 code).
  - by do 2 fld (sub_seg _ 10 38 (2 * k) data).
  - rewrite (Calc_seg _ 7 4 34 (38 + 2 * k) (2 + k)) by (solve [segbytes] || seglen). rewrite <- V2. f_equal.
    cbn [take drop concat app wsum]. rewrite (wsum_app (csum c2') _ 1), (wsum_app data _ k) by done. cbn [wsum]. lia.
  - rewrite (Calc_seg _ 3 4 14 34 10) by (solve [segbytes] || seglen). rewrite <- V1. f_equal.
    cbn [take drop concat]. rewrite (wsum_app hd _ 5), (wsum_app (csum c1') _ 1), (wsum_app dip _ 2), (wsum_app sip _ 2) by done.
    cbn [wsum]. lia.
Qed.

Lemma hello_built self req r0 :
  bytes_ok 4086 req -> bytes_ok 4086 r0 -> bytes_ok 6 (mac self) ->
  exists f, build_hello self req r0 = Done f /\ bytes_ok 4086 f /\
    let greeting := take 80 f in
    answers self req greeting /\ nth 23 greeting 0 = kUDP /\ sub greeting 16 2 = [0; 66] /\
    sub greeting 34 2 = port_bytes 12345 /\ sub greeting 36 2 = port_bytes 11111 /\
    sub greeting 38 2 = [0; 46] /\ sub greeting 42 38 = hello /\
    Calc greeting 14 34 = Done Csum_Clear /\
    CalcUDPChecksum greeting 34 80 (IPv4 (sub greeting 26 4)) (IPv4 (sub greeting 30 4)) (sub greeting 38 2) = Done Csum_Clear.
Proof.
  intros [Lq Bq] [Lr Br] [Ls Bs].
  destruct (take_apart [6; 6; 2; 2; 2; 5; 1; 2; 4; 4; 2; 2; 2; 2; 38]%nat req) as (ls & rest & -> & P & Brest); [done|cbn [foldr]; lia|].
  destruct ls as [|dm [|sm [|et [|vd [|ln [|mid [|pr [|c1 [|sip [|dip [|p1 [|p2 [|ul [|c2 [|data [|]]]]]]]]]]]]]]]];
    cbn [all_pieces] in P; try tauto.
  destruct P as ([? ?] & [? ?] & [? ?] & [? ?] & [? ?] & [? ?] & [Lp Bp] & [? ?] & [? ?] & [? ?] & [? ?] & [? ?] & [? ?] & [? ?] & [? ?] & _).
  destruct pr as [|proto [|]]; try done. cbn [app] in *. inversion Bp.
  destruct (hello_fields dm sm et vd ln mid c1 sip dip p1 p2 ul c2 data rest proto self r0) as (c1' & c2' & [? ?] & [? ?] & V1 & V2 & E);
    try done.
  destruct hello_consts as (Hh & [Ldh Bdh] & [L66 B66] & [L46 B46] & [Lpa Bpa] & [Lpb Bpb] & [L0 B0]).
  assert (is_byte kUDP) by (unfold is_byte, kUDP; lia).
  eexists. split; [exact E|]. split.
  { split; [seglen|]. assert (Forall is_byte (drop 80 r0)) by (by apply list.Forall_drop). segbytes. }
  pose proof (take_fields [sm; mac self; et; vd; [0; 66]; mid; [kUDP]; csum c1'; dip; sip; port_bytes 12345; port_bytes 11111;
      [0; 46]; csum c2'; hello] (drop 80 r0) 80) as T. cbn [app] in T. rewrite T by seglen. clear T. cbn zeta. unfold answers.
  split_and!.
  - fld (sub_seg _ 0 0 6 sm). by fld (sub_seg _ 1 6 6 sm).
  - by fld (sub_seg _ 1 6 6 (mac self)).
  - by do 2 fld (sub_seg _ 2 12 2 et).
  - fld (sub_seg _ 8 26 4 dip). by fld (sub_seg _ 9 30 4 dip).
  - fld (sub_seg _ 9 30 4 sip). by fld (sub_seg _ 8 26 4 sip).
  - by fld (nth_seg _ 6 23 kUDP).
  - by fld (sub_seg _ 4 16 2 [0; 66]).
  - by fld (sub_seg _ 10 34 2 (port_bytes 12345)).
  - by fld (sub_seg _ 11 36 2 (port_bytes 11111)).
  - by fld (sub_seg _ 12 38 2 [0; 46]).
  - by fld (sub_seg _ 14 42 38 hello).
  - rewrite (Calc_seg _ 3 7 14 34 10) by (solve [segbytes] || seglen). rewrite <- V1. f_equal.
    cbn [take drop concat]. rewrite (app_assoc vd), (app_assoc (vd ++ _)), (app_assoc ((vd ++ _) ++ _)).
    replace (((vd ++ [0; 66]) ++ mid) ++ [kUDP]) with (hello_ip vd mid) by (unfold hello_ip; by rewrite <- !app_assoc).
    rewrite (wsum_app (hello_ip vd mid) _ 5), (wsum_app (csum c1') _ 1), (wsum_app dip _ 2), (wsum_app sip _ 2)
      by (done || (unfold hello_ip; seglen)). cbn [wsum]. lia.
  - fld (sub_seg _ 8 26 4 dip). fld (sub_seg _ 9 30 4 sip). fld (sub_seg _ 12 38 2 [0; 46]).
    rewrite (CalcUDP_seg _ 10 5 34 80 23) by (solve [segbytes] || (by split) || seglen). rewrite <- V2. f_equal.
    cbn [take drop concat]. rewrite (wsum_app (port_bytes 12345) _ 1), (wsum_app (port_bytes 11111) _ 1), (wsum_app [0; 46] _ 1),
      (wsum_app (csum c2') _ 1) by done. rewrite app_nil_r. change (wsum hello_head) with (wsum (port_bytes 12345) + wsum (port_bytes 11111) + wsum [0; 46]). lia.
Qed.

Lemma sub_lookup f i n : (i + n <= length f)%nat -> (0 < n)%nat -> f !! i = Some (nth i f 0).
Proof. intros. apply lookup_nth_lt. lia. Qed.

(** C11: the driver answers a ping. For every even-sized echo request in an IPv4
    frame the handler sends two frames, in this order, and changes nothing else
    but the transmit queue: the echo reply, in which requester and answerer have
    changed places at both layers, the message is the request's and both the
    ICMP and the IPv4 checksum verify (the latter although it is computed over
    the whole packet); and a UDP greeting to port 11111 of the requester whose
    lengths and checksums are right. *)
Theorem echo_request_answered v2p n req size :
  net_ok n -> bytes_ok 4086 req -> (42 <= size < 4086)%nat -> Nat.Even size ->
  HasEthType (eth_of req) kTypeIPv4 = true -> nth 23 req 0 = kICMP -> nth 34 req 0 = ICMPType_val kEchoRequest ->
  0 < wsum (sub req 14 10) ->
  exists reply n1 greeting n2,
    IPv4PacketHandler v2p req (Z.of_nat size) n = Done (true, n2) /\ sent n reply n1 /\ sent n1 greeting n2 /\
    length reply = size /\ answers (mac_addr_ n) req reply /\ nth 34 reply 0 = ICMPType_val kEchoReply /\
    sub reply 14 10 = sub req 14 10 /\ sub reply 38 (size - 38) = sub req 38 (size - 38) /\
    Calc reply 34 size = Done Csum_Clear /\ Calc reply 14 34 = Done Csum_Clear /\
    length greeting = 80%nat /\ answers (mac_addr_ n) req greeting /\ nth 23 greeting 0 = kUDP /\
    port_value (sub greeting 36 2) = 11111 /\ sub greeting 42 38 = hello /\
    port_value (sub greeting 16 2) = 80 - 14 /\ port_value (sub greeting 38 2) = 80 - 34 /\
    Calc greeting 14 34 = Done Csum_Clear /\
    CalcUDPChecksum greeting 34 80 (IPv4 (sub greeting 26 4)) (IPv4 (sub greeting 30 4)) (sub greeting 38 2) = Done Csum_Clear.
Proof.
  intros Hn Hreq Hs He Ht Hp Ho Hw.
  destruct (send_built_ok v2p (Z.of_nat size) (build_echo_reply (mac_addr_ n) req size) n) as (f & f' & n1 & _ & Hf & E1 & S1 & Sent1);
    [done|lia|lia| |].
  { intros f Hf. destruct (echo_reply_built (mac_addr_ n) req f size) as (f' & E & B & _); [done|done|apply Hn|lia|done|done|].
    by exists f'. }
  destruct (echo_reply_built (mac_addr_ n) req f size) as (f2 & E1' & [L1 _] & A1 & H1 & T1 & _ & P1 & C1 & C2);
    [done|done|apply Hn|lia|done|done|]. rewrite E1 in E1'. injection E1' as <-.
  destruct (send_built_ok v2p 80 (build_hello (mac_addr_ n1) req) n1) as (g & g' & n2 & _ & Hg & E2 & S2 & Sent2);
    [apply Sent1|lia|lia| |].
  { intros g Hg. destruct (hello_built (mac_addr_ n1) req g) as (g' & E & B & _); [done|done|apply Sent1|]. by exists g'. }
  destruct (hello_built (mac_addr_ n1) req g) as (g2 & E2' & [L2 _] & A2 & K2 & I2 & _ & D2 & U2 & M2 & C3 & C4);
    [done|done|apply Sent1|]. rewrite E2 in E2'. injection E2' as <-.
  rewrite (se_mac _ _ _ Sent1) in *. rewrite Nat2Z.id in Sent1.
  exists (take size f'), n1, (take 80 g'), n2. split.
  { unfold IPv4PacketHandler, ICMPPacketHandler, SendICMPEchoReply. zfalse (Z.of_nat size <? 34). rewrite Ht. cbn [negb].
    rewrite (sub_lookup req 23 1), (sub_lookup req 34 1), Hp, Ho by (destruct Hreq; lia). zfalse (Z.of_nat size <? 42).
    rewrite !Nat2Z.id. cbn [deref rbind]. rewrite !Z.eqb_refl. cbn [negb rbind]. rewrite S1. cbn [rbind].
    rewrite (se_mac _ _ _ Sent1). change (Z.of_nat hello_size) with 80. rewrite S2. done. }
  split; [exact Sent1|]. split; [exact Sent2|]. rewrite !length_take.
  refine (conj _ (conj A1 (conj T1 (conj H1 (conj P1 (conj C1 (conj C2 (conj _ (conj A2 (conj K2 (conj _ (conj M2 (conj _
    (conj _ (conj C3 C4))))))))))))))); [lia|lia|by rewrite D2|by rewrite I2|by rewrite U2].
Qed.

(** ** Address resolution *)

Lemma load32_inj a b : bytes_ok 4 a -> bytes_ok 4 b -> load32 a = load32 b -> a = b.
Proof.
  intros [La Ba] [Lb Bb]. destruct a as [|a0 [|a1 [|a2 [|a3 [|]]]]]; try done.
  destruct b as [|b0 [|b1 [|b2 [|b3 [|]]]]]; try done. unfold load32. cbn [nth]. intros E.
  repeat match goal with H : Forall is_byte (_ :: _) |- _ => apply List.Forall_cons_iff in H as [? H] end.
  unfold is_byte in *. assert (a0 = b0 /\ a1 = b1 /\ a2 = b2 /\ a3 = b3) as (-> & -> & -> & ->) by lia. done.
Qed.
Lemma IPv4Addr_IsEqualTo_eq a b : bytes_ok 4 (addr a) -> bytes_ok 4 (addr b) -> IPv4Addr_IsEqualTo a b = bool_decide (a = b).
Proof.
  intros Ha Hb. unfold IPv4Addr_IsEqualTo. apply eq_true_iff_eq. rewrite Z.eqb_eq, bool_decide_eq_true. split; [|by intros ->].
  intros E. destruct a, b. f_equal. by apply load32_inj.
Qed.

Record arp_ok (p : ARPPacket) : Prop := ArpOk {
  ao_dst : length (mac (eth_dst (arp_eth p))) = 6%nat;
  ao_src : length (mac (eth_src (arp_eth p))) = 6%nat;
  ao_type : length (eth_type (arp_eth p)) = 2%nat;
  ao_hw : length (hw_type p) = 2%nat;
  ao_proto : length (proto_type p) = 2%nat;
  ao_op : length (arp_op p) = 2%nat;
  ao_seth : length (mac (sender_eth_addr p)) = 6%nat;
  ao_sip : length (addr (sender_proto_addr p)) = 4%nat;
  ao_teth : length (mac (target_eth_addr p)) = 6%nat;
  ao_tip : length (addr (target_proto_addr p)) = 4%nat;
}.
(** Reading a packet from the bytes it was written as. *)
Lemma arp_roundtrip p pad : arp_ok p -> arp_of (arp_bytes p ++ pad) = p /\ length (arp_bytes p) = 42%nat.
Proof.
  intros []. destruct p as [[[d] [s] ty] hw pr hl pl op [se] [si] [te] [ti]].
  cbn [mac addr arp_eth eth_dst eth_src eth_type hw_type proto_type arp_op sender_eth_addr sender_proto_addr target_eth_addr
    target_proto_addr] in *.
  assert (arp_bytes (Arp (Frame (Mac d) (Mac s) ty) hw pr hl pl op (Mac se) (IPv4 si) (Mac te) (IPv4 ti)) =
    concat [d; s; ty; hw; pr; [hl]; [pl]; op; se; si; te; ti]) as ->.
  { unfold arp_bytes, frame_bytes. cbn. rewrite <- !app_assoc. by rewrite app_nil_r. }
  split; [|seglen].
  replace (concat [d; s; ty; hw; pr; [hl]; [pl]; op; se; si; te; ti] ++ pad)
    with (concat [d; s; ty; hw; pr; [hl]; [pl]; op; se; si; te; ti; pad]).
  2:{ cbn [concat]. rewrite <- !app_assoc. by rewrite !app_nil_r. }
  unfold arp_of, eth_of.
  fld (sub_seg _ 0 0 6 d). fld (sub_seg _ 1 6 6 s). fld (sub_seg _ 2 12 2 ty). fld (sub_seg _ 3 14 2 hw).
  fld (sub_seg _ 4 16 2 pr). fld (nth_seg _ 5 18 hl). fld (nth_seg _ 6 19 pl). fld (sub_seg _ 7 20 2 op).
  fld (sub_seg _ 8 22 6 se). fld (sub_seg _ 9 28 4 si). fld (sub_seg _ 10 32 6 te). fld (sub_seg _ 11 38 4 ti). done.
Qed.

Lemma arp_bytes_ok dst src op se si te ti :
  bytes_ok 6 (mac dst) -> bytes_ok 6 (mac src) -> bytes_ok 2 op -> bytes_ok 6 (mac se) -> bytes_ok 4 (addr si) ->
  bytes_ok 6 (mac te) -> bytes_ok 4 (addr ti) ->
  let p := Arp (Frame dst src kTypeARP) [0; 1] [8; 0] 6 4 op se si te ti in
  arp_ok p /\ bytes_ok 42 (arp_bytes p).
Proof.
  intros Hd Hs Ho Hse Hsi Hte Hti p. split.
  - destruct Hd, Hs, Ho, Hse, Hsi, Hte, Hti. split; done.
  - unfold arp_bytes, frame_bytes. cbn [arp_eth eth_dst eth_src eth_type hw_type proto_type hw_addr_len proto_addr_len arp_op
      sender_eth_addr sender_proto_addr target_eth_addr target_proto_addr p].
    apply (bytes_ok_app 14 28); [apply (bytes_ok_app 6 8); [done|]; apply (bytes_ok_app 6 2); [done|]; apply (bool_decide_unpack _); vm_compute; exact I|].
    apply (bytes_ok_app 2 26); [apply (bool_decide_unpack _); vm_compute; exact I|].
    apply (bytes_ok_app 2 24); [apply (bool_decide_unpack _); vm_compute; exact I|].
    apply (bytes_ok_app 2 22); [apply (bool_decide_unpack _); vm_compute; exact I|].
    apply (bytes_ok_app 2 20); [done|]. apply (bytes_ok_app 6 14); [done|]. apply (bytes_ok_app 4 10); [done|]. by apply (bytes_ok_app 6 4).
Qed.

(** Storing a packet at the front of a frame. *)
Lemma store_front f bs k : bytes_ok 4086 f -> bytes_ok k bs -> (k <= 4086)%nat ->
  exists f', store f 0 bs = Done f' /\ bytes_ok 4086 f' /\ take k f' = bs.
Proof.
  intros [Lf Bf] [Lb Bb] Hk. exists (splice f 0 bs). rewrite field_store_ok by lia. split_and!; [done| |].
  - split; [rewrite length_splice; lia|by apply bytes_splice].
  - unfold splice. rewrite take_0. cbn [app]. by apply take_app_length'.
Qed.
(** Sending a packet that does not depend on what is in the buffer. *)
Lemma send_packet_ok v2p bs k n : net_ok n -> bytes_ok k bs -> (k < 4086)%nat ->
  exists n', send_built v2p (Z.of_nat k) (fun f => store f 0 bs) n = Done n' /\ sent n bs n'.
Proof.
  intros Hn Hb Hk. destruct (send_built_ok v2p (Z.of_nat k) (fun f => store f 0 bs) n) as (f & f' & n' & _ & Hf & E & S & Hs); [done|lia|lia| |].
  - intros f Hf. destruct (store_front f bs k) as (f' & E & B & _); [done|done|lia|]. by exists f'.
  - destruct (store_front f bs k) as (f2 & E' & _ & T); [done|done|lia|]. rewrite E in E'. injection E' as <-.
    exists n'. split; [done|]. by rewrite Nat2Z.id, T in Hs.
Qed.

Lemma eth_of_front bs pad : length bs = 42%nat -> eth_of (bs ++ pad) = eth_of bs.
Proof.
  intros L. unfold eth_of, sub. rewrite !drop_app_le by lia. by rewrite !take_app_le by (rewrite length_drop; lia).
Qed.
(** Receiving a well-formed ARP packet. *)
Lemma arp_received v2p p pad size n :
  arp_ok p -> eth_type (arp_eth p) = kTypeARP -> 42 <= size ->
  ARPPacketHandler v2p (arp_bytes p ++ pad) size n =
  match GetOperation p with
  | kReply => Done (true, set_nw (RegisterARPResolution (sender_proto_addr p) (sender_eth_addr p) (nw n)) n)
  | kRequest =>
    if negb (IPv4Addr_IsEqualTo (target_proto_addr p) (self_ip_ n)) then Done (true, n)
    else
      do n <- send_built v2p 42 (fun f => store f 0 (arp_bytes
        (ARP_SetupReply (sender_proto_addr p) (self_ip_ n) (sender_eth_addr p) (mac_addr_ n)))) n;
      Done (true, n)
  | kUnknown => Done (false, n)
  end.
Proof.
  intros Hp Ht Hs. destruct (arp_roundtrip p pad Hp) as [E L]. unfold ARPPacketHandler. rewrite E. zfalse (size <? 42).
  assert (eth_of (arp_bytes p ++ pad) = arp_eth p) as -> by (change (eth_of ?f) with (arp_eth (arp_of f)); by rewrite E).
  unfold HasEthType. rewrite Ht. done.
Qed.

(** C23: address resolution between two hosts [a] and [b]. The request of [a] for
    the address of [b], received by [b] in a buffer with any padding, makes [b]
    send a reply; the reply, received by [a], enters the hardware address of [b]
    under its IPv4 address and changes no other entry. A host with another
    address that receives the request does nothing. *)
Theorem arp_exchange v2p a b pad1 pad2 size1 size2 :
  net_ok a -> net_ok b -> 42 <= size1 -> 42 <= size2 ->
  exists req a1 rep b1 a2,
    SendARPRequest v2p (self_ip_ b) a = Done a1 /\ sent a req a1 /\
    ARPPacketHandler v2p (req ++ pad1) size1 b = Done (true, b1) /\ sent b rep b1 /\
    ARPPacketHandler v2p (rep ++ pad2) size2 a1 = Done (true, a2) /\
    ResolveIPv4 (self_ip_ b) (nw a2) = Some (mac_addr_ b) /\
    (forall ip, ip <> self_ip_ b -> ResolveIPv4 ip (nw a2) = ResolveIPv4 ip (nw a)) /\
    (forall c pad size, net_ok c -> self_ip_ c <> self_ip_ b -> 42 <= size ->
       ARPPacketHandler v2p (req ++ pad) size c = Done (true, c)).
Proof.
  intros Ha Hb Hs1 Hs2.
  pose proof (no_mac _ Ha) as Ma. pose proof (no_ip _ Ha) as Ia. pose proof (no_mac _ Hb) as Mb. pose proof (no_ip _ Hb) as Ib.
  assert (bytes_ok 6 (mac (Mac (replicate 6 255))) /\ bytes_ok 6 (mac (Mac (replicate 6 0))) /\ bytes_ok 2 [0; 1] /\ bytes_ok 2 [0; 2])
    as (H255 & H0 & H01 & H02) by (split_and!; apply (bool_decide_unpack _); vm_compute; exact I).
  destruct (arp_bytes_ok (Mac (replicate 6 255)) (mac_addr_ a) [0; 1] (mac_addr_ a) (self_ip_ a) (Mac (replicate 6 0)) (self_ip_ b))
    as [Oq Bq]; [done..|]. fold (ARP_SetupRequest (self_ip_ b) (self_ip_ a) (mac_addr_ a)) in Oq, Bq.
  destruct (arp_bytes_ok (mac_addr_ a) (mac_addr_ b) [0; 2] (mac_addr_ b) (self_ip_ b) (mac_addr_ a) (self_ip_ a)) as [Or Br]; [done..|].
  fold (ARP_SetupReply (self_ip_ a) (self_ip_ b) (mac_addr_ a) (mac_addr_ b)) in Or, Br.
  destruct (send_packet_ok v2p _ _ a Ha Bq) as (a1 & E1 & S1); [lia|].
  destruct (send_packet_ok v2p _ _ b Hb Br) as (b1 & E2 & S2); [lia|].
  change (Z.of_nat 42) with 42 in E2. eexists _, a1, _, b1, _. split; [exact E1|]. split; [exact S1|].
  split. { rewrite arp_received by done. cbn [GetOperation arp_op ARP_SetupRequest nth Z.eqb negb target_proto_addr sender_proto_addr sender_eth_addr Pos.eqb].
    rewrite IPv4Addr_IsEqualTo_eq, bool_decide_true by done. cbn [negb]. rewrite E2. done. }
  split; [exact S2|]. split; [by rewrite arp_received by done|].
  cbn [sender_proto_addr sender_eth_addr ARP_SetupReply nw set_nw]. rewrite (se_nw _ _ _ S1).
  split; [apply lookup_insert_eq|]. split; [intros ip Hne; by apply lookup_insert_ne|].
  intros c pad size Hc Hne Hs. rewrite arp_received by done. cbn [GetOperation arp_op ARP_SetupRequest nth Z.eqb negb target_proto_addr Pos.eqb].
  rewrite IPv4Addr_IsEqualTo_eq, bool_decide_false by (done || apply Hc). done.
Qed.

(** ** DHCP options *)

Record dhcp_option := Opt { opt_code : Z; opt_data : list Z }.
Definition encode_option (o : dhcp_option) : list Z := opt_code o :: Z.of_nat (length (opt_data o)) :: opt_data o.
Definition encode_options (l : list dhcp_option) : list Z := concat (map encode_option l).
(** Routers and net masks are single addresses. *)
Definition option_ok (o : dhcp_option) : Prop :=
  (1 <= length (opt_data o))%nat /\ (opt_code o = 3 \/ opt_code o = 1 -> length (opt_data o) = 4%nat).
(** What an option configures. *)
Definition apply_option (w : network) (o : dhcp_option) : network :=
  if opt_code o =? 3 then SetIPv4DefaultGateway (IPv4 (opt_data o)) w
  else if opt_code o =? 1 then SetIPv4NetMask (NetMask (opt_data o)) w
  else w.

(** The end of the options: the end of the frame, or a length of zero. *)
Definition options_end (tail : list Z) (at_end : bool) : Prop := at_end = true \/ exists c rest, tail = c :: 0 :: rest.

Lemma drop_lookup_head (f : list Z) i x rest : drop i f = x :: rest -> f !! i = Some x.
Proof. intros E. pose proof (lookup_drop f i 0) as H. rewrite E, Nat.add_0_r in H. by rewrite <- H. Qed.

Lemma dhcp_options_one fuel f i size w o rest :
  drop (Z.to_nat i) f = encode_option o ++ rest -> 0 <= i < size -> option_ok o ->
  dhcp_options (S fuel) f i size w =
  dhcp_options fuel f (i + (2 + Z.of_nat (length (opt_data o)))) size (apply_option w o).
Proof.
  intros E Hi [Hl H4]. destruct o as [c d]. cbn [encode_option opt_code opt_data app] in *. cbn [dhcp_options].
  ztrue (i <? size). rewrite (drop_lookup_head _ _ _ _ E). cbn [deref rbind].
  assert (drop (Z.to_nat (i + 1)) f = Z.of_nat (length d) :: d ++ rest) as E1.
  { replace (Z.to_nat (i + 1)) with (Z.to_nat i + 1)%nat by lia. by rewrite <- drop_drop, E. }
  assert (drop (Z.to_nat (i + 2)) f = d ++ rest) as E2.
  { replace (Z.to_nat (i + 2)) with (Z.to_nat i + 2)%nat by lia. by rewrite <- drop_drop, E. }
  rewrite (drop_lookup_head _ _ _ _ E1). cbn [deref rbind]. zfalse (Z.of_nat (length d) =? 0).
  assert (length d = 4%nat -> load f (Z.to_nat (i + 2)) 4 = Done d) as Hload.
  { intros Hd. rewrite field_load_ok.
    - unfold sub. rewrite E2. f_equal. by apply take_app_length'.
    - apply (f_equal length) in E2. rewrite length_drop, length_app in E2. lia. }
  unfold apply_option. cbn [opt_code opt_data]. destruct (Z.eqb_spec c 3) as [->|H3].
  - rewrite (H4 (or_introl eq_refl)), Hload by tauto. done.
  - cbn [rbind]. destruct (Z.eqb_spec c 1) as [->|H1]; [|done]. by rewrite (H4 (or_intror eq_refl)), Hload by tauto.
Qed.

Lemma dhcp_options_prefix l fuel f i size w rest :
  drop (Z.to_nat i) f = encode_options l ++ rest -> 0 <= i -> i + Z.of_nat (length (encode_options l)) <= size ->
  Forall option_ok l ->
  dhcp_options (length l + fuel) f i size w =
  dhcp_options fuel f (i + Z.of_nat (length (encode_options l))) size (foldl apply_option w l).
Proof.
  revert i w. induction l as [|o l IH]; intros i w E Hi Hs Hok; [by rewrite Z.add_0_r|].
  apply List.Forall_cons_iff in Hok as [Ho Hok]. cbn [encode_options map concat] in *. fold (encode_options l) in *.
  rewrite length_app in *. rewrite <- app_assoc in E.
  assert (length (encode_option o) = 2 + length (opt_data o))%nat as Hlen by done.
  cbn [length Nat.add]. rewrite (dhcp_options_one _ f i size w o _ E) by (done || (destruct Ho; lia)). cbn [foldl].
  rewrite IH; [f_equal; lia| |lia|lia|done].
  replace (Z.to_nat (i + (2 + Z.of_nat (length (opt_data o))))) with (Z.to_nat i + length (encode_option o))%nat by lia.
  rewrite <- drop_drop, E. apply drop_app_length.
Qed.

(** At the end of the options, and at an option of two bytes [c] and [k]. *)
Lemma dhcp_options_stop fuel f i size w tail :
  drop (Z.to_nat i) f = tail -> 0 <= i <= size -> options_end tail (i =? size) -> dhcp_options (S fuel) f i size w = Done w.
Proof.
  intros E Hi He. cbn [dhcp_options]. destruct (Z.ltb_spec i size) as [Hlt|]; [|done]. destruct He as [He|(c & rest & ->)]; [lia|].
  rewrite (drop_lookup_head _ _ _ _ E). cbn [deref rbind].
  assert (drop (Z.to_nat (i + 1)) f = 0 :: rest) as E1.
  { replace (Z.to_nat (i + 1)) with (Z.to_nat i + 1)%nat by lia. by rewrite <- drop_drop, E. }
  by rewrite (drop_lookup_head _ _ _ _ E1).
Qed.
Lemma dhcp_options_bad fuel f i size w c k rest :
  drop (Z.to_nat i) f = c :: k :: rest -> 0 <= i < size -> c = 3 \/ c = 1 -> k <> 0 -> k <> 4 ->
  dhcp_options (S fuel) f i size w = Stop Panic.
Proof.
  intros E Hi Hc Hk Hk4. cbn [dhcp_options]. ztrue (i <? size). rewrite (drop_lookup_head _ _ _ _ E). cbn [deref rbind].
  assert (drop (Z.to_nat (i + 1)) f = k :: rest) as E1.
  { replace (Z.to_nat (i + 1)) with (Z.to_nat i + 1)%nat by lia. by rewrite <- drop_drop, E. }
  rewrite (drop_lookup_head _ _ _ _ E1). cbn [deref rbind]. zfalse (k =? 0). zfalse (k =? 4). by destruct Hc as [-> | ->].
Qed.

Lemma encode_options_length l : Forall option_ok l -> (3 * length l <= length (encode_options l))%nat.
Proof.
  induction 1 as [|o l [Ho _] _ IH]; [done|]. cbn [encode_options map concat]. fold (encode_options l).
  rewrite length_app. simpl. lia.
Qed.

(** A DHCP message from a server to this host. *)
Record dhcp_reply_to (n : net) (f : list Z) : Prop := DhcpReply {
  dr_type : HasEthType (eth_of f) kTypeIPv4 = true;
  dr_proto : f !! 23%nat = Some kUDP;
  dr_port : port_value (sub f 36 2) = 68;
  dr_op : f !! 42%nat = Some 2;
  dr_chaddr : sub f 70 6 = mac (mac_addr_ n);
  dr_cookie : sub f 278 4 = [99; 130; 83; 99];
}.
Lemma dhcp_reply_handled v2p n f size :
  dhcp_reply_to n f -> 42 <= size ->
  IPv4PacketHandler v2p f size n =
  let n1 := SetSelfIPv4Addr (IPv4 (sub f 58 4)) n in
  do w <- dhcp_options (length f) f 282 size (nw n1); Done (true, set_nw w n1).
Proof.
  intros [Ht Hp Hport Ho Hc Hk] Hs. unfold IPv4PacketHandler, ICMPPacketHandler, UDPPacketHandler.
  zfalse (size <? 34). zfalse (size <? 42). rewrite Ht, Hp, Ho, Hport, Hk, Hc. cbn [negb deref rbind].
  change (kUDP =? kICMP) with false. change (kUDP =? kUDP) with true. cbn [negb rbind].
  assert (EtherAddr_IsEqualTo (Mac (mac (mac_addr_ n))) (mac_addr_ n) = true) as ->.
  { unfold EtherAddr_IsEqualTo. cbn [mac]. by rewrite !Z.eqb_refl. }
  rewrite (bool_decide_true (_ = _)) by done. cbn [negb orb Z.eqb Pos.eqb]. by destruct (dhcp_options _ _ _ _ _).
Qed.

(** C22: a DHCP reply configures the host. The address it assigns becomes the
    host's own, resolvable to its own hardware address, and the options are
    applied one after the other, whatever other options are between them, up to
    the end of the frame or an option of length zero; a router option that does
    not hold exactly one address stops the kernel instead. *)
Theorem dhcp_reply_configures v2p n hdr l tail size :
  let f := hdr ++ encode_options l ++ tail in
  dhcp_reply_to n f -> length hdr = 282%nat -> Forall option_ok l ->
  282 + Z.of_nat (length (encode_options l)) <= size ->
  (options_end tail (282 + Z.of_nat (length (encode_options l)) =? size) ->
   sub f 58 4 <> [0; 0; 0; 0] -> bytes_ok 4 (sub f 58 4) ->
   exists n', IPv4PacketHandler v2p f size n = Done (true, n') /\ self_ip_ n' = IPv4 (sub f 58 4) /\
     nw n' = foldl apply_option (RegisterARPResolution (IPv4 (sub f 58 4)) (mac_addr_ n) (nw n)) l /\
     rxq n' = rxq n /\ txq n' = txq n /\ mac_addr_ n' = mac_addr_ n /\ io n' = io n) /\
  (forall c k rest, c = 3 \/ c = 1 -> tail = c :: k :: rest -> 0 < k -> k <> 4 ->
     282 + Z.of_nat (length (encode_options l)) < size -> IPv4PacketHandler v2p f size n = Stop Panic).
Proof.
  intros f Hf Lh Hok Hs. pose proof (encode_options_length l Hok) as Hlen.
  assert (drop 282 f = encode_options l ++ tail) as Ef by (unfold f; by rewrite drop_app_length').
  assert (length f = 282 + (length (encode_options l) + length tail))%nat as Lf by (unfold f; rewrite !length_app; lia).
  rewrite dhcp_reply_handled by (done || lia). cbn zeta. set (n1 := SetSelfIPv4Addr _ n).
  set (len := length (encode_options l)) in *.
  replace (length f) with (length l + S (length f - 1 - length l))%nat by lia.
  rewrite (dhcp_options_prefix l _ f 282 size _ tail) by (done || lia). fold len.
  assert (drop (Z.to_nat (282 + Z.of_nat len)) f = tail) as Et.
  { replace (Z.to_nat (282 + Z.of_nat len)) with (282 + len)%nat by lia. rewrite <- drop_drop, Ef. apply drop_app_length. }
  split.
  - intros He Hz Hb. rewrite (dhcp_options_stop _ _ _ _ _ _ Et) by (done || lia). cbn [rbind].
    eexists. split; [done|]. unfold n1, SetSelfIPv4Addr. cbn [self_ip_].
    rewrite IPv4Addr_IsEqualTo_eq, bool_decide_false by (done || (unfold kWildcardIPv4Addr; congruence) ||
      (apply (bool_decide_unpack _); vm_compute; exact I)). done.
  - intros c k rest Hc Ht Hk Hk4 Hlt. rewrite Ht in Et. by rewrite (dhcp_options_bad _ _ _ _ _ _ _ _ Et) by (done || lia).
Qed.

(** ** The transmit queue as a sequence of frames *)

Inductive sends : list (list Z) -> net -> net -> Prop :=
| sends_nil n : sends [] n n
| sends_snoc l fr n n1 n2 : sends l n n1 -> sent n1 fr n2 -> sends (l ++ [fr]) n n2.

Lemma sends_inv l n n' :
  net_ok n -> vq_cursor (txq n) = 0 -> sends l n n' -> Z.of_nat (length l) < 65536 ->
  net_ok n' /\ vq_size (txq n') = vq_size (txq n) /\ vq_cursor (txq n') = Z.of_nat (length l) /\
  (l <> [] -> avail_index (vq (txq n')) = Done ((Z.of_nat (length l) - 1) mod vq_size (txq n) + 1)) /\
  (Z.of_nat (length l) <= vq_size (txq n) -> forall i fr, l !! i = Some fr -> tx_frame (Z.of_nat i) n' = Done fr).
Proof.
  intros Hn Hc Hs. revert Hn Hc. induction Hs as [n|l fr n n1 n2 Hs IH S]; intros Hn Hc Hlen.
  - split_and!; [done..|]. intros _ i fr H. by rewrite lookup_nil in H.
  - rewrite length_app in *. cbn [length] in *. destruct (IH Hn Hc) as (Hn1 & Hz & Hc1 & _ & Hfr); [lia|].
    pose proof (qo_size _ _ (no_tx _ Hn)) as Hsz.
    split_and!.
    + apply S.
    + rewrite (se_size _ _ _ S). done.
    + rewrite (se_cursor _ _ _ S), Hc1, u16_small by lia. lia.
    + intros _. rewrite (se_avail _ _ _ S), Hc1, Hz. do 3 f_equal. lia.
    + intros Hfit i f Hl. assert (vq_cursor (txq n1) mod vq_size (txq n1) = Z.of_nat (length l)) as Hm.
      { rewrite Hc1, Hz. apply Z.mod_small. lia. }
      destruct (decide (i = length l)) as [->|Hne].
      * rewrite list_lookup_middle in Hl by done. injection Hl as <-. rewrite <- Hm. apply S.
      * assert (i < length l)%nat by (apply lookup_lt_Some in Hl; rewrite length_app in Hl; simpl in Hl; lia).
        rewrite lookup_app_l in Hl by done. rewrite (se_others _ _ _ S) by lia. apply Hfr; [lia|done].
Qed.

(** A packet per frame: the next buffer, the frame copied into it, [SendPacket]. *)
Fixpoint transmit (v2p : Z -> Z) (l : list (list Z)) (n : net) : res net :=
  match l with
  | [] => Done n
  | fr :: l' => do n <- send_built v2p (Z.of_nat (length fr)) (fun f => store f 0 fr) n; transmit v2p l' n
  end.
Lemma sends_cons fr l n n1 n2 : sent n fr n1 -> sends l n1 n2 -> sends (fr :: l) n n2.
Proof.
  intros H1 H2. induction H2 as [n1|l fr' n1 n3 n4 _ IH H3]; [exact (sends_snoc [] fr n n n1 (sends_nil n) H1)|].
  exact (sends_snoc (fr :: l) fr' n n3 n4 (IH H1) H3).
Qed.
Lemma transmit_sends v2p l : forall n, net_ok n -> Forall (fun fr => bytes_ok (length fr) fr /\ (length fr < 4086)%nat) l ->
  exists n', transmit v2p l n = Done n' /\ sends l n n'.
Proof.
  induction l as [|fr l IH]; intros n Hn Hl; [exists n; split; [done|apply sends_nil]|]. apply Forall_cons_1 in Hl as [[Hb Hf] Hl].
  destruct (send_packet_ok v2p fr (length fr) n Hn Hb Hf) as (n1 & E & S). destruct (IH n1 (se_ok _ _ _ S) Hl) as (n2 & E2 & S2).
  exists n2. cbn [transmit]. rewrite E. split; [exact E2|]. by eapply sends_cons.
Qed.

(** C24: sending, and what the device sees of the transmit queue.  On a ready
    driver with an empty queue any sequence of frames that fit a page is sent,
    each built in the next buffer and handed over by [SendPacket].  While no more
    frames have been sent than the queue has descriptors, the available index is
    their number and the descriptors hold them in order; from the next frame on
    the index starts again at one, so that it is no longer the number of frames
    modulo 2^16 that the device expects. *)
Theorem tx_queue_frames v2p l n :
  net_ok n -> vq_cursor (txq n) = 0 -> Forall (fun fr => bytes_ok (length fr) fr /\ (length fr < 4086)%nat) l -> (0 < length l)%nat -> Z.of_nat (length l) < 65536 ->
  exists n' v, transmit v2p l n = Done n' /\ net_ok n' /\ vq_cursor (txq n') = Z.of_nat (length l) /\
    avail_index (vq (txq n')) = Done v /\ 1 <= v <= vq_size (txq n) /\
    (v = Z.of_nat (length l) <-> Z.of_nat (length l) <= vq_size (txq n)) /\
    (Z.of_nat (length l) <= vq_size (txq n) -> forall i fr, l !! i = Some fr -> tx_frame (Z.of_nat i) n' = Done fr) /\
    (Z.of_nat (length l) = vq_size (txq n) + 1 -> v = 1).
Proof.
  intros Hn Hc Hl Hpos Hlen. destruct (transmit_sends v2p l n Hn Hl) as (n' & E & Hs).
  destruct (sends_inv l n n' Hn Hc Hs Hlen) as (Hn' & _ & Hc' & Ha & Hf). pose proof (qo_size _ _ (no_tx _ Hn)) as Hsz.
  eexists n', _. split; [exact E|]. split; [exact Hn'|]. split; [exact Hc'|]. split; [apply Ha; intros ->; simpl in Hpos; lia|].
  pose proof (Z.mod_pos_bound (Z.of_nat (length l) - 1) (vq_size (txq n))). split; [lia|]. split; [|split; [done|]].
  - split; [lia|]. intros. rewrite Z.mod_small by lia. lia.
  - intros ->. replace (vq_size (txq n) + 1 - 1) with (vq_size (txq n)) by lia. by rewrite Z_mod_same_full.
Qed.

(** ** A driver to run *)

Definition demo_queue (p : Z) : queue := Queue (Vq 2 (replicate (Z.to_nat 8192) 0) ([p; p + 4096] ++ replicate 254 0)) 2 0.
Definition demo_driver : net :=
  Net true (Mac [82; 84; 0; 18; 52; 86]) (IPv4 [10; 0; 2; 15]) (demo_queue 65536) (demo_queue 131072)
    (Queue (Vq 0 [] (replicate 256 0)) 0 0)
    (list_to_map (map (fun p => (p, replicate 4096 0)) [65536; 69632; 131072; 135168])) [] demo_net.
Definition demo_peer : net :=
  Net true (Mac [82; 84; 0; 18; 52; 87]) (IPv4 [10; 0; 2; 16]) (rxq demo_driver) (txq demo_driver) (ctlq demo_driver)
    (pages demo_driver) [] demo_net.
Lemma demo_queue_ok p pg :
  (forall j, j = p \/ j = p + 4096 -> pg !! j = Some (replicate 4096 0)) -> queue_ok (demo_queue p) pg.
Proof.
  intros Hpg. split; cbn [demo_queue vq vq_size vq_cursor queue_size_ base_ buf_]; try lia.
  - rewrite length_replicate. vm_compute. reflexivity.
  - by rewrite length_app, length_replicate.
  - intros j q Hj Hq. exists (replicate 4096 0). split.
    + apply Hpg. assert (j = 0 \/ j = 1) as [-> | ->] by lia; cbn in Hq; injection Hq as <-; auto.
    + split; [by rewrite length_replicate|]. apply list.Forall_replicate. unfold is_byte. lia.
Qed.
Lemma demo_driver_ok : net_ok demo_driver /\ net_ok demo_peer.
Proof.
  assert (queue_ok (demo_queue 65536) (pages demo_driver)) by (apply demo_queue_ok; intros j [-> | ->]; vm_compute; reflexivity).
  assert (queue_ok (demo_queue 131072) (pages demo_driver)) by (apply demo_queue_ok; intros j [-> | ->]; vm_compute; reflexivity).
  split; split; try done; apply (bool_decide_unpack _); vm_compute; exact I.
Qed.
Lemma arp_exchange_witness :
  exists a1 a2 rep, SendARPRequest (fun v => v) (IPv4 [10; 0; 2; 16]) demo_driver = Done a1 /\
    ARPPacketHandler (fun v => v) (rep ++ replicate 4044 0) 42 a1 = Done (true, a2) /\
    ResolveIPv4 (IPv4 [10; 0; 2; 16]) (nw a2) = Some (Mac [82; 84; 0; 18; 52; 87]).
Proof.
  destruct demo_driver_ok as [H1 H2].
  destruct (arp_exchange (fun v => v) demo_driver demo_peer (replicate 4044 0) (replicate 4044 0) 42 42 H1 H2) as
    (req & a1 & rep & b1 & a2 & E1 & _ & _ & _ & E2 & R & _); [lia|lia|].
  exists a1, a2, rep. exact (conj E1 (conj E2 R)).
Defined.

Definition demo_ping : list Z :=
  [82; 84; 0; 18; 52; 86; 82; 84; 0; 18; 52; 87; 8; 0; 69; 0; 0; 28; 0; 1; 0; 0; 64; 1; 98; 193; 10; 0; 2; 16; 10; 0; 2; 15;
   8; 0; 247; 253; 0; 1; 0; 1] ++ replicate 4044 0.
Lemma echo_request_answered_witness :
  exists reply n1 greeting n2,
    IPv4PacketHandler (fun v => v) demo_ping 42 demo_driver = Done (true, n2) /\ sent demo_driver reply n1 /\ sent n1 greeting n2 /\
    Calc reply 14 34 = Done Csum_Clear.
Proof.
  destruct (echo_request_answered (fun v => v) demo_driver demo_ping 42) as
    (reply & n1 & greeting & n2 & H1 & H2 & H3 & _ & _ & _ & _ & _ & _ & H4 & _).
  - apply demo_driver_ok.
  - apply (bool_decide_unpack _). vm_compute. exact I.
  - lia.
  - exists 21%nat. lia.
  - reflexivity.
  - reflexivity.
  - reflexivity.
  - reflexivity.
  - exists reply, n1, greeting, n2. exact (conj H1 (conj H2 (conj H3 H4))).
Defined.

Definition demo_dhcp : list Z :=
  sub demo_ping 0 12 ++ [8; 0] ++ replicate 9 0 ++ [kUDP] ++ replicate 12 0 ++ [0; 68] ++ replicate 4 0 ++ [2] ++ replicate 15 0 ++
  [10; 0; 2; 20] ++ replicate 8 0 ++ [82; 84; 0; 18; 52; 86] ++ replicate 202 0 ++ [99; 130; 83; 99].
Definition demo_options : list dhcp_option := [Opt 53 [5]; Opt 1 [255; 255; 255; 0]; Opt 3 [10; 0; 2; 2]].
Lemma dhcp_reply_configures_witness :
  exists n', IPv4PacketHandler (fun v => v) (demo_dhcp ++ encode_options demo_options ++ [255; 0]) 299 demo_driver = Done (true, n') /\
    self_ip_ n' = IPv4 [10; 0; 2; 20] /\ gateway_ (nw n') = IPv4 [10; 0; 2; 2] /\ netmask_ (nw n') = NetMask [255; 255; 255; 0].
Proof.
  destruct (dhcp_reply_configures (fun v => v) demo_driver demo_dhcp demo_options [255; 0] 299) as [H _].
  - split; vm_compute; reflexivity.
  - reflexivity.
  - repeat constructor; cbn; lia.
  - vm_compute. done.
  - destruct H as (n' & E & Hip & Hnw & _).
    + right. by exists 255, [].
    + vm_compute. discriminate.
    + apply (bool_decide_unpack _). vm_compute. exact I.
    + exists n'. split; [exact E|]. rewrite Hip, Hnw. vm_compute. done.
Defined.

Definition demo_arp : list Z := arp_bytes (ARP_SetupRequest (IPv4 [10; 0; 2; 16]) (IPv4 [10; 0; 2; 15]) (Mac [82; 84; 0; 18; 52; 86])).
(** Three frames on a queue of two. *)
Lemma tx_queue_frames_witness :
  exists n', transmit (fun v => v) [demo_arp; demo_arp; demo_arp] demo_driver = Done n' /\ avail_index (vq (txq n')) = Done 1.
Proof.
  destruct (tx_queue_frames (fun v => v) [demo_arp; demo_arp; demo_arp] demo_driver (proj1 demo_driver_ok) eq_refl)
    as (n' & v & E & _ & _ & Ha & _ & _ & _ & Hv).
  - assert (bytes_ok (length demo_arp) demo_arp /\ (length demo_arp < 4086)%nat) as H
      by (split; [apply (bool_decide_unpack _); vm_compute; exact I|apply Nat.ltb_lt; reflexivity]).
    repeat (apply Forall_cons; [exact H|]). apply List.Forall_nil.
  - cbn. lia.
  - cbn. lia.
  - exists n'. split; [exact E|]. rewrite Ha. f_equal. apply Hv. reflexivity.
Defined.

(** ** The driver is ready after [Init] *)

Section InitProofs.
Context (v2p : Z -> Z) (d : device) (base : Z -> Z) (rx_mem tx_mem : Z -> Z * list Z).





End InitProofs.








