(* ===== verification/SyscallKernel.v ===== *)
(** * System calls: [src/syscall.cc]

    The handler and the calls it dispatches to, on a state that joins the models
    of the driver, the network, the scheduler, the compositor, the page tables
    and the page allocator.  The memory of the calling process is a map from
    addresses to bytes.  What the kernel prints about calls is left out; what a
    program writes is recorded. *)

From S2P Require Import Prelude KernelBase KernelText PhysPages Paging Scheduler Sheet Network Virtio.
From stdpp Require Import strings.
Import Generic.
#[global] Open Scope Z_scope.

(** ** State *)

Definition kBadFileDescriptor : Z := -9.
Definition kInvalid : Z := -22.

(** [window_buf] is the pixel array of the sheet. *)
Record PerProcessSyscallData := PerProcess {
  window_sheet : option nat;
  num_getdents64_called : Z;
  idx_in_root_files : Z;
  read_offset : Z;
}.
Definition no_data : PerProcessSyscallData := PerProcess None 0 0 0.

(** [k_files]: names and contents of the root files; [k_out]: what was written
    to the console, the latest last; [k_arrivals]: for each [Sleep] the buffers
    the driver receives before the process runs again, with their lengths. *)
Record kernel := Kernel {
  k_net : net;
  k_sched : sched;
  k_sheets : gmap nat Sheet;
  k_vram : nat;
  k_tables : tables;
  k_dram : allocator;
  k_cr3 : Z;
  k_files : list (list Z * list Z);
  k_data : gmap Z PerProcessSyscallData;
  k_mem : gmap Z Z;
  k_out : list Z;
  k_arrivals : list (list (list Z * Z));
}.
Definition with_net (n : net) (k : kernel) : kernel :=
  Kernel n (k_sched k) (k_sheets k) (k_vram k) (k_tables k) (k_dram k) (k_cr3 k) (k_files k) (k_data k) (k_mem k) (k_out k) (k_arrivals k).
Definition with_nw (w : network) (k : kernel) : kernel := with_net (set_nw w (k_net k)) k.
Definition with_sched (s : sched) (k : kernel) : kernel :=
  Kernel (k_net k) s (k_sheets k) (k_vram k) (k_tables k) (k_dram k) (k_cr3 k) (k_files k) (k_data k) (k_mem k) (k_out k) (k_arrivals k).
Definition with_sheets (h : gmap nat Sheet) (k : kernel) : kernel :=
  Kernel (k_net k) (k_sched k) h (k_vram k) (k_tables k) (k_dram k) (k_cr3 k) (k_files k) (k_data k) (k_mem k) (k_out k) (k_arrivals k).
Definition with_pages (t : tables) (a : allocator) (k : kernel) : kernel :=
  Kernel (k_net k) (k_sched k) (k_sheets k) (k_vram k) t a (k_cr3 k) (k_files k) (k_data k) (k_mem k) (k_out k) (k_arrivals k).
Definition with_data (pid : Z) (d : PerProcessSyscallData) (k : kernel) : kernel :=
  Kernel (k_net k) (k_sched k) (k_sheets k) (k_vram k) (k_tables k) (k_dram k) (k_cr3 k) (k_files k) (<[pid := d]> (k_data k)) (k_mem k)
    (k_out k) (k_arrivals k).
Definition with_mem (m : gmap Z Z) (k : kernel) : kernel :=
  Kernel (k_net k) (k_sched k) (k_sheets k) (k_vram k) (k_tables k) (k_dram k) (k_cr3 k) (k_files k) (k_data k) m (k_out k) (k_arrivals k).
Definition with_out (o : list Z) (k : kernel) : kernel :=
  Kernel (k_net k) (k_sched k) (k_sheets k) (k_vram k) (k_tables k) (k_dram k) (k_cr3 k) (k_files k) (k_data k) (k_mem k) o (k_arrivals k).
Definition with_arrivals (l : list (list (list Z * Z))) (k : kernel) : kernel :=
  Kernel (k_net k) (k_sched k) (k_sheets k) (k_vram k) (k_tables k) (k_dram k) (k_cr3 k) (k_files k) (k_data k) (k_mem k) (k_out k) l.

(** ** The memory of the process *)

Fixpoint read_bytes (n : nat) (a : Z) (m : gmap Z Z) : res (list Z) :=
  match n with
  | O => Done []
  | S n' => do b <- deref (m !! a); do l <- read_bytes n' (a + 1) m; Done (b :: l)
  end.
(** Every byte written has to be mapped. *)
Fixpoint write_bytes (l : list Z) (a : Z) (m : gmap Z Z) : res (gmap Z Z) :=
  match l with
  | [] => Done m
  | b :: l' => do _ <- deref (m !! a); write_bytes l' (a + 1) (<[a := b]> m)
  end.
Definition copy_to_user (a : Z) (l : list Z) (k : kernel) : res kernel :=
  do m <- write_bytes l a (k_mem k); Done (with_mem m k).
(** A string; [fuel] bounds its length. *)
Fixpoint read_string (fuel : nat) (a : Z) (m : gmap Z Z) : res (list Z) :=
  match fuel with
  | O => Stop FuelOut
  | S f => do b <- deref (m !! a); if b =? 0 then Done [] else do l <- read_string f (a + 1) m; Done (b :: l)
  end.
(** The number of bytes mapped bounds every string in memory. *)
Definition user_string (a : Z) (k : kernel) : res (list Z) := read_string (S (size (k_mem k))) a (k_mem k).

Definition current (k : kernel) : res Process := Scheduler.get (k_sched k) (GetCurrentProcess (k_sched k)).
Definition current_pid (k : kernel) : res Z := do p <- current k; Done (id_ p).
(** [per_process_syscall_data[pid]] *)
Definition ppdata (pid : Z) (k : kernel) : PerProcessSyscallData := default no_data (k_data k !! pid).

(** ** Packets *)

Definition IsICMPPacket (f : list Z) (frame_size : Z) : bool :=
  if frame_size <? 34 then false
  else if negb (HasEthType (eth_of f) kTypeIPv4) then false
  else nth 23 f 0 =? kICMP.
Definition IsUDPPacketToPort (f : list Z) (frame_size port : Z) : bool :=
  if frame_size <? 42 then false
  else if negb (HasEthType (eth_of f) kTypeIPv4) then false
  else if negb (nth 23 f 0 =? kUDP) then false
  else port_value (sub f 36 2) =? port.

Section Calls.
(** [v2p], [garbage]: as in the driver; [ram]: what is in memory that was just
    allocated; [fuel]: the length of the free list; [mask]: the physical address
    bits of the processor. *)
Context (v2p : Z -> Z) (garbage : list Z) `{TStrategy} (fuel : nat) (mask : Z) (ram : Z -> Z).

(** The other processes run; of them, the network manager matters. *)
Fixpoint receive_all (l : list (list Z * Z)) (n : net) : res net :=
  match l with
  | [] => Done n
  | (buf, len) :: l' => do n <- ProcessPacket v2p garbage buf len n; receive_all l' n
  end.
Definition Sleep (k : kernel) : res kernel :=
  match k_arrivals k with
  | [] => Stop FuelOut
  | batch :: rest => do n <- receive_all batch (k_net k); Done (with_arrivals rest (with_net n k))
  end.

(** [while (network.HasPacketInRXBuffer())] up to the first packet that is
    accepted. *)
Fixpoint pop_accepted (n : nat) (accept : list Z -> Z -> bool) (w : network) : res (option PacketContainer * network) :=
  if negb (HasPacketInRXBuffer w) then Done (None, w)
  else
    match n with
    | O => Stop FuelOut
    | S n' =>
      let '(packet, w) := PopFromRXBuffer w in
      if accept (pc_data packet) (pc_size packet) then Done (Some packet, w) else pop_accepted n' accept w
    end.
(** [for (;;)]; every turn but the last sleeps. *)
Fixpoint wait_packet (turns : nat) (accept : list Z -> Z -> bool) (k : kernel) : res (PacketContainer * kernel) :=
  do '(o, w) <- pop_accepted kRXBufferSize accept (nw (k_net k));
  let k := with_nw w k in
  match o with
  | Some packet => Done (packet, k)
  | None => match turns with O => Stop FuelOut | S t => do k <- Sleep k; wait_packet t accept k end
  end.
Definition next_packet (accept : list Z -> Z -> bool) (k : kernel) : res (PacketContainer * kernel) :=
  wait_packet (length (k_arrivals k)) accept k.

(** [struct sockaddr_in]: the port at offset 2, the address at 4. *)
Definition sys_recvfrom (sockfd buf buf_size recv_addr : Z) (k : kernel) : res (Z * kernel) :=
  do pid <- current_pid k;
  match FindSocket pid sockfd (nw (k_net k)) with
  | None => Done (-1, k)
  | Some s =>
    match s_type s with
    | kICMPDatagram =>
      do '(packet, k) <- next_packet IsICMPPacket k;
      let icmp_data_size := pc_size packet - 34 in
      let copy_size := Z.min icmp_data_size buf_size in
      do k <- copy_to_user buf (sub (pc_data packet) 34 (Z.to_nat copy_size)) k;
      do k <- copy_to_user (recv_addr + 4) (sub (pc_data packet) 26 4) k;
      Done (icmp_data_size, k)
    | kICMPRaw =>
      do '(packet, k) <- next_packet IsICMPPacket k;
      let ip_data_size := pc_size packet - 14 in
      let copy_size := Z.min ip_data_size buf_size in
      do k <- copy_to_user buf (sub (pc_data packet) 14 (Z.to_nat copy_size)) k;
      Done (ip_data_size, k)
    | kUDPSocket =>
      do '(packet, k) <- next_packet (fun f size => IsUDPPacketToPort f size (listen_port s)) k;
      let udp_data_size := pc_size packet - 42 in
      let copy_size := Z.min udp_data_size buf_size in
      do k <- copy_to_user buf (sub (pc_data packet) 42 (Z.to_nat copy_size)) k;
      do k <- copy_to_user (recv_addr + 4) (sub (pc_data packet) 26 4) k;
      do k <- copy_to_user (recv_addr + 2) (sub (pc_data packet) 34 2) k;
      Done (udp_data_size, k)
    end
  end.

Definition socket_type_of (domain type protocol : Z) : option SocketType :=
  if domain =? 2 then
    if (type =? 2) && (protocol =? 1) then Some kICMPDatagram
    else if (type =? 3) && (protocol =? 1) then Some kICMPRaw
    else if (type =? 2) && ((protocol =? 0) || (protocol =? 17)) then Some kUDPSocket
    else None
  else None.
Definition sys_socket (domain type protocol : Z) (k : kernel) : res (Z * kernel) :=
  do pid <- current_pid k;
  match socket_type_of domain type protocol with
  | None => Done (-1, k)
  | Some t =>
    let '(err, w) := RegisterSocket pid 3 t (nw (k_net k)) in
    Done (if err then -1 else 3, with_nw w k)
  end.

(** The bytes of the port are swapped. *)
Definition sys_bind (sockfd addr : Z) (k : kernel) : res (Z * kernel) :=
  do pid <- current_pid k;
  match FindSocket pid sockfd (nw (k_net k)) with
  | None => Done (-1, k)
  | Some _ =>
    do b <- read_bytes 2 (addr + 2) (k_mem k);
    let sin_port := load16 b in
    let '(err, w) := BindToPort pid sockfd (u16 (Z.lor (Z.land (Z.shiftr sin_port 8) 255) (Z.shiftl sin_port 8))) (nw (k_net k)) in
    Done (if err then -1 else 0, with_nw w k)
  end.

Definition set_stdin (r : RingBuffer.ring) (p : Process) : Process :=
  MkProcess (id_ p) (name_ p) (status_ p) (scheduler_index_ p) (ctx_ p) (pp_info_ p) (number_of_ctx_switch_ p)
    (proc_time_femto_sec_ p) (sys_time_femto_sec_ p) (copied_bytes_in_ctx_sw_ p) (num_of_clflush_issued_in_ctx_sw_ p)
    (time_consumed_in_ctx_save_femto_sec_ p) r.
(** Without input the call waits for ever. *)
Definition sys_read (fd buf count : Z) (k : kernel) : res (Z * kernel) :=
  if fd =? 0 then
    if count <? 1 then Done (kInvalid, k)
    else
      do p <- current k;
      if RingBuffer.IsEmpty (stdin_buffer_ p) then Stop FuelOut
      else
        let '(c, r) := RingBuffer.Pop 0 16 (stdin_buffer_ p) in
        do s <- Scheduler.update (GetCurrentProcess (k_sched k)) (set_stdin r) (k_sched k);
        do k <- copy_to_user buf [c] (with_sched s k);
        Done (1, k)
  else if fd =? 6 then
    do pid <- current_pid k;
    let d := ppdata pid k in
    do f <- deref (k_files k !! Z.to_nat (idx_in_root_files d));
    let file_size := Z.of_nat (length f.2) in
    run kassert (read_offset d <=? file_size);
    let copy_size := Z.min (file_size - read_offset d) count in
    if copy_size =? 0 then Done (0, with_data pid d k)
    else
      do k <- copy_to_user buf (sub f.2 (Z.to_nat (read_offset d)) (Z.to_nat copy_size)) k;
      Done (copy_size, with_data pid
        (PerProcess (window_sheet d) (num_getdents64_called d) (idx_in_root_files d) (read_offset d + copy_size)) k)
  else Done (kInvalid, k).

(** [tries] turns of 200 ms. *)
Fixpoint resolve_loop (tries : nat) (ip : IPv4Addr) (k : kernel) : res (option EtherAddr * kernel) :=
  match tries with
  | O => Done (None, k)
  | S t =>
    match ResolveIPv4 ip (nw (k_net k)) with
    | Some eth => Done (Some eth, k)
    | None =>
      do n <- SendARPRequest v2p ip (k_net k);
      do k <- Sleep (with_net n k);
      resolve_loop t ip k
    end
  end.
Definition ResolveIPv4WithTimeout (dst_ip_addr : IPv4Addr) (timeout_ms : Z) (k : kernel) : res (option EtherAddr * kernel) :=
  let w := nw (k_net k) in
  let nexthop_ip_addr := if IsInSameSubnet dst_ip_addr (gateway_ w) (netmask_ w) then dst_ip_addr else gateway_ w in
  resolve_loop (Z.to_nat ((timeout_ms + 199) / 200)) nexthop_ip_addr k.

(** The Ethernet and IPv4 headers, in the buffer [f]. *)
Definition build_ip (dst src : EtherAddr) (data_length proto : Z) (src_ip dst_ip : IPv4Addr) (f : list Z) : res (list Z) :=
  do f <- store f 0 (mac dst);
  do f <- store f 6 (mac src);
  do f <- store f 12 kTypeIPv4;
  do f <- store f 14 [69];
  do f <- store f 15 [0];
  do f <- store f 16 (ip_data_length data_length);
  do f <- store f 18 (store16 0);
  do f <- store f 20 (store16 0);
  do f <- store f 22 [255];
  do f <- store f 23 [proto];
  do f <- store f 26 (addr src_ip);
  do f <- store f 30 (addr dst_ip);
  do f <- store f 24 (csum Csum_Clear);
  do c <- Calc f 14 34;
  store f 24 (csum c).
Definition build_icmp (dst src : EtherAddr) (src_ip dst_ip : IPv4Addr) (data : list Z) (f : list Z) : res (list Z) :=
  do f <- build_ip dst src 8 kICMP src_ip dst_ip f;
  store f 34 data.
(** The checksum field is not cleared before it is computed. *)
Definition build_udp (dst src : EtherAddr) (src_ip dst_ip : IPv4Addr) (sport : Z) (dport data : list Z) (f : list Z) : res (list Z) :=
  let len := length data in
  do f <- build_ip dst src (Z.of_nat (42 + len - 34)) kUDP src_ip dst_ip f;
  do f <- store f 42 data;
  do f <- store f 34 (port_bytes sport);
  do f <- store f 36 dport;
  do f <- store f 38 (even_length (u16 (Z.of_nat len + 8)));
  do c <- CalcUDPChecksum f 34 (42 + len) src_ip dst_ip (sub f 38 2);
  store f 40 (csum c).

Definition sys_sendto (sockfd buf len dest_addr : Z) (k : kernel) : res (Z * kernel) :=
  do pid <- current_pid k;
  match FindSocket pid sockfd (nw (k_net k)) with
  | None => Done (-1, k)
  | Some s =>
    do a <- read_bytes 4 (dest_addr + 4) (k_mem k);
    let target_ip_addr := IPv4 a in
    do '(eth, k) <- ResolveIPv4WithTimeout target_ip_addr 1000 k;
    match eth with
    | None => Done (-1, k)
    | Some eth =>
      let n := k_net k in
      match s_type s with
      | kICMPRaw | kICMPDatagram =>
        do n <- send_built v2p (34 + len) (fun f =>
          do data <- read_bytes (Z.to_nat len) buf (k_mem k);
          build_icmp eth (mac_addr_ n) (self_ip_ n) target_ip_addr data f) n;
        Done (len, with_net n k)
      | kUDPSocket =>
        let len := Z.land (u64 (len + 1)) (u64 (Z.lnot 1)) in
        do n <- send_built v2p (42 + len) (fun f =>
          do data <- read_bytes (Z.to_nat len) buf (k_mem k);
          do dport <- read_bytes 2 (dest_addr + 2) (k_mem k);
          build_udp eth (mac_addr_ n) (self_ip_ n) target_ip_addr (listen_port s) dport data f) n;
        Done (len, with_net n k)
      end
    end
  end.

Definition test_file : list Z := map (fun a => Z.of_nat (Ascii.nat_of_ascii a)) (String.list_ascii_of_string "TEST_FILE.bin").
(** [struct DirectoryEntry], the type left as it was, and the name behind it. *)
Definition sys_getdents64 (buf : Z) (k : kernel) : res (Z * kernel) :=
  do pid <- current_pid k;
  let d := ppdata pid k in
  if negb (num_getdents64_called d =? 0) then Done (0, with_data pid d k)
  else
    let k := with_data pid (PerProcess (window_sheet d) (num_getdents64_called d + 1) (idx_in_root_files d) (read_offset d)) k in
    let this_size := 19 + Z.of_nat (length test_file) + 1 in
    do k <- copy_to_user buf (store64 123) k;
    do k <- copy_to_user (buf + 8) (store64 0) k;
    do k <- copy_to_user (buf + 16) (store16 this_size) k;
    do k <- copy_to_user (buf + 19) (test_file ++ [0]) k;
    Done (this_size, k).

(** ** Files and windows *)

Definition lit_dot : list Z := [46].
Definition lit_window : list Z := map (fun a => Z.of_nat (Ascii.nat_of_ascii a)) (String.list_ascii_of_string "window.bmp").
Fixpoint find_file (name : list Z) (i : Z) (l : list (list Z * list Z)) : Z :=
  match l with
  | [] => -1
  | f :: l' => if IsEqualString f.1 name then i else find_file name (i + 1) l'
  end.
Definition sys_open (path : Z) (k : kernel) : res (Z * kernel) :=
  do pid <- current_pid k;
  let d := ppdata pid k in
  let k := with_data pid d k in
  do file_name <- user_string path k;
  if IsEqualString lit_dot file_name then
    Done (5, with_data pid (PerProcess (window_sheet d) 0 (idx_in_root_files d) (read_offset d)) k)
  else if IsEqualString lit_window file_name then Done (7, k)
  else
    let found_idx := find_file file_name 0 (k_files k) in
    if found_idx =? -1 then Done (-1, k)
    else Done (6, with_data pid (PerProcess (window_sheet d) (num_getdents64_called d) found_idx 0) k).

Definition kWindow : Z := 0x100000000.
(** Pages that become accessible at [a], with what is in them. *)
Definition map_bytes (a phys : Z) (n : nat) (m : gmap Z Z) : gmap Z Z :=
  foldr (fun i m => <[a + Z.of_nat i := ram (phys + Z.of_nat i)]> m) m (seq 0 n).
Definition AllocOne (a : allocator) : res (Z * allocator) := AllocPages fuel 1 a.
Definition sys_mmap (size fd : Z) (k : kernel) : res (Z * kernel) :=
  if negb (fd =? 7) then Done (-1, k)
  else
    let pages := ByteSizeToPageSize size in
    do '(phys_addr, a) <- AllocPages fuel pages (k_dram k);
    do '(t, a) <- CreatePageMapping mask AllocOne (k_tables k) a (k_cr3 k) kWindow phys_addr size 7;
    Done (kWindow, with_mem (map_bytes kWindow phys_addr (Z.to_nat (4096 * pages)) (k_mem k)) (with_pages t a k)).

(** 32-bit words of memory. *)
Fixpoint words (l : list Z) : list Z :=
  match l with b0 :: b1 :: b2 :: b3 :: l' => load32 [b0; b1; b2; b3] :: words l' | _ => [] end.
Definition zero_sheet : Sheet := MkSheet None None None None None (Rect.R 0 0 0 0) 0 false false false.
(** The window of the process, created on first use: the sheet, a page for it
    and pages for its pixels. *)
Definition window (pid xsize ysize : Z) (k : kernel) : res (nat * kernel) :=
  let d := ppdata pid k in
  match window_sheet d with
  | Some s => Done (s, with_data pid d k)
  | None =>
    do '(_, a) <- AllocPages fuel 1 (k_dram k);
    let pages := ByteSizeToPageSize (u64 (i32 (i32 (xsize * ysize) * 4))) in
    do '(p, a) <- AllocPages fuel pages a;
    let pixels := map (fun i => ram (p + Z.of_nat i)) (seq 0 (Z.to_nat (1024 * pages))) in
    let s := fresh (dom (k_sheets k)) in
    let h := <[s := Sheet.Init (Some pixels) xsize ysize xsize 0 0 zero_sheet]> (k_sheets k) in
    do h <- SetParent s (Some (k_vram k)) h;
    Done (s, with_data pid (PerProcess (Some s) (num_getdents64_called d) (idx_in_root_files d) (read_offset d))
               (with_sheets h (with_pages (k_tables k) a k)))
  end.
Definition sys_msync (addr : Z) (k : kernel) : res (Z * kernel) :=
  if negb (addr =? kWindow) then Done (-1, k)
  else
    do o <- read_bytes 4 (addr + 10) (k_mem k);
    do w <- read_bytes 4 (addr + 18) (k_mem k);
    do h <- read_bytes 4 (addr + 22) (k_mem k);
    let offset_to_data := load32 o in
    let xsize := i32 (load32 w) in
    let ysize := i32 (load32 h) in
    if 0 <=? ysize then Done (-1, k)
    else
      let ysize := i32 (- ysize) in
      if (2048 <? ysize) || (2048 <? xsize) then Done (-1, k)
      else
        do pid <- current_pid k;
        do '(s, k) <- window pid xsize ysize k;
        do sheet <- Sheet.get (k_sheets k) s;
        let n := u64 (i32 (i32 (xsize * ysize) * 4)) in
        if Z.of_nat (length (array (Sheet.buf_ sheet))) * 4 <? n then Stop Overflow
        else
          do data <- read_bytes (Z.to_nat n) (addr + offset_to_data) (k_mem k);
          let b := words data ++ drop (Z.to_nat (n / 4)) (array (Sheet.buf_ sheet)) in
          do h <- Flush s 0 0 xsize ysize (<[s := set_buf b sheet]> (k_sheets k));
          Done (0, with_sheets h k).

(** ** The handler *)

(** The call returns with [args[0]], or the process never runs again. *)
Inductive outcome := Returns (rax : Z) (k : kernel) | Never (k : kernel).
Definition returns (r : res (Z * kernel)) : res outcome := do '(v, k) <- r; Done (Returns (u64 v) k).
Definition arg (args : list Z) (i : nat) : Z := nth i args 0.
(** [static_cast<int>] *)
Definition int_arg (args : list Z) (i : nat) : Z := i32 (arg args i).

Definition SyscallHandler (args : list Z) (k : kernel) : res outcome :=
  let idx := arg args 0 in
  if idx =? 0 then returns (sys_read (int_arg args 1) (arg args 2) (arg args 3) k)
  else if idx =? 1 then
    if negb (arg args 1 =? 1) then Done (Returns (u64 kBadFileDescriptor) k)
    else if negb (Z.shiftr (arg args 3) 63 =? 0) then Done (Returns (u64 kInvalid) k)
    else
      do l <- read_bytes (Z.to_nat (arg args 3)) (arg args 2) (k_mem k);
      Done (Returns idx (with_out (k_out k ++ l) k))
  else if idx =? 2 then returns (sys_open (arg args 1) k)
  else if idx =? 3 then Done (Returns 0 k)
  else if idx =? 9 then returns (sys_mmap (arg args 2) (arg args 5) k)
  else if idx =? 26 then returns (sys_msync (arg args 1) k)
  else if idx =? 60 then
    do s <- KillCurrentProcess (k_sched k); Done (Never (with_sched s k))
  else if idx =? 77 then
    Done (Returns (if negb (arg args 1 =? 5) then u64 (-1) else 0) k)
  else if idx =? 158 then Stop Panic
  else if idx =? 41 then returns (sys_socket (int_arg args 1) (int_arg args 2) (int_arg args 3) k)
  else if idx =? 44 then returns (sys_sendto (int_arg args 1) (arg args 2) (arg args 3) (arg args 5) k)
  else if idx =? 45 then returns (sys_recvfrom (int_arg args 1) (arg args 2) (arg args 3) (arg args 5) k)
  else if idx =? 49 then returns (sys_bind (int_arg args 1) (arg args 2) k)
  else if idx =? 217 then returns (sys_getdents64 (arg args 2) k)
  else
    do s <- KillCurrentProcess (k_sched k); Done (Never (with_sched s k)).
End Calls.
