(* ===== verification/SyscallProofs.v ===== *)
(** * System calls: proofs

    Datagrams travel from one process to another, files are read in chunks,
    windows are drawn. *)

From S2P Require Import Prelude KernelBase KernelText PhysPages Paging Scheduler Sheet Network Virtio VirtioProofs SyscallKernel.
Import Generic.
#[global] Open Scope Z_scope.

(** ** The headers *)

Section BuildIP.
Context (dst src : EtherAddr) (sip dip : IPv4Addr) (data_length proto : Z).
Context (Hdst : bytes_ok 6 (mac dst)) (Hsrc : bytes_ok 6 (mac src)) (Hsip : bytes_ok 4 (addr sip)) (Hdip : bytes_ok 4 (addr dip))
  (Hlen : bytes_ok 2 (ip_data_length data_length)) (Hproto : is_byte proto).

(** The IPv4 header without its checksum. *)
Definition ip_words : list Z := [69; 0] ++ ip_data_length data_length ++ [0; 0; 0; 0; 255; proto].
Lemma ip_words_ok : bytes_ok 10 ip_words.
Proof.
  apply (bytes_ok_app 2 8); [apply (bool_decide_unpack _); vm_compute; exact I|]. apply (bytes_ok_app 2 6); [done|].
  apply (bytes_ok_app 5 1 [_; _; _; _; _] [_]); [apply (bool_decide_unpack _); vm_compute; exact I|auto with lium].
Qed.
Lemma ip_sum :
  exists c, bytes_ok 2 (csum c) /\ finish (wsum ip_words + wsum (addr sip) + wsum (addr dip)) = Done c /\
    finish (wsum ip_words + wsum (addr sip) + wsum (addr dip) + wsum (csum c)) = Done Csum_Clear.
Proof.
  pose proof (wsum_bound _ (proj2 ip_words_ok)) as W1. rewrite (proj1 ip_words_ok) in W1.
  pose proof (wsum_bound _ (proj2 Hsip)) as W2. rewrite (proj1 Hsip) in W2.
  pose proof (wsum_bound _ (proj2 Hdip)) as W3. rewrite (proj1 Hdip) in W3.
  assert (0 < wsum ip_words) as Hpos.
  { unfold ip_words. rewrite (wsum_app [69; 0] _ 1), (wsum_app (ip_data_length data_length) _ 1) by (apply Hlen || done).
    pose proof (wsum_even _ (proj2 Hlen)). assert (0 <= wsum [0; 0; 0; 0; 255; proto]) by (unfold is_byte in Hproto; cbn [wsum]; lia).
    cbn [wsum] in *. lia. }
  destruct (finish_ok (wsum ip_words + wsum (addr sip) + wsum (addr dip))) as (c & E & B & S); [lia|].
  exists c. split; [done|]. split; [done|]. by apply (checksum_completes (wsum ip_words + wsum (addr sip) + wsum (addr dip))); [lia|..|lia|lia].
Qed.

Lemma build_ip_fields d s t v ds ln id fl tl pr c0 si di post :
  all_pieces [6; 6; 2; 1; 1; 2; 2; 2; 1; 1; 2; 4; 4]%nat [d; s; t; v; ds; ln; id; fl; tl; pr; c0; si; di] ->
  Forall is_byte (concat post) ->
  exists c, bytes_ok 2 (csum c) /\
    finish (wsum ip_words + wsum (addr sip) + wsum (addr dip) + wsum (csum c)) = Done Csum_Clear /\
    build_ip dst src data_length proto sip dip (concat ([d; s; t; v; ds; ln; id; fl; tl; pr; c0; si; di] ++ post)) =
    Done (concat ([mac dst; mac src; kTypeIPv4; [69]; [0]; ip_data_length data_length; [0; 0]; [0; 0]; [255]; [proto]; csum c; addr sip;
      addr dip] ++ post)).
Proof.
  intros P Hpost. cbn [all_pieces] in P.
  destruct P as ([? ?] & [? ?] & [? ?] & [? ?] & [? ?] & [? ?] & [? ?] & [? ?] & [? ?] & [? ?] & [? ?] & [? ?] & [? ?] & _).
  destruct ip_sum as (c & [Lc Bc] & E & V). exists c. split; [by split|]. split; [done|].
  destruct Hdst as [? ?], Hsrc as [? ?], Hsip as [? ?], Hdip as [? ?], Hlen as [? ?].
  assert (bytes_ok 2 (csum Csum_Clear) /\ bytes_ok 2 kTypeIPv4 /\ bytes_ok 2 [0; 0] /\ bytes_ok 1 [69] /\ bytes_ok 1 [0] /\ bytes_ok 1 [255])
    as ([L0 B0] & [L1 B1] & [L2 B2] & [L3 B3] & [L4 B4] & [L5 B5]) by (split_and!; apply (bool_decide_unpack _); vm_compute; exact I).
  unfold build_ip. change (store16 0) with [0; 0]. cbn [app].
  seg (store_seg _ 0 0 d (mac dst)). seg (store_seg _ 1 6 s (mac src)). seg (store_seg _ 2 12 t kTypeIPv4).
  seg (store_seg _ 3 14 v [69]). seg (store_seg _ 4 15 ds [0]). seg (store_seg _ 5 16 ln (ip_data_length data_length)).
  seg (store_seg _ 6 18 id [0; 0]). seg (store_seg _ 7 20 fl [0; 0]). seg (store_seg _ 8 22 tl [255]). seg (store_seg _ 9 23 pr [proto]).
  seg (store_seg _ 11 26 si (addr sip)). seg (store_seg _ 12 30 di (addr dip)). seg (store_seg _ 10 24 c0 (csum Csum_Clear)).
  rewrite (Calc_seg _ 3 10 14 34 10); [|segbytes|seglen|seglen|done|done].
  match goal with |- context [finish (wsum ?x)] => replace (wsum x) with (wsum ip_words + wsum (addr sip) + wsum (addr dip)) end.
  2:{ cbn [take drop concat]. rewrite take_0. unfold ip_words. cbn [concat app wsum].
      rewrite !(wsum_app (ip_data_length data_length) _ 1) by done. cbn [app wsum].
      rewrite (wsum_app (csum Csum_Clear) _ 1), (wsum_app (addr sip) _ 2), (wsum_app (addr dip) _ 2) by done.
      change (wsum (csum Csum_Clear)) with 0. cbn [wsum]. lia. }
  rewrite E. cbn [rbind]. by seg (store_seg _ 10 24 (csum Csum_Clear) (csum c)).
Qed.
End BuildIP.

(** ** UDP datagrams *)

Lemma even_length_ok v : bytes_ok 2 (even_length v).
Proof.
  unfold even_length. pose proof (u16_range (Z.land (v + 1) (Z.lnot 1))). split; [done|].
  apply List.Forall_cons; [|apply List.Forall_cons; [|done]]; unfold is_byte.
  - rewrite shiftr_div by lia. change (2 ^ 8) with 256. zdiv.
  - rewrite land_255. zdiv.
Qed.
Lemma port_bytes_ok p : 0 <= p < 65536 -> bytes_ok 2 (port_bytes p) /\ port_value (port_bytes p) = p.
Proof.
  intros H. unfold port_bytes. assert (is_byte (Z.shiftr p 8) /\ is_byte (Z.land p 255)) as [H1 H2].
  { unfold is_byte. rewrite shiftr_div, land_255 by lia. change (2 ^ 8) with 256. split; zdiv. }
  split; [split; [done|by repeat constructor; apply H1 || apply H2]|]. unfold port_value, word_at. cbn [nth].
  rewrite word_lor by done. rewrite shiftr_div, land_255 by lia. change (2 ^ 8) with 256. zdiv.
Qed.

Section BuildUDP.
Context (dst src : EtherAddr) (sip dip : IPv4Addr) (sport : Z) (dport data : list Z) (k : nat).
Context (Hdst : bytes_ok 6 (mac dst)) (Hsrc : bytes_ok 6 (mac src)) (Hsip : bytes_ok 4 (addr sip)) (Hdip : bytes_ok 4 (addr dip))
  (Hsport : 0 <= sport < 65536) (Hdport : bytes_ok 2 dport) (Hdata : bytes_ok (2 * k) data) (Hk : (42 + 2 * k <= 4086)%nat).
Let ulen : list Z := even_length (u16 (Z.of_nat (2 * k) + 8)).
Let ilen : list Z := ip_data_length (Z.of_nat (8 + 2 * k)).
(** The datagram with given checksums. *)
Definition udp_datagram (c u : list Z) : list Z :=
  concat [mac dst; mac src; kTypeIPv4; [69]; [0]; ilen; [0; 0]; [0; 0]; [255]; [kUDP]; c; addr sip; addr dip;
    port_bytes sport; dport; ulen; u; data].
(** What the checksum covers besides itself. *)
Definition udp_sum : Z := pseudo sip dip ulen + (wsum (port_bytes sport) + wsum dport + wsum ulen + wsum data).

Lemma udp_sum_range : 0 < udp_sum < 2 ^ 30.
Proof.
  unfold udp_sum, pseudo. pose proof (wsum_bound _ (proj2 Hsip)) as W1. rewrite (proj1 Hsip) in W1.
  pose proof (wsum_bound _ (proj2 Hdip)) as W2. rewrite (proj1 Hdip) in W2.
  pose proof (wsum_bound _ (proj2 Hdport)) as W3. rewrite (proj1 Hdport) in W3.
  pose proof (wsum_bound _ (proj2 Hdata)) as W4. rewrite (proj1 Hdata) in W4.
  destruct (port_bytes_ok sport Hsport) as [[L5 B5] _]. pose proof (wsum_bound _ B5) as W5. rewrite L5 in W5.
  destruct (even_length_ok (u16 (Z.of_nat (2 * k) + 8))) as [L6 B6]. fold ulen in L6, B6. pose proof (wsum_bound _ B6) as W6.
  rewrite L6 in W6. lia.
Qed.

Lemma build_udp_fields f0 :
  bytes_ok 4086 f0 ->
  exists c u f, build_udp dst src sip dip sport dport data f0 = Done f /\ bytes_ok 4086 f /\
    take (42 + 2 * k) f = udp_datagram (csum c) (csum u) /\ bytes_ok 2 (csum c) /\ bytes_ok 2 (csum u) /\
    finish (udp_sum + wsum (sub f0 40 2)) = Done u /\
    Calc (take (42 + 2 * k) f) 14 34 = Done Csum_Clear.
Proof.
  intros [Lf Bf].
  destruct (take_apart [6; 6; 2; 1; 1; 2; 2; 2; 1; 1; 2; 4; 4; 2; 2; 2; 2; 2 * k]%nat f0) as (ls & rest & -> & P & Brest);
    [done|cbn [foldr]; lia|].
  destruct ls as [|d [|s [|t [|v [|ds [|ln [|id [|fl [|tl [|pr [|c0 [|si [|di [|sp [|dp [|ul [|u0 [|da [|]]]]]]]]]]]]]]]]]]];
    cbn [all_pieces] in P; try tauto.
  assert (all_pieces [6; 6; 2; 1; 1; 2; 2; 2; 1; 1; 2; 4; 4]%nat [d; s; t; v; ds; ln; id; fl; tl; pr; c0; si; di]) as P1.
  { cbn [all_pieces]. tauto. }
  destruct P as ([? ?] & [? ?] & [? ?] & [? ?] & [? ?] & [? ?] & [? ?] & [? ?] & [? ?] & [? ?] & [? ?] & [? ?] & [? ?] &
    [? ?] & [? ?] & [? ?] & [Lu0 Bu0] & [? ?] & _).
  pose proof (proj1 (port_bytes_ok sport Hsport)) as [Lsp Bsp]. destruct Hdport as [Ldp Bdp]. destruct Hdata as [Ld Bd].
  destruct (even_length_ok (u16 (Z.of_nat (2 * k) + 8))) as [Lul Bul]. fold ulen in Lul, Bul.
  assert (bytes_ok 2 ilen) as Hilen by apply even_length_ok.
  assert (is_byte kUDP) as Budp by (unfold is_byte, kUDP; lia).
  destruct (build_ip_fields dst src sip dip (Z.of_nat (8 + 2 * k)) kUDP Hdst Hsrc Hsip Hdip Hilen Budp
    d s t v ds ln id fl tl pr c0 si di [sp; dp; ul; u0; da; rest] P1) as (c & Hc & V & E); [segbytes|].
  cbn [app] in *. rewrite (sub_seg _ 16 40 2 u0) by (done || congruence || seglen).
  pose proof udp_sum_range as Hr. pose proof (wsum_bound _ Bu0) as W0. rewrite Lu0 in W0.
  destruct (finish_ok (udp_sum + wsum u0)) as (u & Eu & Hu & Su); [lia|].
  exists c, u. eexists. unfold build_udp. rewrite Ld. replace (42 + 2 * k - 34)%nat with (8 + 2 * k)%nat by lia. rewrite E. cbn [rbind].
  fold ilen ulen. destruct Hdst as [? ?], Hsrc as [? ?], Hsip as [? ?], Hdip as [? ?], Hilen as [? ?].
  pose proof Hc as [? ?]. pose proof Hu as [? ?].
  assert (bytes_ok 2 kTypeIPv4 /\ bytes_ok 2 [0; 0] /\ bytes_ok 1 [69] /\ bytes_ok 1 [0] /\ bytes_ok 1 [255])
    as ([L1 B1] & [L2 B2] & [L3 B3] & [L4 B4] & [L5 B5]) by (split_and!; apply (bool_decide_unpack _); vm_compute; exact I).
  assert (Forall is_byte (rest)) by done. assert (Forall is_byte [kUDP]) by (by constructor).
  seg (store_seg _ 17 42 da data). seg (store_seg _ 13 34 sp (port_bytes sport)). seg (store_seg _ 14 36 dp dport). seg (store_seg _ 15 38 ul ulen).
  rewrite (sub_seg _ 15 38 2 ulen) by (done || congruence || seglen).
  rewrite (CalcUDP_seg _ 13 5 34 (42 + 2 * k) (4 + k)); [|segbytes|seglen|seglen|lia|lia|by split|by split|by split].
  match goal with |- context [finish (_ + wsum ?x)] =>
    replace (wsum x) with (wsum (port_bytes sport) + wsum dport + wsum ulen + wsum u0 + wsum data) end.
  2:{ cbn [take drop concat]. rewrite (wsum_app (port_bytes sport) _ 1), (wsum_app dport _ 1), (wsum_app ulen _ 1), (wsum_app u0 _ 1), (wsum_app data _ k) by done.
      cbn [wsum]. lia. }
  replace (pseudo sip dip ulen + (wsum (port_bytes sport) + wsum dport + wsum ulen + wsum u0 + wsum data)) with (udp_sum + wsum u0)
    by (unfold udp_sum; lia).
  rewrite Eu. cbn [rbind]. rewrite (store_seg _ 16 40 u0 (csum u)) by (done || congruence || seglen). cbn [insert list_insert].
  split; [done|]. split; [split; [rewrite <- Lf; seglen|segbytes]|].
  pose proof (take_fields [mac dst; mac src; kTypeIPv4; [69]; [0]; ilen; [0; 0]; [0; 0]; [255]; [kUDP]; csum c; addr sip; addr dip;
    port_bytes sport; dport; ulen; csum u; data] rest (42 + 2 * k)) as T. cbn [app] in T. rewrite T by seglen. clear T.
  split; [done|]. split; [done|]. split; [done|]. split; [done|].
  rewrite (Calc_seg _ 3 10 14 34 10); [|segbytes|seglen|seglen|done|done]. rewrite <- V. f_equal. unfold ip_words. fold ilen.
  cbn [take drop concat app wsum]. rewrite !(wsum_app ilen _ 1) by done. cbn [app wsum].
  rewrite (wsum_app (csum c) _ 1), (wsum_app (addr sip) _ 2), (wsum_app (addr dip) _ 2) by done. cbn [wsum]. lia.
Qed.
End BuildUDP.

(** *** The datagram as the receiver sees it *)

Section Datagram.
Context (dst src : EtherAddr) (sip dip : IPv4Addr) (sport : Z) (dport data : list Z) (k : nat).
Context (Hdst : bytes_ok 6 (mac dst)) (Hsrc : bytes_ok 6 (mac src)) (Hsip : bytes_ok 4 (addr sip)) (Hdip : bytes_ok 4 (addr dip))
  (Hsport : 0 <= sport < 65536) (Hdport : bytes_ok 2 dport) (Hdata : bytes_ok (2 * k) data) (Hk : (42 + 2 * k <= 2048)%nat).
Context (c u : list Z) (Hc : bytes_ok 2 c) (Hu : bytes_ok 2 u).
Let fr : list Z := udp_datagram dst src sip dip sport dport data k c u.

Lemma datagram_bytes : bytes_ok (42 + 2 * k) fr.
Proof.
  unfold fr, udp_datagram.
  destruct Hdst, Hsrc, Hsip, Hdip, Hdport, Hdata, Hc, Hu. pose proof (proj1 (port_bytes_ok sport Hsport)) as [? ?].
  destruct (even_length_ok (u16 (Z.of_nat (2 * k) + 8))). destruct (even_length_ok (u16 (Z.of_nat (8 + 2 * k) + 20))) as [L2 B2].
  fold (ip_data_length (Z.of_nat (8 + 2 * k))) in L2, B2.
  assert (bytes_ok 2 kTypeIPv4 /\ bytes_ok 2 [0; 0] /\ bytes_ok 1 [69] /\ bytes_ok 1 [0] /\ bytes_ok 1 [255] /\ bytes_ok 1 [kUDP])
    as ([? ?] & [? ?] & [? ?] & [? ?] & [? ?] & [? ?]) by (split_and!; apply (bool_decide_unpack _); vm_compute; exact I).
  split; [seglen|segbytes].
Qed.
Lemma datagram_fields pad :
  eth_type (eth_of (fr ++ pad)) = kTypeIPv4 /\ (fr ++ pad) !! 23%nat = Some kUDP /\
  sub (fr ++ pad) 26 4 = addr sip /\ sub (fr ++ pad) 30 4 = addr dip /\ sub (fr ++ pad) 34 2 = port_bytes sport /\
  sub (fr ++ pad) 36 2 = dport /\ sub (fr ++ pad) 38 2 = even_length (u16 (Z.of_nat (2 * k) + 8)) /\
  sub (fr ++ pad) 42 (2 * k) = data.
Proof.
  destruct datagram_bytes as [Lfr _].
  destruct Hdst, Hsrc, Hsip, Hdip, Hdport, Hdata, Hc, Hu. pose proof (proj1 (port_bytes_ok sport Hsport)) as [? ?].
  destruct (even_length_ok (u16 (Z.of_nat (2 * k) + 8))). destruct (even_length_ok (u16 (Z.of_nat (8 + 2 * k) + 20))) as [L2 B2].
  fold (ip_data_length (Z.of_nat (8 + 2 * k))) in L2, B2.
  assert (length kTypeIPv4 = 2%nat) by done.
  assert (fr ++ pad = concat [mac dst; mac src; kTypeIPv4; [69]; [0]; ip_data_length (Z.of_nat (8 + 2 * k)); [0; 0]; [0; 0]; [255]; [kUDP]; c;
    addr sip; addr dip; port_bytes sport; dport; even_length (u16 (Z.of_nat (2 * k) + 8)); u; data; pad]) as E.
  { unfold fr, udp_datagram. rewrite <- (app_nil_r pad) at 1. change (pad ++ []) with (concat [pad]). by rewrite <- concat_app. }
  split_and!.
  - rewrite E. unfold eth_of. cbn [eth_type]. by fld (sub_seg _ 2 12 2 kTypeIPv4).
  - rewrite (lookup_nth_lt (fr ++ pad) 23) by (rewrite length_app; lia). f_equal. rewrite E. by fld (nth_seg _ 9 23 kUDP).
  - rewrite E. by fld (sub_seg _ 11 26 4 (addr sip)).
  - rewrite E. by fld (sub_seg _ 12 30 4 (addr dip)).
  - rewrite E. by fld (sub_seg _ 13 34 2 (port_bytes sport)).
  - rewrite E. by fld (sub_seg _ 14 36 2 dport).
  - rewrite E. by fld (sub_seg _ 15 38 2 (even_length (u16 (Z.of_nat (2 * k) + 8)))).
  - rewrite E. by fld (sub_seg _ 17 42 (2 * k) data).
Qed.
Lemma datagram_checksum :
  CalcUDPChecksum fr 34 (42 + 2 * k) (IPv4 (sub fr 26 4)) (IPv4 (sub fr 30 4)) (sub fr 38 2) =
  finish (udp_sum sip dip sport dport data k + wsum u).
Proof.
  pose proof (datagram_fields []) as (_ & _ & E1 & E2 & _ & _ & E3 & _). rewrite app_nil_r in *. rewrite E1, E2, E3.
  destruct datagram_bytes as [Lfr Bfr]. pose proof (proj1 (port_bytes_ok sport Hsport)) as [? ?].
  pose proof (even_length_ok (u16 (Z.of_nat (2 * k) + 8))) as Hul. destruct (even_length_ok (u16 (Z.of_nat (8 + 2 * k) + 20))) as [L2 B2].
  fold (ip_data_length (Z.of_nat (8 + 2 * k))) in L2, B2. assert (length kTypeIPv4 = 2%nat) by done. pose proof Hul as [? ?].
  assert (IPv4 (addr sip) = sip) as -> by (by destruct sip). assert (IPv4 (addr dip) = dip) as -> by (by destruct dip).
  unfold fr, udp_datagram in *. destruct Hdst, Hsrc, Hdport, Hdata, Hc, Hu. pose proof Hsip as [? ?]. pose proof Hdip as [? ?].
  rewrite (CalcUDP_seg _ 13 5 34 (42 + 2 * k) (4 + k)); [|done|seglen|seglen|lia|lia|done|done|done].
  f_equal. unfold udp_sum. cbn [take drop concat].
  rewrite (wsum_app (port_bytes sport) _ 1), (wsum_app dport _ 1), (wsum_app (even_length (u16 (Z.of_nat (2 * k) + 8))) _ 1),
    (wsum_app u _ 1), (wsum_app data _ k) by done. cbn [wsum]. lia.
Qed.

(** The driver keeps a datagram that is not for the DHCP client. *)
Lemma datagram_received v2p garbage hdr pad n :
  length hdr = 10%nat -> port_value dport <> 68 ->
  ProcessPacket v2p garbage (hdr ++ fr ++ pad) (Z.of_nat (10 + (42 + 2 * k))) n =
  Done (set_nw (set_rx (nw n) (RingBuffer.Push kRXBufferSize
    (Container (Z.of_nat (42 + 2 * k)) (fr ++ drop (42 + 2 * k) garbage)) (rx_buffer_ (nw n)))) n).
Proof.
  intros Hh Hp. destruct datagram_bytes as [Lfr _].
  destruct (datagram_fields pad) as (Et & Ep & _ & _ & _ & Ed & _ & _).
  unfold ProcessPacket, sizeof_PacketBufHeader. replace (Z.of_nat (10 + (42 + 2 * k)) - 10) with (Z.of_nat (42 + 2 * k)) by lia.
  rewrite u64_small by lia. rewrite drop_app_length' by done.
  unfold ARPPacketHandler, IPv4PacketHandler, ICMPPacketHandler, UDPPacketHandler, HasEthType. rewrite Et, Ep, Ed.
  rewrite (proj2 (Z.ltb_ge (Z.of_nat (42 + 2 * k)) 42)), (proj2 (Z.ltb_ge (Z.of_nat (42 + 2 * k)) 34)) by lia. cbn [nth kTypeIPv4 kTypeARP Z.eqb Pos.eqb andb negb rbind deref].
  change (kUDP =? kICMP) with false. change (kUDP =? kUDP) with true. cbn [negb rbind]. rewrite (proj2 (Z.eqb_neq _ _) Hp). cbn [negb rbind].
  unfold PushToRXBuffer. rewrite Nat2Z.id. assert ((0 <? 42 + 2 * k)%nat = true) as -> by (apply Nat.ltb_lt; lia). cbn [kassert rbind].
  unfold kPacketContainerSize. rewrite (proj2 (Z.leb_le (Z.of_nat (42 + 2 * k - 0)) 2048)) by lia. cbn [kassert rbind].
  assert ((length (fr ++ pad) <? 42 + 2 * k)%nat = false) as -> by (apply Nat.ltb_ge; rewrite length_app; lia).
  cbn [rbind]. rewrite Nat.sub_0_r, drop_0, take_app_length' by done. done.
Qed.
End Datagram.

(** ** Memory of the process *)

Definition mapped (m : gmap Z Z) (a : Z) (n : nat) : Prop := forall i, (i < n)%nat -> is_Some (m !! (a + Z.of_nat i)).
Lemma write_bytes_ok l a m :
  mapped m a (length l) ->
  exists m', write_bytes l a m = Done m' /\ (forall b, is_Some (m !! b) -> is_Some (m' !! b)) /\
    (forall b, ~ (a <= b < a + Z.of_nat (length l)) -> m' !! b = m !! b) /\
    (forall i b, l !! i = Some b -> m' !! (a + Z.of_nat i) = Some b).
Proof.
  revert a m. induction l as [|b l IH]; intros a m Hm.
  { exists m. split_and!; [done|done|done|]. intros i b H. by rewrite lookup_nil in H. }
  destruct (Hm 0%nat) as [x Hx]; [simpl; lia|]. rewrite Z.add_0_r in Hx.
  destruct (IH (a + 1) (<[a := b]> m)) as (m' & E & Hd & Ho & Hs).
  { intros i Hi. destruct (Hm (S i)) as [y Hy]; [simpl; lia|]. rewrite lookup_insert_ne by lia.
    replace (a + 1 + Z.of_nat i) with (a + Z.of_nat (S i)) by lia. by exists y. }
  exists m'. cbn [write_bytes]. rewrite Hx. cbn [deref rbind]. split_and!; [done| | |].
  - intros c Hc. apply Hd. destruct (decide (c = a)) as [->|]; [rewrite lookup_insert_eq; by eexists|by rewrite lookup_insert_ne].
  - intros c Hc. simpl in Hc. rewrite Ho by lia. apply lookup_insert_ne. lia.
  - intros [|i] c Hl; cbn in Hl.
    + injection Hl as ->. rewrite Z.add_0_r, Ho by lia. apply lookup_insert_eq.
    + replace (a + Z.of_nat (S i)) with (a + 1 + Z.of_nat i) by lia. by apply Hs.
Qed.
Lemma read_bytes_ok l a m : (forall i b, l !! i = Some b -> m !! (a + Z.of_nat i) = Some b) -> read_bytes (length l) a m = Done l.
Proof.
  revert a. induction l as [|b l IH]; intros a H; [done|]. cbn [length read_bytes]. specialize (H 0%nat b eq_refl) as H0.
  rewrite Z.add_0_r in H0. rewrite H0. cbn [deref rbind]. rewrite IH; [done|]. intros i c Hc.
  replace (a + 1 + Z.of_nat i) with (a + Z.of_nat (S i)) by lia. by apply (H (S i)).
Qed.
Lemma read_bytes_Done l a n m : read_bytes n a m = Done l -> length l = n /\ forall i b, l !! i = Some b -> m !! (a + Z.of_nat i) = Some b.
Proof.
  revert a l. induction n as [|n IH]; intros a l E; cbn [read_bytes] in E.
  - injection E as <-. split; [done|]. intros i b H. by rewrite lookup_nil in H.
  - destruct (m !! a) as [x|] eqn:Ex; [|done]. cbn [deref rbind] in E. destruct (read_bytes n (a + 1) m) as [l'|] eqn:El; [|done].
    injection E as <-. destruct (IH _ _ El) as [L H]. split; [simpl; lia|]. intros [|i] b Hb; cbn in Hb.
    + injection Hb as <-. by rewrite Z.add_0_r.
    + replace (a + Z.of_nat (S i)) with (a + 1 + Z.of_nat i) by lia. by apply H.
Qed.

(** ** Receiving *)

Section Receive.
Context (v2p : Z -> Z) (garbage : list Z).

(** An accepted packet arrives while the receiver sleeps on an empty buffer. *)
Lemma packet_awaited accept c batch rest k n' :
  RingBuffer.abs 32 [] (rx_buffer_ (nw (k_net k))) -> k_arrivals k = batch :: rest ->
  receive_all v2p garbage batch (k_net k) = Done n' -> RingBuffer.abs 32 [c] (rx_buffer_ (nw n')) ->
  accept (pc_data c) (pc_size c) = true ->
  exists w, next_packet v2p garbage accept k = Done (c, with_nw w (with_arrivals rest (with_net n' k))) /\
    RingBuffer.abs 32 [] (rx_buffer_ w).
Proof.
  intros Ha Hr Hn Hc Hacc. unfold next_packet. rewrite Hr. cbn [length wait_packet].
  assert (pop_accepted kRXBufferSize accept (nw (k_net k)) = Done (None, nw (k_net k))) as ->.
  { unfold pop_accepted, kRXBufferSize, HasPacketInRXBuffer. rewrite (RingBuffer.IsEmpty_abs _ _ _ Ha). done. }
  cbn [rbind]. unfold with_nw. assert (set_nw (nw (k_net k)) (k_net k) = k_net k) as -> by (by destruct (k_net k)).
  assert (with_net (k_net k) k = k) as -> by (by destruct k). unfold Sleep. rewrite Hr, Hn. cbn [rbind].
  assert (exists w, pop_accepted kRXBufferSize accept (nw n') = Done (Some c, w) /\ RingBuffer.abs 32 [] (rx_buffer_ w)) as (w & Ew & Hw).
  { unfold pop_accepted, kRXBufferSize, HasPacketInRXBuffer. rewrite (RingBuffer.IsEmpty_abs _ _ _ Hc). cbn [negb].
    unfold PopFromRXBuffer. destruct (RingBuffer.Pop _ _ _) as [v r] eqn:E. destruct (RingBuffer.Pop_abs _ _ _ _ _ _ Hc E) as [Ev Hr']. cbn in Ev. subst v.
    rewrite Hacc. eexists. split; [done|]. exact Hr'. }
  exists w. split; [|done]. destruct rest; cbn [wait_packet length]; cbn [k_net with_arrivals with_net]; rewrite Ew; done.
Qed.
End Receive.

(** ** From one process to another *)

Lemma round_even v : 0 <= v < 2 ^ 62 -> Z.land (u64 (v + 1)) (u64 (Z.lnot 1)) = 2 * ((v + 1) / 2).
Proof.
  intros Hv. rewrite u64_small by lia. change (u64 (Z.lnot 1)) with (Z.shiftl (Z.ones 63) 1).
  replace (2 * ((v + 1) / 2)) with (Z.shiftl (Z.shiftr (v + 1) 1) 1) by (rewrite shiftl_mul, shiftr_div by lia; change (2 ^ 1) with 2; lia).
  apply Z.bits_inj'. intros i Hi. rewrite Z.land_spec. destruct (Z.eq_dec i 0) as [->|Hne].
  - rewrite !Z.shiftl_spec_low by lia. by rewrite andb_false_r.
  - rewrite !Z.shiftl_spec_high by lia. rewrite Z.shiftr_spec by lia. replace (i - 1 + 1) with i by lia.
    destruct (Z.lt_ge_cases (i - 1) 63).
    + rewrite Z.ones_spec_low by lia. by rewrite andb_true_r.
    + rewrite Z.ones_spec_high, andb_false_r by lia. symmetry. apply Z.bits_above_log2; [lia|].
      apply Z.log2_lt_pow2; [lia|]. apply (Z.lt_le_trans _ (2 ^ 63)); [lia|]. apply Z.pow_le_mono_r; lia.
Qed.

(** The next hop for an address. *)
Definition next_hop (w : network) (ip : IPv4Addr) : IPv4Addr := if IsInSameSubnet ip (gateway_ w) (netmask_ w) then ip else gateway_ w.

(** A process that can send [data], padded to an even length, to [dip]. *)
Record sender (k : kernel) (fd buf len dest : Z) (s : Socket) (eth : EtherAddr) (dip : IPv4Addr) (dport data : list Z) : Prop := Sender {
  sd_net : net_ok (k_net k);
  sd_len : 0 <= len <= 2000;
  sd_pid : exists pid, current_pid k = Done pid /\ FindSocket pid fd (nw (k_net k)) = Some s;
  sd_type : s_type s = kUDPSocket;
  sd_port : 0 <= listen_port s < 65536;
  sd_dip : read_bytes 4 (dest + 4) (k_mem k) = Done (addr dip) /\ bytes_ok 4 (addr dip);
  sd_dport : read_bytes 2 (dest + 2) (k_mem k) = Done dport /\ bytes_ok 2 dport;
  sd_data : read_bytes (2 * Z.to_nat ((len + 1) / 2)) buf (k_mem k) = Done data /\ Forall is_byte data;
  sd_eth : ResolveIPv4 (next_hop (nw (k_net k)) dip) (nw (k_net k)) = Some eth /\ bytes_ok 6 (mac eth);
}.
(** A process that waits for a datagram to [port], which arrives as [fr]. *)
Record receiver (k : kernel) (fd buf size raddr : Z) (port : Z) (fr : list Z) : Prop := Receiver {
  rc_pid : exists pid s, current_pid k = Done pid /\ FindSocket pid fd (nw (k_net k)) = Some s /\
    s_type s = kUDPSocket /\ listen_port s = port;
  rc_empty : RingBuffer.abs 32 [] (rx_buffer_ (nw (k_net k)));
  rc_arrival : exists hdr pad rest, length hdr = 10%nat /\
    k_arrivals k = [(hdr ++ fr ++ pad, Z.of_nat (10 + length fr))] :: rest;
  rc_size : 0 <= size;
  rc_buf : mapped (k_mem k) buf (Z.to_nat size);
  rc_addr : mapped (k_mem k) (raddr + 2) 6;
  rc_apart : buf + size <= raddr + 2 \/ raddr + 8 <= buf;
}.

Section Delivery.
Context (v2p : Z -> Z) (garbage : list Z).

Lemma resolved_at_once ip t k eth : ResolveIPv4 ip (nw (k_net k)) = Some eth -> resolve_loop v2p garbage (S t) ip k = Done (Some eth, k).
Proof. intros E. cbn [resolve_loop]. by rewrite E. Qed.

Lemma sendto_sends k fd buf len dest s eth dip dport data :
  sender k fd buf len dest s eth dip dport data ->
  let m := Z.to_nat ((len + 1) / 2) in let n := k_net k in
  exists f0 c u n', tx_buffer n = Done f0 /\ bytes_ok 4086 f0 /\ bytes_ok 2 (csum c) /\ bytes_ok 2 (csum u) /\
    sys_sendto v2p garbage fd buf len dest k = Done (Z.of_nat (2 * m), with_net n' k) /\
    let fr := udp_datagram eth (mac_addr_ n) (self_ip_ n) dip (listen_port s) dport data m (csum c) (csum u) in
    sent n fr n' /\ Calc fr 14 34 = Done Csum_Clear /\
    finish (udp_sum (self_ip_ n) dip (listen_port s) dport data m + wsum (sub f0 40 2)) = Done u.
Proof.
  intros [Hn Hl (pid & Epid & Ef) Hty Hp [Ea Ha] [Ep Hdp] [Ed Bd] [Er He]] m n.
  assert (length data = 2 * m)%nat as Ld by (apply read_bytes_Done in Ed as [-> _]; done).
  assert (2 * m <= 2002)%nat as Hm by (unfold m; zdiv).
  destruct (send_built_ok v2p (42 + Z.of_nat (2 * m)) (fun f => do data <- read_bytes (2 * m) buf (k_mem k);
    do dport <- read_bytes 2 (dest + 2) (k_mem k);
    build_udp eth (mac_addr_ n) (self_ip_ n) dip (listen_port s) dport data f) n) as (f0 & f1 & n' & Et & Hf0 & Ef1 & Es & Hs);
    [done|lia|lia| |].
  { intros f Hf. unfold m at 1. rewrite Ed, Ep. cbn [rbind].
    destruct (build_udp_fields eth (mac_addr_ n) (self_ip_ n) dip (listen_port s) dport data m) with (f0 := f) as (c & u & f' & E & B & _);
      [done|apply Hn|apply Hn|done|done|done|by split|lia|done|]. by exists f'. }
  unfold m at 1 in Ef1. rewrite Ed, Ep in Ef1. cbn [rbind] in Ef1.
  destruct (build_udp_fields eth (mac_addr_ n) (self_ip_ n) dip (listen_port s) dport data m) with (f0 := f0)
    as (c & u & f2 & E & B & T & Hc & Hu & Efin & V); [done|apply Hn|apply Hn|done|done|done|by split|lia|done|].
  rewrite Ef1 in E. injection E as <-. replace (Z.to_nat (42 + Z.of_nat (2 * m))) with (42 + 2 * m)%nat in Hs by lia. rewrite T in Hs, V.
  exists f0, c, u, n'. split_and!; try done. unfold sys_sendto. rewrite Epid. cbn [rbind]. rewrite Ef, Ea. cbn [rbind].
  unfold ResolveIPv4WithTimeout. change (Z.to_nat ((1000 + 199) / 200)) with 5%nat.
  assert (IPv4 (addr dip) = dip) as -> by (by destruct dip). fold (next_hop (nw (k_net k)) dip). rewrite (resolved_at_once _ _ _ eth Er). cbn [rbind].
  rewrite Hty. assert (Z.land (u64 (len + 1)) (u64 (Z.lnot 1)) = Z.of_nat (2 * m)) as ->.
  { rewrite round_even by lia. unfold m. zdiv. }
  rewrite Nat2Z.id. fold n. rewrite Es. done.
Qed.
End Delivery.

Section DeliveryReceive.
Context (v2p : Z -> Z) (garbage : list Z).
Context (dst src : EtherAddr) (sip dip : IPv4Addr) (sport : Z) (dport data : list Z) (m : nat) (c u : list Z).
Context (Hdst : bytes_ok 6 (mac dst)) (Hsrc : bytes_ok 6 (mac src)) (Hsip : bytes_ok 4 (addr sip)) (Hdip : bytes_ok 4 (addr dip))
  (Hsport : 0 <= sport < 65536) (Hdport : bytes_ok 2 dport) (Hdata : bytes_ok (2 * m) data) (Hm : (42 + 2 * m <= 2048)%nat)
  (Hc : bytes_ok 2 c) (Hu : bytes_ok 2 u) (Hdhcp : port_value dport <> 68).
Let fr : list Z := udp_datagram dst src sip dip sport dport data m c u.

(** Writing the data, the address and the port where they belong. *)
Lemma deliver k buf size raddr :
  0 <= size -> mapped (k_mem k) buf (Z.to_nat size) -> mapped (k_mem k) (raddr + 2) 6 -> buf + size <= raddr + 2 \/ raddr + 8 <= buf ->
  let l := take (Z.to_nat (Z.min (Z.of_nat (2 * m)) size)) data in
  exists k', (do k <- copy_to_user buf l k; do k <- copy_to_user (raddr + 4) (addr sip) k;
              do k <- copy_to_user (raddr + 2) (port_bytes sport) k; Done k) = Done k' /\
    read_bytes (length l) buf (k_mem k') = Done l /\ read_bytes 4 (raddr + 4) (k_mem k') = Done (addr sip) /\
    read_bytes 2 (raddr + 2) (k_mem k') = Done (port_bytes sport) /\ k' = with_mem (k_mem k') k.
Proof.
  intros Hs Hb Hr Hap l. assert (Z.of_nat (length l) <= size) as Ll by (unfold l; rewrite length_take; lia).
  destruct (write_bytes_ok l buf (k_mem k)) as (m1 & E1 & D1 & O1 & S1).
  { intros i Hi. apply Hb. lia. }
  destruct (write_bytes_ok (addr sip) (raddr + 4) m1) as (m2 & E2 & D2 & O2 & S2).
  { destruct Hsip as [-> _]. intros i Hi. apply D1. replace (raddr + 4 + Z.of_nat i) with (raddr + 2 + Z.of_nat (2 + i)) by lia. apply Hr. lia. }
  destruct (write_bytes_ok (port_bytes sport) (raddr + 2) m2) as (m3 & E3 & D3 & O3 & S3).
  { intros i Hi. apply D2, D1, Hr. simpl in Hi. lia. }
  exists (with_mem m3 k). unfold copy_to_user. rewrite E1. cbn [rbind k_mem with_mem]. rewrite E2. cbn [rbind k_mem with_mem].
  rewrite E3. cbn [rbind k_mem with_mem]. destruct Hsip as [L4 _]. assert (length (port_bytes sport) = 2%nat) as L2 by done.
  split_and!; [done| | | |done].
  - apply read_bytes_ok. intros i b Hi. pose proof (lookup_lt_Some _ _ _ Hi). rewrite O3, O2 by lia. by apply S1.
  - rewrite <- L4. apply read_bytes_ok. intros i b Hi. pose proof (lookup_lt_Some _ _ _ Hi). rewrite O3 by lia. by apply S2.
  - rewrite <- L2. by apply read_bytes_ok.
Qed.

Lemma recvfrom_receives k fd buf size raddr :
  receiver k fd buf size raddr (port_value dport) fr ->
  let l := take (Z.to_nat (Z.min (Z.of_nat (2 * m)) size)) data in
  exists k', sys_recvfrom v2p garbage fd buf size raddr k = Done (Z.of_nat (2 * m), k') /\
    read_bytes (length l) buf (k_mem k') = Done l /\ read_bytes 4 (raddr + 4) (k_mem k') = Done (addr sip) /\
    read_bytes 2 (raddr + 2) (k_mem k') = Done (port_bytes sport).
Proof.
  intros [(pid & s & Epid & Efind & Hty & Hport) Hempty (hdr & pad & rest & Hh & Harr) Hs Hb Hr Hap] l.
  destruct (datagram_bytes dst src sip dip sport dport data m Hdst Hsrc Hsip Hdip Hsport Hdport Hdata Hm c u Hc Hu) as [Lfr Bfr].
  fold fr in Lfr, Bfr. rewrite Lfr in Harr.
  set (pkt := Container (Z.of_nat (42 + 2 * m)) (fr ++ drop (42 + 2 * m) garbage)).
  pose proof (datagram_received dst src sip dip sport dport data m Hdst Hsrc Hsip Hdip Hsport Hdport Hdata Hm c u Hc Hu
    v2p garbage hdr pad (k_net k) Hh Hdhcp) as Erecv. fold fr pkt in Erecv. set (n' := set_nw _ _) in Erecv.
  destruct (datagram_fields dst src sip dip sport dport data m Hdst Hsrc Hsip Hdip Hsport Hdport Hdata Hm c u Hc Hu (drop (42 + 2 * m) garbage))
    as (Et & Ep & Esip & _ & Esp & Edp & _ & Edata). fold fr in Et, Ep, Esip, Esp, Edp, Edata.
  destruct (packet_awaited v2p garbage (fun f size => IsUDPPacketToPort f size (listen_port s)) pkt
    [(hdr ++ fr ++ pad, Z.of_nat (10 + (42 + 2 * m)))] rest k n') as (w & Ew & Hw).
  - done.
  - done.
  - cbn [receive_all]. rewrite Erecv. done.
  - exact (RingBuffer.Push_abs 32 [] (rx_buffer_ (nw (k_net k))) pkt Hempty).
  - cbn [pc_data pc_size pkt]. unfold IsUDPPacketToPort, HasEthType. rewrite Et, Edp, Hport.
    rewrite (proj2 (Z.ltb_ge (Z.of_nat (42 + 2 * m)) 42)) by lia. cbn [nth kTypeIPv4 Z.eqb Pos.eqb andb negb].
    rewrite (nth_lookup_Some _ _ _ _ Ep). rewrite !Z.eqb_refl. done.
  - unfold sys_recvfrom. rewrite Epid. cbn [rbind]. rewrite Efind, Hty, Ew. cbn [rbind pc_size pc_data pkt].
    replace (Z.of_nat (42 + 2 * m) - 42) with (Z.of_nat (2 * m)) by lia. rewrite Esip, Esp.
    assert (sub (fr ++ drop (42 + 2 * m) garbage) 42 (Z.to_nat (Z.min (Z.of_nat (2 * m)) size)) = l) as ->.
    { unfold l. rewrite <- Edata. unfold sub. rewrite take_take. f_equal. lia. }
    set (k1 := with_nw w _).
    destruct (deliver k1 buf size raddr) as (k' & E & R1 & R2 & R3 & _); [done..|]. fold l in E, R1. exists k'.
    split; [|done]. destruct (copy_to_user buf l k1) as [k2|]; [|done]. cbn [rbind] in *.
    destruct (copy_to_user (raddr + 4) (addr sip) k2) as [k3|]; [|done]. cbn [rbind] in *.
    destruct (copy_to_user (raddr + 2) (port_bytes sport) k3) as [k4|]; [|done]. cbn [rbind] in *. by injection E as ->.
Qed.
End DeliveryReceive.

(** C12: a datagram reaches the process it is sent to. Sending succeeds and hands
    one frame to the device, whose IPv4 checksum verifies. A process on a host
    that receives the frame, with whatever device header before and padding
    behind it, and waits on a socket bound to the destination port gets the data
    (as much as fits), the number of bytes sent, and the address and port of
    the sender. Data of odd length arrives with one byte more. *)
Theorem udp_delivered v2p garbage k fd buf len dest s eth dip dport data :
  sender k fd buf len dest s eth dip dport data -> port_value dport <> 68 ->
  let m := Z.to_nat ((len + 1) / 2) in
  exists fr n', sys_sendto v2p garbage fd buf len dest k = Done (Z.of_nat (2 * m), with_net n' k) /\
    sent (k_net k) fr n' /\ sub fr 0 6 = mac eth /\ Calc fr 14 34 = Done Csum_Clear /\
    forall k2 fd2 buf2 size raddr, receiver k2 fd2 buf2 size raddr (port_value dport) fr ->
      let l := take (Z.to_nat (Z.min (Z.of_nat (2 * m)) size)) data in
      exists k2', sys_recvfrom v2p garbage fd2 buf2 size raddr k2 = Done (Z.of_nat (2 * m), k2') /\
        read_bytes (length l) buf2 (k_mem k2') = Done l /\
        read_bytes 4 (raddr + 4) (k_mem k2') = Done (addr (self_ip_ (k_net k))) /\
        read_bytes 2 (raddr + 2) (k_mem k2') = Done (port_bytes (listen_port s)).
Proof.
  intros Hs Hp m. destruct (sendto_sends v2p garbage _ _ _ _ _ _ _ _ _ _ Hs) as (f0 & c & u & n' & _ & _ & Hc & Hu & E & S & V & _).
  destruct Hs as [Hn Hl _ _ Hsp [_ Ha] [_ Hdp] [Ed Bd] [_ He]].
  assert (bytes_ok (2 * m) data) as Hd by (split; [apply read_bytes_Done in Ed as [-> _]; done|done]).
  do 2 eexists. split; [exact E|]. split; [exact S|]. split.
  { unfold udp_datagram. apply (sub_seg _ 0); [done|done|by destruct He]. }
  split; [exact V|]. intros k2 fd2 buf2 size raddr Hr.
  apply (recvfrom_receives v2p garbage eth (mac_addr_ (k_net k)) (self_ip_ (k_net k)) dip (listen_port s) dport data m (csum c) (csum u));
    try done; try apply Hn. zdiv.
Qed.

(** C36: the UDP checksum of what [sendto] sends. The checksum is computed over a
    buffer whose checksum field still holds the bytes of the frame sent from it
    before; it verifies exactly when these are all zeros or all ones. *)
Theorem udp_checksum_of_reused_buffer v2p garbage k fd buf len dest s eth dip dport data f0 :
  sender k fd buf len dest s eth dip dport data -> tx_buffer (k_net k) = Done f0 ->
  exists fr n', sys_sendto v2p garbage fd buf len dest k = Done (2 * ((len + 1) / 2), with_net n' k) /\ sent (k_net k) fr n' /\
    (CalcUDPChecksum fr 34 (length fr) (IPv4 (sub fr 26 4)) (IPv4 (sub fr 30 4)) (sub fr 38 2) = Done Csum_Clear <->
     sub f0 40 2 = [0; 0] \/ sub f0 40 2 = [255; 255]).
Proof.
  intros Hs Hf. destruct (sendto_sends v2p garbage _ _ _ _ _ _ _ _ _ _ Hs) as (f1 & c & u & n' & Ef & [Lf Bf] & Hc & Hu & E & S & _ & F).
  rewrite Hf in Ef. injection Ef as <-. destruct Hs as [Hn Hl _ _ Hsp [_ Ha] [_ Hdp] [Ed Bd] [_ He]].
  set (m := Z.to_nat ((len + 1) / 2)) in *. assert (bytes_ok (2 * m) data) as Hd by (split; [apply read_bytes_Done in Ed as [-> _]; done|done]).
  assert (42 + 2 * m <= 2048)%nat as Hm by (unfold m; zdiv).
  assert (Z.of_nat (2 * m) = 2 * ((len + 1) / 2)) as Em by (unfold m; zdiv). rewrite Em in E.
  do 2 eexists. split; [exact E|]. split; [exact S|].
  destruct (datagram_bytes eth (mac_addr_ (k_net k)) (self_ip_ (k_net k)) dip (listen_port s) dport data m) with (c := csum c) (u := csum u)
    as [Lfr _]; [done|apply Hn|apply Hn|done..|]. rewrite Lfr.
  rewrite datagram_checksum by (done || apply Hn).
  destruct (udp_sum_range (self_ip_ (k_net k)) dip (listen_port s) dport data m) as [H0 H1]; [apply Hn|done|done|done|done|lia|].
  set (S0 := udp_sum _ _ _ _ _ _) in *. pose proof (bytes_sub f0 40 2 Bf) as Bs. pose proof (length_sub f0 40 2 ltac:(lia)) as Ls.
  destruct (sub f0 40 2) as [|a [|b [|]]]; try done. apply List.Forall_cons_iff in Bs as [Ba Bs]. apply List.Forall_cons_iff in Bs as [Bb _].
  cbn [wsum] in F. unfold is_byte in *. destruct (finish_ok (S0 + (a * 256 + b + 0))) as (u' & Eu & _ & Su); [lia|].
  rewrite F in Eu. injection Eu as <-. rewrite Su. destruct (folded_mod (S0 + (a * 256 + b + 0))) as [M1 M2]; [lia|].
  rewrite finish_zero by lia. split.
  - intros [_ M]. assert ((a * 256 + b) mod 65535 = 0) as Hz by zdiv. assert (a * 256 + b = 0 \/ a * 256 + b = 65535) as [|] by zdiv.
    + left. repeat f_equal; lia.
    + right. repeat f_equal; lia.
  - intros [[= -> ->]|[= -> ->]]; split; [lia|zdiv|lia|zdiv].
Qed.

(** ** Processes to run *)

Definition demo_process : Process :=
  SetStatus kRunning (MkProcess 1 0 kNotScheduled 0 (Some 0) None 0 0 0 0 0 0 (RingBuffer.new (replicate 16 0))).
Definition demo_sched : sched := Sched {[0%nat := demo_process]} (Some 0%nat :: replicate 255 None) 1 0 (Lock_ 0) true.
Definition bytes_at (a : Z) (l : list Z) : list (Z * Z) := zip (seqZ a (Z.of_nat (length l))) l.
Definition demo_memory : gmap Z Z :=
  list_to_map (bytes_at 1000 [2; 0; 0; 7; 10; 0; 2; 2] ++ bytes_at 2000 [104; 101; 108; 108; 111; 0] ++
    bytes_at 3000 (replicate 64 0)).
Definition demo_gateway : network :=
  RegisterARPResolution (IPv4 [10; 0; 2; 2]) (Mac [82; 85; 10; 0; 2; 2]) (SetIPv4DefaultGateway (IPv4 [10; 0; 2; 2]) demo_net).
Definition demo_kernel (files : list (list Z * list Z)) (arrivals : list (list (list Z * Z))) : kernel :=
  Kernel (set_nw demo_gateway demo_driver) demo_sched ∅ 0 ∅ (Allocator ∅ 0) 0 files ∅ demo_memory [] arrivals.
Lemma demo_sender :
  sender (demo_kernel [] []) 3 2000 5 1000 (MkSocket 1 3 12345 kUDPSocket) (Mac [82; 85; 10; 0; 2; 2]) (IPv4 [10; 0; 2; 2]) [0; 7]
    [104; 101; 108; 108; 111; 0].
Proof.
  split; try (split; [vm_compute; reflexivity|apply (bool_decide_unpack _); vm_compute; exact I]).
  - destruct demo_driver_ok as [[] _]. by split.
  - lia.
  - exists 1. split; vm_compute; reflexivity.
  - done.
  - cbn. lia.
Qed.
(** The receiver listens on port 7. *)
Definition demo_receiver (fr : list Z) : kernel :=
  let k := demo_kernel [] [[(replicate 10 0 ++ fr ++ [], Z.of_nat (10 + length fr))]] in
  with_nw (BindToPort 1 3 7 (nw (k_net k))).2 k.
Lemma demo_receiver_ok fr : receiver (demo_receiver fr) 3 3000 16 3020 7 fr.
Proof.
  split.
  - exists 1, (MkSocket 1 3 7 kUDPSocket). split_and!; vm_compute; reflexivity.
  - split; [vm_compute; reflexivity|vm_compute; lia|vm_compute; lia|vm_compute; reflexivity|]. intros i Hi. simpl in Hi. lia.
  - exists (replicate 10 0), [], []. done.
  - lia.
  - intros i Hi. do 16 (destruct i as [|i]; [vm_compute; eexists; reflexivity|]). lia.
  - intros i Hi. do 6 (destruct i as [|i]; [vm_compute; eexists; reflexivity|]). lia.
  - lia.
Qed.
Lemma udp_delivered_witness :
  exists fr n' k2', sys_sendto (fun v => v) [] 3 2000 5 1000 (demo_kernel [] []) = Done (6, with_net n' (demo_kernel [] [])) /\
    sys_recvfrom (fun v => v) [] 3 3000 16 3020 (demo_receiver fr) = Done (6, k2') /\
    read_bytes 6 3000 (k_mem k2') = Done [104; 101; 108; 108; 111; 0].
Proof.
  destruct (udp_delivered (fun v => v) [] _ _ _ _ _ _ _ _ _ _ demo_sender) as (fr & n' & E & _ & _ & _ & R); [vm_compute; discriminate|].
  destruct (R _ _ _ _ _ (demo_receiver_ok fr)) as (k2' & E2 & E3 & _).
  exists fr, n', k2'. exact (conj E (conj E2 E3)).
Defined.
Lemma udp_checksum_of_reused_buffer_witness :
  exists fr n', sent (k_net (demo_kernel [] [])) fr n' /\
    CalcUDPChecksum fr 34 (length fr) (IPv4 (sub fr 26 4)) (IPv4 (sub fr 30 4)) (sub fr 38 2) = Done Csum_Clear.
Proof.
  destruct (udp_checksum_of_reused_buffer (fun v => v) [] _ _ _ _ _ _ _ _ _ _ (replicate 4086 0) demo_sender) as (fr & n' & _ & S & [_ V]).
  - vm_compute. reflexivity.
  - exists fr, n'. split; [exact S|]. apply V. left. vm_compute. reflexivity.
Defined.
