(* ===== verification/XhciController.v ===== *)
(** * The USB host controller driver: [src/xhci.h], [src/xhci.cc]

    The controller is read through memory mapped registers and shared memory.
    What it answers is an environment [hw]: the value of a register at each
    access, the entries of the event ring and the bytes it has written by DMA;
    what the driver writes to registers is logged.  Theorems quantify over [hw],
    so they hold for every behaviour of the hardware.  Objects in shared memory
    are values together with the physical address the driver tells the
    controller.  What the code prints is left out. *)

From S2P Require Import Prelude KernelBase KernelInput Scheduler Pci Xhci.
Import KernelBase.Bits.

(** ** Arrays *)

(** [a[i]] with a C index. *)
Definition get_at {A} (l : list A) (i : Z) : res A :=
  if i <? 0 then Stop BadPointer else deref (l !! Z.to_nat i).
Definition set_at {A} (l : list A) (i : Z) (x : A) : res (list A) :=
  run get_at l i; Done (<[Z.to_nat i := x]> l).

(** ** Registers *)

(** Capability, operational and runtime registers by offset, doorbells by
    index, the counter of the timer, and the configuration space of the bus. *)
Inductive reg := Cap (ofs : Z) | Op (ofs : Z) | Rt (ofs : Z) | Db (idx : Z) | HpetCounter | PciConfig (addr : Z).
#[global] Instance reg_eq_dec : EqDecision reg.
Proof. solve_decision. Defined.

(** [hw_reg t r]: what the [t]-th register access reads in [r]. *)
Record hw := Hw { hw_reg : nat -> reg -> Z; hw_event : nat -> BasicTRB; hw_dma : Z -> Z }.
(** The number of reads, the writes (the latest first), and the number of
    blocks allocated for the device. *)
Record io := Io { now : nat; log : list (reg * Z); allocs : nat }.
Definition read_reg (h : hw) (r : reg) (i : io) : Z * io := (hw_reg h (now i) r, Io (S (now i)) (log i) (allocs i)).
Definition write_reg (r : reg) (v : Z) (i : io) : io := Io (now i) ((r, v) :: log i) (allocs i).
(** [while (!stop(read))]; at most [fuel] reads. *)
Fixpoint wait_reg (fuel : nat) (h : hw) (r : reg) (stop : Z -> bool) (i : io) : res io :=
  match fuel with
  | O => Stop FuelOut
  | S fuel' => let '(v, i) := read_reg h r i in if stop v then Done i else wait_reg fuel' h r stop i
  end.

Definition USBCMD : reg := Op 0.
Definition USBSTS : reg := Op 4.
Definition CRCR : reg := Op 0x18.
Definition DCBAAP : reg := Op 0x30.
Definition CONFIG : reg := Op 0x38.
Definition PORTSC (port : Z) : reg := Op (0x400 + 0x10 * (port - 1)).
(** The primary interrupter. *)
Definition IMAN : reg := Rt 0x20.
Definition ERSTSZ : reg := Rt 0x28.
Definition ERSTBA : reg := Rt 0x30.
Definition ERDP : reg := Rt 0x38.

Definition kUSBCMDMaskRunStop : Z := 1.
Definition kUSBCMDMaskHCReset : Z := 2.
Definition kUSBSTSBitHCHalted : Z := 1.
Definition kPortSCBitCurrentConnectStatus : Z := 1.
Definition kPortSCBitPortEnableDisable : Z := 2.
Definition kPortSCBitPortReset : Z := 16.
Definition kPortSCBitPortLinkState : Z := 480.
Definition kPortSCPortLinkStateShift : Z := 5.
Definition kPortSCBitPortPower : Z := 512.
Definition kPortSCPreserveMask : Z := 0xE01C3E0.
(** [v & mask] as a condition. *)
Definition has (v mask : Z) : bool := negb (Z.land v mask =? 0).

Definition ReadPORTSC (h : hw) (port : Z) (i : io) : Z * io := read_reg h (PORTSC port) i.
Definition WritePORTSC (port data : Z) (i : io) : io := write_reg (PORTSC port) data i.
Definition ReadPORTSCLinkState (h : hw) (port : Z) (i : io) : Z * io :=
  let '(v, i) := ReadPORTSC h port i in (Z.shiftr (Z.land v kPortSCBitPortLinkState) kPortSCPortLinkStateShift, i).
Definition NotifyHostControllerDoorbell (i : io) : io := write_reg (Db 0) 0 i.
Definition NotifyDeviceContextDoorbell (slot dci : Z) (i : io) : res io :=
  run kassert ((1 <=? slot) && (slot <=? 255)); Done (write_reg (Db slot) dci i).
Definition ResetHostController (fuel : nat) (h : hw) (i : io) : res io :=
  let '(v, i) := read_reg h USBCMD i in
  let i := write_reg USBCMD (Z.land v (u32 (Z.lnot kUSBCMDMaskRunStop))) i in
  do i <- wait_reg fuel h USBSTS (fun v => has v kUSBSTSBitHCHalted) i;
  let '(v, i) := read_reg h USBCMD i in
  let i := write_reg USBCMD (Z.lor v kUSBCMDMaskHCReset) i in
  wait_reg fuel h USBCMD (fun v => negb (has v kUSBCMDMaskHCReset)) i.
(** [HPET::GetCountPerSecond]: the quotient of doubles is below 2^50 and never
    rounds up to an integer, so the conversion gives the integer quotient. *)
Definition GetCountPerSecond (femtosecond_per_count : Z) : Z := 1000000000000000 / femtosecond_per_count.

(** ** Contexts: the structures that describe a device to the controller *)

(** [CombineFieldBits<hi, lo>] on word [i]. *)
Definition set_field (hi lo : Z) (i : nat) (v : Z) (ws : list Z) : list Z :=
  alter (fun w => CombineFieldBits hi lo w v) i ws.
Definition get_field (hi lo : Z) (i : nat) (ws : list Z) : Z := GetBits hi lo (nth i ws 0).

Definition EndpointContext := list Z.
Definition SetEPType (type : Z) (e : EndpointContext) : EndpointContext := set_field 5 3 1 type e.
Definition SetTRDequeuePointer (p : Z) (e : EndpointContext) : EndpointContext :=
  <[3%nat := u32 (Z.shiftr p 32)]> (set_field 31 4 2 (u32 (Z.shiftr p 4)) e).
Definition GetTRDequeuePointer (e : EndpointContext) : Z := Z.lor (Z.shiftl (nth 3 e 0) 32) (nth 2 e 0).
Definition SetDequeueCycleState (dcs : Z) (e : EndpointContext) : EndpointContext := set_field 0 0 2 dcs e.
Definition SetErrorCount (c_err : Z) (e : EndpointContext) : EndpointContext := set_field 2 1 1 c_err e.
Definition SetMaxPacketSize (size : Z) (e : EndpointContext) : EndpointContext := set_field 31 16 1 size e.
Definition GetEPState (e : EndpointContext) : Z := get_field 2 0 0 e.

Record DeviceContext := DevCtx { slot_ctx_ : list Z; endpoint_ctx_ : list EndpointContext }.
Definition kDCIEPContext0 : Z := 1.
Definition kEPTypeBulkOut : Z := 2.
Definition kEPTypeControl : Z := 4.
Definition kEPTypeBulkIn : Z := 6.
Definition DeviceContext_GetSlotState (d : DeviceContext) : Z := get_field 31 27 3 (slot_ctx_ d).
Definition SetContextEntries (n : Z) (d : DeviceContext) : DeviceContext :=
  DevCtx (set_field 31 27 0 n (slot_ctx_ d)) (endpoint_ctx_ d).
Definition SetPortSpeed (speed : Z) (d : DeviceContext) : DeviceContext :=
  DevCtx (set_field 23 20 0 speed (slot_ctx_ d)) (endpoint_ctx_ d).
Definition SetRootHubPortNumber (port : Z) (d : DeviceContext) : DeviceContext :=
  DevCtx (set_field 23 16 1 port (slot_ctx_ d)) (endpoint_ctx_ d).
(** The endpoint context at [dci], updated in place. *)
Definition with_endpoint (dci : Z) (f : EndpointContext -> EndpointContext) (d : DeviceContext) : res DeviceContext :=
  run kassert ((1 <=? dci) && (dci <=? 31));
  Done (DevCtx (slot_ctx_ d) (alter f (Z.to_nat (dci - 1)) (endpoint_ctx_ d))).
(** The constructor clears the slot context and the first [max_dci] endpoint
    contexts; the rest of the page is [garbage]. *)
Definition zero_ctx : list Z := replicate 8 0.
Definition new_DeviceContext (max_dci : Z) (garbage : list EndpointContext) : res DeviceContext :=
  run kassert ((0 <=? max_dci) && (max_dci <=? 31));
  Done (DevCtx zero_ctx (replicate (Z.to_nat max_dci) zero_ctx ++ drop (Z.to_nat max_dci) garbage)).

Record InputContext := InCtx { input_ctrl_ctx_ : list Z; device_ctx_ : DeviceContext; ictx_pa : Z }.
Definition Clear (c : InputContext) : InputContext := InCtx zero_ctx (device_ctx_ c) (ictx_pa c).
Definition set_flag (dci : Z) (value : bool) (flags : Z) : Z :=
  Z.lor (Z.land (u32 (Z.lnot (Z.shiftl 1 dci))) flags) (u32 (Z.shiftl (bit value) dci)).
Definition SetDropContext (dci : Z) (value : bool) (c : InputContext) : InputContext :=
  InCtx (alter (set_flag dci value) 0%nat (input_ctrl_ctx_ c)) (device_ctx_ c) (ictx_pa c).
Definition SetAddContext (dci : Z) (value : bool) (c : InputContext) : InputContext :=
  InCtx (alter (set_flag dci value) 1%nat (input_ctrl_ctx_ c)) (device_ctx_ c) (ictx_pa c).
Definition set_device_ctx (d : DeviceContext) (c : InputContext) : InputContext :=
  InCtx (input_ctrl_ctx_ c) d (ictx_pa c).

Definition kPortSpeedFS : Z := 1.
Definition kPortSpeedLS : Z := 2.
Definition kPortSpeedHS : Z := 3.
Definition kPortSpeedSS : Z := 4.
Definition GetMaxPacketSizeFromPORTSCPortSpeed (port_speed : Z) : res Z :=
  if (port_speed =? kPortSpeedLS) || (port_speed =? kPortSpeedFS) then Done 8
  else if port_speed =? kPortSpeedHS then Done 64
  else if port_speed =? kPortSpeedSS then Done 512
  else Stop Panic.
(** Whether [GetSpeedNameFromPORTSCPortSpeed] has a name. *)
Definition speed_known (port_speed : Z) : bool :=
  (port_speed =? kPortSpeedFS) || (port_speed =? kPortSpeedLS) || (port_speed =? kPortSpeedHS) || (port_speed =? kPortSpeedSS).

(** ** The state of the driver *)

Inductive SlotState :=
| kUndefined | kWaitingForSecondAddressDeviceCommandCompletion | kWaitingForDeviceDescriptor | kAvailable
| kManaged | kSettingBootProtocol | kCheckingProtocol | kGettingReport | kFailed.
#[global] Instance SlotState_eq_dec : EqDecision SlotState.
Proof. solve_decision. Defined.
Inductive SlotEvent := kTransferSucceeded | kTransferFailed.
#[global] Instance SlotEvent_eq_dec : EqDecision SlotEvent.
Proof. solve_decision. Defined.
Inductive PortState :=
| kDisconnected | kAttached | kAttachedUSB2 | kAttachedUSB3
| kNeedsPortReset | kNeedsSlotAssignment | kWaitingForSlotAssignment | kSlotAssigned | kDisabled.
#[global] Instance PortState_eq_dec : EqDecision PortState.
Proof. solve_decision. Defined.

(** A transfer ring in shared memory, its entries at the start of the object. *)
Record tring := TRing { tr_pa : Z; tr_ring : ring }.
Definition kNumOfCtrlEPRingEntries : nat := 32.
Definition kNumOfIntEPRingEntries : nat := 32.
Definition kNumOfDataEPRingEntries : nat := 32.
Definition kNumOfCmdTRBRingEntries : nat := 128.
Definition kNumOfTRBForEventRing : nat := 128.
Definition kMaxNumOfSlots : Z := 256.
Definition kMaxNumOfPorts : Z := 256.
Definition kSizeOfDescriptorBuffer : Z := 1024.

(** [output_ctx] is written by the controller only: its address. *)
Record SlotInfo := Slot {
  sl_state : SlotState;
  sl_port : Z;
  input_ctx : option InputContext;
  output_ctx : option Z;
  ctrl_ep_tring : option tring;
  int_ep_tring : option tring;
  data_out_ep_tring : option tring;
  data_out_ep_dci : Z;
  data_in_ep_tring : option tring;
  data_in_ep_dci : Z;
  sl_max_packet_size : Z;
  sl_ident : list Z;
  event_queue : RingBuffer.ring (T := SlotEvent);
}.
(** [sl_ident]: device_class, device_subclass, device_protocol,
    manufacturer_idx, product_idx, num_of_config, num_of_config_retrieved. *)
Definition empty_queue : RingBuffer.ring (T := SlotEvent) := RingBuffer.Ring (replicate 16 kTransferSucceeded) 0 0.
Definition zero_slot : SlotInfo := Slot kUndefined 0 None None None None None 0 None 0 0 (replicate 7 0) empty_queue.
Definition device_class (s : SlotInfo) : Z := nth 0 (sl_ident s) 0.
Definition device_subclass (s : SlotInfo) : Z := nth 1 (sl_ident s) 0.
Definition device_protocol (s : SlotInfo) : Z := nth 2 (sl_ident s) 0.
Definition manufacturer_idx (s : SlotInfo) : Z := nth 3 (sl_ident s) 0.
Definition product_idx (s : SlotInfo) : Z := nth 4 (sl_ident s) 0.
Definition num_of_config (s : SlotInfo) : Z := nth 5 (sl_ident s) 0.

Definition set_state (x : SlotState) (s : SlotInfo) : SlotInfo :=
  Slot x (sl_port s) (input_ctx s) (output_ctx s) (ctrl_ep_tring s) (int_ep_tring s) (data_out_ep_tring s) (data_out_ep_dci s)
    (data_in_ep_tring s) (data_in_ep_dci s) (sl_max_packet_size s) (sl_ident s) (event_queue s).
Definition set_port (x : Z) (s : SlotInfo) : SlotInfo :=
  Slot (sl_state s) x (input_ctx s) (output_ctx s) (ctrl_ep_tring s) (int_ep_tring s) (data_out_ep_tring s) (data_out_ep_dci s)
    (data_in_ep_tring s) (data_in_ep_dci s) (sl_max_packet_size s) (sl_ident s) (event_queue s).
Definition set_input_ctx (x : InputContext) (s : SlotInfo) : SlotInfo :=
  Slot (sl_state s) (sl_port s) (Some x) (output_ctx s) (ctrl_ep_tring s) (int_ep_tring s) (data_out_ep_tring s) (data_out_ep_dci s)
    (data_in_ep_tring s) (data_in_ep_dci s) (sl_max_packet_size s) (sl_ident s) (event_queue s).
Definition set_ctrl (x : tring) (s : SlotInfo) : SlotInfo :=
  Slot (sl_state s) (sl_port s) (input_ctx s) (output_ctx s) (Some x) (int_ep_tring s) (data_out_ep_tring s) (data_out_ep_dci s)
    (data_in_ep_tring s) (data_in_ep_dci s) (sl_max_packet_size s) (sl_ident s) (event_queue s).
Definition set_data_out (x : tring) (dci : Z) (s : SlotInfo) : SlotInfo :=
  Slot (sl_state s) (sl_port s) (input_ctx s) (output_ctx s) (ctrl_ep_tring s) (int_ep_tring s) (Some x) dci
    (data_in_ep_tring s) (data_in_ep_dci s) (sl_max_packet_size s) (sl_ident s) (event_queue s).
Definition set_data_in (x : tring) (dci : Z) (s : SlotInfo) : SlotInfo :=
  Slot (sl_state s) (sl_port s) (input_ctx s) (output_ctx s) (ctrl_ep_tring s) (int_ep_tring s) (data_out_ep_tring s) (data_out_ep_dci s)
    (Some x) dci (sl_max_packet_size s) (sl_ident s) (event_queue s).
Definition set_max_packet_size (x : Z) (s : SlotInfo) : SlotInfo :=
  Slot (sl_state s) (sl_port s) (input_ctx s) (output_ctx s) (ctrl_ep_tring s) (int_ep_tring s) (data_out_ep_tring s) (data_out_ep_dci s)
    (data_in_ep_tring s) (data_in_ep_dci s) x (sl_ident s) (event_queue s).
Definition set_ident (x : list Z) (s : SlotInfo) : SlotInfo :=
  Slot (sl_state s) (sl_port s) (input_ctx s) (output_ctx s) (ctrl_ep_tring s) (int_ep_tring s) (data_out_ep_tring s) (data_out_ep_dci s)
    (data_in_ep_tring s) (data_in_ep_dci s) (sl_max_packet_size s) x (event_queue s).
Definition set_queue (x : RingBuffer.ring (T := SlotEvent)) (s : SlotInfo) : SlotInfo :=
  Slot (sl_state s) (sl_port s) (input_ctx s) (output_ctx s) (ctrl_ep_tring s) (int_ep_tring s) (data_out_ep_tring s) (data_out_ep_dci s)
    (data_in_ep_tring s) (data_in_ep_dci s) (sl_max_packet_size s) (sl_ident s) x.
Definition push_event (e : SlotEvent) (s : SlotInfo) : SlotInfo := set_queue (RingBuffer.Push 16 e (event_queue s)) s.

(** The event ring: the entries belong to the controller ([hw_event]).
    [erst_]: the address of the segment table, and its one entry. *)
Record EventRing := EvRing { cycle_state_ : Z; index_ : nat; num_of_trb_ : nat; trbs_pa : Z; erst_ : Z * (Z * Z) }.
Record ports := Ports { port_state_ : list PortState; port_is_initializing_ : list bool; port_init_deadline_ : Z }.
(** What [Init] finds out. *)
Record params := Params { initialized_ : bool; controller_reset_requested_ : bool; dev_ : DeviceLocation; max_slots_ : Z; max_intrs_ : Z;
  max_ports_ : Z; num_of_slots_enabled_ : Z; max_num_of_scratch_pad_buf_entries_ : Z; scratchpad_buffer_array_ : list Z }.

Record ctrl := Ctrl {
  io_ : io;
  lk : lock;
  params_ : params;
  cmd_ring_ : tring;
  device_context_base_array_ : list Z;
  primary_event_ring_ : option EventRing;
  descriptor_buffers_ : list (option Z);
  key_buffers_ : list (list Z);
  slot_request_for_port_ : gmap Z Z;
  slot_info_ : list SlotInfo;
  keyid_buffer_ : RingBuffer.ring (T := Z);
  ports_ : ports;
}.
Definition set_io (x : io) (c : ctrl) : ctrl :=
  Ctrl x (lk c) (params_ c) (cmd_ring_ c) (device_context_base_array_ c) (primary_event_ring_ c) (descriptor_buffers_ c) (key_buffers_ c)
    (slot_request_for_port_ c) (slot_info_ c) (keyid_buffer_ c) (ports_ c).
Definition set_cmd_ring (x : tring) (c : ctrl) : ctrl :=
  Ctrl (io_ c) (lk c) (params_ c) x (device_context_base_array_ c) (primary_event_ring_ c) (descriptor_buffers_ c) (key_buffers_ c)
    (slot_request_for_port_ c) (slot_info_ c) (keyid_buffer_ c) (ports_ c).
Definition set_dcbaa (x : list Z) (c : ctrl) : ctrl :=
  Ctrl (io_ c) (lk c) (params_ c) (cmd_ring_ c) x (primary_event_ring_ c) (descriptor_buffers_ c) (key_buffers_ c)
    (slot_request_for_port_ c) (slot_info_ c) (keyid_buffer_ c) (ports_ c).
Definition set_event_ring (x : EventRing) (c : ctrl) : ctrl :=
  Ctrl (io_ c) (lk c) (params_ c) (cmd_ring_ c) (device_context_base_array_ c) (Some x) (descriptor_buffers_ c) (key_buffers_ c)
    (slot_request_for_port_ c) (slot_info_ c) (keyid_buffer_ c) (ports_ c).
Definition set_buffers (x : list (option Z)) (c : ctrl) : ctrl :=
  Ctrl (io_ c) (lk c) (params_ c) (cmd_ring_ c) (device_context_base_array_ c) (primary_event_ring_ c) x (key_buffers_ c)
    (slot_request_for_port_ c) (slot_info_ c) (keyid_buffer_ c) (ports_ c).
Definition set_keys (x : list (list Z)) (k : RingBuffer.ring (T := Z)) (c : ctrl) : ctrl :=
  Ctrl (io_ c) (lk c) (params_ c) (cmd_ring_ c) (device_context_base_array_ c) (primary_event_ring_ c) (descriptor_buffers_ c) x
    (slot_request_for_port_ c) (slot_info_ c) k (ports_ c).
Definition set_requests (x : gmap Z Z) (c : ctrl) : ctrl :=
  Ctrl (io_ c) (lk c) (params_ c) (cmd_ring_ c) (device_context_base_array_ c) (primary_event_ring_ c) (descriptor_buffers_ c) (key_buffers_ c)
    x (slot_info_ c) (keyid_buffer_ c) (ports_ c).
Definition set_slots (x : list SlotInfo) (c : ctrl) : ctrl :=
  Ctrl (io_ c) (lk c) (params_ c) (cmd_ring_ c) (device_context_base_array_ c) (primary_event_ring_ c) (descriptor_buffers_ c) (key_buffers_ c)
    (slot_request_for_port_ c) x (keyid_buffer_ c) (ports_ c).
Definition set_ports (x : ports) (c : ctrl) : ctrl :=
  Ctrl (io_ c) (lk c) (params_ c) (cmd_ring_ c) (device_context_base_array_ c) (primary_event_ring_ c) (descriptor_buffers_ c) (key_buffers_ c)
    (slot_request_for_port_ c) (slot_info_ c) (keyid_buffer_ c) x.
(** [slot_info_[slot]] updated. *)
Definition get_slot (slot : Z) (c : ctrl) : res SlotInfo := get_at (slot_info_ c) slot.
Definition put_slot (slot : Z) (s : SlotInfo) (c : ctrl) : ctrl := set_slots (<[Z.to_nat slot := s]> (slot_info_ c)) c.
Definition get_port_state (port : Z) (c : ctrl) : res PortState := get_at (port_state_ (ports_ c)) port.
Definition set_port_state (port : Z) (x : PortState) (c : ctrl) : res ctrl :=
  do l <- set_at (port_state_ (ports_ c)) port x;
  Done (set_ports (Ports l (port_is_initializing_ (ports_ c)) (port_init_deadline_ (ports_ c))) c).
Definition set_initializing (port : Z) (b : bool) (c : ctrl) : res ctrl :=
  do l <- set_at (port_is_initializing_ (ports_ c)) port b;
  Done (set_ports (Ports (port_state_ (ports_ c)) l (port_init_deadline_ (ports_ c))) c).
Definition set_deadline (d : Z) (c : ctrl) : ctrl :=
  set_ports (Ports (port_state_ (ports_ c)) (port_is_initializing_ (ports_ c)) d) c.
(** The object that [GetInstance] makes: zeroed, no ring yet. *)
Definition zero_ctrl (i : io) : ctrl :=
  Ctrl i (Lock_ 0) (Params false false (Loc 0 0 0) 0 0 0 0 0 []) (TRing 0 (Ring [] 0 0 0)) [] None (replicate 256 None)
    (replicate 256 (replicate 33 0)) ∅ (replicate 256 zero_slot) (RingBuffer.Ring (replicate 16 0) 0 0)
    (Ports (replicate 256 kDisconnected) (replicate 256 false) 0).
(** A block for the driver's structures: its physical address. *)
Definition AllocMemoryForMappedIO (alloc_pa : nat -> Z) (c : ctrl) : Z * ctrl :=
  let i := io_ c in (alloc_pa (allocs i), set_io (Io (now i) (log i) (S (allocs i))) c).

(** ** Operations *)

Definition tr_enqueue (n : nat) (t : BasicTRB) (r : tring) : res tring :=
  do q <- enqueue n t (tr_ring r); Done (TRing (tr_pa r) q).
(** The physical address of the entry that is filled next. *)
Definition next_entry_pa (r : tring) : Z := tr_pa r + 16 * Z.of_nat (next_enqueue_idx_ (tr_ring r)).
Definition cmd_push (t : BasicTRB) (c : ctrl) : res ctrl :=
  do r <- tr_enqueue kNumOfCmdTRBRingEntries t (cmd_ring_ c);
  Done (set_io (NotifyHostControllerDoorbell (io_ c)) (set_cmd_ring r c)).

Definition HasNextEvent (h : hw) (e : EventRing) : bool := Z.land (trb_control (hw_event h (index_ e))) 1 =? cycle_state_ e.
Definition PeekEvent (h : hw) (e : EventRing) : res BasicTRB := run kassert (HasNextEvent h e); Done (hw_event h (index_ e)).
Definition AdvanceERDP (h : hw) (e : EventRing) (i : io) : io :=
  let '(v, i) := read_reg h ERDP i in
  write_reg ERDP (Z.lor (u64 (trbs_pa e + 16 * Z.of_nat (index_ e))) (Z.land v 15)) i.
Definition PopEvent (h : hw) (e : EventRing) (i : io) : res (EventRing * io) :=
  run kassert (HasNextEvent h e);
  let i := AdvanceERDP h e i in
  Done (if (S (index_ e) =? num_of_trb_ e)%nat
    then EvRing (Z.lxor (cycle_state_ e) 1) 0 (num_of_trb_ e) (trbs_pa e) (erst_ e)
    else EvRing (cycle_state_ e) (S (index_ e)) (num_of_trb_ e) (trbs_pa e) (erst_ e), i).

Section Driver.
(** [h]: the controller during the operation; [fuel]: how often a register is
    read in a wait; [alloc_pa]: the addresses of the blocks handed out;
    [null_pa]: the translation of a null pointer; [fs]: femtoseconds per count
    of the timer. *)
Context (h : hw) (fuel : nat) (alloc_pa : nat -> Z) (null_pa fs : Z).

Definition ResetPort (port : Z) (c : ctrl) : res ctrl :=
  let '(v, i) := ReadPORTSC h port (io_ c) in
  let i := WritePORTSC port (Z.lor (Z.land v kPortSCPreserveMask) kPortSCBitPortPower) i in
  do i <- wait_reg fuel h (PORTSC port) (fun v => has v kPortSCBitPortPower) i;
  let '(v, i) := ReadPORTSC h port i in
  let i := WritePORTSC port (Z.lor (Z.land v kPortSCPreserveMask) kPortSCBitPortReset) i in
  do i <- wait_reg fuel h (PORTSC port) (fun v => negb (has v kPortSCBitPortReset)) i;
  do c <- set_port_state port kDisabled (set_io i c);
  set_initializing port false c.
Definition DisablePort (port : Z) (c : ctrl) : res ctrl := ResetPort port (set_io (WritePORTSC port 2 (io_ c)) c).
Definition MarkSlotAsFailed (slot : Z) (c : ctrl) : res ctrl :=
  do s <- get_slot slot c;
  DisablePort (sl_port s) (put_slot slot (set_state kFailed s) c).

Definition SetConfigureEndpointCommandTRB (slot : Z) (ctx : InputContext) : res BasicTRB :=
  run kassert (Z.land (ictx_pa ctx) 15 =? 0);
  Done (TRB (ictx_pa ctx) 0 (Z.lor (Z.shiftl kTRBTypeConfigureEndpointCommand 10) (u32 (Z.shiftl slot 24)))).
Definition SendConfigureEndpointCommand (slot : Z) (c : ctrl) : res ctrl :=
  do s <- get_slot slot c;
  run kassert (bool_decide (is_Some (input_ctx s)));
  do ctx <- deref (input_ctx s);
  do t <- SetConfigureEndpointCommandTRB slot ctx;
  cmd_push t c.

(** The endpoint context of a ring that starts at [pa]. *)
Definition describe_endpoint (type pa max_packet_size : Z) (e : EndpointContext) : EndpointContext :=
  SetMaxPacketSize max_packet_size (SetErrorCount 3 (SetDequeueCycleState 1 (SetTRDequeuePointer pa (SetEPType type e)))).
Definition init_tring (n : nat) (r : tring) : res tring := do q <- Init n (tr_pa r) (entry_ (tr_ring r)); Done (TRing (tr_pa r) q).
Definition ConfigureEndpointBulkInOut (slot in_dci in_max_packet_size out_dci out_max_packet_size : Z) (c : ctrl) : res ctrl :=
  do s <- get_slot slot c;
  run kassert (bool_decide (is_Some (input_ctx s)));
  do ctx <- deref (input_ctx s);
  let ctx := SetAddContext 0 true (Clear ctx) in
  let d := SetContextEntries 3 (SetRootHubPortNumber (sl_port s) (device_ctx_ ctx)) in
  let ctx := SetAddContext out_dci true (SetDropContext out_dci true ctx) in
  run kassert (bool_decide (is_Some (data_out_ep_tring s)));
  do r <- deref (data_out_ep_tring s);
  do r <- init_tring kNumOfDataEPRingEntries r;
  do d <- with_endpoint out_dci (describe_endpoint kEPTypeBulkOut (tr_pa r) out_max_packet_size) d;
  let s := set_data_out r out_dci s in
  let ctx := SetAddContext in_dci true (SetDropContext in_dci true ctx) in
  run kassert (bool_decide (is_Some (data_in_ep_tring s)));
  do r <- deref (data_in_ep_tring s);
  do r <- init_tring kNumOfDataEPRingEntries r;
  do d <- with_endpoint in_dci (describe_endpoint kEPTypeBulkIn (tr_pa r) in_max_packet_size) d;
  let s := set_input_ctx (set_device_ctx d ctx) (set_data_in r in_dci s) in
  SendConfigureEndpointCommand slot (put_slot slot s c).

Definition SendAddressDeviceCommand (slot : Z) (c : ctrl) : res ctrl :=
  do s <- get_slot slot c;
  let port := sl_port s in
  run kassert (bool_decide (is_Some (input_ctx s)));
  do ctx <- deref (input_ctx s);
  let ctx := SetAddContext 1 true (SetAddContext 0 true (Clear ctx)) in
  let d := SetContextEntries 1 (SetRootHubPortNumber port (device_ctx_ ctx)) in
  run kassert (bool_decide (is_Some (ctrl_ep_tring s)));
  do r <- deref (ctrl_ep_tring s);
  do r <- init_tring kNumOfCtrlEPRingEntries r;
  let s := set_ctrl r s in
  let '(portsc, i) := ReadPORTSC h port (io_ c) in
  let c := set_io i c in
  let port_speed := GetBits 13 10 portsc in
  let d := SetPortSpeed port_speed d in
  if negb (speed_known port_speed) then DisablePort port (put_slot slot (set_input_ctx (set_device_ctx d ctx) s) c)
  else
    do size <- GetMaxPacketSizeFromPORTSCPortSpeed port_speed;
    do d <- with_endpoint kDCIEPContext0 (describe_endpoint kEPTypeControl (tr_pa r) size) d;
    let s := set_max_packet_size size (set_input_ctx (set_device_ctx d ctx) s) in
    run kassert (bool_decide (is_Some (output_ctx s)));
    do out <- deref (output_ctx s);
    do a <- set_at (device_context_base_array_ c) slot out;
    do c <- cmd_push (TRB (ictx_pa ctx) 0 (Z.lor (Z.shiftl kTRBTypeAddressDeviceCommand 10) (u32 (Z.shiftl slot 24))))
              (set_dcbaa a (put_slot slot s c));
    Done (put_slot slot (set_state kWaitingForSecondAddressDeviceCommandCompletion s) c).

(** *** Transfers *)

(** Filling the next entry of the control ring of [slot] and pushing it. *)
Definition ctrl_push (slot : Z) (t : BasicTRB) (c : ctrl) : res ctrl :=
  do s <- get_slot slot c;
  run kassert (bool_decide (is_Some (ctrl_ep_tring s)));
  do r <- deref (ctrl_ep_tring s);
  do r <- tr_enqueue kNumOfCtrlEPRingEntries t r;
  Done (put_slot slot (set_ctrl r s) c).
Definition data_stage_trb (buf_phys_addr size : Z) (is_data_direction_in : bool) : BasicTRB :=
  TRB buf_phys_addr (u16 size) (Data_SetControl is_data_direction_in false true).
Definition PutDataStageTD (slot buf_phys_addr size : Z) (is_data_direction_in : bool) (c : ctrl) : res ctrl :=
  ctrl_push slot (data_stage_trb buf_phys_addr size is_data_direction_in) c.
Definition ring_doorbell (slot dci : Z) (c : ctrl) : res ctrl :=
  do i <- NotifyDeviceContextDoorbell slot dci (io_ c); Done (set_io i c).
Definition buffer_pa (slot : Z) (c : ctrl) : res Z := do b <- get_at (descriptor_buffers_ c) slot; Done (default null_pa b).
Definition change_state (slot : Z) (x : SlotState) (c : ctrl) : res ctrl :=
  do s <- get_slot slot c; Done (put_slot slot (set_state x s) c).

Definition RequestDeviceDescriptor (slot : Z) (next_state : SlotState) (c : ctrl) : res ctrl :=
  let desc_size := 18 in
  do c <- ctrl_push slot (Setup_SetParams kReqTypeBitDirectionDeviceToHost kReqGetDescriptor (Z.shiftl 1 8) 0 desc_size false) c;
  do buf <- buffer_pa slot c;
  do c <- PutDataStageTD slot buf desc_size true c;
  do c <- ctrl_push slot (Status_SetParams false false) c;
  do c <- change_state slot next_state c;
  ring_doorbell slot 1 c.
(** [RequestDescriptor], [RequestConfigDescriptor] and [RequestStringDescriptor]
    differ in the value of the request. *)
Definition request_descriptor (value slot : Z) (c : ctrl) : res ctrl :=
  let desc_size := kSizeOfDescriptorBuffer in
  do c <- ctrl_push slot (Setup_SetParams kReqTypeBitDirectionDeviceToHost kReqGetDescriptor value 0 desc_size false) c;
  do buf <- buffer_pa slot c;
  do c <- PutDataStageTD slot buf desc_size true c;
  do c <- ctrl_push slot (Status_SetParams false false) c;
  ring_doorbell slot 1 c.
Definition kDescriptorTypeDevice : Z := 1.
Definition kDescriptorTypeConfig : Z := 2.
Definition kDescriptorTypeString : Z := 3.
Definition kDescriptorTypeInterface : Z := 4.
Definition kDescriptorTypeEndpoint : Z := 5.
Definition RequestDescriptor (slot descriptor_type : Z) (c : ctrl) : res ctrl :=
  request_descriptor (Z.shiftl (u8 descriptor_type) 8) slot c.
Definition RequestConfigDescriptor (slot desc_idx : Z) (c : ctrl) : res ctrl :=
  request_descriptor (Z.lor (Z.shiftl kDescriptorTypeConfig 8) (u8 desc_idx)) slot c.
Definition RequestStringDescriptor (slot desc_idx : Z) (c : ctrl) : res ctrl :=
  request_descriptor (Z.lor (Z.shiftl kDescriptorTypeString 8) (u8 desc_idx)) slot c.
(** A request without data. *)
Definition SetConfig (slot config_value : Z) (c : ctrl) : res ctrl :=
  do c <- ctrl_push slot (Setup_SetParams 0 kReqSetConfiguration (u8 config_value) 0 0 false) c;
  do c <- ctrl_push slot (Status_SetParams true true) c;
  ring_doorbell slot 1 c.
Definition SetInterface (slot interface_number alt_setting : Z) (c : ctrl) : res ctrl :=
  do c <- ctrl_push slot (Setup_SetParams 1 kReqSetInterface (u8 alt_setting) (u8 interface_number) 0 false) c;
  do c <- ctrl_push slot (Status_SetParams true true) c;
  ring_doorbell slot 1 c.
Definition SetHIDBootProtocol (slot : Z) (c : ctrl) : res ctrl :=
  do c <- ctrl_push slot (Setup_SetParams 33 11 0 0 0 false) c;
  do c <- ctrl_push slot (Status_SetParams true true) c;
  do c <- change_state slot kSettingBootProtocol c;
  ring_doorbell slot 1 c.
Definition hid_request (value desc_size slot : Z) (next_state : SlotState) (c : ctrl) : res ctrl :=
  do c <- ctrl_push slot (Setup_SetParams 161 1 value 0 desc_size false) c;
  do buf <- buffer_pa slot c;
  do c <- PutDataStageTD slot buf desc_size true c;
  do c <- ctrl_push slot (Status_SetParams false false) c;
  do c <- change_state slot next_state c;
  ring_doorbell slot 1 c.
Definition GetHIDProtocol (slot : Z) (c : ctrl) : res ctrl := hid_request 0 1 slot kCheckingProtocol c.
Definition GetHIDReport (slot : Z) (c : ctrl) : res ctrl := hid_request 0x2201 8 slot kGettingReport c.
Definition WriteBulkData (slot buf_pa buf_size : Z) (c : ctrl) : res ctrl :=
  do s <- get_slot slot c;
  run kassert (bool_decide (is_Some (data_out_ep_tring s)));
  do r <- deref (data_out_ep_tring s);
  do r <- tr_enqueue kNumOfDataEPRingEntries (data_stage_trb buf_pa (u16 buf_size) false) r;
  ring_doorbell slot (data_out_ep_dci s) (put_slot slot (set_data_out r (data_out_ep_dci s) s) c).
Definition ReadBulkData (slot buf_pa buf_size : Z) (c : ctrl) : res ctrl :=
  do s <- get_slot slot c;
  run kassert (bool_decide (is_Some (data_in_ep_tring s)));
  do r <- deref (data_in_ep_tring s);
  do r <- tr_enqueue kNumOfDataEPRingEntries (data_stage_trb buf_pa (u16 buf_size) true) r;
  ring_doorbell slot (data_in_ep_dci s) (put_slot slot (set_data_in r (data_in_ep_dci s) s) c).

(** *** Keyboard input *)

Definition mapping : list Z :=
  [0; 0; 0; 0] ++ seqZ 97 26 ++ seqZ 49 9 ++
  [48; 10; 0; KeyID.kBackspace; 0; 32; 45; 61; 91; 93; 92; 0; 59; 39; 126; 44; 46] ++ replicate 200 0.
Definition PressKey (hid_idx : Z) (k : RingBuffer.ring (T := Z)) : RingBuffer.ring (T := Z) :=
  if (0 <? hid_idx) && (hid_idx <? 256) then RingBuffer.Push 16 (nth (Z.to_nat hid_idx) mapping 0) k else k.
(** The bit of each key that is down, and the modifiers at index 32. *)
Fixpoint key_bits (codes bits : list Z) : list Z :=
  match codes with
  | [] => bits
  | d :: codes' =>
    key_bits codes' (if d =? 0 then bits
      else alter (fun b => u8 (Z.lor b (Z.shiftl 1 (Z.land d 7)))) (Z.to_nat (Z.shiftr d 3)) bits)
  end.
Definition new_key_bits (data : list Z) : list Z :=
  <[32%nat := nth 0 data 0]> (key_bits (take 6 (drop 2 data)) (replicate 33 0)).
(** The bits of [diff_make] from bit [k] on. *)
Fixpoint press_bits (n : nat) (i k diff_make : Z) (q : RingBuffer.ring (T := Z)) : RingBuffer.ring (T := Z) :=
  match n with
  | O => q
  | S n' =>
    press_bits n' i (k + 1) diff_make (if Z.land (Z.shiftr diff_make k) 1 =? 1 then PressKey (i * 8 + k) q else q)
  end.
Fixpoint press_diff (i : Z) (new old : list Z) (q : RingBuffer.ring (T := Z)) : RingBuffer.ring (T := Z) :=
  match new, old with
  | n :: new', o :: old' => press_diff (i + 1) new' old' (press_bits 8 i 0 (u8 (Z.land n (Z.lnot o))) q)
  | _, _ => q
  end.
Definition HandleKeyInput (slot : Z) (data : list Z) (c : ctrl) : res ctrl :=
  do old <- get_at (key_buffers_ c) slot;
  let new := new_key_bits data in
  do b <- set_at (key_buffers_ c) slot new;
  Done (set_keys b (press_diff 0 new old (keyid_buffer_ c)) c).
Definition ReadKeyboardInput (c : ctrl) : Z * ctrl :=
  if RingBuffer.IsEmpty (keyid_buffer_ c) then (0, c)
  else let '(v, k) := RingBuffer.Pop 0 16 (keyid_buffer_ c) in (v, set_keys (key_buffers_ c) k c).

(** *** Events *)

Definition HandleTransferEvent (e : BasicTRB) (c : ctrl) : res ctrl :=
  let slot := GetSlotID e in
  do si <- get_slot slot c;
  if negb (IsCompletedWithSuccess e) && negb (IsCompletedWithShortPacket e) then
    if decide (sl_state si = kAvailable) then Done (put_slot slot (push_event kTransferFailed si) c) else Done c
  else
    match sl_state si with
    | kWaitingForDeviceDescriptor =>
      do b <- get_at (descriptor_buffers_ c) slot;
      do pa <- deref b;
      let byte k := hw_dma h (pa + k) in
      let si := set_state kAvailable (set_ident [byte 4; byte 5; byte 6; byte 14; byte 15; byte 17; 0] si) in
      set_initializing (sl_port si) false (put_slot slot si c)
    | kManaged => Done (put_slot slot (push_event kTransferSucceeded si) c)
    | _ => Done c
    end.

(** Slot assignment for the first port that needs it. *)
Definition enable_slot_for (port : Z) (c : ctrl) : res ctrl :=
  do c <- set_port_state port kWaitingForSlotAssignment c;
  let pa := next_entry_pa (cmd_ring_ c) in
  let m := slot_request_for_port_ c in
  cmd_push (TRB 0 0 (Z.shiftl kTRBTypeEnableSlotCommand 10))
    (set_requests (match m !! pa with Some _ => m | None => <[pa := port]> m end) c).
(** The start of the initialisation of a port. *)
Definition begin_init (port : Z) (c : ctrl) : res ctrl :=
  do c <- set_port_state port kNeedsSlotAssignment c;
  do c <- set_initializing port true c;
  let '(t, i) := read_reg h HpetCounter (io_ c) in
  Done (set_deadline (u64 (t + GetCountPerSecond fs)) (set_io i c)).
Definition CheckPortAndInitiateProcess (c : ctrl) : res ctrl :=
  match list_find (eq kNeedsSlotAssignment) (port_state_ (ports_ c)) with
  | Some (i, _) => enable_slot_for (Z.of_nat i) c
  | None =>
    match list_find (eq true) (port_is_initializing_ (ports_ c)) with
    | Some (i, _) =>
      let '(t, io1) := read_reg h HpetCounter (io_ c) in
      let c := set_io io1 c in
      if port_init_deadline_ (ports_ c) <? t then DisablePort (Z.of_nat i) c else Done c
    | None =>
      match list_find (fun x => x = kAttachedUSB2 \/ x = kAttachedUSB3) (port_state_ (ports_ c)) with
      | Some (i, x) =>
        do c <- (if decide (x = kAttachedUSB2) then ResetPort (Z.of_nat i) c else Done c);
        begin_init (Z.of_nat i) c
      | None => Done c
      end
    end
  end.

(** The port is read from the map entry right after the entry was erased. *)
Definition HandleEnableSlotCommandCompletion (e : BasicTRB) (c : ctrl) : res ctrl :=
  match slot_request_for_port_ c !! trb_data e with
  | None => Done c
  | Some port =>
    let c := set_requests (delete (trb_data e) (slot_request_for_port_ c)) c in
    if negb (IsCompletedWithSuccess e) then DisablePort port c
    else
      let slot := GetSlotID e in
      do c <- set_port_state port kSlotAssigned c;
      do s <- get_slot slot c;
      SendAddressDeviceCommand slot (put_slot slot (set_port port s) c)
  end.
Definition HandleAddressDeviceCommandCompletion (e : BasicTRB) (c : ctrl) : res ctrl :=
  let slot := GetSlotID e in
  if negb (IsCompletedWithSuccess e) then MarkSlotAsFailed slot c
  else
    let '(pa, c) := AllocMemoryForMappedIO alloc_pa c in
    do b <- set_at (descriptor_buffers_ c) slot (Some pa);
    RequestDeviceDescriptor slot kWaitingForDeviceDescriptor (set_buffers b c).
Definition HandleConfigureEndpointCommandCompletion (e : BasicTRB) (c : ctrl) : res ctrl :=
  let slot := GetSlotID e in
  do si <- get_slot slot c;
  Done (put_slot slot (push_event (if negb (IsCompletedWithSuccess e) then kTransferFailed else kTransferSucceeded) si) c).
Definition HandleCommandCompletion (e : BasicTRB) (c : ctrl) : res ctrl :=
  do idx <- GetEntryFromPhysAddr kNumOfCmdTRBRingEntries (trb_data e) (tr_ring (cmd_ring_ c));
  do cmd_trb <- get_at (entry_ (tr_ring (cmd_ring_ c))) idx;
  if GetTRBType cmd_trb =? kTRBTypeEnableSlotCommand then HandleEnableSlotCommandCompletion e c
  else if GetTRBType cmd_trb =? kTRBTypeAddressDeviceCommand then HandleAddressDeviceCommandCompletion e c
  else if GetTRBType cmd_trb =? kTRBTypeConfigureEndpointCommand then HandleConfigureEndpointCommandCompletion e c
  else MarkSlotAsFailed (GetSlotID e) c.
Definition HandleEvent (e : BasicTRB) (c : ctrl) : res ctrl :=
  let type := GetTRBType e in
  if type =? kTRBTypeCommandCompletionEvent then HandleCommandCompletion e c
  else if type =? kTRBTypePortStatusChangeEvent then Done c
  else if type =? kTRBTypeTransferEvent then HandleTransferEvent e c
  else Done c.
Definition poll_event_ring (c : ctrl) : res ctrl :=
  do er <- deref (primary_event_ring_ c);
  if HasNextEvent h er then
    do e <- PeekEvent h er;
    do c <- HandleEvent e c;
    do er <- deref (primary_event_ring_ c);
    do '(er, i) <- PopEvent h er (io_ c);
    Done (set_event_ring er (set_io i c))
  else Done c.

(** *** Port status *)

(** One more read, for the message. *)
Definition print_portsc (port : Z) (c : ctrl) : ctrl := set_io (ReadPORTSC h port (io_ c)).2 c.
Definition poll_port (port : Z) (c : ctrl) : res ctrl :=
  let '(portsc, i) := ReadPORTSC h port (io_ c) in
  let c := set_io i c in
  do st <- get_port_state port c;
  if negb (has portsc kPortSCBitCurrentConnectStatus) then
    if decide (st = kDisconnected) then Done c
    else
      do c <- DisablePort port c;
      do c <- set_port_state port kDisconnected c;
      Done (print_portsc port c)
  else if decide (st = kDisconnected) then set_port_state port kAttached (print_portsc port c)
  else if decide (st = kAttached) then
    let ped := has portsc kPortSCBitPortEnableDisable in
    if has portsc kPortSCBitPortReset then Done c
    else
      let '(link, i) := ReadPORTSCLinkState h port (io_ c) in
      let c := set_io i c in
      if negb ped && (link =? 7) then set_port_state port kAttachedUSB2 c
      else if ped && (link =? 0) then set_port_state port kAttachedUSB3 c
      else Done c
  else Done c.
Fixpoint poll_ports (n : nat) (port : Z) (c : ctrl) : res ctrl :=
  match n with
  | O => Done c
  | S n' => do c <- poll_port port c; poll_ports n' (port + 1) c
  end.

(** *** Queries *)

Definition PopSlotEvent (slot : Z) (c : ctrl) : res (option SlotEvent * ctrl) :=
  do si <- get_slot slot c;
  if RingBuffer.IsEmpty (event_queue si) then Done (None, c)
  else let '(e, q) := RingBuffer.Pop kTransferSucceeded 16 (event_queue si) in Done (Some e, put_slot slot (set_queue q si) c).
(** The address of [size] bytes in the buffer; null when they are not inside, or
    when there is no buffer. *)
Definition ReadDescriptorBuffer (size slot ofs : Z) (c : ctrl) : res (option Z) :=
  if (ofs <? 0) || (kSizeOfDescriptorBuffer <=? ofs + size) then Done None
  else do b <- get_at (descriptor_buffers_ c) slot; Done (option_map (fun pa => pa + ofs) b).
Fixpoint find_class (cls : Z) (n : nat) (slot : Z) (c : ctrl) : res Z :=
  match n with
  | O => Done (-1)
  | S n' =>
    do info <- get_slot slot c;
    if decide (sl_state info = kAvailable) then
      if device_class info =? cls then Done slot else find_class cls n' (slot + 1) c
    else find_class cls n' (slot + 1) c
  end.
Definition FindSlotIndexWithDeviceClass (cls : Z) (c : ctrl) : res Z :=
  find_class cls (Z.to_nat (num_of_slots_enabled_ (params_ c))) 1 c.
Definition GetNumOfConfigs (slot : Z) (c : ctrl) : res Z := do s <- get_slot slot c; Done (num_of_config s).
Definition GetProductManufacturerIndex (slot : Z) (c : ctrl) : res Z := do s <- get_slot slot c; Done (manufacturer_idx s).
Definition GetProductStringIndex (slot : Z) (c : ctrl) : res Z := do s <- get_slot slot c; Done (product_idx s).
Definition GetSlotState (slot : Z) (c : ctrl) : res SlotState :=
  if (slot <? 0) || (kMaxNumOfSlots <=? slot) then Done kUndefined else do s <- get_slot slot c; Done (sl_state s).
Definition MarkSlotAsManaged (slot : Z) (c : ctrl) : res ctrl :=
  if (slot <? 0) || (kMaxNumOfSlots <=? slot) then Done c else change_state slot kManaged c.

(** *** Start *)

(** [devices]: what the bus scan found; [fresh_ring], [fresh_eps],
    [fresh_words]: what is in newly allocated memory, by address (and, for a
    ring, its number of entries); [mt], [pid]:
    multitasking and the running process, for the lock. *)
Context (devices : list (DeviceIdent * DeviceLocation)) (fresh_ring : nat -> Z -> ring) (fresh_eps : Z -> list EndpointContext)
  (fresh_words : Z -> list Z) (mt : bool) (pid : Z).

Fixpoint find_xhci (l : list (DeviceIdent * DeviceLocation)) : option DeviceLocation :=
  match l with
  | [] => None
  | (i, loc) :: l' => if negb (HasID i 0x1B36 0x000D) && negb (HasID i 0x8086 0x31A8) then find_xhci l' else Some loc
  end.
Definition FindXHCIController : option DeviceLocation := find_xhci devices.
Definition inl32 (a : Z) (i : io) : Z := hw_reg h (now i) (PciConfig a).
Definition outl32 (a v : Z) (i : io) : io := Io (S (now i)) ((PciConfig a, v) :: log i) (allocs i).

Definition new_EventRing (num_of_trb : nat) (c : ctrl) : EventRing * ctrl :=
  let '(erst_pa, c) := AllocMemoryForMappedIO alloc_pa c in
  let '(pa, c) := AllocMemoryForMappedIO alloc_pa c in
  let i := write_reg ERDP pa (write_reg ERSTSZ 1 (io_ c)) in
  let i := write_reg IMAN 0 (write_reg ERSTBA erst_pa (write_reg IMAN 0 i)) in
  (EvRing 1 0 num_of_trb pa (erst_pa, (pa, u16 (Z.of_nat num_of_trb))), set_io i c).
Definition InitPrimaryInterrupter (c : ctrl) : ctrl :=
  let '(er, c) := new_EventRing kNumOfTRBForEventRing c in set_event_ring er c.
Definition set_params (x : params) (c : ctrl) : ctrl :=
  Ctrl (io_ c) (lk c) x (cmd_ring_ c) (device_context_base_array_ c) (primary_event_ring_ c) (descriptor_buffers_ c) (key_buffers_ c)
    (slot_request_for_port_ c) (slot_info_ c) (keyid_buffer_ c) (ports_ c).
Definition set_lk (x : lock) (c : ctrl) : ctrl :=
  Ctrl (io_ c) x (params_ c) (cmd_ring_ c) (device_context_base_array_ c) (primary_event_ring_ c) (descriptor_buffers_ c) (key_buffers_ c)
    (slot_request_for_port_ c) (slot_info_ c) (keyid_buffer_ c) (ports_ c).
Definition InitSlotsAndContexts (c : ctrl) : ctrl :=
  let p := params_ c in
  let c := set_params (Params (initialized_ p) (controller_reset_requested_ p) (dev_ p) (max_slots_ p) (max_intrs_ p) (max_ports_ p) (max_slots_ p)
    (max_num_of_scratch_pad_buf_entries_ p) (scratchpad_buffer_array_ p)) c in
  let n := max_slots_ p in
  let '(v, i) := read_reg h CONFIG (io_ c) in
  let i := write_reg CONFIG (Z.lor (Z.land v (u64 (Z.lnot 255))) (Z.land n 255)) i in
  let '(pa, c) := AllocMemoryForMappedIO alloc_pa (set_io i c) in
  set_io (write_reg DCBAAP pa (io_ c))
    (set_dcbaa (replicate (S (Z.to_nat n)) 0 ++ drop (S (Z.to_nat n)) (fresh_words pa)) c).
Definition InitCommandRing (c : ctrl) : res ctrl :=
  let '(pa, c) := AllocMemoryForMappedIO alloc_pa c in
  do r <- init_tring kNumOfCmdTRBRingEntries (TRing pa (fresh_ring kNumOfCmdTRBRingEntries pa));
  let '(v, i) := read_reg h CRCR (io_ c) in
  Done (set_io (write_reg CRCR (Z.lor (Z.lor (Z.land v 48) (Z.land pa (u64 (Z.lnot 63)))) 1) i) (set_cmd_ring r c)).
Fixpoint alloc_n (n : nat) (c : ctrl) : list Z * ctrl :=
  match n with
  | O => ([], c)
  | S n' => let '(pa, c) := AllocMemoryForMappedIO alloc_pa c in let '(l, c) := alloc_n n' c in (pa :: l, c)
  end.
Definition init_scratchpad (c : ctrl) : res ctrl :=
  let n := max_num_of_scratch_pad_buf_entries_ (params_ c) in
  if n =? 0 then Done c
  else
    let '(pa, c) := AllocMemoryForMappedIO alloc_pa c in
    do a <- set_at (device_context_base_array_ c) 0 pa;
    let '(l, c) := alloc_n (Z.to_nat n) (set_dcbaa a c) in
    let p := params_ c in
    Done (set_params (Params (initialized_ p) (controller_reset_requested_ p) (dev_ p) (max_slots_ p) (max_intrs_ p) (max_ports_ p)
      (num_of_slots_enabled_ p) n l) c).
Definition init_ports (n : nat) (p : ports) : ports :=
  Ports (replicate n kDisconnected ++ drop n (port_state_ p)) (replicate n false ++ drop n (port_is_initializing_ p)) (port_init_deadline_ p).
Definition fresh_slot (c : ctrl) : res (SlotInfo * ctrl) :=
  let '(out, c) := AllocMemoryForMappedIO alloc_pa c in
  let '(inp, c) := AllocMemoryForMappedIO alloc_pa c in
  do d <- new_DeviceContext 15 (fresh_eps inp);
  let '(cr, c) := AllocMemoryForMappedIO alloc_pa c in
  let '(ir, c) := AllocMemoryForMappedIO alloc_pa c in
  let '(dor, c) := AllocMemoryForMappedIO alloc_pa c in
  let '(dir, c) := AllocMemoryForMappedIO alloc_pa c in
  Done (Slot kUndefined 0 (Some (InCtx zero_ctx d inp)) (Some out) (Some (TRing cr (fresh_ring kNumOfCtrlEPRingEntries cr))) (Some (TRing ir (fresh_ring kNumOfIntEPRingEntries ir)))
    (Some (TRing dor (fresh_ring kNumOfDataEPRingEntries dor))) 0 (Some (TRing dir (fresh_ring kNumOfDataEPRingEntries dir))) 0 0 (replicate 7 0) empty_queue, c).
Fixpoint init_slots (n : nat) (slot : Z) (c : ctrl) : res ctrl :=
  match n with
  | O => Done c
  | S n' =>
    run get_slot slot c;
    do '(s, c) <- fresh_slot c;
    init_slots n' (slot + 1) (put_slot slot s c)
  end.
(** [HCSPARAMS1], [HCSPARAMS2] *)
Definition read_params (c : ctrl) : ctrl :=
  let '(p1, i) := read_reg h (Cap 4) (io_ c) in
  let '(p2, i) := read_reg h (Cap 8) i in
  let p := params_ c in
  set_io i (set_params (Params (initialized_ p) (controller_reset_requested_ p) (dev_ p) (u8 (GetBits 31 24 p1)) (u8 (GetBits 18 8 p1))
    (u8 (GetBits 7 0 p1)) (num_of_slots_enabled_ p) (Z.lor (Z.shiftl (GetBits 25 21 p2) 5) (GetBits 31 27 p2)) (scratchpad_buffer_array_ p)) c).
Definition set_dev (loc : DeviceLocation) (ok : bool) (c : ctrl) : ctrl :=
  let p := params_ c in
  set_params (Params ok (controller_reset_requested_ p) loc (max_slots_ p) (max_intrs_ p) (max_ports_ p) (num_of_slots_enabled_ p)
    (max_num_of_scratch_pad_buf_entries_ p) (scratchpad_buffer_array_ p)) c.
Definition Controller_Init (c : ctrl) : res ctrl :=
  match FindXHCIController with
  | None => Done c
  | Some loc =>
    let c := set_dev loc (initialized_ (params_ c)) c in
    do i <- EnsureBusMasterEnabled inl32 outl32 loc (io_ c);
    do '(_, _, i) <- GetBAR64 inl32 outl32 loc i;
    do l <- Lock mt pid (lk c);
    let c := read_params (set_lk l (set_io i c)) in
    do i <- ResetHostController fuel h (io_ c);
    do c <- InitCommandRing (InitSlotsAndContexts (InitPrimaryInterrupter (set_io i c)));
    do c <- init_scratchpad c;
    let c := set_ports (init_ports (Z.to_nat (max_ports_ (params_ c))) (ports_ c)) c in
    do c <- init_slots (Z.to_nat (max_slots_ (params_ c) - 1)) 1 c;
    let '(v, i) := read_reg h USBCMD (io_ c) in
    let i := write_reg USBCMD (Z.lor v kUSBCMDMaskRunStop) i in
    do i <- wait_reg fuel h USBSTS (fun v => negb (has v kUSBSTSBitHCHalted)) i;
    let c := set_io (NotifyHostControllerDoorbell i) c in
    Done (set_lk (Unlock mt (lk c)) (set_dev (dev_ (params_ c)) true c))
  end.

Definition PollEvents (c : ctrl) : res ctrl :=
  if negb (initialized_ (params_ c)) then Done c
  else if controller_reset_requested_ (params_ c) then Controller_Init c
  else
    do c <- CheckPortAndInitiateProcess c;
    match primary_event_ring_ c with
    | None => Done c
    | Some _ =>
      do c <- poll_event_ring c;
      poll_ports (Z.to_nat (max_ports_ (params_ c))) 1 c
    end.
End Driver.
