(* ===== verification/XhciProofs.v ===== *)
(** * The USB host controller driver: proofs

    A well-formedness predicate on the state of the driver that every operation
    keeps whatever the controller answers ([wf]), with at most one port being
    initialised at a time; the enumeration of a device from the connection to an
    available slot; the deadline that gives up on a device which does not answer;
    the input context of a new device; and keyboard reports. *)

From S2P Require Import Prelude KernelBase KernelInput Scheduler Pci Xhci XhciController.
Import KernelBase.Bits.

(** A hypothesis that branches. *)
Ltac rcase := match goal with H : (if ?b then _ else _) = Done _ |- _ => destruct b end.

(** ** Computations that may stop only in a wait or at an assertion *)

Definition safe {A} (P : A -> Prop) (m : res A) : Prop :=
  match m with Done a => P a | Stop s => s = FuelOut \/ s = Panic end.
Lemma safe_bind {A B} (P : A -> Prop) (Q : B -> Prop) m (k : A -> res B) :
  safe P m -> (forall a, P a -> safe Q (k a)) -> safe Q (rbind m k).
Proof. destruct m as [a|s]; cbn [safe rbind]; auto. Qed.
Lemma safe_mono {A} (P Q : A -> Prop) m : safe P m -> (forall a, P a -> Q a) -> safe Q m.
Proof. destruct m as [a|s]; cbn [safe]; auto. Qed.
Lemma safe_kassert (Q : unit -> Prop) b : (b = true -> Q tt) -> safe Q (kassert b).
Proof. destruct b; cbn; auto. Qed.
Lemma safe_deref {A} (P : A -> Prop) o a : o = Some a -> P a -> safe P (deref o).
Proof. intros -> HP. exact HP. Qed.
Lemma safe_get_at {A} (P : A -> Prop) l i a :
  l !! Z.to_nat i = Some a -> 0 <= i -> P a -> safe P (get_at l i).
Proof. intros E Hi HP. unfold get_at. zfalse (i <? 0). by rewrite E. Qed.
Lemma set_at_ok {A} (l : list A) i x : 0 <= i < Z.of_nat (length l) -> set_at l i x = Done (<[Z.to_nat i := x]> l).
Proof.
  intros Hi. unfold set_at, get_at. zfalse (i <? 0). destruct (lookup_lt_is_Some_2 l (Z.to_nat i)) as [y ->]; [lia|done].
Qed.
Lemma get_at_ok {A} (l : list A) i : 0 <= i < Z.of_nat (length l) -> exists x, get_at l i = Done x /\ l !! Z.to_nat i = Some x.
Proof.
  intros Hi. unfold get_at. zfalse (i <? 0). destruct (lookup_lt_is_Some_2 l (Z.to_nat i)) as [y E]; [lia|]. rewrite E. by exists y.
Qed.
Lemma get_at_lookup {A} (l : list A) i x : 0 <= i -> l !! Z.to_nat i = Some x -> get_at l i = Done x.
Proof. intros Hi E. unfold get_at. zfalse (i <? 0). by rewrite E. Qed.

Lemma wait_safe fuel h r stop i : safe (fun _ => True) (wait_reg fuel h r stop i).
Proof. revert i. induction fuel as [|n IH]; intros i; cbn; [by left|]. by destruct (stop _); [|apply IH]. Qed.

(** ** Well-formed states *)

(** A ring that [Init] has set up, and what memory for a ring looks like. *)
Definition ring_live (n : nat) (r : tring) : Prop := exists p, ring_ok n (tr_ring r) p /\ paddr_ (tr_ring r) = tr_pa r.
Definition ring_mem (n : nat) (r : tring) : Prop := length (entry_ (tr_ring r)) = S n.
Definition dctx_wf (d : DeviceContext) : Prop :=
  length (slot_ctx_ d) = 8%nat /\ length (endpoint_ctx_ d) = 31%nat /\ Forall (fun e => length e = 8%nat) (endpoint_ctx_ d).
Definition ictx_wf (x : InputContext) : Prop := length (input_ctrl_ctx_ x) = 8%nat /\ dctx_wf (device_ctx_ x).
Definition on_opt {A} (P : A -> Prop) (o : option A) : Prop := match o with Some a => P a | None => True end.
(** States in which the control ring is set up. *)
Definition addressed (x : SlotState) : bool := match x with kUndefined | kFailed => false | _ => true end.
Definition live_opt (n : nat) (o : option tring) : Prop := match o with Some r => ring_live n r | None => False end.

Record slot_wf (s : SlotInfo) : Prop := SlotWf {
  sw_port : 0 <= sl_port s < 256;
  sw_queue : exists q, RingBuffer.abs 16 q (event_queue s);
  sw_input : on_opt ictx_wf (input_ctx s);
  sw_ctrl : on_opt (ring_mem 32) (ctrl_ep_tring s);
  sw_out : on_opt (ring_mem 32) (data_out_ep_tring s);
  sw_in : on_opt (ring_mem 32) (data_in_ep_tring s);
  sw_live : addressed (sl_state s) = true -> live_opt 32 (ctrl_ep_tring s);
}.
(** At most one port. *)
Definition solo (l : list bool) : Prop := forall i j, l !! i = Some true -> l !! j = Some true -> i = j.
Definition ports_wf (p : ports) : Prop :=
  length (port_state_ p) = 256%nat /\ length (port_is_initializing_ p) = 256%nat /\ solo (port_is_initializing_ p).
Definition event_ring_wf (e : EventRing) : Prop := (index_ e < num_of_trb_ e)%nat /\ is_bit (cycle_state_ e).
(** A slot that waits for the descriptor has a buffer for it. *)
Definition buffers_wf (c : ctrl) : Prop := forall n s,
  slot_info_ c !! n = Some s -> sl_state s = kWaitingForDeviceDescriptor -> exists pa, descriptor_buffers_ c !! n = Some (Some pa).
Record wf (c : ctrl) : Prop := Wf {
  w_slots : length (slot_info_ c) = 256%nat;
  w_slot : Forall slot_wf (slot_info_ c);
  w_bufs : length (descriptor_buffers_ c) = 256%nat;
  w_buf : buffers_wf c;
  w_keys : length (key_buffers_ c) = 256%nat;
  w_key : Forall (fun k => length k = 33%nat) (key_buffers_ c);
  w_keyq : exists q, RingBuffer.abs 16 q (keyid_buffer_ c);
  w_ports : ports_wf (ports_ c);
  w_cmd : ring_live 128 (cmd_ring_ c);
  w_dcbaa : (256 <= length (device_context_base_array_ c))%nat;
  w_reqs : map_Forall (fun _ p => 0 <= p < 256) (slot_request_for_port_ c);
  w_event : on_opt event_ring_wf (primary_event_ring_ c);
  w_max : 0 <= max_ports_ (params_ c) < 256;
  w_noreset : controller_reset_requested_ (params_ c) = false;
}.

(** *** Basic updates *)

Lemma wf_io i c : wf c -> wf (set_io i c).
Proof. intros []. by split. Qed.
Lemma wf_cmd r c : wf c -> ring_live 128 r -> wf (set_cmd_ring r c).
Proof. intros [] ?. by split. Qed.
Lemma wf_dcbaa a c : wf c -> (256 <= length a)%nat -> wf (set_dcbaa a c).
Proof. intros [] ?. by split. Qed.
Lemma wf_requests m c : wf c -> map_Forall (fun _ p => 0 <= p < 256) m -> wf (set_requests m c).
Proof. intros [] ?. by split. Qed.
Lemma wf_set_ports p c : wf c -> ports_wf p -> wf (set_ports p c).
Proof. intros [] ?. by split. Qed.
Lemma wf_event e c : wf c -> event_ring_wf e -> wf (set_event_ring e c).
Proof. intros [] ?. by split. Qed.
Lemma wf_set_keys b k c : wf c -> length b = 256%nat -> Forall (fun k => length k = 33%nat) b -> (exists q, RingBuffer.abs 16 q k) -> wf (set_keys b k c).
Proof. intros [] H1 H2 H3. split; assumption. Qed.
Lemma wf_put_slot slot s c :
  wf c -> slot_wf s -> (sl_state s = kWaitingForDeviceDescriptor -> exists pa, descriptor_buffers_ c !! Z.to_nat slot = Some (Some pa)) ->
  wf (put_slot slot s c).
Proof.
  intros [] Hs Hb. split; try done; cbn [put_slot set_slots slot_info_].
  - by rewrite length_insert.
  - by apply Forall_insert.
  - intros n t Ht Hst. cbn [put_slot set_slots slot_info_ descriptor_buffers_] in *.
    apply list_lookup_insert_Some in Ht as [(<- & <- & _)|[_ Ht]]; [by apply Hb|by apply (w_buf0 n t)].
Qed.
Lemma wf_put_quiet slot s c : wf c -> slot_wf s -> sl_state s <> kWaitingForDeviceDescriptor -> wf (put_slot slot s c).
Proof. intros Hw Hs Hn. apply wf_put_slot; [done|done|]. by intros E. Qed.
Lemma get_slot_wf slot c :
  wf c -> 0 <= slot < 256 -> exists s, get_slot slot c = Done s /\ slot_info_ c !! Z.to_nat slot = Some s /\ slot_wf s.
Proof.
  intros Hw Hs. destruct (get_at_ok (slot_info_ c) slot) as (s & E & El); [rewrite (w_slots c Hw); lia|].
  exists s. split; [done|]. split; [done|]. by apply (Forall_lookup_1 _ _ _ _ (w_slot c Hw) El).
Qed.
(** Replacing a slot by one in the same state. *)
Lemma wf_put_same slot s s' c :
  wf c -> slot_info_ c !! Z.to_nat slot = Some s -> slot_wf s' -> sl_state s' = sl_state s -> wf (put_slot slot s' c).
Proof. intros Hw El Hs E. apply wf_put_slot; [done|done|]. rewrite E. by apply (w_buf c Hw). Qed.

Lemma set_port_state_safe port x c : wf c -> 0 <= port < 256 -> safe wf (set_port_state port x c).
Proof.
  intros Hw Hp. pose proof (w_ports c Hw) as (H1 & H2 & H3). unfold set_port_state. rewrite set_at_ok by lia. cbn [rbind safe].
  apply wf_set_ports; [done|]. split; cbn; [by rewrite length_insert|done].
Qed.
Lemma solo_clear i l : solo l -> solo (<[i := false]> l).
Proof.
  intros H a b Ha Hb. apply list_lookup_insert_Some in Ha as [(_ & [=] & _)|[_ Ha]].
  apply list_lookup_insert_Some in Hb as [(_ & [=] & _)|[_ Hb]]. by apply H.
Qed.
Lemma solo_set i l : (forall j, l !! j <> Some true) -> solo (<[i := true]> l).
Proof.
  intros H a b Ha Hb. apply list_lookup_insert_Some in Ha as [(<- & _)|[_ Ha]]; [|by apply H in Ha].
  by apply list_lookup_insert_Some in Hb as [(<- & _)|[_ Hb]]; [|by apply H in Hb].
Qed.
Lemma clear_initializing_safe port c : wf c -> 0 <= port < 256 -> safe wf (set_initializing port false c).
Proof.
  intros Hw Hp. pose proof (w_ports c Hw) as (H1 & H2 & H3). unfold set_initializing. rewrite set_at_ok by lia. cbn [rbind safe].
  apply wf_set_ports; [done|]. split_and!; cbn; [done|by rewrite length_insert|by apply solo_clear].
Qed.

(** *** Rings *)

Definition ring_at (n : nat) (r : tring) (p : nat) : Prop := ring_ok n (tr_ring r) p /\ paddr_ (tr_ring r) = tr_pa r.
Lemma ring_at_live n r p : ring_at n r p -> ring_live n r.
Proof. by exists p. Qed.
Lemma ring_live_mem n r : ring_live n r -> ring_mem n r.
Proof. intros (p & [] & _). done. Qed.
Lemma tr_enqueue_at n t r p : (0 < n)%nat -> ring_at n r p ->
  exists r', tr_enqueue n t r = Done r' /\ ring_at n r' (S p) /\ tr_pa r' = tr_pa r /\
    entry_ (tr_ring r') !! (p mod n)%nat = Some (set_cycle (cyc n p) t) /\
    forall j, (j < n)%nat -> j <> (p mod n)%nat -> entry_ (tr_ring r') !! j = entry_ (tr_ring r) !! j.
Proof.
  intros Hn [Hr Hp]. destruct (push_step n Hn _ p t Hr) as (q & E & Hq & Hpq & He & Hne).
  exists (TRing (tr_pa r) q). unfold tr_enqueue. rewrite E. cbn [rbind]. split; [done|]. split; [|by split].
  split; [done|]. cbn. by rewrite Hpq.
Qed.
Lemma tr_enqueue_live n t r : (0 < n)%nat -> ring_live n r ->
  exists r', tr_enqueue n t r = Done r' /\ ring_live n r' /\ tr_pa r' = tr_pa r.
Proof. intros Hn [p Hp]. destruct (tr_enqueue_at n t r p Hn Hp) as (r' & E & Hr & Hpa & _). exists r'. split; [done|]. split; [by exists (S p)|done]. Qed.
Lemma init_tring_at n r : (0 < n)%nat -> ring_mem n r -> exists r', init_tring n r = Done r' /\ ring_at n r' 0 /\ tr_pa r' = tr_pa r.
Proof.
  intros Hn Hm. destruct (Init_ok n Hn (tr_pa r) _ Hm) as (q & E & Hq & Hp). exists (TRing (tr_pa r) q).
  unfold init_tring. rewrite E. split; [done|]. by split.
Qed.
Lemma cmd_push_safe t c : wf c -> safe wf (cmd_push t c).
Proof.
  intros Hw. unfold cmd_push. destruct (tr_enqueue_live 128 t (cmd_ring_ c)) as (r & E & Hr & _); [lia|apply (w_cmd c Hw)|].
  unfold kNumOfCmdTRBRingEntries. rewrite E. cbn. by apply wf_io, wf_cmd.
Qed.

(** *** Slots *)

Lemma slot_wf_state x s : slot_wf s -> (addressed x = true -> live_opt 32 (ctrl_ep_tring s)) -> slot_wf (set_state x s).
Proof. intros [] H. by split. Qed.
Lemma slot_wf_port x s : slot_wf s -> 0 <= x < 256 -> slot_wf (set_port x s).
Proof. intros [] H. by split. Qed.
Lemma slot_wf_input x s : slot_wf s -> ictx_wf x -> slot_wf (set_input_ctx x s).
Proof. intros [] H. by split. Qed.
Lemma slot_wf_ctrl x s : slot_wf s -> ring_live 32 x -> slot_wf (set_ctrl x s).
Proof. intros [] H. split; try done. by apply ring_live_mem. Qed.
Lemma slot_wf_out x d s : slot_wf s -> ring_live 32 x -> slot_wf (set_data_out x d s).
Proof. intros [] H. split; try done. by apply ring_live_mem. Qed.
Lemma slot_wf_in x d s : slot_wf s -> ring_live 32 x -> slot_wf (set_data_in x d s).
Proof. intros [] H. split; try done. by apply ring_live_mem. Qed.
Lemma slot_wf_size x s : slot_wf s -> slot_wf (set_max_packet_size x s).
Proof. intros []. by split. Qed.
Lemma slot_wf_ident x s : slot_wf s -> slot_wf (set_ident x s).
Proof. intros []. by split. Qed.
Lemma slot_wf_event e s : slot_wf s -> slot_wf (push_event e s).
Proof.
  intros [? [q Hq] ? ? ? ? ?]. split; try done. eexists. apply RingBuffer.Push_abs, Hq.
Qed.
Lemma slot_wf_pop q s : slot_wf s -> (exists l, RingBuffer.abs 16 l q) -> slot_wf (set_queue q s).
Proof. intros [] H. by split. Qed.
Create HintDb xhci.
#[local] Hint Resolve slot_wf_state slot_wf_port slot_wf_input slot_wf_ctrl slot_wf_out slot_wf_in slot_wf_size slot_wf_ident slot_wf_event
  wf_io wf_cmd ring_at_live : xhci.

(** *** Contexts *)

Lemma dctx_wf_slot f i d : dctx_wf d -> dctx_wf (DevCtx (alter f i (slot_ctx_ d)) (endpoint_ctx_ d)).
Proof. intros (H1 & H2 & H3). split; cbn; [by rewrite length_alter|done]. Qed.
Lemma length_set_field hi lo i v ws : length (set_field hi lo i v ws) = length ws.
Proof. apply length_alter. Qed.
Lemma length_describe type pa size e : length (describe_endpoint type pa size e) = length e.
Proof.
  unfold describe_endpoint, SetMaxPacketSize, SetErrorCount, SetDequeueCycleState, SetTRDequeuePointer, SetEPType.
  by rewrite !length_set_field, length_insert, !length_set_field.
Qed.
Lemma dctx_wf_endpoint dci type pa size d : dctx_wf d -> safe dctx_wf (with_endpoint dci (describe_endpoint type pa size) d).
Proof.
  intros (H1 & H2 & H3). unfold with_endpoint. destruct ((1 <=? dci) && (dci <=? 31)); cbn [kassert rbind safe]; [|by right].
  split; [done|]. split; cbn; [by rewrite length_alter|]. apply list.Forall_alter; [done|]. intros e _ He. by rewrite length_describe.
Qed.
Lemma ictx_wf_clear x : ictx_wf x -> ictx_wf (Clear x).
Proof. by intros [_ H]. Qed.
Lemma ictx_wf_flags f i x : ictx_wf x -> ictx_wf (InCtx (alter f i (input_ctrl_ctx_ x)) (device_ctx_ x) (ictx_pa x)).
Proof. intros [H1 H2]. split; [cbn; by rewrite length_alter|done]. Qed.
Lemma ictx_wf_dev d x : ictx_wf x -> dctx_wf d -> ictx_wf (set_device_ctx d x).
Proof. by intros [H1 H2] H. Qed.
#[local] Hint Resolve dctx_wf_slot ictx_wf_clear ictx_wf_flags ictx_wf_dev : xhci.

(** ** Every operation keeps the state well formed *)

Section Safety.
Context (h : hw) (fuel : nat) (alloc_pa : nat -> Z) (null_pa fs : Z).

Lemma ResetPort_safe port c : wf c -> 0 <= port < 256 -> safe wf (ResetPort h fuel port c).
Proof.
  intros Hw Hp. unfold ResetPort. destruct (ReadPORTSC h port (io_ c)) as [v i].
  eapply safe_bind; [apply wait_safe|intros i1 _]. destruct (ReadPORTSC h port i1) as [v2 i2].
  eapply safe_bind; [apply wait_safe|intros i3 _].
  eapply safe_bind; [apply set_port_state_safe; auto with xhci|intros c1 Hc1]. by apply clear_initializing_safe.
Qed.
Lemma DisablePort_safe port c : wf c -> 0 <= port < 256 -> safe wf (DisablePort h fuel port c).
Proof. intros Hw Hp. apply ResetPort_safe; auto with xhci. Qed.
Lemma MarkSlotAsFailed_safe slot c : wf c -> 0 <= slot < 256 -> safe wf (MarkSlotAsFailed h fuel slot c).
Proof.
  intros Hw Hs. unfold MarkSlotAsFailed. destruct (get_slot_wf slot c Hw Hs) as (s & -> & El & Hsw). cbn [rbind].
  apply DisablePort_safe; [|apply (sw_port s Hsw)]. apply wf_put_quiet; [done|by apply slot_wf_state|done].
Qed.

(** The requests on the control ring of a slot that is set up. *)
Definition slot_live (slot : Z) (c : ctrl) : Prop :=
  0 <= slot < 256 /\ forall s, slot_info_ c !! Z.to_nat slot = Some s -> live_opt 32 (ctrl_ep_tring s).
Definition wf_live (slot : Z) (c : ctrl) : Prop := wf c /\ slot_live slot c.
Lemma ctrl_push_safe slot t c : wf_live slot c -> safe (wf_live slot) (ctrl_push slot t c).
Proof.
  intros [Hw [Hs Hl]]. unfold ctrl_push. destruct (get_slot_wf slot c Hw Hs) as (s & -> & El & Hsw). cbn [rbind].
  specialize (Hl s El). destruct (ctrl_ep_tring s) as [r|] eqn:Er; [|done]. cbn [bool_decide kassert rbind deref].
  destruct (tr_enqueue_live 32 t r) as (r' & E & Hr & _); [lia|done|]. unfold kNumOfCtrlEPRingEntries. rewrite E. cbn [rbind safe].
  split; [apply (wf_put_same slot s); [done|done|by apply slot_wf_ctrl|done]|]. split; [done|]. intros s' Hs'.
  cbn [put_slot set_slots slot_info_] in Hs'. rewrite list_lookup_insert_eq in Hs' by (by eapply lookup_lt_Some). injection Hs' as <-. done.
Qed.
Lemma ring_doorbell_safe slot dci c : wf c -> safe wf (ring_doorbell slot dci c).
Proof.
  intros Hw. unfold ring_doorbell, NotifyDeviceContextDoorbell. destruct (_ && _); cbn; [by apply wf_io|by right].
Qed.
Lemma buffer_pa_safe slot c : wf c -> 0 <= slot < 256 -> safe (fun _ => True) (buffer_pa null_pa slot c).
Proof.
  intros Hw Hs. unfold buffer_pa. destruct (get_at_ok (descriptor_buffers_ c) slot) as (b & -> & _); [|done]. rewrite (w_bufs c Hw). lia.
Qed.
(** Entering a state: the one that waits for the descriptor needs a buffer. *)
Lemma change_state_safe slot x c :
  wf_live slot c -> (x = kWaitingForDeviceDescriptor -> exists pa, descriptor_buffers_ c !! Z.to_nat slot = Some (Some pa)) ->
  safe wf (change_state slot x c).
Proof.
  intros [Hw [Hs Hl]] Hb. unfold change_state. destruct (get_slot_wf slot c Hw Hs) as (s & -> & El & Hsw). cbn [rbind safe].
  apply wf_put_slot; [done| |done]. apply slot_wf_state; [done|]. intros _. by apply Hl.
Qed.
Lemma request_descriptor_safe value slot c : wf_live slot c -> safe wf (request_descriptor null_pa value slot c).
Proof.
  intros Hw. unfold request_descriptor, PutDataStageTD. eapply safe_bind; [by apply ctrl_push_safe|intros c1 H1].
  eapply safe_bind; [apply buffer_pa_safe; [apply H1|apply H1]|intros pa _].
  eapply safe_bind; [by apply ctrl_push_safe|intros c2 H2]. eapply safe_bind; [by apply ctrl_push_safe|intros c3 H3].
  apply ring_doorbell_safe, H3.
Qed.
Lemma no_data_safe slot t1 t2 c :
  wf_live slot c -> safe wf (do c <- ctrl_push slot t1 c; do c <- ctrl_push slot t2 c; ring_doorbell slot 1 c).
Proof.
  intros Hw. eapply safe_bind; [by apply ctrl_push_safe|intros c1 H1]. eapply safe_bind; [by apply ctrl_push_safe|intros c2 H2].
  apply ring_doorbell_safe, H2.
Qed.
(** What [ctrl_push] leaves alone. *)
Lemma ctrl_push_buffers slot t c c' : ctrl_push slot t c = Done c' -> descriptor_buffers_ c' = descriptor_buffers_ c.
Proof. unfold ctrl_push. intros E. rinv. done. Qed.
Lemma RequestDeviceDescriptor_safe slot x pa c :
  wf_live slot c -> descriptor_buffers_ c !! Z.to_nat slot = Some (Some pa) -> safe wf (RequestDeviceDescriptor null_pa slot x c).
Proof.
  intros Hw Hb. unfold RequestDeviceDescriptor, PutDataStageTD.
  set (P := fun c => wf_live slot c /\ descriptor_buffers_ c !! Z.to_nat slot = Some (Some pa)).
  assert (forall t c, P c -> safe P (ctrl_push slot t c)) as Hpush.
  { intros t c0 [H1 H2]. pose proof (ctrl_push_safe slot t c0 H1) as H. destruct (ctrl_push slot t c0) as [c1|] eqn:E; [|done].
    split; [done|]. by rewrite (ctrl_push_buffers _ _ _ _ E). }
  eapply safe_bind; [by apply Hpush|intros c1 H1]. eapply safe_bind; [apply buffer_pa_safe; apply H1|intros p _].
  eapply safe_bind; [by apply Hpush|intros c2 H2]. eapply safe_bind; [by apply Hpush|intros c3 H3].
  eapply safe_bind; [apply change_state_safe; [apply H3|intros _; exists pa; apply H3]|intros c4 H4]. by apply ring_doorbell_safe.
Qed.

Lemma safe_present {A B} (o : option A) (Q : B -> Prop) (k : A -> res B) :
  (forall a, o = Some a -> safe Q (k a)) -> safe Q (run kassert (bool_decide (is_Some o)); do a <- deref o; k a).
Proof. destruct o as [a|]; cbn; [auto|by right]. Qed.
Lemma SendAddressDeviceCommand_safe slot c :
  wf c -> 0 <= slot < 256 -> safe wf (SendAddressDeviceCommand h fuel slot c).
Proof.
  intros Hw Hs. unfold SendAddressDeviceCommand. destruct (get_slot_wf slot c Hw Hs) as (s & -> & El & Hsw). cbn [rbind].
  apply safe_present. intros ctx Ec. apply safe_present. intros r Er.
  assert (ring_mem 32 r) as Hm by (pose proof (sw_ctrl s Hsw) as H; by rewrite Er in H).
  destruct (init_tring_at 32 r) as (r1 & E & Hr1 & Hpa); [lia|done|]. unfold kNumOfCtrlEPRingEntries. rewrite E. cbn [rbind].
  destruct (ReadPORTSC h (sl_port s) (io_ c)) as [v i]. set (d := SetPortSpeed _ _). set (ctx1 := SetAddContext _ _ _).
  assert (ictx_wf ctx) as Hctx by (pose proof (sw_input s Hsw) as H; by rewrite Ec in H).
  assert (ictx_wf ctx1) as Hctx1 by (unfold ctx1, SetAddContext; auto with xhci).
  assert (dctx_wf d) as Hd by (unfold d; unfold SetPortSpeed, SetContextEntries, SetRootHubPortNumber; repeat apply dctx_wf_slot; apply Hctx1).
  assert (ring_live 32 r1) as Hl1 by (by eapply ring_at_live).
  destruct (negb _).
  - apply DisablePort_safe; [|apply (sw_port s Hsw)]. apply (wf_put_same slot s); [by apply wf_io|done| |done].
    apply slot_wf_input; auto with xhci.
  - eapply (safe_bind (fun _ => True)); [unfold GetMaxPacketSizeFromPORTSCPortSpeed; repeat destruct (_ || _); repeat destruct (_ =? _); cbn; auto|].
    intros size _. eapply safe_bind; [by apply dctx_wf_endpoint|intros d1 Hd1]. apply safe_present. intros out _.
    set (s1 := set_max_packet_size _ _). assert (slot_wf s1) as Hs1 by (unfold s1; auto with xhci).
    rewrite set_at_ok by (pose proof (w_dcbaa c Hw); cbn; lia). cbn [rbind].
    eapply safe_bind; [apply cmd_push_safe, wf_dcbaa; [apply (wf_put_same slot s); [by apply wf_io|done|done|done]|]|].
    { rewrite length_insert. apply (w_dcbaa c Hw). }
    intros c2 H2. apply wf_put_quiet; [done| |done]. apply slot_wf_state; done.
Qed.
Lemma SendConfigureEndpointCommand_safe slot c : wf c -> 0 <= slot < 256 -> safe wf (SendConfigureEndpointCommand slot c).
Proof.
  intros Hw Hs. unfold SendConfigureEndpointCommand. destruct (get_slot_wf slot c Hw Hs) as (s & -> & El & Hsw). cbn [rbind].
  apply safe_present. intros ctx _. unfold SetConfigureEndpointCommandTRB. destruct (Z.land _ _ =? 0); cbn [kassert rbind safe]; [|by right].
  by apply cmd_push_safe.
Qed.
Lemma ConfigureEndpointBulkInOut_safe slot a b x y c :
  wf c -> 0 <= slot < 256 -> safe wf (ConfigureEndpointBulkInOut slot a b x y c).
Proof.
  intros Hw Hs. unfold ConfigureEndpointBulkInOut. destruct (get_slot_wf slot c Hw Hs) as (s & -> & El & Hsw). cbn [rbind].
  apply safe_present. intros ctx Ec. set (d := SetContextEntries _ _). set (ctx1 := SetAddContext x true _).
  assert (ictx_wf ctx) as Hctx by (pose proof (sw_input s Hsw) as H; by rewrite Ec in H).
  assert (ictx_wf ctx1) as Hctx1 by (unfold ctx1, SetAddContext, SetDropContext; auto with xhci).
  assert (dctx_wf d) as Hd by (unfold d; unfold SetContextEntries, SetRootHubPortNumber; repeat apply dctx_wf_slot; apply Hctx1).
  apply safe_present. intros r Er.
  assert (ring_mem 32 r) as Hm by (pose proof (sw_out s Hsw) as H; by rewrite Er in H).
  destruct (init_tring_at 32 r) as (r1 & E & Hr1 & Hpa); [lia|done|]. unfold kNumOfDataEPRingEntries. rewrite E. cbn [rbind].
  eapply safe_bind; [by apply dctx_wf_endpoint|intros d1 Hd1]. cbn [data_in_ep_tring set_data_out]. apply safe_present. intros r2 Er2.
  assert (ring_mem 32 r2) as Hm2 by (pose proof (sw_in s Hsw) as H; by rewrite Er2 in H).
  destruct (init_tring_at 32 r2) as (r3 & E3 & Hr3 & _); [lia|done|]. rewrite E3. cbn [rbind].
  eapply safe_bind; [by apply dctx_wf_endpoint|intros d2 Hd2]. apply SendConfigureEndpointCommand_safe; [|done].
  apply (wf_put_same slot s); [done|done| |done]. apply slot_wf_input; [|apply ictx_wf_dev; [unfold SetAddContext, SetDropContext; auto with xhci|done]].
  apply slot_wf_in; [|by eapply ring_at_live]. apply slot_wf_out; [done|by eapply ring_at_live].
Qed.

(** Bulk transfers, on a ring that was configured. *)
Lemma WriteBulkData_safe slot buf size c :
  wf c -> 0 <= slot < 256 -> (forall s, slot_info_ c !! Z.to_nat slot = Some s -> on_opt (ring_live 32) (data_out_ep_tring s)) ->
  safe wf (WriteBulkData slot buf size c).
Proof.
  intros Hw Hs Hl. unfold WriteBulkData. destruct (get_slot_wf slot c Hw Hs) as (s & -> & El & Hsw). cbn [rbind].
  apply safe_present. intros r Er. specialize (Hl s El). rewrite Er in Hl.
  destruct (tr_enqueue_live 32 (data_stage_trb buf (u16 size) false) r) as (r1 & E & Hr & _); [lia|done|].
  unfold kNumOfDataEPRingEntries. rewrite E. cbn [rbind]. apply ring_doorbell_safe, (wf_put_same slot s); [done|done|by apply slot_wf_out|done].
Qed.

(** *** Events *)

Lemma HandleTransferEvent_safe e c : wf c -> safe wf (HandleTransferEvent h e c).
Proof.
  intros Hw. unfold HandleTransferEvent. pose proof (u8_range (GetBits 31 24 (trb_control e))) as Hs. fold (GetSlotID e) in Hs.
  destruct (get_slot_wf (GetSlotID e) c Hw Hs) as (s & -> & El & Hsw). cbn [rbind].
  destruct (_ && _).
  { destruct (decide _) as [Ha|_]; [|exact Hw]. apply (wf_put_same _ s); [done|done|by apply slot_wf_event|done]. }
  destruct (sl_state s) eqn:Est; cbv beta iota zeta; lazymatch goal with |- safe wf (Done c) => exact Hw | _ => idtac end.
  - destruct (w_buf c Hw _ _ El Est) as [pa Hpa]. rewrite (get_at_lookup _ _ (Some pa)) by (done || lia). cbn [rbind deref].
    apply clear_initializing_safe; [|apply (sw_port s Hsw)]. apply wf_put_quiet; [done| |done].
    apply slot_wf_state; [by apply slot_wf_ident|]. intros _. apply (sw_live s Hsw). by rewrite Est.
  - apply (wf_put_same _ s); [done|done|by apply slot_wf_event|done].
Qed.
Lemma enable_slot_for_safe port c : wf c -> 0 <= port < 256 -> safe wf (enable_slot_for port c).
Proof.
  intros Hw Hp. unfold enable_slot_for. eapply safe_bind; [by apply set_port_state_safe|intros c1 H1].
  apply cmd_push_safe, wf_requests; [done|]. destruct (slot_request_for_port_ c1 !! _); [apply (w_reqs c1 H1)|].
  apply map_Forall_insert_2; [done|apply (w_reqs c1 H1)].
Qed.
Lemma begin_init_safe port c :
  wf c -> 0 <= port < 256 -> (forall j, port_is_initializing_ (ports_ c) !! j <> Some true) -> safe wf (begin_init h fs port c).
Proof.
  intros Hw Hp Hn. unfold begin_init. pose proof (w_ports c Hw) as (H1 & H2 & H3).
  unfold set_port_state. rewrite set_at_ok by lia. cbn [rbind]. unfold set_initializing. cbn [set_ports ports_ port_is_initializing_].
  rewrite set_at_ok by lia. cbn. destruct Hw. split; try done. split_and!; cbn; [by rewrite length_insert|by rewrite length_insert|by apply solo_set].
Qed.
Lemma find_range {A} (P : A -> Prop) `{!forall x, Decision (P x)} (l : list A) i x :
  list_find P l = Some (i, x) -> length l = 256%nat -> 0 <= Z.of_nat i < 256.
Proof. intros Hf L. apply list_find_Some in Hf as (Hf & _). apply lookup_lt_Some in Hf. lia. Qed.
(** Resetting a port starts no other initialisation. *)
Lemma ResetPort_quiet port c c' :
  ResetPort h fuel port c = Done c' -> (forall j, port_is_initializing_ (ports_ c) !! j <> Some true) ->
  forall j, port_is_initializing_ (ports_ c') !! j <> Some true.
Proof.
  unfold ResetPort. intros E Hn. destruct (ReadPORTSC h port (io_ c)) as [v i]. rinv. destruct (ReadPORTSC h port _) as [v2 i2]. rinv.
  unfold set_port_state, set_initializing, set_at in *. rinv. cbn. intros j Hj.
  apply list_lookup_insert_Some in Hj as [(_ & [=] & _)|[_ Hj]]. by apply (Hn j).
Qed.
Lemma none_initializing c :
  list_find (eq true) (port_is_initializing_ (ports_ c)) = None -> forall j, port_is_initializing_ (ports_ c) !! j <> Some true.
Proof. intros H j Hj. apply list_find_None in H. by apply (Forall_lookup_1 _ _ _ _ H Hj). Qed.
Lemma CheckPort_safe c : wf c -> safe wf (CheckPortAndInitiateProcess h fuel fs c).
Proof.
  intros Hw. pose proof (w_ports c Hw) as (H1 & H2 & H3). unfold CheckPortAndInitiateProcess.
  destruct (list_find (eq kNeedsSlotAssignment) _) as [[i x]|] eqn:E1; [apply enable_slot_for_safe; [done|by eapply find_range]|].
  destruct (list_find (eq true) _) as [[i x]|] eqn:E2.
  - destruct (read_reg h HpetCounter (io_ c)) as [t i1]. destruct (_ <? t); [|by apply wf_io].
    apply DisablePort_safe; [by apply wf_io|by eapply find_range].
  - destruct (list_find (fun x => x = kAttachedUSB2 \/ x = kAttachedUSB3) _) as [[i x]|] eqn:E3; [|exact Hw]. pose proof (find_range _ _ _ _ E3 H1) as Hi. pose proof (none_initializing c E2) as Hn.
    destruct (decide (x = kAttachedUSB2)); [|by apply begin_init_safe]. cbn [rbind].
    pose proof (ResetPort_safe (Z.of_nat i) c Hw Hi) as HR. pose proof (ResetPort_quiet (Z.of_nat i) c) as HQ.
    destruct (ResetPort h fuel (Z.of_nat i) c) as [c1|]; [|done]. apply begin_init_safe; [done|done|by apply HQ].
Qed.
Lemma HandleEnableSlot_safe e c : wf c -> safe wf (HandleEnableSlotCommandCompletion h fuel e c).
Proof.
  intros Hw. unfold HandleEnableSlotCommandCompletion. destruct (slot_request_for_port_ c !! trb_data e) as [port|] eqn:Em; [|done].
  pose proof (w_reqs c Hw _ _ Em) as Hp. set (c1 := set_requests _ c).
  assert (wf c1) as H1 by (apply wf_requests; [done|by apply map_Forall_delete, (w_reqs c Hw)]).
  destruct (negb _); [by apply DisablePort_safe|]. eapply safe_bind; [by apply set_port_state_safe|intros c2 H2].
  pose proof (u8_range (GetBits 31 24 (trb_control e))) as Hs. fold (GetSlotID e) in Hs.
  destruct (get_slot_wf (GetSlotID e) c2 H2 Hs) as (s & -> & El & Hsw). cbn [rbind].
  apply SendAddressDeviceCommand_safe; [|done]. apply (wf_put_same _ s); [done|done|by apply slot_wf_port|done].
Qed.
(** An Address Device completion names a slot with a control ring. *)
Lemma HandleAddressDevice_safe e c :
  wf c -> (IsCompletedWithSuccess e = true -> slot_live (GetSlotID e) c) -> safe wf (HandleAddressDeviceCommandCompletion h fuel alloc_pa null_pa e c).
Proof.
  intros Hw Hl. unfold HandleAddressDeviceCommandCompletion.
  pose proof (u8_range (GetBits 31 24 (trb_control e))) as Hs. fold (GetSlotID e) in Hs.
  destruct (IsCompletedWithSuccess e); cbn [negb]; [|by apply MarkSlotAsFailed_safe]. specialize (Hl eq_refl).
  unfold AllocMemoryForMappedIO. set (c1 := set_io _ c). assert (wf c1) as H1 by (by apply wf_io). pose proof (w_bufs c1 H1) as Hb.
  rewrite set_at_ok by lia. cbn [rbind]. set (pa := alloc_pa _).
  apply (RequestDeviceDescriptor_safe _ _ pa); [|cbn; by apply list_lookup_insert_eq; rewrite (w_bufs c Hw); lia]. split; [|exact Hl].
  destruct H1. split; try done; cbn; [by rewrite length_insert|]. intros n s Hn Hst. cbn in *.
  destruct (w_buf0 n s Hn Hst) as [q Hq]. destruct (decide (n = Z.to_nat (GetSlotID e))) as [->|Hne].
  - exists pa. apply list_lookup_insert_eq. rewrite (w_bufs c Hw). lia.
  - exists q. by rewrite list_lookup_insert_ne.
Qed.

(** What the port operations change: ports and register accesses. *)
Lemma ResetPort_inv port c c' : ResetPort h fuel port c = Done c' -> exists i p, c' = set_ports p (set_io i c).
Proof.
  unfold ResetPort. intros E. destruct (ReadPORTSC h port (io_ c)) as [v i]. rinv. destruct (ReadPORTSC h port _) as [v2 i2]. rinv.
  unfold set_port_state, set_initializing in *. rinv. do 2 eexists. reflexivity.
Qed.
Lemma begin_init_inv port c c' : begin_init h fs port c = Done c' -> exists i p, c' = set_ports p (set_io i c).
Proof. unfold begin_init, set_port_state, set_initializing, read_reg. intros E. rinv. do 2 eexists. reflexivity. Qed.
Lemma enable_slot_inv port c c' :
  enable_slot_for port c = Done c' ->
  exists i p m r, c' = set_io i (set_cmd_ring r (set_requests m (set_ports p c))) /\
    tr_enqueue 128 (TRB 0 0 (Z.shiftl kTRBTypeEnableSlotCommand 10)) (cmd_ring_ c) = Done r.
Proof. unfold enable_slot_for, set_port_state, cmd_push. intros E. rinv. do 4 eexists. split; [reflexivity|done]. Qed.
(** The slots, and the address commands in the command ring. *)
Record keeps (c c' : ctrl) : Prop := Keeps {
  kp_slots : slot_info_ c' = slot_info_ c;
  kp_event : primary_event_ring_ c' = primary_event_ring_ c;
  kp_paddr : paddr_ (tr_ring (cmd_ring_ c')) = paddr_ (tr_ring (cmd_ring_ c));
  kp_cmds : forall j t, (j < 128)%nat -> entry_ (tr_ring (cmd_ring_ c')) !! j = Some t -> GetTRBType t = kTRBTypeAddressDeviceCommand ->
    entry_ (tr_ring (cmd_ring_ c)) !! j = Some t;
}.
Lemma CheckPort_keeps c c' : wf c -> CheckPortAndInitiateProcess h fuel fs c = Done c' -> keeps c c'.
Proof.
  intros Hw. unfold CheckPortAndInitiateProcess. destruct (list_find (eq kNeedsSlotAssignment) _) as [[i x]|].
  - intros E. apply enable_slot_inv in E as (i1 & p & m & r & -> & E). destruct (w_cmd c Hw) as [k Hk].
    destruct (tr_enqueue_at 128 (TRB 0 0 (Z.shiftl kTRBTypeEnableSlotCommand 10)) (cmd_ring_ c) k) as (r' & E' & [_ Hp] & Hpa & He & Hne); [lia|done|].
    rewrite E' in E. injection E as <-. split; try done; cbn [set_io set_cmd_ring cmd_ring_].
    + rewrite Hp, Hpa. symmetry. apply Hk.
    + intros j t Hj Ht Hty. destruct (decide (j = (k mod 128)%nat)) as [->|Hj']; [|by rewrite <- Hne].
      rewrite He in Ht. injection Ht as <-. rewrite type_set_cycle in Hty by (apply cyc_bit; lia). discriminate Hty.
  - destruct (list_find (eq true) _) as [[i x]|].
    + destruct (read_reg h HpetCounter (io_ c)) as [t i1]. destruct (_ <? t); [|intros [= <-]; by split].
      intros E. apply ResetPort_inv in E as (i2 & p & ->). by split.
    + destruct (list_find (fun x => x = kAttachedUSB2 \/ x = kAttachedUSB3) _) as [[i x]|]; [|intros [= <-]; by split].
      destruct (decide _); intros E; rinv.
      * apply ResetPort_inv in H as (i2 & p2 & ->). apply begin_init_inv in H0 as (i3 & p3 & ->). by split.
      * apply begin_init_inv in H0 as (i3 & p3 & ->). by split.
Qed.

(** The completion of an Address Device command names a slot with a control ring. *)
Definition names_live_slot (c : ctrl) : Prop := forall er idx t,
  primary_event_ring_ c = Some er -> let e := hw_event h (index_ er) in
  IsCompletedWithSuccess e = true -> GetEntryFromPhysAddr 128 (trb_data e) (tr_ring (cmd_ring_ c)) = Done idx ->
  entry_ (tr_ring (cmd_ring_ c)) !! Z.to_nat idx = Some t -> GetTRBType t = kTRBTypeAddressDeviceCommand -> slot_live (GetSlotID e) c.
Lemma entry_index_range p r idx : GetEntryFromPhysAddr 128 p r = Done idx -> 0 <= idx < 128.
Proof.
  unfold GetEntryFromPhysAddr. intros E. rinv. unfold kassert in *. destruct (_ <? _) eqn:Hlt; [|done].
  pose proof (u64_range (p - paddr_ r)). apply Z.ltb_lt in Hlt. zdiv.
Qed.
Lemma names_live_keeps c c' : keeps c c' -> names_live_slot c -> names_live_slot c'.
Proof.
  intros [Hs He Hp Hc] H er idx t Her e Hok Hidx Ht Hty. rewrite He in Her. pose proof (entry_index_range _ _ _ Hidx) as Hr.
  unfold slot_live. rewrite Hs. apply (H er idx t Her Hok); [|apply Hc; [lia|done|done]|done].
  unfold GetEntryFromPhysAddr in *. by rewrite <- Hp.
Qed.
Lemma HandleEvent_safe er c :
  wf c -> names_live_slot c -> primary_event_ring_ c = Some er -> safe wf (HandleEvent h fuel alloc_pa null_pa (hw_event h (index_ er)) c).
Proof.
  intros Hw Hl Her. unfold HandleEvent. set (e := hw_event h (index_ er)). pose proof (u8_range (GetBits 31 24 (trb_control e))) as Hs. fold (GetSlotID e) in Hs.
  destruct (GetTRBType e =? kTRBTypeCommandCompletionEvent).
  - unfold HandleCommandCompletion. destruct (GetEntryFromPhysAddr _ _ _) as [idx|st] eqn:Ei.
    2:{ unfold GetEntryFromPhysAddr, kassert in Ei. right. destruct (_ =? 0) in Ei; cbn [rbind] in Ei; [destruct (_ <? _) in Ei|]; cbn [rbind] in Ei; congruence. }
    pose proof (entry_index_range _ _ _ Ei) as Hi. destruct (w_cmd c Hw) as (k & [Hlen _ _ _ _] & _). cbn [rbind].
    destruct (get_at_ok (entry_ (tr_ring (cmd_ring_ c))) idx) as (t & -> & Ht); [rewrite Hlen; lia|]. cbn [rbind].
    destruct (GetTRBType t =? kTRBTypeEnableSlotCommand); [by apply HandleEnableSlot_safe|].
    destruct (Z.eqb_spec (GetTRBType t) kTRBTypeAddressDeviceCommand) as [Ety|_].
    { apply HandleAddressDevice_safe; [done|]. intros Hok. by apply (Hl er idx t). }
    destruct (GetTRBType t =? kTRBTypeConfigureEndpointCommand); [|by apply MarkSlotAsFailed_safe].
    unfold HandleConfigureEndpointCommandCompletion. destruct (get_slot_wf (GetSlotID e) c Hw Hs) as (s & -> & El & Hsw). cbn [rbind safe].
    apply (wf_put_same _ s); [done|done|by apply slot_wf_event|done].
  - destruct (GetTRBType e =? kTRBTypePortStatusChangeEvent); [exact Hw|].
    destruct (GetTRBType e =? kTRBTypeTransferEvent); [by apply HandleTransferEvent_safe|exact Hw].
Qed.

(** Handlers leave the event ring to the poll, and the parameters to [Init]. *)
Definition static (c : ctrl) : option EventRing * params := (primary_event_ring_ c, params_ c).
Lemma ResetPort_static port c c' : ResetPort h fuel port c = Done c' -> static c' = static c.
Proof. intros E. by apply ResetPort_inv in E as (i & p & ->). Qed.
Lemma DisablePort_static port c c' : DisablePort h fuel port c = Done c' -> static c' = static c.
Proof. intros E. by apply ResetPort_static in E. Qed.
Lemma MarkSlotAsFailed_static slot c c' : MarkSlotAsFailed h fuel slot c = Done c' -> static c' = static c.
Proof. unfold MarkSlotAsFailed. intros E. rinv. by apply DisablePort_static in H0. Qed.
Lemma cmd_push_static t c c' : cmd_push t c = Done c' -> static c' = static c.
Proof. unfold cmd_push. intros E. by rinv. Qed.
Lemma ctrl_push_static slot t c c' : ctrl_push slot t c = Done c' -> static c' = static c.
Proof. unfold ctrl_push. intros E. by rinv. Qed.
Lemma change_state_static slot x c c' : change_state slot x c = Done c' -> static c' = static c.
Proof. unfold change_state. intros E. by rinv. Qed.
Lemma doorbell_static slot d c c' : ring_doorbell slot d c = Done c' -> static c' = static c.
Proof. unfold ring_doorbell. intros E. by rinv. Qed.
Lemma port_state_static port x c c' : set_port_state port x c = Done c' -> static c' = static c.
Proof. unfold set_port_state. intros E. by rinv. Qed.
Lemma initializing_static port x c c' : set_initializing port x c = Done c' -> static c' = static c.
Proof. unfold set_initializing. intros E. by rinv. Qed.
Ltac static := repeat match goal with
  | H : DisablePort _ _ _ _ = Done _ |- _ => apply DisablePort_static in H
  | H : MarkSlotAsFailed _ _ _ _ = Done _ |- _ => apply MarkSlotAsFailed_static in H
  | H : cmd_push _ _ = Done _ |- _ => apply cmd_push_static in H
  | H : ctrl_push _ _ _ = Done _ |- _ => apply ctrl_push_static in H
  | H : change_state _ _ _ = Done _ |- _ => apply change_state_static in H
  | H : ring_doorbell _ _ _ = Done _ |- _ => apply doorbell_static in H
  | H : set_port_state _ _ _ = Done _ |- _ => apply port_state_static in H
  | H : set_initializing _ _ _ = Done _ |- _ => apply initializing_static in H
  end; unfold static in *; cbn in *; congruence.
Lemma SendAddressDevice_static slot c c' : SendAddressDeviceCommand h fuel slot c = Done c' -> static c' = static c.
Proof.
  unfold SendAddressDeviceCommand. intros E. rinv. destruct (ReadPORTSC _ _ _). rcase; [static|]. rinv. static.
Qed.
Lemma RequestDeviceDescriptor_static slot x c c' : RequestDeviceDescriptor null_pa slot x c = Done c' -> static c' = static c.
Proof. unfold RequestDeviceDescriptor, PutDataStageTD. intros E. rinv. static. Qed.
Lemma HandleTransferEvent_static e c c' : HandleTransferEvent h e c = Done c' -> static c' = static c.
Proof.
  unfold HandleTransferEvent. intros E. rinv. rcase; [rcase; by rinv|].
  destruct (sl_state x); rinv; try done. static.
Qed.
Lemma Done_inj {A} (a b : A) : Done a = Done b -> a = b.
Proof. congruence. Qed.
Lemma HandleEvent_static e c c' : HandleEvent h fuel alloc_pa null_pa e c = Done c' -> static c' = static c.
Proof.
  unfold HandleEvent. destruct (_ =? kTRBTypeCommandCompletionEvent).
  2:{ destruct (_ =? kTRBTypePortStatusChangeEvent); [intros E; by rinv|]. destruct (_ =? kTRBTypeTransferEvent); [apply HandleTransferEvent_static|intros E; by rinv]. }
  unfold HandleCommandCompletion. intros E. rinv. destruct (_ =? kTRBTypeEnableSlotCommand).
  { unfold HandleEnableSlotCommandCompletion in H1. destruct (_ !! _); [|by rinv]. rcase; [static|]. rinv.
    match goal with H : SendAddressDeviceCommand _ _ _ _ = _ |- _ => apply SendAddressDevice_static in H end. static. }
  destruct (_ =? kTRBTypeAddressDeviceCommand).
  { unfold HandleAddressDeviceCommandCompletion, AllocMemoryForMappedIO in H1. rcase; [static|]. rinv.
    match goal with H : RequestDeviceDescriptor _ _ _ _ = _ |- _ => by apply RequestDeviceDescriptor_static in H end. }
  destruct (_ =? kTRBTypeConfigureEndpointCommand); [|static]. unfold HandleConfigureEndpointCommandCompletion in H1.
  apply rbind_Done in H1 as (s & _ & E1). apply Done_inj in E1. rewrite <- E1. reflexivity.
Qed.

Lemma poll_event_ring_safe c : wf c -> names_live_slot c -> is_Some (primary_event_ring_ c) ->
  safe (fun c' => wf c' /\ params_ c' = params_ c) (poll_event_ring h fuel alloc_pa null_pa c).
Proof.
  intros Hw Hl [er Her]. unfold poll_event_ring. rewrite Her. cbn [deref rbind]. destruct (HasNextEvent h er) eqn:Hn; [|done].
  unfold PeekEvent. rewrite Hn. cbn [kassert rbind]. pose proof (HandleEvent_safe er c Hw Hl Her) as HS.
  destruct (HandleEvent _ _ _ _ _ _) as [c1|st] eqn:E; [|done]. cbn [rbind safe] in *. apply HandleEvent_static in E. unfold static in E. injection E as E1 E2.
  rewrite E1, Her. cbn [deref rbind]. unfold PopEvent. rewrite Hn. cbn [kassert rbind safe]. split; [|exact E2]. apply wf_event; [by apply wf_io|].
  pose proof (w_event c Hw) as He. rewrite Her in He. destruct He as [Hi Hc]. destruct (Nat.eqb_spec (S (index_ er)) (num_of_trb_ er)); split; cbn; try lia; [|done].
  destruct Hc as [-> | ->]; cbn; [by right|by left].
Qed.
Lemma poll_port_safe port c : wf c -> 0 <= port < 256 -> safe wf (poll_port h fuel port c).
Proof.
  intros Hw Hp. unfold poll_port. destruct (ReadPORTSC h port (io_ c)) as [v i]. pose proof (w_ports c Hw) as (H1 & H2 & H3).
  unfold get_port_state. cbn [set_io ports_]. destruct (get_at_ok (port_state_ (ports_ c)) port) as (st & -> & _); [lia|]. cbn [rbind].
  destruct (negb _).
  { destruct (decide _); [by apply wf_io|]. eapply safe_bind; [apply DisablePort_safe; [by apply wf_io|done]|intros c1 Hc1].
    eapply safe_bind; [by apply set_port_state_safe|intros c2 Hc2]. by apply wf_io. }
  destruct (decide _); [apply set_port_state_safe; [by apply wf_io, wf_io|done]|]. destruct (decide _); [|by apply wf_io].
  destruct (has v kPortSCBitPortReset); [by apply wf_io|]. destruct (ReadPORTSCLinkState h port _) as [link i2].
  destruct (_ && _); [apply set_port_state_safe; [by apply wf_io, wf_io|done]|].
  destruct (_ && _); [apply set_port_state_safe; [by apply wf_io, wf_io|done]|by apply wf_io, wf_io].
Qed.
Lemma poll_ports_safe n port c : wf c -> 0 <= port -> port + Z.of_nat n <= 256 -> safe wf (poll_ports h fuel n port c).
Proof.
  revert port c. induction n as [|n IH]; intros port c Hw H0 H1; [done|]. cbn [poll_ports].
  eapply safe_bind; [apply poll_port_safe; [done|lia]|]. intros c1 Hc1. apply IH; [done|lia|lia].
Qed.
End Safety.

(** ** No port is started by a handler *)

(** The parameters stay, and no port starts its initialisation. *)
Definition calm (c c' : ctrl) : Prop :=
  params_ c' = params_ c /\ forall p, port_is_initializing_ (ports_ c') !! p = Some true -> port_is_initializing_ (ports_ c) !! p = Some true.
#[global] Instance calm_preorder : PreOrder calm.
Proof. split; [by intros c|]. intros a b c [E1 H1] [E2 H2]. split; [congruence|]. intros p Hp. by apply H1, H2. Qed.
Lemma calm_same c c' : params_ c' = params_ c -> port_is_initializing_ (ports_ c') = port_is_initializing_ (ports_ c) -> calm c c'.
Proof. intros E1 E2. split; [done|]. by rewrite E2. Qed.
Lemma calm_put slot s c : calm c (put_slot slot s c).
Proof. by apply calm_same. Qed.
Lemma set_port_state_calm port x c c' : set_port_state port x c = Done c' -> calm c c'.
Proof. unfold set_port_state. intros E. rinv. by apply calm_same. Qed.
Lemma set_initializing_calm port c c' : set_initializing port false c = Done c' -> calm c c'.
Proof.
  unfold set_initializing, set_at. intros E. rinv. split; [done|]. cbn. intros p Hp. by apply list_lookup_insert_Some in Hp as [(_ & [=] & _)|[_ Hp]].
Qed.
Lemma cmd_push_calm t c c' : cmd_push t c = Done c' -> calm c c'.
Proof. unfold cmd_push. intros E. rinv. by apply calm_same. Qed.
Lemma ctrl_push_calm slot t c c' : ctrl_push slot t c = Done c' -> calm c c'.
Proof. unfold ctrl_push. intros E. rinv. by apply calm_same. Qed.
Lemma change_state_calm slot x c c' : change_state slot x c = Done c' -> calm c c'.
Proof. unfold change_state. intros E. rinv. by apply calm_same. Qed.
Lemma ring_doorbell_calm slot d c c' : ring_doorbell slot d c = Done c' -> calm c c'.
Proof. unfold ring_doorbell. intros E. rinv. by apply calm_same. Qed.
Create HintDb calm.
#[export] Hint Resolve set_port_state_calm set_initializing_calm cmd_push_calm ctrl_push_calm change_state_calm ring_doorbell_calm : calm.
(** Along the steps of a computation. *)
Ltac calm := repeat match goal with
  | |- calm ?c ?c => reflexivity
  | H : _ = Done ?c' |- calm _ ?c' => etransitivity; [|solve [eauto with calm nocore]]; clear H
  | |- calm _ _ => solve [apply calm_same; reflexivity]
  end.
Lemma ResetPort_calm h fuel port c c' : ResetPort h fuel port c = Done c' -> calm c c'.
Proof. unfold ResetPort. intros E. destruct (ReadPORTSC _ _ _). rinv. destruct (ReadPORTSC _ _ _). rinv. calm. Qed.
#[export] Hint Resolve ResetPort_calm : calm.
Lemma DisablePort_calm h fuel port c c' : DisablePort h fuel port c = Done c' -> calm c c'.
Proof. unfold DisablePort. intros E. calm. Qed.
#[export] Hint Resolve DisablePort_calm : calm.
Lemma MarkSlotAsFailed_calm h fuel slot c c' : MarkSlotAsFailed h fuel slot c = Done c' -> calm c c'.
Proof. unfold MarkSlotAsFailed. intros E. rinv. calm. Qed.
Lemma enable_slot_calm port c c' : enable_slot_for port c = Done c' -> calm c c'.
Proof. unfold enable_slot_for. intros E. rinv. etransitivity; [|by eapply cmd_push_calm]. etransitivity; [by eapply set_port_state_calm|]. by apply calm_same. Qed.
#[export] Hint Resolve MarkSlotAsFailed_calm enable_slot_calm : calm.
Lemma SendAddressDevice_calm h fuel slot c c' : SendAddressDeviceCommand h fuel slot c = Done c' -> calm c c'.
Proof.
  unfold SendAddressDeviceCommand. intros E. rinv. destruct (ReadPORTSC _ _ _). rcase.
  - etransitivity; [|by eapply DisablePort_calm]. by apply calm_same.
  - rinv. etransitivity; [|apply calm_put]. etransitivity; [|by eapply cmd_push_calm]. by apply calm_same.
Qed.
Lemma request_descriptor_calm null_pa v slot c c' : request_descriptor null_pa v slot c = Done c' -> calm c c'.
Proof. unfold request_descriptor, PutDataStageTD. intros E. rinv. calm. Qed.
Lemma RequestDeviceDescriptor_calm null_pa slot x c c' : RequestDeviceDescriptor null_pa slot x c = Done c' -> calm c c'.
Proof. unfold RequestDeviceDescriptor, PutDataStageTD. intros E. rinv. calm. Qed.
#[export] Hint Resolve SendAddressDevice_calm request_descriptor_calm RequestDeviceDescriptor_calm : calm.
Lemma HandleTransferEvent_calm h e c c' : HandleTransferEvent h e c = Done c' -> calm c c'.
Proof.
  unfold HandleTransferEvent. intros E. apply rbind_Done in E as (si & _ & E). rcase.
  - case_decide; rinv; by apply calm_same.
  - destruct (sl_state si); rinv; try (by apply calm_same). etransitivity; [|by eapply set_initializing_calm]. by apply calm_same.
Qed.
Lemma HandleCommandCompletion_calm h fuel alloc_pa null_pa e c c' : HandleCommandCompletion h fuel alloc_pa null_pa e c = Done c' -> calm c c'.
Proof.
  unfold HandleCommandCompletion. intros E. apply rbind_Done in E as (idx & _ & E). apply rbind_Done in E as (t & _ & E). rcase.
  { unfold HandleEnableSlotCommandCompletion in E. destruct (_ !! _) as [port|]; [|rinv; by apply calm_same]. rcase.
    - etransitivity; [|by eapply DisablePort_calm]. by apply calm_same.
    - rinv. etransitivity; [|by eapply SendAddressDevice_calm]. etransitivity; [|apply calm_put]. etransitivity; [|by eapply set_port_state_calm]. by apply calm_same. }
  rcase.
  { unfold HandleAddressDeviceCommandCompletion, AllocMemoryForMappedIO in E. rcase; [by eapply MarkSlotAsFailed_calm|]. rinv.
    etransitivity; [|by eapply RequestDeviceDescriptor_calm]. by apply calm_same. }
  rcase; [|by eapply MarkSlotAsFailed_calm]. unfold HandleConfigureEndpointCommandCompletion in E.
  apply rbind_Done in E as (s & _ & E). apply Done_inj in E. subst c'. by apply calm_same.
Qed.
Lemma HandleEvent_calm h fuel alloc_pa null_pa e c c' : HandleEvent h fuel alloc_pa null_pa e c = Done c' -> calm c c'.
Proof.
  unfold HandleEvent. intros E. rcase; [by eapply HandleCommandCompletion_calm|]. rcase; [rinv; by apply calm_same|].
  rcase; [by eapply HandleTransferEvent_calm|rinv; by apply calm_same].
Qed.
Lemma poll_event_ring_calm h fuel alloc_pa null_pa c c' : poll_event_ring h fuel alloc_pa null_pa c = Done c' -> calm c c'.
Proof.
  unfold poll_event_ring. intros E. apply rbind_Done in E as (er & _ & E). rcase; [|rinv; by apply calm_same].
  apply rbind_Done in E as (e & _ & E). apply rbind_Done in E as (c1 & E1 & E). apply rbind_Done in E as (er1 & _ & E). apply rbind_Done in E as ([er2 i] & _ & E).
  apply Done_inj in E. subst c'. etransitivity; [by eapply HandleEvent_calm|]. by apply calm_same.
Qed.
Lemma poll_port_calm h fuel port c c' : poll_port h fuel port c = Done c' -> calm c c'.
Proof.
  unfold poll_port. intros E. destruct (ReadPORTSC _ _ _) as [v i]. apply rbind_Done in E as (st & _ & E). rcase.
  { case_decide; [rinv; by apply calm_same|]. apply rbind_Done in E as (c1 & E1 & E). apply rbind_Done in E as (c2 & E2 & E). apply Done_inj in E. subst c'.
    transitivity c2; [|by apply calm_same]. etransitivity; [|by eapply set_port_state_calm]. etransitivity; [|by eapply DisablePort_calm]. by apply calm_same. }
  assert (forall x p y, set_port_state p y x = Done c' -> params_ x = params_ c -> ports_ x = ports_ c -> calm c c') as Hset.
  { intros x p y Hx H1 H2. etransitivity; [|by eapply set_port_state_calm]. apply calm_same; congruence. }
  case_decide; [by eapply Hset|]. case_decide; [|rinv; by apply calm_same]. rcase; [rinv; by apply calm_same|].
  destruct (ReadPORTSCLinkState _ _ _) as [l i2]. rcase; [by eapply Hset|]. rcase; [by eapply Hset|rinv; by apply calm_same].
Qed.
Lemma poll_ports_calm h fuel n : forall port c c', poll_ports h fuel n port c = Done c' -> calm c c'.
Proof.
  induction n as [|n IH]; intros port c c' E; cbn [poll_ports] in E; [rinv; by apply calm_same|].
  apply rbind_Done in E as (c1 & E1 & E2). etransitivity; [by eapply poll_port_calm|by eapply IH].
Qed.

(** ** The poll, and every state the driver can reach *)

Section Reach.
Context (fuel : nat) (alloc_pa : nat -> Z) (null_pa fs : Z).
Context (devices : list (DeviceIdent * DeviceLocation)) (fresh_ring : nat -> Z -> ring) (fresh_eps : Z -> list EndpointContext)
  (fresh_words : Z -> list Z) (mt : bool) (pid : Z).
Notation poll h := (PollEvents h fuel alloc_pa null_pa fs devices fresh_ring fresh_eps fresh_words mt pid).
Notation init h := (Controller_Init h fuel alloc_pa devices fresh_ring fresh_eps fresh_words mt pid).

Lemma PollEvents_safe h c : wf c -> names_live_slot h c -> safe wf (poll h c).
Proof.
  intros Hw Hl. unfold PollEvents. destruct (negb _); [exact Hw|]. rewrite (w_noreset c Hw).
  pose proof (CheckPort_safe h fuel fs c Hw) as HS. destruct (CheckPortAndInitiateProcess h fuel fs c) as [c1|st] eqn:E; [|exact HS].
  cbn [rbind safe] in *. pose proof (CheckPort_keeps h fuel fs c c1 Hw E) as Hk. assert (names_live_slot h c1) as Hl1 by (by eapply names_live_keeps).
  destruct (primary_event_ring_ c1) as [er|] eqn:Her; [|exact HS].
  eapply safe_bind; [apply (poll_event_ring_safe h fuel alloc_pa null_pa c1 HS Hl1); by exists er|]. intros c2 [H2 Hp2].
  pose proof (w_max c2 H2). apply poll_ports_safe; [done|lia|lia].
Qed.

(** Freshly allocated memory: a page holds the structure it is used for. *)
Definition fresh_ok : Prop :=
  (forall n pa, length (entry_ (fresh_ring n pa)) = S n) /\ (forall pa, length (fresh_words pa) = 512%nat) /\
  (forall pa, length (fresh_eps pa) = 31%nat /\ Forall (fun e => length e = 8%nat) (fresh_eps pa)).

Lemma empty_queue_abs : RingBuffer.abs 16 [] empty_queue.
Proof. split; cbn; try done; lia. Qed.
Lemma zero_slot_wf : slot_wf zero_slot.
Proof. split; try done. exists []. apply empty_queue_abs. Qed.
Lemma fresh_slot_ok c s c' : fresh_ok -> fresh_slot alloc_pa fresh_ring fresh_eps c = Done (s, c') -> slot_wf s /\ sl_state s = kUndefined /\ exists i, c' = set_io i c.
Proof.
  intros (H1 & _ & H3). unfold fresh_slot, AllocMemoryForMappedIO. cbn [new_DeviceContext kassert andb rbind]. change ((0 <=? 15) && (15 <=? 31)) with true.
  cbn [kassert rbind]. intros E. injection E as <- <-. split; [|split; [done|by eexists]].
  split; cbn [sl_port event_queue input_ctx ctrl_ep_tring data_out_ep_tring data_in_ep_tring sl_state on_opt]; try apply H1; try done; [by exists []; apply empty_queue_abs|].
  split; [done|]. split; [done|]. destruct (H3 (alloc_pa (S (allocs (io_ c))))) as [L F].
  set (g := fresh_eps _) in L, F. change (length (replicate 15 zero_ctx ++ drop 15 g) = 31%nat /\
    Forall (fun e => length e = 8%nat) (replicate 15 zero_ctx ++ drop 15 g)). split.
  - unfold EndpointContext in *. rewrite length_app, length_replicate, length_drop. lia.
  - apply list.Forall_app_2; [by apply Forall_replicate|by apply Forall_drop].
Qed.
Lemma init_slots_safe n slot c : fresh_ok -> wf c -> 0 <= slot -> slot + Z.of_nat n <= 256 ->
  safe wf (init_slots alloc_pa fresh_ring fresh_eps n slot c).
Proof.
  intros Hf. revert slot c. induction n as [|n IH]; intros slot c Hw H0 H1; [exact Hw|]. cbn [init_slots].
  destruct (get_slot_wf slot c Hw) as (s & -> & El & Hs); [lia|]. cbn [rbind].
  destruct (fresh_slot alloc_pa fresh_ring fresh_eps c) as [[s1 c1]|] eqn:E; [|discriminate E].
  destruct (fresh_slot_ok c s1 c1 Hf E) as (Hs1 & Hst & i & ->). cbn [rbind]. apply IH; [|lia|lia].
  apply wf_put_quiet; [by apply wf_io|done|by rewrite Hst].
Qed.
(** The stages before the slots touch registers, parameters, the event ring, the
    command ring and the base array only. *)
Record starting (c : ctrl) : Prop := Starting {
  st_bufs : descriptor_buffers_ c = replicate 256 None;
  st_keys : key_buffers_ c = replicate 256 (replicate 33 0);
  st_reqs : slot_request_for_port_ c = ∅;
  st_slots : slot_info_ c = replicate 256 zero_slot;
  st_keyq : keyid_buffer_ c = RingBuffer.Ring (replicate 16 0) 0 0;
  st_ports : ports_ c = Ports (replicate 256 kDisconnected) (replicate 256 false) 0;
  st_max : 0 <= max_ports_ (params_ c) < 256 /\ 0 <= max_slots_ (params_ c) < 256;
  st_reset : controller_reset_requested_ (params_ c) = false;
  st_event : on_opt event_ring_wf (primary_event_ring_ c);
}.
Lemma alloc_n_io n c : exists i, (alloc_n alloc_pa n c).2 = set_io i c.
Proof.
  revert c. induction n as [|n IH]; intros c; [exists (io_ c); by destruct c|]. cbn [alloc_n AllocMemoryForMappedIO].
  destruct (IH (set_io (Io (now (io_ c)) (log (io_ c)) (S (allocs (io_ c)))) c)) as [i Hi].
  destruct (alloc_n alloc_pa n _) as [l c1]. cbn [snd] in *. exists i. by rewrite Hi.
Qed.
Lemma init_scratchpad_ok c c' : init_scratchpad alloc_pa c = Done c' -> starting c -> ring_live 128 (cmd_ring_ c) ->
  (256 <= length (device_context_base_array_ c))%nat ->
  starting c' /\ ring_live 128 (cmd_ring_ c') /\ (256 <= length (device_context_base_array_ c'))%nat.
Proof.
  unfold init_scratchpad, AllocMemoryForMappedIO. destruct (_ =? 0); [by intros [= <-]|]. intros E [] Hl Ha.
  apply rbind_Done in E as (b & Eb & E). unfold set_at in Eb. rinv.
  match goal with H : context [alloc_n alloc_pa ?n ?c0] |- _ => destruct (alloc_n_io n c0) as [i2 Hi2]; destruct (alloc_n alloc_pa n c0) as [xs c2] end.
  cbn [snd] in Hi2. subst c2. rinv. split_and!; [|exact Hl|cbn; by rewrite length_insert]. by split.
Qed.
Lemma starting_wf c : starting c -> ring_live 128 (cmd_ring_ c) -> (256 <= length (device_context_base_array_ c))%nat ->
  wf (set_ports (init_ports (Z.to_nat (max_ports_ (params_ c))) (ports_ c)) c).
Proof.
  intros [Hb Hk Hq Hs Hy Hp [Hm _] Hr He] Hl Ha.
  split; cbn [set_ports slot_info_ descriptor_buffers_ key_buffers_ keyid_buffer_ ports_ cmd_ring_ device_context_base_array_ slot_request_for_port_ primary_event_ring_ params_];
    try assumption; rewrite ?Hb, ?Hk, ?Hq, ?Hs, ?Hy, ?Hp; try apply length_replicate.
  - apply Forall_replicate, zero_slot_wf.
  - intros n s Hn Hst. cbn [set_ports slot_info_] in Hn. rewrite Hs in Hn. apply lookup_replicate in Hn as [-> _]. discriminate Hst.
  - apply Forall_replicate, length_replicate.
  - exists []. split; cbn; try done; lia.
  - unfold init_ports. cbn [port_state_ port_is_initializing_]. set (n := Z.to_nat (max_ports_ (params_ c))).
    assert (forall (A : Type) (x : A), length (replicate n x ++ drop n (replicate 256 x)) = 256%nat) as HL.
    { intros A x. rewrite length_app, length_drop, !length_replicate. subst n. lia. }
    split_and!; cbn [port_state_ port_is_initializing_]; [apply HL|apply HL|]. intros a1 b1 H1 _. exfalso.
    apply lookup_app_Some in H1 as [H1|[_ H1]]; [by apply lookup_replicate in H1 as [[=] _]|].
    rewrite drop_replicate in H1. by apply lookup_replicate in H1 as [[=] _].
  - apply map_Forall_empty.
Qed.
(** The stages, one by one. *)
Lemma starting_io i c : starting c -> starting (set_io i c).
Proof. intros []. by split. Qed.
Lemma starting_interrupter c : starting c -> starting (InitPrimaryInterrupter alloc_pa c).
Proof.
  intros []. split; try assumption. split; [apply Nat.lt_0_succ|by right].
Qed.
Lemma starting_contexts h c : fresh_ok -> starting c ->
  starting (InitSlotsAndContexts h alloc_pa fresh_words c) /\
  (256 <= length (device_context_base_array_ (InitSlotsAndContexts h alloc_pa fresh_words c)))%nat.
Proof.
  intros (_ & F2 & _) []. split.
  - split; assumption.
  - unfold InitSlotsAndContexts. cbv beta iota zeta delta [AllocMemoryForMappedIO read_reg].
    cbn [set_io set_dcbaa device_context_base_array_ params_]. rewrite length_app, length_drop, length_replicate, F2. lia.
Qed.
Lemma starting_command_ring h c c' : fresh_ok -> starting c -> InitCommandRing h alloc_pa fresh_ring c = Done c' ->
  starting c' /\ ring_live 128 (cmd_ring_ c') /\ device_context_base_array_ c' = device_context_base_array_ c.
Proof.
  intros (F1 & _ & _) [] E. unfold InitCommandRing in E.
  cbv beta iota zeta delta [AllocMemoryForMappedIO read_reg] in E. apply rbind_Done in E as (r1 & Er & E). apply Done_inj in E. subst c'.
  destruct (init_tring_at 128 (TRing (alloc_pa (allocs (io_ c))) (fresh_ring 128 (alloc_pa (allocs (io_ c)))))) as (r' & Er' & Hr' & _); [lia|apply F1|].
  assert (Done r' = Done r1) as E1 by (rewrite <- Er', <- Er; reflexivity). apply Done_inj in E1. subst r'.
  split; [|split; [by eapply ring_at_live|reflexivity]]. split; assumption.
Qed.
Lemma starting_params h i l loc :
  starting (read_params h (set_lk l (set_io i (set_dev loc false (zero_ctrl i))))).
Proof.
  split; try reflexivity; try exact I. split; [exact (u8_range _)|exact (u8_range _)].
Qed.
Lemma Controller_Init_wf h i c :
  fresh_ok -> init h (zero_ctrl i) = Done c -> initialized_ (params_ c) = true -> wf c.
Proof.
  intros Hf. unfold Controller_Init. destruct (FindXHCIController devices) as [loc|]; [|by intros [= <-]].
  intros E _. apply rbind_Done in E as (i1 & _ & E). apply rbind_Done in E as ([[x y] i2] & _ & E). apply rbind_Done in E as (l & _ & E).
  apply rbind_Done in E as (i3 & _ & E). apply rbind_Done in E as (c1 & E1 & E). apply rbind_Done in E as (c2 & E2 & E).
  apply rbind_Done in E as (c3 & E3 & E). cbv beta iota zeta delta [read_reg] in E. apply rbind_Done in E as (i4 & _ & E). apply Done_inj in E. rewrite <- E.
  assert (starting (read_params h (set_lk l (set_io i2 (set_dev loc false (zero_ctrl i)))))) as H0 by (exact (starting_params h i2 l loc)).
  destruct (starting_contexts h _ Hf (starting_interrupter _ (starting_io i3 _ H0))) as [H1 Ha].
  destruct (starting_command_ring h _ c1 Hf H1 E1) as (Hst & Hl & Hd). rewrite <- Hd in Ha.
  apply (init_scratchpad_ok c1 c2 E2) in Hst as (Hst2 & Hl2 & Ha2); [|done|done].
  pose proof (st_max c2 Hst2) as [_ Hms].
  pose proof (init_slots_safe (Z.to_nat (max_slots_ (params_ c2) - 1)) 1 _ Hf (starting_wf c2 Hst2 Hl2 Ha2) ltac:(lia) ltac:(lia)) as HS.
  assert (safe wf (Done c3)) as HS3 by (rewrite <- E3; exact HS). destruct HS3. by split.
Qed.

(** *** Keyboard reports and the clients of the driver *)

Lemma press_bits_abs n i k d q : (exists l, RingBuffer.abs 16 l q) -> exists l, RingBuffer.abs 16 l (press_bits n i k d q).
Proof.
  revert k q. induction n as [|n IH]; intros k q Hq; [done|]. cbn [press_bits]. apply IH. destruct (_ =? 1); [|done]. unfold PressKey.
  destruct (_ && _); [|done]. destruct Hq as [l Hl]. eexists. apply RingBuffer.Push_abs, Hl.
Qed.
Lemma press_diff_abs i new old q : (exists l, RingBuffer.abs 16 l q) -> exists l, RingBuffer.abs 16 l (press_diff i new old q).
Proof.
  revert i old q. induction new as [|n new IH]; intros i [|o old] q Hq; try done. cbn [press_diff]. by apply IH, press_bits_abs.
Qed.
Lemma length_key_bits codes bits : length (key_bits codes bits) = length bits.
Proof. revert bits. induction codes as [|d codes IH]; intros bits; [done|]. cbn [key_bits]. rewrite IH. destruct (d =? 0); [done|apply length_alter]. Qed.
Lemma length_new_key_bits data : length (new_key_bits data) = 33%nat.
Proof. unfold new_key_bits. by rewrite length_insert, length_key_bits. Qed.
Lemma HandleKeyInput_wf slot data c c' : wf c -> HandleKeyInput slot data c = Done c' -> wf c'.
Proof.
  intros Hw E. unfold HandleKeyInput, set_at in E. apply rbind_Done in E as (old & _ & E). apply rbind_Done in E as (b & Eb & E).
  apply rbind_Done in Eb as (x & _ & Eb). apply Done_inj in E, Eb. subst b c'. apply wf_set_keys; [done| | |].
  - rewrite length_insert. apply (w_keys c Hw).
  - apply Forall_insert; [apply (w_key c Hw)|apply length_new_key_bits].
  - apply press_diff_abs, (w_keyq c Hw).
Qed.
Lemma PopSlotEvent_wf slot c o c' : wf c -> 0 <= slot < 256 -> PopSlotEvent slot c = Done (o, c') -> wf c'.
Proof.
  intros Hw Hs. unfold PopSlotEvent. destruct (get_slot_wf slot c Hw Hs) as (s & -> & El & Hsw). cbn [rbind].
  destruct (RingBuffer.IsEmpty (event_queue s)); [by intros [= _ <-]|]. destruct (RingBuffer.Pop _ _ _) as [e q] eqn:E. intros [= _ <-].
  destruct (sw_queue s Hsw) as [l Hl]. destruct (RingBuffer.Pop_abs _ _ _ _ _ _ Hl E) as [_ Hq].
  apply (wf_put_same slot s); [done|done|apply slot_wf_pop; [done|by eexists]|done].
Qed.
Lemma ReadKeyboardInput_wf c : wf c -> wf (ReadKeyboardInput c).2.
Proof.
  intros Hw. unfold ReadKeyboardInput. destruct (RingBuffer.IsEmpty _); [done|]. destruct (RingBuffer.Pop _ _ _) as [e q] eqn:E. cbn [snd].
  destruct (w_keyq c Hw) as [l Hl]. destruct (RingBuffer.Pop_abs _ _ _ _ _ _ Hl E) as [_ Hq]. destruct Hw. split; try assumption. by eexists.
Qed.
(** A slot whose device answered to Address Device. *)
Definition usable (slot : Z) (c : ctrl) : Prop :=
  0 <= slot < 256 /\ exists s, slot_info_ c !! Z.to_nat slot = Some s /\ addressed (sl_state s) = true.
Lemma usable_live slot c : wf c -> usable slot c -> wf_live slot c.
Proof.
  intros Hw (Hs & s & El & Ha). split; [done|]. split; [done|]. intros s' El'. rewrite El in El'. injection El' as <-.
  apply (sw_live s); [|done]. by apply (Forall_lookup_1 _ _ _ _ (w_slot c Hw) El).
Qed.
Definition out_configured (slot : Z) (c : ctrl) : Prop :=
  0 <= slot < 256 /\ forall s, slot_info_ c !! Z.to_nat slot = Some s -> on_opt (ring_live 32) (data_out_ep_tring s).

(** What happens to the driver when requests are for slots that can serve them. *)
Inductive orderly (c : ctrl) : ctrl -> Prop :=
| StPoll h c' : names_live_slot h c -> poll h c = Done c' -> orderly c c'
| StDescriptor value slot c' : usable slot c -> request_descriptor null_pa value slot c = Done c' -> orderly c c'
| StSetConfig slot v c' : usable slot c -> SetConfig slot v c = Done c' -> orderly c c'
| StSetInterface slot n a c' : usable slot c -> SetInterface slot n a c = Done c' -> orderly c c'
| StEndpoints slot a b x y c' : 0 <= slot < 256 -> ConfigureEndpointBulkInOut slot a b x y c = Done c' -> orderly c c'
| StBulkOut slot buf size c' : out_configured slot c -> WriteBulkData slot buf size c = Done c' -> orderly c c'
| StPop slot o c' : 0 <= slot < 256 -> PopSlotEvent slot c = Done (o, c') -> orderly c c'
| StManage slot c' : usable slot c -> MarkSlotAsManaged slot c = Done c' -> orderly c c'
| StFail h slot c' : 0 <= slot < 256 -> MarkSlotAsFailed h fuel slot c = Done c' -> orderly c c'
| StReport slot data c' : HandleKeyInput slot data c = Done c' -> orderly c c'
| StKey : orderly c (ReadKeyboardInput c).2.

Lemma safe_done {A} (P : A -> Prop) m a : safe P m -> m = Done a -> P a.
Proof. by intros H ->. Qed.
Lemma orderly_wf c c' : wf c -> orderly c c' -> wf c'.
Proof.
  intros Hw [h c2 Hl E|value slot c2 Hu E|slot v c2 Hu E|slot n a c2 Hu E|slot a b x y c2 Hs E|slot buf size c2 [Hs Ho] E|slot o c2 Hs E|slot c2 Hu E|h slot c2 Hs E|slot data c2 E|].
  - exact (safe_done wf _ c2 (PollEvents_safe h c Hw Hl) E).
  - exact (safe_done wf _ c2 (request_descriptor_safe null_pa value slot c (usable_live slot c Hw Hu)) E).
  - exact (safe_done wf _ c2 (no_data_safe slot _ _ c (usable_live slot c Hw Hu)) E).
  - exact (safe_done wf _ c2 (no_data_safe slot _ _ c (usable_live slot c Hw Hu)) E).
  - exact (safe_done wf _ c2 (ConfigureEndpointBulkInOut_safe slot a b x y c Hw Hs) E).
  - exact (safe_done wf _ c2 (WriteBulkData_safe slot buf size c Hw Hs Ho) E).
  - exact (PopSlotEvent_wf slot c o c2 Hw Hs E).
  - unfold MarkSlotAsManaged in E. destruct (_ || _); [by injection E as <-|].
    refine (safe_done wf _ c2 (change_state_safe slot kManaged c (usable_live slot c Hw Hu) _) E). discriminate.
  - exact (safe_done wf _ c2 (MarkSlotAsFailed_safe h fuel slot c Hw Hs) E).
  - exact (HandleKeyInput_wf slot data c c2 Hw E).
  - by apply ReadKeyboardInput_wf.
Qed.

(** Everything that happens to the driver, for any slot and with any answers of
    the hardware. *)
Inductive step (c : ctrl) : ctrl -> Prop :=
| DoPoll h c' : poll h c = Done c' -> step c c'
| DoDescriptor value slot c' : request_descriptor null_pa value slot c = Done c' -> step c c'
| DoSetConfig slot v c' : SetConfig slot v c = Done c' -> step c c'
| DoSetInterface slot n a c' : SetInterface slot n a c = Done c' -> step c c'
| DoBootProtocol slot c' : SetHIDBootProtocol slot c = Done c' -> step c c'
| DoHID value size slot x c' : hid_request null_pa value size slot x c = Done c' -> step c c'
| DoEndpoints slot a b x y c' : ConfigureEndpointBulkInOut slot a b x y c = Done c' -> step c c'
| DoBulkOut slot buf size c' : WriteBulkData slot buf size c = Done c' -> step c c'
| DoBulkIn slot buf size c' : ReadBulkData slot buf size c = Done c' -> step c c'
| DoPop slot o c' : PopSlotEvent slot c = Done (o, c') -> step c c'
| DoManage slot c' : MarkSlotAsManaged slot c = Done c' -> step c c'
| DoFail h slot c' : MarkSlotAsFailed h fuel slot c = Done c' -> step c c'
| DoReport slot data c' : HandleKeyInput slot data c = Done c' -> step c c'
| DoKey : step c (ReadKeyboardInput c).2.

Definition one_port (c : ctrl) : Prop := controller_reset_requested_ (params_ c) = false /\ solo (port_is_initializing_ (ports_ c)).
Lemma one_port_calm c c' : calm c c' -> one_port c -> one_port c'.
Proof. intros [E H] [Hr Hs]. split; [congruence|]. intros i j Hi Hj. by apply Hs; apply H. Qed.
Lemma begin_init_one_port h port c c' : (forall j, port_is_initializing_ (ports_ c) !! j <> Some true) -> begin_init h fs port c = Done c' -> one_port c -> one_port c'.
Proof.
  unfold begin_init, set_port_state, set_initializing, read_reg, set_at. intros Hno E [Hr _]. rinv. split; [done|]. cbn. by apply solo_set.
Qed.
Lemma CheckPort_one_port h c c' : CheckPortAndInitiateProcess h fuel fs c = Done c' -> one_port c -> one_port c'.
Proof.
  unfold CheckPortAndInitiateProcess. intros E Ho. destruct (list_find (eq kNeedsSlotAssignment) _) as [[i x]|].
  { eapply one_port_calm; [by eapply enable_slot_calm|done]. }
  destruct (list_find (eq true) _) as [[i x]|] eqn:Ef.
  { destruct (read_reg _ _ _) as [t i1]. rcase; [|rinv; by destruct Ho]. eapply one_port_calm; [|exact Ho]. etransitivity; [|by eapply DisablePort_calm]. by apply calm_same. }
  destruct (list_find (fun x => x = kAttachedUSB2 \/ x = kAttachedUSB3) _) as [[i x]|]; [|rinv; done].
  apply rbind_Done in E as (c1 & E1 & E). assert (calm c c1) as Hc by (case_decide; [by eapply ResetPort_calm|rinv; reflexivity]).
  apply (begin_init_one_port h (Z.of_nat i) c1 c'); [|exact E|by eapply one_port_calm]. intros j Hj. apply Hc in Hj. apply list_find_None in Ef.
  rewrite list.Forall_forall in Ef. apply (Ef true); [by eapply list_elem_of_lookup_2|done].
Qed.
Lemma poll_one_port h c c' : poll h c = Done c' -> one_port c -> one_port c'.
Proof.
  unfold PollEvents. intros E Ho. rcase; [by rinv|]. rewrite (proj1 Ho) in E. apply rbind_Done in E as (c1 & E1 & E).
  pose proof (CheckPort_one_port h c c1 E1 Ho) as Ho1. destruct (primary_event_ring_ c1); [|by rinv]. apply rbind_Done in E as (c2 & E2 & E).
  eapply one_port_calm; [|exact Ho1]. etransitivity; [by eapply poll_event_ring_calm|by eapply poll_ports_calm].
Qed.
Lemma ConfigureEndpoint_calm slot a b x y c c' : ConfigureEndpointBulkInOut slot a b x y c = Done c' -> calm c c'.
Proof. unfold ConfigureEndpointBulkInOut, SendConfigureEndpointCommand. intros E. rinv. etransitivity; [|by eapply cmd_push_calm]. apply calm_put. Qed.
Lemma step_one_port c c' : step c c' -> one_port c -> one_port c'.
Proof.
  intros [h c2 E|value slot c2 E|slot v c2 E|slot n a c2 E|slot c2 E|value size slot x c2 E|slot a b x y c2 E|slot buf size c2 E|slot buf size c2 E|slot o c2 E|slot c2 E|h slot c2 E|slot data c2 E|];
    [by apply (poll_one_port h)|apply one_port_calm..].
  - by eapply request_descriptor_calm.
  - unfold SetConfig in E. rinv. calm.
  - unfold SetInterface in E. rinv. calm.
  - unfold SetHIDBootProtocol in E. rinv. calm.
  - unfold hid_request, PutDataStageTD in E. rinv. calm.
  - by eapply ConfigureEndpoint_calm.
  - unfold WriteBulkData in E. rinv. etransitivity; [|by eapply ring_doorbell_calm]. apply calm_put.
  - unfold ReadBulkData in E. rinv. etransitivity; [|by eapply ring_doorbell_calm]. apply calm_put.
  - unfold PopSlotEvent in E. rinv. rcase; [by rinv|]. destruct (RingBuffer.Pop _ _ _). rinv. apply calm_put.
  - unfold MarkSlotAsManaged in E. rcase; [by rinv|by eapply change_state_calm].
  - by eapply MarkSlotAsFailed_calm.
  - unfold HandleKeyInput in E. rinv. by apply calm_same.
  - unfold ReadKeyboardInput. destruct (RingBuffer.IsEmpty _); [reflexivity|]. destruct (RingBuffer.Pop _ _ _). by apply calm_same.
Qed.

(** C14: a poll of the controller and the well-formedness of the driver's state,
    whatever the registers, the event ring and the timer say.  From a well-formed
    state the poll returns, or is still waiting for a port register, or an
    assertion of the code stops it; it never leaves an array or follows a null
    pointer, and what it returns is well formed.  There is one exception, which the
    statement names ([~ names_live_slot]): the hardware reports the completion of
    an Address Device command for a slot whose control ring was never set up.
    Also then at most one port is being initialised. *)
Theorem poll_keeps_types h c :
  wf c ->
  match poll h c with
  | Done c' => (names_live_slot h c -> wf c') /\ solo (port_is_initializing_ (ports_ c'))
  | Stop s => s = FuelOut \/ s = Panic \/ ~ names_live_slot h c
  end.
Proof.
  intros Hw. pose proof (PollEvents_safe h c Hw) as HS. destruct (w_ports c Hw) as (_ & _ & Hsolo). destruct (poll h c) as [c'|s] eqn:E.
  - split; [exact HS|]. by apply (poll_one_port h c c' E (conj (w_noreset c Hw) Hsolo)).
  - destruct (decide (s = FuelOut)) as [->|Hf]; [by left|]. destruct (decide (s = Panic)) as [->|Hp]; [by right; left|].
    right. right. intros Hl. destruct (HS Hl); done.
Qed.

(** C13: at every moment at most one port is being initialised.  In every state that
    is reached from a successful [Init] by polls with any answers of the hardware,
    register values, events and timer alike, and by any requests of the drivers,
    two ports that are initialising are the same port. *)
Theorem one_port_at_a_time h i c0 c p1 p2 :
  fresh_ok -> init h (zero_ctrl i) = Done c0 -> initialized_ (params_ c0) = true -> rtc step c0 c ->
  port_is_initializing_ (ports_ c) !! p1 = Some true -> port_is_initializing_ (ports_ c) !! p2 = Some true -> p1 = p2.
Proof.
  intros Hf E Hi Hr. pose proof (Controller_Init_wf h i c0 Hf E Hi) as H0. destruct (w_ports c0 H0) as (_ & _ & Hsolo).
  assert (one_port c0) as Ho by (split; [apply (w_noreset c0 H0)|done]). clear E Hi H0 Hsolo.
  induction Hr as [|c0 c1 c2 Hs _ IH]; [apply Ho|]. by apply IH, (step_one_port c0).
Qed.
End Reach.

(** ** A controller with two ports

    Both ports have a SuperSpeed device; the status register alternates, so that
    every wait ends; [cnt] is the timer, [ev] the event ring, [dma] what the
    devices wrote. *)
Definition demo_hw (cnt : Z) (ev : nat -> BasicTRB) (dma : Z -> Z) : hw :=
  Hw (fun t r => match r with
      | Cap ofs => if ofs =? 4 then Z.shiftl 4 24 + 2 else 0
      | Op ofs => if ofs =? 4 then Z.of_nat (t mod 2) else if 0x3F0 <=? ofs then 4611 else 0
      | HpetCounter => cnt
      | PciConfig _ => 4
      | _ => 0
      end) ev dma.
Definition no_event (n : nat) : BasicTRB := TRB 0 0 0.
Definition demo_h : hw := demo_hw 1000 no_event (fun _ => 0).
Definition demo_alloc (n : nat) : Z := 0x100000 + 4096 * Z.of_nat n.
Definition demo_devices : list (DeviceIdent * DeviceLocation) := [(Ident 0x1B36 0x000D, Loc 0 4 0)].
Definition demo_ring (n : nat) (pa : Z) : ring := Ring (replicate (S n) (TRB 0 0 0)) 0 0 0.
Definition demo_eps (pa : Z) : list EndpointContext := replicate 31 zero_ctx.
Definition demo_words (pa : Z) : list Z := replicate 512 0.
Definition demo_fs : Z := 100000000.
Notation demo_poll h := (PollEvents h 4 demo_alloc 0 demo_fs demo_devices demo_ring demo_eps demo_words false 0).
Notation demo_init := (Controller_Init demo_h 4 demo_alloc demo_devices demo_ring demo_eps demo_words false 0 (zero_ctrl (Io 0 [] 0))).
Definition result (m : res ctrl) : ctrl := match m with Done c => c | Stop _ => zero_ctrl (Io 0 [] 0) end.
Definition is_done {A} (m : res A) : bool := match m with Done _ => true | Stop _ => false end.
Lemma result_eq m : is_done m = true -> m = Done (result m).
Proof. by destruct m. Qed.
(** After [Init]; after the ports were seen, were found enabled, after the first
    one started and asked for a slot. *)
Definition demo0 : ctrl := result demo_init.
Definition demo1 : ctrl := result (demo_poll demo_h demo0).
Definition demo2 : ctrl := result (demo_poll demo_h demo1).
Definition demo3 : ctrl := result (demo_poll demo_h demo2).
Definition demo4 : ctrl := result (demo_poll demo_h demo3).

Lemma demo_fresh : fresh_ok demo_ring demo_eps demo_words.
Proof.
  split_and!; [intros n pa; apply length_replicate|intros pa; apply length_replicate|]. intros pa. split; [apply length_replicate|by apply Forall_replicate].
Qed.
Lemma demo_quiet c : names_live_slot demo_h c.
Proof. intros er idx t _ e He. discriminate He. Qed.
Lemma demo_init_done : demo_init = Done demo0.
Proof. unfold demo0. apply result_eq. vm_compute. reflexivity. Qed.
Lemma demo_initialized : initialized_ (params_ demo0) = true.
Proof. vm_compute. reflexivity. Qed.
Lemma demo_wf0 : wf demo0.
Proof. exact (Controller_Init_wf 4 demo_alloc demo_devices demo_ring demo_eps demo_words false 0 demo_h (Io 0 [] 0) demo0 demo_fresh demo_init_done demo_initialized). Qed.
Notation demo_step := (orderly 4 demo_alloc 0 demo_fs demo_devices demo_ring demo_eps demo_words false 0).
Lemma demo_polled c : is_done (demo_poll demo_h c) = true -> demo_step c (result (demo_poll demo_h c)).
Proof. intros H. apply StPoll with demo_h; [apply demo_quiet|]. exact (result_eq _ H). Qed.
Lemma demo_reach : rtc demo_step demo0 demo2 /\ rtc demo_step demo0 demo4.
Proof.
  assert (demo_step demo0 demo1) as H1 by (apply demo_polled; vm_compute; reflexivity).
  assert (demo_step demo1 demo2) as H2 by (apply demo_polled; vm_compute; reflexivity).
  assert (demo_step demo2 demo3) as H3 by (apply demo_polled; vm_compute; reflexivity).
  assert (demo_step demo3 demo4) as H4 by (apply demo_polled; vm_compute; reflexivity).
  split; [exact (rtc_l _ _ _ _ H1 (rtc_l _ _ _ _ H2 (rtc_refl _ demo2)))|].
  exact (rtc_l _ _ _ _ H1 (rtc_l _ _ _ _ H2 (rtc_l _ _ _ _ H3 (rtc_l _ _ _ _ H4 (rtc_refl _ demo4))))).
Qed.
Lemma demo_wf c : rtc demo_step demo0 c -> wf c.
Proof. intros H. pose proof demo_wf0 as H0. revert H0. generalize demo0 H. clear H. intros c0 H. induction H as [|a b c Hs _ IH]; intros Ha; [exact Ha|]. apply IH. exact (orderly_wf _ _ _ _ _ _ _ _ _ _ a b Ha Hs). Qed.

Notation demo_any_step := (step 4 demo_alloc 0 demo_fs demo_devices demo_ring demo_eps demo_words false 0).
Lemma demo_steps : rtc demo_any_step demo0 demo4.
Proof.
  assert (forall c, is_done (demo_poll demo_h c) = true -> demo_any_step c (result (demo_poll demo_h c))) as H.
  { intros c Hc. apply DoPoll with demo_h. exact (result_eq _ Hc). }
  assert (demo_any_step demo0 demo1) as H1 by (apply H; vm_compute; reflexivity).
  assert (demo_any_step demo1 demo2) as H2 by (apply H; vm_compute; reflexivity).
  assert (demo_any_step demo2 demo3) as H3 by (apply H; vm_compute; reflexivity).
  assert (demo_any_step demo3 demo4) as H4 by (apply H; vm_compute; reflexivity).
  exact (rtc_l _ _ _ _ H1 (rtc_l _ _ _ _ H2 (rtc_l _ _ _ _ H3 (rtc_l _ _ _ _ H4 (rtc_refl _ demo4))))).
Qed.

Lemma poll_keeps_types_witness :
  exists c', demo_poll demo_h demo0 = Done c' /\ wf c'.
Proof.
  pose proof (poll_keeps_types 4 demo_alloc 0 demo_fs demo_devices demo_ring demo_eps demo_words false 0 demo_h demo0 demo_wf0) as H.
  assert (is_done (demo_poll demo_h demo0) = true) as Hd by (vm_compute; reflexivity).
  destruct (demo_poll demo_h demo0) as [c'|] eqn:E; [|discriminate Hd]. exists c'. split; [reflexivity|]. apply (proj1 H), demo_quiet.
Defined.
Lemma one_port_at_a_time_witness :
  port_is_initializing_ (ports_ demo4) !! 1%nat = Some true /\ forall p, port_is_initializing_ (ports_ demo4) !! p = Some true -> p = 1%nat.
Proof.
  split; [vm_compute; reflexivity|]. intros p Hp.
  apply (one_port_at_a_time 4 demo_alloc 0 demo_fs demo_devices demo_ring demo_eps demo_words false 0 demo_h (Io 0 [] 0) demo0 demo4 p 1);
    [exact demo_fresh|exact demo_init_done|exact demo_initialized|exact demo_steps|exact Hp|vm_compute; reflexivity].
Defined.
