(* ===== verification/XhciEnum.v ===== *)
(** * The USB host controller driver: enumeration, deadline and reports

    A device that is plugged in becomes an available slot in five polls when the
    controller answers; a device that does not answer loses its turn when the
    deadline has passed; the input context tells the controller what the device
    is; keyboard reports become key strokes. *)

From S2P Require Import Prelude KernelBase KernelInput Scheduler Pci Xhci XhciController XhciProofs.
Import KernelBase.Bits.
(** ** Enumeration of a device *)

Section Enumerate.
Context (fuel : nat) (alloc_pa : nat -> Z) (null_pa fs : Z).
Context (devices : list (DeviceIdent * DeviceLocation)) (fresh_ring : nat -> Z -> ring) (fresh_eps : Z -> list EndpointContext)
  (fresh_words : Z -> list Z) (mt : bool) (pid : Z).
Notation poll h := (PollEvents h fuel alloc_pa null_pa fs devices fresh_ring fresh_eps fresh_words mt pid).

(** Only reads of registers. *)
Definition after_reads (n : nat) (c : ctrl) : ctrl := set_io (Io n (log (io_ c)) (allocs (io_ c))) c.
Lemma after_reads_twice n m c : after_reads n (after_reads m c) = after_reads n c.
Proof. reflexivity. Qed.
Lemma set_io_reads n c : set_io (Io n (log (io_ c)) (allocs (io_ c))) c = after_reads n c.
Proof. reflexivity. Qed.

(** During a poll no port is plugged, unplugged or seen for the first time. *)
Definition settled (h : hw) (max : Z) (l : list PortState) : Prop := forall port t, 1 <= port <= max ->
  exists st, l !! Z.to_nat port = Some st /\
    if has (hw_reg h t (PORTSC port)) kPortSCBitCurrentConnectStatus then st <> kDisconnected /\ st <> kAttached else st = kDisconnected.
Lemma poll_ports_settled h n : forall port c,
  1 <= port -> port + Z.of_nat n <= max_ports_ (params_ c) + 1 -> settled h (max_ports_ (params_ c)) (port_state_ (ports_ c)) ->
  exists m, poll_ports h fuel n port c = Done (after_reads m c).
Proof.
  induction n as [|n IH]; intros port c H1 H2 Hs.
  { exists (now (io_ c)). unfold after_reads. by destruct c as [[]]. }
  cbn [poll_ports]. unfold poll_port, ReadPORTSC, read_reg. rewrite set_io_reads.
  destruct (Hs port (now (io_ c)) ltac:(lia)) as (st & El & Hst). unfold get_port_state. cbn [after_reads set_io ports_].
  rewrite (get_at_lookup _ _ st) by (done || lia). cbn [rbind].
  assert (forall c1, c1 = after_reads (S (now (io_ c))) c -> exists m, poll_ports h fuel n (port + 1) c1 = Done (after_reads m c)) as HI.
  { intros c1 ->. destruct (IH (port + 1) (after_reads (S (now (io_ c))) c)) as [m Hm]; [lia|cbn; lia|done|]. exists m. by rewrite Hm. }
  destruct (has (hw_reg h (now (io_ c)) (PORTSC port)) kPortSCBitCurrentConnectStatus); cbn [negb].
  - destruct Hst as [Hd Ha]. rewrite (decide_False (P := st = kDisconnected)) by done. rewrite (decide_False (P := st = kAttached)) by done. cbn [rbind]. by apply HI.
  - subst st. cbn [decide]. rewrite decide_True by done. cbn [rbind]. by apply HI.
Qed.

(** What a poll does with and without an event. *)
Definition next_event (er : EventRing) : EventRing :=
  if (S (index_ er) =? num_of_trb_ er)%nat then EvRing (Z.lxor (cycle_state_ er) 1) 0 (num_of_trb_ er) (trbs_pa er) (erst_ er)
  else EvRing (cycle_state_ er) (S (index_ er)) (num_of_trb_ er) (trbs_pa er) (erst_ er).
Record ready (c : ctrl) (er : EventRing) : Prop := Ready {
  rd_init : initialized_ (params_ c) = true;
  rd_reset : controller_reset_requested_ (params_ c) = false;
  rd_ring : primary_event_ring_ c = Some er;
  rd_max : 0 <= max_ports_ (params_ c);
}.
Lemma poll_quiet h er c c1 :
  ready c er -> CheckPortAndInitiateProcess h fuel fs c = Done c1 -> static c1 = static c -> HasNextEvent h er = false ->
  settled h (max_ports_ (params_ c)) (port_state_ (ports_ c1)) -> exists n, poll h c = Done (after_reads n c1).
Proof.
  intros [Hi Hr He Hm0] E Hst Hn Hs. unfold static in Hst. injection Hst as Es1 Es2. unfold PollEvents. rewrite Hi, Hr, E. cbn [negb rbind].
  rewrite Es1, He. unfold poll_event_ring. rewrite Es1, He. cbn [deref rbind]. rewrite Hn. cbn [rbind].
  rewrite <- Es2 in Hs. destruct (poll_ports_settled h (Z.to_nat (max_ports_ (params_ c1))) 1 c1) as [m Hm]; [lia|rewrite Es2; lia|done|by exists m].
Qed.
Lemma poll_event h er c c1 c2 :
  ready c er -> CheckPortAndInitiateProcess h fuel fs c = Done c1 -> static c1 = static c -> HasNextEvent h er = true ->
  HandleEvent h fuel alloc_pa null_pa (hw_event h (index_ er)) c1 = Done c2 ->
  settled h (max_ports_ (params_ c)) (port_state_ (ports_ c2)) ->
  exists n v, poll h c = Done (set_io (Io n ((ERDP, v) :: log (io_ c2)) (allocs (io_ c2))) (set_event_ring (next_event er) c2)).
Proof.
  intros [Hi Hr He Hm0] E Hst Hn EH Hs. pose proof (HandleEvent_static h fuel alloc_pa null_pa _ _ _ EH) as Hst2. rewrite Hst in Hst2.
  unfold static in Hst, Hst2. injection Hst as Es1 Es2. injection Hst2 as Et1 Et2. unfold PollEvents. rewrite Hi, Hr, E. cbn [negb rbind].
  rewrite Es1, He. unfold poll_event_ring. rewrite Es1, He. cbn [deref rbind]. rewrite Hn. unfold PeekEvent. rewrite Hn. cbn [kassert rbind].
  rewrite EH. cbn [rbind]. rewrite Et1, He. cbn [deref rbind]. unfold PopEvent. rewrite Hn. cbn [kassert rbind]. fold (next_event er).
  unfold AdvanceERDP, read_reg. cbv beta iota zeta. set (v := Z.lor _ _). set (c3 := set_event_ring _ _).
  destruct (poll_ports_settled h (Z.to_nat (max_ports_ (params_ c3))) 1 c3) as [m Hm].
  { lia. }
  { change (params_ c3) with (params_ c2). rewrite Et2. lia. }
  { change (params_ c3) with (params_ c2). by rewrite Et2. }
  exists m, v. exact Hm.
Qed.

(** *** Port checks *)

Lemma settled_insert h max l p st0 x :
  settled h max l -> l !! p = Some st0 -> st0 <> kDisconnected -> x <> kDisconnected -> x <> kAttached -> settled h max (<[p := x]> l).
Proof.
  intros Hs El H0 H1 H2 port t Hp. destruct (Hs port t Hp) as (st & Est & Hst). destruct (decide (Z.to_nat port = p)) as [<-|Hne].
  - exists x. split; [apply list_lookup_insert_eq; by eapply lookup_lt_Some|]. rewrite Est in El. injection El as ->.
    destruct (has _ _); [done|]. by subst st0.
  - exists st. by rewrite list_lookup_insert_ne.
Qed.
(** Power is on and no reset is going on, so that the waits of [ResetPort] end. *)
Definition port_up (h : hw) (port : Z) : Prop := forall t,
  has (hw_reg h t (PORTSC port)) kPortSCBitPortPower = true /\ has (hw_reg h t (PORTSC port)) kPortSCBitPortReset = false.
Definition doorbell_of (w : reg * Z) : option (Z * Z) := match w.1 with Db i => Some (i, w.2) | _ => None end.
Definition doorbells (l : list (reg * Z)) : list (Z * Z) := omap doorbell_of l.
Definition with_ports (st : list PortState) (b : list bool) (d : Z) (c : ctrl) : ctrl := set_ports (Ports st b d) c.

Lemma ResetPort_up h p c :
  (0 < fuel)%nat -> wf c -> (p < 256)%nat -> port_up h (Z.of_nat p) -> exists i,
  ResetPort h fuel (Z.of_nat p) c =
    Done (with_ports (<[p := kDisabled]> (port_state_ (ports_ c))) (<[p := false]> (port_is_initializing_ (ports_ c))) (port_init_deadline_ (ports_ c)) (set_io i c)) /\
  allocs i = allocs (io_ c) /\ doorbells (log i) = doorbells (log (io_ c)).
Proof.
  intros Hf Hw Hp Hu. unfold ResetPort, ReadPORTSC, read_reg, WritePORTSC, write_reg. destruct fuel as [|f]; [lia|]. cbn [wait_reg read_reg now log allocs].
  rewrite (proj1 (Hu _)). cbn [rbind now log allocs]. rewrite (proj2 (Hu _)). cbn [negb rbind].
  pose proof (w_ports c Hw) as (H1 & H2 & _). unfold set_port_state, set_initializing. cbn [set_io ports_].
  rewrite set_at_ok by lia. cbn [rbind set_ports ports_ port_is_initializing_]. rewrite set_at_ok by lia. cbn [rbind]. rewrite !Nat2Z.id.
  eexists. split; [reflexivity|]. split; reflexivity.
Qed.
(** The first attached port starts its initialisation. *)
Lemma check_begin h c p x :
  (0 < fuel)%nat -> wf c -> list_find (eq kNeedsSlotAssignment) (port_state_ (ports_ c)) = None ->
  list_find (eq true) (port_is_initializing_ (ports_ c)) = None ->
  list_find (fun x => x = kAttachedUSB2 \/ x = kAttachedUSB3) (port_state_ (ports_ c)) = Some (p, x) ->
  (x = kAttachedUSB2 -> port_up h (Z.of_nat p)) ->
  exists i t, CheckPortAndInitiateProcess h fuel fs c =
    Done (with_ports (<[p := kNeedsSlotAssignment]> (port_state_ (ports_ c))) (<[p := true]> (port_is_initializing_ (ports_ c)))
      (u64 (hw_reg h t HpetCounter + GetCountPerSecond fs)) (set_io i c)) /\
  allocs i = allocs (io_ c) /\ doorbells (log i) = doorbells (log (io_ c)).
Proof.
  intros Hf Hw H1 H2 H3 Hu. unfold CheckPortAndInitiateProcess. rewrite H1, H2, H3.
  pose proof (w_ports c Hw) as (L1 & L2 & _). assert (p < 256)%nat as Hp.
  { apply list_find_Some in H3 as (H3 & _). apply lookup_lt_Some in H3. lia. }
  assert (forall c1, length (port_state_ (ports_ c1)) = 256%nat -> length (port_is_initializing_ (ports_ c1)) = 256%nat ->
    begin_init h fs (Z.of_nat p) c1 = Done (with_ports (<[p := kNeedsSlotAssignment]> (port_state_ (ports_ c1))) (<[p := true]> (port_is_initializing_ (ports_ c1)))
      (u64 (hw_reg h (now (io_ c1)) HpetCounter + GetCountPerSecond fs)) (set_io (Io (S (now (io_ c1))) (log (io_ c1)) (allocs (io_ c1))) c1))) as HB.
  { intros c1 L3 L4. unfold begin_init, set_port_state, set_initializing. rewrite set_at_ok by lia. cbn [rbind set_ports ports_ port_is_initializing_].
    rewrite set_at_ok by lia. cbn [rbind]. rewrite !Nat2Z.id. reflexivity. }
  destruct (decide (x = kAttachedUSB2)) as [Hx|_]; cbn [rbind].
  - destruct (ResetPort_up h p c Hf Hw Hp (Hu Hx)) as (i & E & Ha & Hd). rewrite E. cbn [rbind]. rewrite HB by (cbn; by rewrite length_insert).
    exists (Io (S (now i)) (log i) (allocs i)), (now i). split; [|split; [exact Ha|exact Hd]]. cbn [with_ports set_ports ports_ port_state_ port_is_initializing_].
    rewrite !list_insert_insert_eq. reflexivity.
  - rewrite HB by done. exists (Io (S (now (io_ c))) (log (io_ c)) (allocs (io_ c))), (now (io_ c)). split; [reflexivity|split; reflexivity].
Qed.
(** A slot is requested for the port that needs one. *)
Definition enable_slot_trb : BasicTRB := TRB 0 0 (Z.shiftl kTRBTypeEnableSlotCommand 10).
Lemma check_enable h c p k y :
  length (port_state_ (ports_ c)) = 256%nat -> list_find (eq kNeedsSlotAssignment) (port_state_ (ports_ c)) = Some (p, y) -> ring_at 128 (cmd_ring_ c) k ->
  slot_request_for_port_ c !! next_entry_pa (cmd_ring_ c) = None ->
  exists r, tr_enqueue 128 enable_slot_trb (cmd_ring_ c) = Done r /\ CheckPortAndInitiateProcess h fuel fs c =
    Done (set_io (Io (now (io_ c)) ((Db 0, 0) :: log (io_ c)) (allocs (io_ c))) (set_cmd_ring r (set_requests (<[next_entry_pa (cmd_ring_ c) := Z.of_nat p]> (slot_request_for_port_ c))
      (with_ports (<[p := kWaitingForSlotAssignment]> (port_state_ (ports_ c))) (port_is_initializing_ (ports_ c)) (port_init_deadline_ (ports_ c)) c)))).
Proof.
  intros L1 H1 Hk Hm. unfold CheckPortAndInitiateProcess. rewrite H1.
  assert (p < 256)%nat as Hp by (apply list_find_Some in H1 as (H1 & _); apply lookup_lt_Some in H1; lia).
  destruct (tr_enqueue_at 128 enable_slot_trb (cmd_ring_ c) k) as (r & E & _); [lia|done|]. exists r. split; [done|].
  unfold enable_slot_for, set_port_state. rewrite set_at_ok by lia. cbn [rbind set_ports cmd_ring_ slot_request_for_port_]. rewrite Hm.
  unfold cmd_push. cbn [set_requests cmd_ring_]. change (TRB 0 0 _) with enable_slot_trb. unfold kNumOfCmdTRBRingEntries.
  change (cmd_ring_ _) with (cmd_ring_ c) at 1. rewrite E. cbn [rbind]. rewrite Nat2Z.id. reflexivity.
Qed.
(** Before the deadline the other ports wait. *)
Lemma check_wait h c p y :
  list_find (eq kNeedsSlotAssignment) (port_state_ (ports_ c)) = None -> list_find (eq true) (port_is_initializing_ (ports_ c)) = Some (p, y) ->
  (forall t, hw_reg h t HpetCounter <= port_init_deadline_ (ports_ c)) ->
  CheckPortAndInitiateProcess h fuel fs c = Done (after_reads (S (now (io_ c))) c).
Proof.
  intros H1 H2 Hd. unfold CheckPortAndInitiateProcess. rewrite H1, H2. unfold read_reg. cbn [set_io ports_].
  specialize (Hd (now (io_ c))). zfalse (port_init_deadline_ (ports_ c) <? hw_reg h (now (io_ c)) HpetCounter). reflexivity.
Qed.

(** *** The Address Device command *)

Definition address_device_trb (slot pa : Z) : BasicTRB :=
  TRB pa 0 (Z.lor (Z.shiftl kTRBTypeAddressDeviceCommand 10) (u32 (Z.shiftl slot 24))).
Lemma address_device_type sl pa : 0 <= sl < 256 -> GetTRBType (address_device_trb sl pa) = kTRBTypeAddressDeviceCommand.
Proof.
  intros Hs. unfold GetTRBType, address_device_trb. cbn [trb_control]. rewrite u32_small by (rewrite (shiftl_mul sl 24) by lia; change (2 ^ 24) with 16777216; lia).
  unfold GetBits. rewrite Z.lor_comm, lor_shiftl_add by (try split; vm_compute; congruence). rewrite shiftr_div by lia.
  change (Z.shiftl 1 (15 - 10 + 1) - 1) with (2 ^ 6 - 1). rewrite land_ones_mod by lia. change (kTRBTypeAddressDeviceCommand ≪ 10) with 11264.
  change (2 ^ 24) with 16777216. change (2 ^ 10) with 1024. change (2 ^ 6) with 64. unfold u8. change (2 ^ 8) with 256.
  assert ((sl * 16777216 + 11264) / 1024 = sl * 16384 + 11) as -> by zdiv.
  assert ((sl * 16384 + 11) mod 64 = 11) as -> by zdiv. reflexivity.
Qed.
(** The packet size of the control endpoint for a speed. *)
Definition packet_size (speed : Z) : Z := if speed =? kPortSpeedHS then 64 else if speed =? kPortSpeedSS then 512 else 8.
Lemma packet_size_ok speed : speed_known speed = true -> GetMaxPacketSizeFromPORTSCPortSpeed speed = Done (packet_size speed).
Proof.
  unfold speed_known, GetMaxPacketSizeFromPORTSCPortSpeed, packet_size, kPortSpeedFS, kPortSpeedLS, kPortSpeedHS, kPortSpeedSS. intros H.
  zcmps; try done; subst; discriminate.
Qed.
(** The input context that [SendAddressDeviceCommand] fills in. *)
Definition address_context (port speed pa : Z) (ctx : InputContext) : InputContext :=
  let ctx := SetAddContext 1 true (SetAddContext 0 true (Clear ctx)) in
  let d := SetPortSpeed speed (SetContextEntries 1 (SetRootHubPortNumber port (device_ctx_ ctx))) in
  set_device_ctx (DevCtx (slot_ctx_ d) (alter (describe_endpoint kEPTypeControl pa (packet_size speed)) 0%nat (endpoint_ctx_ d))) ctx.
(** A slot with its structures allocated, as [Init] leaves it. *)
Record equipped (s : SlotInfo) (ctx : InputContext) (out : Z) (r : tring) : Prop := Equipped {
  eq_ctx : input_ctx s = Some ctx;
  eq_out : output_ctx s = Some out;
  eq_ctrl : ctrl_ep_tring s = Some r;
  eq_mem : ring_mem 32 r;
}.
Lemma send_address h slot c s ctx out r k speed :
  slot_info_ c !! Z.to_nat slot = Some s -> 0 <= slot -> slot < Z.of_nat (length (device_context_base_array_ c)) -> equipped s ctx out r ->
  ring_at 128 (cmd_ring_ c) k -> (forall t, GetBits 13 10 (hw_reg h t (PORTSC (sl_port s))) = speed) -> speed_known speed = true ->
  exists r1 cr, init_tring 32 r = Done r1 /\ tr_enqueue 128 (address_device_trb slot (ictx_pa ctx)) (cmd_ring_ c) = Done cr /\
  SendAddressDeviceCommand h fuel slot c = Done (put_slot slot
      (set_state kWaitingForSecondAddressDeviceCommandCompletion (set_max_packet_size (packet_size speed)
        (set_input_ctx (address_context (sl_port s) speed (tr_pa r) ctx) (set_ctrl r1 s))))
      (set_io (Io (S (now (io_ c))) ((Db 0, 0) :: log (io_ c)) (allocs (io_ c)))
        (set_cmd_ring cr (set_dcbaa (<[Z.to_nat slot := out]> (device_context_base_array_ c)) c)))).
Proof.
  intros El H0 Hd [Ec Eo Er Hm] Hk Hsp Hknown. destruct (init_tring_at 32 r) as (r1 & E1 & _ & Hpa); [lia|done|].
  destruct (tr_enqueue_at 128 (address_device_trb slot (ictx_pa ctx)) (cmd_ring_ c) k) as (cr & E2 & _); [lia|done|].
  exists r1, cr. split; [done|]. split; [done|]. unfold SendAddressDeviceCommand, get_slot. rewrite (get_at_lookup _ _ s) by done. cbn [rbind].
  rewrite Ec, Er. cbn [bool_decide kassert rbind deref]. change kNumOfCtrlEPRingEntries with 32%nat. rewrite E1. cbn [rbind].
  unfold ReadPORTSC, read_reg. rewrite Hsp, Hknown. cbn [negb]. rewrite (packet_size_ok speed Hknown). cbn [rbind with_endpoint kassert kDCIEPContext0].
  unfold with_endpoint. change ((1 <=? kDCIEPContext0) && (kDCIEPContext0 <=? 31)) with true. cbn [kassert rbind].
  cbn [set_max_packet_size set_input_ctx set_ctrl output_ctx]. rewrite Eo. cbn [bool_decide kassert rbind deref set_io device_context_base_array_].
  rewrite set_at_ok by lia. cbn [rbind]. unfold cmd_push. change kNumOfCmdTRBRingEntries with 128%nat.
  change (cmd_ring_ (set_dcbaa _ _)) with (cmd_ring_ c). change (ictx_pa (SetAddContext 1 true (SetAddContext 0 true (Clear ctx)))) with (ictx_pa ctx).
  fold (address_device_trb slot (ictx_pa ctx)). rewrite E2. cbn [rbind]. rewrite Hpa.
  unfold put_slot. cbn [set_io set_cmd_ring set_dcbaa set_slots slot_info_ io_]. rewrite list_insert_insert_eq. reflexivity.
Qed.

(** *** Completions *)

Lemma entry_pa_index n r p : (0 < n)%nat -> ring_at n r p -> 0 <= tr_pa r -> tr_pa r + 16 * Z.of_nat n < 2 ^ 64 ->
  GetEntryFromPhysAddr n (next_entry_pa r) (tr_ring r) = Done (Z.of_nat (p mod n)).
Proof.
  intros Hn [Hr Hp] H0 H1. unfold GetEntryFromPhysAddr, next_entry_pa. rewrite Hp, (rk_idx _ _ _ Hr).
  pose proof (Nat.mod_upper_bound p n). replace (tr_pa r + 16 * Z.of_nat (p mod n) - tr_pa r) with (Z.of_nat (p mod n) * 16) by lia.
  rewrite u64_small by lia. rewrite Z.mod_mul by lia. cbn [Z.eqb kassert rbind]. rewrite Z.div_mul by lia.
  ztrue (Z.of_nat (p mod n) <? Z.of_nat n). done.
Qed.
(** The completion of the command that was just put into the ring. *)
Lemma completion_of h e c r0 t k :
  ring_at 128 r0 k -> 0 <= tr_pa r0 -> tr_pa r0 + 2048 < 2 ^ 64 -> tr_enqueue 128 t r0 = Done (cmd_ring_ c) ->
  GetTRBType e = kTRBTypeCommandCompletionEvent -> trb_data e = next_entry_pa r0 ->
  HandleEvent h fuel alloc_pa null_pa e c =
    if GetTRBType t =? kTRBTypeEnableSlotCommand then HandleEnableSlotCommandCompletion h fuel e c
    else if GetTRBType t =? kTRBTypeAddressDeviceCommand then HandleAddressDeviceCommandCompletion h fuel alloc_pa null_pa e c
    else if GetTRBType t =? kTRBTypeConfigureEndpointCommand then HandleConfigureEndpointCommandCompletion e c
    else MarkSlotAsFailed h fuel (GetSlotID e) c.
Proof.
  intros Hk H0 H1 E Hty Hd. unfold HandleEvent. rewrite Hty, Z.eqb_refl. unfold HandleCommandCompletion. rewrite Hd.
  destruct (tr_enqueue_at 128 t r0 k) as (r1 & E1 & [Hr1 Hp1] & Hpa & He & _); [lia|done|]. rewrite E in E1. injection E1 as <-.
  replace (GetEntryFromPhysAddr kNumOfCmdTRBRingEntries (next_entry_pa r0) (tr_ring (cmd_ring_ c))) with (Done (Z.of_nat (k mod 128)) : res Z).
  2:{ rewrite <- (entry_pa_index 128 r0 k) by (done || lia). unfold GetEntryFromPhysAddr. rewrite Hp1, Hpa. destruct Hk as [_ ->]. reflexivity. }
  cbn [rbind]. rewrite (get_at_lookup _ _ (set_cycle (cyc 128 k) t)); [|lia|by rewrite Nat2Z.id]. cbn [rbind].
  rewrite type_set_cycle by (apply cyc_bit; lia). reflexivity.
Qed.
Lemma handle_enable h e c p slot s ctx out r k speed :
  slot_request_for_port_ c !! trb_data e = Some (Z.of_nat p) -> IsCompletedWithSuccess e = true -> GetSlotID e = slot ->
  (p < length (port_state_ (ports_ c)))%nat -> slot_info_ c !! Z.to_nat slot = Some s -> slot < Z.of_nat (length (device_context_base_array_ c)) ->
  equipped s ctx out r -> ring_at 128 (cmd_ring_ c) k ->
  (forall t, GetBits 13 10 (hw_reg h t (PORTSC (Z.of_nat p))) = speed) -> speed_known speed = true ->
  exists r1 cr, init_tring 32 r = Done r1 /\ tr_enqueue 128 (address_device_trb slot (ictx_pa ctx)) (cmd_ring_ c) = Done cr /\
  HandleEnableSlotCommandCompletion h fuel e c = Done (put_slot slot
      (set_state kWaitingForSecondAddressDeviceCommandCompletion (set_max_packet_size (packet_size speed)
        (set_input_ctx (address_context (Z.of_nat p) speed (tr_pa r) ctx) (set_ctrl r1 (set_port (Z.of_nat p) s)))))
      (set_io (Io (S (now (io_ c))) ((Db 0, 0) :: log (io_ c)) (allocs (io_ c)))
        (set_cmd_ring cr (set_dcbaa (<[Z.to_nat slot := out]> (device_context_base_array_ c))
          (with_ports (<[p := kSlotAssigned]> (port_state_ (ports_ c))) (port_is_initializing_ (ports_ c)) (port_init_deadline_ (ports_ c))
            (set_requests (delete (trb_data e) (slot_request_for_port_ c)) c)))))).
Proof.
  intros Hm Hok Hslot Hp El Hd [Ec Eo Er Hmem] Hk Hsp Hknown. unfold HandleEnableSlotCommandCompletion. rewrite Hm, Hok. cbn [negb].
  unfold set_port_state. cbn [set_requests ports_]. rewrite set_at_ok by lia. cbn [rbind]. rewrite Nat2Z.id, Hslot.
  assert (0 <= slot) as H0 by (subst slot; apply u8_range).
  set (c1 := set_ports _ _). unfold get_slot. rewrite (get_at_lookup (slot_info_ c1) slot s) by done. cbn [rbind].
  destruct (send_address h slot (put_slot slot (set_port (Z.of_nat p) s) c1) (set_port (Z.of_nat p) s) ctx out r k speed) as (r1 & cr & E1 & E2 & E3);
    [cbn [put_slot set_slots slot_info_]; apply list_lookup_insert_eq; by eapply lookup_lt_Some|done|exact Hd|by split|exact Hk|exact Hsp|exact Hknown|].
  exists r1, cr. split; [exact E1|]. split; [exact E2|]. rewrite E3. unfold put_slot. cbn [set_io set_cmd_ring set_dcbaa set_slots slot_info_ io_ sl_port set_port].
  rewrite list_insert_insert_eq. reflexivity.
Qed.

(** The three blocks of a control read, put into the ring of a slot. *)
Definition get_device_descriptor : BasicTRB := Setup_SetParams kReqTypeBitDirectionDeviceToHost kReqGetDescriptor (Z.shiftl 1 8) 0 18 false.
Definition tr_enqueue_all (ts : list BasicTRB) (r : tring) : res tring :=
  foldl (fun r t => do r <- r; tr_enqueue 32 t r) (Done r) ts.
Lemma ctrl_push_exact slot t c s r r1 :
  0 <= slot -> slot_info_ c !! Z.to_nat slot = Some s -> ctrl_ep_tring s = Some r -> tr_enqueue 32 t r = Done r1 ->
  ctrl_push slot t c = Done (put_slot slot (set_ctrl r1 s) c).
Proof.
  intros H0 El Er E. unfold ctrl_push, get_slot. rewrite (get_at_lookup _ _ s) by done. cbn [rbind]. rewrite Er. cbn [bool_decide kassert rbind deref].
  change kNumOfCtrlEPRingEntries with 32%nat. by rewrite E.
Qed.
Lemma put_slot_lookup slot s s0 c : slot_info_ c !! Z.to_nat slot = Some s0 -> slot_info_ (put_slot slot s c) !! Z.to_nat slot = Some s.
Proof. intros H. cbn [put_slot set_slots slot_info_]. apply list_lookup_insert_eq. by eapply lookup_lt_Some. Qed.
Lemma put_slot_twice slot s s' c : put_slot slot s (put_slot slot s' c) = put_slot slot s c.
Proof. unfold put_slot. cbn [set_slots slot_info_]. by rewrite list_insert_insert_eq. Qed.
Lemma request_device slot x c s r q pa :
  1 <= slot < 256 -> slot_info_ c !! Z.to_nat slot = Some s -> ctrl_ep_tring s = Some r -> ring_at 32 r q ->
  descriptor_buffers_ c !! Z.to_nat slot = Some (Some pa) ->
  exists r3, tr_enqueue_all [get_device_descriptor; data_stage_trb pa 18 true; Status_SetParams false false] r = Done r3 /\
    RequestDeviceDescriptor null_pa slot x c =
    Done (set_io (Io (now (io_ c)) ((Db slot, 1) :: log (io_ c)) (allocs (io_ c))) (put_slot slot (set_state x (set_ctrl r3 s)) c)).
Proof.
  intros Hs El Er Hq Hb.
  destruct (tr_enqueue_at 32 get_device_descriptor r q) as (r1 & E1 & Hq1 & _); [lia|done|].
  destruct (tr_enqueue_at 32 (data_stage_trb pa 18 true) r1 (S q)) as (r2 & E2 & Hq2 & _); [lia|done|].
  destruct (tr_enqueue_at 32 (Status_SetParams false false) r2 (S (S q))) as (r3 & E3 & Hq3 & _); [lia|done|].
  exists r3. split; [unfold tr_enqueue_all; cbn [foldl rbind]; rewrite E1; cbn [rbind]; rewrite E2; cbn [rbind]; exact E3|].
  unfold RequestDeviceDescriptor, PutDataStageTD. fold get_device_descriptor.
  rewrite (ctrl_push_exact slot _ c s r r1) by (done || lia). cbn [rbind].
  unfold buffer_pa. cbn [put_slot set_slots descriptor_buffers_]. rewrite (get_at_lookup _ _ (Some pa)) by (done || lia). cbn [rbind default].
  rewrite (ctrl_push_exact slot _ (put_slot slot (set_ctrl r1 s) c) (set_ctrl r1 s) r1 r2) by (done || lia || by eapply put_slot_lookup). cbn [rbind].
  rewrite put_slot_twice. rewrite (ctrl_push_exact slot _ (put_slot slot (set_ctrl r2 (set_ctrl r1 s)) c) (set_ctrl r2 (set_ctrl r1 s)) r2 r3)
    by (done || lia || by eapply put_slot_lookup). cbn [rbind]. rewrite put_slot_twice.
  unfold change_state, get_slot. rewrite (get_at_lookup _ _ (set_ctrl r3 (set_ctrl r2 (set_ctrl r1 s)))) by (lia || by eapply put_slot_lookup). cbn [rbind].
  rewrite put_slot_twice. unfold ring_doorbell, NotifyDeviceContextDoorbell. ztrue (1 <=? slot). ztrue (slot <=? 255). reflexivity.
Qed.
Lemma handle_addressed h e c slot s r q :
  IsCompletedWithSuccess e = true -> GetSlotID e = slot -> 1 <= slot -> slot_info_ c !! Z.to_nat slot = Some s -> ctrl_ep_tring s = Some r ->
  ring_at 32 r q -> length (descriptor_buffers_ c) = 256%nat ->
  let pa := alloc_pa (allocs (io_ c)) in
  exists r3, tr_enqueue_all [get_device_descriptor; data_stage_trb pa 18 true; Status_SetParams false false] r = Done r3 /\
    HandleAddressDeviceCommandCompletion h fuel alloc_pa null_pa e c =
    Done (set_io (Io (now (io_ c)) ((Db slot, 1) :: log (io_ c)) (S (allocs (io_ c))))
      (put_slot slot (set_state kWaitingForDeviceDescriptor (set_ctrl r3 s)) (set_buffers (<[Z.to_nat slot := Some pa]> (descriptor_buffers_ c)) c))).
Proof.
  intros Hok Hslot H1 El Er Hq Hb pa. pose proof (u8_range (GetBits 31 24 (trb_control e))) as Hs. fold (GetSlotID e) in Hs. rewrite Hslot in Hs.
  unfold HandleAddressDeviceCommandCompletion, AllocMemoryForMappedIO. rewrite Hok, Hslot. cbn [negb set_io descriptor_buffers_]. rewrite set_at_ok by lia. cbn [rbind].
  set (c1 := set_buffers _ _). destruct (request_device slot kWaitingForDeviceDescriptor c1 s r q pa) as (r3 & E1 & E2); [lia|exact El|exact Er|exact Hq| |].
  { cbn [c1 set_buffers descriptor_buffers_]. apply list_lookup_insert_eq. lia. }
  exists r3. split; [exact E1|]. rewrite E2. reflexivity.
Qed.
Lemma handle_described h e c slot s pa :
  GetTRBType e = kTRBTypeTransferEvent -> IsCompletedWithSuccess e = true -> GetSlotID e = slot -> slot_info_ c !! Z.to_nat slot = Some s ->
  sl_state s = kWaitingForDeviceDescriptor -> descriptor_buffers_ c !! Z.to_nat slot = Some (Some pa) ->
  0 <= sl_port s < Z.of_nat (length (port_is_initializing_ (ports_ c))) ->
  HandleEvent h fuel alloc_pa null_pa e c = Done (with_ports (port_state_ (ports_ c)) (<[Z.to_nat (sl_port s) := false]> (port_is_initializing_ (ports_ c)))
    (port_init_deadline_ (ports_ c))
    (put_slot slot (set_state kAvailable (set_ident (map (fun k => hw_dma h (pa + k)) [4; 5; 6; 14; 15; 17] ++ [0]) s)) c)).
Proof.
  intros Hty Hok Hslot El Hst Hb Hp. unfold HandleEvent. rewrite Hty. change (kTRBTypeTransferEvent =? kTRBTypeCommandCompletionEvent) with false.
  change (kTRBTypeTransferEvent =? kTRBTypePortStatusChangeEvent) with false. rewrite Z.eqb_refl. cbn [negb].
  assert (0 <= slot) as H0 by (subst slot; apply u8_range).
  unfold HandleTransferEvent, get_slot. rewrite Hslot, (get_at_lookup _ _ s) by done. cbn [rbind]. rewrite Hok. cbn [negb andb]. rewrite Hst.
  rewrite (get_at_lookup _ _ (Some pa)) by done. cbn [rbind deref]. unfold set_initializing.
  cbn [put_slot set_slots ports_ sl_port set_state set_ident]. rewrite set_at_ok by lia. reflexivity.
Qed.

(** *** Five polls *)

Fixpoint polls (hs : list hw) (c : ctrl) : res ctrl :=
  match hs with [] => Done c | h :: hs' => do c <- poll h c; polls hs' c end.

(** A port has a device attached, nothing else is going on, and the controller
    is about to hand out [slot], whose structures are allocated. *)
Record plugged (c : ctrl) (er : EventRing) (p : nat) (x : PortState) (slot : Z) (s : SlotInfo) (ctx : InputContext) (out : Z) (r : tring) (k : nat) : Prop := Plugged {
  pl_wf : wf c;
  pl_ready : ready c er;
  pl_none : list_find (eq kNeedsSlotAssignment) (port_state_ (ports_ c)) = None;
  pl_idle : list_find (eq true) (port_is_initializing_ (ports_ c)) = None;
  pl_first : list_find (fun x => x = kAttachedUSB2 \/ x = kAttachedUSB3) (port_state_ (ports_ c)) = Some (p, x);
  pl_slot : 1 <= slot < 256;
  pl_info : slot_info_ c !! Z.to_nat slot = Some s;
  pl_equipped : equipped s ctx out r;
  pl_cmd : ring_at 128 (cmd_ring_ c) k;
  pl_pa : 0 <= tr_pa (cmd_ring_ c) /\ tr_pa (cmd_ring_ c) + 2048 < 2 ^ 64;
  pl_request : slot_request_for_port_ c !! next_entry_pa (cmd_ring_ c) = None;
}.
(** Event [e] reports the success of the command at [pa] for [slot]. *)
Definition completes (e : BasicTRB) (pa slot : Z) : Prop :=
  GetTRBType e = kTRBTypeCommandCompletionEvent /\ trb_data e = pa /\ IsCompletedWithSuccess e = true /\ GetSlotID e = slot.
Definition transferred (e : BasicTRB) (slot : Z) : Prop :=
  GetTRBType e = kTRBTypeTransferEvent /\ IsCompletedWithSuccess e = true /\ GetSlotID e = slot.
(** No event during the first two polls; then Enable Slot, Address Device and
    the transfer complete, one in each poll, before the deadline. *)
Record answers (c : ctrl) (er : EventRing) (p : nat) (x : PortState) (slot speed : Z) (k : nat) (h1 h2 h3 h4 h5 : hw) : Prop := Answers {
  an_settled : Forall (fun h => settled h (max_ports_ (params_ c)) (port_state_ (ports_ c))) [h1; h2; h3; h4; h5];
  an_up : x = kAttachedUSB2 -> port_up h1 (Z.of_nat p);
  an_speed : forall t, GetBits 13 10 (hw_reg h3 t (PORTSC (Z.of_nat p))) = speed;
  an_known : speed_known speed = true;
  an_counter : forall t, 0 <= hw_reg h1 t HpetCounter + GetCountPerSecond fs < 2 ^ 64;
  an_time : Forall (fun h => forall t t0, hw_reg h t HpetCounter <= hw_reg h1 t0 HpetCounter + GetCountPerSecond fs) [h3; h4; h5];
  an_quiet : HasNextEvent h1 er = false /\ HasNextEvent h2 er = false;
  an_event3 : HasNextEvent h3 er = true;
  an_enabled : completes (hw_event h3 (index_ er)) (tr_pa (cmd_ring_ c) + 16 * Z.of_nat (k mod 128)) slot;
  an_event4 : HasNextEvent h4 (next_event er) = true;
  an_addressed : completes (hw_event h4 (index_ (next_event er))) (tr_pa (cmd_ring_ c) + 16 * Z.of_nat (S k mod 128)) slot;
  an_event5 : HasNextEvent h5 (next_event (next_event er)) = true;
  an_described : transferred (hw_event h5 (index_ (next_event (next_event er)))) slot;
}.

Arguments pl_wf {_ _ _ _ _ _ _ _ _ _} _.
Arguments pl_ready {_ _ _ _ _ _ _ _ _ _} _.
Arguments pl_none {_ _ _ _ _ _ _ _ _ _} _.
Arguments pl_idle {_ _ _ _ _ _ _ _ _ _} _.
Arguments pl_first {_ _ _ _ _ _ _ _ _ _} _.
Arguments pl_slot {_ _ _ _ _ _ _ _ _ _} _.
Arguments pl_info {_ _ _ _ _ _ _ _ _ _} _.
Arguments pl_equipped {_ _ _ _ _ _ _ _ _ _} _.
Arguments pl_cmd {_ _ _ _ _ _ _ _ _ _} _.
Arguments pl_pa {_ _ _ _ _ _ _ _ _ _} _.
Arguments pl_request {_ _ _ _ _ _ _ _ _ _} _.
Arguments an_settled {_ _ _ _ _ _ _ _ _ _ _ _} _.
Arguments an_up {_ _ _ _ _ _ _ _ _ _ _ _} _.
Arguments an_speed {_ _ _ _ _ _ _ _ _ _ _ _} _.
Arguments an_known {_ _ _ _ _ _ _ _ _ _ _ _} _.
Arguments an_counter {_ _ _ _ _ _ _ _ _ _ _ _} _.
Arguments an_time {_ _ _ _ _ _ _ _ _ _ _ _} _.
Arguments an_quiet {_ _ _ _ _ _ _ _ _ _ _ _} _.
Arguments an_event3 {_ _ _ _ _ _ _ _ _ _ _ _} _.
Arguments an_enabled {_ _ _ _ _ _ _ _ _ _ _ _} _.
Arguments an_event4 {_ _ _ _ _ _ _ _ _ _ _ _} _.
Arguments an_addressed {_ _ _ _ _ _ _ _ _ _ _ _} _.
Arguments an_event5 {_ _ _ _ _ _ _ _ _ _ _ _} _.
Arguments an_described {_ _ _ _ _ _ _ _ _ _ _ _} _.

(** The states between the polls, relative to the first. *)
Definition canon (c : ctrl) (i : io) (cr : tring) (a : list Z) (er : EventRing) (bufs : list (option Z)) (m : gmap Z Z) (sl : list SlotInfo)
    (l : list PortState) (b : list bool) (d : Z) : ctrl :=
  Ctrl i (lk c) (params_ c) cr a (Some er) bufs (key_buffers_ c) m sl (keyid_buffer_ c) (Ports l b d).
Definition io_like (i : io) (n : nat) (ds : list (Z * Z)) : Prop := allocs i = n /\ doorbells (log i) = ds.

Lemma find_inserted {A} (P : A -> Prop) `{!forall x, Decision (P x)} (l : list A) i x :
  list_find P l = None -> P x -> (i < length l)%nat -> list_find P (<[i := x]> l) = Some (i, x).
Proof.
  intros Hn Hx Hi. apply list_find_None in Hn. apply list_find_Some. split; [by apply list_lookup_insert_eq|]. split; [done|].
  intros j y Hj Hlt. rewrite list_lookup_insert_ne in Hj by lia. by apply (Forall_lookup_1 _ _ _ _ Hn Hj).
Qed.
Lemma find_not_inserted {A} (P : A -> Prop) `{!forall x, Decision (P x)} (l : list A) i x :
  list_find P l = None -> ~ P x -> list_find P (<[i := x]> l) = None.
Proof. intros Hn Hx. apply list_find_None in Hn. apply list_find_None. by apply Forall_insert. Qed.
Lemma doorbells_skip w l : doorbell_of w = None -> doorbells (w :: l) = doorbells l.
Proof. intros H. unfold doorbells. cbn [omap]. cbn. by rewrite H. Qed.

Section Stages.
Context (c : ctrl) (er : EventRing) (p : nat) (x : PortState) (slot : Z) (s : SlotInfo) (ctx : InputContext) (out : Z) (r : tring) (k : nat)
  (speed : Z) (h1 h2 h3 h4 h5 : hw).
Context (HP : plugged c er p x slot s ctx out r k) (HA : answers c er p x slot speed k h1 h2 h3 h4 h5) (Hfuel : (0 < fuel)%nat).
Let L := port_state_ (ports_ c).
Let B := port_is_initializing_ (ports_ c).
Let n0 := allocs (io_ c).
Let ds := doorbells (log (io_ c)).

Lemma port_in_range : (p < 256)%nat /\ length L = 256%nat /\ length B = 256%nat /\ L !! p = Some x /\ x <> kDisconnected.
Proof using HP HA Hfuel.
  pose proof (w_ports c (pl_wf HP)) as (H1 & H2 & _). pose proof (pl_first HP) as H.
  apply list_find_Some in H as (Hl & Hx & _). split_and!; [apply lookup_lt_Some in Hl; lia|done|done|done|]. by destruct Hx as [-> | ->].
Qed.
(** The port stays connected as its state changes. *)
Lemma stays_settled h y : settled h (max_ports_ (params_ c)) L -> y <> kDisconnected -> y <> kAttached -> settled h (max_ports_ (params_ c)) (<[p := y]> L).
Proof using HP HA Hfuel. intros Hs H1 H2. destruct port_in_range as (_ & _ & _ & El & Hx). by apply (settled_insert h _ L p x). Qed.

Lemma stage1 : exists i t, io_like i n0 ds /\ poll h1 c = Done (canon c i (cmd_ring_ c) (device_context_base_array_ c) er (descriptor_buffers_ c)
  (slot_request_for_port_ c) (slot_info_ c) (<[p := kNeedsSlotAssignment]> L) (<[p := true]> B) (u64 (hw_reg h1 t HpetCounter + GetCountPerSecond fs))).
Proof using HP HA Hfuel.
  destruct HP as [Hw Hr H1 H2 H3 _ _ _ _ _ _]. destruct (check_begin h1 c p x Hfuel Hw H1 H2 H3 (an_up HA)) as (i & t & E & Ha & Hd).
  pose proof (an_settled HA) as Hset. apply Forall_cons_1 in Hset as [Hset _].
  destruct (poll_quiet h1 er c _ Hr E) as [n En]; [done|apply (an_quiet HA)|by apply stays_settled|].
  exists (Io n (log i) (allocs i)), t. split; [by split|]. rewrite En. destruct Hr as [_ _ He _]. unfold canon. rewrite <- He. reflexivity.
Qed.
Lemma stage2 i d : io_like i n0 ds ->
  let c1 := canon c i (cmd_ring_ c) (device_context_base_array_ c) er (descriptor_buffers_ c) (slot_request_for_port_ c) (slot_info_ c)
    (<[p := kNeedsSlotAssignment]> L) (<[p := true]> B) d in
  exists i2 r1, io_like i2 n0 ((0, 0) :: ds) /\ tr_enqueue 128 enable_slot_trb (cmd_ring_ c) = Done r1 /\
    poll h2 c1 = Done (canon c i2 r1 (device_context_base_array_ c) er (descriptor_buffers_ c)
      (<[next_entry_pa (cmd_ring_ c) := Z.of_nat p]> (slot_request_for_port_ c)) (slot_info_ c) (<[p := kWaitingForSlotAssignment]> L) (<[p := true]> B) d).
Proof using HP HA Hfuel.
  intros [Hn Hd] c1. destruct port_in_range as (Hp & HL & HB & El & Hx). destruct HP as [Hw Hr H1 H2 H3 _ _ _ Hk _ Hm].
  destruct (check_enable h2 c1 p k kNeedsSlotAssignment) as (r1 & E1 & E2);
    [cbn; by rewrite length_insert|apply find_inserted; [exact H1|done|fold L; lia]|exact Hk|exact Hm|].
  assert (ready c1 er) as Hr1 by (destruct Hr; by split).
  pose proof (an_settled HA) as Hset. apply Forall_cons_1 in Hset as [_ Hset]. apply Forall_cons_1 in Hset as [Hset _].
  destruct (poll_quiet h2 er c1 _ Hr1 E2) as [n En]; [done|apply (an_quiet HA)| |].
  { cbn [c1 canon with_ports set_ports set_requests set_cmd_ring set_io ports_ port_state_ params_]. rewrite list_insert_insert_eq. by apply stays_settled. }
  exists (Io n ((Db 0, 0) :: log i) (allocs i)), r1. split; [split; [exact Hn|cbn; by rewrite <- Hd]|]. split; [exact E1|]. rewrite En.
  unfold after_reads, with_ports. cbn [c1 canon set_ports set_requests set_cmd_ring set_io ports_ port_state_ port_is_initializing_ port_init_deadline_].
  rewrite list_insert_insert_eq. reflexivity.
Qed.
Lemma next_entry_k : next_entry_pa (cmd_ring_ c) = tr_pa (cmd_ring_ c) + 16 * Z.of_nat (k mod 128).
Proof using HP HA Hfuel. unfold next_entry_pa. destruct (pl_cmd HP) as [Hr _]. by rewrite (rk_idx _ _ _ Hr). Qed.
(** The slot after Enable Slot. *)
Definition slot3 (r1 : tring) : SlotInfo :=
  set_state kWaitingForSecondAddressDeviceCommandCompletion (set_max_packet_size (packet_size speed)
    (set_input_ctx (address_context (Z.of_nat p) speed (tr_pa r) ctx) (set_ctrl r1 (set_port (Z.of_nat p) s)))).
Lemma stage3 i r1 t : io_like i n0 ((0, 0) :: ds) -> tr_enqueue 128 enable_slot_trb (cmd_ring_ c) = Done r1 ->
  let d := u64 (hw_reg h1 t HpetCounter + GetCountPerSecond fs) in
  let c2 := canon c i r1 (device_context_base_array_ c) er (descriptor_buffers_ c) (<[next_entry_pa (cmd_ring_ c) := Z.of_nat p]> (slot_request_for_port_ c))
    (slot_info_ c) (<[p := kWaitingForSlotAssignment]> L) (<[p := true]> B) d in
  exists i3 r2 q, io_like i3 n0 ((0, 0) :: (0, 0) :: ds) /\ tr_enqueue 128 (address_device_trb slot (ictx_pa ctx)) r1 = Done r2 /\ init_tring 32 r = Done q /\
    poll h3 c2 = Done (canon c i3 r2 (<[Z.to_nat slot := out]> (device_context_base_array_ c)) (next_event er) (descriptor_buffers_ c)
      (slot_request_for_port_ c) (<[Z.to_nat slot := slot3 q]> (slot_info_ c)) (<[p := kSlotAssigned]> L) (<[p := true]> B) d).
Proof using HP HA Hfuel.
  intros [Hn Hd] E1 d c2. destruct port_in_range as (Hp & HL & HB & El & Hx). pose proof next_entry_k as Hpa0.
  destruct HP as [Hw Hr H1 H2 H3 Hslot Hinfo Heq Hk [Hpa Hpa2] Hm].
  assert (ready c2 er) as Hr2 by (destruct Hr; by split). pose proof (Forall_cons_1 _ _ _ (an_time HA)) as [Ht _].
  assert (CheckPortAndInitiateProcess h3 fuel fs c2 = Done (after_reads (S (now i)) c2)) as E2.
  { apply (check_wait h3 c2 p true).
    - apply find_not_inserted; [exact H1|done].
    - apply find_inserted; [exact H2|done|fold B; lia].
    - intros t0. cbn [c2 canon ports_ port_init_deadline_]. unfold d. rewrite u64_small by apply (an_counter HA). apply Ht. }
  destruct (an_enabled HA) as (He1 & He2 & He3 & He4). set (e := hw_event h3 (index_ er)) in *. set (c2' := after_reads _ c2) in E2.
  rewrite <- Hpa0 in He2.
  assert (trb_data e = next_entry_pa (cmd_ring_ c)) as He2' by done.
  destruct (tr_enqueue_at 128 enable_slot_trb (cmd_ring_ c) k) as (r1' & E1' & Hr1 & _); [lia|done|]. rewrite E1 in E1'. injection E1' as <-.
  destruct (handle_enable h3 e c2' p slot s ctx out r (S k) speed) as (q & r2 & Eq & Er2 & EH); try done.
  { rewrite He2. apply lookup_insert_eq. }
  { cbn [c2' c2 after_reads canon set_io ports_ port_state_]. rewrite length_insert. fold L. lia. }
  { pose proof (w_dcbaa c Hw). cbn [c2' c2 after_reads canon set_io device_context_base_array_]. lia. }
  { exact (an_speed HA). }
  { exact (an_known HA). }
  assert (HandleEvent h3 fuel alloc_pa null_pa e c2' = HandleEnableSlotCommandCompletion h3 fuel e c2') as EV.
  { rewrite (completion_of h3 e c2' (cmd_ring_ c) enable_slot_trb k); [reflexivity|done|done|done|exact E1|done|done]. }
  rewrite EH in EV. pose proof (an_settled HA) as Hset. do 2 apply Forall_cons_1 in Hset as [_ Hset]. apply Forall_cons_1 in Hset as [Hset _].
  destruct (poll_event h3 er c2 c2' _ Hr2 E2 eq_refl (an_event3 HA) EV) as (n & v & En).
  { cbn [c2' c2 after_reads canon with_ports set_ports set_requests set_dcbaa set_cmd_ring put_slot set_slots set_io ports_ port_state_ params_].
    rewrite list_insert_insert_eq. by apply stays_settled. }
  eexists (Io n _ _), r2, q. split; [|split; [exact Er2|split; [exact Eq|rewrite En]]].
  2:{ unfold with_ports, put_slot. cbn [c2' c2 after_reads canon set_ports set_requests set_dcbaa set_cmd_ring set_slots set_io set_event_ring ports_ port_state_ port_is_initializing_ port_init_deadline_
        slot_request_for_port_ slot_info_ io_ log allocs]. rewrite list_insert_insert_eq, He2, delete_insert_eq, delete_id by done. reflexivity. }
  split; [exact Hn|]. cbn [log]. rewrite doorbells_skip by done. cbn. by rewrite <- Hd.
Qed.
Definition buf : Z := alloc_pa n0.
Definition slot4 (q3 : tring) (q : tring) : SlotInfo := set_state kWaitingForDeviceDescriptor (set_ctrl q3 (slot3 q)).
Definition request_trbs : list BasicTRB := [get_device_descriptor; data_stage_trb buf 18 true; Status_SetParams false false].
Lemma stage4 i r1 r2 q t : io_like i n0 ((0, 0) :: (0, 0) :: ds) -> tr_enqueue 128 enable_slot_trb (cmd_ring_ c) = Done r1 ->
  tr_enqueue 128 (address_device_trb slot (ictx_pa ctx)) r1 = Done r2 -> init_tring 32 r = Done q ->
  let d := u64 (hw_reg h1 t HpetCounter + GetCountPerSecond fs) in
  let c3 := canon c i r2 (<[Z.to_nat slot := out]> (device_context_base_array_ c)) (next_event er) (descriptor_buffers_ c)
      (slot_request_for_port_ c) (<[Z.to_nat slot := slot3 q]> (slot_info_ c)) (<[p := kSlotAssigned]> L) (<[p := true]> B) d in
  exists i4 q3, io_like i4 (S n0) ((slot, 1) :: (0, 0) :: (0, 0) :: ds) /\ tr_enqueue_all request_trbs q = Done q3 /\
    poll h4 c3 = Done (canon c i4 r2 (<[Z.to_nat slot := out]> (device_context_base_array_ c)) (next_event (next_event er))
      (<[Z.to_nat slot := Some buf]> (descriptor_buffers_ c)) (slot_request_for_port_ c) (<[Z.to_nat slot := slot4 q3 q]> (slot_info_ c))
      (<[p := kSlotAssigned]> L) (<[p := true]> B) d).
Proof using HP HA Hfuel.
  intros [Hn Hd] E1 E2 Eq d c3. destruct port_in_range as (Hp & HL & HB & El & Hx).
  destruct HP as [Hw Hr H1 H2 H3 Hslot Hinfo [Ec Eo Er Hmem] Hk [Hpa Hpa2] Hm].
  assert (ready c3 (next_event er)) as Hr3 by (destruct Hr; by split).
  pose proof (an_time HA) as Ht. apply Forall_cons_1 in Ht as [_ Ht]. apply Forall_cons_1 in Ht as [Ht _].
  assert (CheckPortAndInitiateProcess h4 fuel fs c3 = Done (after_reads (S (now i)) c3)) as EC.
  { apply (check_wait h4 c3 p true).
    - apply find_not_inserted; [exact H1|done].
    - apply find_inserted; [exact H2|done|fold B; lia].
    - intros t0. cbn [c3 canon ports_ port_init_deadline_]. unfold d. rewrite u64_small by apply (an_counter HA). apply Ht. }
  destruct (an_addressed HA) as (He1 & He2 & He3 & He4). set (e := hw_event h4 (index_ (next_event er))) in *. set (c3' := after_reads _ c3) in EC.
  destruct (tr_enqueue_at 128 enable_slot_trb (cmd_ring_ c) k) as (r1' & E1' & Hr1 & Hpa1 & _); [lia|done|]. rewrite E1 in E1'. injection E1' as <-.
  assert (trb_data e = next_entry_pa r1) as He2'.
  { rewrite He2. unfold next_entry_pa. destruct Hr1 as [Hr1 _]. by rewrite (rk_idx _ _ _ Hr1), Hpa1. }
  destruct (init_tring_at 32 r) as (q' & Eq' & Hq & Hqpa); [lia|done|]. rewrite Eq in Eq'. injection Eq' as <-.
  assert (Z.to_nat slot < length (slot_info_ c))%nat as Hsl by (by eapply lookup_lt_Some).
  destruct (handle_addressed h4 e c3' slot (slot3 q) q 0) as (q3 & Eq3 & EH); try done; [lia|cbn; by apply list_lookup_insert_eq|exact (w_bufs c Hw)|].
  assert (HandleEvent h4 fuel alloc_pa null_pa e c3' = HandleAddressDeviceCommandCompletion h4 fuel alloc_pa null_pa e c3') as EV.
  { rewrite (completion_of h4 e c3' r1 (address_device_trb slot (ictx_pa ctx)) (S k)); [|done|lia|lia|exact E2|done|done].
    rewrite address_device_type by lia. reflexivity. }
  rewrite EH in EV. pose proof (an_settled HA) as Hset. do 3 apply Forall_cons_1 in Hset as [_ Hset]. apply Forall_cons_1 in Hset as [Hset _].
  destruct (poll_event h4 (next_event er) c3 c3' _ Hr3 EC eq_refl (an_event4 HA) EV) as (n & v & En); [by apply stays_settled|].
  cbn [c3' c3 after_reads canon set_io io_ allocs] in Eq3. rewrite Hn in Eq3.
  eexists (Io n _ _), q3. split; [|split; [exact Eq3|rewrite En]].
  2:{ unfold put_slot. cbn [c3' c3 after_reads canon set_buffers set_slots set_io set_event_ring descriptor_buffers_ slot_info_ io_ log allocs].
      rewrite list_insert_insert_eq, Hn. reflexivity. }
  split; [reflexivity|]. cbn [log]. rewrite doorbells_skip by done. cbn. by rewrite <- Hd.
Qed.
Definition slot5 (q3 q : tring) : SlotInfo :=
  set_state kAvailable (set_ident (map (fun j => hw_dma h5 (buf + j)) [4; 5; 6; 14; 15; 17] ++ [0]) (slot4 q3 q)).
Lemma stage5 i r2 q q3 t : io_like i (S n0) ((slot, 1) :: (0, 0) :: (0, 0) :: ds) ->
  let d := u64 (hw_reg h1 t HpetCounter + GetCountPerSecond fs) in
  let c4 := canon c i r2 (<[Z.to_nat slot := out]> (device_context_base_array_ c)) (next_event (next_event er))
      (<[Z.to_nat slot := Some buf]> (descriptor_buffers_ c)) (slot_request_for_port_ c) (<[Z.to_nat slot := slot4 q3 q]> (slot_info_ c))
      (<[p := kSlotAssigned]> L) (<[p := true]> B) d in
  exists i5, io_like i5 (S n0) ((slot, 1) :: (0, 0) :: (0, 0) :: ds) /\
    poll h5 c4 = Done (canon c i5 r2 (<[Z.to_nat slot := out]> (device_context_base_array_ c)) (next_event (next_event (next_event er)))
      (<[Z.to_nat slot := Some buf]> (descriptor_buffers_ c)) (slot_request_for_port_ c) (<[Z.to_nat slot := slot5 q3 q]> (slot_info_ c))
      (<[p := kSlotAssigned]> L) (<[p := false]> B) d).
Proof using HP HA Hfuel.
  intros [Hn Hd] d c4. destruct port_in_range as (Hp & HL & HB & El & Hx).
  destruct HP as [Hw Hr H1 H2 H3 Hslot Hinfo _ Hk _ Hm].
  assert (ready c4 (next_event (next_event er))) as Hr4 by (destruct Hr; by split).
  pose proof (an_time HA) as Ht. do 2 apply Forall_cons_1 in Ht as [_ Ht]. apply Forall_cons_1 in Ht as [Ht _].
  assert (CheckPortAndInitiateProcess h5 fuel fs c4 = Done (after_reads (S (now i)) c4)) as EC.
  { apply (check_wait h5 c4 p true).
    - apply find_not_inserted; [exact H1|done].
    - apply find_inserted; [exact H2|done|fold B; lia].
    - intros t0. cbn [c4 canon ports_ port_init_deadline_]. unfold d. rewrite u64_small by apply (an_counter HA). apply Ht. }
  destruct (an_described HA) as (He1 & He2 & He3). set (e := hw_event h5 _) in *. set (c4' := after_reads _ c4) in EC.
  assert (Z.to_nat slot < length (slot_info_ c))%nat as Hsl by (by eapply lookup_lt_Some).
  pose proof (handle_described h5 e c4' slot (slot4 q3 q) buf He1 He2 He3) as EH.
  specialize (EH ltac:(cbn; by apply list_lookup_insert_eq) eq_refl ltac:(cbn; apply list_lookup_insert_eq; rewrite (w_bufs c Hw); lia)).
  specialize (EH ltac:(cbn; rewrite length_insert; fold B; lia)).
  pose proof (an_settled HA) as Hset. do 4 apply Forall_cons_1 in Hset as [_ Hset]. apply Forall_cons_1 in Hset as [Hset _].
  destruct (poll_event h5 _ c4 c4' _ Hr4 EC eq_refl (an_event5 HA) EH) as (n & v & En); [by apply stays_settled|].
  eexists (Io n _ _). split; [|rewrite En].
  2:{ unfold put_slot, with_ports. cbn [c4' c4 after_reads canon set_ports set_slots set_io set_event_ring ports_ port_state_ port_is_initializing_ port_init_deadline_ slot_info_ io_ log allocs].
      change (sl_port (slot4 q3 q)) with (Z.of_nat p). rewrite Nat2Z.id, !list_insert_insert_eq. reflexivity. }
  split; [exact Hn|]. cbn [log]. rewrite doorbells_skip by done. cbn. by rewrite <- Hd.
Qed.
End Stages.

(** C6: a device that is plugged in becomes an available slot.  From a state in
    which [p] is the first attached port and nothing is being initialised, five
    polls, in which the controller completes Enable Slot, Address Device and the
    transfer of the descriptor in time, lead to: slot [slot] available, on port
    [p], with class, subclass, protocol, string indices and number of
    configurations as the device wrote them into the buffer; the port assigned and
    none initialising; exactly the doorbells of the host controller (twice) and of
    the control endpoint rung; the two commands and the three blocks of the request
    in their rings, in order; the address of the output context in the base
    array. *)
Theorem device_is_enumerated c er p x slot s ctx out r k speed h1 h2 h3 h4 h5 :
  (0 < fuel)%nat -> plugged c er p x slot s ctx out r k -> answers c er p x slot speed k h1 h2 h3 h4 h5 ->
  let buf := alloc_pa (allocs (io_ c)) in
  exists c5 s5 q q3 r1, polls [h1; h2; h3; h4; h5] c = Done c5 /\ slot_info_ c5 !! Z.to_nat slot = Some s5 /\
    sl_state s5 = kAvailable /\ sl_port s5 = Z.of_nat p /\
    [device_class s5; device_subclass s5; device_protocol s5; manufacturer_idx s5; product_idx s5; num_of_config s5] =
      map (fun j => hw_dma h5 (buf + j)) [4; 5; 6; 14; 15; 17] /\
    input_ctx s5 = Some (address_context (Z.of_nat p) speed (tr_pa r) ctx) /\
    port_state_ (ports_ c5) !! p = Some kSlotAssigned /\ (forall j, port_is_initializing_ (ports_ c5) !! j <> Some true) /\
    doorbells (log (io_ c5)) = [(slot, 1); (0, 0); (0, 0)] ++ doorbells (log (io_ c)) /\
    (tr_enqueue 128 enable_slot_trb (cmd_ring_ c) = Done r1 /\ tr_enqueue 128 (address_device_trb slot (ictx_pa ctx)) r1 = Done (cmd_ring_ c5)) /\
    (init_tring 32 r = Done q /\ tr_enqueue_all [get_device_descriptor; data_stage_trb buf 18 true; Status_SetParams false false] q = Done q3 /\
      ctrl_ep_tring s5 = Some q3) /\
    device_context_base_array_ c5 !! Z.to_nat slot = Some out.
Proof.
  intros Hf HP HA buf0.
  destruct (stage1 _ _ _ _ _ _ _ _ _ _ _ _ _ _ _ _ HP HA Hf) as (i1 & t & Hi1 & E1).
  destruct (stage2 _ _ _ _ _ _ _ _ _ _ _ _ _ _ _ _ HP HA Hf i1 (u64 (hw_reg h1 t HpetCounter + GetCountPerSecond fs)) Hi1) as (i2 & r1 & Hi2 & Er1 & E2).
  destruct (stage3 _ _ _ _ _ _ _ _ _ _ _ _ _ _ _ _ HP HA Hf i2 r1 t Hi2 Er1) as (i3 & r2 & q & Hi3 & Er2 & Eq & E3).
  destruct (stage4 _ _ _ _ _ _ _ _ _ _ _ _ _ _ _ _ HP HA Hf i3 r1 r2 q t Hi3 Er1 Er2 Eq) as (i4 & q3 & Hi4 & Eq3 & E4).
  destruct (stage5 _ _ _ _ _ _ _ _ _ _ _ _ _ _ _ _ HP HA Hf i4 r2 q q3 t Hi4) as (i5 & [Hn5 Hd5] & E5).
  destruct (port_in_range _ _ _ _ _ _ _ _ _ _ _ _ _ _ _ _ HP HA Hf) as (Hp & HL & HB & El & Hx).
  pose proof (pl_info HP) as Hinfo. pose proof (pl_slot HP) as Hslot. pose proof (w_dcbaa c (pl_wf HP)) as Hd.
  eexists _, (slot5 c p s ctx r speed h5 q3 q), q, q3, r1. split.
  { cbn [polls]. rewrite E1. cbn [rbind]. rewrite E2. cbn [rbind]. rewrite E3. cbn [rbind]. rewrite E4. cbn [rbind]. rewrite E5. reflexivity. }
  cbn [canon slot_info_ ports_ port_state_ port_is_initializing_ io_ cmd_ring_ device_context_base_array_].
  split_and!; try reflexivity; try done.
  - apply list_lookup_insert_eq. by eapply lookup_lt_Some.
  - apply list_lookup_insert_eq. lia.
  - intros j Hj. apply list_lookup_insert_Some in Hj as [(_ & [=] & _)|[_ Hj]]. exact (none_initializing c (pl_idle HP) j Hj).
  - apply list_lookup_insert_eq. lia.
Qed.

(** *** The deadline *)

Lemma check_expired h c p :
  (0 < fuel)%nat -> wf c -> list_find (eq kNeedsSlotAssignment) (port_state_ (ports_ c)) = None ->
  port_is_initializing_ (ports_ c) !! p = Some true -> (forall t, port_init_deadline_ (ports_ c) < hw_reg h t HpetCounter) -> port_up h (Z.of_nat p) ->
  exists i, CheckPortAndInitiateProcess h fuel fs c =
    Done (with_ports (<[p := kDisabled]> (port_state_ (ports_ c))) (<[p := false]> (port_is_initializing_ (ports_ c))) (port_init_deadline_ (ports_ c)) (set_io i c)).
Proof.
  intros Hf Hw H1 Hp Hd Hu. pose proof (w_ports c Hw) as (L1 & L2 & Hsolo). assert (p < 256)%nat as Hlt by (apply lookup_lt_Some in Hp; lia).
  assert (list_find (eq true) (port_is_initializing_ (ports_ c)) = Some (p, true)) as H2.
  { apply list_find_Some. split; [done|]. split; [done|]. intros j y Hj Hjp <-. pose proof (Hsolo _ _ Hp Hj). lia. }
  unfold CheckPortAndInitiateProcess. rewrite H1, H2. unfold read_reg. cbn [set_io ports_].
  specialize (Hd (now (io_ c))). ztrue (port_init_deadline_ (ports_ c) <? hw_reg h (now (io_ c)) HpetCounter). unfold DisablePort. set (c1 := set_io _ _).
  destruct (ResetPort_up h p c1 Hf) as (i & E & _); [by repeat apply wf_io|done|done|]. exists i. rewrite E. reflexivity.
Qed.
Lemma solo_cleared l p : solo l -> l !! p = Some true -> forall j, <[p := false]> l !! j <> Some true.
Proof.
  intros Hs Hp j Hj. apply list_lookup_insert_Some in Hj as [(_ & [=] & _)|[Hne Hj]]. by apply Hne, Hs.
Qed.

(** C31: a device that does not answer does not block the others.  When the deadline
    of the port that is being initialised has passed, the next poll disables this
    port and no port is initialising any more; the poll after it starts the
    initialisation of the first attached port, with a deadline of one second from
    then. *)
Theorem stuck_port_gives_way c er p j x st h1 h2 :
  (0 < fuel)%nat -> wf c -> ready c er -> list_find (eq kNeedsSlotAssignment) (port_state_ (ports_ c)) = None ->
  port_is_initializing_ (ports_ c) !! p = Some true -> port_state_ (ports_ c) !! p = Some st -> st <> kDisconnected ->
  (forall t, port_init_deadline_ (ports_ c) < hw_reg h1 t HpetCounter) -> port_up h1 (Z.of_nat p) -> (x = kAttachedUSB2 -> port_up h2 (Z.of_nat j)) ->
  list_find (fun x => x = kAttachedUSB2 \/ x = kAttachedUSB3) (<[p := kDisabled]> (port_state_ (ports_ c))) = Some (j, x) ->
  HasNextEvent h1 er = false -> HasNextEvent h2 er = false ->
  settled h1 (max_ports_ (params_ c)) (port_state_ (ports_ c)) -> settled h2 (max_ports_ (params_ c)) (port_state_ (ports_ c)) ->
  exists c1 c2 t, poll h1 c = Done c1 /\ port_state_ (ports_ c1) !! p = Some kDisabled /\
    (forall a, port_is_initializing_ (ports_ c1) !! a <> Some true) /\
    poll h2 c1 = Done c2 /\ port_state_ (ports_ c2) !! j = Some kNeedsSlotAssignment /\
    (forall a, port_is_initializing_ (ports_ c2) !! a = Some true <-> a = j) /\
    port_init_deadline_ (ports_ c2) = u64 (hw_reg h2 t HpetCounter + GetCountPerSecond fs).
Proof.
  intros Hf Hw Hr H1 Hp Hst Hst0 Hd Hu Hu2 Hj Hq1 Hq2 Hs1 Hs2.
  pose proof (w_ports c Hw) as (L1 & L2 & Hsolo). assert (p < 256)%nat as Hlt by (apply lookup_lt_Some in Hp; lia).
  destruct (check_expired h1 c p Hf Hw H1 Hp Hd Hu) as (i & E).
  assert (settled h1 (max_ports_ (params_ c)) (<[p := kDisabled]> (port_state_ (ports_ c)))) as Hs1' by (by apply (settled_insert _ _ _ _ st)).
  assert (settled h2 (max_ports_ (params_ c)) (<[p := kDisabled]> (port_state_ (ports_ c)))) as Hs2' by (by apply (settled_insert _ _ _ _ st)).
  destruct (poll_quiet h1 er c _ Hr E eq_refl Hq1 Hs1') as [n En]. set (c1 := after_reads n _) in En.
  assert (wf c1) as Hw1.
  { apply wf_io, wf_set_ports; [by apply wf_io|]. split_and!; cbn; [by rewrite length_insert|by rewrite length_insert|by apply solo_clear]. }
  assert (forall a, port_is_initializing_ (ports_ c1) !! a <> Some true) as Hn1 by (by apply solo_cleared).
  assert (ready c1 er) as Hr1 by (destruct Hr; by split).
  destruct (check_begin h2 c1 j x Hf Hw1) as (i2 & t & E2 & _).
  { apply find_not_inserted; [exact H1|done]. }
  { apply list_find_None, list.Forall_lookup_2. intros a b Hab <-. by apply (Hn1 a). }
  { exact Hj. }
  { exact Hu2. }
  assert (j < length (<[p := kDisabled]> (port_state_ (ports_ c))) /\ exists y, <[p := kDisabled]> (port_state_ (ports_ c)) !! j = Some y /\ y <> kDisconnected)%nat
    as (Hjl & y & Hy & Hyd).
  { apply list_find_Some in Hj as (Hl & Hx & _). split; [by eapply lookup_lt_Some|]. exists x. split; [done|]. by destruct Hx as [-> | ->]. }
  destruct (poll_quiet h2 er c1 _ Hr1 E2 eq_refl Hq2) as [m Em]; [by apply (settled_insert _ _ _ _ y)|].
  rewrite length_insert in Hjl. eexists c1, _, t. split; [exact En|]. split; [apply list_lookup_insert_eq; lia|]. split; [exact Hn1|]. split; [exact Em|].
  split; [apply list_lookup_insert_eq; destruct (w_ports c1 Hw1) as (L3 & _ & _); rewrite L3; lia|]. split; [|reflexivity]. intros a.
  change (<[j := true]> (port_is_initializing_ (ports_ c1)) !! a = Some true <-> a = j). split.
  - intros Ha. apply list_lookup_insert_Some in Ha as [[-> _]|[_ Ha]]; [done|]. by apply Hn1 in Ha.
  - intros ->. apply list_lookup_insert_eq. destruct (w_ports c1 Hw1) as (_ & L3 & _). rewrite L3. lia.
Qed.
End Enumerate.

(** ** The input context of a new device *)

Definition word (w : Z) : Prop := 0 <= w < 2 ^ 32.
Lemma word_high w i : word w -> 32 <= i -> Z.testbit w i = false.
Proof.
  unfold word. intros Hw Hi. destruct (Z.eq_dec w 0) as [->|]; [apply Z.bits_0|]. apply Z.bits_above_log2; [lia|].
  assert (Z.log2 w < 32) by (apply Z.log2_lt_pow2; lia). lia.
Qed.
Lemma combine_word hi lo w v : 0 <= lo <= hi -> hi < 32 -> word w -> word (CombineFieldBits hi lo w v).
Proof.
  intros H Hh Hw. assert (CombineFieldBits hi lo w v = u32 (CombineFieldBits hi lo w v)) as ->; [|apply u32_range].
  apply Z.bits_inj'. intros i Hi. rewrite u32_testbit by lia. destruct (Z.ltb_spec i 32); [done|]. cbn [andb].
  rewrite CombineFieldBits_testbit by (done || lia). zfalse (i <=? hi). rewrite andb_false_r. by apply word_high.
Qed.
(** Setting one field leaves a disjoint one as it was. *)
Lemma GetBits_other hi lo hi' lo' w v :
  0 <= lo <= hi -> hi < 32 -> 0 <= lo' <= hi' -> hi' < lo \/ hi < lo' -> word w ->
  GetBits hi' lo' (CombineFieldBits hi lo w v) = GetBits hi' lo' w.
Proof.
  intros H Hh H' Hd Hw. apply Z.bits_inj'. intros i Hi. rewrite !GetBits_testbit by lia.
  destruct (Z.leb_spec i (hi' - lo')); [|by rewrite andb_false_r]. f_equal. rewrite CombineFieldBits_testbit by (done || lia).
  destruct (Z.leb_spec lo (i + lo')), (Z.leb_spec (i + lo') hi); cbn [andb]; (done || lia).
Qed.
Ltac fields := repeat first [ rewrite GetBits_CombineFieldBits by (unfold word in *; try lia; repeat apply combine_word; (lia || assumption))
  | rewrite GetBits_other by (unfold word in *; try lia; repeat apply combine_word; (lia || assumption)) ].

(** An endpoint context as [describe_endpoint] leaves it. *)
Record endpoint_described (type pa size : Z) (e : EndpointContext) : Prop := EndpointDescribed {
  ed_type : get_field 5 3 1 e = type;
  ed_errors : get_field 2 1 1 e = 3;
  ed_size : get_field 31 16 1 e = size;
  ed_cycle : get_field 0 0 2 e = 1;
  ed_pointer : GetTRDequeuePointer e / 16 = pa / 16;
}.
Lemma dequeue_pointer w2 pa : word w2 -> 0 <= pa < 2 ^ 64 ->
  Z.lor (Z.shiftl (u32 (Z.shiftr pa 32)) 32) (CombineFieldBits 0 0 (CombineFieldBits 31 4 w2 (u32 (Z.shiftr pa 4))) 1) / 16 = pa / 16.
Proof.
  intros Hw Hpa. set (w := CombineFieldBits 0 0 _ 1). assert (word w) as Hww by (apply combine_word; [lia|lia|apply combine_word; (lia || done)]).
  change 16 with (2 ^ 4). rewrite <- !Z.shiftr_div_pow2 by lia. apply Z.bits_inj'. intros i Hi. rewrite !Z.shiftr_spec by lia. rewrite Z.lor_spec.
  rewrite Z.shiftl_spec by lia. destruct (Z.lt_ge_cases (i + 4) 32) as [Hlo|Hhi].
  - rewrite Z.testbit_neg_r by lia. cbn [orb]. unfold w. rewrite CombineFieldBits_testbit; [|lia|lia|apply combine_word; (lia || done)|lia].
    zfalse (i + 4 <=? 0). rewrite andb_false_r. rewrite CombineFieldBits_testbit by (done || lia). ztrue (4 <=? i + 4). ztrue (i + 4 <=? 31). cbn [andb].
    rewrite u32_testbit by lia. ztrue (i + 4 - 4 <? 32). cbn [andb]. rewrite Z.shiftr_spec by lia. f_equal. lia.
  - assert (Z.testbit w (i + 4) = false) as ->.
    { apply word_high; [done|lia]. }
    rewrite orb_false_r, u32_testbit, Z.shiftr_spec by lia. destruct (Z.ltb_spec (i + 4 - 32) 32); cbn [andb]; [f_equal; lia|].
    symmetry. destruct (Z.eq_dec pa 0) as [->|]; [apply Z.bits_0|]. apply Z.bits_above_log2; [lia|]. assert (Z.log2 pa < 64) by (apply Z.log2_lt_pow2; lia). lia.
Qed.
Lemma describe_endpoint_ok type pa size e :
  length e = 8%nat -> Forall word e -> 0 <= type < 8 -> 0 <= size < 65536 -> 0 <= pa < 2 ^ 64 ->
  endpoint_described type pa size (describe_endpoint type pa size e).
Proof.
  intros HL HF Ht Hs Hpa. do 8 (destruct e as [|? e]; [discriminate HL|]). destruct e; [|discriminate HL]. clear HL.
  rewrite !List.Forall_cons_iff in HF. destruct HF as (W0 & W1 & W2 & W3 & _).
  unfold describe_endpoint, SetMaxPacketSize, SetErrorCount, SetDequeueCycleState, SetTRDequeuePointer, SetEPType, set_field.
  split; unfold get_field, GetTRDequeuePointer; cbn [alter list_alter insert list_insert nth].
  - fields. done.
  - fields. done.
  - fields. done.
  - fields. done.
  - by apply dequeue_pointer.
Qed.

(** Address Device describes the device to the controller.  For a slot with its
    structures allocated, on a port whose speed is known, the command is put into
    the command ring with the slot's number and the address of the input context,
    the doorbell is rung, the output context is entered in the base array, and the
    input context says: slot context and control endpoint are added and nothing is
    dropped; the port, one context entry, the speed; a control endpoint with three
    retries, the packet size of that speed, cycle state 1 and the address of the
    freshly initialised transfer ring. *)
Theorem address_device_describes h fuel slot c s ctx out r k speed ep0 eps :
  slot_info_ c !! Z.to_nat slot = Some s -> 0 <= slot < 256 -> slot < Z.of_nat (length (device_context_base_array_ c)) -> equipped s ctx out r ->
  ring_at 128 (cmd_ring_ c) k -> (forall t, GetBits 13 10 (hw_reg h t (PORTSC (sl_port s))) = speed) -> speed_known speed = true ->
  0 <= sl_port s < 256 -> 0 <= tr_pa r < 2 ^ 64 -> length (slot_ctx_ (device_ctx_ ctx)) = 8%nat -> Forall word (slot_ctx_ (device_ctx_ ctx)) ->
  endpoint_ctx_ (device_ctx_ ctx) = ep0 :: eps -> length ep0 = 8%nat -> Forall word ep0 ->
  exists c' s' ctx' q, SendAddressDeviceCommand h fuel slot c = Done c' /\ slot_info_ c' !! Z.to_nat slot = Some s' /\
    input_ctx s' = Some ctx' /\ sl_state s' = kWaitingForSecondAddressDeviceCommandCompletion /\
    (ctrl_ep_tring s' = Some q /\ ring_at 32 q 0 /\ tr_pa q = tr_pa r) /\
    tr_enqueue 128 (address_device_trb slot (ictx_pa ctx')) (cmd_ring_ c) = Done (cmd_ring_ c') /\
    log (io_ c') = (Db 0, 0) :: log (io_ c) /\ device_context_base_array_ c' !! Z.to_nat slot = Some out /\
    input_ctrl_ctx_ ctx' = [0; 3; 0; 0; 0; 0; 0; 0] /\
    (let d := device_ctx_ ctx' in
     get_field 23 16 1 (slot_ctx_ d) = sl_port s /\ get_field 31 27 0 (slot_ctx_ d) = 1 /\ get_field 23 20 0 (slot_ctx_ d) = speed /\
     exists e, endpoint_ctx_ d = e :: eps /\ endpoint_described kEPTypeControl (tr_pa r) (packet_size speed) e).
Proof.
  intros El Hs Hd He Hk Hsp Hkn Hp Hpa HL HF Hep HL0 HF0.
  destruct (send_address fuel h slot c s ctx out r k speed El (proj1 Hs) Hd He Hk Hsp Hkn) as (q & cr & Eq & Ecr & E).
  destruct He as [_ _ _ Hm]. destruct (init_tring_at 32 r) as (q' & Eq' & Hq & Hqp); [lia|done|]. rewrite Eq in Eq'. injection Eq' as <-.
  eexists _, _, _, q. split; [exact E|]. split; [eapply put_slot_lookup; exact El|]. split; [reflexivity|]. split; [reflexivity|]. split; [done|].
  split; [exact Ecr|]. split; [reflexivity|]. split; [cbn; apply list_lookup_insert_eq; lia|]. split; [reflexivity|]. cbn zeta.
  destruct (slot_ctx_ (device_ctx_ ctx)) as [|w0 [|w1 ws]] eqn:Ews; [discriminate HL|discriminate HL|].
  rewrite !List.Forall_cons_iff in HF. destruct HF as (W0 & W1 & _).
  assert (0 <= speed < 16) as Hspeed.
  { unfold speed_known, kPortSpeedFS, kPortSpeedLS, kPortSpeedHS, kPortSpeedSS in Hkn. rewrite !orb_true_iff, !Z.eqb_eq in Hkn. lia. }
  unfold address_context, SetPortSpeed, SetContextEntries, SetRootHubPortNumber, set_field, get_field.
  cbn [set_device_ctx device_ctx_ slot_ctx_ SetAddContext Clear endpoint_ctx_]. rewrite Ews, Hep. cbn [alter list_alter nth].
  split_and!; [by fields|by fields|by fields|]. eexists. split; [reflexivity|].
  apply describe_endpoint_ok; [done|done|unfold kEPTypeControl; lia|unfold packet_size; zcmps; lia|done].
Qed.

(** ** Keyboard reports *)

(** The keys that are down in a report. *)
Definition keys_of (data : list Z) : list Z := take 6 (drop 2 data).
(** The keys that are down now and were not before, in the order of their codes. *)
Definition new_keys (now before : list Z) : list Z :=
  filter (fun k => k ∈ keys_of now /\ k ∉ keys_of before) (seqZ 1 255).
Definition key_id (k : Z) : Z := nth (Z.to_nat k) mapping 0.

(** Bit [k mod 8] of byte [k / 8]. *)
Definition key_bit (bits : list Z) (k : Z) : bool := Z.testbit (nth (Z.to_nat (k / 8)) bits 0) (k mod 8).
Lemma u8_testbit x i : 0 <= i < 8 -> Z.testbit (u8 x) i = Z.testbit x i.
Proof. intros Hi. unfold u8. apply Z.mod_pow2_bits_low. lia. Qed.
Lemma nth_alter (f : Z -> Z) i j l : (i < length l)%nat -> nth j (alter f i l) 0 = if decide (i = j) then f (nth j l 0) else nth j l 0.
Proof.
  intros Hi. rewrite !nth_lookup. destruct (decide (i = j)) as [->|Hne].
  - rewrite list_lookup_alter_eq. by destruct (lookup_lt_is_Some_2 l j Hi) as [x ->].
  - by rewrite list_lookup_alter_ne.
Qed.
Lemma key_bits_spec codes : forall bits k, Forall is_byte codes -> (32 <= length bits)%nat -> 1 <= k < 256 ->
  key_bit (key_bits codes bits) k = bool_decide (k ∈ codes) || key_bit bits k.
Proof.
  induction codes as [|d codes IH]; intros bits k HF HL Hk.
  { rewrite bool_decide_false; [done|]. apply not_elem_of_nil. }
  apply Forall_cons_1 in HF as [Hd HF]. cbn [key_bits]. unfold is_byte in Hd. destruct (Z.eqb_spec d 0) as [->|Hd0].
  { rewrite IH by done. f_equal. apply bool_decide_ext. rewrite elem_of_cons. split; [by right|]. intros [->|]; [lia|done]. }
  rewrite IH by (rewrite ?length_alter; done). assert (Z.shiftr d 3 = d / 8) as -> by (by rewrite shiftr_div by lia).
  assert (Z.land d 7 = d mod 8) as -> by (apply (land_ones_mod d 3); lia).
  unfold key_bit at 1. rewrite nth_alter by (assert (d / 8 < 32) by zdiv; assert (0 <= d / 8) by zdiv; lia).
  assert (0 <= k mod 8 < 8 /\ 0 <= d mod 8 < 8) as [Hkm Hdm] by (split; apply Z.mod_pos_bound; lia).
  destruct (decide (Z.to_nat (d / 8) = Z.to_nat (k / 8))) as [Ebyte|Ebyte].
  - rewrite u8_testbit, Z.lor_spec, Z.shiftl_spec by lia. fold (key_bit bits k). destruct (Z.eq_dec d k) as [->|Hne].
    + rewrite Z.sub_diag. cbn [Z.testbit]. rewrite orb_true_r, orb_true_r. symmetry. apply orb_true_iff. left. apply bool_decide_true. by left.
    + assert (Z.testbit 1 (k mod 8 - d mod 8) = false) as ->.
      { destruct (Z.lt_trichotomy (k mod 8) (d mod 8)) as [H|[H|H]]; [by rewrite Z.testbit_neg_r by lia|exfalso; zdiv|].
        apply Z.bits_above_log2; [lia|cbn; lia]. }
      rewrite orb_false_r. f_equal. apply bool_decide_ext. rewrite elem_of_cons. split; [by right|]. by intros [->|].
  - fold (key_bit bits k). f_equal. apply bool_decide_ext. rewrite elem_of_cons. split; [by right|]. by intros [->|].
Qed.
Lemma key_bit_insert bits v k : 0 <= k < 256 -> key_bit (<[32%nat := v]> bits) k = key_bit bits k.
Proof. intros Hk. unfold key_bit. rewrite !nth_lookup, list_lookup_insert_ne; [done|]. assert (k / 8 < 32) by zdiv. assert (0 <= k / 8) by zdiv. lia. Qed.
Lemma new_key_bits_spec data k : Forall is_byte data -> 1 <= k < 256 -> key_bit (new_key_bits data) k = bool_decide (k ∈ keys_of data).
Proof.
  intros HF Hk. unfold new_key_bits. rewrite key_bit_insert by lia. fold (keys_of data).
  rewrite key_bits_spec; [|unfold keys_of; by apply Forall_take, Forall_drop|rewrite length_replicate; lia|done].
  assert (key_bit (replicate 33 0) k = false) as ->; [|by rewrite orb_false_r].
  unfold key_bit. rewrite nth_lookup. destruct (replicate 33 0 !! _) as [y|] eqn:E; [apply lookup_replicate in E as [-> _]|]; apply Z.bits_0.
Qed.

Definition press_all (ks : list Z) (q : RingBuffer.ring (T := Z)) : RingBuffer.ring (T := Z) := foldl (fun q k => PressKey k q) q ks.
Lemma press_all_app a b q : press_all (a ++ b) q = press_all b (press_all a q).
Proof. apply foldl_app. Qed.
Lemma bit_test d k : 0 <= k -> (Z.land (Z.shiftr d k) 1 =? 1) = Z.testbit d k.
Proof.
  intros Hk. change 1 with (2 ^ 1 - 1) at 1. rewrite land_ones_mod by lia.
  rewrite Z.shiftr_div_pow2 by lia. pose proof (Z.testbit_spec' d k Hk) as H. change (2 ^ 1) with 2. rewrite <- H. by destruct (Z.testbit d k).
Qed.
Lemma seqZ_head m n : 0 < n -> seqZ m n = m :: seqZ (m + 1) (n - 1).
Proof. intros Hn. by rewrite (seqZ_cons m n), Z.add_1_r, Z.sub_1_r by lia. Qed.
Lemma press_bits_all n i : forall k d q, 0 <= k ->
  press_bits n i k d q = press_all (map (fun j => i * 8 + j) (filter (fun j => Z.testbit d j = true) (seqZ k (Z.of_nat n)))) q.
Proof.
  induction n as [|n IH]; intros k d q Hk; [by rewrite seqZ_nil by lia|]. cbn [press_bits]. rewrite IH by lia. rewrite (seqZ_head k) by lia.
  replace (Z.of_nat (S n) - 1) with (Z.of_nat n) by lia. rewrite filter_cons, bit_test by lia.
  destruct (Z.testbit d k); [rewrite decide_True by done; done|by rewrite decide_False].
Qed.
(** Pressed in [new], and not in [old]; the first byte of the lists is byte [i]. *)
Definition newly (i : Z) (new old : list Z) (k : Z) : Prop := key_bit new (k - 8 * i) = true /\ key_bit old (k - 8 * i) = false.
#[local] Instance newly_dec i new old k : Decision (newly i new old k).
Proof. unfold newly. apply _. Defined.
Lemma filter_shift (P : Z -> Prop) (Q : Z -> Prop) `{!forall x, Decision (P x), !forall x, Decision (Q x)} a m n :
  (forall j, m <= j < m + n -> P j <-> Q (a + j)) -> map (fun j => a + j) (filter P (seqZ m n)) = filter Q (seqZ (a + m) n).
Proof.
  intros Hpq. rewrite <- (fmap_add_seqZ a m n). change (map (fun j => a + j)) with (fmap (M := list) (fun j => a + j)).
  replace (Z.add a) with (fun j => a + j) by reflexivity. assert (forall j, j ∈ seqZ m n -> P j <-> Q (a + j)) as Hin by (intros j Hj; apply Hpq; by apply elem_of_seqZ in Hj).
  clear Hpq. revert Hin. generalize (seqZ m n). induction l as [|y l IH]; intros Hin; [done|]. cbn [fmap list_fmap]. rewrite !filter_cons.
  assert (P y <-> Q (a + y)) as Hy by (apply Hin; by left). rewrite <- IH by (intros; apply Hin; by right).
  repeat case_decide; try tauto; reflexivity.
Qed.
Lemma press_diff_all : forall new old i q, length new = length old -> 0 <= i ->
  press_diff i new old q = press_all (filter (newly i new old) (seqZ (8 * i) (8 * Z.of_nat (length new)))) q.
Proof.
  induction new as [|n new IH]; intros [|o old] i q HL Hi; try discriminate HL; [by rewrite seqZ_nil by (cbn; lia)|].
  cbn [press_diff]. rewrite press_bits_all by lia. rewrite IH by (cbn in HL; lia). rewrite <- press_all_app. f_equal.
  replace (8 * Z.of_nat (length (n :: new))) with (8 + 8 * Z.of_nat (length new)) by (cbn [length]; lia). rewrite seqZ_app, list.filter_app by lia. f_equal.
  - assert (seqZ (8 * i) 8 = seqZ (i * 8 + 0) 8) as -> by (f_equal; lia). change (Z.of_nat 8) with 8. apply filter_shift. intros j Hj. unfold newly, key_bit.
    replace (i * 8 + j - 8 * i) with j by lia. assert (j / 8 = 0) as -> by zdiv. assert (j mod 8 = j) as -> by (apply Z.mod_small; lia).
    cbn [nth Z.to_nat]. rewrite u8_testbit, Z.land_spec, Z.lnot_spec, andb_true_iff, negb_true_iff by lia. done.
  - replace (8 * (i + 1)) with (8 * i + 8) by lia. apply filter_ext_in. intros k Hk. apply elem_of_seqZ in Hk. unfold newly, key_bit.
    assert ((k - 8 * i) / 8 = (k - (8 * i + 8)) / 8 + 1) as Eq by zdiv. assert ((k - 8 * i) mod 8 = (k - (8 * i + 8)) mod 8) as Em by zdiv.
    replace (8 * (i + 1)) with (8 * i + 8) by lia. rewrite Eq, Em. assert (0 <= (k - (8 * i + 8)) / 8) by zdiv.
    rewrite Z2Nat.inj_add, Nat.add_1_r by lia. done.
Qed.
Lemma press_outside ks q : Forall (fun k => k <= 0 \/ 256 <= k) ks -> press_all ks q = q.
Proof.
  induction 1 as [|k ks Hk _ IH]; [done|]. cbn [press_all foldl]. unfold PressKey at 2.
  destruct (Z.ltb_spec 0 k), (Z.ltb_spec k 256); cbn [andb]; (exact IH || lia).
Qed.
Lemma press_all_abs ks : forall l q, RingBuffer.abs 16 l q -> Forall (fun k => 1 <= k < 256) ks ->
  RingBuffer.abs 16 (take 15 (l ++ map key_id ks)) (press_all ks q).
Proof.
  induction ks as [|k ks IH]; intros l q Hq HF.
  { cbn [map press_all foldl]. rewrite app_nil_r, take_ge; [done|]. destruct Hq. lia. }
  apply Forall_cons_1 in HF as [Hk HF]. cbn [press_all foldl]. unfold PressKey at 2. ztrue (0 <? k). ztrue (k <? 256). cbn [andb].
  fold (key_id k). pose proof (RingBuffer.Push_abs 16 l q (key_id k) Hq) as HP. specialize (IH _ _ HP HF). cbn [map].
  destruct (Nat.ltb_spec (length l + 1) 16) as [Hlt|Hge].
  - by rewrite <- app_assoc in IH.
  - assert (length l = 15)%nat as HL by (destruct Hq; lia). rewrite take_app_length' in IH |- * by lia. exact IH.
Qed.

(** C32: a keyboard report types the keys that went down.  When the previous report
    of the slot was [before], handling the report [now] appends, in the order of
    their codes, the key ids of exactly the keys that are in [now] and were not in
    [before] to the queue that the shell reads (as far as its 15 places go), and
    remembers [now]; keys that are held or released type nothing. *)
Theorem key_report_types slot now before c q :
  wf c -> 0 <= slot < 256 -> Forall is_byte now -> Forall is_byte before ->
  key_buffers_ c !! Z.to_nat slot = Some (new_key_bits before) -> RingBuffer.abs 16 q (keyid_buffer_ c) ->
  exists k, HandleKeyInput slot now c = Done (set_keys (<[Z.to_nat slot := new_key_bits now]> (key_buffers_ c)) k c) /\
    RingBuffer.abs 16 (take 15 (q ++ map key_id (new_keys now before))) k.
Proof.
  intros Hw Hs HN HB Hb Hq. unfold HandleKeyInput. rewrite (get_at_lookup _ _ (new_key_bits before)) by (done || lia). cbn [rbind].
  rewrite set_at_ok by (rewrite (w_keys c Hw); lia). cbn [rbind]. eexists. split; [reflexivity|].
  rewrite press_diff_all by (rewrite ?length_new_key_bits; (done || lia)). rewrite length_new_key_bits. set (P := newly 0 _ _).
  change (8 * 0) with 0. change (8 * Z.of_nat 33) with (1 + (255 + 8)). rewrite seqZ_app, list.filter_app, press_all_app by lia.
  rewrite (press_outside (filter P (seqZ 0 1))).
  2:{ apply list.Forall_forall. intros k Hk. apply list_elem_of_filter in Hk as [_ Hk]. apply elem_of_seqZ in Hk. lia. }
  rewrite seqZ_app, list.filter_app, press_all_app by lia. rewrite (press_outside (filter P (seqZ (0 + 1 + 255) 8))).
  2:{ apply list.Forall_forall. intros k Hk. apply list_elem_of_filter in Hk as [_ Hk]. apply elem_of_seqZ in Hk. lia. }
  replace (filter P (seqZ (0 + 1) 255)) with (new_keys now before).
  2:{ apply filter_ext_in. intros k Hk. apply elem_of_seqZ in Hk. unfold P, newly. rewrite Z.mul_0_r, Z.sub_0_r.
      rewrite !new_key_bits_spec by (done || lia). rewrite bool_decide_eq_true, bool_decide_eq_false. done. }
  apply press_all_abs; [done|]. apply list.Forall_forall. intros k Hk. apply list_elem_of_filter in Hk as [_ Hk]. apply elem_of_seqZ in Hk. lia.
Qed.

(** ** The theorems on the controller of [XhciProofs] *)

Definition demo_er : EventRing := default (EvRing 0 0 0 0 (0, (0, 0))) (primary_event_ring_ demo2).
Definition demo_slot : SlotInfo := default zero_slot (slot_info_ demo2 !! 1%nat).
Definition demo_ctx : InputContext := default (InCtx [] (DevCtx [] []) 0) (input_ctx demo_slot).
Definition demo_out : Z := default 0 (output_ctx demo_slot).
Definition demo_tring : tring := default (TRing 0 (Ring [] 0 0 0)) (ctrl_ep_tring demo_slot).
Definition demo_cmd_pa : Z := tr_pa (cmd_ring_ demo2).
(** Enable Slot, Address Device and the transfer complete with slot 1. *)
Definition demo_events (n : nat) : BasicTRB :=
  match n with
  | 0 => TRB demo_cmd_pa (Z.shiftl 1 24) (Z.shiftl 1 24 + Z.shiftl 33 10 + 1)
  | 1 => TRB (demo_cmd_pa + 16) (Z.shiftl 1 24) (Z.shiftl 1 24 + Z.shiftl 33 10 + 1)
  | _ => TRB 0 (Z.shiftl 1 24) (Z.shiftl 1 24 + Z.shiftl 32 10 + 1)
  end%nat.
Definition demo_desc (a : Z) : Z := nth (Z.to_nat (a - demo_alloc (allocs (io_ demo2)))) [18; 1; 0; 2; 2; 6; 0; 64; 0; 0; 0; 0; 0; 0; 1; 2; 3; 1] 0.
Definition demo_h' : hw := demo_hw 1000 demo_events demo_desc.

Lemma demo_cmd : ring_at 128 (cmd_ring_ demo2) 0.
Proof.
  destruct (init_tring_at 128 (TRing demo_cmd_pa (demo_ring 128 demo_cmd_pa))) as (r & E & Hr & _); [lia|apply length_replicate|].
  assert (init_tring 128 (TRing demo_cmd_pa (demo_ring 128 demo_cmd_pa)) = Done (cmd_ring_ demo2)) as E2 by (vm_compute; reflexivity).
  rewrite E in E2. pose proof (Done_inj _ _ E2) as E3. rewrite <- E3. exact Hr.
Qed.
Lemma demo_equipped : equipped demo_slot demo_ctx demo_out demo_tring.
Proof. split; vm_compute; reflexivity. Qed.
Lemma demo_usb_ready c er :
  initialized_ (params_ c) = true -> controller_reset_requested_ (params_ c) = false -> primary_event_ring_ c = Some er -> max_ports_ (params_ c) = 2 -> ready c er.
Proof. intros H1 H2 H3 H4. split; [done|done|done|]. rewrite H4. lia. Qed.
(** Both ports are connected. *)
Lemma demo_settled cnt ev dma l :
  (exists a b, l !! 1%nat = Some a /\ l !! 2%nat = Some b /\ a <> kDisconnected /\ a <> kAttached /\ b <> kDisconnected /\ b <> kAttached) ->
  settled (demo_hw cnt ev dma) 2 l.
Proof.
  intros (a & b & Ha & Hb & H1 & H2 & H3 & H4) port t Hp. assert (port = 1 \/ port = 2) as [-> | ->] by lia; [exists a|exists b]; done.
Qed.
Lemma demo_plugged : plugged demo2 demo_er 1 kAttachedUSB3 1 demo_slot demo_ctx demo_out demo_tring 0.
Proof.
  split.
  - exact (demo_wf demo2 (proj1 demo_reach)).
  - apply demo_usb_ready; vm_compute; reflexivity.
  - vm_compute. reflexivity.
  - vm_compute. reflexivity.
  - vm_compute. reflexivity.
  - lia.
  - vm_compute. reflexivity.
  - exact demo_equipped.
  - exact demo_cmd.
  - vm_compute. split; [discriminate|reflexivity].
  - vm_compute. reflexivity.
Qed.
Lemma demo_answers : answers demo_fs demo2 demo_er 1 kAttachedUSB3 1 4 0 demo_h demo_h demo_h' demo_h' demo_h'.
Proof.
  assert (forall cnt ev dma, settled (demo_hw cnt ev dma) (max_ports_ (params_ demo2)) (port_state_ (ports_ demo2))) as Hs.
  { intros cnt ev dma. assert (max_ports_ (params_ demo2) = 2) as -> by (vm_compute; reflexivity). apply demo_settled.
    exists kAttachedUSB3, kAttachedUSB3. split; [vm_compute; reflexivity|]. split; [vm_compute; reflexivity|]. done. }
  split.
  - repeat constructor; apply Hs.
  - discriminate.
  - intros t. vm_compute. reflexivity.
  - reflexivity.
  - intros t. vm_compute. split; [discriminate|reflexivity].
  - assert (forall h : hw, (forall t, hw_reg h t HpetCounter = 1000) -> forall t t0, hw_reg h t HpetCounter <= hw_reg demo_h t0 HpetCounter + GetCountPerSecond demo_fs) as H.
    { intros h Hh t t0. rewrite Hh. vm_compute. discriminate. }
    repeat constructor; apply H; reflexivity.
  - split; vm_compute; reflexivity.
  - vm_compute. reflexivity.
  - split_and!; vm_compute; reflexivity.
  - vm_compute. reflexivity.
  - split_and!; vm_compute; reflexivity.
  - vm_compute. reflexivity.
  - split_and!; vm_compute; reflexivity.
Qed.
Lemma device_is_enumerated_witness :
  exists c5 s5, polls 4 demo_alloc 0 demo_fs demo_devices demo_ring demo_eps demo_words false 0 [demo_h; demo_h; demo_h'; demo_h'; demo_h'] demo2 = Done c5 /\
    slot_info_ c5 !! 1%nat = Some s5 /\ sl_state s5 = kAvailable /\ sl_port s5 = 1 /\
    [device_class s5; device_subclass s5; device_protocol s5; manufacturer_idx s5; product_idx s5; num_of_config s5] = [2; 6; 0; 1; 2; 1].
Proof.
  destruct (device_is_enumerated 4 demo_alloc 0 demo_fs demo_devices demo_ring demo_eps demo_words false 0 demo2 demo_er 1 kAttachedUSB3 1 demo_slot demo_ctx
    demo_out demo_tring 0 4 demo_h demo_h demo_h' demo_h' demo_h' ltac:(lia) demo_plugged demo_answers)
    as (c5 & s5 & q & q3 & r1 & E & Es & H1 & H2 & H3 & _).
  exists c5, s5. split; [exact E|]. split; [exact Es|]. split; [exact H1|]. split; [exact H2|]. rewrite H3. vm_compute. reflexivity.
Defined.

(** More than a second later. *)
Definition demo_late : hw := demo_hw 20000000 no_event (fun _ => 0).
Lemma stuck_port_gives_way_witness :
  exists c1 c2, PollEvents demo_late 4 demo_alloc 0 demo_fs demo_devices demo_ring demo_eps demo_words false 0 demo4 = Done c1 /\
    port_state_ (ports_ demo4) !! 1%nat = Some kWaitingForSlotAssignment /\ port_state_ (ports_ c1) !! 1%nat = Some kDisabled /\
    PollEvents demo_late 4 demo_alloc 0 demo_fs demo_devices demo_ring demo_eps demo_words false 0 c1 = Done c2 /\
    port_state_ (ports_ c2) !! 2%nat = Some kNeedsSlotAssignment /\ port_init_deadline_ (ports_ c2) = 30000000.
Proof.
  assert (settled demo_late (max_ports_ (params_ demo4)) (port_state_ (ports_ demo4))) as Hs.
  { assert (max_ports_ (params_ demo4) = 2) as -> by (vm_compute; reflexivity). apply demo_settled.
    exists kWaitingForSlotAssignment, kAttachedUSB3. split; [vm_compute; reflexivity|]. split; [vm_compute; reflexivity|]. done. }
  assert (port_state_ (ports_ demo4) !! 1%nat = Some kWaitingForSlotAssignment) as Hw by (vm_compute; reflexivity).
  destruct (stuck_port_gives_way 4 demo_alloc 0 demo_fs demo_devices demo_ring demo_eps demo_words false 0 demo4 demo_er 1 2 kAttachedUSB3
    kWaitingForSlotAssignment demo_late demo_late) as (c1 & c2 & t & E1 & Hd & _ & E2 & Hn & _ & Ht).
  - lia.
  - exact (demo_wf demo4 (proj2 demo_reach)).
  - apply demo_usb_ready; vm_compute; reflexivity.
  - vm_compute. reflexivity.
  - vm_compute. reflexivity.
  - exact Hw.
  - discriminate.
  - intros t. vm_compute. reflexivity.
  - intros t. vm_compute. split; reflexivity.
  - discriminate.
  - vm_compute. reflexivity.
  - vm_compute. reflexivity.
  - vm_compute. reflexivity.
  - exact Hs.
  - exact Hs.
  - exists c1, c2. split; [exact E1|]. split; [exact Hw|]. split; [exact Hd|]. split; [exact E2|]. split; [exact Hn|]. rewrite Ht. vm_compute. reflexivity.
Defined.
Lemma address_device_describes_witness :
  exists c' s' ctx', SendAddressDeviceCommand demo_h 4 1 demo2 = Done c' /\ slot_info_ c' !! 1%nat = Some s' /\ input_ctx s' = Some ctx' /\
    get_field 23 20 0 (slot_ctx_ (device_ctx_ ctx')) = 4.
Proof.
  destruct (address_device_describes demo_h 4 1 demo2 demo_slot demo_ctx demo_out demo_tring 0 4 zero_ctx (replicate 30 zero_ctx))
    as (c' & s' & ctx' & q & E & Es & Ec & _ & _ & _ & _ & _ & _ & _ & _ & Hspeed & _).
  - vm_compute. reflexivity.
  - lia.
  - vm_compute. reflexivity.
  - exact demo_equipped.
  - exact demo_cmd.
  - intros t. vm_compute. reflexivity.
  - reflexivity.
  - vm_compute. split; [discriminate|reflexivity].
  - vm_compute. split; [discriminate|reflexivity].
  - vm_compute. reflexivity.
  - assert (slot_ctx_ (device_ctx_ demo_ctx) = replicate 8 0) as -> by (vm_compute; reflexivity). apply Forall_replicate. unfold word. lia.
  - vm_compute. reflexivity.
  - reflexivity.
  - apply Forall_replicate. unfold word. lia.
  - exists c', s', ctx'. split; [exact E|]. split; [exact Es|]. split; [exact Ec|exact Hspeed].
Defined.
Lemma empty_keys_abs : RingBuffer.abs 16 [] (RingBuffer.Ring (replicate 16 0) 0 0).
Proof. split; cbn; try done; lia. Qed.
(** [b] and [c] go down while [a] is held. *)
Definition demo_held : ctrl := set_keys (<[1%nat := new_key_bits [0; 0; 4; 0; 0; 0; 0; 0]]> (key_buffers_ demo2)) (keyid_buffer_ demo2) demo2.
Lemma demo_held_ok :
  wf demo_held /\ key_buffers_ demo_held !! Z.to_nat 1 = Some (new_key_bits [0; 0; 4; 0; 0; 0; 0; 0]) /\ RingBuffer.abs 16 [] (keyid_buffer_ demo_held).
Proof.
  pose proof (demo_wf demo2 (proj1 demo_reach)) as Hw. pose proof (w_keys demo2 Hw) as HL. split; [|split].
  - apply wf_set_keys; [exact Hw|by rewrite length_insert| |exact (w_keyq demo2 Hw)]. apply Forall_insert; [exact (w_key demo2 Hw)|reflexivity].
  - apply list_lookup_insert_eq. rewrite HL. cbn. lia.
  - replace (keyid_buffer_ demo_held) with (RingBuffer.Ring (replicate 16 0) 0 0) by (vm_compute; reflexivity). exact empty_keys_abs.
Qed.
Lemma key_report_types_witness :
  exists k, HandleKeyInput 1 [0; 0; 4; 6; 5; 0; 0; 0] demo_held =
      Done (set_keys (<[Z.to_nat 1 := new_key_bits [0; 0; 4; 6; 5; 0; 0; 0]]> (key_buffers_ demo_held)) k demo_held) /\ RingBuffer.abs 16 [98; 99] k.
Proof.
  destruct demo_held_ok as (Hc & Hb & Hq).
  destruct (key_report_types 1 [0; 0; 4; 6; 5; 0; 0; 0] [0; 0; 4; 0; 0; 0; 0; 0] demo_held []) as (k & E & Hk);
    [exact Hc|lia|repeat constructor; lia|repeat constructor; lia|exact Hb|exact Hq|].
  exists k. split; [exact E|].
  replace [98; 99] with (take 15 ([] ++ map key_id (new_keys [0; 0; 4; 6; 5; 0; 0; 0] [0; 0; 4; 0; 0; 0; 0; 0]))) by (vm_compute; reflexivity). exact Hk.
Defined.
