(* ===== verification/UsbManager.v ===== *)
(** * The USB manager and its class drivers: [src/usb_manager.cc], and the
    descriptors of [src/xhci.h]

    The manager polls the host controller, gives every slot that becomes available
    a driver, and lets the drivers run one step at a time.  The common driver
    fetches the configuration descriptors; the driver of network adapters (CDC
    ECM) configures the device, reads its address and opens the bulk endpoints.
    Descriptors are bytes, walked with the iterator of the code. *)

From S2P Require Import Prelude KernelBase KernelInput Scheduler Pci Xhci XhciController XhciProofs XhciEnum.

(** ** Descriptors *)

Definition byte_at (cfg : list Z) (k : Z) : res Z := get_at cfg k.
(** [DescriptorIterator]: a base, the total length and an offset. *)
Definition iter_deref (total ofs : Z) : option Z := if (ofs <? 0) || (total <=? ofs) then None else Some ofs.
Definition iter_next (cfg : list Z) (total ofs : Z) : res Z :=
  match iter_deref total ofs with None => Done ofs | Some e => do len <- byte_at cfg e; Done (ofs + len) end.
Definition total_length (cfg : list Z) : res Z := do a <- byte_at cfg 2; do b <- byte_at cfg 3; Done (a + 256 * b).
(** [for (; it != end; ++it)]: the body gets the type of the descriptor and its
    offset, and says whether to leave the loop. *)
Fixpoint walk {A} (fuel : nat) (cfg : list Z) (total ofs : Z) (body : Z -> Z -> A -> res (A * bool)) (a : A) : res (Z * A) :=
  match fuel with
  | O => Stop FuelOut
  | S fuel' =>
    if ofs =? total then Done (ofs, a)
    else
      do e <- deref (iter_deref total ofs);
      do type <- byte_at cfg (e + 1);
      do '(a, leave) <- body type e a;
      if leave : bool then Done (ofs, a)
      else do ofs <- iter_next cfg total ofs; walk fuel' cfg total ofs body a
  end.
Definition interface_is (cfg : list Z) (e cls subclass protocol : Z) : res bool :=
  do a <- byte_at cfg (e + 5); do b <- byte_at cfg (e + 6); do c <- byte_at cfg (e + 7);
  Done ((a =? cls) && (b =? subclass) && (c =? protocol)).
Definition EndpointAddressToDeviceContextIndex (ep_addr : Z) : Z :=
  Z.lor (Z.shiftl (Z.land ep_addr 7) 1) (Z.land (Z.shiftr ep_addr 7) 1).

(** ** State *)

Inductive CommState :=
| CommAttached | CommCheckingConfigDescriptor | CommFoundECMConfig | CommWaitingForConfigStringDesc | CommWaitingForConfigCompletion
| CommWaitingForMACAddrStringDesc | CommWaitingForSetInterfaceCompletion | CommWaitingForConfigureEndpointCompletion | CommFailed.
#[global] Instance CommState_eq_dec : EqDecision CommState.
Proof. solve_decision. Defined.
Record Comm := MkComm {
  cm_state : CommState;
  cm_slot : Z;
  cm_config_idx : Z;
  cm_config_string_idx : Z;
  cm_config_value : Z;
  cm_data_number : Z;
  cm_data_alt : Z;
  cm_mac_string_idx : Z;
  cm_send_pa : Z;
  cm_send_buf : list Z;
  cm_cache : list Z;
  cm_mac : list Z;
}.
Inductive CommonState := CommonAttached | CommonCheckingConfigDescriptor | CommonDone | CommonFailed.
#[global] Instance CommonState_eq_dec : EqDecision CommonState.
Proof. solve_decision. Defined.
Record Common := MkCommon { cn_state : CommonState; cn_slot : Z; cn_config_idx : Z }.
Inductive Driver := DComm (d : Comm) | DCommon (d : Common).
Inductive StatusState := kUninitialized | kDriverAttached | kNoDriverFound.
Record SlotStatus := Status { ss_state : StatusState; ss_driver : option Driver; ss_configs : list (option (list Z)) }.
Definition kMaxNumOfConfigDescriptors : Z := 4.
Definition kConfigDescCacheSize : Z := 4096.
Definition kUSBDeviceClassCommunication : Z := 2.
(** [slot_state], a global; the controller. *)
Record mgr := Mgr { xhc : ctrl; slot_state : list SlotStatus }.

Definition cm_set_state (x : CommState) (d : Comm) : Comm :=
  MkComm x (cm_slot d) (cm_config_idx d) (cm_config_string_idx d) (cm_config_value d) (cm_data_number d) (cm_data_alt d) (cm_mac_string_idx d)
    (cm_send_pa d) (cm_send_buf d) (cm_cache d) (cm_mac d).
Definition cm_set_idx (x : Z) (d : Comm) : Comm :=
  MkComm (cm_state d) (cm_slot d) x (cm_config_string_idx d) (cm_config_value d) (cm_data_number d) (cm_data_alt d) (cm_mac_string_idx d)
    (cm_send_pa d) (cm_send_buf d) (cm_cache d) (cm_mac d).
Definition cm_set_config (str value : Z) (d : Comm) : Comm :=
  MkComm (cm_state d) (cm_slot d) (cm_config_idx d) str value (cm_data_number d) (cm_data_alt d) (cm_mac_string_idx d)
    (cm_send_pa d) (cm_send_buf d) (cm_cache d) (cm_mac d).
Definition cm_set_data (number alt : Z) (d : Comm) : Comm :=
  MkComm (cm_state d) (cm_slot d) (cm_config_idx d) (cm_config_string_idx d) (cm_config_value d) number alt (cm_mac_string_idx d)
    (cm_send_pa d) (cm_send_buf d) (cm_cache d) (cm_mac d).
Definition cm_set_mac_idx (x : Z) (d : Comm) : Comm :=
  MkComm (cm_state d) (cm_slot d) (cm_config_idx d) (cm_config_string_idx d) (cm_config_value d) (cm_data_number d) (cm_data_alt d) x
    (cm_send_pa d) (cm_send_buf d) (cm_cache d) (cm_mac d).
Definition cm_set_send (b : list Z) (d : Comm) : Comm :=
  MkComm (cm_state d) (cm_slot d) (cm_config_idx d) (cm_config_string_idx d) (cm_config_value d) (cm_data_number d) (cm_data_alt d) (cm_mac_string_idx d)
    (cm_send_pa d) b (cm_cache d) (cm_mac d).
Definition cm_set_cache (b : list Z) (d : Comm) : Comm :=
  MkComm (cm_state d) (cm_slot d) (cm_config_idx d) (cm_config_string_idx d) (cm_config_value d) (cm_data_number d) (cm_data_alt d) (cm_mac_string_idx d)
    (cm_send_pa d) (cm_send_buf d) b (cm_mac d).
Definition cm_set_mac (m : list Z) (d : Comm) : Comm :=
  MkComm (cm_state d) (cm_slot d) (cm_config_idx d) (cm_config_string_idx d) (cm_config_value d) (cm_data_number d) (cm_data_alt d) (cm_mac_string_idx d)
    (cm_send_pa d) (cm_send_buf d) (cm_cache d) m.

(** ** The driver of network adapters *)

Section Manager.
(** [h]: the hardware during the operation; [fuel]: iterations of a walk over
    descriptors; [null_pa], [alloc_pa]: see [XhciController]; [fresh]: what a new
    driver object holds before its members are set. *)
Context (h : hw) (fuel : nat) (alloc_pa : nat -> Z) (null_pa : Z) (fresh : Comm).

Definition dma_bytes (pa n : Z) : list Z := map (fun k => hw_dma h (pa + k)) (seqZ 0 n).
(** [ReadDescriptorBuffer<T>(slot_, ofs)] with the assertion that follows it. *)
Definition descriptor (size slot ofs : Z) (c : ctrl) : res Z :=
  do p <- ReadDescriptorBuffer size slot ofs c; run kassert (bool_decide (is_Some p)); deref p.
(** The whole configuration, as far as its header says; the buffer is a page, and
    so is the cache of the network driver.  [bad]: what happens beyond it. *)
Definition read_config (bad : stop) (pa : Z) : res (list Z) :=
  let total := hw_dma h (pa + 2) + 256 * hw_dma h (pa + 3) in
  if kConfigDescCacheSize <? total then Stop bad else Done (dma_bytes pa total).
(** [memcpy] into the front of the cache. *)
Definition fill_cache (bs cache : list Z) : list Z := bs ++ drop (length bs) cache.

(** Looking at one descriptor of the configuration at [pa]. *)
Definition scan_body (pa type e : Z) (d : Comm) : res (Comm * bool) :=
  let cs_interface (d : Comm) : res (Comm * bool) :=
    if type =? 0x24 then
      do subtype <- byte_at (cm_cache d) (e + 2);
      if subtype =? 0x0F then do m <- byte_at (cm_cache d) (e + 3); Done (cm_set_mac_idx m d, false) else Done (d, false)
    else Done (d, false) in
  if type =? kDescriptorTypeInterface then
    if negb (bool_decide (cm_state d = CommFoundECMConfig)) then
      do ecm <- interface_is (cm_cache d) e 0x02 0x06 0x00;
      if ecm : bool then Done (cm_set_config (hw_dma h (pa + 6)) (hw_dma h (pa + 5)) (cm_set_state CommFoundECMConfig d), false)
      else cs_interface d
    else
      do data <- interface_is (cm_cache d) e 0x0A 0x00 0x00;
      do n <- byte_at (cm_cache d) (e + 4);
      if data && (2 <=? n) then
        do number <- byte_at (cm_cache d) (e + 2);
        do alt <- byte_at (cm_cache d) (e + 3);
        Done (cm_set_data number alt d, true)
      else cs_interface d
  else cs_interface d.

(** One digit of the address, in UTF-16, two per byte. *)
Fixpoint parse_mac (n : nat) (i pa : Z) (m : list Z) : res (list Z) :=
  match n with
  | O => Done m
  | S n' =>
    match m !! Z.to_nat (i / 4) with
    | None => Stop Overflow
    | Some b =>
      let v := u8 (Z.lor (Z.shiftl b 4) (Z.land (i8 (hw_dma h (pa + i)) - 48) 15)) in
      parse_mac n' (i + 2) pa (<[Z.to_nat (i / 4) := v]> m)
    end
  end.

(** The endpoints after the data interface: device context index and packet size
    of the last IN and of the last OUT endpoint. *)
Record endpoints := Eps { in_dci : Z; in_size : Z; out_dci : Z; out_size : Z }.
Definition find_alt_body (cfg : list Z) (alt type e : Z) (_ : unit) : res (unit * bool) :=
  if type =? kDescriptorTypeInterface then do a <- byte_at cfg (e + 3); Done (tt, alt =? a) else Done (tt, false).
Definition endpoint_body (cfg : list Z) (type e : Z) (p : endpoints) : res (endpoints * bool) :=
  if negb (type =? kDescriptorTypeEndpoint) then Done (p, true)
  else
    do addr <- byte_at cfg (e + 2);
    do lo <- byte_at cfg (e + 4);
    do hi <- byte_at cfg (e + 5);
    let dci := EndpointAddressToDeviceContextIndex addr in
    let size := lo + 256 * hi in
    Done (if negb (Z.land addr 128 =? 0) then Eps dci size (out_dci p) (out_size p) else Eps (in_dci p) (in_size p) dci size, false).
Definition find_endpoints (cfg : list Z) (alt : Z) : res endpoints :=
  do total <- total_length cfg;
  do '(ofs, _) <- walk fuel cfg total 0 (find_alt_body cfg alt) tt;
  do ofs <- iter_next cfg total ofs;
  do '(_, p) <- walk fuel cfg total ofs (endpoint_body cfg) (Eps 0 0 0 0);
  Done p.

(** "Hello! This is hikalium. Are you there?" *)
Definition greeting : list Z :=
  [72; 101; 108; 108; 111; 33; 32; 84; 104; 105; 115; 32; 105; 115; 32; 104; 105; 107; 97; 108; 105; 117; 109; 46; 32;
   65; 114; 101; 32; 121; 111; 117; 32; 116; 104; 101; 114; 101; 63].

(** Waiting for the transfer that was asked for: nothing yet, failure, or the
    continuation. *)
Definition on_event (d : Comm) (c : ctrl) (k : Comm -> ctrl -> res (Comm * ctrl)) : res (Comm * ctrl) :=
  do '(e, c) <- PopSlotEvent (cm_slot d) c;
  match e with
  | None => Done (d, c)
  | Some kTransferFailed => Done (cm_set_state CommFailed d, c)
  | Some kTransferSucceeded => k d c
  end.
Definition check_config (d : Comm) (c : ctrl) : res (Comm * ctrl) :=
  do '(e, c) <- PopSlotEvent (cm_slot d) c;
  match e with
  | None => Done (d, c)
  | Some e =>
    do pa <- descriptor 9 (cm_slot d) 0 c;
    match e with
    | kTransferFailed => Done (cm_set_state CommFailed d, c)
    | kTransferSucceeded =>
      do bs <- read_config Overflow pa;
      let d := cm_set_cache (fill_cache bs (cm_cache d)) d in
      do total <- total_length (cm_cache d);
      do '(_, d) <- walk fuel (cm_cache d) total 0 (scan_body pa) d;
      if negb (bool_decide (cm_state d = CommCheckingConfigDescriptor)) then Done (d, c)
      else
        let d := cm_set_idx (cm_config_idx d + 1) d in
        do n <- GetNumOfConfigs (cm_slot d) c;
        if cm_config_idx d <? n then do c <- RequestConfigDescriptor null_pa (cm_slot d) (cm_config_idx d) c; Done (d, c)
        else Done (cm_set_state CommFailed d, c)
    end
  end.
Definition Comm_tick (d : Comm) (c : ctrl) : res (Comm * ctrl) :=
  match cm_state d with
  | CommAttached =>
    let d := cm_set_idx 0 d in
    do c <- RequestConfigDescriptor null_pa (cm_slot d) (cm_config_idx d) c;
    Done (cm_set_state CommCheckingConfigDescriptor d, c)
  | CommCheckingConfigDescriptor => check_config d c
  | CommFoundECMConfig =>
    do c <- RequestStringDescriptor null_pa (cm_slot d) (cm_config_string_idx d) c;
    Done (cm_set_state CommWaitingForConfigStringDesc d, c)
  | CommWaitingForConfigStringDesc => on_event d c (fun d c =>
      run descriptor 2 (cm_slot d) 0 c;
      do c <- SetConfig (cm_slot d) (cm_config_value d) c;
      Done (cm_set_state CommWaitingForConfigCompletion d, c))
  | CommWaitingForConfigCompletion => on_event d c (fun d c =>
      do c <- RequestStringDescriptor null_pa (cm_slot d) (cm_mac_string_idx d) c;
      Done (cm_set_state CommWaitingForMACAddrStringDesc d, c))
  | CommWaitingForMACAddrStringDesc => on_event d c (fun d c =>
      do pa <- descriptor 2 (cm_slot d) 0 c;
      let len := hw_dma h pa in
      do m <- parse_mac (Z.to_nat ((len - 1) / 2)) 0 (pa + 2) (cm_mac d);
      do c <- SetInterface (cm_slot d) (cm_data_alt d) (cm_data_number d) c;
      Done (cm_set_state CommWaitingForSetInterfaceCompletion (cm_set_mac m d), c))
  | CommWaitingForSetInterfaceCompletion => on_event d c (fun d c =>
      do p <- find_endpoints (cm_cache d) (cm_data_alt d);
      if (in_dci p =? 0) || (out_dci p =? 0) then Done (cm_set_state CommFailed d, c)
      else
        do c <- ConfigureEndpointBulkInOut (cm_slot d) (in_dci p) (in_size p) (out_dci p) (out_size p) c;
        Done (cm_set_state CommWaitingForConfigureEndpointCompletion d, c))
  | CommWaitingForConfigureEndpointCompletion => on_event d c (fun d c =>
      do c <- WriteBulkData (cm_slot d) (cm_send_pa d) (Z.of_nat (length greeting)) c;
      Done (cm_set_state CommFailed (cm_set_send (fill_cache greeting (cm_send_buf d)) d), c))
  | CommFailed => Done (d, c)
  end.
Definition new_Comm (slot : Z) (c : ctrl) : Comm * ctrl :=
  let '(pa, c) := AllocMemoryForMappedIO alloc_pa c in
  (MkComm CommAttached slot (cm_config_idx fresh) (cm_config_string_idx fresh) (cm_config_value fresh) (cm_data_number fresh) (cm_data_alt fresh)
    (cm_mac_string_idx fresh) pa (cm_send_buf fresh) (cm_cache fresh) (cm_mac fresh), c).

(** ** The common driver *)

(** Whether a configuration has the interface of a network adapter. *)
Definition cdc_body (cfg : list Z) (type e : Z) (found : bool) : res (bool * bool) :=
  if type =? kDescriptorTypeInterface then
    do ecm <- interface_is cfg e 0x02 0x06 0x00; Done (found || ecm, false)
  else Done (found, false).
Definition has_cdc (cfg : list Z) (found : bool) : res bool :=
  do total <- total_length cfg; do '(_, found) <- walk fuel cfg total 0 (cdc_body cfg) found; Done found.
Fixpoint any_cdc (cfgs : list (option (list Z))) (found : bool) : res bool :=
  match cfgs with
  | [] => Done found
  | c :: cfgs' => do cfg <- deref c; do found <- has_cdc cfg found; any_cdc cfgs' found
  end.
Definition put_status (slot : Z) (s : SlotStatus) (m : mgr) : mgr := Mgr (xhc m) (<[Z.to_nat slot := s]> (slot_state m)).
Definition put_common (d : Common) (c : ctrl) (s : SlotStatus) (m : mgr) : mgr :=
  put_status (cn_slot d) (Status (ss_state s) (Some (DCommon d)) (ss_configs s)) (Mgr c (slot_state m)).
Definition common_check (d : Common) (m : mgr) : res mgr :=
  do ss <- get_at (slot_state m) (cn_slot d);
  do '(e, c) <- PopSlotEvent (cn_slot d) (xhc m);
  match e with
  | None => Done (Mgr c (slot_state m))
  | Some e =>
    do pa <- descriptor 9 (cn_slot d) 0 c;
    match e with
    | kTransferFailed => Done (put_common (MkCommon CommonFailed (cn_slot d) (cn_config_idx d)) c ss m)
    | kTransferSucceeded =>
      do bs <- read_config BadPointer pa;
      do cfgs <- set_at (ss_configs ss) (cn_config_idx d) (Some bs);
      let ss := Status (ss_state ss) (ss_driver ss) cfgs in
      let idx := cn_config_idx d + 1 in
      do n <- GetNumOfConfigs (cn_slot d) c;
      if (idx <? n) && (idx <? kMaxNumOfConfigDescriptors) then
        do c <- RequestConfigDescriptor null_pa (cn_slot d) idx c;
        Done (put_common (MkCommon (cn_state d) (cn_slot d) idx) c ss m)
      else Done (put_common (MkCommon (if idx =? n then CommonDone else CommonFailed) (cn_slot d) idx) c ss m)
    end
  end.
Definition Common_tick (d : Common) (m : mgr) : res mgr :=
  do ss <- get_at (slot_state m) (cn_slot d);
  match cn_state d with
  | CommonAttached =>
    do c <- RequestConfigDescriptor null_pa (cn_slot d) 0 (xhc m);
    Done (put_common (MkCommon CommonCheckingConfigDescriptor (cn_slot d) 0) c ss m)
  | CommonCheckingConfigDescriptor => common_check d m
  | CommonDone =>
    do found <- any_cdc (take (Z.to_nat (cn_config_idx d)) (ss_configs ss)) false;
    if found : bool then
      let '(cm, c) := new_Comm (cn_slot d) (xhc m) in
      Done (put_status (cn_slot d) (Status (ss_state ss) (Some (DComm cm)) (ss_configs ss)) (Mgr c (slot_state m)))
    else Done (put_common (MkCommon CommonFailed (cn_slot d) (cn_config_idx d)) (xhc m) ss m)
  | CommonFailed => Done m
  end.
(** The constructor also drops the configurations of the slot. *)
Definition new_Common (slot : Z) (m : mgr) : res (Common * mgr) :=
  do ss <- get_at (slot_state m) slot;
  Done (MkCommon CommonAttached slot 0, put_status slot (Status (ss_state ss) (ss_driver ss) (replicate 4 None)) m).

(** ** The manager *)

Definition InitDrivers (m : mgr) : res mgr :=
  do slot <- FindSlotIndexWithDeviceClass kUSBDeviceClassCommunication (xhc m);
  if slot =? -1 then Done m
  else
    do ss <- get_at (slot_state m) slot;
    match ss_state ss with
    | kUninitialized =>
      let '(cm, c) := new_Comm slot (xhc m) in
      Done (put_status slot (Status kDriverAttached (Some (DComm cm)) (ss_configs ss)) (Mgr c (slot_state m)))
    | _ => Done m
    end.
Definition tick (i : Z) (m : mgr) : res mgr :=
  do ss <- get_at (slot_state m) i;
  match ss_driver ss with
  | None => Done m
  | Some (DComm d) => do '(d, c) <- Comm_tick d (xhc m); Done (put_status i (Status (ss_state ss) (Some (DComm d)) (ss_configs ss)) (Mgr c (slot_state m)))
  | Some (DCommon d) => Common_tick d m
  end.
Definition serve_slot (i : Z) (m : mgr) : res mgr :=
  do state <- GetSlotState i (xhc m);
  if decide (state = kAvailable) then
    do '(d, m) <- new_Common i m;
    do ss <- get_at (slot_state m) i;
    let m := put_status i (Status kDriverAttached (Some (DCommon d)) (ss_configs ss)) m in
    do c <- MarkSlotAsManaged i (xhc m);
    Done (Mgr c (slot_state m))
  else tick i m.
Fixpoint serve_slots (n : nat) (i : Z) (m : mgr) : res mgr :=
  match n with
  | O => Done m
  | S n' => do m <- serve_slot i m; serve_slots n' (i + 1) m
  end.
(** One turn of the loop of [USBManager]; [poll]: [PollEvents]. *)
Definition manager_turn (poll : ctrl -> res ctrl) (m : mgr) : res mgr :=
  do c <- poll (xhc m);
  do m <- InitDrivers (Mgr c (slot_state m));
  serve_slots 256 0 m.
End Manager.
