(* ===== verification/UsbProofs.v ===== *)
(** * The USB manager: proofs

    The byte walk over descriptors visits exactly the descriptors of a well-formed
    configuration ([walk_descs]); with it, what the network driver takes from a
    configuration, and which endpoints it opens; the common driver collects every
    configuration of a device; and what malformed descriptors do. *)

From S2P Require Import Prelude KernelBase KernelInput Scheduler Pci Xhci XhciController XhciProofs XhciEnum UsbManager.

(** A comparison of lengths that is false. *)
Ltac nfalse b := replace b with false by (symmetry; first [apply Z.ltb_ge | apply Z.leb_gt | apply Z.eqb_neq]; lia).

(** ** Walking over descriptors *)

(** A descriptor starts with its length and its type. *)
Definition desc_ok (d : list Z) : Prop := (2 <= length d < 256)%nat /\ head d = Some (Z.of_nat (length d)).
#[global] Instance desc_ok_dec d : Decision (desc_ok d).
Proof. unfold desc_ok. apply _. Defined.
Definition field (d : list Z) (k : nat) : Z := nth k d 0.
Definition desc_type (d : list Z) : Z := field d 1.

Lemma byte_at_app pre d post k :
  (k < length d)%nat -> byte_at (pre ++ d ++ post) (Z.of_nat (length pre) + Z.of_nat k) = Done (field d k).
Proof.
  intros Hk. unfold byte_at, field. apply get_at_lookup; [lia|]. rewrite <- Nat2Z.inj_add, Nat2Z.id.
  rewrite lookup_app_r, Nat.add_comm, Nat.add_sub by lia. rewrite lookup_app_l by done. apply lookup_nth_lt. done.
Qed.
Lemma byte_field pre d post k :
  0 <= k < Z.of_nat (length d) -> byte_at (pre ++ d ++ post) (Z.of_nat (length pre) + k) = Done (field d (Z.to_nat k)).
Proof. intros Hk. rewrite <- (Z2Nat.id k) at 1 by lia. apply byte_at_app. lia. Qed.
(** The loop on a list of descriptors: what is left when it is left. *)
Fixpoint fold_until {A} (spec : list Z -> A -> A * bool) (ds : list (list Z)) (a : A) : list (list Z) * A :=
  match ds with
  | [] => ([], a)
  | d :: ds' => let '(a', leave) := spec d a in if leave : bool then (ds, a') else fold_until spec ds' a'
  end.

(** The bytes of the walk, [ds] the descriptors that are still ahead. *)
Lemma walk_descs {A} (I : A -> Prop) (spec : list Z -> A -> A * bool) (body : Z -> Z -> A -> res (A * bool)) cfg rest ds : forall fuel pre a,
  (length ds < fuel)%nat -> cfg = pre ++ concat ds ++ rest -> Forall desc_ok ds -> I a ->
  (forall pre d post a, d ∈ ds -> cfg = pre ++ d ++ post -> I a ->
    body (desc_type d) (Z.of_nat (length pre)) a = Done (spec d a) /\ I (spec d a).1) ->
  walk fuel cfg (Z.of_nat (length (pre ++ concat ds))) (Z.of_nat (length pre)) body a =
    Done (Z.of_nat (length (pre ++ concat ds) - length (concat (fold_until spec ds a).1)), (fold_until spec ds a).2).
Proof.
  induction ds as [|d ds IH]; intros [|fuel] pre a Hf Hc Hd HI Hb; try (cbn in Hf; lia); cbn [walk].
  - cbn [concat fold_until fst snd length] in *. rewrite app_nil_r, Z.eqb_refl, Nat.sub_0_r. done.
  - apply Forall_cons_1 in Hd as [[Hl Hh] Hd]. cbn [concat] in *. rewrite length_app, length_app.
    rewrite (proj2 (Z.eqb_neq (Z.of_nat (length pre)) _)) by lia.
    unfold iter_deref at 1. nfalse (Z.of_nat (length pre) <? 0). nfalse (Z.of_nat (length pre + (length d + length (concat ds))) <=? Z.of_nat (length pre)).
    cbn [orb deref rbind]. assert (cfg = pre ++ d ++ concat ds ++ rest) as Hc' by (by rewrite Hc, <- app_assoc).
    replace (byte_at cfg (Z.of_nat (length pre) + 1)) with (Done (desc_type d) : res Z).
    2:{ rewrite Hc'. symmetry. apply (byte_at_app pre d _ 1). lia. }
    cbn [rbind]. destruct (Hb pre d (concat ds ++ rest) a ltac:(by left) Hc' HI) as [-> HI']. cbn [rbind fold_until]. destruct (spec d a) as [a' [|]] eqn:Es; cbn [fst snd].
    + cbn [concat]. rewrite !length_app. f_equal. f_equal. f_equal. lia.
    + unfold iter_next, iter_deref. nfalse (Z.of_nat (length pre) <? 0). nfalse (Z.of_nat (length pre + (length d + length (concat ds))) <=? Z.of_nat (length pre)).
      cbn [orb]. replace (byte_at cfg (Z.of_nat (length pre))) with (Done (Z.of_nat (length d)) : res Z).
      2:{ rewrite Hc', <- (Z.add_0_r (Z.of_nat (length pre))). symmetry. rewrite (byte_at_app pre d _ 0) by lia. f_equal.
          unfold field. destruct d; [discriminate Hh|]. by injection Hh. }
      cbn [rbind]. replace (Z.of_nat (length pre) + Z.of_nat (length d)) with (Z.of_nat (length (pre ++ d))) by (rewrite length_app; lia).
      replace (length pre + (length d + length (concat ds)))%nat with (length ((pre ++ d) ++ concat ds)) by (rewrite !length_app; lia).
      apply IH; [cbn in Hf; lia|by rewrite <- app_assoc|done|done|]. intros pre' d' post a0 Hin. apply Hb. by right.
Qed.
(** From the start of a configuration. *)
Lemma walk_all {A} (I : A -> Prop) (spec : list Z -> A -> A * bool) (body : Z -> Z -> A -> res (A * bool)) ds rest fuel a :
  (length ds < fuel)%nat -> Forall desc_ok ds -> I a ->
  (forall pre d post a, d ∈ ds -> concat ds ++ rest = pre ++ d ++ post -> I a ->
    body (desc_type d) (Z.of_nat (length pre)) a = Done (spec d a) /\ I (spec d a).1) ->
  walk fuel (concat ds ++ rest) (Z.of_nat (length (concat ds))) 0 body a =
    Done (Z.of_nat (length (concat ds) - length (concat (fold_until spec ds a).1)), (fold_until spec ds a).2).
Proof. intros Hf Hd HI Hb. exact (walk_descs I spec body (concat ds ++ rest) rest ds fuel [] a Hf eq_refl Hd HI Hb). Qed.

(** Interfaces are nine bytes, endpoints seven, functional descriptors four. *)
Definition sized (d : list Z) : Prop :=
  (desc_type d = kDescriptorTypeInterface -> (8 <= length d)%nat) /\ (desc_type d = kDescriptorTypeEndpoint -> (6 <= length d)%nat) /\
  (desc_type d = 0x24 -> (4 <= length d)%nat).
Definition is_interface (cls sub proto : Z) (d : list Z) : bool :=
  (desc_type d =? kDescriptorTypeInterface) && (field d 5 =? cls) && (field d 6 =? sub) && (field d 7 =? proto).
Lemma interface_is_ok cfg pre d post cls sub proto :
  cfg = pre ++ d ++ post -> (8 <= length d)%nat ->
  interface_is cfg (Z.of_nat (length pre)) cls sub proto = Done ((field d 5 =? cls) && (field d 6 =? sub) && (field d 7 =? proto)).
Proof.
  intros -> HL. unfold interface_is. rewrite !byte_field by lia. reflexivity.
Qed.

(** ** What the network driver takes from a configuration *)

(** The string index in an Ethernet functional descriptor. *)
Definition eth_idx (d : list Z) : option Z := if (desc_type d =? 0x24) && (field d 2 =? 0x0F) then Some (field d 3) else None.
Definition is_ecm : list Z -> bool := is_interface 0x02 0x06 0x00.
Definition is_data (d : list Z) : bool := is_interface 0x0A 0x00 0x00 d && (2 <=? field d 4).
Definition note_mac (d : list Z) (x : Comm) : Comm := match eth_idx d with Some m => cm_set_mac_idx m x | None => x end.
Definition found (x : Comm) : bool := bool_decide (cm_state x = CommFoundECMConfig).
Definition scan_spec (str value : Z) (d : list Z) (x : Comm) : Comm * bool :=
  if negb (found x) && is_ecm d then (cm_set_config str value (cm_set_state CommFoundECMConfig x), false)
  else if found x && is_data d then (cm_set_data (field d 2) (field d 3) x, true)
  else (note_mac d x, false).

Lemma scan_body_ok h pa cfg pre d post x :
  cm_cache x = cfg -> cfg = pre ++ d ++ post -> sized d ->
  scan_body h pa (desc_type d) (Z.of_nat (length pre)) x = Done (scan_spec (hw_dma h (pa + 6)) (hw_dma h (pa + 5)) d x) /\
  cm_cache (scan_spec (hw_dma h (pa + 6)) (hw_dma h (pa + 5)) d x).1 = cfg.
Proof.
  intros Hcache Hcfg (S1 & _ & S3). split.
  2:{ unfold scan_spec, note_mac. repeat case_match; done. }
  unfold scan_body, scan_spec, is_ecm, is_data, is_interface, found, note_mac, eth_idx. rewrite Hcache.
  assert ((if desc_type d =? 36
    then do subtype <- byte_at cfg (Z.of_nat (length pre) + 2); if subtype =? 15 then do m <- byte_at cfg (Z.of_nat (length pre) + 3); Done (cm_set_mac_idx m x, false) else Done (x, false)
    else Done (x, false)) = Done (match (if (desc_type d =? 36) && (field d 2 =? 15) then Some (field d 3) else None) with Some m => cm_set_mac_idx m x | None => x end, false)) as Hcs.
  { destruct (Z.eqb_spec (desc_type d) 36) as [E|_]; [|done]. specialize (S3 E). rewrite Hcfg, !byte_field by lia. cbn [rbind andb].
    change (field d (Z.to_nat 2)) with (field d 2). change (field d (Z.to_nat 3)) with (field d 3). by destruct (field d 2 =? 15). }
  destruct (Z.eqb_spec (desc_type d) kDescriptorTypeInterface) as [E|E]; cbn [andb].
  - specialize (S1 E). destruct (bool_decide (cm_state x = CommFoundECMConfig)); cbn [negb andb].
    + rewrite (interface_is_ok cfg pre d post) by done. cbn [rbind].
      assert (forall k, 0 <= k < 8 -> byte_at cfg (Z.of_nat (length pre) + k) = Done (field d (Z.to_nat k))) as HB by (intros k Hk; rewrite Hcfg; apply byte_field; lia).
      rewrite !HB by lia. cbn [rbind]. change (field d (Z.to_nat 4)) with (field d 4). destruct (_ && (2 <=? field d 4)); [reflexivity|by rewrite E].
    + rewrite (interface_is_ok cfg pre d post) by done. cbn [rbind]. destruct ((field d 5 =? 2) && (field d 6 =? 6) && (field d 7 =? 0)); [reflexivity|exact Hcs].
  - rewrite !andb_false_r. exact Hcs.
Qed.

Lemma fold_until_plain {A} (spec : list Z -> A -> A * bool) (f : list Z -> A -> A) ds ds' : forall a,
  (forall pre d post, ds = pre ++ d :: post -> spec d (foldl (fun a d => f d a) a pre) = (f d (foldl (fun a d => f d a) a pre), false)) ->
  fold_until spec (ds ++ ds') a = fold_until spec ds' (foldl (fun a d => f d a) a ds).
Proof.
  induction ds as [|d ds IH]; intros a H; [done|]. cbn [app fold_until foldl]. pose proof (H [] d ds eq_refl) as H0. cbn [foldl] in H0. rewrite H0.
  apply IH. intros pre d' post E. apply (H (d :: pre) d' post). by rewrite E.
Qed.
Definition note_macs (ds : list (list Z)) (x : Comm) : Comm := foldl (fun x d => note_mac d x) x ds.
Lemma note_macs_spec ds : forall x,
  note_macs ds x = cm_set_mac_idx (default (cm_mac_string_idx x) (list.last (omap eth_idx ds))) x.
Proof.
  induction ds as [|d ds IH] using rev_ind; intros x; [by destruct x|]. unfold note_macs in *. rewrite foldl_app. cbn [foldl]. rewrite IH. rewrite omap_app. cbn [omap list_omap].
  unfold note_mac. cbn. destruct (eth_idx d) as [m|]; [by rewrite last_snoc|by rewrite app_nil_r].
Qed.
Lemma scan_finds str value ds1 comm ds2 data ds3 x :
  found x = false -> Forall (fun d => is_ecm d = false) ds1 -> is_ecm comm = true -> Forall (fun d => is_data d = false) ds2 -> is_data data = true ->
  (fold_until (scan_spec str value) (ds1 ++ comm :: ds2 ++ data :: ds3) x).2 =
    cm_set_data (field data 2) (field data 3) (note_macs ds2 (cm_set_config str value (cm_set_state CommFoundECMConfig (note_macs ds1 x)))).
Proof.
  intros Hx H1 Hc H2 Hd. assert (forall ds y, found (note_macs ds y) = found y) as Hf by (intros ds y; by rewrite note_macs_spec).
  rewrite (fold_until_plain _ note_mac). 2:{ intros pre d post E. subst ds1. apply list.Forall_app in H1 as [_ H1]. apply Forall_cons_1 in H1 as [H1 _].
    fold (note_macs pre x). unfold scan_spec. rewrite Hf, Hx, H1. done. }
  fold (note_macs ds1 x). cbn [fold_until]. unfold scan_spec at 1. rewrite Hf, Hx, Hc. cbn [negb andb].
  set (y := cm_set_config _ _ _). assert (found y = true) as Hy by done.
  rewrite (fold_until_plain _ note_mac). 2:{ intros pre d post E. subst ds2. apply list.Forall_app in H2 as [_ H2]. apply Forall_cons_1 in H2 as [H2 _].
    fold (note_macs pre y). unfold scan_spec. rewrite Hf, Hy, H2. done. }
  fold (note_macs ds2 y). cbn [fold_until]. unfold scan_spec at 1. rewrite Hf, Hy, Hd. done.
Qed.

(** A configuration in the descriptor buffer at [pa]: well-formed descriptors, the
    first of them the header with the total length. *)
Record configuration (h : hw) (pa : Z) (ds : list (list Z)) : Prop := Configuration {
  cf_bytes : dma_bytes h pa (Z.of_nat (length (concat ds))) = concat ds;
  cf_total : hw_dma h (pa + 2) + 256 * hw_dma h (pa + 3) = Z.of_nat (length (concat ds));
  cf_fits : (4 <= length (concat ds) <= 4096)%nat;
  cf_ok : Forall desc_ok ds;
  cf_sized : Forall sized ds;
}.
Lemma total_length_cached h pa n rest : 4 <= n -> total_length (dma_bytes h pa n ++ rest) = Done (hw_dma h (pa + 2) + 256 * hw_dma h (pa + 3)).
Proof.
  intros Hn. assert (forall k, 0 <= k < 4 -> byte_at (dma_bytes h pa n ++ rest) k = Done (hw_dma h (pa + k))) as H.
  { intros k Hk. unfold byte_at, dma_bytes. apply get_at_lookup; [lia|]. change (map (fun k => hw_dma h (pa + k))) with (fmap (M := list) (fun k => hw_dma h (pa + k))).
    rewrite lookup_app_l by (rewrite length_fmap, length_seqZ; lia). rewrite list_lookup_fmap, lookup_seqZ_lt by lia. cbn. do 2 f_equal. lia. }
  unfold total_length. rewrite !H by lia. done.
Qed.
Lemma read_config_ok h pa ds bad : configuration h pa ds -> read_config h bad pa = Done (concat ds).
Proof.
  intros [Hb Ht Hf _ _]. unfold read_config. rewrite Ht. replace (kConfigDescCacheSize <? Z.of_nat (length (concat ds))) with false.
  2:{ symmetry. apply Z.ltb_ge. unfold kConfigDescCacheSize. lia. }
  by rewrite Hb.
Qed.
Lemma descriptor_ok size slot c pa :
  0 <= slot -> 0 <= size < 1024 -> descriptor_buffers_ c !! Z.to_nat slot = Some (Some pa) -> descriptor size slot 0 c = Done pa.
Proof.
  intros Hs Hz Hb. unfold descriptor, ReadDescriptorBuffer, kSizeOfDescriptorBuffer. change (0 <? 0) with false. zfalse (1024 <=? 0 + size). cbn [orb].
  rewrite (get_at_lookup _ _ (Some pa)) by done. cbn [rbind option_map]. by rewrite Z.add_0_r.
Qed.

(** C28: the network driver recognises an adapter.  When a configuration of
    well-formed descriptors has arrived, whose first ECM interface is [comm] and
    whose first data interface with two endpoints after it is [data], the step of
    the driver ends with the configuration found: its value and string index taken
    from the header, number and alternate setting from [data], and the index of
    the address string from the last Ethernet descriptor before [data].  The walk
    over the bytes ends after at most as many iterations as there are
    descriptors. *)
Theorem ecm_configuration_found h fuel null_pa d c c' pa ds1 comm ds2 data ds3 :
  let ds := ds1 ++ comm :: ds2 ++ data :: ds3 in
  cm_state d = CommCheckingConfigDescriptor -> 0 <= cm_slot d -> PopSlotEvent (cm_slot d) c = Done (Some kTransferSucceeded, c') ->
  descriptor_buffers_ c' !! Z.to_nat (cm_slot d) = Some (Some pa) -> configuration h pa ds -> (length ds < fuel)%nat ->
  Forall (fun x => is_ecm x = false) ds1 -> is_ecm comm = true -> Forall (fun x => is_data x = false) ds2 -> is_data data = true ->
  exists d', Comm_tick h fuel null_pa d c = Done (d', c') /\ cm_state d' = CommFoundECMConfig /\ cm_slot d' = cm_slot d /\
    cm_config_value d' = hw_dma h (pa + 5) /\ cm_config_string_idx d' = hw_dma h (pa + 6) /\
    cm_data_number d' = field data 2 /\ cm_data_alt d' = field data 3 /\
    cm_mac_string_idx d' = default (cm_mac_string_idx d) (list.last (omap eth_idx (ds1 ++ ds2))) /\
    take (length (concat ds)) (cm_cache d') = concat ds.
Proof.
  intros ds Hst Hslot Hpop Hbuf Hcf Hfuel H1 Hc H2 Hd. unfold Comm_tick. rewrite Hst. unfold check_config. rewrite Hpop. cbn [rbind].
  rewrite (descriptor_ok 9 _ _ pa) by (done || lia). cbn [rbind]. rewrite (read_config_ok h pa ds) by done. cbn [rbind].
  destruct Hcf as [Hb Ht Hf Hok Hsz]. set (rest := drop (length (concat ds)) (cm_cache d)). set (x := cm_set_cache _ d).
  assert (cm_cache x = concat ds ++ rest) as Hx by done. rewrite Hx.
  assert (total_length (concat ds ++ rest) = Done (Z.of_nat (length (concat ds)))) as ->.
  { pose proof (total_length_cached h pa (Z.of_nat (length (concat ds))) rest) as E. rewrite Hb, Ht in E. apply E. lia. }
  cbn [rbind]. rewrite (walk_all (fun x => cm_cache x = concat ds ++ rest) (scan_spec (hw_dma h (pa + 6)) (hw_dma h (pa + 5)))); [|done|done|done|].
  2:{ intros pre y post a Hin E Ha. apply (scan_body_ok h pa _ pre y post a Ha E). rewrite list.Forall_forall in Hsz. by apply Hsz. }
  assert (found x = false) as Hfx by (unfold found; cbn [x cm_set_cache cm_state]; by rewrite Hst).
  cbn [rbind]. change (fold_until _ ds x) with (fold_until (scan_spec (hw_dma h (pa + 6)) (hw_dma h (pa + 5))) (ds1 ++ comm :: ds2 ++ data :: ds3) x).
  rewrite scan_finds by done. rewrite !note_macs_spec. cbn [negb bool_decide].
  rewrite bool_decide_false by done. cbn [negb]. eexists. split; [reflexivity|]. split_and!; try done.
  - cbn. rewrite omap_app, last_app. by destruct (list.last (omap eth_idx ds2)).
  - cbn [cm_cache cm_set_data cm_set_mac_idx cm_set_config cm_set_state]. rewrite Hx. by apply take_app_length.
Qed.

(** ** The endpoints of the data interface *)

(** One iteration of the loop. *)
Definition ep_step (d : list Z) (p : endpoints) : endpoints :=
  let dci := EndpointAddressToDeviceContextIndex (field d 2) in
  let size := field d 4 + 256 * field d 5 in
  if negb (Z.land (field d 2) 128 =? 0) then Eps dci size (out_dci p) (out_size p) else Eps (in_dci p) (in_size p) dci size.
Definition is_alt (alt : Z) (d : list Z) : bool := (desc_type d =? kDescriptorTypeInterface) && (alt =? field d 3).
Definition is_endpoint (d : list Z) : bool := desc_type d =? kDescriptorTypeEndpoint.
Lemma find_alt_ok cfg alt pre d post u :
  cfg = pre ++ d ++ post -> sized d -> find_alt_body cfg alt (desc_type d) (Z.of_nat (length pre)) u = Done (tt, is_alt alt d).
Proof.
  intros -> (S1 & _ & _). unfold find_alt_body, is_alt. destruct (Z.eqb_spec (desc_type d) kDescriptorTypeInterface) as [E|]; [|done].
  specialize (S1 E). rewrite byte_field by lia. done.
Qed.
Lemma endpoint_body_ok cfg pre d post p :
  cfg = pre ++ d ++ post -> sized d ->
  endpoint_body cfg (desc_type d) (Z.of_nat (length pre)) p = Done (if is_endpoint d then (ep_step d p, false) else (p, true)).
Proof.
  intros -> (_ & S2 & _). unfold endpoint_body, is_endpoint. destruct (Z.eqb_spec (desc_type d) kDescriptorTypeEndpoint) as [E|]; cbn [negb]; [|done].
  specialize (S2 E). rewrite !byte_field by lia. reflexivity.
Qed.
Lemma fold_until_stop {A} (spec : list Z -> A -> A * bool) d ds a a' : spec d a = (a', true) -> fold_until spec (d :: ds) a = (d :: ds, a').
Proof. intros E. cbn [fold_until]. by rewrite E. Qed.
Lemma iter_next_ok cfg pre d post total :
  cfg = pre ++ d ++ post -> desc_ok d -> Z.of_nat (length pre) < total -> iter_next cfg total (Z.of_nat (length pre)) = Done (Z.of_nat (length (pre ++ d))).
Proof.
  intros -> [Hl Hh] Ht. unfold iter_next, iter_deref. nfalse (Z.of_nat (length pre) <? 0). nfalse (total <=? Z.of_nat (length pre)). cbn [orb].
  rewrite <- (Z.add_0_r (Z.of_nat (length pre))) at 1. rewrite byte_field by lia. cbn [rbind]. rewrite length_app. f_equal.
  assert (field d (Z.to_nat 0) = Z.of_nat (length d)) as -> by (destruct d; [discriminate Hh|by injection Hh]). lia.
Qed.
Lemma sub_app_length {A} (a b : list A) : (length (a ++ b) - length b)%nat = length a.
Proof. rewrite length_app. lia. Qed.

Lemma find_endpoints_fold fuel cfg alt ds1 iface eps ds3 rest :
  let ds := ds1 ++ iface :: eps ++ ds3 in
  cfg = concat ds ++ rest -> total_length cfg = Done (Z.of_nat (length (concat ds))) -> Forall desc_ok ds -> Forall sized ds -> (length ds < fuel)%nat ->
  Forall (fun d => is_alt alt d = false) ds1 -> is_alt alt iface = true -> Forall (fun d => is_endpoint d = true) eps ->
  match ds3 with [] => True | d :: _ => is_endpoint d = false end ->
  find_endpoints fuel cfg alt = Done (foldl (fun p d => ep_step d p) (Eps 0 0 0 0) eps).
Proof.
  intros ds Hcfg Htot Hok Hsz Hfuel H1 Hi He H3. unfold find_endpoints. rewrite Htot. cbn [rbind]. rewrite list.Forall_forall in Hsz.
  rewrite Hcfg at 1. rewrite (walk_all (fun _ => True) (fun d (_ : unit) => (tt, is_alt alt d))); [|done|done|done|].
  2:{ intros pre d post u Hin E _. split; [|done]. rewrite Hcfg. apply (find_alt_ok _ alt pre d post u E). by apply Hsz. }
  unfold ds at 2 3. rewrite (fold_until_plain _ (fun _ _ => tt)). 2:{ intros pre d post E. subst ds1. apply list.Forall_app in H1 as [_ H1].
    apply Forall_cons_1 in H1 as [H1 _]. by rewrite H1. }
  rewrite (fold_until_stop _ _ _ _ tt) by (by rewrite Hi). cbn [rbind fst snd].
  assert (concat ds = concat ds1 ++ concat (iface :: eps ++ ds3)) as Hcat by apply concat_app. rewrite Hcat, sub_app_length.
  assert (cfg = concat ds1 ++ iface ++ (concat (eps ++ ds3) ++ rest)) as Hcfg2 by (rewrite Hcfg, Hcat; cbn [concat]; by rewrite <- !app_assoc).
  assert (desc_ok iface) as Hif by (rewrite list.Forall_forall in Hok; apply Hok, elem_of_app; right; by left).
  rewrite (iter_next_ok cfg (concat ds1) iface _ _ Hcfg2 Hif).
  2:{ rewrite length_app. cbn [concat]. rewrite length_app. destruct Hif as [Hl _]. lia. }
  cbn [rbind]. replace (concat ds1 ++ concat (iface :: eps ++ ds3)) with ((concat ds1 ++ iface) ++ concat (eps ++ ds3)) by (cbn [concat]; by rewrite <- app_assoc).
  rewrite (walk_descs (fun _ => True) (fun d p => if is_endpoint d then (ep_step d p, false) else (p, true)) _ cfg rest).
  - cbn [rbind]. rewrite (fold_until_plain _ ep_step). 2:{ intros pre d post E. subst eps. apply list.Forall_app in He as [_ He]. apply Forall_cons_1 in He as [He _]. by rewrite He. }
    destruct ds3 as [|d ds3]; [done|]. by rewrite (fold_until_stop _ _ _ _ (foldl (fun p d => ep_step d p) (Eps 0 0 0 0) eps)) by (by rewrite H3).
  - unfold ds in Hfuel. rewrite length_app in Hfuel. cbn in Hfuel. lia.
  - rewrite Hcfg2. by rewrite <- app_assoc.
  - unfold ds in Hok. apply list.Forall_app in Hok as [_ Hok]. by apply Forall_cons_1 in Hok as [_ Hok].
  - done.
  - intros pre d post p Hin E _. split; [|done]. apply (endpoint_body_ok cfg pre d post p E). apply Hsz. unfold ds. apply elem_of_app. right. by right.
Qed.
(** Endpoints as USB and xHCI define them: number and direction in the address,
    and the index of the device context, twice the number, plus one for IN. *)
Definition ep_is_in (d : list Z) : bool := 128 <=? field d 2.
Definition ep_number (d : list Z) : Z := field d 2 mod 16.
Definition ep_dci (d : list Z) : Z := 2 * ep_number d + (if ep_is_in d then 1 else 0).
Definition ep_packet_size (d : list Z) : Z := field d 4 + 256 * field d 5.
(** The index and packet size that were found for [o]. *)
Definition ep_found (o : option (list Z)) (dci size : Z) : Prop :=
  match o with
  | None => dci = 0 /\ size = 0
  | Some d => size = ep_packet_size d /\ (dci = ep_dci d <-> ep_number d < 8)
  end.
Lemma ep_index_right a : 0 <= a < 256 ->
  (EndpointAddressToDeviceContextIndex a = 2 * (a mod 16) + (if 128 <=? a then 1 else 0) <-> a mod 16 < 8) /\ negb (Z.land a 128 =? 0) = (128 <=? a).
Proof.
  intros Ha. assert (Forall (fun a => bool_decide (EndpointAddressToDeviceContextIndex a = 2 * (a mod 16) + (if 128 <=? a then 1 else 0)) = (a mod 16 <? 8) /\
    negb (Z.land a 128 =? 0) = (128 <=? a)) (seqZ 0 256)) as H by (apply (bool_decide_unpack _); vm_compute; exact I).
  rewrite list.Forall_forall in H. destruct (H a) as [H1 H2]; [apply elem_of_seqZ; lia|]. split; [|exact H2].
  rewrite <- Z.ltb_lt, <- H1. by rewrite bool_decide_eq_true.
Qed.
Lemma endpoints_last eps : Forall (fun d => 0 <= field d 2 < 256) eps ->
  let p := foldl (fun p d => ep_step d p) (Eps 0 0 0 0) eps in
  ep_found (list.last (filter (fun d => ep_is_in d = true) eps)) (in_dci p) (in_size p) /\
  ep_found (list.last (filter (fun d => ep_is_in d = false) eps)) (out_dci p) (out_size p).
Proof.
  induction eps as [|d eps IH] using rev_ind; intros Hb; [done|]. apply list.Forall_app in Hb as [Hb Hd]. apply Forall_cons_1 in Hd as [Hd _].
  specialize (IH Hb). cbv zeta in *. rewrite foldl_app, !list.filter_app. cbn [foldl]. destruct (ep_index_right (field d 2) Hd) as [Hi Hdir].
  unfold ep_step at 1 3 5 7. rewrite Hdir. fold (ep_is_in d). destruct (ep_is_in d) eqn:Ein.
  - rewrite filter_cons_True, filter_nil, filter_cons_False, filter_nil, last_snoc, app_nil_r by congruence. cbn [in_dci in_size out_dci out_size].
    split; [|apply IH]. split; [done|]. unfold ep_dci, ep_number. rewrite Ein. unfold ep_is_in in Ein. by rewrite Ein in Hi.
  - rewrite filter_cons_False, filter_nil, filter_cons_True, filter_nil, last_snoc, app_nil_r by congruence. cbn [in_dci in_size out_dci out_size].
    split; [apply IH|]. split; [done|]. unfold ep_dci, ep_number. rewrite Ein. unfold ep_is_in in Ein. by rewrite Ein in Hi.
Qed.

(** C29: which endpoints are opened.  In a cached configuration where [iface] is the
    first interface with the chosen alternate setting, followed by the endpoints
    [eps] and then by something else, the driver finds, for IN and for OUT, the
    packet size of the last endpoint of that direction among [eps], and zero when
    there is none.  The index of the device context that it opens is the one of
    that endpoint exactly when the endpoint's number is below 8; from 8 on it is
    that of another endpoint. *)
Theorem endpoints_found fuel cfg alt ds1 iface eps ds3 rest :
  let ds := ds1 ++ iface :: eps ++ ds3 in
  cfg = concat ds ++ rest -> total_length cfg = Done (Z.of_nat (length (concat ds))) -> Forall desc_ok ds -> Forall sized ds -> (length ds < fuel)%nat ->
  Forall (fun d => is_alt alt d = false) ds1 -> is_alt alt iface = true -> Forall (fun d => is_endpoint d = true) eps ->
  match ds3 with [] => True | d :: _ => is_endpoint d = false end -> Forall (fun d => 0 <= field d 2 < 256) eps ->
  exists p, find_endpoints fuel cfg alt = Done p /\
    ep_found (list.last (filter (fun d => ep_is_in d = true) eps)) (in_dci p) (in_size p) /\
    ep_found (list.last (filter (fun d => ep_is_in d = false) eps)) (out_dci p) (out_size p).
Proof.
  intros ds Hcfg Htot Hok Hsz Hfuel H1 Hi He H3 Hb. eexists. split; [by apply (find_endpoints_fold fuel cfg alt ds1 iface eps ds3 rest)|]. by apply endpoints_last.
Qed.

(** ** Malformed descriptors *)

(** The iterator does not advance over a descriptor of length zero. *)
Lemma walk_stuck {A} (body : Z -> Z -> A -> res (A * bool)) cfg pre t rest total a : forall fuel,
  cfg = pre ++ 0 :: t :: rest -> Z.of_nat (length pre) < total -> body t (Z.of_nat (length pre)) a = Done (a, false) ->
  walk fuel cfg total (Z.of_nat (length pre)) body a = Stop FuelOut.
Proof.
  intros fuel Hc Ht Hb. induction fuel as [|fuel IH]; [done|]. cbn [walk]. nfalse (Z.of_nat (length pre) =? total).
  assert (iter_deref total (Z.of_nat (length pre)) = Some (Z.of_nat (length pre))) as Hi.
  { unfold iter_deref. nfalse (Z.of_nat (length pre) <? 0). by nfalse (total <=? Z.of_nat (length pre)). }
  rewrite Hi. cbn [deref rbind].
  assert (cfg = pre ++ [0; t] ++ rest) as Hc' by done.
  replace (byte_at cfg (Z.of_nat (length pre) + 1)) with (Done t : res Z) by (rewrite Hc', byte_field by (cbn; lia); done).
  cbn [rbind]. rewrite Hb. cbn [rbind]. unfold iter_next. rewrite Hi.
  replace (byte_at cfg (Z.of_nat (length pre))) with (Done 0 : res Z).
  2:{ rewrite Hc', <- (Z.add_0_r (Z.of_nat (length pre))). by rewrite byte_field by (cbn; lia). }
  cbn [rbind]. rewrite Z.add_0_r. exact IH.
Qed.
Lemma cdc_body_ok cfg pre d post b :
  cfg = pre ++ d ++ post -> sized d -> cdc_body cfg (desc_type d) (Z.of_nat (length pre)) b = Done (b || is_ecm d, false).
Proof.
  intros Hc (S1 & _ & _). unfold cdc_body, is_ecm, is_interface. destruct (Z.eqb_spec (desc_type d) kDescriptorTypeInterface) as [E|].
  - specialize (S1 E). by rewrite (interface_is_ok cfg pre d post) by done.
  - by rewrite orb_false_r.
Qed.
Lemma walk_hangs cfg t rest total : forall ds fuel pre b,
  cfg = pre ++ concat ds ++ 0 :: t :: rest -> Forall desc_ok ds -> Forall sized ds -> t <> kDescriptorTypeInterface ->
  Z.of_nat (length (pre ++ concat ds)) < total -> walk fuel cfg total (Z.of_nat (length pre)) (cdc_body cfg) b = Stop FuelOut.
Proof.
  induction ds as [|d ds IH]; intros fuel pre b Hc Hok Hsz Ht Hlt.
  { cbn [concat] in *. rewrite app_nil_r in Hlt. apply (walk_stuck _ cfg pre t rest); [done|done|]. unfold cdc_body. by rewrite (proj2 (Z.eqb_neq _ _) Ht). }
  destruct fuel as [|fuel]; [done|]. apply Forall_cons_1 in Hok as [Hd Hok], Hsz as [Hs Hsz]. cbn [concat] in *.
  assert (cfg = pre ++ d ++ (concat ds ++ 0 :: t :: rest)) as Hc' by (by rewrite Hc, <- app_assoc). rewrite !length_app in Hlt.
  cbn [walk]. nfalse (Z.of_nat (length pre) =? total).
  unfold iter_deref. nfalse (Z.of_nat (length pre) <? 0). nfalse (total <=? Z.of_nat (length pre)). cbn [orb deref rbind].
  replace (byte_at cfg (Z.of_nat (length pre) + 1)) with (Done (desc_type d) : res Z) by (rewrite Hc', byte_field by (destruct Hd; lia); done).
  cbn [rbind]. rewrite (cdc_body_ok cfg pre d _ b Hc' Hs). cbn [rbind]. rewrite (iter_next_ok cfg pre d _ total Hc' Hd) by lia. cbn [rbind].
  apply IH; [by rewrite <- app_assoc|done|done|done|rewrite !length_app; lia].
Qed.
Lemma has_cdc_hangs fuel cfg ds t rest total b :
  cfg = concat ds ++ 0 :: t :: rest -> Forall desc_ok ds -> Forall sized ds -> t <> kDescriptorTypeInterface ->
  total_length cfg = Done total -> Z.of_nat (length (concat ds)) < total -> has_cdc fuel cfg b = Stop FuelOut.
Proof.
  intros Hc Hok Hsz Ht Htot Hlt. unfold has_cdc. rewrite Htot. cbn [rbind]. change 0 with (Z.of_nat (length (@nil Z))).
  by rewrite (walk_hangs cfg t rest total ds fuel [] b).
Qed.
(** C37: a descriptor of length zero hangs the manager.  When the common driver has
    collected the configurations of a device and in the first of them, inside the
    announced total length, well-formed descriptors are followed by one whose
    length byte is zero (not an interface), the driver's step never ends, with
    whatever number of iterations. *)
Theorem zero_length_descriptor_hangs h fuel alloc_pa null_pa fresh slot m st idx cfg cfgs ds t rest total :
  0 <= slot -> slot_state m !! Z.to_nat slot = Some (Status st (Some (DCommon (MkCommon CommonDone slot idx))) (Some cfg :: cfgs)) -> 1 <= idx ->
  cfg = concat ds ++ 0 :: t :: rest -> Forall desc_ok ds -> Forall sized ds -> t <> kDescriptorTypeInterface ->
  total_length cfg = Done total -> Z.of_nat (length (concat ds)) < total ->
  tick h fuel alloc_pa null_pa fresh slot m = Stop FuelOut.
Proof.
  intros H0 Hs Hi Hc Hok Hsz Ht Htot Hlt. unfold tick, Common_tick. rewrite (get_at_lookup _ _ _ H0 Hs). cbn [rbind ss_driver cn_slot cn_state cn_config_idx ss_configs].
  rewrite (get_at_lookup _ _ _ H0 Hs). cbn [rbind ss_configs]. destruct (Z.to_nat idx) as [|n] eqn:En; [lia|]. cbn [take any_cdc deref rbind].
  by rewrite (has_cdc_hangs fuel cfg ds t rest total) by done.
Qed.
(** On well-formed configurations the search ends with the right answer. *)
Lemma has_cdc_ok fuel ds rest b :
  total_length (concat ds ++ rest) = Done (Z.of_nat (length (concat ds))) -> Forall desc_ok ds -> Forall sized ds -> (length ds < fuel)%nat ->
  has_cdc fuel (concat ds ++ rest) b = Done (b || existsb is_ecm ds).
Proof.
  intros Htot Hok Hsz Hf. unfold has_cdc. rewrite Htot. cbn [rbind]. rewrite list.Forall_forall in Hsz.
  rewrite (walk_all (fun _ => True) (fun d b => (b || is_ecm d, false))); [|done|done|done|].
  2:{ intros pre d post b' Hin E _. split; [|done]. apply (cdc_body_ok _ pre d post b' E). by apply Hsz. }
  cbn [rbind]. f_equal. clear Hok Hsz Hf Htot. revert b. induction ds as [|d ds IH]; intros b; [by rewrite orb_false_r|]. cbn [fold_until existsb]. rewrite IH.
  by rewrite orb_assoc.
Qed.

(** The address string: two UTF-16 digits per byte.  A digit is taken modulo 16,
    which is its value for [0] to [9] only: [A] to [F] become 1 to 6. *)
Definition digit (ch : Z) : Z := (ch - 48) mod 16.
Lemma mac_byte b x y : 0 <= x < 16 -> 0 <= y < 16 -> u8 (Z.lor (Z.shiftl (u8 (Z.lor (Z.shiftl b 4) x)) 4) y) = 16 * x + y.
Proof.
  intros Hx Hy. rewrite !lor_shiftl_add by (change (2 ^ 4) with 16; lia). unfold u8. change (2 ^ 8) with 256. change (2 ^ 4) with 16. zdiv.
Qed.
Lemma digit_land ch : 0 <= ch < 128 -> Z.land (i8 ch - 48) 15 = digit ch.
Proof. intros H. rewrite i8_small by lia. rewrite land_15. done. Qed.
Lemma parse_mac_byte h pa n j m b x y :
  m !! j = Some b -> hw_dma h (pa + 4 * Z.of_nat j) = x -> hw_dma h (pa + (4 * Z.of_nat j + 2)) = y -> 0 <= x < 128 -> 0 <= y < 128 ->
  parse_mac h (S (S n)) (4 * Z.of_nat j) pa m = parse_mac h n (4 * Z.of_nat (S j)) pa (<[j := 16 * digit x + digit y]> m).
Proof.
  intros Hj Hx Hy Rx Ry. cbn [parse_mac]. rewrite Hx, Hy, !digit_land by done.
  assert (4 * Z.of_nat j / 4 = Z.of_nat j) as -> by zdiv. assert ((4 * Z.of_nat j + 2) / 4 = Z.of_nat j) as -> by zdiv. rewrite Nat2Z.id, Hj.
  rewrite list_lookup_insert_eq by (by eapply lookup_lt_Some). rewrite list_insert_insert_eq, mac_byte by (apply Z.mod_pos_bound; lia).
  f_equal. lia.
Qed.
Lemma parse_mac_ok h pa m (ch : nat -> Z) :
  length m = 6%nat -> (forall k, (k < 12)%nat -> hw_dma h (pa + 2 * Z.of_nat k) = ch k /\ 0 <= ch k < 128) ->
  parse_mac h 12 0 pa m = Done (map (fun j => 16 * digit (ch (2 * j)%nat) + digit (ch (2 * j + 1)%nat)) (seq 0 6)).
Proof.
  intros HL Hch. assert (forall n j m, length m = 6%nat -> (j < 6)%nat -> parse_mac h (S (S n)) (4 * Z.of_nat j) pa m =
    parse_mac h n (4 * Z.of_nat (S j)) pa (<[j := 16 * digit (ch (2 * j)%nat) + digit (ch (2 * j + 1)%nat)]> m)) as Hs.
  { intros n j m' HL' Hj. destruct (lookup_lt_is_Some_2 m' j) as [b Hb]; [lia|].
    destruct (Hch (2 * j)%nat ltac:(lia)) as [Hx Rx], (Hch (2 * j + 1)%nat ltac:(lia)) as [Hy Ry]. apply (parse_mac_byte h pa n j m' b); [done| | |done|done].
    - rewrite <- Hx. f_equal. lia.
    - rewrite <- Hy. f_equal. lia. }
  change 0 with (4 * Z.of_nat 0). rewrite !Hs by (rewrite ?length_insert; lia).
  do 6 (destruct m as [|? m]; [discriminate HL|]). destruct m; [|discriminate HL]. reflexivity.
Qed.

(** ** Collecting the configurations of a device *)

Section Collect.
Context (fuel : nat) (alloc_pa : nat -> Z) (null_pa : Z) (fresh : Comm) (slot pa n : Z).

(** What the device is asked for: the doorbell of the slot was rung last, the three
    blocks last written to its control ring are a setup, an IN data and a status
    stage, and the request is Get Descriptor; its value, and where the answer
    goes. *)
Definition get_descriptor (t : BasicTRB) : option Z :=
  if (GetTRBType t =? kTRBTypeSetupStage) && (trb_data t mod 2 ^ 16 =? kReqTypeBitDirectionDeviceToHost + 256 * kReqGetDescriptor)
  then Some (trb_data t / 2 ^ 16 mod 2 ^ 16) else None.
Definition asked (c : ctrl) : option (Z * Z) :=
  s ← slot_info_ c !! Z.to_nat slot; r ← ctrl_ep_tring s;
  let i := next_enqueue_idx_ (tr_ring r) in let es := entry_ (tr_ring r) in
  t1 ← es !! ((i + 29) mod 32)%nat; t2 ← es !! ((i + 30) mod 32)%nat; t3 ← es !! ((i + 31) mod 32)%nat; v ← get_descriptor t1;
  if (GetTRBType t2 =? kTRBTypeDataStage) && (GetTRBType t3 =? kTRBTypeStatusStage) && bool_decide (head (log (io_ c)) = Some (Db slot, 1))
  then Some (v, trb_data t2) else None.
(** The request for configuration [i]. *)
Definition config_request (i : nat) : Z := 0x200 + Z.of_nat i.

(** The driver has [got] the first configurations and has asked for the next. *)
Record collecting (got : list (list Z)) (m : mgr) : Prop := Collecting {
  co_slot : 1 <= slot < 256;
  co_wf : wf (xhc m);
  co_info : exists s, slot_info_ (xhc m) !! Z.to_nat slot = Some s /\ sl_state s = kManaged /\ num_of_config s = n /\ RingBuffer.abs 16 [] (event_queue s);
  co_buf : descriptor_buffers_ (xhc m) !! Z.to_nat slot = Some (Some pa);
  co_driver : exists st, slot_state m !! Z.to_nat slot =
    Some (Status st (Some (DCommon (MkCommon CommonCheckingConfigDescriptor slot (Z.of_nat (length got))))) (map Some got ++ replicate (4 - length got) None));
  co_asked : asked (xhc m) = Some (config_request (length got), pa);
}.
(** The manager has just given the slot the common driver. *)
Record attached (m : mgr) : Prop := Attached {
  at_slot : 1 <= slot < 256;
  at_wf : wf (xhc m);
  at_info : exists s, slot_info_ (xhc m) !! Z.to_nat slot = Some s /\ sl_state s = kManaged /\ num_of_config s = n /\ RingBuffer.abs 16 [] (event_queue s);
  at_buf : descriptor_buffers_ (xhc m) !! Z.to_nat slot = Some (Some pa);
  at_driver : exists st, slot_state m !! Z.to_nat slot = Some (Status st (Some (DCommon (MkCommon CommonAttached slot 0))) (replicate 4 None));
}.
(** A transfer of the slot is completed, and the driver gets its turn. *)
Definition round (h : hw) (e : BasicTRB) (m : mgr) : res mgr :=
  do c <- HandleTransferEvent h e (xhc m); tick h fuel alloc_pa null_pa fresh slot (Mgr c (slot_state m)).
(** The device answers what it was asked: [answer v p] is the memory when it has
    written descriptor [v] to [p]. *)
Definition exchange (answer : Z -> Z -> hw) (e : BasicTRB) (m : mgr) : res mgr :=
  match asked (xhc m) with Some (v, p) => round (answer v p) e m | None => Done m end.
Fixpoint exchanges (k : nat) (answer : Z -> Z -> hw) (e : BasicTRB) (m : mgr) : res mgr :=
  match k with O => Done m | S k' => do m <- exchange answer e m; exchanges k' answer e m end.

Lemma push_pop s : RingBuffer.abs 16 [] (event_queue s) -> exists q,
  RingBuffer.IsEmpty (event_queue (push_event kTransferSucceeded s)) = false /\
  RingBuffer.Pop kTransferSucceeded 16 (event_queue (push_event kTransferSucceeded s)) = (kTransferSucceeded, q) /\ RingBuffer.abs 16 [] q.
Proof.
  intros Hq. pose proof (RingBuffer.Push_abs 16 [] _ kTransferSucceeded Hq) as HP. cbn [length app] in HP. change (0 + 1 <? 16)%nat with true in HP. cbn iota in HP.
  change (event_queue (push_event kTransferSucceeded s)) with (RingBuffer.Push 16 kTransferSucceeded (event_queue s)).
  set (q1 := RingBuffer.Push 16 kTransferSucceeded (event_queue s)) in *.
  destruct (RingBuffer.Pop kTransferSucceeded 16 q1) as [v q] eqn:E. destruct (RingBuffer.Pop_abs _ _ _ _ _ _ HP E) as [-> Hq2].
  exists q. split; [exact (RingBuffer.IsEmpty_abs _ _ _ HP)|]. split; [done|done].
Qed.
(** The three blocks of a request in the ring. *)
Lemma three_blocks t1 t2 t3 r q : ring_at 32 r q -> exists r1 r2 r3,
  tr_enqueue 32 t1 r = Done r1 /\ tr_enqueue 32 t2 r1 = Done r2 /\ tr_enqueue 32 t3 r2 = Done r3 /\
  exists k, entry_ (tr_ring r3) !! ((next_enqueue_idx_ (tr_ring r3) + 29) mod 32)%nat = Some (set_cycle (k 0%nat) t1) /\
    entry_ (tr_ring r3) !! ((next_enqueue_idx_ (tr_ring r3) + 30) mod 32)%nat = Some (set_cycle (k 1%nat) t2) /\
    entry_ (tr_ring r3) !! ((next_enqueue_idx_ (tr_ring r3) + 31) mod 32)%nat = Some (set_cycle (k 2%nat) t3) /\ forall j, is_bit (k j).
Proof.
  intros Hq. destruct (tr_enqueue_at 32 t1 r q ltac:(lia) Hq) as (r1 & E1 & Hq1 & _ & H1 & _).
  destruct (tr_enqueue_at 32 t2 r1 (S q) ltac:(lia) Hq1) as (r2 & E2 & Hq2 & _ & H2 & N2).
  destruct (tr_enqueue_at 32 t3 r2 (S (S q)) ltac:(lia) Hq2) as (r3 & E3 & [Hr3 _] & _ & H3 & N3).
  exists r1, r2, r3. split_and!; try done. exists (fun j => cyc 32 (q + j)). rewrite (rk_idx _ _ _ Hr3).
  assert (forall a, (S (S (S q)) mod 32 + a) mod 32 = (q + (3 + a)) mod 32)%nat as Hm by (intros a; rewrite Nat.Div0.add_mod_idemp_l; f_equal; lia).
  rewrite !Hm. replace ((q + (3 + 29)) mod 32)%nat with (q mod 32)%nat by (replace (q + (3 + 29))%nat with (q + 1 * 32)%nat by lia; by rewrite Nat.Div0.mod_add).
  replace ((q + (3 + 30)) mod 32)%nat with (S q mod 32)%nat by (replace (q + (3 + 30))%nat with (S q + 1 * 32)%nat by lia; by rewrite Nat.Div0.mod_add).
  replace ((q + (3 + 31)) mod 32)%nat with (S (S q) mod 32)%nat by (replace (q + (3 + 31))%nat with (S (S q) + 1 * 32)%nat by lia; by rewrite Nat.Div0.mod_add).
  assert (forall a, (a mod 32 < 32)%nat) as Hlt by (intros a; apply Nat.mod_upper_bound; lia).
  assert (forall a b, (0 < b < 32)%nat -> (a mod 32 <> (b + a) mod 32)%nat) as Hne.
  { intros a b Hb E. pose proof (Nat.div_mod_eq a 32). pose proof (Nat.div_mod_eq (b + a) 32). lia. }
  pose proof (Hne q 1%nat ltac:(lia)) as Hne1. pose proof (Hne q 2%nat ltac:(lia)) as Hne2. pose proof (Hne (S q) 1%nat ltac:(lia)) as Hne3. cbn [Nat.add] in Hne1, Hne2, Hne3.
  split_and!.
  - rewrite (N3 _ (Hlt _) Hne2), (N2 _ (Hlt _) Hne1), H1. by rewrite Nat.add_0_r.
  - rewrite (N3 _ (Hlt _) Hne3), H2. by rewrite Nat.add_1_r.
  - rewrite H3. by replace (q + 2)%nat with (S (S q)) by lia.
  - intros j. apply cyc_bit. lia.
Qed.
Lemma config_setup_block idx k : (idx < 4)%nat -> (forall j, is_bit (k j)) ->
  get_descriptor (set_cycle (k 0%nat) (Setup_SetParams kReqTypeBitDirectionDeviceToHost kReqGetDescriptor
    (Z.lor (Z.shiftl kDescriptorTypeConfig 8) (u8 (Z.of_nat idx))) 0 kSizeOfDescriptorBuffer false)) = Some (config_request idx).
Proof.
  intros Hi Hk. unfold get_descriptor. rewrite type_set_cycle by done. do 4 (destruct idx as [|idx]; [vm_compute; reflexivity|]). lia.
Qed.
Lemma request_config_ok idx c s :
  wf c -> 1 <= slot < 256 -> slot_info_ c !! Z.to_nat slot = Some s -> addressed (sl_state s) = true ->
  descriptor_buffers_ c !! Z.to_nat slot = Some (Some pa) -> (idx < 4)%nat ->
  exists c' r, RequestConfigDescriptor null_pa slot (Z.of_nat idx) c = Done c' /\ wf c' /\ slot_info_ c' !! Z.to_nat slot = Some (set_ctrl r s) /\
    descriptor_buffers_ c' = descriptor_buffers_ c /\ asked c' = Some (config_request idx, pa).
Proof.
  intros Hw Hs El Ha Hbuf Hidx. assert (wf_live slot c) as Hwl by (apply usable_live; [done|]; split; [lia|by exists s]).
  pose proof (request_descriptor_safe null_pa (Z.lor (Z.shiftl kDescriptorTypeConfig 8) (u8 (Z.of_nat idx))) slot c Hwl) as HS.
  assert (live_opt 32 (ctrl_ep_tring s)) as Hlive by (apply (sw_live s); [by apply (Forall_lookup_1 _ _ _ _ (w_slot c Hw) El)|done]).
  destruct (ctrl_ep_tring s) as [r|] eqn:Er; [|done]. destruct Hlive as [q Hq]. unfold RequestConfigDescriptor.
  pose proof (get_at_lookup _ slot _ ltac:(lia) Hbuf) as Eb.
  unfold request_descriptor, PutDataStageTD in *. set (t1 := Setup_SetParams _ _ _ _ _ _) in *. set (t2 := data_stage_trb pa kSizeOfDescriptorBuffer true).
  destruct (three_blocks t1 t2 (Status_SetParams false false) r q Hq) as (r1 & r2 & r3 & E1 & E2 & E3 & Hblocks).
  rewrite (ctrl_push_exact slot _ c s r r1) in HS |- * by (done || lia). cbn [rbind] in HS |- *.
  unfold buffer_pa in HS |- *. cbn [put_slot set_slots descriptor_buffers_] in HS |- *. rewrite Eb in HS |- *. cbn [rbind default] in HS |- *. fold t2 in HS |- *.
  rewrite (ctrl_push_exact slot _ (put_slot slot (set_ctrl r1 s) c) (set_ctrl r1 s) r1 r2) in HS |- * by (done || lia || by eapply put_slot_lookup). cbn [rbind] in HS |- *.
  rewrite put_slot_twice in HS |- *. rewrite (ctrl_push_exact slot _ (put_slot slot (set_ctrl r2 (set_ctrl r1 s)) c) (set_ctrl r2 (set_ctrl r1 s)) r2 r3) in HS |- *
    by (done || lia || by eapply put_slot_lookup). cbn [rbind] in HS |- *. rewrite put_slot_twice in HS |- *.
  unfold ring_doorbell, NotifyDeviceContextDoorbell in HS |- *. replace ((1 <=? slot) && (slot <=? 255)) with true in HS |- * by lia. cbn [kassert rbind safe] in HS |- *.
  eexists _, r3. split; [reflexivity|]. split; [exact HS|].
  assert (slot_info_ (put_slot slot (set_ctrl r3 (set_ctrl r2 (set_ctrl r1 s))) c) !! Z.to_nat slot = Some (set_ctrl r3 s)) as El3
    by (by eapply put_slot_lookup).
  split; [exact El3|]. split; [reflexivity|]. unfold asked. cbn [set_io slot_info_ io_ log write_reg]. rewrite El3. cbn [mbind option_bind ctrl_ep_tring set_ctrl].
  destruct Hblocks as (k & -> & -> & -> & Hk). cbn [mbind option_bind]. unfold t1. rewrite (config_setup_block idx k Hidx Hk). cbn [mbind option_bind].
  rewrite !type_set_cycle by done. cbn [head set_cycle trb_data]. rewrite bool_decide_true by done. reflexivity.
Qed.
Definition arrived (e : BasicTRB) : Prop := GetSlotID e = slot /\ IsCompletedWithSuccess e || IsCompletedWithShortPacket e = true.
(** The event is queued by the controller and taken out by the driver. *)
Lemma event_delivered h e got m s :
  collecting got m -> arrived e -> slot_info_ (xhc m) !! Z.to_nat slot = Some s -> sl_state s = kManaged -> RingBuffer.abs 16 [] (event_queue s) ->
  exists c1 q, HandleTransferEvent h e (xhc m) = Done c1 /\ PopSlotEvent slot c1 = Done (Some kTransferSucceeded, put_slot slot (set_queue q s) (xhc m)) /\
    RingBuffer.abs 16 [] q /\ wf (put_slot slot (set_queue q s) (xhc m)).
Proof.
  intros [Hs Hw _ _ _ _] [He Hok] El Hst Hq. destruct (push_pop s Hq) as (q & Hne & Hpop & Hq2).
  pose proof (HandleTransferEvent_safe h e (xhc m) Hw) as HS. unfold HandleTransferEvent, get_slot in HS |- *.
  rewrite He, (get_at_lookup _ _ s) in HS |- * by (done || lia). cbn [rbind] in HS |- *. rewrite <- negb_orb, Hok in HS |- *. cbn [negb] in HS |- *.
  rewrite Hst in HS |- *. cbn [safe] in HS. set (c1 := put_slot slot (push_event kTransferSucceeded s) (xhc m)) in *. exists c1, q. split; [done|].
  assert (PopSlotEvent slot c1 = Done (Some kTransferSucceeded, put_slot slot (set_queue q s) (xhc m))) as E.
  { unfold PopSlotEvent, get_slot. rewrite (get_at_lookup _ _ (push_event kTransferSucceeded s)) by (lia || by eapply put_slot_lookup). cbn [rbind].
    rewrite Hne, Hpop. unfold c1. rewrite put_slot_twice. reflexivity. }
  split; [exact E|]. split; [exact Hq2|]. exact (PopSlotEvent_wf slot c1 _ _ HS ltac:(lia) E).
Qed.
Lemma insert_config (got : list (list Z)) (bs : list Z) : (length got < 4)%nat ->
  set_at (map Some got ++ replicate (4 - length got) None) (Z.of_nat (length got)) (Some bs) =
    Done (map Some (got ++ [bs]) ++ replicate (4 - length (got ++ [bs])) None).
Proof.
  intros Hg. rewrite set_at_ok by (rewrite length_app, length_map, length_replicate; lia). rewrite Nat2Z.id. f_equal.
  rewrite <- (Nat.add_0_r (length got)) at 1. rewrite <- (length_map Some got) at 1. rewrite insert_app_r.
  rewrite map_app, <- app_assoc, length_app. cbn [map app length]. destruct (4 - length got)%nat as [|j] eqn:E; [lia|]. cbn [replicate insert list_insert].
  by replace (4 - (length got + 1))%nat with j by lia.
Qed.
(** What a round ends with. *)
Definition finished (got : list (list Z)) (m : mgr) : Prop :=
  exists st, slot_state m !! Z.to_nat slot =
    Some (Status st (Some (DCommon (MkCommon CommonDone slot (Z.of_nat (length got))))) (map Some got ++ replicate (4 - length got) None)).
Lemma round_ok h e got m ds :
  collecting got m -> arrived e -> configuration h pa ds -> Z.of_nat (length got) < n -> n <= 4 ->
  exists m', round h e m = Done m' /\
    if Z.of_nat (length got) + 1 =? n then finished (got ++ [concat ds]) m' else collecting (got ++ [concat ds]) m'.
Proof.
  intros Hco He Hcf Hlt Hn. pose proof Hco as [Hs Hw (s & El & Hst & Hnum & Hq) Hbuf (st & Hdr) _].
  destruct (event_delivered h e got m s Hco He El Hst Hq) as (c1 & q & E1 & E2 & Hq2 & Hw2). set (c2 := put_slot slot (set_queue q s) (xhc m)) in *.
  assert (0 <= slot) as H0 by lia. unfold round. rewrite E1. cbn [rbind]. unfold tick. cbn [slot_state xhc]. rewrite (get_at_lookup _ _ _ H0 Hdr). cbn [rbind ss_driver].
  unfold Common_tick. cbn [slot_state xhc cn_slot cn_state]. rewrite (get_at_lookup _ _ _ H0 Hdr). cbn [rbind]. unfold common_check. cbn [slot_state xhc cn_slot cn_state cn_config_idx].
  rewrite (get_at_lookup _ _ _ H0 Hdr). cbn [rbind]. rewrite E2. cbn [rbind]. rewrite (descriptor_ok 9 slot c2 pa) by (done || lia). cbn [rbind].
  rewrite (read_config_ok h pa ds) by done. cbn [rbind ss_configs]. rewrite insert_config by lia. cbn [rbind ss_state].
  assert (slot_info_ c2 !! Z.to_nat slot = Some (set_queue q s)) as El2 by (by eapply put_slot_lookup).
  unfold GetNumOfConfigs, get_slot. rewrite (get_at_lookup _ _ _ H0 El2). cbn [rbind]. change (num_of_config (set_queue q s)) with (num_of_config s). rewrite Hnum.
  assert (Z.to_nat slot < length (slot_state m))%nat as Hin by (by eapply lookup_lt_Some). unfold kMaxNumOfConfigDescriptors.
  destruct (Z.eqb_spec (Z.of_nat (length got) + 1) n) as [Efin|Efin].
  - replace (Z.of_nat (length got) + 1 <? n) with false by (symmetry; apply Z.ltb_ge; lia). cbn [andb]. eexists. split; [reflexivity|].
    exists st. cbn [put_common put_status slot_state cn_slot ss_state ss_configs]. rewrite list_lookup_insert_eq by done. rewrite !length_app. cbn [length].
    by replace (Z.of_nat (length got) + 1) with (Z.of_nat (length got + 1)) by lia.
  - replace ((Z.of_nat (length got) + 1 <? n) && (Z.of_nat (length got) + 1 <? 4)) with true.
    2:{ symmetry. apply andb_true_iff. split; apply Z.ltb_lt; lia. }
    destruct (request_config_ok (S (length got)) c2 (set_queue q s) Hw2 Hs El2) as (c3 & r & E3 & Hw3 & El3 & Hb3 & Hask);
      [change (sl_state (set_queue q s)) with (sl_state s); by rewrite Hst|exact Hbuf|lia|].
    replace (Z.of_nat (length got) + 1) with (Z.of_nat (S (length got))) by lia. rewrite E3. cbn [rbind]. eexists. split; [reflexivity|]. split; [done|exact Hw3|exists (set_ctrl r (set_queue q s)); done|cbn [xhc put_common put_status]; rewrite Hb3; exact Hbuf| |].
    + exists st. cbn [put_common put_status slot_state cn_slot ss_state ss_configs xhc]. rewrite list_lookup_insert_eq by done. rewrite !length_app. cbn [length].
      by rewrite Nat.add_1_r.
    + cbn [xhc put_common put_status]. rewrite length_app. cbn [length]. by rewrite Nat.add_1_r.
Qed.

(** The first step asks for the first configuration. *)
Lemma attached_asks h m : attached m -> exists m1, tick h fuel alloc_pa null_pa fresh slot m = Done m1 /\ collecting [] m1.
Proof.
  intros [Hs Hw (s & El & Hst & Hnum & Hq) Hbuf (st & Hdr)]. assert (0 <= slot) as H0 by lia.
  destruct (request_config_ok 0 (xhc m) s Hw Hs El) as (c1 & r & E & Hw1 & El1 & Hb1 & Hask); [by rewrite Hst|exact Hbuf|lia|].
  unfold tick. rewrite (get_at_lookup _ _ _ H0 Hdr). cbn [rbind ss_driver]. unfold Common_tick. cbn [cn_slot cn_state]. rewrite (get_at_lookup _ _ _ H0 Hdr). cbn [rbind].
  change 0 with (Z.of_nat 0) at 1. rewrite E. cbn [rbind]. eexists. split; [reflexivity|].
  split; [done|exact Hw1|exists (set_ctrl r s); done|cbn [xhc put_common put_status]; rewrite Hb1; exact Hbuf| |exact Hask].
  exists st. cbn [put_common put_status slot_state cn_slot ss_state ss_configs]. rewrite list_lookup_insert_eq by (by eapply lookup_lt_Some). reflexivity.
Qed.
Lemma exchanges_collect answer e : arrived e -> forall dss got m,
  (forall i ds, dss !! i = Some ds -> configuration (answer (config_request (length got + i)) pa) pa ds) -> collecting got m ->
  Z.of_nat (length got + length dss) = n -> n <= 4 -> (0 < length dss)%nat ->
  exists m', exchanges (length dss) answer e m = Done m' /\ finished (got ++ map (@concat Z) dss) m'.
Proof.
  intros He. induction dss as [|ds dss IH]; intros got m Hans Hco Hlen Hn Hpos; [cbn in Hpos; lia|]. cbn [length exchanges] in *.
  unfold exchange. rewrite (co_asked _ _ Hco). pose proof (Hans 0%nat ds eq_refl) as Hcf. rewrite Nat.add_0_r in Hcf.
  destruct (round_ok _ e got m ds Hco He Hcf ltac:(lia) ltac:(lia)) as (m1 & E1 & H1). rewrite E1. cbn [rbind map].
  destruct (Z.eqb_spec (Z.of_nat (length got) + 1) n) as [Efin|Efin].
  - destruct dss; [|cbn in Hlen; lia]. by exists m1.
  - destruct (IH (got ++ [concat ds]) m1) as (m2 & E2 & H2); [|done|rewrite length_app; cbn; lia|done|lia|].
    + intros i ds' Hi. rewrite length_app. cbn [length]. rewrite <- Nat.add_assoc. by apply (Hans (S i)).
    + exists m2. split; [exact E2|]. by rewrite <- app_assoc in H2.
Qed.

(** C15: the common driver collects every configuration of the device.  A device
    with configurations [dss], one to four, answers each request with a completed
    transfer: asked for configuration [i] (a Get Descriptor request with its index
    in the last three blocks of the control ring, after the doorbell), it writes
    the [i]-th of [dss], well formed, to the address in the data block.  Then the
    first step of a freshly attached driver and as many exchanges as there are
    configurations leave the driver done, with exactly [dss] in the slot, each in
    its place. *)
Theorem configurations_collected h answer e m dss :
  attached m -> arrived e -> Z.of_nat (length dss) = n -> 1 <= n <= 4 ->
  (forall i ds, dss !! i = Some ds -> configuration (answer (config_request i) pa) pa ds) ->
  exists m1 m', tick h fuel alloc_pa null_pa fresh slot m = Done m1 /\ exchanges (length dss) answer e m1 = Done m' /\ finished (map (@concat Z) dss) m'.
Proof.
  intros Hat He Hlen Hn Hans. destruct (attached_asks h m Hat) as (m1 & E1 & Hco).
  destruct (exchanges_collect answer e He dss [] m1 Hans Hco) as (m' & E & Hf); [cbn; lia|lia|lia|]. by exists m1, m'.
Qed.
End Collect.

(** ** A network adapter *)

Definition demo_header : list Z := [9; 2; 63; 0; 2; 1; 4; 192; 50].
Definition demo_comm : list Z := [9; 4; 0; 0; 1; 2; 6; 0; 0].
Definition demo_eth : list Z := [13; 36; 15; 3; 0; 0; 0; 0; 234; 5; 0; 0; 0].
Definition demo_data0 : list Z := [9; 4; 1; 0; 0; 10; 0; 0; 0].
Definition demo_data1 : list Z := [9; 4; 1; 1; 2; 10; 0; 0; 0].
Definition demo_ep_in : list Z := [7; 5; 129; 2; 0; 2; 0].
Definition demo_ep_out : list Z := [7; 5; 2; 2; 64; 0; 0].
Notation demo_config := ([demo_header] ++ demo_comm :: [demo_eth; demo_data0] ++ demo_data1 :: [demo_ep_in; demo_ep_out]).
Definition demo_pa : Z := 0x5000.
Definition demo_config_hw (ds : list (list Z)) : hw := demo_hw 1000 no_event (fun a => nth (Z.to_nat (a - demo_pa)) (concat ds) 0).
Lemma demo_sized d : (13 <= length d)%nat \/ desc_type d = 4 /\ (8 <= length d)%nat \/ desc_type d = 5 /\ (6 <= length d)%nat \/ desc_type d = 2 -> sized d.
Proof. unfold sized, kDescriptorTypeInterface, kDescriptorTypeEndpoint. intros [H|[[-> H]|[[-> H]| ->]]]; split_and!; intros; try lia; discriminate. Qed.
Lemma demo_descs_ok : Forall desc_ok demo_config /\ Forall sized demo_config.
Proof.
  split; [apply (bool_decide_unpack (Forall desc_ok demo_config)); vm_compute; exact I|].
  repeat (apply Forall_cons; [apply demo_sized; cbn; lia|]). apply List.Forall_nil.
Qed.
Lemma demo_configuration : configuration (demo_config_hw demo_config) demo_pa demo_config.
Proof. destruct demo_descs_ok as [H1 H2]. split; [vm_compute; reflexivity|vm_compute; reflexivity|cbn; lia|exact H1|exact H2]. Qed.
Definition demo_fresh_comm : Comm := MkComm CommAttached 0 0 0 0 0 0 0 0 (replicate 4096 0) (replicate 4096 0) (replicate 6 0).

(** The slot of the adapter: managed, with an event or without. *)
Definition demo_ring_ready : tring := match init_tring 32 demo_tring with Done r => r | Stop _ => demo_tring end.
Definition demo_managed : SlotInfo :=
  set_ident [2; 6; 0; 1; 2; 2; 0] (set_state kManaged (set_ctrl demo_ring_ready zero_slot)).
Definition demo_ctrl (s : SlotInfo) : ctrl := put_slot 1 s (set_buffers (<[1%nat := Some demo_pa]> (descriptor_buffers_ demo2)) demo2).
Notation demo_comm_driver := (MkComm CommCheckingConfigDescriptor 1 0 0 0 0 0 0 0 [] (replicate 4096 0) (replicate 6 0)).
Lemma ecm_configuration_found_witness :
  exists d', Comm_tick (demo_config_hw demo_config) 8 0 demo_comm_driver (demo_ctrl (push_event kTransferSucceeded demo_managed)) = Done (d',
      demo_ctrl (set_queue (RingBuffer.Ring (replicate 16 kTransferSucceeded) 1 1) demo_managed)) /\
    cm_state d' = CommFoundECMConfig /\ cm_config_value d' = 1 /\ cm_data_number d' = 1 /\ cm_data_alt d' = 1 /\ cm_mac_string_idx d' = 3.
Proof.
  destruct (ecm_configuration_found (demo_config_hw demo_config) 8 0 demo_comm_driver (demo_ctrl (push_event kTransferSucceeded demo_managed))
    (demo_ctrl (set_queue (RingBuffer.Ring (replicate 16 kTransferSucceeded) 1 1) demo_managed)) demo_pa [demo_header] demo_comm [demo_eth; demo_data0] demo_data1
    [demo_ep_in; demo_ep_out]) as (d' & E & H1 & _ & H3 & _ & H5 & H6 & H7 & _).
  - reflexivity.
  - cbn. lia.
  - vm_compute. reflexivity.
  - vm_compute. reflexivity.
  - exact demo_configuration.
  - cbn. lia.
  - repeat constructor; vm_compute; reflexivity.
  - vm_compute. reflexivity.
  - repeat constructor; vm_compute; reflexivity.
  - vm_compute. reflexivity.
  - exists d'. split; [exact E|]. split; [exact H1|]. split; [rewrite H3; vm_compute; reflexivity|]. split; [rewrite H5; reflexivity|].
    split; [rewrite H6; reflexivity|]. rewrite H7. vm_compute. reflexivity.
Defined.
Lemma endpoints_found_witness : exists p, find_endpoints 8 (concat demo_config ++ replicate 10 0) 1 = Done p /\ in_dci p = 3 /\ out_dci p = 4 /\ out_size p = 64.
Proof.
  destruct demo_descs_ok as [H1 H2].
  destruct (endpoints_found 8 (concat demo_config ++ replicate 10 0) 1 [demo_header; demo_comm; demo_eth; demo_data0] demo_data1 [demo_ep_in; demo_ep_out] [] (replicate 10 0))
    as (p & E & [_ Hin] & [Hsize Hout]).
  - reflexivity.
  - vm_compute. reflexivity.
  - exact H1.
  - exact H2.
  - cbn. lia.
  - repeat constructor; vm_compute; reflexivity.
  - vm_compute. reflexivity.
  - repeat constructor; vm_compute; reflexivity.
  - exact I.
  - repeat (apply Forall_cons; [cbn; lia|]). apply List.Forall_nil.
  - exists p. split; [exact E|]. split; [exact (proj2 Hin eq_refl)|]. split; [exact (proj2 Hout eq_refl)|exact Hsize].
Defined.
Definition demo_bad_config : list Z := demo_header ++ 0 :: 36 :: replicate 60 0.
Definition demo_bad_mgr : mgr :=
  Mgr (demo_ctrl demo_managed) (<[1%nat := Status kDriverAttached (Some (DCommon (MkCommon CommonDone 1 1))) [Some demo_bad_config; None; None; None]]>
    (replicate 256 (Status kUninitialized None (replicate 4 None)))).
Lemma zero_length_descriptor_hangs_witness : tick demo_h 1000 demo_alloc 0 demo_fresh_comm 1 demo_bad_mgr = Stop FuelOut.
Proof.
  apply (zero_length_descriptor_hangs demo_h 1000 demo_alloc 0 demo_fresh_comm 1 demo_bad_mgr kDriverAttached 1 demo_bad_config [None; None; None] [demo_header] 36
    (replicate 60 0) 63).
  - lia.
  - vm_compute. reflexivity.
  - lia.
  - reflexivity.
  - apply Forall_singleton. vm_compute. split; [lia|reflexivity].
  - apply Forall_singleton. apply demo_sized. cbn. lia.
  - discriminate.
  - vm_compute. reflexivity.
  - cbn. lia.
Defined.
(** A second configuration, and the driver that collects both. *)
Notation demo_config2 := [[9; 2; 18; 0; 1; 2; 0; 192; 50]; [9; 4; 0; 0; 0; 255; 0; 0; 0]].
Lemma demo_configuration2 : configuration (demo_config_hw demo_config2) demo_pa demo_config2.
Proof.
  split; [vm_compute; reflexivity|vm_compute; reflexivity|cbn; lia| |].
  - apply (bool_decide_unpack (Forall desc_ok demo_config2)). vm_compute. exact I.
  - repeat (apply Forall_cons; [apply demo_sized; cbn; lia|]). apply List.Forall_nil.
Qed.
Lemma wf_buffer i pa c : wf c -> wf (set_buffers (<[i := Some pa]> (descriptor_buffers_ c)) c).
Proof.
  intros Hw. pose proof (w_buf c Hw) as w_buf0. destruct Hw. split; try done; cbn [set_buffers descriptor_buffers_ slot_info_]; [by rewrite length_insert|]. intros n s Hs Hst.
  cbn [set_buffers descriptor_buffers_ slot_info_] in *. destruct (w_buf0 n s Hs Hst) as [q Hq]. destruct (decide (i = n)) as [->|Hne].
  - exists pa. apply list_lookup_insert_eq. by eapply lookup_lt_Some.
  - exists q. by rewrite list_lookup_insert_ne.
Qed.
Lemma demo_managed_wf : slot_wf demo_managed.
Proof.
  assert (ring_mem 32 demo_tring) as Hm by (unfold ring_mem; vm_compute; reflexivity).
  destruct (init_tring_at 32 demo_tring ltac:(lia) Hm) as (r & E & Hr & _). assert (demo_ring_ready = r) as Er by exact (f_equal (fun m => match m with Done r => r | Stop _ => demo_tring end) E).
  apply slot_wf_ident, slot_wf_state; [|intros _; cbn [set_ctrl ctrl_ep_tring live_opt]; rewrite Er; exact (ring_at_live 32 r 0 Hr)].
  apply slot_wf_ctrl; [|rewrite Er; exact (ring_at_live 32 r 0 Hr)]. exact zero_slot_wf.
Qed.
Definition demo_mgr : mgr :=
  Mgr (demo_ctrl demo_managed) (<[1%nat := Status kDriverAttached (Some (DCommon (MkCommon CommonAttached 1 0))) (replicate 4 None)]>
    (replicate 256 (Status kUninitialized None (replicate 4 None)))).
Lemma demo_attached : attached 1 demo_pa 2 demo_mgr.
Proof.
  pose proof (demo_wf demo2 (proj1 demo_reach)) as Hw. split; [lia| | | |].
  - unfold demo_mgr, demo_ctrl. cbn [xhc]. apply wf_put_quiet; [by apply wf_buffer|exact demo_managed_wf|discriminate].
  - exists demo_managed. split; [vm_compute; reflexivity|]. split; [reflexivity|]. split; [reflexivity|]. exact empty_queue_abs.
  - vm_compute. reflexivity.
  - exists kDriverAttached. vm_compute. reflexivity.
Qed.
Definition demo_transfer : BasicTRB := TRB 0 (Z.shiftl 1 24) (Z.lor (Z.shiftl 1 24) (Z.shiftl 32 10)).
Definition demo_answer (v p : Z) : hw := demo_config_hw (if v =? 0x200 then demo_config else demo_config2).
Lemma configurations_collected_witness :
  exists m1 m' st, tick demo_h 8 demo_alloc 0 demo_fresh_comm 1 demo_mgr = Done m1 /\ exchanges 8 demo_alloc 0 demo_fresh_comm 1 2 demo_answer demo_transfer m1 = Done m' /\
    slot_state m' !! 1%nat = Some (Status st (Some (DCommon (MkCommon CommonDone 1 2))) [Some (concat demo_config); Some (concat demo_config2); None; None]).
Proof.
  assert (arrived 1 demo_transfer) as Ha by (split; vm_compute; reflexivity).
  destruct (configurations_collected 8 demo_alloc 0 demo_fresh_comm 1 demo_pa 2 demo_h demo_answer demo_transfer demo_mgr [demo_config; demo_config2])
    as (m1 & m' & E1 & E & st & H).
  - exact demo_attached.
  - exact Ha.
  - reflexivity.
  - lia.
  - intros [|[|i]] ds Hi; [injection Hi as <-; exact demo_configuration|injection Hi as <-; exact demo_configuration2|discriminate Hi].
  - exists m1, m', st. split; [exact E1|]. split; [exact E|exact H].
Defined.
