(* ===== verification/Interrupts.v ===== *)
(** * Interrupts and preemption: [src/interrupt.h], [src/interrupt.cc],
    [src/inthandler.S], [src/apic.cc], [src/gdt.h], [src/gdt.cc], and the context
    switch in [src/kernel.cc]

    An interrupt arrives at the redirection table of the I/O APIC, goes through a
    gate of the interrupt descriptor table to an assembly entry, which saves the
    registers in a frame on the stack, and to the handler that is registered for
    it.  The timer's handler asks the scheduler for the next process, saves the
    frame in the context of the process that is interrupted and replaces it by the
    context of the next one, which the return from the interrupt loads.  The
    counter of the timer is an environment. *)

From S2P Require Import Prelude KernelBase PhysPages Paging Persist Scheduler.
Import Generic.

(** ** Contexts *)

Record GeneralRegisterContext := Greg {
  rax : Z; rdx : Z; rbx : Z; rbp : Z; rsi : Z; rdi : Z; r8 : Z; r9 : Z; r10 : Z; r11 : Z; r12 : Z; r13 : Z; r14 : Z; r15 : Z; rcx : Z;
}.
Record InterruptContext := IntCtx { rip : Z; cs : Z; rflags : Z; rsp : Z; ss : Z }.
Record CPUContext := CpuCtx { cr3 : Z; greg : GeneralRegisterContext; int_ctx : InterruptContext; fpu_context : list Z }.
(** The frame on the stack, and its address. *)
Record InterruptInfo := Info { info_fpu : list Z; info_greg : GeneralRegisterContext; error_code : Z; info_int : InterruptContext; info_addr : Z }.

(** ** The global descriptor table *)

Module Gdt.
Definition kDescBitTypeData : Z := Z.shiftl 2 43.
Definition kDescBitTypeCode : Z := Z.shiftl 3 43.
Definition kDescBitPresent : Z := Z.shiftl 1 47.
Definition kDescBitOfsDPL : Z := 45.
Definition kCSDescBitLongMode : Z := Z.shiftl 1 53.
Definition kCSDescBitReadable : Z := Z.shiftl 1 41.
Definition kDSDescBitWritable : Z := Z.shiftl 1 41.
Definition kKernelCSSelector : Z := Z.shiftl 1 3.
Definition kKernelDSSelector : Z := Z.shiftl 2 3.
Definition kUserCS32Selector : Z := Z.lor (Z.shiftl 3 3) 3.
Definition kUserDSSelector : Z := Z.lor (Z.shiftl 4 3) 3.
Definition kUserCS64Selector : Z := Z.lor (Z.shiftl 5 3) 3.
Definition kTSS64Selector : Z := Z.shiftl 6 3.
Record TSS64Entry := Tss64Entry { limit_low : Z; base_low : Z; base_mid_low : Z; attr : Z; base_mid_high : Z; base_high : Z }.
Definition SetBaseAddr (base_addr : Z) (e : TSS64Entry) : TSS64Entry :=
  Tss64Entry (limit_low e) (Z.land base_addr 0xffff) (Z.land (Z.shiftr base_addr 16) 0xff) (attr e)
    (Z.land (Z.shiftr base_addr 24) 0xff) (Z.land (Z.shiftr base_addr 32) 0xffffffff).
Definition SetLimit (limit : Z) (e : TSS64Entry) : TSS64Entry :=
  Tss64Entry (u16 limit) (base_low e) (base_mid_low e) (attr e) (base_mid_high e) (base_high e).
(** [rsp] and [ist] of [IA_TSS64]; 104 bytes with the reserved ones. *)
Record IA_TSS64 := Tss64 { tss_rsp : list Z; tss_ist : list Z }.
Definition sizeof_IA_TSS64 : Z := 104.
(** The descriptors in order, the task state segment, and the selectors that are
    loaded: code, stack, data, task. *)
Record GDT := Gdt_ { segments : list Z; task_state_segment : TSS64Entry; tss64_ : IA_TSS64; loaded : list Z }.
Definition Init (kernel_stack_pointer ist1_pointer tss_addr : Z) : GDT :=
  Gdt_ [0;
        Z.lor (Z.lor (Z.lor kDescBitTypeCode kDescBitPresent) kCSDescBitLongMode) kCSDescBitReadable;
        Z.lor (Z.lor kDescBitTypeData kDescBitPresent) kDSDescBitWritable;
        0;
        Z.lor (Z.lor (Z.lor kDescBitTypeData kDescBitPresent) kDSDescBitWritable) (Z.shiftl 3 kDescBitOfsDPL);
        Z.lor (Z.lor (Z.lor (Z.lor kDescBitTypeCode kDescBitPresent) kCSDescBitLongMode) kCSDescBitReadable) (Z.shiftl 3 kDescBitOfsDPL)]
    (SetLimit (sizeof_IA_TSS64 - 1) (SetBaseAddr tss_addr (Tss64Entry 0 0 0 0x8089 0 0)))
    (Tss64 (<[0%nat := kernel_stack_pointer]> (replicate 3 0)) (<[1%nat := ist1_pointer]> (replicate 9 0)))
    [kKernelCSSelector; kKernelDSSelector; kKernelDSSelector; kTSS64Selector].
(** The base address the processor assembles. *)
Definition tss_base (e : TSS64Entry) : Z :=
  base_low e + 2 ^ 16 * base_mid_low e + 2 ^ 24 * base_mid_high e + 2 ^ 32 * base_high e.
End Gdt.

(** ** The interrupt descriptor table *)

Record IDTGateDescriptor := Gate {
  offset_low : Z; segment_descriptor : Z; interrupt_stack_table : Z; reserved0 : Z; g_type : Z; reserved1 : Z;
  descriptor_privilege_level : Z; present : Z; offset_mid : Z; offset_high : Z; reserved2 : Z;
}.
Definition kInterruptGate : Z := 0xE.
(** Where the processor jumps. *)
Definition gate_offset (g : IDTGateDescriptor) : Z := offset_low g + 2 ^ 16 * offset_mid g + 2 ^ 32 * offset_high g.

(** The entries of [inthandler.S] and the code each passes on. *)
Inductive asm_entry :=
| AsmIntHandler00_DivideError | AsmIntHandler03 | AsmIntHandler06 | AsmIntHandler07_DeviceNotAvailable | AsmIntHandler08
| AsmIntHandler0D | AsmIntHandler0E | AsmIntHandler10_x87FPUError | AsmIntHandler13_SIMDFPException
| AsmIntHandler20 | AsmIntHandler21 | AsmIntHandler22 | AsmIntHandlerNotImplemented.
Definition asm_entries : list asm_entry :=
  [AsmIntHandler00_DivideError; AsmIntHandler03; AsmIntHandler06; AsmIntHandler07_DeviceNotAvailable; AsmIntHandler08;
   AsmIntHandler0D; AsmIntHandler0E; AsmIntHandler10_x87FPUError; AsmIntHandler13_SIMDFPException;
   AsmIntHandler20; AsmIntHandler21; AsmIntHandler22; AsmIntHandlerNotImplemented].
Definition intcode_of (e : asm_entry) : Z :=
  match e with
  | AsmIntHandler00_DivideError => 0x00 | AsmIntHandler03 => 0x03 | AsmIntHandler06 => 0x06
  | AsmIntHandler07_DeviceNotAvailable => 0x07 | AsmIntHandler08 => 0x08 | AsmIntHandler0D => 0x0D | AsmIntHandler0E => 0x0E
  | AsmIntHandler10_x87FPUError => 0x10 | AsmIntHandler13_SIMDFPException => 0x13
  | AsmIntHandler20 => 0x20 | AsmIntHandler21 => 0x21 | AsmIntHandler22 => 0x22 | AsmIntHandlerNotImplemented => 0x100
  end.

Section Idt.
(** [H]: the type of handlers; [asm_addr]: where the linker put the entries. *)
Context {H : Type} (asm_addr : asm_entry -> Z).
Record IDT := Idt { descriptors_ : list IDTGateDescriptor; handler_list_ : list (option H) }.
Definition SetEntry (index : nat) (segm_desc ist type dpl : Z) (handler : asm_entry) (t : IDT) : IDT :=
  let a := asm_addr handler in
  Idt (<[index := Gate (Z.land a 0xffff) (u8 segm_desc) (u8 ist mod 8) 0 (type mod 16) 0 (u8 dpl mod 4) 1
                    (Z.land (Z.shiftr a 16) 0xffff) (Z.land (Z.shiftr a 32) 0xffffffff) 0]> (descriptors_ t))
    (handler_list_ t).
Definition SetIntHandler (intcode : Z) (handler : H) (t : IDT) : res IDT :=
  run kassert (intcode <=? 0xFF);
  Done (Idt (descriptors_ t) (<[Z.to_nat intcode := Some handler]> (handler_list_ t))).
(** The gates for everything, then the entries that exist: vector, stack, entry. *)
Fixpoint init_gates (n : nat) (cs : Z) (t : IDT) : IDT :=
  match n with
  | O => t
  | S n' =>
    let t := init_gates n' cs t in
    let t := SetEntry n' cs 1 kInterruptGate 0 AsmIntHandlerNotImplemented t in
    Idt (descriptors_ t) (<[n' := None]> (handler_list_ t))
  end.
Definition gates : list (nat * Z * asm_entry) :=
  [(0x00%nat, 0, AsmIntHandler00_DivideError); (0x03%nat, 0, AsmIntHandler03); (0x06%nat, 0, AsmIntHandler06);
   (0x07%nat, 0, AsmIntHandler07_DeviceNotAvailable); (0x08%nat, 1, AsmIntHandler08); (0x0d%nat, 0, AsmIntHandler0D);
   (0x0e%nat, 1, AsmIntHandler0E); (0x10%nat, 0, AsmIntHandler10_x87FPUError); (0x13%nat, 0, AsmIntHandler13_SIMDFPException);
   (0x20%nat, 0, AsmIntHandler20); (0x21%nat, 0, AsmIntHandler21); (0x22%nat, 0, AsmIntHandler22)].
Definition InitInternal (cs : Z) (t : IDT) : IDT :=
  foldl (fun t '(v, ist, e) => SetEntry v cs ist kInterruptGate 0 e t) (init_gates 0x100 cs t) gates.
(** The handler for a code; without one the kernel prints what it knows and
    dies. *)
Definition find_handler (intcode : Z) (t : IDT) : res H :=
  match (if intcode <=? 0xFF then handler_list_ t !! Z.to_nat intcode else None) with
  | Some (Some h) => Done h
  | _ => Stop Panic
  end.
(** What the processor does with an interrupt: through the gate to an entry. *)
Definition enter (vector : nat) (t : IDT) : option asm_entry :=
  match descriptors_ t !! vector with
  | Some g => if present g =? 1 then list_find (fun e => asm_addr e = gate_offset g) asm_entries ≫= (fun x => Some x.2) else None
  | None => None
  end.
End Idt.
Arguments IDT : clear implicits.

(** ** Interrupt controllers *)

(** The registers of the I/O APIC behind its index and data ports. *)
Definition ioapic := Z -> Z.
Definition ReadIOAPICRegister (reg_index : Z) (r : ioapic) : Z := r (u8 reg_index).
Definition WriteIOAPICRegister (reg_index value : Z) (r : ioapic) : ioapic := fun i => if i =? u8 reg_index then u32 value else r i.
Definition ReadIOAPICRedirectTableRegister (irq_index : Z) (r : ioapic) : Z :=
  Z.lor (ReadIOAPICRegister (0x10 + u8 irq_index * 2) r) (Z.shiftl (ReadIOAPICRegister (0x10 + u8 irq_index * 2 + 1) r) 32).
Definition WriteIOAPICRedirectTableRegister (irq_index value : Z) (r : ioapic) : ioapic :=
  WriteIOAPICRegister (0x10 + u8 irq_index * 2 + 1) (u32 (Z.shiftr value 32)) (WriteIOAPICRegister (0x10 + u8 irq_index * 2) (u32 value) r).
Definition SetInterruptRedirection (local_apic_id from_irq_num to_vector_index : Z) (r : ioapic) : ioapic :=
  let redirect_table := ReadIOAPICRedirectTableRegister from_irq_num r in
  let redirect_table := Z.land redirect_table 0x00fffffffffe0000 in
  let redirect_table := Z.lor redirect_table (Z.lor (u64 (Z.shiftl local_apic_id 56)) to_vector_index) in
  WriteIOAPICRedirectTableRegister from_irq_num redirect_table r.
Definition InitIOAPIC (local_apic_id : Z) (r : ioapic) : ioapic :=
  SetInterruptRedirection local_apic_id 12 0x22 (SetInterruptRedirection local_apic_id 1 0x21 (SetInterruptRedirection local_apic_id 2 0x20 r)).
(** The vector, destination and mask of an interrupt line. *)
Definition redirected_vector (irq : Z) (r : ioapic) : Z := ReadIOAPICRedirectTableRegister irq r mod 256.
Definition redirected_to (irq : Z) (r : ioapic) : Z := ReadIOAPICRedirectTableRegister irq r / 2 ^ 56.
Definition masked (irq : Z) (r : ioapic) : bool := Z.testbit (ReadIOAPICRedirectTableRegister irq r) 16.

(** Where the end of an interrupt is written: a model specific register or the
    register page. *)
Inductive eoi := EoiMSR (index value : Z) | EoiRegister (offset value : Z).
Definition SendEndOfInterrupt (is_x2apic_ : bool) : eoi := if is_x2apic_ then EoiMSR 0x80b 0 else EoiRegister 0xB0 0.

(** ** The context switch *)

(** [ctxs]: the contexts of ephemeral processes, by address; [persistent]: the
    memory that holds the contexts of persistent ones; [reads]: how often the
    counter was read. *)
Record kernel := Kernel { sc : sched; ctxs : gmap Z CPUContext; persistent : mem; cr3_reg : Z; reads : nat; eois : list eoi }.
Definition set_sc (x : sched) (k : kernel) : kernel := Kernel x (ctxs k) (persistent k) (cr3_reg k) (reads k) (eois k).
Definition set_ctxs (x : gmap Z CPUContext) (k : kernel) : kernel := Kernel (sc k) x (persistent k) (cr3_reg k) (reads k) (eois k).
Definition set_persistent (x : mem) (k : kernel) : kernel := Kernel (sc k) (ctxs k) x (cr3_reg k) (reads k) (eois k).
Definition WriteCR3 (x : Z) (k : kernel) : kernel := Kernel (sc k) (ctxs k) (persistent k) x (reads k) (eois k).

Definition AddProcTimeFemtoSec (fs : Z) (p : Process) : Process :=
  MkProcess (id_ p) (name_ p) (status_ p) (scheduler_index_ p) (ctx_ p) (pp_info_ p) (number_of_ctx_switch_ p) (u64 (proc_time_femto_sec_ p + fs))
    (sys_time_femto_sec_ p) (copied_bytes_in_ctx_sw_ p) (num_of_clflush_issued_in_ctx_sw_ p) (time_consumed_in_ctx_save_femto_sec_ p) (stdin_buffer_ p).
Definition AddTimeConsumedInContextSavingFemtoSec (fs : Z) (p : Process) : Process :=
  MkProcess (id_ p) (name_ p) (status_ p) (scheduler_index_ p) (ctx_ p) (pp_info_ p) (number_of_ctx_switch_ p) (proc_time_femto_sec_ p)
    (sys_time_femto_sec_ p) (copied_bytes_in_ctx_sw_ p) (num_of_clflush_issued_in_ctx_sw_ p) (u64 (time_consumed_in_ctx_save_femto_sec_ p + fs)) (stdin_buffer_ p).
(** One more switch, and the statistics that saving a persistent context
    returns. *)
Definition count_switch (copied clflush : Z) (p : Process) : Process :=
  MkProcess (id_ p) (name_ p) (status_ p) (scheduler_index_ p) (ctx_ p) (pp_info_ p) (u64 (number_of_ctx_switch_ p + 1)) (proc_time_femto_sec_ p)
    (sys_time_femto_sec_ p) copied clflush (time_consumed_in_ctx_save_femto_sec_ p) (stdin_buffer_ p).
Definition on_process (p : nat) (f : Process -> Process) (k : kernel) : res kernel := do s <- update p f (sc k); Done (set_sc s k).

(** A reference to an execution context. *)
Inductive ctx_ref := Ephemeral (a : Z) | Persistent (a : Z).
Definition run_pm {A} (x : P A) (k : kernel) : res (A * kernel) :=
  do '(a, m, _) <- x (persistent k); Done (a, set_persistent m k).
Definition GetExecutionContext (p : nat) (k : kernel) : res (ctx_ref * kernel) :=
  do pr <- get (sc k) p;
  do b <- IsPersistent pr;
  if b : bool then do i <- deref (pp_info_ pr); do '(a, k) <- run_pm (Context.GetWorkingContext i) k; Done (Persistent a, k)
  else do a <- deref (ctx_ pr); Done (Ephemeral a, k).

(** The words of a context in memory: [cr3], the registers, the interrupt frame. *)
Definition greg_words (g : GeneralRegisterContext) : list Z :=
  [rax g; rdx g; rbx g; rbp g; rsi g; rdi g; r8 g; r9 g; r10 g; r11 g; r12 g; r13 g; r14 g; r15 g; rcx g].
Definition int_words (i : InterruptContext) : list Z := [rip i; cs i; rflags i; rsp i; ss i].
Fixpoint store_words (a : Z) (l : list Z) : P unit :=
  match l with [] => pret tt | w :: l' => pbind (st a w) (fun _ => store_words (a + 8) l') end.
Definition greg_at (f : Z -> Z) (a : Z) : GeneralRegisterContext :=
  Greg (f a) (f (a + 8)) (f (a + 16)) (f (a + 24)) (f (a + 32)) (f (a + 40)) (f (a + 48)) (f (a + 56)) (f (a + 64)) (f (a + 72)) (f (a + 80))
    (f (a + 88)) (f (a + 96)) (f (a + 104)) (f (a + 112)).
Definition int_at (f : Z -> Z) (a : Z) : InterruptContext := IntCtx (f a) (f (a + 8)) (f (a + 16)) (f (a + 24)) (f (a + 32)).
(** [from.cr3 = ..., from.greg = ..., from.int_ctx = ...] *)
Definition save_context (r : ctx_ref) (c : Z) (g : GeneralRegisterContext) (i : InterruptContext) (k : kernel) : res kernel :=
  match r with
  | Ephemeral a => do x <- deref (ctxs k !! a); Done (set_ctxs (<[a := CpuCtx c g i (fpu_context x)]> (ctxs k)) k)
  | Persistent a => do '(_, k) <- run_pm (store_words a (c :: greg_words g ++ int_words i)) k; Done k
  end.
Definition load_context (r : ctx_ref) (k : kernel) : res (Z * GeneralRegisterContext * InterruptContext) :=
  match r with
  | Ephemeral a => do x <- deref (ctxs k !! a); Done (cr3 x, greg x, int_ctx x)
  | Persistent a => let f := words (persistent k) in Done (f a, greg_at f (a + 8), int_at f (a + 128))
  end.

Section Switch.
(** [counter t]: what the [t]-th read of the main counter gives;
    [femtosecond_per_count_]: of the timer; [time_slice_count]: set at start;
    [mask]: the physical address mask; [x2apic]: the mode of the local APIC. *)
Context (counter : nat -> Z) (femtosecond_per_count_ time_slice_count mask : Z) (x2apic : bool).

Definition ReadMainCounterValue (k : kernel) : Z * kernel :=
  (counter (reads k), Kernel (sc k) (ctxs k) (persistent k) (cr3_reg k) (S (reads k)) (eois k)).
Definition NotifyContextSaving (p : nat) (k : kernel) : res kernel :=
  do pr <- get (sc k) p;
  do k <- on_process p (count_switch (copied_bytes_in_ctx_sw_ pr) (num_of_clflush_issued_in_ctx_sw_ pr)) k;
  do b <- IsPersistent pr;
  if negb b then Done k
  else
    do i <- deref (pp_info_ pr);
    do '((copied, clflush), k) <- run_pm (Context.SwitchContext mask i (copied_bytes_in_ctx_sw_ pr) (num_of_clflush_issued_in_ctx_sw_ pr)) k;
    on_process p (fun q => MkProcess (id_ q) (name_ q) (status_ q) (scheduler_index_ q) (ctx_ q) (pp_info_ q) (number_of_ctx_switch_ q)
      (proc_time_femto_sec_ q) (sys_time_femto_sec_ q) copied clflush (time_consumed_in_ctx_save_femto_sec_ q) (stdin_buffer_ q)) k.
Definition EnsureAddrIs16ByteAligned (addr : Z) : res unit := if Z.land addr 0xF =? 0 then Done tt else Stop Panic.
(** A static variable that is never assigned. *)
Definition proc_last_time_count : Z := 0.
Definition SwitchContext (info : InterruptInfo) (from_proc to_proc : nat) (k : kernel) : res (InterruptInfo * kernel) :=
  let '(now_count, k) := ReadMainCounterValue k in
  if u64 (proc_last_time_count - now_count) <? time_slice_count then Done (info, k)
  else
    let '(t, k) := ReadMainCounterValue k in
    do k <- on_process from_proc (AddProcTimeFemtoSec (u64 ((t - proc_last_time_count) * femtosecond_per_count_))) k;
    do '(from, k) <- GetExecutionContext from_proc k;
    let '(t0, k) := ReadMainCounterValue k in
    run EnsureAddrIs16ByteAligned (info_addr info);
    do k <- save_context from (cr3_reg k) (info_greg info) (info_int info) k;
    do k <- NotifyContextSaving from_proc k;
    let '(t1, k) := ReadMainCounterValue k in
    do k <- on_process from_proc (AddTimeConsumedInContextSavingFemtoSec (u64 ((t1 - t0) * femtosecond_per_count_))) k;
    do '(to, k) <- GetExecutionContext to_proc k;
    do '(to_cr3, g, i) <- load_context to k;
    do '(from_cr3, _, _) <- load_context from k;
    let info := Info (info_fpu info) g (error_code info) i (info_addr info) in
    if from_cr3 =? to_cr3 then Done (info, k) else Done (info, WriteCR3 to_cr3 k).
Definition SleepHandler (info : InterruptInfo) (k : kernel) : res (InterruptInfo * kernel) :=
  let proc := GetCurrentProcess (sc k) in
  do '(next_proc, s) <- SwitchProcess (sc k);
  match next_proc with
  | None => Done (info, set_sc s k)
  | Some next => SwitchContext info proc next (set_sc s k)
  end.
Definition TimerHandler (info : InterruptInfo) (k : kernel) : res (InterruptInfo * kernel) :=
  SleepHandler info (Kernel (sc k) (ctxs k) (persistent k) (cr3_reg k) (reads k) (SendEndOfInterrupt x2apic :: eois k)).

(** *** The processor *)

(** The registers of the running process. *)
Record cpu := Cpu { live_greg : GeneralRegisterContext; live_int : InterruptContext; live_fpu : list Z }.
Record machine := Machine { proc : cpu; kern : kernel }.
(** The entry saves the registers in a frame at [addr], the handler runs, and the
    return loads the frame: [IntHandlerWrapper], [RestoreRegistersAndIRETQ]. *)
Definition interrupted (handler : InterruptInfo -> kernel -> res (InterruptInfo * kernel)) (err addr : Z) (m : machine) : res machine :=
  let c := proc m in
  do '(info, k) <- handler (Info (live_fpu c) (live_greg c) err (live_int c) addr) (kern m);
  Done (Machine (Cpu (info_greg info) (info_int info) (info_fpu info)) k).

(** *** New tasks of the kernel *)

Definition kNumOfTaskStackPages : Z := 64.
(** [stack], [ctx]: what the heap allocator gives for the stack and the context;
    [p]: the [Process] object, fresh as well; [garbage]: what is in the memory of
    the new context and process. *)
Definition CreateAndLaunchKernelTask (entry_point stack ctx : Z) (p : nat) (name garbage : Z) (stdin : list Z) (garbage_greg : GeneralRegisterContext)
  (garbage_fpu : list Z) (last_id : Z) (k : kernel) : res (Z * kernel) :=
  let sub_context_rsp := u64 (stack + Z.shiftl kNumOfTaskStackPages kPageSizeExponent - 8) in
  let c := CpuCtx (cr3_reg k) garbage_greg
    (IntCtx entry_point Gdt.kKernelCSSelector (Z.lor (Z.shiftl 1 9) 2) sub_context_rsp Gdt.kKernelDSSelector) garbage_fpu in
  let k := set_ctxs (<[ctx := c]> (ctxs k)) k in
  let '(p, pc) := Create p name garbage stdin (ProcCtrl last_id (procs (sc k))) in
  do pr <- deref (pc_procs pc !! p);
  do pr <- InitAsEphemeralProcess ctx pr;
  do s <- RegisterProcess p (set_procs (sc k) (<[p := pr]> (pc_procs pc)));
  Done (last_id_ pc, set_sc s k).
End Switch.
