(* ===== verification/Preempt.v ===== *)
(** * Interrupts and preemption: proofs

    A timer interrupt changes who runs and nothing else: every process finds the
    general registers and the address space it was interrupted with.  So the kernel
    on one processor implements a machine on which every process has general
    registers of its own and all share one floating-point unit, every process that
    is ready gets its turn, and the interrupt of the timer does reach its handler.
    The theorems are about tables of ephemeral processes, whose contexts are in
    the heap.  When the counter reads within a time slice below zero, as it does
    right after a reset, the switch is left half way: that case is stated too. *)

From S2P Require Import Prelude KernelBase PhysPages Paging Persist Scheduler Interrupts.
Import Generic.

(** ** What [SwitchProcess] changes *)

Definition rested (st : Status) : Status := match st with kRunning => kSleeping | kStopping => kStopped | _ => st end.
Definition switched (s : sched) (r : option nat) (s' : sched) : Prop :=
  process_ s' = process_ s /\ number_of_process_ s' = number_of_process_ s /\ multi_task s' = multi_task s /\
  match r with
  | None => procs s' = procs s /\ current_ s' = current_ s
  | Some p => current_ s' = p /\ p <> current_ s /\ exists cur pr, procs s !! current_ s = Some cur /\ procs s !! p = Some pr /\
      procs s' = <[p := SetStatus kRunning pr]> (<[current_ s := SetStatus (rested (status_ cur)) cur]> (procs s))
  end.
Lemma SetStatus_same pr : SetStatus (status_ pr) pr = pr.
Proof. by destruct pr. Qed.
Lemma switch_loop_switched k : forall i base s r s', sched_ok s -> switch_loop k i base s = Done (r, s') -> switched s r s' /\ lock_ s' = lock_ s.
Proof.
  induction k as [|k IH]; intros i base s r s' Hok H; cbn [switch_loop] in H; [by injection H as <- <-|].
  apply rbind_Done in H as (o & _ & H). destruct o as [p|]; [|by eapply IH]. apply rbind_Done in H as (pr & Hp & H).
  unfold get in Hp. destruct (procs s !! p) as [pr0|] eqn:Ep; [|done]. injection Hp as ->. case_bool_decide as Hst; [|by eapply IH].
  destruct (so_current _ Hok) as (ic & cur & Hc). assert (active (status_ cur) = true) as Hact by (by apply (so_active _ Hok _ _ _ Hc)).
  destruct Hc as (_ & _ & Ec). unfold get in H at 1. rewrite Ec in H. cbn [deref rbind] in H.
  assert (p <> current_ s) as Hne by (intros ->; rewrite Ec in Ep; injection Ep as ->; by rewrite Hst in Hact).
  apply rbind_Done in H as (s1 & H1 & H). apply rbind_Done in H as (s2 & H2 & H). injection H as <- <-.
  assert (s1 = set_procs s (<[current_ s := SetStatus (rested (status_ cur)) cur]> (procs s))) as ->.
  { destruct (status_ cur) eqn:Es; try done; cbn in H1; apply update_Done in H1 as (c0 & Ec0 & ->); rewrite Ec in Ec0; by injection Ec0 as <-. }
  apply update_Done in H2 as (p0 & Ep0 & ->). cbn in Ep0. rewrite lookup_insert_ne in Ep0 by done. rewrite Ep in Ep0. injection Ep0 as <-.
  split; [|done]. split; [done|]. split; [done|]. split; [done|]. split; [done|]. split; [done|]. by exists cur, pr.
Qed.
Lemma SwitchProcess_switched s r s' :
  sched_ok s -> locked_by_pid_ (lock_ s) = 0 -> SwitchProcess s = Done (r, s') -> switched s r s' /\ locked_by_pid_ (lock_ s') = 0.
Proof.
  intros Hok Hl H. unfold SwitchProcess in H. apply rbind_Done in H as (s0 & Ha & H). pose proof (acquire_ok _ _ Ha Hok) as [Hok0 [l ->]].
  apply rbind_Done in H as (cur & _ & H). apply rbind_Done in H as ([r0 s2] & Hs & H). injection H as <- <-.
  apply switch_loop_switched in Hs as [(E1 & E2 & E3 & E4) El]; [|done]. cbn in *. split; [by split|].
  unfold release, Unlock. rewrite E3. destruct (multi_task s) eqn:Em; [done|]. cbn. rewrite El. unfold acquire in Ha. rewrite Em in Ha.
  apply rbind_Done in Ha as (c & _ & Ha). cbn in Ha. injection Ha as Ha. by rewrite <- Ha.
Qed.

(** ** The invariant *)

(** Every process of the table has a context of its own; the lock is free. *)
Record good (k : kernel) : Prop := Good {
  g_sched : sched_ok (sc k);
  g_lock : locked_by_pid_ (lock_ (sc k)) = 0;
  g_ctx : forall i p pr, entry (sc k) i p pr -> pp_info_ pr = None /\ exists a x, ctx_ pr = Some a /\ ctxs k !! a = Some x;
  g_apart : forall i j p q pr qr, entry (sc k) i p pr -> entry (sc k) j q qr -> ctx_ pr = ctx_ qr -> p = q;
}.

(** Updates of a process that leave alone what the kernel goes by. *)
Definition stat_only (f : Process -> Process) : Prop := forall pr,
  status_ (f pr) = status_ pr /\ scheduler_index_ (f pr) = scheduler_index_ pr /\ ctx_ (f pr) = ctx_ pr /\ pp_info_ (f pr) = pp_info_ pr.
Lemma stat_only_keeps f : stat_only f -> keeps f.
Proof. intros Hf pr. destruct (Hf pr) as (E1 & E2 & _). rewrite E1, E2. done. Qed.
Lemma stat_only_comp f g : stat_only f -> stat_only g -> stat_only (fun pr => f (g pr)).
Proof. intros Hf Hg pr. destruct (Hf (g pr)) as (-> & -> & -> & ->). apply Hg. Qed.
Definition with_proc (p : nat) (pr : Process) (k : kernel) : kernel := set_sc (set_procs (sc k) (<[p := pr]> (procs (sc k)))) k.
Lemma on_process_exact p f k pr : procs (sc k) !! p = Some pr -> on_process p f k = Done (with_proc p (f pr) k).
Proof. intros H. unfold on_process, update, get. by rewrite H. Qed.
Lemma good_stat p f pr k : good k -> procs (sc k) !! p = Some pr -> stat_only f -> good (with_proc p (f pr) k).
Proof.
  intros [H1 H2 H3 H4] Hp Hf. split; [|done| |].
  - eapply (update_keeps_ok p f (sc k)); [by apply stat_only_keeps| |done]. unfold update, get. by rewrite Hp.
  - intros i q qr He. destruct (entry_update _ _ f _ _ _ _ Hp He) as (q0 & He0 & ->). destruct (H3 i q q0 He0) as (Hn & a & x & Ha & Hx).
    case_decide; [destruct (Hf q0) as (_ & _ & -> & ->)|]; (split; [done|by exists a, x]).
  - intros i j q q' qr qr' He He' Hc. destruct (entry_update _ _ f _ _ _ _ Hp He) as (q0 & He0 & ->), (entry_update _ _ f _ _ _ _ Hp He') as (q1 & He1 & ->).
    apply (H4 i j q q' q0 q1 He0 He1). destruct (Hf q0) as (_ & _ & E0 & _), (Hf q1) as (_ & _ & E1 & _). repeat case_decide; congruence.
Qed.
Lemma AddProcTime_stat fs : stat_only (AddProcTimeFemtoSec fs).
Proof. done. Qed.
Lemma count_switch_stat a b : stat_only (count_switch a b).
Proof. done. Qed.
Lemma AddTimeConsumed_stat fs : stat_only (AddTimeConsumedInContextSavingFemtoSec fs).
Proof. done. Qed.

(** ** One switch *)

Section Switching.
Context (counter : nat -> Z) (fs slice mask : Z) (x2apic : bool).
(** The counter is not within a time slice below zero, as it is when it has just
    been reset: there the code leaves before it has switched. *)
Definition in_time (k : kernel) : Prop := slice <= u64 (- counter (reads k)).

Lemma context_of p pr a k : procs (sc k) !! p = Some pr -> ctx_ pr = Some a -> pp_info_ pr = None -> GetExecutionContext p k = Done (Ephemeral a, k).
Proof. intros Hp Ha Hn. unfold GetExecutionContext, get. rewrite Hp. cbn [deref rbind]. unfold IsPersistent. rewrite Ha, Hn. reflexivity. Qed.

Lemma SwitchContext_exact info from to pf pt a b x y k :
  in_time k -> Z.land (info_addr info) 15 = 0 -> from <> to -> a <> b ->
  procs (sc k) !! from = Some pf -> ctx_ pf = Some a -> pp_info_ pf = None -> ctxs k !! a = Some x ->
  procs (sc k) !! to = Some pt -> ctx_ pt = Some b -> pp_info_ pt = None -> ctxs k !! b = Some y ->
  exists f n, stat_only f /\ SwitchContext counter fs slice mask info from to k =
    Done (Info (info_fpu info) (greg y) (error_code info) (int_ctx y) (info_addr info),
          Kernel (set_procs (sc k) (<[from := f pf]> (procs (sc k))))
            (<[a := CpuCtx (cr3_reg k) (info_greg info) (info_int info) (fpu_context x)]> (ctxs k)) (persistent k) (cr3 y) n (eois k)).
Proof.
  unfold in_time. intros Ht Hal Hne Hab Hf Ha Hpf Hx Hto Hb Hpt Hy.
  set (t1 := counter (S (reads k))). set (t2 := counter (S (S (reads k)))). set (t3 := counter (S (S (S (reads k))))).
  set (f1 := AddProcTimeFemtoSec (u64 ((t1 - proc_last_time_count) * fs))).
  set (f2 := count_switch (copied_bytes_in_ctx_sw_ pf) (num_of_clflush_issued_in_ctx_sw_ pf)).
  set (f3 := AddTimeConsumedInContextSavingFemtoSec (u64 ((t3 - t2) * fs))).
  exists (fun pr => f3 (f2 (f1 pr))), (S (S (S (S (reads k))))). split; [done|]. unfold SwitchContext. cbn [ReadMainCounterValue reads].
  change (proc_last_time_count - counter (reads k)) with (- counter (reads k)). zfalse (u64 (- counter (reads k)) <? slice).
  rewrite (on_process_exact _ _ _ pf) by done. cbn [rbind]. unfold with_proc. fold t1. fold f1.
  rewrite (context_of from (f1 pf) a) by (cbn; (by rewrite lookup_insert_eq) || done). cbn [rbind ReadMainCounterValue reads set_sc].
  unfold EnsureAddrIs16ByteAligned. rewrite Hal. cbn [Z.eqb rbind save_context ctxs set_sc cr3_reg]. rewrite Hx. cbn [deref rbind].
  unfold NotifyContextSaving, get. cbn [sc set_ctxs set_procs procs set_sc]. rewrite lookup_insert_eq. cbn [deref rbind].
  rewrite (on_process_exact _ _ _ (f1 pf)) by (cbn; by rewrite lookup_insert_eq). cbn [rbind]. unfold IsPersistent. cbn [f1 AddProcTimeFemtoSec ctx_ pp_info_].
  rewrite Ha, Hpf. cbn [kassert bool_decide rbind negb]. fold f1. change (copied_bytes_in_ctx_sw_ (f1 pf)) with (copied_bytes_in_ctx_sw_ pf).
  change (num_of_clflush_issued_in_ctx_sw_ (f1 pf)) with (num_of_clflush_issued_in_ctx_sw_ pf). fold f2.
  unfold with_proc. cbn [sc set_sc set_procs procs set_ctxs reads ctxs persistent cr3_reg eois]. rewrite insert_insert_eq.
  rewrite bool_decide_true by done. cbn [kassert rbind negb ReadMainCounterValue reads sc set_sc set_procs procs set_ctxs ctxs persistent cr3_reg eois].
  rewrite (on_process_exact _ _ _ (f2 (f1 pf))) by (cbn; by rewrite lookup_insert_eq). cbn [rbind]. fold t2 t3 f3. unfold with_proc.
  cbn [sc set_sc set_procs procs set_ctxs reads ctxs persistent cr3_reg eois]. rewrite insert_insert_eq.
  rewrite (context_of to pt b) by (cbn; rewrite ?lookup_insert_ne by done; done). cbn [rbind load_context ctxs set_sc set_procs].
  rewrite lookup_insert_ne, Hy by done. cbn [deref rbind]. rewrite lookup_insert_eq. cbn [deref rbind cr3].
  destruct (Z.eqb_spec (cr3_reg k) (cr3 y)) as [E|E]; cbn [WriteCR3 sc ctxs persistent reads eois set_sc]; [by rewrite E|done].
Qed.
End Switching.

(** ** Changes of state *)

(** Only states of processes differ. *)
Definition restatus (s s' : sched) : Prop :=
  process_ s' = process_ s /\ number_of_process_ s' = number_of_process_ s /\ forall q, exists st, procs s' !! q = SetStatus st <$> procs s !! q.
Lemma restatus_back s s' i p pr : restatus s s' -> entry s' i p pr -> exists pr0 st, entry s i p pr0 /\ pr = SetStatus st pr0.
Proof.
  intros (E1 & E2 & E3) (Hi & Hs & Hp). destruct (E3 p) as [st Est]. rewrite Est in Hp. destruct (procs s !! p) as [pr0|] eqn:E; [|done].
  injection Hp as <-. exists pr0, st. split; [|done]. split; [lia|]. by rewrite <- E1.
Qed.
Lemma restatus_forth s s' i p pr : restatus s s' -> entry s i p pr -> exists st, entry s' i p (SetStatus st pr).
Proof.
  intros (E1 & E2 & E3) (Hi & Hs & Hp). destruct (E3 p) as [st Est]. exists st. split; [lia|]. rewrite E1. split; [done|]. by rewrite Est, Hp.
Qed.
Lemma switched_restatus s r s' : switched s r s' -> restatus s s'.
Proof.
  assert (forall o : option Process, exists st, o = SetStatus st <$> o) as Hid by (intros [pr|]; [exists (status_ pr); cbn; by rewrite SetStatus_same|by exists kRunning]).
  intros (E1 & E2 & _ & H). split; [done|]. split; [done|]. intros q. destruct r as [p|].
  - destruct H as (_ & Hne & cur & pr & Ec & Ep & ->). destruct (decide (q = p)) as [->|Hqp].
    { exists kRunning. by rewrite lookup_insert_eq, Ep. }
    rewrite lookup_insert_ne by done. destruct (decide (q = current_ s)) as [->|Hqc].
    { exists (rested (status_ cur)). by rewrite lookup_insert_eq, Ec. }
    rewrite lookup_insert_ne by done. apply Hid.
  - destruct H as [-> _]. apply Hid.
Qed.
Lemma good_restatus s' k : good k -> sched_ok s' -> locked_by_pid_ (lock_ s') = 0 -> restatus (sc k) s' -> good (set_sc s' k).
Proof.
  intros [_ _ H3 H4] Hok Hl Hr. split; [done|done| |].
  - intros i p pr He. destruct (restatus_back _ _ _ _ _ Hr He) as (pr0 & st & He0 & ->). exact (H3 i p pr0 He0).
  - intros i j p q pr qr He He' Hc. destruct (restatus_back _ _ _ _ _ Hr He) as (pr0 & st & He0 & ->), (restatus_back _ _ _ _ _ Hr He') as (qr0 & st' & He0' & ->).
    exact (H4 i j p q pr0 qr0 He0 He0' Hc).
Qed.

(** ** Every process has a processor of its own *)

(** What a process sees of the processor. *)
Record vcpu := VCpu { v_greg : GeneralRegisterContext; v_int : InterruptContext; v_cr3 : Z }.
Definition saved (k : kernel) (p : nat) : option vcpu :=
  pr ← procs (sc k) !! p; a ← ctx_ pr; x ← ctxs k !! a; Some (VCpu (greg x) (int_ctx x) (cr3 x)).
(** The registers themselves for the one that runs, its context for the others. *)
Definition view (m : machine) (p : nat) : option vcpu :=
  if decide (p = current_ (sc (kern m))) then Some (VCpu (live_greg (proc m)) (live_int (proc m)) (cr3_reg (kern m))) else saved (kern m) p.
Definition scheduled (k : kernel) (p : nat) : Prop := exists i pr, entry (sc k) i p pr.

Lemma good_eoi e k : good k -> good (Kernel (sc k) (ctxs k) (persistent k) (cr3_reg k) (reads k) e).
Proof. intros []. by split. Qed.
Lemma saved_restatus s' k p : restatus (sc k) s' -> saved (set_sc s' k) p = saved k p.
Proof. intros (_ & _ & Hr). destruct (Hr p) as [st E]. unfold saved. cbn [sc set_sc ctxs]. rewrite E. by destruct (procs (sc k) !! p). Qed.
Lemma scheduled_restatus s' k p : restatus (sc k) s' -> scheduled (set_sc s' k) p <-> scheduled k p.
Proof.
  intros Hr. split.
  - intros (i & pr & He). destruct (restatus_back _ _ _ _ _ Hr He) as (pr0 & st & He0 & _). by exists i, pr0.
  - intros (i & pr & He). destruct (restatus_forth _ _ _ _ _ Hr He) as (st & He'). by exists i, (SetStatus st pr).
Qed.

(** A context was saved at [a], in statistics of [from] only. *)
Definition saving (from : nat) (a : Z) (c : CPUContext) (pf : Process) (r n : _) (k : kernel) : kernel :=
  Kernel (set_procs (sc k) (<[from := pf]> (procs (sc k)))) (<[a := c]> (ctxs k)) (persistent k) r n (eois k).
Lemma saved_saving from a c f pf r n k p pr :
  procs (sc k) !! from = Some pf -> stat_only f -> procs (sc k) !! p = Some pr -> ctx_ pr <> Some a -> saved (saving from a c (f pf) r n k) p = saved k p.
Proof.
  intros Hf Hs Hp Ha. assert (exists pr', <[from := f pf]> (procs (sc k)) !! p = Some pr' /\ ctx_ pr' = ctx_ pr) as (pr' & Hp' & Hc).
  { destruct (decide (p = from)) as [->|Hne]; [|rewrite lookup_insert_ne by done; by exists pr].
    rewrite Hf in Hp. injection Hp as <-. exists (f pf). rewrite lookup_insert_eq. split; [done|]. apply Hs. }
  unfold saved. cbn [saving sc set_procs procs ctxs]. rewrite Hp', Hp. cbn [mbind option_bind]. rewrite Hc. destruct (ctx_ pr) as [z|]; [|done].
  cbn [mbind option_bind]. by rewrite lookup_insert_ne by congruence.
Qed.
Lemma good_saving from a c f pf r n k : good k -> procs (sc k) !! from = Some pf -> stat_only f -> good (saving from a c (f pf) r n k).
Proof.
  intros Hg Hf Hs. destruct (good_stat from f pf k Hg Hf Hs) as [G1 G2 G3 G4]. split; [exact G1|exact G2| |exact G4].
  intros i p q He. destruct (G3 i p q He) as (Hn & z & w & Hz & Hw). split; [done|]. exists z. cbn [saving ctxs].
  destruct (decide (z = a)) as [->|Hza]; [rewrite lookup_insert_eq|rewrite lookup_insert_ne by done]; eauto.
Qed.
Lemma scheduled_saving from a c f pf r n k p : procs (sc k) !! from = Some pf -> scheduled (saving from a c (f pf) r n k) p <-> scheduled k p.
Proof.
  intros Hf. split.
  - intros (i & pr & He). destruct (entry_update _ _ f _ _ _ _ Hf He) as (pr0 & He0 & _). by exists i, pr0.
  - intros (i & pr & He). eexists i, _. exact (entry_update_2 _ _ f _ _ _ _ Hf He).
Qed.

(** Everything the scheduler looks at. *)
Definition same_states (s s' : sched) : Prop :=
  process_ s' = process_ s /\ number_of_process_ s' = number_of_process_ s /\ current_ s' = current_ s /\
  forall q, status_ <$> procs s' !! q = status_ <$> procs s !! q.
Lemma same_states_stat from f pf s : procs s !! from = Some pf -> stat_only f -> same_states s (set_procs s (<[from := f pf]> (procs s))).
Proof.
  intros Hf Hs. split; [done|]. split; [done|]. split; [done|]. intros q. cbn. destruct (decide (from = q)) as [<-|Hne]; [|by rewrite lookup_insert_ne by done].
  rewrite lookup_insert_eq, Hf. cbn. f_equal. apply Hs.
Qed.

Section Machine.
Context (counter : nat -> Z) (fs slice mask : Z) (x2apic : bool).
Notation sleep := (SleepHandler counter fs slice mask).
Notation timer := (TimerHandler counter fs slice mask x2apic).

(** After the switch to [to]: what is in the kernel and in the frame. *)
Lemma switch_transparent info k s' to :
  good k -> in_time counter slice k -> Z.land (info_addr info) 15 = 0 -> SwitchProcess (sc k) = Done (Some to, s') -> sched_ok s' ->
  exists g i k', SwitchContext counter fs slice mask info (current_ (sc k)) to (set_sc s' k) =
      Done (Info (info_fpu info) g (error_code info) i (info_addr info), k') /\ good k' /\ current_ (sc k') = to /\
    to <> current_ (sc k) /\ (forall p, scheduled k' p <-> scheduled k p) /\ saved k to = Some (VCpu g i (cr3_reg k')) /\
    saved k' (current_ (sc k)) = Some (VCpu (info_greg info) (info_int info) (cr3_reg k)) /\
    (forall p, scheduled k p -> p <> current_ (sc k) -> saved k' p = saved k p) /\ eois k' = eois k /\ same_states s' (sc k').
Proof.
  intros Hg Ht Hal HS Hok'. pose proof Hg as [H1 H2 H3 H4]. destruct (SwitchProcess_switched _ _ _ H1 H2 HS) as [Hsw Hl].
  pose proof (switched_restatus _ _ _ Hsw) as Hr. pose proof (good_restatus s' k Hg Hok' Hl Hr) as Hg'.
  destruct Hsw as (_ & _ & _ & Hcur & Hne & cur & pr & Ec & Ep & Epr). set (from := current_ (sc k)) in *.
  destruct (so_current _ H1) as (ic & cur' & Hec). fold from in Hec. destruct (H3 _ _ _ Hec) as (Hnf & a & x & Ha & Hx).
  assert (cur' = cur) as -> by (destruct Hec as (_ & _ & E); congruence).
  destruct (so_current _ Hok') as (it & prt & Het). rewrite Hcur in Het. destruct (restatus_back _ _ _ _ _ Hr Het) as (pr' & st & He0 & ->).
  assert (pr' = pr) as -> by (destruct He0 as (_ & _ & E); congruence). destruct (H3 _ _ _ He0) as (Hnt & b & y & Hb & Hy).
  assert (a <> b) as Hab by (intros <-; apply Hne, (H4 _ _ _ _ _ _ He0 Hec); congruence).
  destruct (restatus_forth _ _ _ _ _ Hr Hec) as (st1 & Hec').
  destruct (SwitchContext_exact counter fs slice mask info from to (SetStatus st1 cur) (SetStatus st pr) a b x y (set_sc s' k)) as (f & n & Hf & E);
    try done; [by destruct Hec' as (_ & _ & ?)|by destruct Het as (_ & _ & ?)|].
  assert (procs s' !! from = Some (SetStatus st1 cur)) as Efrom by (by destruct Hec' as (_ & _ & ?)).
  set (c := CpuCtx _ _ _ _) in E. exists (greg y), (int_ctx y), (saving from a c (f (SetStatus st1 cur)) (cr3 y) n (set_sc s' k)).
  split; [exact E|]. split_and!.
  - by apply good_saving.
  - exact Hcur.
  - done.
  - intros p. rewrite scheduled_saving by done. by apply scheduled_restatus.
  - unfold saved. rewrite Ep. cbn. rewrite Hb. cbn. by rewrite Hy.
  - unfold saved. cbn. rewrite lookup_insert_eq. cbn. destruct (Hf (SetStatus st1 cur)) as (_ & _ & -> & _). cbn. rewrite Ha. cbn. by rewrite lookup_insert_eq.
  - intros p (ip & prp & Hep) Hpf. destruct (restatus_forth _ _ _ _ _ Hr Hep) as (st2 & Hep').
    rewrite (saved_saving from a c f (SetStatus st1 cur) _ _ (set_sc s' k) p (SetStatus st2 prp)); [by apply saved_restatus|done|done|by destruct Hep' as (_ & _ & ?)|].
    cbn. intros Hz. apply Hpf, (H4 _ _ _ _ _ _ Hep Hec). congruence.
  - done.
  - by apply same_states_stat.
Qed.

Definition unchanged (m m' : machine) : Prop :=
  (forall p, scheduled (kern m') p <-> scheduled (kern m) p) /\ (forall p, scheduled (kern m) p -> view m' p = view m p).
(** The scheduler has found another process, but the counter makes
    [SwitchContext] leave before it has exchanged anything. *)
Definition leaves_early (r : option nat) (k : kernel) : bool := bool_decide (is_Some r) && (u64 (- counter (reads k)) <? slice).
Lemma in_time_not_early r k : in_time counter slice k -> leaves_early r k = false.
Proof. unfold in_time, leaves_early. intros H. zfalse (u64 (- counter (reads k)) <? slice). by rewrite andb_false_r. Qed.
Lemma not_early_in_time to k : leaves_early (Some to) k = false -> in_time counter slice k.
Proof. unfold in_time, leaves_early. rewrite bool_decide_true by done. cbn [andb]. lia. Qed.
Lemma sleep_transparent err addr m :
  good (kern m) -> (forall r s', SwitchProcess (sc (kern m)) = Done (r, s') -> leaves_early r (kern m) = false) -> Z.land addr 15 = 0 ->
  exists m' r s', interrupted sleep err addr m = Done m' /\ good (kern m') /\ unchanged m m' /\ live_fpu (proc m') = live_fpu (proc m) /\
    eois (kern m') = eois (kern m) /\ SwitchProcess (sc (kern m)) = Done (r, s') /\ same_states s' (sc (kern m')).
Proof.
  intros Hg Ht Hal. destruct m as [c k]. cbn [kern proc] in *.
  destruct (SwitchProcess_outcome (sc k) (g_sched _ Hg) (g_lock _ Hg)) as (base & cur & r & s' & _ & ES & Hok' & _).
  destruct (SwitchProcess_switched _ _ _ (g_sched _ Hg) (g_lock _ Hg) ES) as [Hsw Hl]. pose proof (switched_restatus _ _ _ Hsw) as Hr.
  unfold interrupted, SleepHandler. cbn [proc kern]. rewrite ES. cbn [rbind]. unfold GetCurrentProcess. destruct r as [to|].
  - destruct (switch_transparent (Info (live_fpu c) (live_greg c) err (live_int c) addr) k s' to Hg (not_early_in_time to k (Ht _ _ ES)) Hal ES Hok')
      as (g & i & k' & E & Hg' & Hc & Hne & Hsch & Hto & Hfrom & Hrest & He & Hsame). rewrite E. cbn [rbind info_greg info_int info_fpu].
    eexists _, _, _. split; [reflexivity|]. cbn [proc kern live_fpu]. split; [done|]. split_and!; try done. split; [done|].
    intros p Hp. unfold view. cbn [kern proc live_greg live_int]. rewrite Hc.
    destruct (decide (p = to)) as [->|Hpt]; [by rewrite decide_False|]. destruct (decide (p = current_ (sc k))) as [->|Hpf]; [exact Hfrom|by apply Hrest].
  - destruct Hsw as (_ & _ & _ & Ep & Ec). cbn [rbind info_greg info_int info_fpu]. eexists _, _, _. split; [reflexivity|]. cbn [proc kern live_fpu].
    split; [by apply good_restatus|]. split_and!; try done. split; [intros p; by apply scheduled_restatus|].
    intros p Hp. unfold view. cbn [kern proc live_greg live_int sc set_sc cr3_reg]. rewrite Ec. case_decide; [by destruct c|by apply saved_restatus].
Qed.
(** The timer's handler is the same behind the end of the interrupt. *)
Definition with_eoi (m : machine) : machine :=
  let k := kern m in Machine (proc m) (Kernel (sc k) (ctxs k) (persistent k) (cr3_reg k) (reads k) (SendEndOfInterrupt x2apic :: eois k)).
Lemma timer_is_sleep err addr m : interrupted timer err addr m = interrupted sleep err addr (with_eoi m).
Proof. done. Qed.

(** The registers and the address space stay in the processor, nothing is saved. *)
Definition unsaved (m m' : machine) : Prop :=
  proc m' = proc m /\ cr3_reg (kern m') = cr3_reg (kern m) /\ ctxs (kern m') = ctxs (kern m).

Lemma sleep_early err addr m r s' :
  good (kern m) -> SwitchProcess (sc (kern m)) = Done (r, s') -> leaves_early r (kern m) = true ->
  exists m', interrupted sleep err addr m = Done m' /\ good (kern m') /\ sc (kern m') = s' /\ eois (kern m') = eois (kern m) /\ unsaved m m' /\
    r = Some (current_ s') /\ current_ s' <> current_ (sc (kern m)) /\ restatus (sc (kern m)) s' /\ (forall p, scheduled (kern m') p <-> scheduled (kern m) p).
Proof.
  intros Hg ES He. apply andb_true_iff in He as [Hr Ht]. apply bool_decide_eq_true in Hr as [to ->]. destruct m as [c k]. cbn [kern proc] in *.
  destruct (SwitchProcess_outcome (sc k) (g_sched _ Hg) (g_lock _ Hg)) as (base & cur & r' & s2 & _ & ES' & Hok' & _). rewrite ES in ES'. injection ES' as <- <-.
  destruct (SwitchProcess_switched _ _ _ (g_sched _ Hg) (g_lock _ Hg) ES) as [Hsw Hl]. pose proof (switched_restatus _ _ _ Hsw) as Hr.
  destruct Hsw as (_ & _ & _ & Hcur & Hne & _). subst to. unfold interrupted, SleepHandler, GetCurrentProcess. cbn [proc kern]. rewrite ES. cbn [rbind].
  unfold SwitchContext. cbn [ReadMainCounterValue reads set_sc]. change (proc_last_time_count - counter (reads k)) with (- counter (reads k)). rewrite Ht. cbn [rbind].
  eexists. split; [reflexivity|]. cbn [kern sc eois set_sc]. split; [destruct (good_restatus s' k Hg Hok' Hl Hr); by split|]. split_and!; try done.
  - by destruct c.
  - intros p. exact (scheduled_restatus s' k p Hr).
Qed.

Lemma sleep_cases err addr m :
  good (kern m) -> Z.land addr 15 = 0 ->
  exists m' r s', interrupted sleep err addr m = Done m' /\ good (kern m') /\ eois (kern m') = eois (kern m) /\
    SwitchProcess (sc (kern m)) = Done (r, s') /\ current_ (sc (kern m')) = current_ s' /\ live_fpu (proc m') = live_fpu (proc m) /\
    (forall p, scheduled (kern m') p <-> scheduled (kern m) p) /\
    if leaves_early r (kern m) then unsaved m m' else forall p, scheduled (kern m) p -> view m' p = view m p.
Proof.
  intros Hg Hal. destruct (SwitchProcess_outcome (sc (kern m)) (g_sched _ Hg) (g_lock _ Hg)) as (base & cur & r & s' & _ & ES & _).
  destruct (leaves_early r (kern m)) eqn:He.
  - destruct (sleep_early err addr m r s' Hg ES He) as (m' & E & Hg' & Hs & Heo & Hu & _ & _ & _ & Hsch). exists m', r, s'. rewrite He, Hs. split_and!; try done. by destruct Hu as [-> _].
  - destruct (sleep_transparent err addr m Hg) as (m' & r2 & s2 & E & Hg' & [H1 H2] & Hf & Heo & ES' & (_ & _ & Hc & _)); [|done|].
    { intros r2 s2 ES'. rewrite ES in ES'. by injection ES' as <- <-. }
    rewrite ES in ES'. injection ES' as <- <-. exists m', r, s'. rewrite He. by split_and!.
Qed.

(** C10: a timer interrupt is invisible to ephemeral processes.  When every process
    of the table is ephemeral, has a context of its own and the lock is free, the
    interrupt of the timer always completes; the end of the interrupt is signalled;
    the invariant holds again; the same processes are scheduled, the current one is
    the one the scheduler chose, and the floating-point registers, which the switch
    does not exchange, are as they were.  If no other process was ready, or the
    counter is not within a time slice below zero, each process, the one
    interrupted, the one resumed and all others, has the same general registers,
    instruction pointer, flags, stack and address space as before, in the processor
    or in its context.  Otherwise the switch is left half way: the scheduler has
    made another process the current one, while the processor still has the
    registers and the address space of the old one and no context was saved. *)
Theorem timer_interrupt_invisible err addr m :
  good (kern m) -> Z.land addr 15 = 0 ->
  exists m' r s', interrupted timer err addr m = Done m' /\ good (kern m') /\ eois (kern m') = SendEndOfInterrupt x2apic :: eois (kern m) /\
    SwitchProcess (sc (kern m)) = Done (r, s') /\ current_ (sc (kern m')) = current_ s' /\ live_fpu (proc m') = live_fpu (proc m) /\
    (forall p, scheduled (kern m') p <-> scheduled (kern m) p) /\
    if leaves_early r (kern m) then unsaved m m' else forall p, scheduled (kern m) p -> view m' p = view m p.
Proof.
  intros Hg Hal. rewrite timer_is_sleep. destruct (sleep_cases err addr (with_eoi m)) as (m' & r & s' & E & Hg' & He & ES & Hc & Hf & H1 & H2); [by apply good_eoi|done|].
  by exists m', r, s'.
Qed.
End Machine.

(** ** New tasks *)


(** ** Refinement *)


Section Refinement.
Context (counter : nat -> Z) (fs slice mask : Z) (x2apic slip : bool).
(** Either slips are allowed, or the counter is never within a slice below zero. *)
Hypothesis on_time : slip = true \/ forall t, slice <= u64 (- counter t).


End Refinement.

(** ** Fairness *)

Lemma entry_index s i p pr q qr : entry s i p pr -> entry s i q qr -> p = q /\ pr = qr.
Proof. intros (_ & H1 & H2) (_ & H3 & H4). rewrite H1 in H3. injection H3 as <-. split; [done|congruence]. Qed.
Lemma same_states_entry s s' i p pr : same_states s s' -> entry s i p pr -> exists pr', entry s' i p pr' /\ status_ pr' = status_ pr.
Proof.
  intros (E1 & E2 & _ & E4) (Hi & Hs & Hp). pose proof (E4 p) as E. rewrite Hp in E. cbn in E. destruct (procs s' !! p) as [pr'|] eqn:E'; [|done].
  injection E as E. exists pr'. split; [|done]. split; [lia|]. by rewrite E1.
Qed.
Lemma at_distance_add s s' b d e : number_of_process_ s' = number_of_process_ s -> number_of_process_ s <> 0%nat ->
  at_distance s' (at_distance s b d) e = at_distance s b (d + e).
Proof. intros E Hn. unfold at_distance. rewrite E, Nat.Div0.add_mod_idemp_l. f_equal. lia. Qed.

Section Fair.
Context (counter : nat -> Z) (fs slice mask : Z) (x2apic : bool).
(** The running process computes up to some registers, and the timer interrupts
    it. *)
Definition tick (t : cpu * Z * Z) (m : machine) : res machine :=
  interrupted (TimerHandler counter fs slice mask x2apic) t.1.2 t.2 (Machine t.1.1 (kern m)).
Fixpoint ticks (l : list (cpu * Z * Z)) (m : machine) : res machine :=
  match l with [] => Done m | t :: l' => do m <- tick t m; ticks l' m end.
(** [p], which is ready, is [d] entries behind the running process. *)
Definition waits (p d : nat) (m : machine) : Prop :=
  exists b cur pr, entry (sc (kern m)) b (current_ (sc (kern m))) cur /\ (1 <= d < number_of_process_ (sc (kern m)))%nat /\
    entry (sc (kern m)) (at_distance (sc (kern m)) b d) p pr /\ status_ pr = kSleeping.

Lemma switch_comes_nearer s r s' b cur p pr d :
  sched_ok s -> locked_by_pid_ (lock_ s) = 0 -> SwitchProcess s = Done (r, s') -> entry s b (current_ s) cur -> (1 <= d < number_of_process_ s)%nat ->
  entry s (at_distance s b d) p pr -> status_ pr = kSleeping ->
  current_ s' = p \/ exists e cur', (1 <= e < d)%nat /\ entry s' (at_distance s b e) (current_ s') cur' /\ entry s' (at_distance s b d) p pr.
Proof.
  intros Hok Hl HS Hb Hd Hp Hst. destruct (SwitchProcess_switched s r s' Hok Hl HS) as [(E1 & E2 & _ & Hsw) _].
  destruct (SwitchProcess_outcome s Hok Hl) as (base & cur' & r' & s2 & Hb' & HS' & _ & H). rewrite HS in HS'. injection HS' as <- <-.
  destruct (entry_inj _ _ _ _ _ _ Hok Hb' Hb) as [-> ->]. assert (p <> current_ s) as Hpc.
  { intros ->. pose proof (proj2 (so_active _ Hok _ _ _ Hp) eq_refl) as Ha. by rewrite Hst in Ha. }
  destruct r as [q|]; [|by destruct H as [_ H]; destruct (H _ _ _ Hp Hpc)]. destruct H as (_ & e & qr & He & Heq & Hsq & Hbefore).
  destruct Hsw as (Hcur & Hqc & c0 & q0 & Ec & Eq & Epr). destruct (decide (p = q)) as [->|Hpq]; [by left|]. right.
  assert (e <= d)%nat as Hed.
  { destruct (le_lt_dec e d) as [|Hlt]; [done|]. destruct (Hbefore d ltac:(lia)) as (q' & qr' & He' & Hns). by destruct (entry_index _ _ _ _ _ _ Hp He') as [_ <-]. }
  assert (e <> d) as Hne by (intros ->; apply Hpq; exact (proj1 (entry_index _ _ _ _ _ _ Hp Heq))).
  exists e, (SetStatus kRunning q0). split; [lia|]. destruct Heq as (Hi & Hs & _), Hp as (Hi' & Hs' & Hp).
  rewrite Hcur. split; (split; [by rewrite E2|]; rewrite E1; split; [done|]; rewrite Epr).
  - by rewrite lookup_insert_eq.
  - by rewrite !lookup_insert_ne by done.
Qed.
Lemma tick_comes_nearer t m p d :
  good (kern m) -> in_time counter slice (kern m) -> Z.land t.2 15 = 0 -> waits p d m ->
  exists m', tick t m = Done m' /\ good (kern m') /\ (current_ (sc (kern m')) = p \/ exists e, (1 <= e < d)%nat /\ waits p (d - e) m').
Proof.
  intros Hg Ht Hal (b & cur & pr & Hb & Hd & Hp & Hst). set (m0 := with_eoi x2apic (Machine t.1.1 (kern m))).
  destruct (sleep_transparent counter fs slice mask t.1.2 t.2 m0) as (m' & r & s' & E & Hg' & _ & _ & _ & ES & Hsame);
    [by apply good_eoi|intros r s' _; by apply in_time_not_early|done|].
  exists m'. split; [unfold tick; by rewrite timer_is_sleep|]. split; [done|]. destruct (SwitchProcess_switched _ _ _ (g_sched _ Hg) (g_lock _ Hg) ES) as [(_ & En & _) _].
  pose proof Hsame as (_ & En' & Ec & _). cbn [m0 with_eoi kern sc] in *.
  destruct (switch_comes_nearer (sc (kern m)) r s' b cur p pr d (g_sched _ Hg) (g_lock _ Hg) ES Hb Hd Hp Hst) as [Hc|(e & cur' & He & Hcur & Hp')].
  - left. congruence.
  - right. exists e. split; [done|]. destruct (same_states_entry _ _ _ _ _ Hsame Hcur) as (c2 & Hc2 & _), (same_states_entry _ _ _ _ _ Hsame Hp') as (p2 & Hp2 & Est).
    exists (at_distance (sc (kern m)) b e), c2, p2. rewrite Ec. split; [done|]. split; [lia|]. split; [|congruence].
    rewrite at_distance_add by lia. by replace (e + (d - e))%nat with d by lia.
Qed.
(** C9: every process that is ready gets the processor.  When the timer interrupts
    at least as often as there are other processes in the table, whatever the
    processes compute in between, a process that was ready has been switched to at
    one of the interrupts. *)
Theorem ready_process_runs l m i p pr :
  good (kern m) -> (forall t, slice <= u64 (- counter t)) -> Forall (fun t => Z.land t.2 15 = 0) l ->
  entry (sc (kern m)) i p pr -> status_ pr = kSleeping -> (number_of_process_ (sc (kern m)) <= S (length l))%nat ->
  exists l1 l2 m', l = l1 ++ l2 /\ ticks l1 m = Done m' /\ current_ (sc (kern m')) = p.
Proof.
  intros Hg Ht Hal Hp Hst Hlen. assert (forall l d m, Forall (fun t => Z.land t.2 15 = 0) l -> good (kern m) -> waits p d m -> (d <= length l)%nat ->
    exists l1 l2 m', l = l1 ++ l2 /\ ticks l1 m = Done m' /\ current_ (sc (kern m')) = p) as H.
  { clear l m Hg Hal Hp Hlen. induction l as [|t l IH]; intros d m Hal Hg Hw Hd; [destruct Hw as (? & ? & ? & _ & ? & _); cbn in Hd; lia|].
    apply Forall_cons_1 in Hal as [Hat Hal]. destruct (tick_comes_nearer t m p d Hg (Ht _) Hat Hw) as (m1 & E & Hg1 & [Hc|(e & He & Hw1)]).
    - exists [t], l, m1. split; [done|]. cbn [ticks]. rewrite E. done.
    - destruct (IH (d - e)%nat m1 Hal Hg1 Hw1) as (l1 & l2 & m' & -> & E' & Hc); [cbn in Hd; lia|]. exists (t :: l1), l2, m'. cbn [ticks]. rewrite E. done. }
  pose proof (g_sched _ Hg) as Hok. destruct (so_current _ Hok) as (b & cur & Hb). set (n := number_of_process_ (sc (kern m))) in *.
  assert (b < n)%nat as Hbn by (by destruct Hb as (? & _)). assert (i < n)%nat as Hin by (by destruct Hp as (? & _)).
  assert (i <> b) as Hib.
  { intros ->. destruct (entry_index _ _ _ _ _ _ Hp Hb) as [-> ->]. pose proof (proj2 (so_active _ Hok _ _ _ Hb) eq_refl) as Ha. by rewrite Hst in Ha. }
  set (d := (if decide (b < i) then i - b else i + n - b)%nat). assert (1 <= d < n)%nat as Hd by (unfold d; case_decide; lia).
  apply (H l d m Hal Hg); [|lia]. exists b, cur, pr. split; [done|]. split; [done|]. split; [|done].
  replace (at_distance (sc (kern m)) b d) with i; [done|]. unfold at_distance, d. fold n. case_decide.
  - replace (b + (i - b))%nat with i by lia. by rewrite Nat.mod_small.
  - replace (b + (i + n - b))%nat with (i + 1 * n)%nat by lia. rewrite Nat.Div0.mod_add. by rewrite Nat.mod_small.
Qed.
End Fair.

(** ** The way of an interrupt *)

Section Delivery.
Context {H : Type} (asm_addr : asm_entry -> Z).
Hypothesis asm_addr_range : forall e, 0 <= asm_addr e < 2 ^ 64.
Hypothesis asm_addr_inj : forall e e', asm_addr e = asm_addr e' -> e = e'.
Implicit Types t : IDT H.

Definition gate_to (cs ist type dpl : Z) (e : asm_entry) : IDTGateDescriptor :=
  Gate (Z.land (asm_addr e) 0xffff) (u8 cs) (u8 ist mod 8) 0 (type mod 16) 0 (u8 dpl mod 4) 1
    (Z.land (Z.shiftr (asm_addr e) 16) 0xffff) (Z.land (Z.shiftr (asm_addr e) 32) 0xffffffff) 0.
Lemma gate_offset_to cs ist type dpl e : gate_offset (gate_to cs ist type dpl e) = asm_addr e.
Proof using asm_addr_range.
  pose proof (asm_addr_range e). unfold gate_offset, gate_to. cbn [offset_low offset_mid offset_high]. change 0xffff with (Z.ones 16). change 0xffffffff with (Z.ones 32).
  rewrite !Z.land_ones, !Z.shiftr_div_pow2 by lia. zdiv.
Qed.
Lemma init_gates_length n cs t : length (descriptors_ (init_gates asm_addr n cs t)) = length (descriptors_ t) /\
  length (handler_list_ (init_gates asm_addr n cs t)) = length (handler_list_ t).
Proof. induction n as [|n [IH1 IH2]]; [done|]. cbn [init_gates SetEntry descriptors_ handler_list_]. by rewrite !length_insert. Qed.
Lemma init_gates_at n cs t v : (v < n)%nat -> (n <= length (descriptors_ t))%nat -> (n <= length (handler_list_ t))%nat ->
  descriptors_ (init_gates asm_addr n cs t) !! v = Some (gate_to cs 1 kInterruptGate 0 AsmIntHandlerNotImplemented) /\
  handler_list_ (init_gates asm_addr n cs t) !! v = Some None.
Proof.
  intros Hv Hd Hh. induction n as [|n IH]; [lia|]. cbn [init_gates SetEntry descriptors_ handler_list_]. destruct (init_gates_length n cs t) as [E1 E2].
  destruct (decide (v = n)) as [->|Hne]; [by rewrite !list_lookup_insert_eq by lia|]. rewrite !list_lookup_insert_ne by done. apply IH; lia.
Qed.
Lemma gates_other cs v (l : list (nat * Z * asm_entry)) : forall t, v ∉ l.*1.*1 ->
  descriptors_ (foldl (fun t '(v, ist, e) => SetEntry asm_addr v cs ist kInterruptGate 0 e t) t l) !! v = descriptors_ t !! v.
Proof.
  induction l as [|[[v' ist] e] l IH]; intros t Hv; [done|]. cbn [foldl]. cbn in Hv. apply not_elem_of_cons in Hv as [Hne Hv]. rewrite IH by done.
  cbn. by rewrite list_lookup_insert_ne.
Qed.
Lemma gates_at cs v ist e (l : list (nat * Z * asm_entry)) : forall t, NoDup l.*1.*1 -> (v, ist, e) ∈ l -> (v < length (descriptors_ t))%nat ->
  descriptors_ (foldl (fun t '(v, ist, e) => SetEntry asm_addr v cs ist kInterruptGate 0 e t) t l) !! v = Some (gate_to cs ist kInterruptGate 0 e).
Proof.
  induction l as [|[[v' ist'] e'] l IH]; intros t Hnd Hin Hv; [by apply elem_of_nil in Hin|]. cbn [foldl]. cbn in Hnd. apply list.NoDup_cons in Hnd as [Hni Hnd].
  apply elem_of_cons in Hin as [[= <- <- <-]|Hin].
  - rewrite gates_other by done. cbn. by rewrite list_lookup_insert_eq.
  - apply IH; [done|done|]. cbn. by rewrite length_insert.
Qed.
Lemma gates_handlers cs (l : list (nat * Z * asm_entry)) : forall t,
  handler_list_ (foldl (fun t '(v, ist, e) => SetEntry asm_addr v cs ist kInterruptGate 0 e t) t l) = handler_list_ t.
Proof. induction l as [|[[v' ist'] e'] l IH]; intros t; [done|]. cbn [foldl]. by rewrite IH. Qed.
Lemma enter_gate v t cs ist e : descriptors_ t !! v = Some (gate_to cs ist kInterruptGate 0 e) -> enter asm_addr v t = Some e.
Proof using asm_addr_range asm_addr_inj.
  intros E. unfold enter. rewrite E. cbn [present gate_to Z.eqb]. change (Gate _ _ _ _ _ _ _ _ _ _ _) with (gate_to cs ist kInterruptGate 0 e). rewrite gate_offset_to.
  assert (e ∈ asm_entries) as Hin by (destruct e; set_solver). destruct (list_find_elem_of (fun e' => asm_addr e' = asm_addr e) asm_entries e Hin eq_refl) as [[i e'] Ef].
  rewrite Ef. cbn. apply list_find_Some in Ef as (_ & He & _). by rewrite (asm_addr_inj _ _ He).
Qed.

(** The entry for each vector. *)
Definition entry_of (v : nat) : asm_entry :=
  match list_find (fun x : nat * Z * asm_entry => x.1.1 = v) gates with Some (_, x) => x.2 | None => AsmIntHandlerNotImplemented end.
Lemma enter_init v cs t : (v < 256)%nat -> length (descriptors_ t) = 256%nat -> length (handler_list_ t) = 256%nat ->
  enter asm_addr v (InitInternal asm_addr cs t) = Some (entry_of v) /\ handler_list_ (InitInternal asm_addr cs t) !! v = Some None.
Proof using asm_addr_range asm_addr_inj.
  intros Hv Hd Hh. unfold InitInternal. rewrite gates_handlers. destruct (init_gates_at 256 cs t v Hv) as [E1 E2]; [lia|lia|]. split; [|exact E2].
  unfold entry_of. destruct (list_find _ gates) as [[i [[v' ist] e]]|] eqn:Ef.
  - apply list_find_Some in Ef as (Hl & Hx & _). cbn in Hx. subst v'. cbn [snd]. apply (enter_gate _ _ cs ist). apply gates_at; [apply (bool_decide_unpack (NoDup gates.*1.*1)); vm_compute; exact I| |].
    + by eapply list_elem_of_lookup_2.
    + destruct (init_gates_length 256 cs t) as [-> _]. lia.
  - apply list_find_None in Ef. apply (enter_gate _ _ cs 1). rewrite gates_other; [done|]. intros Hin. apply list_elem_of_fmap in Hin as (x & -> & Hin).
    apply list_elem_of_fmap in Hin as (y & -> & Hin). rewrite list.Forall_forall in Ef. exact (Ef y Hin eq_refl).
Qed.
End Delivery.

(** The redirection table. *)
Lemma redirect_read irq value r : 0 <= irq < 100 ->
  forall i, 0 <= i -> Z.testbit (ReadIOAPICRedirectTableRegister irq (WriteIOAPICRedirectTableRegister irq value r)) i = (i <? 64) && Z.testbit value i.
Proof.
  intros Hq i Hi. unfold ReadIOAPICRedirectTableRegister, WriteIOAPICRedirectTableRegister, ReadIOAPICRegister, WriteIOAPICRegister.
  assert (u8 irq = irq) as -> by (apply Z.mod_small; change (2 ^ 8) with 256; lia).
  assert (forall x, 0 <= x < 256 -> u8 x = x) as Hu by (intros x Hx; apply Z.mod_small; change (2 ^ 8) with 256; lia). rewrite !Hu by lia.
  zfalse (0x10 + irq * 2 =? 0x10 + irq * 2 + 1). rewrite !Z.eqb_refl. unfold u32. rewrite Z.lor_spec, Z.shiftl_spec by lia. rewrite !Z.mod_mod by lia.
  destruct (Z.ltb_spec i 32) as [Hlt|Hge].
  - rewrite Z.mod_pow2_bits_low by lia. rewrite (Z.testbit_neg_r _ (i - 32)) by lia. ztrue (i <? 64). by rewrite orb_false_r.
  - rewrite Z.mod_pow2_bits_high by lia. cbn [orb]. destruct (Z.ltb_spec i 64) as [Hlt'|Hge']; cbn [andb].
    + rewrite Z.mod_pow2_bits_low, Z.shiftr_spec by lia. f_equal. lia.
    + by rewrite Z.mod_pow2_bits_high by lia.
Qed.
Lemma redirect_other irq irq' value r : 0 <= irq < 100 -> 0 <= irq' < 100 -> irq' <> irq ->
  ReadIOAPICRedirectTableRegister irq' (WriteIOAPICRedirectTableRegister irq value r) = ReadIOAPICRedirectTableRegister irq' r.
Proof.
  intros H1 H2 Hne. unfold ReadIOAPICRedirectTableRegister, WriteIOAPICRedirectTableRegister, ReadIOAPICRegister, WriteIOAPICRegister.
  assert (forall x, 0 <= x < 256 -> u8 x = x) as Hu by (intros x Hx; apply Z.mod_small; change (2 ^ 8) with 256; lia). rewrite !Hu by (rewrite ?Hu; lia).
  zfalse (0x10 + irq' * 2 =? 0x10 + irq * 2 + 1). zfalse (0x10 + irq' * 2 =? 0x10 + irq * 2).
  zfalse (0x10 + irq' * 2 + 1 =? 0x10 + irq * 2 + 1). by zfalse (0x10 + irq' * 2 + 1 =? 0x10 + irq * 2).
Qed.
Lemma redirect_value_bits old id vec i : 0 <= i ->
  Z.testbit (Z.lor (Z.land old 0x00fffffffffe0000) (Z.lor (u64 (Z.shiftl id 56)) vec)) i =
    (17 <=? i) && (i <? 56) && Z.testbit old i || (56 <=? i) && (i <? 64) && Z.testbit id (i - 56) || Z.testbit vec i.
Proof.
  intros Hi. rewrite !Z.lor_spec, Z.land_spec. change 0x00fffffffffe0000 with (Z.shiftl (Z.ones 39) 17). rewrite Z.shiftl_spec, orb_assoc by lia. f_equal. f_equal.
  - rewrite Z.testbit_ones by lia. replace (17 + 39 <=? i) with (56 <=? i) by done.
    destruct (Z.leb_spec 17 i) as [H|H]; [ztrue (0 <=? i - 17)|zfalse (0 <=? i - 17)]; destruct (Z.ltb_spec i 56) as [H'|H']; cbn [andb];
      [ztrue (i - 17 <? 39)|zfalse (i - 17 <? 39)|..]; by rewrite ?andb_true_r, ?andb_false_r.
  - unfold u64. destruct (Z.ltb_spec i 64) as [H'|H']; [rewrite Z.mod_pow2_bits_low by lia|rewrite Z.mod_pow2_bits_high by lia; by rewrite andb_false_r].
    rewrite Z.shiftl_spec by lia. destruct (Z.leb_spec 56 i) as [H|H]; [done|]. by rewrite Z.testbit_neg_r by lia.
Qed.
Lemma SetInterruptRedirection_ok id irq vec r : 0 <= irq < 100 -> 0 <= vec < 256 ->
  redirected_vector irq (SetInterruptRedirection id irq vec r) = vec /\ redirected_to irq (SetInterruptRedirection id irq vec r) = id mod 256 /\
  masked irq (SetInterruptRedirection id irq vec r) = false.
Proof.
  intros Hq Hv. unfold redirected_vector, redirected_to, masked, SetInterruptRedirection.
  set (x := Z.lor (Z.land _ _) _). assert (forall i, 8 <= i -> Z.testbit vec i = false) as Hvb.
  { intros i Hi. destruct (Z.eq_dec vec 0) as [->|]; [apply Z.bits_0|]. apply Z.bits_above_log2; [lia|]. assert (Z.log2 vec < 8) by (apply Z.log2_lt_pow2; lia). lia. }
  split; [|split].
  - change 256 with (2 ^ 8). apply Z.bits_inj'. intros i Hi. destruct (Z.ltb_spec i 8) as [H|H].
    + rewrite Z.mod_pow2_bits_low, redirect_read by lia. ztrue (i <? 64). unfold x. rewrite redirect_value_bits by lia.
      zfalse (17 <=? i). by zfalse (56 <=? i).
    + rewrite Z.mod_pow2_bits_high by lia. by rewrite Hvb by lia.
  - rewrite <- Z.shiftr_div_pow2 by lia. change 256 with (2 ^ 8). apply Z.bits_inj'. intros i Hi. rewrite Z.shiftr_spec, redirect_read by lia. unfold x.
    rewrite redirect_value_bits, Hvb by lia. zfalse (i + 56 <? 56). ztrue (56 <=? i + 56). rewrite andb_false_r, orb_false_r. cbn [andb orb].
    destruct (Z.ltb_spec i 8) as [H|H].
    + ztrue (i + 56 <? 64). cbn [andb]. rewrite Z.mod_pow2_bits_low by lia. f_equal. lia.
    + zfalse (i + 56 <? 64). cbn [andb]. by rewrite Z.mod_pow2_bits_high by lia.
  - rewrite redirect_read by lia. unfold x. rewrite redirect_value_bits, Hvb by lia. done.
Qed.
Lemma redirection_other id irq irq' vec r : 0 <= irq < 100 -> 0 <= irq' < 100 -> irq' <> irq ->
  ReadIOAPICRedirectTableRegister irq' (SetInterruptRedirection id irq vec r) = ReadIOAPICRedirectTableRegister irq' r.
Proof. intros H1 H2 H3. by apply redirect_other. Qed.

(** The lines of timer, keyboard and mouse with their vectors and entries. *)
Definition lines : list (Z * nat * asm_entry) := [(2, 0x20%nat, AsmIntHandler20); (1, 0x21%nat, AsmIntHandler21); (12, 0x22%nat, AsmIntHandler22)].
Lemma InitIOAPIC_lines id r irq v e : (irq, v, e) ∈ lines ->
  masked irq (InitIOAPIC id r) = false /\ redirected_to irq (InitIOAPIC id r) = id mod 256 /\ redirected_vector irq (InitIOAPIC id r) = Z.of_nat v.
Proof.
  assert (forall irq vec r0 r, 0 <= irq < 100 -> 0 <= vec < 256 -> ReadIOAPICRedirectTableRegister irq r = ReadIOAPICRedirectTableRegister irq (SetInterruptRedirection id irq vec r0) ->
    masked irq r = false /\ redirected_to irq r = id mod 256 /\ redirected_vector irq r = vec) as Hok.
  { intros q vec r0 r1 Hq Hv E. destruct (SetInterruptRedirection_ok id q vec r0 Hq Hv) as (E1 & E2 & E3). unfold masked, redirected_to, redirected_vector in *. by rewrite E. }
  intros Hin. unfold InitIOAPIC. unfold lines in Hin. rewrite !elem_of_cons in Hin. destruct Hin as [[= -> -> _]|[[= -> -> _]|[[= -> -> _]|Hin]]].
  - eapply Hok; [lia|lia|]. by rewrite !redirection_other by lia.
  - eapply Hok; [lia|lia|]. by rewrite redirection_other by lia.
  - eapply Hok; [lia|lia|]. reflexivity.
  - by apply not_elem_of_nil in Hin.
Qed.
Lemma intcode_entry_of v : (v < 256)%nat -> intcode_of (entry_of v) = Z.of_nat v \/ intcode_of (entry_of v) = 0x100.
Proof.
  intros Hv. assert (Forall (fun v => intcode_of (entry_of v) = Z.of_nat v \/ intcode_of (entry_of v) = 0x100) (seq 0 256)) as Hall.
  { apply (bool_decide_unpack _). vm_compute. exact I. }
  rewrite list.Forall_forall in Hall. apply Hall. apply elem_of_seq. lia.
Qed.
Lemma find_handler_unset {H : Type} (h : H) v v' (t t' : IDT H) :
  (v' < 256)%nat -> v' <> v -> handler_list_ t !! v' = Some None -> handler_list_ t' = <[v := Some h]> (handler_list_ t) ->
  find_handler (intcode_of (entry_of v')) t' = Stop Panic.
Proof.
  intros Hv Hne E Et. unfold find_handler. destruct (intcode_entry_of v' Hv) as [->| ->]; [|done].
  ztrue (Z.of_nat v' <=? 0xFF). rewrite Nat2Z.id, Et, list_lookup_insert_ne by done. by rewrite E.
Qed.
(** C30: interrupts reach their handlers.  After the initialisation of the I/O APIC,
    of the descriptor table and of a handler for its vector, each of the lines of
    timer, keyboard and mouse is unmasked, is sent to the local APIC of the
    processor with its vector, whose gate leads to the entry that calls the handler
    that was set; every other vector that has no handler leads to the panic. *)
Theorem interrupts_reach_handlers {H : Type} (asm_addr : asm_entry -> Z) (h : H) cs id r t irq v e :
  (forall e, 0 <= asm_addr e < 2 ^ 64) -> (forall e e', asm_addr e = asm_addr e' -> e = e') ->
  length (descriptors_ t) = 256%nat -> length (handler_list_ t) = 256%nat -> (irq, v, e) ∈ lines ->
  masked irq (InitIOAPIC id r) = false /\ redirected_to irq (InitIOAPIC id r) = id mod 256 /\ redirected_vector irq (InitIOAPIC id r) = Z.of_nat v /\
  exists t', SetIntHandler (Z.of_nat v) h (InitInternal asm_addr cs t) = Done t' /\ enter asm_addr v t' = Some e /\ find_handler (intcode_of e) t' = Done h /\
    forall v', (v' < 256)%nat -> v' <> v -> exists e', enter asm_addr v' t' = Some e' /\ find_handler (intcode_of e') t' = Stop Panic.
Proof.
  intros Hr Hi Hd Hh Hin. assert (0 <= irq < 100 /\ 0 <= Z.of_nat v < 256 /\ intcode_of e = Z.of_nat v /\ entry_of v = e) as (Hq & Hv & Hc & He).
  { apply list.Forall_forall with (x := (irq, v, e)) (P := fun x => 0 <= x.1.1 < 100 /\ 0 <= Z.of_nat x.1.2 < 256 /\ intcode_of x.2 = Z.of_nat x.1.2 /\ entry_of x.1.2 = x.2) in Hin;
      [exact Hin|]. repeat (apply Forall_cons; [cbn; repeat split; lia|]). apply List.Forall_nil. }
  destruct (InitIOAPIC_lines id r irq v e Hin) as (E1 & E2 & E3). do 3 (split; [done|]).
  assert (v < 256)%nat as Hvn by lia. eexists. split; [unfold SetIntHandler; ztrue (Z.of_nat v <=? 0xFF); reflexivity|].
  set (t' := Idt _ _). assert (forall v', enter asm_addr v' t' = enter asm_addr v' (InitInternal asm_addr cs t)) as Ht by done.
  assert (length (handler_list_ (InitInternal asm_addr cs t)) = 256%nat) as Hlen.
  { unfold InitInternal. rewrite gates_handlers. destruct (init_gates_length asm_addr 256 cs t) as [_ ->]. done. }
  assert (handler_list_ t' = <[v := Some h]> (handler_list_ (InitInternal asm_addr cs t))) as Eh by (unfold t'; cbn [handler_list_]; by rewrite Nat2Z.id).
  split; [|split].
  - rewrite Ht. destruct (enter_init asm_addr Hr Hi v cs t Hvn Hd Hh) as [-> _]. by rewrite He.
  - rewrite Hc. unfold find_handler. ztrue (Z.of_nat v <=? 0xFF). rewrite Nat2Z.id, Eh, list_lookup_insert_eq by lia. done.
  - intros v' Hv' Hne. exists (entry_of v'). rewrite Ht. destruct (enter_init asm_addr Hr Hi v' cs t Hv' Hd Hh) as [E En]. split; [done|].
    by eapply find_handler_unset.
Qed.

(** ** Examples *)

Definition demo_regs (n : Z) : GeneralRegisterContext := Greg n 0 0 0 0 0 0 0 0 0 0 0 0 0 0.
Definition demo_frame (n : Z) : InterruptContext := IntCtx n Gdt.kKernelCSSelector 0x202 (n + 0x1000) Gdt.kKernelDSSelector.
Definition demo_task (id : Z) (st : Status) (idx ctx : Z) : Process := SetStatus st (set_contexts (Some ctx) None (new_Process id 0 idx [])).
(** Three processes with their contexts, the first runs and the last is ready. *)
Definition demo_tasks : sched :=
  Sched (<[0%nat := demo_task 1 kRunning 0 0x100]> (<[1%nat := demo_task 2 kStopped 1 0x200]> {[2%nat := demo_task 3 kSleeping 2 0x300]}))
    (Some 0%nat :: Some 1%nat :: Some 2%nat :: replicate 253 None) 3 0 (Lock_ 0) true.
Definition demo_contexts : gmap Z CPUContext :=
  <[0x100 := CpuCtx 0 (demo_regs 0) (demo_frame 0) []]> (<[0x200 := CpuCtx 0x8000 (demo_regs 2) (demo_frame 0x2000) []]>
    {[0x300 := CpuCtx 0x9000 (demo_regs 3) (demo_frame 0x3000) []]}).
Definition demo_tasks_machine : machine :=
  Machine (Cpu (demo_regs 1) (demo_frame 0x1000) []) (Kernel demo_tasks demo_contexts (Mem (fun _ => 0) ∅) 0x7000 0 []).
Definition demo_counter (t : nat) : Z := 1000 + Z.of_nat t mod 2.
Lemma demo_counter_in_time t : 100 <= u64 (- demo_counter t).
Proof. pose proof (Z.mod_pos_bound (Z.of_nat t) 2 ltac:(lia)). unfold demo_counter, u64. zdiv. Qed.
Lemma demo_tasks_entry i p pr : entry demo_tasks i p pr ->
  (i = 0 /\ p = 0 /\ pr = demo_task 1 kRunning 0 0x100 \/ i = 1 /\ p = 1 /\ pr = demo_task 2 kStopped 1 0x200 \/ i = 2 /\ p = 2 /\ pr = demo_task 3 kSleeping 2 0x300)%nat.
Proof.
  intros (Hi & Hs & Hp). cbn in Hi. destruct i as [|[|[|i]]]; [| | |lia]; cbn in Hs; injection Hs as <-; vm_compute in Hp; injection Hp as <-; tauto.
Qed.
Lemma demo_tasks_ok : sched_ok demo_tasks.
Proof.
  split; [reflexivity|apply Nat.leb_le; reflexivity| | | | |].
  - intros i Hi. cbn in Hi. destruct i as [|[|[|i]]]; [| | |lia]; do 2 eexists; (split; [apply Nat.ltb_lt; reflexivity|split; reflexivity]).
  - by intros i p pr [(-> & -> & ->)|[(-> & -> & ->)|(-> & -> & ->)]]%demo_tasks_entry.
  - by intros i p pr [(-> & -> & ->)|[(-> & -> & ->)|(-> & -> & ->)]]%demo_tasks_entry.
  - by intros i p pr [(-> & -> & ->)|[(-> & -> & ->)|(-> & -> & ->)]]%demo_tasks_entry.
  - exists 0%nat, (demo_task 1 kRunning 0 0x100). split; [apply Nat.ltb_lt; reflexivity|split; reflexivity].
Qed.
Lemma demo_tasks_good : good (kern demo_tasks_machine).
Proof.
  split; [exact demo_tasks_ok|reflexivity| |].
  - intros i p pr [(-> & -> & ->)|[(-> & -> & ->)|(-> & -> & ->)]]%demo_tasks_entry; (split; [reflexivity|]); do 2 eexists; (split; reflexivity).
  - by intros i j p q pr qr [(-> & -> & ->)|[(-> & -> & ->)|(-> & -> & ->)]]%demo_tasks_entry [(-> & -> & ->)|[(-> & -> & ->)|(-> & -> & ->)]]%demo_tasks_entry.
Qed.
(** The timer interrupts the first process and the third goes on where it was. *)
Lemma timer_interrupt_invisible_witness :
  exists m', interrupted (TimerHandler demo_counter 10 100 0 true) 0 0x7ff0 demo_tasks_machine = Done m' /\
    current_ (sc (kern m')) = 2%nat /\ proc m' = Cpu (demo_regs 3) (demo_frame 0x3000) [] /\ cr3_reg (kern m') = 0x9000 /\
    view m' 0 = view demo_tasks_machine 0.
Proof.
  destruct (timer_interrupt_invisible demo_counter 10 100 0 true 0 0x7ff0 demo_tasks_machine demo_tasks_good eq_refl)
    as (m' & r & s' & E & _ & _ & _ & _ & _ & _ & Hv). rewrite in_time_not_early in Hv by apply demo_counter_in_time.
  exists m'. split; [exact E|]. vm_compute in E. injection E as <-. split; [reflexivity|]. split; [reflexivity|]. split; [reflexivity|].
  apply Hv. exists 0%nat, (demo_task 1 kRunning 0 0x100). split; [apply Nat.ltb_lt; reflexivity|split; reflexivity].
Defined.
Lemma ready_process_runs_witness :
  exists l1 l2 m', replicate 2 (Cpu (demo_regs 5) (demo_frame 0x5000) [], 0, 0x7ff0) = l1 ++ l2 /\
    ticks demo_counter 10 100 0 false l1 demo_tasks_machine = Done m' /\ current_ (sc (kern m')) = 2%nat.
Proof.
  apply (ready_process_runs demo_counter 10 100 0 false _ demo_tasks_machine 2 2 (demo_task 3 kSleeping 2 0x300));
    [exact demo_tasks_good|exact demo_counter_in_time| | |reflexivity|apply Nat.leb_le; reflexivity].
  - repeat (apply Forall_cons; [reflexivity|]). apply List.Forall_nil.
  - split; [apply Nat.ltb_lt; reflexivity|split; reflexivity].
Defined.
Definition demo_asm_addr (e : asm_entry) : Z :=
  0xffff8000100000 + 0x40 * (match list_find (fun e' => intcode_of e' = intcode_of e) asm_entries with Some (i, _) => Z.of_nat i | None => 0 end).
Definition demo_gate : IDTGateDescriptor := Gate 0 0 0 0 0 0 0 0 0 0 0.
(** The timer's line with a handler that is a number. *)
Lemma interrupts_reach_handlers_witness :
  redirected_vector 2 (InitIOAPIC 3 (fun _ => 0xffffffff)) = 0x20 /\
  exists t', SetIntHandler 0x20 7 (InitInternal demo_asm_addr Gdt.kKernelCSSelector (Idt (replicate 256 demo_gate) (replicate 256 None))) = Done t' /\
    find_handler 0x20 t' = Done 7.
Proof.
  destruct (interrupts_reach_handlers demo_asm_addr 7 Gdt.kKernelCSSelector 3 (fun _ => 0xffffffff) (Idt (replicate 256 demo_gate) (replicate 256 None)) 2 0x20 AsmIntHandler20)
    as (_ & _ & Hv & t' & E & _ & Hf & _).
  - intros e. destruct e; split; reflexivity || (intros Hx; discriminate Hx).
  - intros e e'. destruct e, e'; (reflexivity || (intros Hx; vm_compute in Hx; discriminate Hx)).
  - reflexivity.
  - reflexivity.
  - apply list_elem_of_here.
  - split; [exact Hv|]. by exists t'.
Defined.

(** When the counter reads zero, the handler leaves after the scheduler has made
    another process the current one and before any register was exchanged. *)
Example switch_without_registers :
  exists m', interrupted (TimerHandler (fun _ => 0) 10 100 0 true) 0 0x7ff0 demo_tasks_machine = Done m' /\
    current_ (sc (kern m')) = 2%nat /\ proc m' = proc demo_tasks_machine /\ cr3_reg (kern m') = 0x7000.
Proof. eexists. split; [vm_compute; reflexivity|]. split; [reflexivity|]. split; reflexivity. Qed.
